(* ===== verification/_CoqProject ===== *)
-Q . S2P
Prelude.v
GoTime.v
GoString.v
Uuid.v
GoCrypto.v
GoJson.v
GoJsonText.v
GoJsonStruct.v
GoTimeFormat.v
GoFloat.v
GoParse.v
GoJsonDecode.v
GoUnmarshal.v
GoJsonReads.v
GoTimeParse.v
GoFloatText.v
GoZip.v
Responsibility.v
Safety.v
AuditLedger.v
Spatial.v
SpatialProperties.v
Estimator.v
Evidence.v
EvidenceObjects.v
EvidenceSets.v
EvidenceStore.v
Evaluation.v
EvaluationLifecycle.v
EvaluationRules.v
EvaluationReach.v
EvaluationDecision.v
EvaluationPersistence.v
Outbox.v
Policy.v
PolicyRegistry.v
PolicyAdmission.v
Pds.v
PdsRules.v
PdsService.v
PdsProperties.v
PdsExamples.v
PdsExecution.v
RuleOperators.v
RuleDecisions.v
PolicyCompiler.v
PolicyCompilation.v
PolicyExamples.v
PdsPolicyExecution.v
PdsPolicyExamples.v
Bundle.v
BundleDecision.v
BundleSigning.v
Archive.v
BundleProperties.v
BundleVerified.v
HandoverProof.v
HandoverProperties.v
BundleExamples.v
Postgres.v
PgResponsibility.v
PgRecords.v
PgOutbox.v
PgEvaluations.v
PgPolicies.v
PgEvidence.v
GoCodec.v
ArchiveProperties.v
PgRoundTrip.v
PgLedger.v
PgSound.v
PgProperties.v
PgOwnership.v
PgPolicyProperties.v
PgExamples.v
Migrations.v
GoDecoder.v
HttpApi.v
HttpProperties.v
Commands.v
