(* ===== verification/Prelude.v ===== *)
(** * Cargo OS PDS: a verification library

    The Physical Decision System (PDS) of Cargo OS decides whether a physical
    handover may happen. Evidence about a cargo session is ingested and stored
    write-once; an evaluation of the session is bound to one version of a
    verification policy and to the evidence that qualifies under it; the rules of
    the policy are executed on that evidence; the result of the evaluation
    completes it. Every change of an evaluation leaves a domain event in a
    transactional outbox. Responsibility for an object is handed over by a safety
    machine that fails closed, and audit entries form a hash chain. A final decision
    is packed with its evidence and its policy into a bundle that anyone can verify
    again, and a proof of handover binds the bundle to the transfer.

    This library is a shallow embedding of the Go sources: a struct is a record, a
    function that returns an error an [outcome], a method that changes its
    receiver an [action] that returns the new receiver on the error path too.
    Definitions keep the names of the sources and are executable; each file names
    the Go files it models.

    ** Files

    The language and its standard library:
    - Prelude: outcomes, actions, loops, 64-bit arithmetic, generic lemmas.
    - GoTime, GoTimeFormat: instants, durations, locations; RFC 3339 text.
    - GoString, GoParse, GoFloat: white space, patterns, integers, rationals,
      durations, binary64.
    - GoCrypto: big-endian words, base64 and SHA-256, executable.
    - GoJson, GoJsonText, GoJsonStruct, GoJsonDecode: decoding and
      encoding of JSON, its round trips and canonical form, strict decoding
      into structs. GoUnmarshal, GoJsonReads, GoTimeParse, GoFloatText: lenient
      decoding into structs, what an encoding reads as, RFC 3339 times parsed,
      shortest decimals.
    - Uuid: third_party/google_uuid.

    The program, one Module per Go package:
    - Responsibility ([responsibility]): the aggregate of the responsible
      Participant, its repository contract as a type class with the memory
      repository as instance, the handover service, delivery claims.
    - Safety ([safety]): the handover machine over that contract, and the
      motion interlock.
    - AuditLedger ([audit]): entries, roots, and the append of the Postgres
      ledger.
    - Evaluation ([evaluation]) with EvaluationLifecycle, EvaluationRules,
      EvaluationReach, EvaluationDecision, EvaluationPersistence: the aggregate
      with every method. [inv] is its invariant, [step] what a method may do,
      [run] a sequence of methods.
    - Outbox ([outbox]): records, retries, a pass of the publisher and
      ([publisher]) its goroutines.
    - Evidence ([evidence]) with EvidenceObjects, EvidenceSets and EvidenceStore:
      objects, qualification, repository, service.
    - Policy ([policy]) with PolicyRegistry and PolicyAdmission: versions,
      signatures, registry, and admission over any keys and registry.
    - RuleOperators ([ruleoperator]) with RuleDecisions: selectors and the five
      rule operators. PolicyCompiler ([compiler]) with PolicyCompilation and
      PolicyExamples: policy documents compiled into operators and into
      qualification policies.
    - Pds ([pds]) and PdsRules ([rules]) with PdsService,
      PdsProperties, PdsExecution, PdsExamples, PdsPolicyExecution,
      PdsPolicyExamples: the evaluation service over the memory store, rule
      execution and qualification, each operation run in a [World] in which
      other clients change the store between its calls.
    - Spatial ([spatial]) with SpatialProperties: estimates
      of positions, admissibility, changes of floor. Estimator ([estimator]):
      requests, their execution through a port, results.
    - Bundle ([evidencebundle]) with BundleProperties: evidence bundles, the policy
      snapshot they embed, audit records. BundleDecision ([verification]) with
      BundleVerified: the decision of a bundle, recalculated. BundleSigning
      ([signing]): signatures, timestamps and certificates.
    - GoZip ([zip]): zip files. Archive ([archives]) with ArchiveProperties: the
      portable archives of bundles, with their signatures and timestamps.
    - HandoverProof ([proof]) with HandoverProperties: portable proofs of a
      handover. BundleExamples builds and verifies one.
    - Postgres ([postgres]): the tables, the connection and the ledger of the
      PostgreSQL store. PgResponsibility ([handover]), PgRecords ([records]),
      PgOutbox ([outbox_repository]), PgEvaluations ([evaluations]), PgPolicies
      ([policies]) and PgEvidence ([evidences], [estimates]): its
      repositories. PgLedger, PgSound and PgOwnership: what its calls do to the
      database, its invariant, what stays. GoCodec and
      PgRoundTrip: JSON back and forth. PgProperties, PgPolicyProperties and
      PgExamples.
    - Migrations ([migrations]): the installation of the schema.
    - GoDecoder: json.Decoder on a stream. HttpApi ([httpapi]) with
      HttpProperties: the HTTP interface.
    - Commands ([commands]): the commands of an operator, from their arguments to
      the statements of the store.

    ** What the theorems show

    - Service: updates are linearizable whatever other clients do, the store keeps
      its invariant along every sequence of requests, expiration waits for the
      deadline, rules are executed once, outcomes are exactly the decisions of the
      operators of the bound policy on the bound evidence, and an evaluation under
      an admitted policy can be executed.
    - Evaluation: the lifecycle is monotone, a completed evaluation is justified,
      a derived result is the worst outcome and always completes the evaluation, a
      snapshot rehydrates to the aggregate, a rollback restores the checkpoint, a
      failed method changes nothing (with the stated exceptions).
    - Evidence: objects are immutable and intact, an object qualifies exactly when
      it meets the policy, the qualification of a set has a declarative definition
      and does not depend on the order of a map.
    - Policies: the hash binds the content up to a SHA-256 collision, resolution is
      a partial function, closed versions stay closed, admission fails closed,
      validated documents compile.
    - Rules: a match is equality of JSON values, a range an interval of rationals,
      a sequence takes its steps in order; no decision depends on the order of the
      evidence.
    - Handover: the service refines an abstract handover, a commit needs a
      permit that was valid when it was verified, HALT is left only by recovery,
      motion is allowed exactly under a valid permit.
    - Audit and outbox: the ledger is a chain whose head commits to its history;
      retries are bounded and their delays do not overflow; of the publisher's loops
      only the last is live, and a stop ends them and closes the broker.
    - Spatial: admissibility and floor consistency are exactly their declarative
      definitions; an execution of the estimator yields exactly the canonical
      estimate that its request asks for.
    - Bundles and proofs: a bundle that is built verifies, and its root binds its
      content up to a SHA-256 collision; a verified decision is the one its
      embedded policy makes on its embedded evidence; a verified proof of handover
      has everything it names attested by keys that were live, and its root binds
      it all.
    - Archives: what is imported is what was exported; importing a timestamped
      archive is verifying what was exported; any archive that is imported holds its
      bundle and nothing else.
    - The PostgreSQL store: whatever is answered to its statements, everything
      recorded has its entry in the ledger, is found again and permanent; transfers
      refine the in-memory repository; a claimed outbox record is its worker's
      until its lock is over; resolution of a policy is never ambiguous, and a version that was closed stays closed.
    - Migrations are installed once and in the order of their names, whatever fails.
    - The HTTP interface: a body is taken exactly when it is one document of at most
      1 MiB, or blank where it may be, and only what it decodes into counts; a refusal is one of a fixed list and changes nothing;
      acknowledged evidence stays served, byte for byte.
    - The commands: an admission puts a version in the database that every check
      was made for, or changes nothing; a revoked key admits nothing more.

    The sections named properties, and the files whose names end in Examples, hold
    concrete runs at which the theorems with hypotheses apply.

    ** Bounds and fuel

    Durations, versions and counters are [Z] with the wrap-around of their width
    written out ([u64_succ], [i64]); instants are unbounded. [Decode] of JSON runs
    on fuel 2 * length + 2 of its input: every call consumes a byte or goes one
    level down, and [GoJsonText] shows that the result does not depend on the
    fuel. [ParseDuration] runs on the length of its text plus one, as every turn of
    its loop consumes a byte ([durationLoop_fuel]). [delayLoop] of the retry policy
    runs on the attempts of the record. Every other recursion is structural.
    SHA-256 is computed, never assumed injective: theorems that depend on it end in
    a collision they exhibit.

    ** Parameters

    [ed25519.Verify], the JSON of domain events ([marshal]), the offsets of time
    zones, the order in which Go iterates over a map, the random bytes of new
    identities and the clock. Interfering clients are any functions on the store
    that keep its contract ([good_world]).
    Bundles take theirs from the class [Platform]; [PlatformLaws] states what
    [sort.Slice] promises, and the examples give an instance. The PostgreSQL store
    takes what its driver and server decide from the class [Driver], with
    [DriverLaws] (time columns hold microseconds, the collation is a total order,
    RETURNING lists the rows), again with an instance in the examples. A connection
    carries the answers to come, so every theorem holds for every failure.

    ** Not modelled

    - Contexts: a cancelled context ends a call with an error before it has an
      effect, which the error paths of the readers and stores cover.
    - Fused multiply-add: the Go specification allows it, the model rounds after
      every operation, as the amd64 compiler does.
    - Of the PostgreSQL server: its text encoding (a text that UTF-8 columns cannot hold is a
      refused statement) and its isolation levels (a transaction is one step, as
      serializability and the row locks of the claims make it).
    - cmd/pds-server and cmd/pds-migrate: process start-up, environment,
      time-outs, listeners. *)

From Stdlib Require Export ZArith Lia Bool ZifyBool ZifyN ZifyNat.
From stdpp Require Export base decidable list gmap strings sorting.

Open Scope Z_scope.

(** ** Results of fallible operations

    A Go function returning [(T, error)] returns an [outcome]; a method that
    mutates its receiver returns the new receiver next to the outcome, so that
    a mutation performed before an early error return stays visible. *)

Inductive outcome (E A : Type) : Type :=
  | Ok (a : A)
  | Err (e : E).

Arguments Ok {E A} a.
Arguments Err {E A} e.

Definition obind {E A B} (r : outcome E A) (k : A -> outcome E B) : outcome E B :=
  match r with
  | Ok a => k a
  | Err e => Err e
  end.

Definition omap_err {E F A} (f : E -> F) (r : outcome E A) : outcome F A :=
  match r with
  | Ok a => Ok a
  | Err e => Err (f e)
  end.

Definition is_ok {E A} (r : outcome E A) : bool :=
  match r with
  | Ok _ => true
  | Err _ => false
  end.

(** A stateful, fallible computation: the effect of a Go method on its
    receiver. The state is returned on the error path too. *)

Definition action (S E A : Type) : Type := S -> S * outcome E A.

Definition aret {S E A} (a : A) : action S E A := fun s => (s, Ok a).

Definition abind {S E A B} (m : action S E A) (k : A -> action S E B) : action S E B :=
  fun s =>
    match m s with
    | (s', Ok a) => k a s'
    | (s', Err e) => (s', Err e)
    end.

(** Run one action after another over a list, stopping at the first error: a
    Go [for] loop whose body returns early on error. *)

Fixpoint afor {S E A} (body : A -> action S E unit) (l : list A) : action S E unit :=
  match l with
  | [] => aret tt
  | x :: l' => abind (body x) (fun _ => afor body l')
  end.

(** A method called through a pointer: on nil it returns its error and there
    is nothing to change. *)

Definition on_pointer {S E A} (nil_error : E) (m : action S E A) : action (option S) E A :=
  fun o =>
    match o with
    | None => (None, Err nil_error)
    | Some s => let '(s', r) := m s in (Some s', r)
    end.

Declare Scope go_scope.
Delimit Scope go_scope with go.

Notation "x == y" := (bool_decide (x = y)) (at level 70, no associativity) : go_scope.
Notation "x != y" := (negb (bool_decide (x = y))) (at level 70, no associativity) : go_scope.
Notation "'let!' x := r 'in' k" := (obind r (fun x => k))
  (at level 200, x name, r at level 100, k at level 200, right associativity) : go_scope.
Notation "'do!' x <- m ; k" := (abind m (fun x => k))
  (at level 200, x name, m at level 100, k at level 200, right associativity) : go_scope.

Open Scope go_scope.

(** ** Record update

    [r <| f := v |>] copies a record with one field replaced, written with
    projections so that it reduces on a record variable. A record type opts in
    by an [Eta] instance listing its fields. *)

Class Eta (R : Type) : Type := eta : R -> R.

Class FieldSetter {R T : Type} (proj : R -> T) : Type := fset : T -> R -> R.

Arguments fset {R T} proj {_} v r /.

Ltac build_setter :=
  lazymatch goal with
  | |- @FieldSetter ?R ?T ?proj =>
      let v := fresh "v" in let r := fresh "r" in intros v r;
      let inst := constr:(_ : Eta R) in
      let inst' := eval red in inst in
      let body := eval cbv beta in (inst' r) in
      let field := eval cbv beta in (proj r) in
      match body with
      | context C [field] => let t := context C [v] in exact t
      end
  end.

#[export] Hint Extern 0 (FieldSetter _) => build_setter : typeclass_instances.

Notation "r <| f := v |>" := (fset f v r)
  (at level 1, f at level 11, v at level 200, left associativity) : go_scope.

(** ** Machine integers

    [uint64], [uint32] and [time.Duration] (an [int64]) values are integers
    in [Z] with Go's wrap-around written out. *)

Definition u64_modulus : Z := 2 ^ 64.
Definition u32_modulus : Z := 2 ^ 32.
Definition i64_max : Z := 2 ^ 63 - 1.
Definition i64_min : Z := - 2 ^ 63.

Definition u64 (z : Z) : Z := z mod u64_modulus.
Definition u32 (z : Z) : Z := z mod u32_modulus.
Definition i64 (z : Z) : Z := (z + 2 ^ 63) mod 2 ^ 64 - 2 ^ 63.

(** [v++] on a [uint64] and on a [uint32]. *)
Definition u64_succ (v : Z) : Z := u64 (v + 1).
Definition u32_succ (v : Z) : Z := u32 (v + 1).

Definition is_u64 (z : Z) : Prop := 0 <= z < u64_modulus.
Definition is_u32 (z : Z) : Prop := 0 <= z < u32_modulus.
Definition is_i64 (z : Z) : Prop := i64_min <= z <= i64_max.

(** ** Tactics *)

Create HintDb go.
Create HintDb gobool.

#[export] Hint Rewrite
  orb_true_iff orb_false_iff andb_true_iff andb_false_iff negb_true_iff negb_false_iff
  bool_decide_eq_true bool_decide_eq_false
  Z.ltb_lt Z.ltb_ge Z.leb_le Z.leb_gt Z.eqb_eq Z.eqb_neq : gobool.

(** Turn boolean facts of the code's conditions into propositions. *)
Ltac go_bool :=
  repeat match goal with
  | H : context [bool_decide _] |- _ => progress autorewrite with gobool in H
  | H : _ || _ = _ |- _ => progress autorewrite with gobool in H
  | H : _ && _ = _ |- _ => progress autorewrite with gobool in H
  | H : negb _ = _ |- _ => progress autorewrite with gobool in H
  | H : (_ <? _) = _ |- _ => progress autorewrite with gobool in H
  | H : (_ <=? _) = _ |- _ => progress autorewrite with gobool in H
  | H : (_ =? _) = _ |- _ => progress autorewrite with gobool in H
  end; destruct_and?.

(** Split the early returns of an unfolded method. *)
Ltac go_cases :=
  repeat (case_match; simplify_eq/=); go_bool; simplify_eq/=.

(** Close a branch whose conditions contradict the hypotheses. *)
Ltac go_absurd := exfalso; go_bool; destruct_or?; first [done | lia | congruence].

(** ** Shared lemmas *)

Section outcomes.
Context {E A B : Type}.

Lemma obind_ok (r : outcome E A) (k : A -> outcome E B) b :
  obind r k = Ok b <-> exists a, r = Ok a /\ k a = Ok b.
Proof. destruct r; naive_solver. Qed.

Lemma is_ok_true (r : outcome E A) : is_ok r = true <-> exists a, r = Ok a.
Proof. destruct r; naive_solver. Qed.
End outcomes.

Section actions.
Context {S E A : Type}.

(** A property kept by the body of an [afor] loop is kept by the loop,
    whether or not the loop stops early. *)
Lemma afor_preserves (P : S -> Prop) (body : A -> action S E unit) l :
  (forall x s, x ∈ l -> P s -> P (fst (body x s))) ->
  forall s, P s -> P (fst (afor body l s)).
Proof.
  induction l as [|x l IH]; intros Hbody s Hs; simpl; [done|].
  unfold abind. specialize (Hbody x s) as Hx.
  destruct (body x s) as [s' [[]|e]] eqn:Heq; simpl in *.
  - apply IH; [|apply Hx; [left|done]]. intros y s0 Hy. apply Hbody. by right.
  - apply Hx; [left|done].
Qed.
End actions.

Lemma u64_range z : is_u64 (u64 z).
Proof. unfold is_u64, u64. apply Z.mod_pos_bound. reflexivity. Qed.

Lemma u64_small z : is_u64 z -> u64 z = z.
Proof. intros H. unfold u64. by apply Z.mod_small. Qed.

Lemma u64_succ_range v : is_u64 (u64_succ v).
Proof. apply u64_range. Qed.

Lemma u64_succ_small v : is_u64 v -> v <> u64_modulus - 1 -> u64_succ v = v + 1.
Proof. unfold is_u64. intros H Hne. apply u64_small. unfold is_u64. lia. Qed.

Lemma u64_succ_max : u64_succ (u64_modulus - 1) = 0.
Proof. reflexivity. Qed.

Lemma u64_succ_nonzero v : is_u64 v -> u64_succ v <> 0 -> u64_succ v = v + 1.
Proof.
  intros Hv Hne. apply u64_succ_small; [done|].
  intros ->. by apply Hne, u64_succ_max.
Qed.

Lemma i64_small z : is_i64 z -> i64 z = z.
Proof.
  unfold is_i64, i64, i64_min, i64_max. intros H.
  change (2 ^ 63) with 9223372036854775808 in *.
  change (2 ^ 64) with 18446744073709551616 in *.
  rewrite Z.mod_small; lia.
Qed.

Lemma i64_range z : is_i64 (i64 z).
Proof.
  unfold is_i64, i64, i64_min, i64_max.
  change (2 ^ 63) with 9223372036854775808. change (2 ^ 64) with 18446744073709551616.
  pose proof (Z.mod_pos_bound (z + 9223372036854775808) 18446744073709551616). lia.
Qed.

(** The conversion [uint64(x)] of an [int64] loses nothing. *)
Lemma u64_of_i64_inj a b : is_i64 a -> is_i64 b -> u64 a = u64 b -> a = b.
Proof.
  unfold is_i64, u64, u64_modulus, i64_min, i64_max.
  change (2 ^ 63) with 9223372036854775808. change (2 ^ 64) with 18446744073709551616.
  intros Ha Hb H.
  pose proof (Z.div_mod a 18446744073709551616). pose proof (Z.div_mod b 18446744073709551616).
  lia.
Qed.

#[export] Hint Resolve u64_range u64_succ_range i64_range : go.

(** The first element of a list with a decidable property. *)
Lemma list_find_none_forall {A} (P : A -> Prop) `{!forall x, Decision (P x)} (l : list A) :
  list_find P l = None <-> Forall (fun x => ~ P x) l.
Proof. apply list_find_None. Qed.

Section sublists.
Context {A B : Type}.

Lemma sublist_forall (P : A -> Prop) (l k : list A) : k `sublist_of` l -> Forall P l -> Forall P k.
Proof. induction 1; intros Hl; inversion_clear Hl; auto. Qed.

Lemma sublist_strongly_sorted (R : relation A) (l k : list A) :
  k `sublist_of` l -> StronglySorted R l -> StronglySorted R k.
Proof.
  induction 1 as [|x k l Hs IH|x k l Hs IH]; intros Hl; inversion_clear Hl; [constructor| |auto].
  constructor; [auto|]. by eapply sublist_forall.
Qed.

Lemma sublist_fmap (f : A -> B) (l k : list A) : k `sublist_of` l -> f <$> k `sublist_of` f <$> l.
Proof. induction 1; cbn; by constructor. Qed.

Lemma sublist_take_drop (i : nat) (l : list A) : take i l ++ drop (S i) l `sublist_of` l.
Proof. rewrite <- delete_take_drop. apply sublist_delete. Qed.

Lemma filter_ext_elem (P Q : A -> Prop) `{!forall x, Decision (P x), !forall x, Decision (Q x)}
    (l : list A) :
  (forall x, x ∈ l -> P x <-> Q x) -> filter P l = filter Q l.
Proof.
  induction l as [|x l IH]; intros Hpq; [done|]. rewrite !filter_cons.
  rewrite IH by (intros y Hy; apply Hpq; by right).
  specialize (Hpq x ltac:(left)). repeat case_decide; tauto.
Qed.

Lemma filter_all (P : A -> Prop) `{!forall x, Decision (P x)} (l : list A) :
  Forall P l -> filter P l = l.
Proof.
  induction 1 as [|x l Hx Hl IH]; [done|]. rewrite filter_cons, decide_True by done. by f_equal.
Qed.

(** Distinct keys identify the elements of a list. *)
Lemma nodup_fmap_inj (f : A -> B) (l : list A) x y :
  NoDup (f <$> l) -> x ∈ l -> y ∈ l -> f x = f y -> x = y.
Proof.
  intros Hn [i Hi]%list_elem_of_lookup_1 [j Hj]%list_elem_of_lookup_1 Hf.
  assert (i = j) as ->; [|congruence].
  eapply NoDup_lookup; [exact Hn|rewrite list_lookup_fmap, Hi; done|].
  rewrite list_lookup_fmap, Hj. cbn. by rewrite Hf.
Qed.
End sublists.

(** ** Stable sorting

    [sort.SliceStable]: the elements are ordered, and those of equal rank stay as
    they were. *)

Section stable_sort.
Context {A : Type} (R : relation A) `{!RelDecision R}.

Fixpoint stable_insert (x : A) (l : list A) : list A :=
  match l with
  | [] => [x]
  | y :: l => if decide (R x y) then x :: y :: l else y :: stable_insert x l
  end.

Definition stable_sort (l : list A) : list A := foldr stable_insert [] l.

(** What a stable sort makes of [l]. *)
Record stably_sorted (l l' : list A) : Prop := {
  stable_elements : l' ≡ₚ l;
  stable_ordered : StronglySorted R l';
  stable_ties : forall x, filter (fun y => R x y /\ R y x) l' = filter (fun y => R x y /\ R y x) l
}.

Lemma stable_insert_perm x l : stable_insert x l ≡ₚ x :: l.
Proof.
  induction l as [|y l IH]; [done|]. cbn. destruct (decide (R x y)); [done|]. rewrite IH. constructor.
Qed.

Lemma stable_sort_perm l : stable_sort l ≡ₚ l.
Proof. induction l as [|x l IH]; [done|]. cbn. by rewrite stable_insert_perm, IH. Qed.

Context {R_trans : Transitive R} {R_total : Total R}.

Lemma stable_insert_sorted x l : StronglySorted R l -> StronglySorted R (stable_insert x l).
Proof.
  induction 1 as [|y l Hl IH Hy]; [by repeat constructor|]. cbn. destruct (decide (R x y)) as [Hxy|Hxy].
  - constructor; [by constructor|]. constructor; [done|]. eapply Forall_impl; [exact Hy|]. intros z Hz. by etrans.
  - constructor; [done|]. rewrite stable_insert_perm. constructor; [|done]. destruct (total R x y) as [H|H]; [by destruct Hxy|done].
Qed.

Lemma stable_insert_ties z x l :
  filter (fun y => R z y /\ R y z) (stable_insert x l) = filter (fun y => R z y /\ R y z) (x :: l).
Proof.
  induction l as [|y l IH]; [done|]. cbn [stable_insert]. destruct (decide (R x y)) as [Hxy|Hxy]; [done|].
  rewrite filter_cons, IH, !filter_cons. destruct (decide (R z x /\ R x z)) as [[H1 H2]|_]; [|done].
  destruct (decide (R z y /\ R y z)) as [[H3 H4]|_]; [|done]. destruct Hxy. by etrans.
Qed.

Lemma stable_sort_stably l : stably_sorted l (stable_sort l).
Proof.
  split; [apply stable_sort_perm|..].
  - induction l as [|x l IH]; [constructor|]. by apply stable_insert_sorted.
  - intros z. induction l as [|x l IH]; [done|]. cbn [stable_sort foldr]. rewrite stable_insert_ties, !filter_cons.
    unfold stable_sort in IH. by rewrite IH.
Qed.

(** There is only one such order. *)
Lemma stably_sorted_unique l l1 l2 : stably_sorted l l1 -> stably_sorted l l2 -> l1 = l2.
Proof.
  intros [P1 S1 T1] [P2 S2 T2]. assert (forall x, filter (fun y => R x y /\ R y x) l1 = filter (fun y => R x y /\ R y x) l2)
    as HT by (intros x; by rewrite T1, T2).
  rewrite <- P2 in P1. clear l P2 T1 T2. revert l2 P1 S2 HT. induction S1 as [|x l1 S1 IH Hx]; intros l2 Hp S2 HT.
  { by apply Permutation_nil_l in Hp. }
  destruct S2 as [|y l2 S2 Hy]; [by apply Permutation_nil_r in Hp|].
  assert (R x x) as Hxx by (by destruct (total R x x)). assert (R y y) as Hyy by (by destruct (total R y y)).
  assert (forall z l, Forall (R z) l -> R z z -> forall w, w ∈ z :: l -> R z w) as Hmin.
  { intros z l Hl Hz w [->|Hw]%elem_of_cons; [done|]. by eapply Forall_forall in Hl. }
  assert (R x y) as Hxy by (apply (Hmin x l1 Hx Hxx); rewrite Hp; left).
  assert (R y x) as Hyx by (apply (Hmin y l2 Hy Hyy); rewrite <- Hp; left).
  assert (x = y) as <-.
  { specialize (HT x). rewrite !filter_cons, decide_True, decide_True in HT by done. by injection HT. }
  f_equal. apply IH; [by apply Permutation_cons_inv in Hp|done|]. intros z. specialize (HT z). rewrite !filter_cons in HT.
  destruct (decide (R z x /\ R x z)); [by injection HT|done].
Qed.
End stable_sort.

Arguments stably_sorted {A} R {_} l l'.

Lemma stably_sorted_ext {A} (R R' : relation A) `{!RelDecision R, !RelDecision R'} l l' :
  (forall x y, R x y <-> R' x y) -> stably_sorted R l l' -> stably_sorted R' l l'.
Proof.
  intros HR [Hp Hs Ht]. split; [done|..].
  - clear Hp Ht. induction Hs as [|x l' Hs IH Hx]; constructor; [done|]. eapply Forall_impl; [exact Hx|]. intros y. apply HR.
  - intros x. rewrite <- !(list_filter_iff (fun y => R x y /\ R y x) (fun y => R' x y /\ R' y x)); [done|..];
      intros y; by rewrite !HR.
Qed.
