(* ===== verification/GoTime.v ===== *)
(** * Go's [time] package, as far as the program uses it

    A [time.Time] is an instant (nanoseconds since year 1, the zero time)
    together with the location pointer that [==] on the struct also compares.
    [UTC] clears the location, which is what makes [==] agree with [Equal] on
    normalized values. The monotonic clock reading is not modelled: every clock
    of the program calls [.UTC()], which strips it. Instants are unbounded in
    [Z] (Go's range is about 292 billion years either way); durations are
    [int64] nanoseconds, and [Sub] saturates as in Go. *)

From S2P Require Import Prelude.

Inductive Location :=
  | UTCLoc
  | ZoneLoc (pointer : positive).

#[export] Instance Location_eq_dec : EqDecision Location.
Proof. solve_decision. Defined.

Record Time := MkTime {
  instant : Z;
  location : Location
}.

#[export] Instance Time_eq_dec : EqDecision Time.
Proof. solve_decision. Defined.

Definition ZeroTime : Time := MkTime 0 UTCLoc.

Definition IsZero (t : Time) : bool := instant t =? 0.
Definition UTC (t : Time) : Time := MkTime (instant t) UTCLoc.
Definition Before (t u : Time) : bool := instant t <? instant u.
Definition After (t u : Time) : bool := instant u <? instant t.
Definition TimeEqual (t u : Time) : bool := instant t =? instant u.

Definition Duration := Z.

Definition Nanosecond : Duration := 1.
Definition Microsecond : Duration := 1000.
Definition Second : Duration := 1000000000.
Definition Minute : Duration := 60 * Second.

Definition Add (t : Time) (d : Duration) : Time := MkTime (instant t + d) (location t).

(** [t.Sub(u)] saturates at the ends of [int64]. *)
Definition Sub (t u : Time) : Duration :=
  Z.max i64_min (Z.min i64_max (instant t - instant u)).

(** [t.Truncate(time.Microsecond)] rounds down from the zero time. *)
Definition TruncateMicrosecond (t : Time) : Time :=
  MkTime (instant t - instant t mod Microsecond) (location t).

(** Seconds between the zero time and the Unix epoch. *)
Definition unixEpochSeconds : Z := 62135596800.

(** [t.UnixMicro()], an [int64]. *)
Definition UnixMicro (t : Time) : Z :=
  i64 ((instant t - unixEpochSeconds * Second) / Microsecond).

(** A UTC time at a whole number of seconds, for examples. *)
Definition utc_seconds (s : Z) : Time := MkTime (s * Second) UTCLoc.

(** ** Lemmas *)

Lemma UTC_idemp t : UTC (UTC t) = UTC t.
Proof. done. Qed.

Lemma IsZero_UTC t : IsZero (UTC t) = IsZero t.
Proof. done. Qed.

Lemma UTC_fixed t : UTC t = t <-> location t = UTCLoc.
Proof. destruct t as [i l]; unfold UTC; simpl. split; [|intros ->]; congruence. Qed.

Lemma location_UTC t : location (UTC t) = UTCLoc.
Proof. done. Qed.

(** On UTC values the struct equality [==] and [Equal] coincide. *)
Lemma UTC_equal t u : UTC t = UTC u <-> TimeEqual t u = true.
Proof.
  unfold TimeEqual. rewrite Z.eqb_eq. unfold UTC. split; [congruence|].
  by intros ->.
Qed.

Lemma TimeEqual_utc t u :
  location t = UTCLoc -> location u = UTCLoc -> TimeEqual t u = true <-> t = u.
Proof.
  destruct t, u; unfold TimeEqual; simpl. intros -> ->.
  rewrite Z.eqb_eq. split; congruence.
Qed.

Lemma TimeEqual_refl t : TimeEqual t t = true.
Proof. apply Z.eqb_refl. Qed.

Lemma After_not_Before t u : After t u = true <-> Before t u = false /\ TimeEqual t u = false.
Proof. unfold After, Before, TimeEqual. lia. Qed.

Lemma Sub_range t u : is_i64 (Sub t u).
Proof. unfold is_i64, Sub, i64_min, i64_max. lia. Qed.

Lemma TruncateMicrosecond_idemp t :
  TruncateMicrosecond (TruncateMicrosecond t) = TruncateMicrosecond t.
Proof.
  unfold TruncateMicrosecond, Microsecond; simpl. f_equal.
  pose proof (Z.div_mod (instant t) 1000 ltac:(lia)) as Hd.
  replace (instant t - instant t mod 1000) with (instant t / 1000 * 1000) by lia.
  rewrite Z.mod_mul by lia. lia.
Qed.

Lemma TruncateMicrosecond_exact t :
  TruncateMicrosecond t = t <-> instant t mod Microsecond = 0.
Proof.
  destruct t as [i l]. unfold TruncateMicrosecond; simpl.
  split; [intros H; injection H; lia|intros ->; f_equal; lia].
Qed.

(** Microsecond-truncated instants in [int64]'s range of Unix microseconds are
    determined by [UnixMicro], so the encoders that hash it lose nothing. *)
Lemma UnixMicro_inj t u :
  instant t mod Microsecond = 0 -> instant u mod Microsecond = 0 ->
  is_i64 ((instant t - unixEpochSeconds * Second) / Microsecond) ->
  is_i64 ((instant u - unixEpochSeconds * Second) / Microsecond) ->
  UnixMicro t = UnixMicro u -> instant t = instant u.
Proof.
  unfold UnixMicro. intros Ht Hu Rt Ru H.
  rewrite !i64_small in H by done. clear Rt Ru.
  change (unixEpochSeconds * Second) with (62135596800000000 * Microsecond) in H.
  rewrite <- !Z.add_opp_r, <- !Z.mul_opp_l, !Z.div_add in H by done.
  apply Z.add_cancel_r in H. unfold Microsecond in *.
  pose proof (Z.div_mod (instant t) 1000). pose proof (Z.div_mod (instant u) 1000). lia.
Qed.

#[export] Hint Resolve UTC_idemp location_UTC TimeEqual_refl Sub_range : go.

(** Unfold the time predicates so that [lia] decides them. *)
Ltac time_lia := unfold IsZero, Before, After, TimeEqual, UTC, Add in *; simpl in *; lia.
