(* ===== verification/GoString.v ===== *)
(** * Go strings: trimming, upper-casing and the patterns the program matches

    A Go string is a sequence of bytes ([string] over [ascii]). [TrimSpace]
    removes the UTF-8 encodings of Unicode white space at both ends;
    [ToUpper] is modelled for the use the program makes of it, just before a
    comparison with ASCII text. *)

From Stdlib Require Import Ascii String.
From S2P Require Import Prelude.

Abbreviation bytes := (list ascii).

Definition bytes_of (s : string) : bytes := list_ascii_of_string s.
Definition string_of (b : bytes) : string := string_of_list_ascii b.

Definition byte_in (lo hi : N) (c : ascii) : bool :=
  (lo <=? N_of_ascii c)%N && (N_of_ascii c <=? hi)%N.
Definition byte_is (n : N) (c : ascii) : bool := (N_of_ascii c =? n)%N.

(** ** White space

    [unicode.IsSpace] by length of its UTF-8 encoding: one byte (tab to
    carriage return, and space), two bytes (U+0085, U+00A0), three bytes
    (U+1680, U+2000 to U+200A, U+2028, U+2029, U+202F, U+205F, U+3000). *)

Definition space1 (a : ascii) : bool := byte_in 9 13 a || byte_is 32 a.
Definition space2 (a b : ascii) : bool := byte_is 194 a && (byte_is 133 b || byte_is 160 b).
Definition space3 (a b c : ascii) : bool :=
  (byte_is 225 a && byte_is 154 b && byte_is 128 c) ||
  (byte_is 226 a && byte_is 128 b &&
     (byte_in 128 138 c || byte_is 168 c || byte_is 169 c || byte_is 175 c)) ||
  (byte_is 226 a && byte_is 129 b && byte_is 159 c) ||
  (byte_is 227 a && byte_is 128 b && byte_is 128 c).

Section trim_front.
Context (w1 : ascii -> bool) (w2 : ascii -> ascii -> bool) (w3 : ascii -> ascii -> ascii -> bool).

Fixpoint trim_front (l : bytes) : bytes :=
  match l with
  | [] => []
  | a :: l1 =>
      if w1 a then trim_front l1 else
      match l1 with
      | [] => l
      | b :: l2 =>
          if w2 a b then trim_front l2 else
          match l2 with
          | [] => l
          | c :: l3 => if w3 a b c then trim_front l3 else l
          end
      end
  end.

Definition starts_space (l : bytes) : bool :=
  match l with
  | [] => false
  | a :: l1 =>
      w1 a ||
      match l1 with
      | [] => false
      | b :: l2 => w2 a b || match l2 with [] => false | c :: _ => w3 a b c end
      end
  end.
End trim_front.

Definition trim_left : bytes -> bytes := trim_front space1 space2 space3.
Definition trim_right (l : bytes) : bytes :=
  reverse (trim_front space1 (fun b a => space2 a b) (fun c b a => space3 a b c) (reverse l)).

(** [strings.TrimSpace]. *)
Definition TrimSpace (s : string) : string := string_of (trim_right (trim_left (bytes_of s))).

(** ** Upper case

    ASCII letters, and the two runes outside ASCII whose upper case is an
    ASCII letter (U+0131 to I, U+017F to S). Every other rune is left alone:
    its upper case is outside ASCII too, and the program applies [ToUpper]
    only to strings it then matches against [reasonCodePattern] or compares
    with the names of the rule operators, which are ASCII. *)

Definition upper_byte (c : ascii) : ascii :=
  if byte_in 97 122 c then ascii_of_N (N_of_ascii c - 32) else c.

Fixpoint upper_bytes (l : bytes) : bytes :=
  match l with
  | [] => []
  | a :: l1 =>
      match l1 with
      | b :: l2 =>
          if byte_is 196 a && byte_is 177 b then "I"%char :: upper_bytes l2 else
          if byte_is 197 a && byte_is 191 b then "S"%char :: upper_bytes l2 else
          upper_byte a :: upper_bytes l1
      | [] => [upper_byte a]
      end
  end.

Definition ToUpper (s : string) : string := string_of (upper_bytes (bytes_of s)).

(** ** Patterns *)

Definition is_upper (c : ascii) : bool := byte_in 65 90 c.
Definition is_digit (c : ascii) : bool := byte_in 48 57 c.
Definition is_code_char (c : ascii) : bool := is_upper c || is_digit c || byte_is 95 c.
Definition is_lower_hex (c : ascii) : bool := is_digit c || byte_in 97 102 c.

(** [^[A-Z][A-Z0-9_]{lo,hi}$] *)
Definition match_code (lo hi : nat) (s : string) : bool :=
  match bytes_of s with
  | [] => false
  | c :: rest =>
      is_upper c && forallb is_code_char rest &&
      (lo <=? length rest)%nat && (length rest <=? hi)%nat
  end.

(** Byte-wise string order and [sort.Strings]. *)
Definition sort_strings : list string -> list string := merge_sort String.le.

(** ** Lemmas on trimming *)

Section trim_front_lemmas.
Context (w1 : ascii -> bool) (w2 : ascii -> ascii -> bool) (w3 : ascii -> ascii -> ascii -> bool).
Notation trim := (trim_front w1 w2 w3).
Notation starts := (starts_space w1 w2 w3).

Lemma trim_front_unstarted l : starts l = false -> trim l = l.
Proof.
  destruct l as [|a [|b [|c l]]]; simpl; intros H; rewrite ?orb_false_iff in H;
    destruct_and?; repeat case_match; congruence.
Qed.

Lemma trim_front_clean l : starts (trim l) = false.
Proof.
  remember (length l) as n eqn:Hn. revert l Hn.
  induction n as [n IH] using lt_wf_ind. intros [|a l1] ->; simpl; [done|].
  destruct (w1 a) eqn:H1; [apply (IH (length l1)); simpl; lia|].
  destruct l1 as [|b l2]; simpl; [by rewrite H1|].
  destruct (w2 a b) eqn:H2; [apply (IH (length l2)); simpl; lia|].
  destruct l2 as [|c l3]; simpl; [by rewrite H1, H2|].
  destruct (w3 a b c) eqn:H3; [apply (IH (length l3)); simpl; lia|].
  simpl. by rewrite H1, H2, H3.
Qed.

Lemma trim_front_idemp l : trim (trim l) = trim l.
Proof. apply trim_front_unstarted, trim_front_clean. Qed.

(** The white space removed is a prefix. *)
Lemma trim_front_suffix l : exists p, l = p ++ trim l.
Proof.
  remember (length l) as n eqn:Hn. revert l Hn.
  induction n as [n IH] using lt_wf_ind. intros [|a l1] ->; simpl; [by exists []|].
  destruct (w1 a).
  { destruct (IH (length l1) ltac:(simpl; lia) l1 eq_refl) as [p Hp].
    exists (a :: p). simpl. by f_equal. }
  destruct l1 as [|b l2]; simpl; [by exists []|].
  destruct (w2 a b).
  { destruct (IH (length l2) ltac:(simpl; lia) l2 eq_refl) as [p Hp].
    exists (a :: b :: p). simpl. by do 2 f_equal. }
  destruct l2 as [|c l3]; simpl; [by exists []|].
  destruct (w3 a b c); [|by exists []].
  destruct (IH (length l3) ltac:(simpl; lia) l3 eq_refl) as [p Hp].
  exists (a :: b :: c :: p). simpl. by do 3 f_equal.
Qed.

Lemma starts_space_prefix l k : starts (l ++ k) = false -> starts l = false.
Proof.
  destruct l as [|a [|b [|c l]]]; simpl; intros H; [done| | |done];
    repeat (apply orb_false_iff in H as [? H]); by rewrite ?orb_false_r, ?orb_false_iff.
Qed.
End trim_front_lemmas.

Lemma trim_right_prefix l : exists k, l = trim_right l ++ k.
Proof.
  unfold trim_right.
  destruct (trim_front_suffix space1 (fun b a => space2 a b) (fun c b a => space3 a b c) (reverse l))
    as [p Hp].
  exists (reverse p). rewrite <- reverse_app, <- Hp. by rewrite reverse_involutive.
Qed.

Lemma trim_right_idemp l : trim_right (trim_right l) = trim_right l.
Proof. unfold trim_right. by rewrite reverse_involutive, trim_front_idemp. Qed.

(** Trimming the right end leaves the left end trimmed. *)
Lemma trim_left_trim_right l : trim_left (trim_right (trim_left l)) = trim_right (trim_left l).
Proof.
  apply trim_front_unstarted.
  destruct (trim_right_prefix (trim_left l)) as [k Hk].
  apply starts_space_prefix with (k := k). rewrite <- Hk. apply trim_front_clean.
Qed.

Lemma bytes_of_string_of b : bytes_of (string_of b) = b.
Proof. apply list_ascii_of_string_of_list_ascii. Qed.

Lemma string_of_bytes_of s : string_of (bytes_of s) = s.
Proof. apply string_of_list_ascii_of_string. Qed.

Lemma bytes_of_app s t : bytes_of (s ++ t)%string = bytes_of s ++ bytes_of t.
Proof. induction s as [|c s IH]; [done|]. exact (f_equal (cons c) IH). Qed.

(** [TrimSpace] is idempotent. *)
Lemma TrimSpace_idemp s : TrimSpace (TrimSpace s) = TrimSpace s.
Proof.
  unfold TrimSpace. rewrite bytes_of_string_of, trim_left_trim_right.
  by rewrite trim_right_idemp.
Qed.

Lemma TrimSpace_empty : TrimSpace "" = "".
Proof. done. Qed.

(** ** Lemmas on codes *)

(** ASCII, and not white space. *)
Definition plain_char (c : ascii) : bool := negb (space1 c) && (N_of_ascii c <? 128)%N.

Lemma is_code_char_plain c : is_code_char c = true -> plain_char c = true.
Proof.
  unfold is_code_char, is_upper, is_digit, plain_char, space1, byte_in, byte_is. lia.
Qed.

Lemma space2_high a b : space2 a b = true -> (128 <= N_of_ascii a)%N /\ (128 <= N_of_ascii b)%N.
Proof. unfold space2, byte_is. lia. Qed.

Lemma space3_high a b c :
  space3 a b c = true -> (128 <= N_of_ascii a)%N /\ (128 <= N_of_ascii c)%N.
Proof. unfold space3, byte_in, byte_is. lia. Qed.

Lemma plain_chars_unstarted w2 w3 (l : bytes) :
  (forall a b, w2 a b = true -> (128 <= N_of_ascii a)%N) ->
  (forall a b c, w3 a b c = true -> (128 <= N_of_ascii a)%N) ->
  Forall (fun c => plain_char c = true) l -> starts_space space1 w2 w3 l = false.
Proof.
  intros H2 H3 Hl. destruct Hl as [|a l Ha Hl]; [done|]. simpl.
  apply andb_true_iff in Ha as [Ha Hlt]. apply negb_true_iff in Ha. rewrite Ha. simpl.
  destruct l as [|b l]; [done|]. apply orb_false_iff. split.
  - destruct (w2 a b) eqn:E; [|done]. apply H2 in E. lia.
  - destruct l as [|c l]; [done|]. destruct (w3 a b c) eqn:E; [|done]. apply H3 in E. lia.
Qed.

(** A string of visible ASCII characters is its own trimming. *)
Lemma TrimSpace_plain s :
  Forall (fun c => plain_char c = true) (bytes_of s) -> TrimSpace s = s.
Proof.
  intros H. unfold TrimSpace, trim_right, trim_left.
  rewrite (trim_front_unstarted _ _ _ (bytes_of s)).
  2:{ apply plain_chars_unstarted; [|apply space3_high|done]. intros a b. apply space2_high. }
  rewrite trim_front_unstarted.
  - by rewrite reverse_involutive, string_of_bytes_of.
  - apply plain_chars_unstarted.
    + intros a b E. apply space2_high in E. tauto.
    + intros a b c E. apply space3_high in E. tauto.
    + by apply Forall_reverse.
Qed.

Lemma TrimSpace_code s :
  Forall (fun c => is_code_char c = true) (bytes_of s) -> TrimSpace s = s.
Proof. intros H. apply TrimSpace_plain. eapply Forall_impl; [done|]. apply is_code_char_plain. Qed.

Lemma upper_byte_code c : is_code_char c = true -> upper_byte c = c.
Proof.
  unfold upper_byte, is_code_char, is_upper, is_digit, byte_in, byte_is.
  intros H. case_match; [lia|done].
Qed.

Lemma upper_bytes_plain a b l :
  byte_is 196 a = false -> byte_is 197 a = false ->
  upper_bytes (a :: b :: l) = upper_byte a :: upper_bytes (b :: l).
Proof.
  intros H1 H2. transitivity
    (if byte_is 196 a && byte_is 177 b then "I"%char :: upper_bytes l else
     if byte_is 197 a && byte_is 191 b then "S"%char :: upper_bytes l else
     upper_byte a :: upper_bytes (b :: l)); [done|].
  by rewrite H1, H2.
Qed.

Lemma upper_bytes_code l :
  Forall (fun c => is_code_char c = true) l -> upper_bytes l = l.
Proof.
  induction 1 as [|a l Ha Hl IH]; [done|].
  destruct l as [|b l]; [simpl; by rewrite upper_byte_code|].
  rewrite upper_bytes_plain
    by (unfold is_code_char, is_upper, is_digit, byte_in, byte_is in *; lia).
  by rewrite IH, upper_byte_code.
Qed.

Lemma ToUpper_code s :
  Forall (fun c => is_code_char c = true) (bytes_of s) -> ToUpper s = s.
Proof. intros H. unfold ToUpper. by rewrite upper_bytes_code, string_of_bytes_of. Qed.

Lemma match_code_chars lo hi s :
  match_code lo hi s = true -> Forall (fun c => is_code_char c = true) (bytes_of s).
Proof.
  unfold match_code. destruct (bytes_of s) as [|c l]; [done|].
  intros [[[Hc Hl]%andb_true_iff _]%andb_true_iff _]%andb_true_iff.
  constructor; [unfold is_code_char; by rewrite Hc|].
  apply Forall_forall. intros x Hx.
  apply (proj1 (forallb_forall _ _) Hl). by apply list_elem_of_In.
Qed.

Lemma match_code_nonempty lo hi s : match_code lo hi s = true -> s <> "".
Proof. by intros H ->. Qed.

#[export] Hint Rewrite TrimSpace_idemp TrimSpace_empty : go.
#[export] Hint Resolve TrimSpace_idemp : go.

Arguments TrimSpace : simpl never.
Arguments ToUpper : simpl never.
Arguments match_code : simpl never.
