(* ===== verification/Uuid.v ===== *)
(** * UUIDs ([third_party/google_uuid/uuid.go])

    A [UUID] is Go's [[16]byte]: a list of bytes, of length 16 ([is_uuid]).
    The text form and its parser are modelled byte by byte. *)

From Stdlib Require Import Ascii String.
From S2P Require Import Prelude GoString.

Definition UUID := bytes.

#[export] Instance UUID_eq_dec : EqDecision UUID := _.
#[export] Instance UUID_countable : Countable UUID := _.

Definition is_uuid (u : UUID) : Prop := length u = 16%nat.

(** [var Nil UUID] *)
Definition NilUUID : UUID := replicate 16 zero.

Inductive UuidError := ErrInvalidUUID.

(** [u[i] = f(u[i])] *)
Definition update_byte (i : nat) (f : N -> N) (u : bytes) : bytes :=
  alter (fun c => ascii_of_N (f (N_of_ascii c))) i u.

(** [New]: sixteen random bytes with the version and variant bits forced. *)
Definition NewUUID (random : bytes) : UUID :=
  update_byte 8 (fun b => N.lor (N.land b 63) 128)
    (update_byte 6 (fun b => N.lor (N.land b 15) 64) random).

(** ** Hexadecimal *)

Definition hex_digit (n : N) : ascii :=
  if (n <? 10)%N then ascii_of_N (48 + n) else ascii_of_N (87 + n).

Definition hex_value (c : ascii) : option N :=
  let n := N_of_ascii c in
  if byte_in 48 57 c then Some (n - 48)%N else
  if byte_in 97 102 c then Some (n - 87)%N else
  if byte_in 65 70 c then Some (n - 55)%N else None.

Fixpoint hex_encode (l : bytes) : bytes :=
  match l with
  | [] => []
  | c :: l' => hex_digit (N_of_ascii c / 16) :: hex_digit (N_of_ascii c mod 16) :: hex_encode l'
  end.

Fixpoint hex_decode (l : bytes) : option bytes :=
  match l with
  | [] => Some []
  | a :: b :: l' =>
      match hex_value a, hex_value b, hex_decode l' with
      | Some x, Some y, Some r => Some (ascii_of_N (16 * x + y) :: r)
      | _, _, _ => None
      end
  | [_] => None
  end.

(** [u[i:j]] *)
Definition slice (i j : nat) (u : bytes) : bytes := take (j - i) (drop i u).

Definition UuidString (u : UUID) : string :=
  string_of (hex_encode (slice 0 4 u) ++ "-"%char :: hex_encode (slice 4 6 u) ++
             "-"%char :: hex_encode (slice 6 8 u) ++ "-"%char :: hex_encode (slice 8 10 u) ++
             "-"%char :: hex_encode (slice 10 16 u)).

(** [Parse]: [strings.ReplaceAll(strings.TrimSpace(value), "-", "")], then 32
    hexadecimal digits. *)
Definition Parse (value : string) : outcome UuidError UUID :=
  let compact := List.filter (fun c => negb (byte_is 45 c)) (bytes_of (TrimSpace value)) in
  if (length compact != 32%nat)%go then Err ErrInvalidUUID else
  match hex_decode compact with
  | None => Err ErrInvalidUUID
  | Some decoded => Ok decoded
  end.

(** ** Theorems *)

Lemma small_N_cases (P : N -> Prop) (k : nat) n :
  (n < N.of_nat k)%N -> Forall P (map N.of_nat (seq 0 k)) -> P n.
Proof.
  intros Hn HP. eapply Forall_forall; [exact HP|].
  apply list_elem_of_In, in_map_iff. exists (N.to_nat n). split; [lia|]. apply in_seq. lia.
Qed.

Lemma hex_digit_value n : (n < 16)%N -> hex_value (hex_digit n) = Some n.
Proof. intros H. pattern n. apply (small_N_cases _ 16); [done|]. by repeat constructor. Qed.

Definition hex_char (c : ascii) : bool := plain_char c && negb (byte_is 45 c).

Lemma hex_digit_char n : (n < 16)%N -> hex_char (hex_digit n) = true.
Proof. intros H. pattern n. apply (small_N_cases _ 16); [done|]. by repeat constructor. Qed.

Lemma hex_nibbles c : (N_of_ascii c / 16 < 16)%N /\ (N_of_ascii c mod 16 < 16)%N.
Proof.
  pose proof (N_ascii_bounded c).
  split; [apply N.Div0.div_lt_upper_bound; lia | by apply N.mod_lt].
Qed.

Lemma hex_decode_encode l : hex_decode (hex_encode l) = Some l.
Proof.
  induction l as [|c l IH]; [done|]. simpl. destruct (hex_nibbles c).
  rewrite !hex_digit_value, IH by done.
  do 2 f_equal. rewrite <- N.Div0.div_mod. apply ascii_N_embedding.
Qed.

Lemma hex_encode_length l : length (hex_encode l) = (2 * length l)%nat.
Proof. induction l; simpl; lia. Qed.

Lemma hex_encode_app l k : hex_encode (l ++ k) = hex_encode l ++ hex_encode k.
Proof. induction l; simpl; congruence. Qed.

Lemma hex_encode_chars l : Forall (fun c => hex_char c = true) (hex_encode l).
Proof.
  induction l as [|c l IH]; simpl; [constructor|]. destruct (hex_nibbles c).
  repeat constructor; try apply hex_digit_char; done.
Qed.

Lemma hex_chars_kept l :
  Forall (fun c => hex_char c = true) l -> List.filter (fun c => negb (byte_is 45 c)) l = l.
Proof.
  induction 1 as [|c l [_ Hc]%andb_true_iff Hl IH]; [done|]. simpl. by rewrite Hc, IH.
Qed.

Lemma UuidString_trimmed u : TrimSpace (UuidString u) = UuidString u.
Proof.
  apply TrimSpace_plain. unfold UuidString. rewrite bytes_of_string_of.
  assert (forall l, Forall (fun c => plain_char c = true) (hex_encode l)) as Hhex.
  { intros l. eapply Forall_impl; [apply hex_encode_chars|]. by intros c [??]%andb_true_iff. }
  repeat first [apply Forall_app; split; [apply Hhex|] | constructor; [done|] | apply Hhex].
Qed.

Lemma UuidString_compact u :
  is_uuid u ->
  List.filter (fun c => negb (byte_is 45 c)) (bytes_of (UuidString u)) = hex_encode u.
Proof.
  intros Hu. unfold UuidString. rewrite bytes_of_string_of.
  repeat (rewrite List.filter_app; simpl).
  rewrite !hex_chars_kept by apply hex_encode_chars.
  rewrite <- !hex_encode_app. f_equal.
  do 16 (destruct u as [|? u]; [done|]). by destruct u.
Qed.

(** The text form of a UUID parses back to it. *)
Lemma Parse_UuidString u : is_uuid u -> Parse (UuidString u) = Ok u.
Proof.
  intros Hu. unfold Parse. cbv zeta.
  by rewrite UuidString_trimmed, UuidString_compact, hex_encode_length, Hu, hex_decode_encode.
Qed.

Lemma version_byte_nonzero c : ascii_of_N (N.lor (N.land (N_of_ascii c) 15) 64) <> zero.
Proof.
  pose proof (N_ascii_bounded c) as H. revert H. generalize (N_of_ascii c). intros n Hn.
  pattern n. apply (small_N_cases _ 256); [done|].
  simpl. by repeat constructor.
Qed.

(** A generated UUID is never [Nil]: byte 6 carries the version. *)
Lemma NewUUID_not_nil random : is_uuid random -> NewUUID random <> NilUUID.
Proof.
  intros Hr. do 16 (destruct random as [|? random]; [done|]).
  destruct random; [|done]. intros H.
  apply (f_equal (fun l => l !! 6%nat)) in H. simpl in H. injection H.
  by apply version_byte_nonzero.
Qed.
