(* ===== verification/GoCrypto.v ===== *)
(** * Byte encodings ([encoding/binary], [encoding/base64], [crypto/sha256])

    [sha256] is FIPS 180-4, executable on byte lists. Theorems about hashed
    records never assume that it is injective: where two different records
    could share a root, the statement exhibits the two preimages ([Collision]).
    [base64.StdEncoding.DecodeString]: carriage returns and newlines are skipped,
    padding is required, trailing bits are not checked. *)

From Stdlib Require Import Ascii String.
From S2P Require Import Prelude GoString.

(** ** Big-endian integers *)

(** The low [n] bytes of [z], most significant first
    ([binary.BigEndian.PutUint64] for [n = 8]). *)
Fixpoint be_bytes (n : nat) (z : Z) : bytes :=
  match n with
  | O => []
  | S n' => be_bytes n' (z / 256) ++ [ascii_of_N (Z.to_N (z mod 256))]
  end.

Definition be64 (z : Z) : bytes := be_bytes 8 z.

(** [binary.BigEndian.PutUint64(b, uint64(len(s)))] and then [s]: the
    length-prefixed strings of the program's hash preimages. *)
Definition length_prefixed (s : string) : bytes :=
  be64 (Z.of_nat (length (bytes_of s))) ++ bytes_of s.

Definition be_value (b : bytes) : Z :=
  fold_left (fun acc c => acc * 256 + Z.of_N (N_of_ascii c)) b 0.

(** ** SHA-256 *)

Section sha256.
Local Open Scope N_scope.

Definition w32 (n : N) : N := n mod 4294967296.
Definition add32 (a b : N) : N := w32 (a + b).
Definition rotr (k x : N) : N := N.lor (N.shiftr x k) (w32 (N.shiftl x (32 - k))).
Definition not32 (x : N) : N := N.lxor x 4294967295.

Definition big_sigma0 x := N.lxor (rotr 2 x) (N.lxor (rotr 13 x) (rotr 22 x)).
Definition big_sigma1 x := N.lxor (rotr 6 x) (N.lxor (rotr 11 x) (rotr 25 x)).
Definition small_sigma0 x := N.lxor (rotr 7 x) (N.lxor (rotr 18 x) (N.shiftr x 3)).
Definition small_sigma1 x := N.lxor (rotr 17 x) (N.lxor (rotr 19 x) (N.shiftr x 10)).
Definition ch x y z := N.lxor (N.land x y) (N.land (not32 x) z).
Definition maj x y z := N.lxor (N.land x y) (N.lxor (N.land x z) (N.land y z)).

(** The constants are the first 32 bits of the fractional parts of the roots of
    the first primes (FIPS 180-4, 4.2.2 and 5.3.3): cube roots for the rounds,
    square roots for the initial hash. *)
Definition is_prime (p : nat) : bool :=
  (2 <=? p)%nat && forallb (fun d => negb (p mod d =? 0)%nat) (seq 2 (p - 2)).

Definition primes (below : nat) : list N := N.of_nat <$> List.filter is_prime (seq 0 below).

(** The largest [r < 2 ^ bits] above [acc] whose cube is at most [n]. *)
Fixpoint cube_root (bits : nat) (acc n : N) : N :=
  match bits with
  | O => acc
  | S bits =>
      let r := acc + N.shiftl 1 (N.of_nat bits) in
      cube_root bits (if r * r * r <=? n then r else acc) n
  end.

Definition round_constants : list N :=
  Eval vm_compute in (fun p => w32 (cube_root 40 0 (N.shiftl p 96))) <$> primes 312.

Definition initial_hash : list N :=
  Eval vm_compute in (fun p => w32 (N.sqrt (N.shiftl p 64))) <$> primes 20.

(** The next [n] words of the message schedule after the sixteen in [w]. *)
Fixpoint schedule (n : nat) (w : list N) : list N :=
  match n with
  | O => []
  | S n' =>
      match w with
      | w0 :: w1 :: _ :: _ :: _ :: _ :: _ :: _ :: _ :: w9 :: _ :: _ :: _ :: _ :: w14 :: _ =>
          let t := add32 (add32 (small_sigma1 w14) w9) (add32 (small_sigma0 w1) w0) in
          t :: schedule n' (tail w ++ [t])
      | _ => []
      end
  end.

Definition sha_round (st : list N) (kw : N * N) : list N :=
  match st with
  | [a; b; c; d; e; f; g; h] =>
      let t1 := add32 (add32 (add32 h (big_sigma1 e)) (add32 (ch e f g) (fst kw))) (snd kw) in
      let t2 := add32 (big_sigma0 a) (maj a b c) in
      [add32 t1 t2; a; b; c; add32 d t1; e; f; g]
  | _ => st
  end.

Fixpoint words (b : bytes) : list N :=
  match b with
  | c0 :: c1 :: c2 :: c3 :: b' =>
      (16777216 * N_of_ascii c0 + 65536 * N_of_ascii c1 + 256 * N_of_ascii c2 + N_of_ascii c3)
        :: words b'
  | _ => []
  end.

Definition compress (h : list N) (block : bytes) : list N :=
  let w := words block in
  zip_with add32 h (fold_left sha_round (combine round_constants (w ++ schedule 48 w)) h).

Definition pad (m : bytes) : bytes :=
  let len := length m in
  m ++ ascii_of_N 128 :: replicate ((119 - len mod 64) mod 64)%nat zero ++
    be64 (u64 (8 * Z.of_nat len)).

(** Sixty-four-byte blocks; the fuel is the length of the padded message,
    which bounds the number of blocks. *)
Fixpoint blocks (fuel : nat) (h : list N) (m : bytes) : list N :=
  match fuel, m with
  | O, _ | _, [] => h
  | S fuel', _ => blocks fuel' (compress h (take 64 m)) (drop 64 m)
  end.
End sha256.

Definition sha256 (m : bytes) : bytes :=
  let p := pad m in
  flat_map (fun w => be_bytes 4 (Z.of_N w)) (blocks (length p) initial_hash p).

(** [[32]byte{}] *)
Definition ZeroRoot : bytes := replicate 32 zero.

(** Two different messages with the same digest. *)
Definition Collision (m1 m2 : bytes) : Prop := m1 <> m2 /\ sha256 m1 = sha256 m2.

(** ** Lemmas on encodings *)

Lemma be_bytes_length n z : length (be_bytes n z) = n.
Proof. revert z. induction n as [|n IH]; intros z; simpl; [done|]. rewrite length_app, IH. simpl. lia. Qed.

Lemma be_value_app b c : be_value (b ++ [c]) = be_value b * 256 + Z.of_N (N_of_ascii c).
Proof. unfold be_value. by rewrite fold_left_app. Qed.

Lemma be_value_bytes n z : be_value (be_bytes n z) = z mod 256 ^ Z.of_nat n.
Proof.
  revert z. induction n as [|n IH]; intros z; [by rewrite Z.mod_1_r|].
  cbn [be_bytes]. rewrite be_value_app, IH.
  pose proof (Z.mod_pos_bound z 256 ltac:(lia)).
  rewrite N_ascii_embedding by lia. rewrite Z2N.id by lia.
  rewrite Nat2Z.inj_succ, Z.pow_succ_r by lia.
  rewrite Z.rem_mul_r by lia. lia.
Qed.

Lemma be64_inj a b : is_u64 a -> is_u64 b -> be64 a = be64 b -> a = b.
Proof.
  intros Ha Hb H. apply (f_equal be_value) in H. unfold be64 in H.
  rewrite !be_value_bytes in H.
  change (256 ^ Z.of_nat 8) with u64_modulus in H.
  by rewrite !Z.mod_small in H.
Qed.

Lemma be64_length z : length (be64 z) = 8%nat.
Proof. apply be_bytes_length. Qed.

(** Equal-length heads of equal concatenations are equal. *)
Lemma app_eq_length {A} (a b x y : list A) :
  length a = length b -> a ++ x = b ++ y -> a = b /\ x = y.
Proof. intros Hl H. by apply app_inj_1. Qed.

Lemma be64_app_inj a b (x y : bytes) :
  is_u64 a -> is_u64 b -> be64 a ++ x = be64 b ++ y -> a = b /\ x = y.
Proof.
  intros Ha Hb H. apply app_eq_length in H as [H ->]; [|by rewrite !be64_length].
  split; [|done]. by apply be64_inj.
Qed.

Lemma bytes_of_inj s t : bytes_of s = bytes_of t -> s = t.
Proof. intros H. apply (f_equal string_of) in H. by rewrite !string_of_bytes_of in H. Qed.

(** A length-prefixed string at the front of a preimage is determined. *)
Lemma length_prefixed_app_inj s t (x y : bytes) :
  is_u64 (Z.of_nat (length (bytes_of s))) -> is_u64 (Z.of_nat (length (bytes_of t))) ->
  length_prefixed s ++ x = length_prefixed t ++ y -> s = t /\ x = y.
Proof.
  intros Hs Ht H. unfold length_prefixed in H. rewrite <- !app_assoc in H.
  apply be64_app_inj in H as [Hl H]; [|done..].
  apply app_eq_length in H as [H ->]; [|lia].
  split; [by apply bytes_of_inj|done].
Qed.

Lemma sha_round_length st kw : length (sha_round st kw) = length st.
Proof. unfold sha_round. repeat case_match; done. Qed.

Lemma sha_rounds_length kws st : length (fold_left sha_round kws st) = length st.
Proof. revert st. induction kws as [|kw kws IH]; intros st; simpl; [done|]. by rewrite IH, sha_round_length. Qed.

Lemma blocks_length fuel h m : length (blocks fuel h m) = length h.
Proof.
  revert h m. induction fuel as [|fuel IH]; intros h m; cbn [blocks]; [done|].
  destruct m as [|c m]; [done|]. rewrite IH. unfold compress.
  rewrite length_zip_with, sha_rounds_length. lia.
Qed.

Lemma flat_map_be_length (l : list N) :
  length (flat_map (fun w => be_bytes 4 (Z.of_N w)) l) = (4 * length l)%nat.
Proof.
  induction l as [|w l IH]; [done|]. cbn [flat_map length]. rewrite length_app, IH, be_bytes_length. lia.
Qed.

(** A digest has the size of a Go [[32]byte]. *)
Lemma sha256_length m : length (sha256 m) = 32%nat.
Proof. unfold sha256. by rewrite flat_map_be_length, blocks_length. Qed.

(** FIPS 180-4 test vectors. *)
Definition hex_of (b : bytes) : list Z := map (fun c => Z.of_N (N_of_ascii c)) b.

Example sha256_abc :
  hex_of (sha256 (bytes_of "abc")) =
  [0xba; 0x78; 0x16; 0xbf; 0x8f; 0x01; 0xcf; 0xea; 0x41; 0x41; 0x40; 0xde; 0x5d; 0xae; 0x22; 0x23;
   0xb0; 0x03; 0x61; 0xa3; 0x96; 0x17; 0x7a; 0x9c; 0xb4; 0x10; 0xff; 0x61; 0xf2; 0x00; 0x15; 0xad].
Proof. vm_compute. reflexivity. Qed.

Example sha256_two_blocks :
  hex_of (sha256 (bytes_of "abcdbcdecdefdefgefghfghighijhijkijkljklmklmnlmnomnopnopq")) =
  [0x24; 0x8d; 0x6a; 0x61; 0xd2; 0x06; 0x38; 0xb8; 0xe5; 0xc0; 0x26; 0x93; 0x0c; 0x3e; 0x60; 0x39;
   0xa3; 0x3c; 0xe4; 0x59; 0x64; 0xff; 0x21; 0x67; 0xf6; 0xec; 0xed; 0xd4; 0x19; 0xdb; 0x06; 0xc1].
Proof. vm_compute. reflexivity. Qed.

(** Proofs treat the digest as a black box; [vm_compute] still evaluates it. *)
#[global] Opaque sha256.
Arguments sha256 : simpl never.
Arguments be64 : simpl never.

Definition base64_value (c : ascii) : option N :=
  let n := N_of_ascii c in
  (if byte_in 65 90 c then Some (n - 65)
   else if byte_in 97 122 c then Some (n - 71)
   else if byte_in 48 57 c then Some (n + 4)
   else if byte_is 43 c then Some 62
   else if byte_is 47 c then Some 63
   else None)%N.

Definition base64_pad (c : ascii) : bool := byte_is 61 c.

(** One group of four, and whether it ends the text. *)
Definition base64_group (a b c d : ascii) : option (bytes * bool) :=
  match base64_value a, base64_value b with
  | Some va, Some vb =>
      let byte1 := ascii_of_N (va * 4 + vb / 16) in
      if base64_pad c then if base64_pad d then Some ([byte1], true) else None else
      match base64_value c with
      | None => None
      | Some vc =>
          let byte2 := ascii_of_N ((vb mod 16) * 16 + vc / 4) in
          if base64_pad d then Some ([byte1; byte2], true) else
          match base64_value d with
          | None => None
          | Some vd => Some ([byte1; byte2; ascii_of_N ((vc mod 4) * 64 + vd)], false)
          end
      end
  | _, _ => None
  end%N.

Fixpoint base64_groups (l : bytes) : option bytes :=
  match l with
  | [] => Some []
  | a :: b :: c :: d :: rest =>
      match base64_group a b c d with
      | None => None
      | Some (out, true) => if rest == [] then Some out else None
      | Some (out, false) =>
          match base64_groups rest with
          | Some more => Some (out ++ more)
          | None => None
          end
      end
  | _ => None
  end.

Definition base64_Decode (s : string) : option bytes :=
  base64_groups (List.filter (fun c => negb (byte_is 13 c || byte_is 10 c)) (bytes_of s)).

Example base64_samples :
  base64_Decode "Y2FyZ28=" = Some (bytes_of "cargo") /\ base64_Decode "Y2Fy" = Some (bytes_of "car") /\
  base64_Decode "Y2E=" = Some (bytes_of "ca") /\ base64_Decode "+/8=" = Some (map ascii_of_N [251%N; 255%N]) /\
  base64_Decode "Y2E" = None /\ base64_Decode "Y2E=Y2E=" = None.
Proof. split_and!; vm_compute; reflexivity. Qed.
