(* ===== verification/GoJson.v ===== *)
(** * JSON values ([encoding/json], [unicode/utf8])

    What the program uses of [encoding/json]: a [Decoder] with [UseNumber] that
    reads one value, and [Marshal] of the decoded value (Go 1.22). A decoded
    object is the list of its members in the order of their keys, which is the
    order in which [Marshal] writes them; the last of two members with one key
    wins. Strings are bytes; the decoder replaces what is not UTF-8 by
    U+FFFD. *)

From Stdlib Require Import Ascii String.
From S2P Require Import Prelude GoString.

Module json.

Inductive Json :=
  | JNull
  | JBool (b : bool)
  | JNumber (literal : bytes)
  | JString (s : bytes)
  | JArray (l : list Json)
  | JObject (members : list (bytes * Json)).

(** ** UTF-8 *)

Definition code (c : ascii) : N := N_of_ascii c.

(** U+FFFD, [utf8.RuneError]. *)
Definition RuneError : N := 65533.

Definition scalar (u : N) : Prop := (u < 55296 \/ 57344 <= u < 1114112)%N.

Definition continuation (c : ascii) : bool := byte_in 128 191 c.

(** The rune of a well-formed sequence of two, three or four bytes. *)
Definition utf8_2 (a b : ascii) : option N :=
  if byte_in 194 223 a && continuation b
  then Some ((code a - 192) * 64 + (code b - 128))%N else None.

Definition utf8_3 (a b c : ascii) : option N :=
  let lo := if byte_is 224 a then 160%N else 128%N in
  let hi := if byte_is 237 a then 159%N else 191%N in
  if byte_in 224 239 a && byte_in lo hi b && continuation c
  then Some (((code a - 224) * 64 + (code b - 128)) * 64 + (code c - 128))%N else None.

Definition utf8_4 (a b c d : ascii) : option N :=
  let lo := if byte_is 240 a then 144%N else 128%N in
  let hi := if byte_is 244 a then 143%N else 191%N in
  if byte_in 240 244 a && byte_in lo hi b && continuation c && continuation d
  then Some ((((code a - 240) * 64 + (code b - 128)) * 64 + (code c - 128)) * 64 + (code d - 128))%N
  else None.

(** [utf8.AppendRune] of a scalar value. *)
Definition encode_rune (u : N) : bytes :=
  (if u <? 128 then [ascii_of_N u]
   else if u <? 2048 then [ascii_of_N (192 + u / 64); ascii_of_N (128 + u mod 64)]
   else if u <? 65536 then
     [ascii_of_N (224 + u / 4096); ascii_of_N (128 + u / 64 mod 64); ascii_of_N (128 + u mod 64)]
   else
     [ascii_of_N (240 + u / 262144); ascii_of_N (128 + u / 4096 mod 64);
      ascii_of_N (128 + u / 64 mod 64); ascii_of_N (128 + u mod 64)])%N.

Definition encode (us : list N) : bytes := flat_map encode_rune us.

(** The runes of a string, with [None] for each byte that starts no well-formed
    sequence. *)
Fixpoint runes (s : bytes) : list (option N) :=
  match s with
  | [] => []
  | a :: s1 =>
      if (code a <? 128)%N then Some (code a) :: runes s1 else
      match s1 with
      | [] => [None]
      | b :: s2 =>
          match utf8_2 a b with
          | Some u => Some u :: runes s2
          | None =>
              match s2 with
              | [] => None :: runes s1
              | c :: s3 =>
                  match utf8_3 a b c with
                  | Some u => Some u :: runes s3
                  | None =>
                      match s3 with
                      | [] => None :: runes s1
                      | d :: s4 =>
                          match utf8_4 a b c d with
                          | Some u => Some u :: runes s4
                          | None => None :: runes s1
                          end
                      end
                  end
              end
          end
      end
  end.

(** ** Strings *)

Definition hex_value (c : ascii) : option N :=
  if byte_in 48 57 c then Some (code c - 48)%N
  else if byte_in 97 102 c then Some (code c - 87)%N
  else if byte_in 65 70 c then Some (code c - 55)%N
  else None.

(** [getu4] after the [\u]. *)
Definition hex4 (a b c d : ascii) : option N :=
  match hex_value a, hex_value b, hex_value c, hex_value d with
  | Some a, Some b, Some c, Some d => Some (((a * 16 + b) * 16 + c) * 16 + d)%N
  | _, _, _, _ => None
  end.

(** The single-character escapes. *)
Definition unescape (c : ascii) : option N :=
  let n := code c in
  (if (n =? 34) || (n =? 92) || (n =? 47) then Some n
   else if n =? 98 then Some 8 else if n =? 102 then Some 12
   else if n =? 110 then Some 10 else if n =? 114 then Some 13
   else if n =? 116 then Some 9 else None)%N.

Definition surrogate (u : N) : bool := ((55296 <=? u) && (u <? 57344))%N.

(** [utf16.DecodeRune] *)
Definition surrogate_pair (hi lo : N) : option N :=
  (if (55296 <=? hi) && (hi <? 56320) && (56320 <=? lo) && (lo <? 57344)
   then Some ((hi - 55296) * 1024 + (lo - 56320) + 65536) else None)%N.

Definition cons_rune (u : N) (r : option (list N * bytes)) : option (list N * bytes) :=
  match r with
  | Some (us, rest) => Some (u :: us, rest)
  | None => None
  end.

(** The content of a string after its opening quote: its runes, and what
    follows the closing quote. *)
Fixpoint unquote (s : bytes) : option (list N * bytes) :=
  match s with
  | [] => None
  | a :: s1 =>
      if byte_is 34 a then Some ([], s1) else
      if byte_is 92 a then
        match s1 with
        | [] => None
        | e :: s2 =>
            if byte_is 117 e then
              match s2 with
              | h1 :: h2 :: h3 :: h4 :: s3 =>
                  match hex4 h1 h2 h3 h4 with
                  | None => None
                  | Some u =>
                      if surrogate u then
                        match s3 with
                        | b :: v :: g1 :: g2 :: g3 :: g4 :: s4 =>
                            match (if byte_is 92 b && byte_is 117 v then hex4 g1 g2 g3 g4 else None) with
                            | Some lo =>
                                match surrogate_pair u lo with
                                | Some r => cons_rune r (unquote s4)
                                | None => cons_rune RuneError (unquote s3)
                                end
                            | None => cons_rune RuneError (unquote s3)
                            end
                        | _ => cons_rune RuneError (unquote s3)
                        end
                      else cons_rune u (unquote s3)
                  end
              | _ => None
              end
            else
              match unescape e with
              | Some u => cons_rune u (unquote s2)
              | None => None
              end
        end
      else if (code a <? 32)%N then None
      else if (code a <? 128)%N then cons_rune (code a) (unquote s1)
      else
        match s1 with
        | [] => None
        | b :: s2 =>
            match utf8_2 a b with
            | Some u => cons_rune u (unquote s2)
            | None =>
                match s2 with
                | [] => cons_rune RuneError (unquote s1)
                | c :: s3 =>
                    match utf8_3 a b c with
                    | Some u => cons_rune u (unquote s3)
                    | None =>
                        match s3 with
                        | [] => cons_rune RuneError (unquote s1)
                        | d :: s4 =>
                            match utf8_4 a b c d with
                            | Some u => cons_rune u (unquote s4)
                            | None => cons_rune RuneError (unquote s1)
                            end
                        end
                    end
                end
            end
        end
  end.

Definition hex_digit (n : N) : ascii := ascii_of_N (if (n <? 10)%N then 48 + n else 87 + n)%N.

Definition unicode_escape (u : N) : bytes :=
  [ascii_of_N 92; ascii_of_N 117; hex_digit (u / 4096 mod 16)%N; hex_digit (u / 256 mod 16)%N;
   hex_digit (u / 16 mod 16)%N; hex_digit (u mod 16)%N].

(** What [Marshal] writes for one rune of a string, escaping HTML. *)
Definition escape_rune (o : option N) : bytes :=
  match o with
  | None => unicode_escape RuneError
  | Some u =>
      (if (u =? 34) || (u =? 92) then [ascii_of_N 92; ascii_of_N u]
       else if u =? 8 then [ascii_of_N 92; ascii_of_N 98]
       else if u =? 12 then [ascii_of_N 92; ascii_of_N 102]
       else if u =? 10 then [ascii_of_N 92; ascii_of_N 110]
       else if u =? 13 then [ascii_of_N 92; ascii_of_N 114]
       else if u =? 9 then [ascii_of_N 92; ascii_of_N 116]
       else if (u <? 32) || (u =? 60) || (u =? 62) || (u =? 38) || (u =? 8232) || (u =? 8233)
       then unicode_escape u
       else encode_rune u)%N
  end.

Definition quote (s : bytes) : bytes :=
  ascii_of_N 34 :: flat_map escape_rune (runes s) ++ [ascii_of_N 34].

(** ** Numbers *)

Fixpoint span_digits (b : bytes) : bytes * bytes :=
  match b with
  | c :: b' => if is_digit c then let '(ds, r) := span_digits b' in (c :: ds, r) else ([], b)
  | [] => ([], [])
  end.

Definition parse_sign (b : bytes) : bytes * bytes :=
  match b with
  | c :: b' => if byte_is 45 c then ([c], b') else ([], b)
  | [] => ([], [])
  end.

Definition parse_integer (b : bytes) : option (bytes * bytes) :=
  match b with
  | c :: b' =>
      if byte_is 48 c then Some ([c], b') else
      if byte_in 49 57 c then let '(ds, r) := span_digits b' in Some (c :: ds, r) else None
  | [] => None
  end.

Definition parse_fraction (b : bytes) : option (bytes * bytes) :=
  match b with
  | c :: b' =>
      if byte_is 46 c then
        match span_digits b' with
        | ([], _) => None
        | (ds, r) => Some (c :: ds, r)
        end
      else Some ([], b)
  | [] => Some ([], [])
  end.

Definition parse_exponent (b : bytes) : option (bytes * bytes) :=
  match b with
  | c :: b' =>
      if byte_is 101 c || byte_is 69 c then
        let '(sign, b'') :=
          match b' with
          | s :: b'' => if byte_is 43 s || byte_is 45 s then ([s], b'') else ([], b')
          | [] => ([], [])
          end in
        match span_digits b'' with
        | ([], _) => None
        | (ds, r) => Some (c :: sign ++ ds, r)
        end
      else Some ([], b)
  | [] => Some ([], [])
  end.

Definition parse_number (b : bytes) : option (bytes * bytes) :=
  let '(sign, b0) := parse_sign b in
  match parse_integer b0 with
  | None => None
  | Some (int, b1) =>
      match parse_fraction b1 with
      | None => None
      | Some (frac, b2) =>
          match parse_exponent b2 with
          | None => None
          | Some (exp, b3) => Some (sign ++ int ++ frac ++ exp, b3)
          end
      end
  end.

(** ** Values *)

Definition is_space (c : ascii) : bool := byte_is 32 c || byte_is 9 c || byte_is 13 c || byte_is 10 c.

Fixpoint skip_space (b : bytes) : bytes :=
  match b with
  | c :: b' => if is_space c then skip_space b' else b
  | [] => []
  end.

Fixpoint byte_compare (k1 k2 : bytes) : comparison :=
  match k1, k2 with
  | [], [] => Eq
  | [], _ => Lt
  | _, [] => Gt
  | a :: k1, b :: k2 =>
      match N.compare (code a) (code b) with
      | Eq => byte_compare k1 k2
      | c => c
      end
  end.

(** [m[key] = v] *)
Fixpoint set_member (k : bytes) (v : Json) (m : list (bytes * Json)) : list (bytes * Json) :=
  match m with
  | [] => [(k, v)]
  | (k', v') :: m' =>
      match byte_compare k k' with
      | Lt => (k, v) :: m
      | Eq => (k, v) :: m'
      | Gt => (k', v') :: set_member k v m'
      end
  end.

Definition strip (p : string) (b : bytes) : option bytes :=
  let p := bytes_of p in
  if take (length p) b == p then Some (drop (length p) b) else None.

(** The rest after one punctuation byte, white space before it skipped. *)
Definition expect (n : N) (b : bytes) : option bytes :=
  match skip_space b with
  | c :: b' => if byte_is n c then Some b' else None
  | [] => None
  end.

(** One value and the rest of the input. [depth] counts the objects and arrays
    that may still be opened. *)
Fixpoint parse_value (fuel : nat) (depth : N) (b : bytes) : option (Json * bytes) :=
  match fuel with
  | O => None
  | S fuel =>
      match skip_space b with
      | [] => None
      | c :: r =>
          if byte_is 34 c then
            match unquote r with
            | Some (us, r') => Some (JString (encode us), r')
            | None => None
            end
          else if byte_is 123 c then
            if (depth =? 0)%N then None else
            match expect 125 r with
            | Some r' => Some (JObject [], r')
            | None =>
                match parse_members fuel (depth - 1) [] r with
                | Some (m, r') => Some (JObject m, r')
                | None => None
                end
            end
          else if byte_is 91 c then
            if (depth =? 0)%N then None else
            match expect 93 r with
            | Some r' => Some (JArray [], r')
            | None =>
                match parse_elements fuel (depth - 1) r with
                | Some (l, r') => Some (JArray l, r')
                | None => None
                end
            end
          else if byte_is 110 c then
            match strip "ull" r with Some r' => Some (JNull, r') | None => None end
          else if byte_is 116 c then
            match strip "rue" r with Some r' => Some (JBool true, r') | None => None end
          else if byte_is 102 c then
            match strip "alse" r with Some r' => Some (JBool false, r') | None => None end
          else
            match parse_number (c :: r) with
            | Some (literal, r') => Some (JNumber literal, r')
            | None => None
            end
      end
  end

with parse_members (fuel : nat) (depth : N) (m : list (bytes * Json)) (b : bytes)
    : option (list (bytes * Json) * bytes) :=
  match fuel with
  | O => None
  | S fuel =>
      match expect 34 b with
      | None => None
      | Some r =>
          match unquote r with
          | None => None
          | Some (us, r) =>
              match expect 58 r with
              | None => None
              | Some r =>
                  match parse_value fuel depth r with
                  | None => None
                  | Some (v, r) =>
                      let m := set_member (encode us) v m in
                      match expect 125 r with
                      | Some r => Some (m, r)
                      | None =>
                          match expect 44 r with
                          | Some r => parse_members fuel depth m r
                          | None => None
                          end
                      end
                  end
              end
          end
      end
  end

with parse_elements (fuel : nat) (depth : N) (b : bytes) : option (list Json * bytes) :=
  match fuel with
  | O => None
  | S fuel =>
      match parse_value fuel depth b with
      | None => None
      | Some (v, r) =>
          match expect 93 r with
          | Some r => Some ([v], r)
          | None =>
              match expect 44 r with
              | None => None
              | Some r =>
                  match parse_elements fuel depth r with
                  | Some (l, r) => Some (v :: l, r)
                  | None => None
                  end
              end
          end
      end
  end.

(** The scanner's [maxNestingDepth]. *)
Definition maxNestingDepth : N := 10000.

(** [Decode] of one value, and what the decoder has not read. Every value
    takes at most two calls for each of its bytes. *)
Definition Decode (b : bytes) : option (Json * bytes) :=
  parse_value (2 * length b + 2) maxNestingDepth b.

(** A further [Decode] reports [io.EOF]. *)
Definition AtEOF (b : bytes) : bool := skip_space b == [].

Definition separated (l : list bytes) : bytes :=
  match l with
  | [] => []
  | b :: l => b ++ flat_map (fun b => ascii_of_N 44 :: b) l
  end.

(** [Marshal] of a decoded value. *)
Fixpoint Marshal (v : Json) : bytes :=
  match v with
  | JNull => bytes_of "null"
  | JBool true => bytes_of "true"
  | JBool false => bytes_of "false"
  | JNumber literal => literal
  | JString s => quote s
  | JArray l => ascii_of_N 91 :: separated (map Marshal l) ++ [ascii_of_N 93]
  | JObject m =>
      ascii_of_N 123 ::
      separated (map (fun kv => quote kv.1 ++ ascii_of_N 58 :: Marshal kv.2) m) ++ [ascii_of_N 125]
  end.

(** A document that is one value, decoded and marshalled again. *)
Definition decodeOne (b : bytes) : option Json :=
  match Decode b with
  | Some (v, rest) => if AtEOF rest then Some v else None
  | None => None
  end.

Definition canonical (b : bytes) : option bytes := Marshal <$> decodeOne b.

(** Text with apostrophes for the quotation marks of JSON. *)
Definition text (s : string) : bytes :=
  map (fun c => if byte_is 39 c then ascii_of_N 34 else c) (bytes_of s).

Example canonical_sample :
  canonical (text " { 'b' : [1, -2.50e+3 ,null], 'a':'<\u00E9\ud83d', 'a':{} } ") =
  Some (text "{'a':{},'b':[1,-2.50e+3,null]}") /\
  canonical (text "'<\ud83d\n'") = Some (text "'\u003c" ++ encode_rune RuneError ++ text "\n'") /\
  canonical (text "[01]") = None /\ canonical (text "1 2") = None.
Proof. split_and!; vm_compute; reflexivity. Qed.
End json.
