(* ===== verification/GoJsonText.v ===== *)
(** * JSON read back

    [Marshal] writes strings and numbers that [Decode] reads back. [Decode] yields
    well-formed values: numbers of the grammar, UTF-8 strings, objects with
    strictly increasing keys, nested no deeper than the limit; it reads back what
    [Marshal] writes of such a value, its result does not depend on the fuel, and
    so the canonical form of a document is its own canonical form. *)

From Stdlib Require Import Ascii String.
From S2P Require Import Prelude GoString GoJson.
Import json.

#[local] Ltac Zify.zify_post_hook ::= Z.to_euclidean_division_equations.

(** ** Bytes *)

Lemma code_ascii n : (n < 256)%N -> code (ascii_of_N n) = n.
Proof. intros H. apply N_ascii_embedding. lia. Qed.

Lemma code_small c : (code c < 256)%N.
Proof. apply N_ascii_bounded. Qed.

Lemma byte_is_ascii n m : (m < 256)%N -> byte_is n (ascii_of_N m) = (m =? n)%N.
Proof. intros H. unfold byte_is. fold (code (ascii_of_N m)). by rewrite code_ascii. Qed.

Lemma byte_in_ascii lo hi m : (m < 256)%N -> byte_in lo hi (ascii_of_N m) = ((lo <=? m) && (m <=? hi))%N.
Proof. intros H. unfold byte_in. fold (code (ascii_of_N m)). by rewrite code_ascii. Qed.

(** Decide a condition on a byte that is given by its code. *)
Ltac byte_cond :=
  unfold continuation; rewrite ?byte_is_ascii, ?byte_in_ascii by lia; rewrite ?code_ascii by lia;
  repeat case_match; try lia; try done.

(** ** UTF-8 *)

Lemma utf8_2_encode u :
  (128 <= u < 2048)%N -> utf8_2 (ascii_of_N (192 + u / 64)) (ascii_of_N (128 + u mod 64)) = Some u.
Proof.
  intros H. unfold utf8_2, continuation. rewrite !byte_in_ascii by lia. rewrite !code_ascii by lia.
  replace (_ && _) with true; [f_equal; lia|]. symmetry. rewrite !andb_true_iff, !N.leb_le. lia.
Qed.

Lemma utf8_2_high a b : (224 <= code a)%N -> utf8_2 a b = None.
Proof.
  intros H. unfold utf8_2, byte_in. fold (code a). rewrite (proj2 (N.leb_gt (code a) 223)) by lia.
  by rewrite andb_false_r.
Qed.

Lemma utf8_3_encode u :
  (2048 <= u < 65536)%N -> scalar u ->
  utf8_3 (ascii_of_N (224 + u / 4096)) (ascii_of_N (128 + u / 64 mod 64)) (ascii_of_N (128 + u mod 64)) =
  Some u.
Proof.
  intros H Hs. unfold scalar in Hs. unfold utf8_3, continuation.
  rewrite !byte_is_ascii, !byte_in_ascii by lia. rewrite !code_ascii by lia.
  replace (_ && _ && _) with true; [f_equal; lia|]. symmetry.
  rewrite !andb_true_iff, !N.leb_le.
  destruct (224 + u / 4096 =? 224)%N eqn:E1, (224 + u / 4096 =? 237)%N eqn:E2; lia.
Qed.

Lemma utf8_3_high a b c : (240 <= code a)%N -> utf8_3 a b c = None.
Proof.
  intros H. unfold utf8_3, byte_in. fold (code a). rewrite (proj2 (N.leb_gt (code a) 239)) by lia.
  by rewrite andb_false_r.
Qed.

Lemma utf8_4_encode u :
  (65536 <= u < 1114112)%N ->
  utf8_4 (ascii_of_N (240 + u / 262144)) (ascii_of_N (128 + u / 4096 mod 64))
    (ascii_of_N (128 + u / 64 mod 64)) (ascii_of_N (128 + u mod 64)) = Some u.
Proof.
  intros H. unfold utf8_4, continuation.
  rewrite !byte_is_ascii, !byte_in_ascii by lia. rewrite !code_ascii by lia.
  replace (_ && _ && _ && _) with true; [f_equal; lia|]. symmetry.
  rewrite !andb_true_iff, !N.leb_le.
  destruct (240 + u / 262144 =? 240)%N eqn:E1, (240 + u / 262144 =? 244)%N eqn:E2; lia.
Qed.

(** The four forms of an encoded rune. *)
Inductive encoded (u : N) : bytes -> Prop :=
  | Encoded1 : (u < 128)%N -> encoded u [ascii_of_N u]
  | Encoded2 a b : (128 <= code a)%N -> utf8_2 a b = Some u -> encoded u [a; b]
  | Encoded3 a b c :
      (128 <= code a)%N -> utf8_2 a b = None -> utf8_3 a b c = Some u -> encoded u [a; b; c]
  | Encoded4 a b c d :
      (128 <= code a)%N -> utf8_2 a b = None -> utf8_3 a b c = None -> utf8_4 a b c d = Some u ->
      encoded u [a; b; c; d].

Lemma encode_rune_encoded u : scalar u -> encoded u (encode_rune u).
Proof.
  intros Hs. pose proof Hs as Hs'. unfold scalar in Hs'. unfold encode_rune.
  destruct (u <? 128)%N eqn:E1; [apply Encoded1; lia|].
  destruct (u <? 2048)%N eqn:E2.
  { apply Encoded2; [rewrite code_ascii; lia|]. apply utf8_2_encode. lia. }
  destruct (u <? 65536)%N eqn:E3.
  { apply Encoded3; [rewrite code_ascii; lia|apply utf8_2_high; rewrite code_ascii; lia|].
    apply utf8_3_encode; [lia|done]. }
  apply Encoded4; [rewrite code_ascii; lia|apply utf8_2_high; rewrite code_ascii; lia
    |apply utf8_3_high; rewrite code_ascii; lia|]. apply utf8_4_encode. lia.
Qed.

Lemma not_below_128 a : (128 <= code a)%N -> (code a <? 128)%N = false.
Proof. intros H. by apply N.ltb_ge. Qed.

Lemma runes_encode_rune u s : scalar u -> runes (encode_rune u ++ s) = Some u :: runes s.
Proof.
  intros Hs. destruct (encode_rune_encoded u Hs) as [H|a b H H2|a b c H H2 H3|a b c d H H2 H3 H4];
    cbn [app runes].
  - rewrite code_ascii by lia. by rewrite (proj2 (N.ltb_lt _ _) H).
  - by rewrite not_below_128, H2.
  - by rewrite not_below_128, H2, H3.
  - by rewrite not_below_128, H2, H3, H4.
Qed.

Lemma runes_encode us : Forall scalar us -> runes (encode us) = Some <$> us.
Proof.
  induction 1 as [|u us Hu _ IH]; [done|]. unfold encode in *. cbn [flat_map].
  rewrite runes_encode_rune by done. by rewrite IH.
Qed.

Definition valid_utf8 (s : bytes) : Prop := exists us, Forall scalar us /\ s = encode us.

(** ** Strings *)

Lemma hex_value_digit n : (n < 16)%N -> hex_value (hex_digit n) = Some n.
Proof.
  intros H. unfold hex_digit, hex_value. destruct (n <? 10)%N eqn:E.
  - rewrite byte_in_ascii by lia. rewrite code_ascii by lia.
    replace (_ && _) with true by lia. f_equal. lia.
  - rewrite !byte_in_ascii by lia. rewrite code_ascii by lia.
    replace ((48 <=? 87 + n) && (87 + n <=? 57))%N with false by lia.
    replace (_ && _) with true by lia. f_equal. lia.
Qed.

Lemma unquote_plain a s :
  (32 <= code a < 128)%N -> code a <> 34%N -> code a <> 92%N ->
  unquote (a :: s) = cons_rune (code a) (unquote s).
Proof.
  intros H H1 H2. cbn [unquote]. unfold byte_is. fold (code a).
  rewrite (proj2 (N.eqb_neq _ _) H1), (proj2 (N.eqb_neq _ _) H2).
  rewrite (proj2 (N.ltb_ge _ _)), (proj2 (N.ltb_lt _ _)) by lia. done.
Qed.

Lemma unquote_encode_rune u s :
  scalar u -> (32 <= u)%N -> u <> 34%N -> u <> 92%N ->
  unquote (encode_rune u ++ s) = cons_rune u (unquote s).
Proof.
  intros Hs H1 H2 H3.
  assert (forall a, (128 <= code a)%N -> byte_is 34 a = false /\ byte_is 92 a = false /\
    (code a <? 32)%N = false /\ (code a <? 128)%N = false) as Ha.
  { intros a Ha. unfold byte_is. fold (code a). split_and!; lia. }
  destruct (encode_rune_encoded u Hs) as [H|a b H E2|a b c H E2 E3|a b c d H E2 E3 E4]; cbn [app].
  - rewrite unquote_plain; rewrite ?code_ascii; lia || done.
  - destruct (Ha a H) as (A1 & A2 & A3 & A4). cbn [unquote]. by rewrite A1, A2, A3, A4, E2.
  - destruct (Ha a H) as (A1 & A2 & A3 & A4). cbn [unquote]. by rewrite A1, A2, A3, A4, E2, E3.
  - destruct (Ha a H) as (A1 & A2 & A3 & A4). cbn [unquote]. by rewrite A1, A2, A3, A4, E2, E3, E4.
Qed.

Lemma unquote_unicode_escape u s :
  (u < 65536)%N -> surrogate u = false ->
  unquote (unicode_escape u ++ s) = cons_rune u (unquote s).
Proof.
  intros H Hs. unfold unicode_escape. cbn [app unquote].
  rewrite !byte_is_ascii by lia. cbn [N.eqb Pos.eqb].
  unfold hex4. rewrite !hex_value_digit by lia.
  replace ((((u / 4096 mod 16) * 16 + u / 256 mod 16) * 16 + u / 16 mod 16) * 16 + u mod 16)%N
    with u by lia.
  by rewrite Hs.
Qed.

Lemma unquote_short_escape e u s :
  (e < 256)%N -> e <> 117%N -> unescape (ascii_of_N e) = Some u ->
  unquote (ascii_of_N 92 :: ascii_of_N e :: s) = cons_rune u (unquote s).
Proof.
  intros H Hne He. cbn [unquote]. rewrite !byte_is_ascii by lia. cbn [N.eqb Pos.eqb].
  rewrite (proj2 (N.eqb_neq _ _) Hne). by rewrite He.
Qed.

Lemma unquote_escape_rune u s :
  scalar u -> unquote (escape_rune (Some u) ++ s) = cons_rune u (unquote s).
Proof.
  intros Hs. pose proof Hs as Hs'. unfold scalar in Hs'. unfold escape_rune.
  destruct ((u =? 34) || (u =? 92))%N eqn:E1.
  { apply unquote_short_escape; [lia..|]. unfold unescape. rewrite code_ascii by lia.
    apply orb_true_iff in E1. by rewrite (proj2 (orb_true_iff _ _) E1). }
  destruct (u =? 8)%N eqn:E2; [apply N.eqb_eq in E2 as ->; by apply unquote_short_escape|].
  destruct (u =? 12)%N eqn:E3; [apply N.eqb_eq in E3 as ->; by apply unquote_short_escape|].
  destruct (u =? 10)%N eqn:E4; [apply N.eqb_eq in E4 as ->; by apply unquote_short_escape|].
  destruct (u =? 13)%N eqn:E5; [apply N.eqb_eq in E5 as ->; by apply unquote_short_escape|].
  destruct (u =? 9)%N eqn:E6; [apply N.eqb_eq in E6 as ->; by apply unquote_short_escape|].
  destruct ((u <? 32) || _ || _ || _ || _ || _)%N eqn:E7.
  - apply unquote_unicode_escape; unfold surrogate; lia.
  - apply unquote_encode_rune; [done|lia..].
Qed.

Lemma unquote_quote us s :
  Forall scalar us ->
  unquote (flat_map escape_rune (Some <$> us) ++ ascii_of_N 34 :: s) = Some (us, s).
Proof.
  induction 1 as [|u us Hu _ IH]; [reflexivity|]. rewrite fmap_cons. cbn [flat_map].
  by rewrite <- app_assoc, unquote_escape_rune, IH.
Qed.

(** Every rune that the decoder yields is a scalar value, and it consumes input. *)

Lemma utf8_2_scalar a b u : utf8_2 a b = Some u -> scalar u.
Proof.
  unfold utf8_2, continuation, byte_in, code, scalar. case_match; [|done]. intros [= <-]. lia.
Qed.

Lemma utf8_3_scalar a b c u : utf8_3 a b c = Some u -> scalar u.
Proof.
  unfold utf8_3, continuation, byte_in, byte_is, code, scalar. cbv zeta.
  destruct (N_of_ascii a =? 224)%N eqn:E1, (N_of_ascii a =? 237)%N eqn:E2;
    case_match; try done; intros [= <-]; lia.
Qed.

Lemma utf8_4_scalar a b c d u : utf8_4 a b c d = Some u -> scalar u.
Proof.
  unfold utf8_4, continuation, byte_in, byte_is, code, scalar. cbv zeta.
  destruct (N_of_ascii a =? 240)%N eqn:E1, (N_of_ascii a =? 244)%N eqn:E2;
    case_match; try done; intros [= <-]; lia.
Qed.

Lemma hex_value_bound c n : hex_value c = Some n -> (n < 16)%N.
Proof. unfold hex_value, byte_in, code. repeat case_match; try done; intros [= <-]; lia. Qed.

Lemma hex4_bound a b c d u : hex4 a b c d = Some u -> (u < 65536)%N.
Proof.
  unfold hex4. intros H.
  destruct (hex_value a) eqn:Ea, (hex_value b) eqn:Eb, (hex_value c) eqn:Ec, (hex_value d) eqn:Ed;
    try done. injection H as <-.
  apply hex_value_bound in Ea, Eb, Ec, Ed. lia.
Qed.

Lemma unescape_scalar c u : unescape c = Some u -> scalar u.
Proof. unfold unescape, scalar. cbv zeta. repeat case_match; try done; intros [= <-]; lia. Qed.

Lemma surrogate_pair_scalar hi lo u : surrogate_pair hi lo = Some u -> scalar u.
Proof. unfold surrogate_pair, scalar. case_match; [|done]. intros [= <-]. lia. Qed.

Lemma not_surrogate_scalar u : (u < 65536)%N -> surrogate u = false -> scalar u.
Proof. unfold surrogate, scalar. lia. Qed.

Lemma RuneError_scalar : scalar RuneError.
Proof. unfold scalar, RuneError. lia. Qed.

#[export] Hint Resolve RuneError_scalar unescape_scalar surrogate_pair_scalar utf8_2_scalar
  utf8_3_scalar utf8_4_scalar not_surrogate_scalar hex4_bound : json.

Lemma cons_rune_Some u r us rest :
  cons_rune u r = Some (us, rest) -> exists us', us = u :: us' /\ r = Some (us', rest).
Proof. destruct r as [[us' rest']|]; [|done]. intros [= <- <-]. eauto. Qed.

Definition consumed (s : bytes) (us : list N) (rest : bytes) : Prop :=
  Forall scalar us /\ (length rest < length s)%nat.

Lemma consumed_cons u us s s' rest :
  scalar u -> (length s' <= length s)%nat -> consumed s' us rest -> consumed s (u :: us) rest.
Proof. intros Hu Hl [H1 H2]. split; [by constructor|lia]. Qed.

Lemma unquote_sound s : forall us rest, unquote s = Some (us, rest) -> consumed s us rest.
Proof.
  induction s as [s IH] using (induction_ltof1 _ (@length ascii)). unfold ltof in IH. intros us rest.
  assert (Hc : forall u s', (length s' < length s)%nat -> scalar u ->
    cons_rune u (unquote s') = Some (us, rest) -> consumed s us rest).
  { intros u s' Hl Hu H. apply cons_rune_Some in H as (us' & -> & H).
    apply (consumed_cons u us' s s'); [done|lia|by apply IH]. }
  clear IH. destruct s as [|a s1]; [done|]. cbn [length] in Hc. cbn [unquote].
  destruct (byte_is 34 a); [intros [= <- <-]; split; [constructor|cbn; lia]|].
  destruct (byte_is 92 a).
  - destruct s1 as [|e s2]; [done|]. cbn [length] in Hc. destruct (byte_is 117 e).
    2: { destruct (unescape e) eqn:E; [|done]. apply Hc; eauto with json; lia. }
    destruct s2 as [|h1 [|h2 [|h3 [|h4 s3]]]]; try done. cbn [length] in Hc.
    destruct (hex4 h1 h2 h3 h4) as [u|] eqn:E; [|done].
    destruct (surrogate u) eqn:Es; [|apply Hc; eauto with json; lia].
    destruct s3 as [|b [|v [|g1 [|g2 [|g3 [|g4 s4]]]]]];
      try (apply Hc; [cbn [length]; lia|auto with json]).
    destruct (if byte_is 92 b && byte_is 117 v then hex4 g1 g2 g3 g4 else None) as [lo|];
      [destruct (surrogate_pair u lo) eqn:Ep|];
      apply Hc; eauto with json; cbn [length]; lia.
  - destruct (code a <? 32)%N; [done|]. destruct (code a <? 128)%N eqn:Ea.
    { apply Hc; [lia|]. unfold scalar. lia. }
    destruct s1 as [|b s2]; [done|]. cbn [length] in Hc.
    destruct (utf8_2 a b) eqn:E2; [apply Hc; eauto with json; lia|].
    destruct s2 as [|c s3]; [apply Hc; eauto with json; cbn; lia|]. cbn [length] in Hc.
    destruct (utf8_3 a b c) eqn:E3; [apply Hc; eauto with json; lia|].
    destruct s3 as [|d s4]; [apply Hc; eauto with json; cbn; lia|]. cbn [length] in Hc.
    destruct (utf8_4 a b c d) eqn:E4; apply Hc; eauto with json; cbn; lia.
Qed.

Lemma unquote_quoted s rest :
  valid_utf8 s -> exists us, s = encode us /\
    unquote (flat_map escape_rune (runes s) ++ ascii_of_N 34 :: rest) = Some (us, rest).
Proof.
  intros (us & Hs & ->). exists us. rewrite runes_encode by done. split; [done|].
  by apply unquote_quote.
Qed.

(** ** Numbers *)

(** No byte of a number. *)
Definition number_byte (c : ascii) : bool :=
  is_digit c || byte_is 46 c || byte_is 101 c || byte_is 69 c.

Definition starts (p : ascii -> bool) (b : bytes) : bool :=
  match b with
  | c :: _ => p c
  | [] => false
  end.

(** What may follow a value in a document. *)
Definition delimited (b : bytes) : Prop := starts number_byte b = false.

Lemma span_digits_reread b ds r q :
  span_digits b = (ds, r) -> starts is_digit q = false ->
  b = ds ++ r /\ span_digits (ds ++ q) = (ds, q).
Proof.
  intros H Hq. revert ds r H. induction b as [|c b IH]; intros ds r; cbn [span_digits].
  - intros [= <- <-]. split; [done|]. destruct q as [|x q]; [done|]. cbn in *. by rewrite Hq.
  - destruct (is_digit c) eqn:E.
    + destruct (span_digits b) as [ds' r'] eqn:Eb. intros [= <- <-].
      destruct (IH _ _ eq_refl) as [-> IH']. split; [done|]. cbn. by rewrite E, IH'.
    + intros [= <- <-]. split; [done|]. destruct q as [|x q]; [done|]. cbn in *. by rewrite Hq.
Qed.

Lemma parse_integer_reread b i r q :
  parse_integer b = Some (i, r) -> starts is_digit q = false ->
  b = i ++ r /\ parse_integer (i ++ q) = Some (i, q) /\ starts is_digit i = true.
Proof.
  destruct b as [|c b]; [done|]. cbn [parse_integer]. intros H Hq.
  destruct (byte_is 48 c) eqn:E0.
  { injection H as <- <-. cbn. rewrite E0. split_and!; [done..|].
    unfold is_digit, byte_in. unfold byte_is in E0. lia. }
  destruct (byte_in 49 57 c) eqn:E; [|done].
  destruct (span_digits b) as [ds r'] eqn:Eb. injection H as <- <-.
  destruct (span_digits_reread _ _ _ q Eb Hq) as [-> H']. cbn. rewrite E0, E, H'.
  split_and!; [done..|]. unfold is_digit, byte_in in *. lia.
Qed.

Lemma starts_app p a q : starts p (a ++ q) = match a with [] => starts p q | c :: _ => p c end.
Proof. by destruct a. Qed.

Lemma parse_fraction_reread b f r q :
  parse_fraction b = Some (f, r) -> starts is_digit q = false -> starts (byte_is 46) q = false ->
  b = f ++ r /\ parse_fraction (f ++ q) = Some (f, q) /\ (f = [] \/ starts (byte_is 46) f = true).
Proof.
  intros H Hq Hd.
  assert (parse_fraction ([] ++ q) = Some ([], q)) as Hnil.
  { destruct q; [done|]. cbn in *. by rewrite Hd. }
  destruct b as [|c b]; cbn [parse_fraction] in H; [injection H as <- <-; by auto|].
  destruct (byte_is 46 c) eqn:E; [|injection H as <- <-; by auto].
  destruct (span_digits b) as [[|d ds] r'] eqn:Eb; [done|]. injection H as <- <-.
  destruct (span_digits_reread _ _ _ q Eb Hq) as [-> H']. split_and!; [done|..|by right].
  cbn [app parse_fraction]. rewrite E. cbn [app] in H'. by rewrite H'.
Qed.

Definition exponent_byte (c : ascii) : bool := byte_is 101 c || byte_is 69 c.

Lemma parse_exponent_reread b e r q :
  parse_exponent b = Some (e, r) -> starts is_digit q = false -> starts exponent_byte q = false ->
  b = e ++ r /\ parse_exponent (e ++ q) = Some (e, q) /\ (e = [] \/ starts exponent_byte e = true).
Proof.
  intros H Hq Hd.
  assert (parse_exponent ([] ++ q) = Some ([], q)) as Hnil.
  { destruct q as [|x q]; [done|]. cbn in *. unfold exponent_byte in Hd. by rewrite Hd. }
  destruct b as [|c b]; cbn [parse_exponent] in H; [injection H as <- <-; by auto|].
  destruct (byte_is 101 c || byte_is 69 c) eqn:E; [|injection H as <- <-; by auto].
  assert (exists sign b2, b = sign ++ b2 /\
    match b with
    | s :: b'' => if byte_is 43 s || byte_is 45 s then ([s], b'') else ([], b)
    | [] => ([], [])
    end = (sign, b2) /\
    forall d x, starts is_digit (d :: x) = true ->
    match sign ++ d :: x with
    | s :: b'' => if byte_is 43 s || byte_is 45 s then ([s], b'') else ([], sign ++ d :: x)
    | [] => ([], [])
    end = (sign, d :: x)) as (sign & b2 & -> & Eb & Hre).
  { destruct b as [|s b].
    - exists [], []. split_and!; [done..|]. intros d x Hx. cbn in *.
      replace (byte_is 43 d || byte_is 45 d) with false; [done|].
      unfold is_digit, byte_in, byte_is in *. lia.
    - destruct (byte_is 43 s || byte_is 45 s) eqn:Es.
      + exists [s], b. split_and!; [done..|]. intros d x _. cbn. by rewrite Es.
      + exists [], (s :: b). split_and!; [done..|]. intros d x Hx. cbn in *.
        replace (byte_is 43 d || byte_is 45 d) with false; [done|].
        unfold is_digit, byte_in, byte_is in *. lia. }
  rewrite Eb in H. destruct (span_digits b2) as [[|d ds] r'] eqn:E2; [done|]. injection H as <- <-.
  assert (starts is_digit (d :: ds) = true) as Hdig.
  { destruct b2 as [|x b2]; [done|]. cbn in E2. destruct (is_digit x) eqn:Ex; [|done].
    destruct (span_digits b2). by injection E2 as -> _ _. }
  destruct (span_digits_reread _ _ _ q E2 Hq) as [-> H']. split_and!.
  - cbn. by rewrite <- app_assoc.
  - cbn [app parse_exponent]. rewrite E, <- app_assoc. cbn [app]. rewrite Hre by done.
    cbn [app] in H'. by rewrite H'.
  - right. done.
Qed.

(** The first byte of a number. *)
Definition number_head (c : ascii) : bool := is_digit c || byte_is 45 c.

Lemma starts_impl (p1 p2 : ascii -> bool) b :
  (forall c, p1 c = true -> p2 c = false) -> starts p1 b = true -> starts p2 b = false.
Proof. intros H. destruct b; [done|]. cbn. apply H. Qed.

Lemma starts_false_impl (p1 p2 : ascii -> bool) b :
  (forall c, p1 c = false -> p2 c = false) -> starts p1 b = false -> starts p2 b = false.
Proof. intros H. destruct b; [done|]. cbn. apply H. Qed.

Ltac byte_class :=
  let c := fresh "c" in
  intros c; unfold number_byte, number_head, exponent_byte, is_digit, byte_in, byte_is; lia.

Lemma delimited_classes q :
  delimited q ->
  starts is_digit q = false /\ starts (byte_is 46) q = false /\ starts exponent_byte q = false.
Proof. intros H. split_and!; revert H; apply starts_false_impl; byte_class. Qed.

(** What follows a part [x] of a number, when [x] may be empty. *)
Lemma starts_part (p1 p2 : ascii -> bool) x q :
  (forall c, p1 c = true -> p2 c = false) -> x = [] \/ starts p1 x = true -> starts p2 q = false ->
  starts p2 (x ++ q) = false.
Proof. intros H [->|Hx] Hq; [done|]. destruct x; [done|]. cbn in *. by apply H. Qed.

Lemma parse_number_reread b lit r q :
  parse_number b = Some (lit, r) -> delimited q ->
  b = lit ++ r /\ parse_number (lit ++ q) = Some (lit, q) /\ starts number_head lit = true.
Proof.
  intros H Hq. apply delimited_classes in Hq as (Hd & Hf & He). unfold parse_number in H.
  assert (exists sign b0, parse_sign b = (sign, b0) /\ b = sign ++ b0 /\
    (sign = [] \/ starts (byte_is 45) sign = true) /\
    forall x, starts is_digit x = true -> parse_sign (sign ++ x) = (sign, x))
    as (sign & b0 & Es & -> & Hsign & Hs).
  { destruct b as [|c b]; cbn [parse_sign].
    - exists [], []. split_and!; auto. intros [|c x]; [done|]. cbn. intros Hc.
      replace (byte_is 45 c) with false; [done|]. unfold is_digit, byte_in, byte_is in *. lia.
    - destruct (byte_is 45 c) eqn:E.
      + exists [c], b. split_and!; auto. intros x _. cbn. by rewrite E.
      + exists [], (c :: b). split_and!; auto. intros [|c' x]; [done|]. cbn. intros Hc.
        replace (byte_is 45 c') with false; [done|]. unfold is_digit, byte_in, byte_is in *. lia. }
  rewrite Es in H.
  destruct (parse_integer b0) as [[int b1]|] eqn:Ei; [|done].
  destruct (parse_fraction b1) as [[frac b2]|] eqn:Ef; [|done].
  destruct (parse_exponent b2) as [[exp b3]|] eqn:Ee; [|done]. injection H as <- <-.
  destruct (parse_exponent_reread _ _ _ q Ee Hd He) as (-> & Re & He').
  assert (starts is_digit (exp ++ q) = false) as Hd2 by (apply (starts_part exponent_byte); [byte_class|done..]).
  assert (starts (byte_is 46) (exp ++ q) = false) as Hf2
    by (apply (starts_part exponent_byte); [byte_class|done..]).
  destruct (parse_fraction_reread _ _ _ (exp ++ q) Ef Hd2 Hf2) as (-> & Rf & Hf').
  assert (starts is_digit (frac ++ exp ++ q) = false) as Hd3
    by (apply (starts_part (byte_is 46)); [byte_class|done..]).
  destruct (parse_integer_reread _ _ _ (frac ++ exp ++ q) Ei Hd3) as (-> & Ri & Hi).
  assert (starts is_digit (int ++ frac ++ exp ++ q) = true) as Hi2 by (by destruct int).
  split_and!.
  - by rewrite <- !app_assoc.
  - unfold parse_number. rewrite <- !app_assoc. by rewrite Hs, Ri, Rf, Re.
  - destruct Hsign as [->|Hsign].
    + destruct int as [|c int]; [done|]. cbn in *. unfold number_head. by rewrite Hi.
    + destruct sign as [|c sign]; [done|]. cbn in *. unfold number_head. rewrite Hsign. by rewrite orb_true_r.
Qed.

(** ** The order of keys *)

Lemma code_inj a b : code a = code b -> a = b.
Proof. intros H. rewrite <- (ascii_N_embedding a), <- (ascii_N_embedding b). by f_equal. Qed.

Lemma byte_compare_refl k : byte_compare k k = Eq.
Proof. induction k as [|a k IH]; [done|]. cbn. by rewrite N.compare_refl. Qed.

Lemma byte_compare_eq k1 k2 : byte_compare k1 k2 = Eq -> k1 = k2.
Proof.
  revert k2. induction k1 as [|a k1 IH]; intros [|b k2]; try done. cbn.
  destruct (N.compare_spec (code a) (code b)) as [H|H|H]; try done.
  intros Hk. f_equal; [by apply code_inj|by apply IH].
Qed.

Lemma byte_compare_antisym k1 k2 : byte_compare k2 k1 = CompOpp (byte_compare k1 k2).
Proof.
  revert k2. induction k1 as [|a k1 IH]; intros [|b k2]; try done. cbn.
  rewrite (N.compare_antisym (code a) (code b)). destruct (code a ?= code b)%N; [apply IH|done..].
Qed.

Definition key_lt (k1 k2 : bytes) : Prop := byte_compare k1 k2 = Lt.

Lemma key_lt_trans k1 k2 k3 : key_lt k1 k2 -> key_lt k2 k3 -> key_lt k1 k3.
Proof.
  unfold key_lt. revert k2 k3. induction k1 as [|a k1 IH]; intros [|b k2] [|c k3]; try done. cbn.
  destruct (N.compare_spec (code a) (code b)) as [H1|H1|H1]; try done;
    destruct (N.compare_spec (code b) (code c)) as [H2|H2|H2]; try done; intros G1 G2.
  - rewrite H1, H2, N.compare_refl. eauto.
  - rewrite (proj2 (N.compare_lt_iff _ _)); [done|lia].
  - rewrite (proj2 (N.compare_lt_iff _ _)); [done|lia].
  - rewrite (proj2 (N.compare_lt_iff _ _)); [done|lia].
Qed.

Lemma key_lt_gt k1 k2 : key_lt k1 k2 <-> byte_compare k2 k1 = Gt.
Proof. unfold key_lt. rewrite (byte_compare_antisym k1 k2). destruct (byte_compare k1 k2); by split. Qed.

(** ** Well-formed values *)

Definition valid_number (lit : bytes) : Prop := exists b r, parse_number b = Some (lit, r).

(** The values that [Decode] yields below [d] more levels of nesting. *)
Inductive wf : N -> Json -> Prop :=
  | wf_null d : wf d JNull
  | wf_bool d b : wf d (JBool b)
  | wf_number d lit : valid_number lit -> wf d (JNumber lit)
  | wf_string d s : valid_utf8 s -> wf d (JString s)
  | wf_array d l : (0 < d)%N -> Forall (wf (d - 1)) l -> wf d (JArray l)
  | wf_object d m :
      (0 < d)%N -> StronglySorted key_lt (map fst m) -> Forall valid_utf8 (map fst m) ->
      Forall (wf (d - 1)) (map snd m) -> wf d (JObject m).

(** The part of [wf] about the members. *)
Definition members_ok (d : N) (m : list (bytes * Json)) : Prop :=
  StronglySorted key_lt (map fst m) /\ Forall valid_utf8 (map fst m) /\ Forall (wf d) (map snd m).

Lemma set_member_keys (P : bytes -> Prop) k v m :
  P k -> Forall P (map fst m) -> Forall P (map fst (set_member k v m)).
Proof.
  intros Hk. induction m as [|[k' v'] m IH]; cbn; [by repeat constructor|].
  intros [Hk' Hm]%Forall_cons. destruct (byte_compare k k'); cbn; repeat constructor; auto.
Qed.

Lemma set_member_values (P : Json -> Prop) k v m :
  P v -> Forall P (map snd m) -> Forall P (map snd (set_member k v m)).
Proof.
  intros Hv. induction m as [|[k' v'] m IH]; cbn; [by repeat constructor|].
  intros [Hk' Hm]%Forall_cons. destruct (byte_compare k k'); cbn; repeat constructor; auto.
Qed.

Lemma set_member_sorted k v m :
  StronglySorted key_lt (map fst m) -> StronglySorted key_lt (map fst (set_member k v m)).
Proof.
  induction m as [|[k' v'] m IH]; cbn; [by repeat constructor|].
  intros H. pose proof (StronglySorted_inv H) as [Hm Hk'].
  destruct (byte_compare k k') eqn:E; cbn.
  - apply byte_compare_eq in E as ->. exact H.
  - constructor; [exact H|]. constructor; [exact E|].
    eapply Forall_impl; [exact Hk'|]. intros x. by apply key_lt_trans.
  - constructor; [by apply IH|]. apply set_member_keys; [|exact Hk']. by apply key_lt_gt.
Qed.

Lemma set_member_ok d k v m :
  valid_utf8 k -> wf d v -> members_ok d m -> members_ok d (set_member k v m).
Proof.
  intros Hk Hv (H1 & H2 & H3).
  split_and!; [by apply set_member_sorted|by apply set_member_keys|by apply set_member_values].
Qed.

(** A key above all others is added at the end. *)
Lemma set_member_last k v m : Forall (fun k' => key_lt k' k) (map fst m) -> set_member k v m = m ++ [(k, v)].
Proof.
  induction m as [|[k' v'] m IH]; [done|]. cbn. intros [Hk Hm]%Forall_cons.
  apply key_lt_gt in Hk. by rewrite Hk, IH.
Qed.

(** ** What the parser reads *)

Lemma skip_space_length b : (length (skip_space b) <= length b)%nat.
Proof. induction b as [|c b IH]; cbn; [lia|]. destruct (is_space c); cbn; lia. Qed.

Lemma expect_length n b r : expect n b = Some r -> (length r < length b)%nat.
Proof.
  unfold expect. pose proof (skip_space_length b). destruct (skip_space b) as [|c x]; [done|].
  destruct (byte_is n c); [|done]. intros [= <-]. cbn in *. lia.
Qed.

Lemma strip_length p b r : strip p b = Some r -> (length r <= length b)%nat.
Proof. unfold strip. cbv zeta. case_match; [|done]. intros [= <-]. rewrite length_drop. lia. Qed.

Lemma unquote_valid r us r' : unquote r = Some (us, r') -> valid_utf8 (encode us) /\ (length r' < length r)%nat.
Proof. intros [H1 H2]%unquote_sound. split; [by exists us|done]. Qed.

Lemma parse_number_length b lit r : parse_number b = Some (lit, r) -> (length r < length b)%nat.
Proof.
  intros H. destruct (parse_number_reread b lit r [] H eq_refl) as (-> & _ & Hh).
  destruct lit; [done|]. rewrite length_app. cbn. lia.
Qed.

Definition value_sound (fuel : nat) : Prop := forall d b v r,
  parse_value fuel d b = Some (v, r) -> wf d v /\ (length r < length b)%nat.

Definition members_sound (fuel : nat) : Prop := forall d m b m' r,
  parse_members fuel d m b = Some (m', r) -> members_ok d m -> members_ok d m' /\ (length r < length b)%nat.

Definition elements_sound (fuel : nat) : Prop := forall d b l r,
  parse_elements fuel d b = Some (l, r) -> Forall (wf d) l /\ (length r < length b)%nat.

Lemma value_sound_S fuel : members_sound fuel -> elements_sound fuel -> value_sound (S fuel).
Proof.
  intros IHm IHe d b v r. cbn [parse_value]. pose proof (skip_space_length b) as Hb.
  destruct (skip_space b) as [|c x]; [done|]. cbn [length] in Hb.
  destruct (byte_is 34 c).
  { destruct (unquote x) as [[us r']|] eqn:E; [|done]. intros [= <- <-].
    apply unquote_valid in E as [E1 E2]. split; [by constructor|lia]. }
  destruct (byte_is 123 c).
  { destruct (d =? 0)%N eqn:Ed; [done|]. destruct (expect 125 x) as [r'|] eqn:E.
    - intros [= <- <-]. apply expect_length in E. split; [|lia].
      constructor; cbn; [lia|constructor..].
    - destruct (parse_members fuel (d - 1) [] x) as [[m r']|] eqn:Em; [|done]. intros [= <- <-].
      destruct (IHm _ _ _ _ _ Em) as [(H1 & H2 & H3) H4]; [split_and!; cbn; constructor|].
      split; [|lia]. constructor; [lia|done..]. }
  destruct (byte_is 91 c).
  { destruct (d =? 0)%N eqn:Ed; [done|]. destruct (expect 93 x) as [r'|] eqn:E.
    - intros [= <- <-]. apply expect_length in E. split; [|lia]. constructor; [lia|constructor].
    - destruct (parse_elements fuel (d - 1) x) as [[l r']|] eqn:Em; [|done]. intros [= <- <-].
      apply IHe in Em as [H1 H2]. split; [|lia]. constructor; [lia|done]. }
  destruct (byte_is 110 c); [|destruct (byte_is 116 c); [|destruct (byte_is 102 c)]].
  1-3: destruct (strip _ x) as [r'|] eqn:E; [|done]; intros [= <- <-]; apply strip_length in E;
    (split; [by constructor|lia]).
  destruct (parse_number (c :: x)) as [[lit r']|] eqn:E; [|done]. intros [= <- <-].
  pose proof (parse_number_length _ _ _ E) as Hl. cbn [length] in Hl.
  split; [constructor; by exists (c :: x), r'|lia].
Qed.

Lemma members_sound_S fuel : value_sound fuel -> members_sound fuel -> members_sound (S fuel).
Proof.
  intros IHv IHm d m b m' r. cbn [parse_members].
  destruct (expect 34 b) as [r1|] eqn:E1; [|done]. apply expect_length in E1.
  destruct (unquote r1) as [[us r2]|] eqn:E2; [|done]. apply unquote_valid in E2 as [Hk E2].
  destruct (expect 58 r2) as [r3|] eqn:E3; [|done]. apply expect_length in E3.
  destruct (parse_value fuel d r3) as [[v r4]|] eqn:E4; [|done]. apply IHv in E4 as [Hv E4].
  intros H Hm. apply (set_member_ok d (encode us) v) in Hm; [|done..]. revert H.
  destruct (expect 125 r4) as [r5|] eqn:E5; [apply expect_length in E5|].
  - intros [= <- <-]. split; [done|lia].
  - destruct (expect 44 r4) as [r5|] eqn:E6; [|done]. apply expect_length in E6. intros H.
    destruct (IHm _ _ _ _ _ H Hm) as [H1 H2]. split; [done|lia].
Qed.

Lemma elements_sound_S fuel : value_sound fuel -> elements_sound fuel -> elements_sound (S fuel).
Proof.
  intros IHv IHe d b l r. cbn [parse_elements].
  destruct (parse_value fuel d b) as [[v r1]|] eqn:E1; [|done]. apply IHv in E1 as [Hv E1].
  destruct (expect 93 r1) as [r2|] eqn:E2; [apply expect_length in E2|].
  - intros [= <- <-]. split; [by repeat constructor|lia].
  - destruct (expect 44 r1) as [r2|] eqn:E3; [|done]. apply expect_length in E3.
    destruct (parse_elements fuel d r2) as [[l' r3]|] eqn:E4; [|done]. intros [= <- <-].
    apply IHe in E4 as [H1 H2]. split; [by constructor|lia].
Qed.

Lemma parser_sound fuel : value_sound fuel /\ members_sound fuel /\ elements_sound fuel.
Proof.
  induction fuel as [|fuel (IHv & IHm & IHe)]; [by split_and!; intros ? *|].
  split_and!; [by apply value_sound_S|by apply members_sound_S|by apply elements_sound_S].
Qed.

Lemma parse_value_sound fuel d b v r :
  parse_value fuel d b = Some (v, r) -> wf d v /\ (length r < length b)%nat.
Proof. apply parser_sound. Qed.

(** ** The fuel *)

Definition fuel_irrelevant (n : nat) : Prop :=
  (forall g d b, (2 * length b + 1 <= n)%nat -> (n <= g)%nat -> parse_value g d b = parse_value n d b) /\
  (forall g d m b, (2 * length b + 2 <= n)%nat -> (n <= g)%nat ->
     parse_members g d m b = parse_members n d m b) /\
  (forall g d b, (2 * length b + 2 <= n)%nat -> (n <= g)%nat ->
     parse_elements g d b = parse_elements n d b).

Lemma fuel_is_irrelevant n : fuel_irrelevant n.
Proof.
  induction n as [|n (IHv & IHm & IHe)]; [split_and!; intros; lia|].
  split_and!; intros g; intros; destruct g as [|g]; try lia.
  - cbn [parse_value]. pose proof (skip_space_length b) as Hb.
    destruct (skip_space b) as [|c x]; [done|]. cbn [length] in Hb.
    rewrite (IHm g _ _ x), (IHe g _ x) by lia. done.
  - cbn [parse_members].
    destruct (expect 34 b) as [r1|] eqn:E1; [|done]. apply expect_length in E1.
    destruct (unquote r1) as [[us r2]|] eqn:E2; [|done]. apply unquote_valid in E2 as [_ E2].
    destruct (expect 58 r2) as [r3|] eqn:E3; [|done]. apply expect_length in E3.
    rewrite (IHv g _ r3) by lia.
    destruct (parse_value n d r3) as [[v r4]|] eqn:E4; [|done]. apply parse_value_sound in E4 as [_ E4].
    destruct (expect 125 r4); [done|].
    destruct (expect 44 r4) as [r5|] eqn:E6; [|done]. apply expect_length in E6.
    apply IHm; lia.
  - cbn [parse_elements]. rewrite (IHv g _ b) by lia.
    destruct (parse_value n d b) as [[v r1]|] eqn:E1; [|done]. apply parse_value_sound in E1 as [_ E1].
    destruct (expect 93 r1); [done|].
    destruct (expect 44 r1) as [r2|] eqn:E3; [|done]. apply expect_length in E3.
    by rewrite (IHe g _ r2) by lia.
Qed.

(** [Decode] does not run out of fuel: more of it reads the same. *)
Lemma Decode_fuel g b : (2 * length b + 2 <= g)%nat -> parse_value g maxNestingDepth b = Decode b.
Proof.
  intros H. unfold Decode.
  rewrite (proj1 (fuel_is_irrelevant (2 * length b + 1)) g), <- (proj1 (fuel_is_irrelevant (2 * length b + 1)) (2 * length b + 2)%nat);
    [done|lia..].
Qed.

(** ** Marshalled values are read back *)

Lemma expect_here n m b :
  (m < 256)%N -> is_space (ascii_of_N m) = false ->
  expect n (ascii_of_N m :: b) = if (m =? n)%N then Some b else None.
Proof. intros Hm Hs. unfold expect. cbn [skip_space]. by rewrite Hs, byte_is_ascii. Qed.

Lemma skip_space_here c b : is_space c = false -> skip_space (c :: b) = c :: b.
Proof. intros H. cbn. by rewrite H. Qed.

(** The first byte of a marshalled value. *)
Lemma Marshal_head d v :
  wf d v -> exists c x, Marshal v = c :: x /\ is_space c = false /\ byte_is 93 c = false.
Proof.
  intros [?|? b|? lit (b & r & H)|? s H|? l H1 H2|? m H1 H2 H3 H4]; cbn [Marshal].
  - eexists _, _. split; [reflexivity|done].
  - destruct b; eexists _, _; (split; [reflexivity|done]).
  - destruct (parse_number_reread b lit r [] H eq_refl) as (_ & _ & Hh).
    destruct lit as [|c x]; [done|]. exists c, x. cbn in Hh. split; [done|].
    unfold is_space, number_head, is_digit, byte_is, byte_in in *. lia.
  - eexists _, _. split; [reflexivity|done].
  - eexists _, _. split; [reflexivity|done].
  - eexists _, _. split; [reflexivity|done].
Qed.

Lemma separated_cons x y l : separated (x :: y :: l) = x ++ ascii_of_N 44 :: separated (y :: l).
Proof. reflexivity. Qed.

Definition value_reread (fuel : nat) : Prop := forall d v rest,
  wf d v -> delimited rest -> (2 * length (Marshal v) <= fuel)%nat ->
  parse_value fuel d (Marshal v ++ rest) = Some (v, rest).

Lemma parse_elements_reread N d l rest :
  (forall n, (n < N)%nat -> value_reread n) -> l <> [] -> Forall (wf d) l ->
  forall fuel, (fuel <= N)%nat -> (2 * (length (separated (map Marshal l)) + 1) <= fuel)%nat ->
  parse_elements fuel d (separated (map Marshal l) ++ ascii_of_N 93 :: rest) = Some (l, rest).
Proof.
  intros IH Hne Hl. induction l as [|v l IHl]; [done|]. apply Forall_cons in Hl as [Hv Hl].
  intros [|fuel]; [lia|]. intros HN Hf. cbn [parse_elements]. destruct l as [|v' l].
  - cbn [map separated flat_map] in *. rewrite app_nil_r in *.
    rewrite (IH fuel) by (done || lia). by rewrite expect_here by done.
  - cbn [map] in *. rewrite separated_cons in *. rewrite length_app in Hf. cbn [length] in Hf.
    rewrite <- app_assoc. cbn [app]. rewrite (IH fuel) by (done || lia).
    rewrite !expect_here by done. cbn [N.eqb Pos.eqb].
    rewrite IHl; [done|done|done|lia|lia].
Qed.

Definition member (kv : bytes * Json) : bytes := quote kv.1 ++ ascii_of_N 58 :: Marshal kv.2.

Lemma parse_member_reread fuel d acc k v x :
  value_reread fuel -> valid_utf8 k -> wf d v -> delimited x -> (2 * length (Marshal v) <= fuel)%nat ->
  parse_members (S fuel) d acc (member (k, v) ++ x) =
  match expect 125 x with
  | Some r => Some (set_member k v acc, r)
  | None =>
      match expect 44 x with
      | Some r => parse_members fuel d (set_member k v acc) r
      | None => None
      end
  end.
Proof.
  intros IH Hk Hv Hx Hf. cbn [parse_members]. unfold member, quote. cbn [fst snd app].
  rewrite expect_here by done. cbn [N.eqb Pos.eqb]. rewrite <- !app_assoc. cbn [app].
  destruct (unquote_quoted k (ascii_of_N 58 :: Marshal v ++ x) Hk) as (us & -> & ->).
  rewrite expect_here by done. cbn [N.eqb Pos.eqb]. by rewrite IH.
Qed.

Lemma member_length k v : (length (Marshal v) < length (member (k, v)))%nat.
Proof. unfold member, quote. cbn [fst snd]. cbn. rewrite !length_app. cbn. lia. Qed.

Lemma parse_members_reread N d m rest :
  (forall n, (n < N)%nat -> value_reread n) -> m <> [] -> Forall valid_utf8 (map fst m) ->
  Forall (wf d) (map snd m) ->
  forall acc fuel, StronglySorted key_lt (map fst (acc ++ m)) -> (fuel <= N)%nat ->
  (2 * (length (separated (map member m)) + 1) <= fuel)%nat ->
  parse_members fuel d acc (separated (map member m) ++ ascii_of_N 125 :: rest) = Some (acc ++ m, rest).
Proof.
  intros IH Hne Hks Hvs. induction m as [|[k v] m IHm]; [done|].
  cbn [map fst snd] in Hks, Hvs. apply Forall_cons in Hks as [Hk Hks], Hvs as [Hv Hvs].
  intros acc [|fuel] Hs HN Hf; [lia|]. pose proof (member_length k v) as Hmem.
  assert (Hlast : set_member k v acc = acc ++ [(k, v)]).
  { apply set_member_last. rewrite map_app in Hs. apply Forall_forall. intros k' Hk'.
    refine (StronglySorted_app_1_elem_of _ _ _ _ _ Hs Hk' _). cbn. by left. }
  destruct m as [|[k' v'] m].
  - cbn [map separated flat_map] in *. rewrite app_nil_r in *.
    rewrite parse_member_reread by (done || lia || (apply IH; lia)).
    rewrite expect_here by done. by rewrite Hlast.
  - cbn [map] in *. rewrite separated_cons in *. rewrite length_app in Hf. cbn [length] in Hf.
    rewrite <- app_assoc. cbn [app].
    rewrite parse_member_reread by (done || lia || (apply IH; lia)).
    rewrite !expect_here by done. cbn [N.eqb Pos.eqb]. rewrite Hlast.
    rewrite IHm; [by rewrite <- app_assoc|done..|by rewrite <- app_assoc|lia|lia].
Qed.

Lemma cons_split {A} (a b : A) l m : a :: l = b :: m -> a = b /\ l = m.
Proof. by intros [= -> ->]. Qed.

Lemma value_rereads n : value_reread n.
Proof.
  induction n as [N IH] using lt_wf_ind. intros d v rest Hv Hrest HN.
  destruct (Marshal_head d v Hv) as (c & x & E & Hc & _).
  destruct N as [|fuel]; [rewrite E in HN; cbn in HN; lia|].
  assert (IH' : forall n, (n < fuel)%nat -> value_reread n) by (intros; apply IH; lia).
  cbn [parse_value]. rewrite E. cbn [app]. rewrite skip_space_here by done.
  destruct Hv as [d|d b|d lit (b & r & H)|d s H|d l Hd Hl|d m Hd Hs Hk Hm]; cbn [Marshal] in E, HN.
  - injection E as <- <-. reflexivity.
  - destruct b; injection E as <- <-; reflexivity.
  - destruct (parse_number_reread b lit r rest H Hrest) as (_ & Hn & Hh). subst lit. cbn [app] in Hn.
    rewrite Hn. cbn [starts] in Hh. clear -Hh.
    unfold number_head, is_digit, byte_in in Hh. unfold byte_is in *.
    repeat (rewrite (proj2 (N.eqb_neq _ _)); [|lia]). reflexivity.
  - apply cons_split in E as [<- <-]. rewrite <- app_assoc. cbn [app].
    destruct (unquote_quoted s rest H) as (us & -> & ->). reflexivity.
  - apply cons_split in E as [<- <-]. rewrite !byte_is_ascii by lia. cbn [N.eqb Pos.eqb].
    rewrite (proj2 (N.eqb_neq d 0)) by lia. rewrite <- app_assoc. cbn [app].
    destruct l as [|v l]; [reflexivity|].
    assert (expect 93 (separated (map Marshal (v :: l)) ++ ascii_of_N 93 :: rest) = None) as ->.
    { apply Forall_cons_1 in Hl as [Hv _]. destruct (Marshal_head _ v Hv) as (c & x & E & H1 & H2).
      cbn [map separated]. rewrite E. cbn. unfold expect. rewrite skip_space_here by done. by rewrite H2. }
    rewrite (parse_elements_reread fuel); [done|exact IH'|done|done|lia|].
    cbn [length] in HN. rewrite length_app in HN. cbn [length] in HN. lia.
  - apply cons_split in E as [<- <-]. rewrite !byte_is_ascii by lia. cbn [N.eqb Pos.eqb].
    rewrite (proj2 (N.eqb_neq d 0)) by lia. rewrite <- app_assoc. cbn [app].
    destruct m as [|[k v] m]; [reflexivity|].
    assert (expect 125 (separated (map member ((k, v) :: m)) ++ ascii_of_N 125 :: rest) = None) as He
      by reflexivity.
    fold member. change (fun kv : bytes * Json => quote kv.1 ++ ascii_of_N 58 :: Marshal kv.2) with member in *.
    rewrite He. rewrite (parse_members_reread fuel); [done|exact IH'|done..|lia|].
    cbn [length] in HN. rewrite length_app in HN. cbn [length] in HN. lia.
Qed.

Lemma Decode_Marshal v rest :
  wf maxNestingDepth v -> delimited rest -> Decode (Marshal v ++ rest) = Some (v, rest).
Proof.
  intros Hv Hr. unfold Decode. apply value_rereads; [done..|]. rewrite length_app. lia.
Qed.

Lemma decodeOne_Marshal v : wf maxNestingDepth v -> decodeOne (Marshal v) = Some v.
Proof.
  intros Hv. unfold decodeOne. pose proof (Decode_Marshal v [] Hv eq_refl) as H.
  rewrite app_nil_r in H. by rewrite H.
Qed.

Lemma Decode_wf b v rest : Decode b = Some (v, rest) -> wf maxNestingDepth v.
Proof. intros H. by apply parse_value_sound in H as [H _]. Qed.

Lemma decodeOne_wf b v : decodeOne b = Some v -> wf maxNestingDepth v.
Proof.
  unfold decodeOne. destruct (Decode b) as [[w r]|] eqn:E; [|done].
  destruct (AtEOF r); [|done]. intros [= <-]. by eapply Decode_wf.
Qed.

(** The canonical form of a document is its own canonical form. *)
Lemma canonical_idempotent b c : canonical b = Some c -> canonical c = Some c.
Proof.
  unfold canonical. destruct (decodeOne b) as [v|] eqn:E; [|done]. cbn. intros [= <-].
  apply decodeOne_wf, decodeOne_Marshal in E. by rewrite E.
Qed.

(** Values with the same canonical form are the same value. *)
Lemma Marshal_inj v w :
  wf maxNestingDepth v -> wf maxNestingDepth w -> Marshal v = Marshal w -> v = w.
Proof.
  intros Hv%decodeOne_Marshal Hw%decodeOne_Marshal H. rewrite H, Hw in Hv. by injection Hv.
Qed.
