(* ===== verification/GoJsonStruct.v ===== *)
(** * JSON of structs and of raw messages

    [json.Marshal] writes the fields of a struct in the order of the type; a
    [json.RawMessage] is checked and compacted. Compacting what [Marshal] wrote
    changes nothing. *)

From Stdlib Require Import Ascii String.
From S2P Require Import Prelude GoString GoJson GoJsonText.
Import json.

(** ** Definitions *)

Definition quoteString (s : string) : bytes := quote (bytes_of s).

Definition field (name : string) (value : bytes) : bytes :=
  quoteString name ++ ascii_of_N 58 :: value.

Definition object (fields : list bytes) : bytes := ascii_of_N 123 :: separated fields ++ [ascii_of_N 125].

(** A [[]string] that is not nil. *)
Definition MarshalStrings (l : list string) : bytes := Marshal (JArray (map (fun s => JString (bytes_of s)) l)).

(** The three bytes of U+2028 and U+2029. *)
Definition line_separator (a b c : ascii) : bool := byte_is 226 a && byte_is 128 b && byte_in 168 169 c.

(** [compact] of the encoder: white space outside strings is dropped and HTML
    is escaped inside them. *)
Fixpoint compact (in_string : bool) (s : bytes) : bytes :=
  match s with
  | [] => []
  | a :: s1 =>
      if in_string then
        if byte_is 92 a then
          match s1 with
          | e :: s2 => a :: e :: compact true s2
          | [] => [a]
          end
        else if byte_is 34 a then a :: compact false s1
        else if byte_is 60 a || byte_is 62 a || byte_is 38 a then unicode_escape (code a) ++ compact true s1
        else
          match s1 with
          | b :: c :: s3 =>
              if line_separator a b c then unicode_escape (8064 + code c) ++ compact true s3
              else a :: compact true s1
          | _ => a :: compact true s1
          end
      else if is_space a then compact false s1
      else if byte_is 34 a then a :: compact true s1
      else a :: compact false s1
  end.

(** [RawMessage.MarshalJSON]; the empty message is the nil one. *)
Definition MarshalRaw (b : bytes) : option bytes :=
  if b == [] then Some (bytes_of "null") else
  match decodeOne b with
  | None => None
  | Some _ => Some (compact false b)
  end.

Example MarshalRaw_sample :
  MarshalRaw (text " { 'b' : ['<\u2028', 1 ] } ") = Some (text "{'b':['\u003c\u2028',1]}") /\
  MarshalRaw (text "'" ++ encode_rune 8232 ++ text "'") = Some (text "'\u2028'") /\
  MarshalRaw (text "{") = None.
Proof. split_and!; vm_compute; reflexivity. Qed.

(** ** Compacting marshalled values *)

#[local] Ltac Zify.zify_post_hook ::= Z.to_euclidean_division_equations.

(** Compacting copies [b]. *)
Definition copied (in_string : bool) (b : bytes) : Prop :=
  forall rest, compact in_string (b ++ rest) = b ++ compact in_string rest.

Lemma copied_nil i : copied i [].
Proof. done. Qed.

Lemma copied_app i b c : copied i b -> copied i c -> copied i (b ++ c).
Proof. intros Hb Hc rest. rewrite <- !app_assoc. by rewrite Hb, Hc. Qed.

(** A byte inside a string that stands for itself. *)
Definition plain (c : ascii) : Prop :=
  (32 <= code c < 128)%N /\ code c <> 34%N /\ code c <> 92%N /\ code c <> 60%N /\ code c <> 62%N /\ code c <> 38%N.

Lemma compact_high a s :
  (128 <= code a)%N ->
  compact true (a :: s) =
  match s with
  | b :: c :: s3 =>
      if line_separator a b c then unicode_escape (8064 + code c) ++ compact true s3
      else a :: compact true s
  | _ => a :: compact true s
  end.
Proof.
  intros H. cbn [compact]. unfold byte_is. fold (code a).
  rewrite !(proj2 (N.eqb_neq (code a) _)) by lia. done.
Qed.

Lemma not_separator a b c : code a <> 226%N -> line_separator a b c = false.
Proof. intros H. unfold line_separator, byte_is. fold (code a). by rewrite (proj2 (N.eqb_neq _ _) H). Qed.

Lemma copied_high a : (128 <= code a)%N -> code a <> 226%N -> copied true [a].
Proof.
  intros H H1 rest. cbn [app]. rewrite compact_high by done.
  destruct rest as [|b [|c rest]]; [done..|]. by rewrite not_separator.
Qed.

Lemma copied_plain c : plain c -> copied true [c].
Proof.
  intros (H1 & H2 & H3 & H4 & H5 & H6) rest. cbn [app compact]. unfold line_separator, byte_is. fold (code c).
  rewrite !(proj2 (N.eqb_neq (code c) _)) by lia. by destruct rest as [|? [|? ?]].
Qed.

Lemma copied_escape e : copied true [ascii_of_N 92; e].
Proof. intros rest. cbn [app compact]. by rewrite byte_is_ascii. Qed.

Lemma copied_all i b : Forall (fun c => copied i [c]) b -> copied i b.
Proof. induction 1 as [|c b Hc _ IH]; [apply copied_nil|]. exact (copied_app i [c] b Hc IH). Qed.

Lemma plain_hex n : (n < 16)%N -> plain (json.hex_digit n).
Proof.
  intros H. unfold plain, json.hex_digit. destruct (n <? 10)%N eqn:E; rewrite code_ascii by lia; lia.
Qed.

Lemma copied_unicode_escape u : copied true (unicode_escape u).
Proof.
  unfold unicode_escape. change (copied true ([ascii_of_N 92; ascii_of_N 117] ++
    [json.hex_digit (u / 4096 mod 16); json.hex_digit (u / 256 mod 16); json.hex_digit (u / 16 mod 16);
     json.hex_digit (u mod 16)])%N).
  apply copied_app; [apply copied_escape|]. apply copied_all.
  repeat constructor; apply copied_plain, plain_hex; lia.
Qed.

Lemma continuation_high c : continuation c = true -> (128 <= code c)%N /\ code c <> 226%N.
Proof. unfold continuation, byte_in, code. lia. Qed.

Lemma copied_triple a b c :
  (128 <= code a)%N -> line_separator a b c = false -> copied true [b; c] -> copied true [a; b; c].
Proof.
  intros H Hs Hbc rest. cbn [app]. rewrite compact_high by done. rewrite Hs. f_equal. apply Hbc.
Qed.

Lemma copied_rune u :
  scalar u -> (32 <= u)%N -> u <> 34%N -> u <> 92%N -> u <> 60%N -> u <> 62%N -> u <> 38%N ->
  u <> 8232%N -> u <> 8233%N -> copied true (encode_rune u).
Proof.
  intros Hs H1 H2 H3 H4 H5 H6 H7 H8.
  destruct (encode_rune_encoded u Hs) as [H|a b H E2|a b c H E2 E3|a b c d H E2 E3 E4].
  - apply copied_plain. unfold plain. rewrite code_ascii by lia. lia.
  - unfold utf8_2 in E2. destruct (byte_in 194 223 a && continuation b) eqn:E; [|done].
    apply andb_true_iff in E as [Ea Eb]. apply continuation_high in Eb as [Eb Eb'].
    apply (copied_app _ [a] [b]); apply copied_high; [done| |done|done].
    unfold byte_in in Ea. fold (code a) in Ea. lia.
  - unfold utf8_3 in E3. case_match eqn:E; [|done]. injection E3 as E3.
    apply andb_true_iff in E as [E Ec]. apply andb_true_iff in E as [Ea Eb].
    assert ((128 <= code b)%N /\ code b <> 226%N) as [Hb Hb'].
    { unfold byte_in in Eb. fold (code b) in Eb. destruct (byte_is 224 a), (byte_is 237 a); lia. }
    pose proof (continuation_high c Ec) as [Hc Hc'].
    apply copied_triple; [done| |by apply (copied_app _ [b] [c]); apply copied_high].
    unfold line_separator, byte_is, byte_in, continuation in *. unfold byte_in in Ec.
    fold (code a) (code b) (code c) in *. lia.
  - unfold utf8_4 in E4. case_match eqn:E; [|done].
    apply andb_true_iff in E as [E Ed]. apply andb_true_iff in E as [E Ec].
    apply andb_true_iff in E as [Ea Eb].
    assert ((128 <= code b)%N /\ code b <> 226%N) as [Hb Hb'].
    { unfold byte_in in Eb. fold (code b) in Eb. destruct (byte_is 240 a), (byte_is 244 a); lia. }
    pose proof (continuation_high c Ec) as [Hc Hc']. pose proof (continuation_high d Ed) as [Hd Hd'].
    apply (copied_app _ [a] [b; c; d]); [|apply (copied_app _ [b] [c; d]); [|apply (copied_app _ [c] [d])]];
      apply copied_high; try done.
    unfold byte_in in Ea. fold (code a) in Ea. lia.
Qed.

Lemma copied_escape_rune o :
  match o with Some u => scalar u | None => True end -> copied true (escape_rune o).
Proof.
  destruct o as [u|]; cbn [escape_rune]; intros Hs; [|apply copied_unicode_escape].
  destruct ((u =? 34) || (u =? 92))%N eqn:E0; [apply copied_escape|].
  destruct (u =? 8)%N; [apply copied_escape|]. destruct (u =? 12)%N; [apply copied_escape|].
  destruct (u =? 10)%N; [apply copied_escape|]. destruct (u =? 13)%N; [apply copied_escape|].
  destruct (u =? 9)%N; [apply copied_escape|].
  case_match eqn:E; [apply copied_unicode_escape|]. apply copied_rune; try done; lia.
Qed.

Lemma copied_quote s : valid_utf8 s -> copied false (quote s).
Proof.
  intros (us & Hs & ->) rest. unfold quote. rewrite runes_encode by done. cbn [app].
  cbn [compact]. rewrite !byte_is_ascii by lia. cbn [is_space]. rewrite <- !app_assoc. cbn [app].
  change (is_space (ascii_of_N 34)) with false. cbn [N.eqb Pos.eqb]. f_equal.
  assert (copied true (flat_map escape_rune (Some <$> us))) as ->.
  { induction Hs as [|u us Hu _ IH]; [apply copied_nil|]. rewrite fmap_cons. cbn [flat_map].
    apply copied_app; [by apply copied_escape_rune|exact IH]. }
  f_equal.
Qed.

(** A byte outside strings that is kept. *)
Definition kept (c : ascii) : bool := negb (is_space c) && negb (byte_is 34 c).

Lemma copied_kept b : forallb kept b = true -> copied false b.
Proof.
  intros H. apply copied_all. apply Forall_forall. intros c Hc%list_elem_of_In.
  apply (proj1 (forallb_forall _ _) H) in Hc as [H1 H2]%andb_true_iff.
  intros rest. cbn [app compact]. apply negb_true_iff in H1, H2. by rewrite H1, H2.
Qed.

Lemma span_digits_kept b : forallb kept (fst (span_digits b)) = true.
Proof.
  induction b as [|c b IH]; [done|]. cbn [span_digits]. destruct (is_digit c) eqn:E; [|done].
  destruct (span_digits b) as [ds r]. cbn in *. rewrite IH, andb_true_r.
  unfold kept, is_space, is_digit, byte_in, byte_is in *. lia.
Qed.

Lemma kept_cons c b : kept c = true -> forallb kept b = true -> forallb kept (c :: b) = true.
Proof. intros H1 H2. cbn. by rewrite H1, H2. Qed.

Ltac kept_byte := unfold kept, is_space, byte_in, byte_is in *; lia.

Lemma number_kept b lit r : parse_number b = Some (lit, r) -> forallb kept lit = true.
Proof.
  unfold parse_number. intros H.
  destruct (parse_sign b) as [sign b0] eqn:Es.
  destruct (parse_integer b0) as [[int b1]|] eqn:Ei; [|done].
  destruct (parse_fraction b1) as [[frac b2]|] eqn:Ef; [|done].
  destruct (parse_exponent b2) as [[exp b3]|] eqn:Ee; [|done]. injection H as <- _.
  rewrite !forallb_app, !andb_true_iff. split_and!.
  - destruct b as [|c b]; cbn in Es; [by injection Es as <- _|].
    destruct (byte_is 45 c) eqn:E; injection Es as <- _; [|done]. apply kept_cons; [kept_byte|done].
  - destruct b0 as [|c b0]; [done|]. cbn in Ei. pose proof (span_digits_kept b0) as Hk.
    destruct (byte_is 48 c) eqn:E; [injection Ei as <- _; apply kept_cons; [kept_byte|done]|].
    destruct (byte_in 49 57 c) eqn:E1; [|done]. destruct (span_digits b0). injection Ei as <- _.
    apply kept_cons; [kept_byte|exact Hk].
  - destruct b1 as [|c b1]; cbn in Ef; [by injection Ef as <- _|]. pose proof (span_digits_kept b1) as Hk.
    destruct (byte_is 46 c) eqn:E; [|by injection Ef as <- _].
    destruct (span_digits b1) as [[|d ds] r']; [done|]. injection Ef as <- _.
    apply kept_cons; [kept_byte|exact Hk].
  - destruct b2 as [|c b2]; cbn in Ee; [by injection Ee as <- _|].
    destruct (byte_is 101 c || byte_is 69 c) eqn:E; [|by injection Ee as <- _].
    assert (exists sign b4, (match b2 with
      | s :: b'' => if byte_is 43 s || byte_is 45 s then ([s], b'') else ([], b2)
      | [] => ([], [])
      end) = (sign, b4) /\ forallb kept sign = true) as (sign' & b4 & E4 & Hs).
    { destruct b2 as [|s b2]; [by exists [], []|].
      destruct (byte_is 43 s || byte_is 45 s) eqn:E5; [exists [s], b2|by exists [], (s :: b2)].
      split; [done|]. apply kept_cons; [kept_byte|done]. }
    rewrite E4 in Ee. pose proof (span_digits_kept b4) as Hk.
    destruct (span_digits b4) as [[|d ds] r']; [done|]. injection Ee as <- _.
    apply kept_cons; [kept_byte|]. rewrite forallb_app, Hs. exact Hk.
Qed.

Lemma copied_separated l : Forall (copied false) l -> copied false (separated l).
Proof.
  destruct 1 as [|b l Hb Hl]; [apply copied_nil|]. cbn [separated]. apply copied_app; [exact Hb|].
  induction Hl as [|c l Hc _ IH]; [apply copied_nil|]. cbn [flat_map].
  apply copied_app; [|exact IH]. apply (copied_app _ [_]); [by apply copied_kept|exact Hc].
Qed.

Lemma copied_bracket o l c :
  kept o = true -> kept c = true -> Forall (copied false) l -> copied false (o :: separated l ++ [c]).
Proof.
  intros Ho Hc Hl. apply (copied_app _ [o]); [apply copied_kept; cbn; by rewrite Ho|].
  apply copied_app; [by apply copied_separated|apply copied_kept; cbn; by rewrite Hc].
Qed.

Lemma copied_Marshal_fuel n : forall d v, wf d v -> (length (Marshal v) <= n)%nat -> copied false (Marshal v).
Proof.
  assert (Hin : forall (x : bytes) l, x ∈ l -> (length x <= length (separated l))%nat).
  { intros x [|b l] Hx; [by apply not_elem_of_nil in Hx|]. cbn [separated]. rewrite length_app.
    apply elem_of_cons in Hx as [->|Hx]; [lia|].
    enough (length x <= length (flat_map (fun b => ascii_of_N 44 :: b) l))%nat by lia.
    induction l as [|c l IH]; [by apply not_elem_of_nil in Hx|]. cbn [flat_map]. rewrite length_app.
    apply elem_of_cons in Hx as [->|Hx]; [cbn; lia|]. specialize (IH Hx). lia. }
  induction n as [|n IH]; intros d v Hv Hn.
  { destruct (Marshal_head d v Hv) as (c & x & E & _). rewrite E in Hn. cbn in Hn. lia. }
  destruct Hv as [d|d b|d lit (b & r & H)|d s H|d l Hd Hl|d m Hd Hs Hk Hm]; cbn [Marshal].
  - by apply copied_kept.
  - by destruct b; apply copied_kept.
  - apply copied_kept. by eapply number_kept.
  - by apply copied_quote.
  - apply copied_bracket; [done..|]. cbn [Marshal] in Hn. apply Forall_forall. intros x Hx.
    pose proof (Hin _ _ Hx) as Hlen. cbn [length] in Hn. rewrite length_app in Hn.
    apply list_elem_of_In, in_map_iff in Hx as (v & <- & Hv). rewrite Forall_forall in Hl.
    apply list_elem_of_In in Hv. apply (IH (d - 1)%N); [by apply Hl|lia].
  - apply copied_bracket; [done..|]. cbn [Marshal] in Hn. apply Forall_forall. intros x Hx.
    pose proof (Hin _ _ Hx) as Hlen. cbn [length] in Hn. rewrite length_app in Hn.
    apply list_elem_of_In, in_map_iff in Hx as ([k v] & <- & Hv). cbn [fst snd] in *.
    rewrite Forall_forall in Hk. rewrite Forall_forall in Hm.
    pose proof (Hk k ltac:(apply list_elem_of_In; by apply (in_map fst) in Hv)) as Hk'.
    pose proof (Hm v ltac:(apply list_elem_of_In; by apply (in_map snd) in Hv)) as Hm'.
    apply copied_app; [by apply copied_quote|].
    apply (copied_app _ [_]); [by apply copied_kept|].
    rewrite length_app in Hlen. cbn [length] in Hlen. apply (IH (d - 1)%N); [done|lia].
Qed.

(** What [Marshal] wrote of a decoded value is compact. *)
Lemma MarshalRaw_Marshal v : wf maxNestingDepth v -> MarshalRaw (Marshal v) = Some (Marshal v).
Proof.
  intros Hv. unfold MarshalRaw. destruct (Marshal_head _ _ Hv) as (c & x & E & _).
  rewrite bool_decide_eq_false_2 by (by rewrite E). rewrite decodeOne_Marshal by done. f_equal.
  pose proof (copied_Marshal_fuel _ _ v Hv (le_n _) []) as H. rewrite !app_nil_r in H. exact H.
Qed.

Lemma canonical_wf b c : canonical b = Some c -> exists v, wf maxNestingDepth v /\ c = Marshal v.
Proof.
  unfold canonical. destruct (decodeOne b) as [v|] eqn:E; [|done]. intros [= <-].
  exists v. split; [by eapply decodeOne_wf|done].
Qed.

Lemma MarshalRaw_canonical c : canonical c = Some c -> MarshalRaw c = Some c.
Proof. intros H. destruct (canonical_wf _ _ H) as (v & Hv & ->). by apply MarshalRaw_Marshal. Qed.

(** ** Fields are read back *)

Lemma ascii_utf8 b : forallb (fun c => (code c <? 128)%N) b = true -> valid_utf8 b.
Proof.
  induction b as [|c b IH]; [intros _; by exists []|]. cbn [forallb]. intros [Hc Hb]%andb_true_iff.
  destruct (IH Hb) as (us & Hus & ->). exists (code c :: us). split.
  - constructor; [unfold scalar; lia|exact Hus].
  - change (encode (code c :: us)) with (encode_rune (code c) ++ encode us).
    unfold encode_rune. rewrite Hc. cbn [app]. f_equal.
    symmetry. apply ascii_N_embedding.
Qed.

Definition utf8 (s : string) : Prop := valid_utf8 (bytes_of s).

Lemma bytes_of_eq s t : bytes_of s = bytes_of t -> s = t.
Proof. intros H. rewrite <- (string_of_bytes_of s), <- (string_of_bytes_of t). by f_equal. Qed.

Lemma quoteString_app_inj s t x y :
  utf8 s -> utf8 t -> quoteString s ++ x = quoteString t ++ y -> s = t /\ x = y.
Proof.
  unfold quoteString, quote. cbn [app]. rewrite <- !app_assoc. cbn [app]. intros Hs Ht H.
  apply (f_equal tail) in H. cbn [tail] in H.
  destruct (unquote_quoted _ x Hs) as (us & Es & Eu). destruct (unquote_quoted _ y Ht) as (ut & Et & Eu').
  rewrite H, Eu' in Eu. injection Eu as -> ->. split; [|done]. apply bytes_of_eq. by rewrite Es, Et.
Qed.

Lemma field_app_inj n m v w x y :
  utf8 n -> utf8 m -> field n v ++ x = field m w ++ y -> n = m /\ v ++ x = w ++ y.
Proof.
  intros Hn Hm H. unfold field in H. rewrite <- !app_assoc in H. cbn [app] in H.
  apply quoteString_app_inj in H as [-> H]; [|done..]. split; [done|]. by injection H.
Qed.

(** Two values followed by what may follow a value. *)
Lemma Marshal_app_inj v w x y :
  wf maxNestingDepth v -> wf maxNestingDepth w -> delimited x -> delimited y ->
  Marshal v ++ x = Marshal w ++ y -> v = w /\ x = y.
Proof.
  intros Hv Hw Hx Hy H. apply (f_equal Decode) in H. rewrite !Decode_Marshal in H by done.
  by injection H.
Qed.

Lemma MarshalStrings_app_inj l k x y :
  Forall utf8 l -> Forall utf8 k -> delimited x -> delimited y ->
  MarshalStrings l ++ x = MarshalStrings k ++ y -> l = k /\ x = y.
Proof.
  assert (Hwf : forall l, Forall utf8 l -> wf maxNestingDepth (JArray (map (fun s => JString (bytes_of s)) l))).
  { clear. intros l Hl. constructor; [done|]. apply Forall_forall. intros v Hv%list_elem_of_In.
    apply in_map_iff in Hv as (s & <- & Hs). constructor.
    apply (proj1 (Forall_forall _ _) Hl). by apply list_elem_of_In. }
  intros Hl Hk Hx Hy H. apply Marshal_app_inj in H as [H ->]; [|by auto..]. split; [|done].
  injection H as H. clear -H. revert k H. induction l as [|s l IH]; intros [|t k]; try done.
  cbn. intros [= Hs H]. f_equal; [by apply bytes_of_eq|by apply IH].
Qed.

(** The members of an object, one by one. *)
Lemma object_cons f g l : object (f :: g :: l) = ascii_of_N 123 :: f ++ ascii_of_N 44 :: separated (g :: l) ++ [ascii_of_N 125].
Proof. unfold object. rewrite separated_cons. by rewrite <- app_assoc. Qed.
