(* ===== verification/GoTimeFormat.v ===== *)
(** * Go's calendar and the RFC 3339 text of a time

    [t.Format(time.RFC3339Nano)] and [Time.MarshalJSON] in a zone that is
    [offset] seconds east of UTC. The text of a UTC time determines its
    instant. *)

From Stdlib Require Import Ascii String.
From S2P Require Import Prelude GoTime GoString GoCrypto GoJson.

#[local] Ltac Zify.zify_post_hook ::= Z.to_euclidean_division_equations.

(** ** The calendar *)

Definition leap (year : Z) : bool :=
  (year mod 4 =? 0) && (negb (year mod 100 =? 0) || (year mod 400 =? 0)).

(** The days of a year before each month, in a common and in a leap year. *)
Definition common_months : list Z := [0; 31; 59; 90; 120; 151; 181; 212; 243; 273; 304; 334].
Definition leap_months : list Z := [0; 31; 60; 91; 121; 152; 182; 213; 244; 274; 305; 335].

Definition months (leap : bool) : list Z := if leap then leap_months else common_months.

Definition days_before (months : list Z) (month : Z) : Z := nth (Z.to_nat (month - 1)) months 0.

(** Days since 1 January of year 1. *)
Definition days_of_civil (year month day : Z) : Z :=
  let y := year - 1 in
  365 * y + y / 4 - y / 100 + y / 400 + days_before (months (leap year)) month + (day - 1).

(** The last month from [month] down that starts by the day [yday]. *)
Fixpoint find_month (fuel : nat) (months : list Z) (yday month : Z) : Z :=
  match fuel with
  | O => month
  | S fuel => if days_before months month <=? yday then month else find_month fuel months yday (month - 1)
  end.

(** Year, month and day of a day counted from 1 January of year 1. *)
Definition civil_of_days (days : Z) : Z * Z * Z :=
  let cycle := days / 146097 in
  let d := days mod 146097 in
  let n100 := Z.min (d / 36524) 3 in
  let d := d - 36524 * n100 in
  let n4 := d / 1461 in
  let d := d - 1461 * n4 in
  let n1 := Z.min (d / 365) 3 in
  let yday := d - 365 * n1 in
  let year := 400 * cycle + 100 * n100 + 4 * n4 + n1 + 1 in
  let month := find_month 11 (months (leap year)) yday 12 in
  (year, month, yday - days_before (months (leap year)) month + 1).

(** [daysIn] *)
Definition month_days (leap : bool) (month : Z) : Z :=
  if month =? 12 then 31 else days_before (months leap) (month + 1) - days_before (months leap) month.

(** A day of a year has a month and a day of it. *)
Definition month_check (leap : bool) (yday : Z) : bool :=
  let month := find_month 11 (months leap) yday 12 in
  let day := yday - days_before (months leap) month + 1 in
  (1 <=? month) && (month <=? 12) && (1 <=? day) && (day <=? month_days leap month) && (day <=? 31).

Lemma month_checks :
  forallb (fun n => month_check (n <? 366)%nat (Z.of_nat (n mod 366))) (seq 0 731) = true.
Proof. vm_compute. reflexivity. Qed.

Lemma month_checked (lp : bool) yday : 0 <= yday < (if lp then 366 else 365) -> month_check lp yday = true.
Proof.
  intros H. pose proof (proj1 (forallb_forall _ _) month_checks) as Hall.
  pose proof (Hall (if lp then Z.to_nat yday else (366 + Z.to_nat yday)%nat)) as Hn. clear Hall.
  destruct lp.
  - rewrite (proj2 (Nat.ltb_lt _ _)), Nat.mod_small, Z2Nat.id in Hn by lia.
    apply Hn, in_seq. lia.
  - rewrite (proj2 (Nat.ltb_ge _ _)) in Hn by lia.
    replace (366 + Z.to_nat yday)%nat with (Z.to_nat yday + 1 * 366)%nat in Hn by lia.
    rewrite Nat.Div0.mod_add, Nat.mod_small, Z2Nat.id in Hn by lia. apply Hn, in_seq. lia.
Qed.

Lemma leap_spec c n100 n4 n1 :
  0 <= n100 <= 3 -> 0 <= n4 <= 24 -> 0 <= n1 <= 3 ->
  leap (400 * c + 100 * n100 + 4 * n4 + n1 + 1) = (n1 =? 3) && (negb (n4 =? 24) || (n100 =? 3)).
Proof.
  intros H1 H2 H3. unfold leap. set (y := 400 * c + 100 * n100 + 4 * n4 + n1 + 1).
  assert ((y mod 4 =? 0) = (n1 =? 3)) as -> by (subst y; lia).
  destruct (n1 =? 3) eqn:E1; [cbn [andb]|done].
  assert ((y mod 100 =? 0) = (n4 =? 24)) as -> by (subst y; lia).
  destruct (n4 =? 24) eqn:E2; [cbn [orb negb]|done]. subst y. lia.
Qed.

(** A day has one date, which names it. *)
Lemma civil_of_days_date days year month day :
  civil_of_days days = (year, month, day) ->
  days_of_civil year month day = days /\ 1 <= month <= 12 /\ 1 <= day <= 31 /\ day <= month_days (leap year) month.
Proof.
  unfold civil_of_days. set (c := days / 146097). set (d := days mod 146097).
  set (n100 := Z.min (d / 36524) 3). set (d1 := d - 36524 * n100).
  set (n4 := d1 / 1461). set (d2 := d1 - 1461 * n4). set (n1 := Z.min (d2 / 365) 3).
  set (yday := d2 - 365 * n1). set (y := 400 * c + 100 * n100 + 4 * n4 + n1 + 1).
  set (month_ := find_month 11 (months (leap y)) yday 12).
  assert (Hd : 0 <= d < 146097 /\ days = 146097 * c + d) by (subst c d; lia).
  assert (H100 : 0 <= n100 <= 3 /\ 0 <= d1 <= 36524 /\ (n100 < 3 -> d1 < 36524)) by (subst d1 n100; lia).
  assert (H4 : 0 <= n4 <= 24 /\ 0 <= d2 <= 1460) by (subst d2 n4; lia).
  assert (H1 : 0 <= n1 <= 3 /\ 0 <= yday <= 365) by (subst yday n1; lia).
  assert (Hy : 0 <= yday < (if leap y then 366 else 365)).
  { subst y. rewrite leap_spec by lia. subst yday d2 d1.
    destruct (n1 =? 3) eqn:E1, (n4 =? 24) eqn:E2, (n100 =? 3) eqn:E3; cbn [andb orb negb]; lia. }
  pose proof (month_checked _ _ Hy) as Hm. unfold month_check in Hm. fold month_ in Hm.
  clearbody month_. intros [= <- <- <-].
  split; [|lia]. unfold days_of_civil.
  assert ((y - 1) / 4 = 100 * c + 25 * n100 + n4) as -> by (subst y; lia).
  assert ((y - 1) / 100 = 4 * c + n100) as -> by (subst y; lia).
  assert ((y - 1) / 400 = c) as -> by (subst y; lia).
  subst y yday d2 d1. lia.
Qed.

Lemma civil_of_days_spec days year month day :
  civil_of_days days = (year, month, day) ->
  days_of_civil year month day = days /\ 1 <= month <= 12 /\ 1 <= day <= 31.
Proof. intros (? & ? & ? & _)%civil_of_days_date. done. Qed.

(** ** Decimal digits *)

Definition digit (n : Z) : ascii := ascii_of_N (48 + Z.to_N n).

(** The [w] lowest digits of [n]. *)
Fixpoint pad_digits (w : nat) (n : Z) : bytes :=
  match w with
  | O => []
  | S w => pad_digits w (n / 10) ++ [digit (n mod 10)]
  end.

Definition digits_value (b : bytes) : Z :=
  fold_left (fun acc c => acc * 10 + (Z.of_N (N_of_ascii c) - 48)) b 0.

(** The digits that [n] needs, at least [w]. *)
Fixpoint width (fuel w : nat) (n : Z) : nat :=
  match fuel with
  | O => w
  | S fuel => if n <? 10 ^ Z.of_nat w then w else width fuel (S w) n
  end.

(** [appendInt(b, n, w)] of [time], and of [strconv.Itoa] with [w = 1]. *)
Definition decimal (w : nat) (n : Z) : bytes :=
  let digits n := pad_digits (width (Z.to_nat (Z.log2 n)) w n) n in
  if n <? 0 then ascii_of_N 45 :: digits (- n) else digits n.

Lemma pad_digits_length w n : length (pad_digits w n) = w.
Proof. revert n. induction w as [|w IH]; intros n; [done|]. cbn. rewrite length_app, IH. cbn. lia. Qed.

Lemma digits_value_app b c : digits_value (b ++ [c]) = digits_value b * 10 + (Z.of_N (N_of_ascii c) - 48).
Proof. unfold digits_value. by rewrite fold_left_app. Qed.

Lemma digit_code n : 0 <= n < 10 -> N_of_ascii (digit n) = (48 + Z.to_N n)%N.
Proof. intros H. unfold digit. apply N_ascii_embedding. lia. Qed.

Lemma pad_digits_value w n : 0 <= n -> digits_value (pad_digits w n) = n mod 10 ^ Z.of_nat w.
Proof.
  revert n. induction w as [|w IH]; intros n Hn; [cbn; by rewrite Z.mod_1_r|].
  cbn [pad_digits]. rewrite digits_value_app, IH, digit_code by lia.
  rewrite Nat2Z.inj_succ, Z.pow_succ_r, Z.rem_mul_r by lia.
  rewrite N2Z.inj_add, Z2N.id by lia. lia.
Qed.

Lemma pad_digits_digits w n : 0 <= n -> Forall (fun c => is_digit c = true) (pad_digits w n).
Proof.
  revert n. induction w as [|w IH]; intros n Hn; [constructor|]. cbn [pad_digits].
  apply Forall_app. split; [apply IH; lia|]. constructor; [|constructor].
  unfold is_digit, byte_in. rewrite digit_code by lia. lia.
Qed.

Lemma pad_digits_inj w n m :
  0 <= n < 10 ^ Z.of_nat w -> 0 <= m < 10 ^ Z.of_nat w -> pad_digits w n = pad_digits w m -> n = m.
Proof.
  intros Hn Hm H. apply (f_equal digits_value) in H. rewrite !pad_digits_value in H by lia.
  by rewrite !Z.mod_small in H.
Qed.

Lemma width_enough fuel w n : 0 <= n -> n < 10 ^ (Z.of_nat w + Z.of_nat fuel) -> n < 10 ^ Z.of_nat (width fuel w n).
Proof.
  revert w. induction fuel as [|fuel IH]; intros w Hn H.
  - cbn [width]. by rewrite Z.add_0_r in H.
  - cbn [width]. destruct (n <? 10 ^ Z.of_nat w) eqn:E; [lia|]. apply IH; [done|].
    replace (Z.of_nat (S w) + Z.of_nat fuel) with (Z.of_nat w + Z.of_nat (S fuel)) by lia. done.
Qed.

Lemma decimal_width w n :
  (0 < w)%nat -> 0 <= n -> n < 10 ^ Z.of_nat (width (Z.to_nat (Z.log2 n)) w n).
Proof.
  intros Hw Hn. apply width_enough; [done|].
  destruct (decide (n = 0)) as [->|]; [apply Z.pow_pos_nonneg; lia|].
  destruct (Z.log2_spec n) as [_ H]; [lia|].
  assert (0 <= Z.log2 n) by apply Z.log2_nonneg.
  apply Z.lt_le_trans with (2 ^ (Z.log2 n + 1)).
  { by replace (Z.log2 n + 1) with (Z.succ (Z.log2 n)) by lia. }
  apply Z.le_trans with (10 ^ (Z.log2 n + 1)); [apply Z.pow_le_mono_l; lia|].
  apply Z.pow_le_mono_r; lia.
Qed.

Lemma span_digits_app ds c r :
  Forall (fun c => is_digit c = true) ds -> is_digit c = false ->
  json.span_digits (ds ++ c :: r) = (ds, c :: r).
Proof. intros H Hc. induction H as [|d ds Hd _ IH]; cbn; [by rewrite Hc|]. by rewrite Hd, IH. Qed.

Lemma width_least fuel w n : (w <= width fuel w n)%nat.
Proof.
  revert w. induction fuel as [|fuel IH]; intros w; cbn; [lia|].
  destruct (_ <? _); [lia|]. specialize (IH (S w)). lia.
Qed.

(** A decimal number up to the next byte that is no digit. *)
Lemma decimal_app_inj w n m c r c' r' :
  (0 < w)%nat -> is_digit c = false -> is_digit c' = false ->
  decimal w n ++ c :: r = decimal w m ++ c' :: r' -> n = m /\ c :: r = c' :: r'.
Proof.
  intros Hw Hc Hc' H. unfold decimal in H.
  assert (Habs : forall n m, 0 <= n -> 0 <= m ->
    pad_digits (width (Z.to_nat (Z.log2 n)) w n) n ++ c :: r =
    pad_digits (width (Z.to_nat (Z.log2 m)) w m) m ++ c' :: r' -> n = m /\ c :: r = c' :: r').
  { clear H n m. intros n m Hn Hm H. apply (f_equal json.span_digits) in H.
    rewrite !span_digits_app in H by (done || by apply pad_digits_digits).
    apply pair_equal_spec in H as [H ->]. split; [|done].
    apply (f_equal digits_value) in H. rewrite !pad_digits_value in H by done.
    by rewrite !Z.mod_small in H by (split; [done|by apply decimal_width]). }
  assert (Hhead : forall n x y, 0 <= n ->
    pad_digits (width (Z.to_nat (Z.log2 n)) w n) n ++ x = ascii_of_N 45 :: y -> False).
  { clear -Hw. intros n x y Hn H. set (k := width _ w n) in H.
    assert (Hk : (w <= k)%nat) by apply width_least.
    pose proof (pad_digits_digits k n Hn) as Hd. pose proof (pad_digits_length k n) as Hl.
    destruct (pad_digits k n) as [|d ds]; [cbn in Hl; lia|]. injection H as -> _.
    by apply Forall_cons_1 in Hd as [Hd _]. }
  destruct (n <? 0) eqn:En, (m <? 0) eqn:Em; cbn [app] in H.
  - apply (f_equal tail) in H. cbn [tail] in H. apply Habs in H; [|lia..]. destruct H. split; [lia|done].
  - by apply eq_sym, Hhead in H; [|lia].
  - by apply Hhead in H; [|lia].
  - apply Habs in H; [done|lia..].
Qed.

(** ** RFC 3339 *)

Definition byte_of (n : N) : ascii := ascii_of_N n.

(** The fraction without its trailing zeros. *)
Fixpoint drop_zeros (b : bytes) : bytes :=
  match b with
  | c :: b' => if byte_is 48 c then drop_zeros b' else b
  | [] => []
  end.

Definition fraction (nanos : Z) : bytes :=
  if nanos =? 0 then [] else byte_of 46 :: rev (drop_zeros (rev (pad_digits 9 nanos))).

(** The zone, as [Z07:00] writes it. *)
Definition zone_text (offset : Z) : bytes :=
  if offset =? 0 then [byte_of 90] else
  let minutes := Z.abs offset / 60 in
  byte_of (if offset <? 0 then 45 else 43) ::
  pad_digits 2 (minutes / 60) ++ byte_of 58 :: pad_digits 2 (minutes mod 60).

(** [t.Format(time.RFC3339Nano)] *)
Definition RFC3339Nano (offset : Z) (t : Time) : bytes :=
  let local := instant t + offset * Second in
  let seconds := local / Second in
  let clock := seconds mod 86400 in
  let '(year, month, day) := civil_of_days (seconds / 86400) in
  decimal 4 year ++ byte_of 45 :: pad_digits 2 month ++ byte_of 45 :: pad_digits 2 day ++
  byte_of 84 :: pad_digits 2 (clock / 3600) ++ byte_of 58 :: pad_digits 2 (clock / 60 mod 60) ++
  byte_of 58 :: pad_digits 2 (clock mod 60) ++ fraction (local mod Second) ++ zone_text offset.

(** The year in which a time falls. *)
Definition Year (offset : Z) (t : Time) : Z :=
  let '(year, _, _) := civil_of_days ((instant t + offset * Second) / Second / 86400) in year.

(** [Time.MarshalJSON] fails for a year of more than four digits, and for a
    zone of a day or more. *)
Definition MarshalTime (offset : Z) (t : Time) : option bytes :=
  if (Year offset t <? 0) || (9999 <? Year offset t) || (86400 <=? Z.abs offset) then None
  else Some (byte_of 34 :: RFC3339Nano offset t ++ [byte_of 34]).

Example RFC3339Nano_samples :
  RFC3339Nano 0 (MkTime ((unixEpochSeconds + 1709210096) * Second + 120300000) UTCLoc) =
    bytes_of "2024-02-29T12:34:56.1203Z" /\
  RFC3339Nano (-12600) (MkTime ((unixEpochSeconds + 1709210096) * Second) UTCLoc) =
    bytes_of "2024-02-29T09:04:56-03:30" /\
  RFC3339Nano 0 ZeroTime = bytes_of "0001-01-01T00:00:00Z" /\
  RFC3339Nano 0 (MkTime (-1) UTCLoc) = bytes_of "0000-12-31T23:59:59.999999999Z".
Proof. split_and!; vm_compute; reflexivity. Qed.

(** ** The text of a UTC time names its instant *)

Lemma byte_is_eq n c : (n < 256)%N -> byte_is n c = true -> c = ascii_of_N n.
Proof. unfold byte_is. intros Hn H. rewrite <- (ascii_N_embedding c). f_equal. lia. Qed.

Lemma drop_zeros_spec b : b = replicate (length b - length (drop_zeros b)) (digit 0) ++ drop_zeros b.
Proof.
  induction b as [|c b IH]; [done|]. cbn [drop_zeros]. destruct (byte_is 48 c) eqn:E.
  - apply byte_is_eq in E as ->; [|lia].
    assert (length (drop_zeros b) <= length b)%nat.
    { rewrite IH at 2. rewrite length_app. lia. }
    cbn [length]. rewrite Nat.sub_succ_l by done. cbn [replicate app]. f_equal. exact IH.
  - by rewrite Nat.sub_diag.
Qed.

Lemma drop_zeros_inj a b : length a = length b -> drop_zeros a = drop_zeros b -> a = b.
Proof. intros Hl H. rewrite (drop_zeros_spec a), (drop_zeros_spec b). by rewrite Hl, H. Qed.

Lemma drop_zeros_Forall (P : ascii -> Prop) b : Forall P b -> Forall P (drop_zeros b).
Proof. intros H. rewrite (drop_zeros_spec b) in H. by apply Forall_app in H as [_ H]. Qed.

Lemma fraction_app_inj n m r r' :
  0 <= n < Second -> 0 <= m < Second ->
  fraction n ++ byte_of 90 :: r = fraction m ++ byte_of 90 :: r' -> n = m /\ r = r'.
Proof.
  unfold fraction. intros Hn Hm.
  destruct (n =? 0) eqn:En, (m =? 0) eqn:Em; cbn [app]; intros H; try discriminate H.
  - injection H as ->. split; [lia|done].
  - apply (f_equal tail) in H. cbn [tail] in H.
    assert (Hd : forall k, 0 <= k -> Forall (fun c => is_digit c = true) (rev (drop_zeros (rev (pad_digits 9 k))))).
    { intros k Hk. apply Forall_rev, drop_zeros_Forall, Forall_rev. by apply pad_digits_digits. }
    apply (f_equal json.span_digits) in H. rewrite !span_digits_app in H by (reflexivity || apply Hd; lia).
    apply pair_equal_spec in H as [H Hr]. apply (f_equal tail) in Hr. cbn [tail] in Hr.
    split; [|exact Hr]. apply rev_inj, drop_zeros_inj, rev_inj, pad_digits_inj in H; [done|exact Hn|exact Hm|].
    by rewrite !length_rev, !pad_digits_length.
Qed.

Definition two_digits (n : Z) : Prop := 0 <= n < 100.

(** One field of two digits and the byte after it. *)
Lemma field_inj n m c (x y : bytes) :
  two_digits n -> two_digits m -> pad_digits 2 n ++ c :: x = pad_digits 2 m ++ c :: y -> n = m /\ x = y.
Proof.
  intros Hn Hm H. apply app_eq_length in H as [H Hx]; [|by rewrite !pad_digits_length].
  apply pad_digits_inj in H; [|done..]. split; [done|]. by injection Hx.
Qed.

Lemma last_field_inj n m (x y : bytes) :
  two_digits n -> two_digits m -> pad_digits 2 n ++ x = pad_digits 2 m ++ y -> n = m /\ x = y.
Proof.
  intros Hn Hm H. apply app_eq_length in H as [H Hx]; [|by rewrite !pad_digits_length].
  by apply pad_digits_inj in H.
Qed.

Lemma clock_fields s :
  let c := s mod 86400 in two_digits (c / 3600) /\ two_digits (c / 60 mod 60) /\ two_digits (c mod 60).
Proof. cbv zeta. unfold two_digits. lia. Qed.

Lemma clock_inj s1 s2 :
  let c1 := s1 mod 86400 in let c2 := s2 mod 86400 in
  s1 / 86400 = s2 / 86400 -> c1 / 3600 = c2 / 3600 -> c1 / 60 mod 60 = c2 / 60 mod 60 ->
  c1 mod 60 = c2 mod 60 -> s1 = s2.
Proof.
  cbv zeta. set (c1 := s1 mod 86400). set (c2 := s2 mod 86400). intros H H1 H2 H3.
  assert (c1 = c2) as Hc by (clear H; clearbody c1 c2; lia).
  subst c1 c2. lia.
Qed.

Lemma instant_inj i j :
  i / Second = j / Second -> i mod Second = j mod Second -> i = j.
Proof. unfold Second. lia. Qed.

Lemma RFC3339Nano_app_inj t u r r' :
  RFC3339Nano 0 t ++ r = RFC3339Nano 0 u ++ r' -> instant t = instant u /\ r = r'.
Proof.
  unfold RFC3339Nano. rewrite !Z.mul_0_l, !Z.add_0_r. cbv zeta.
  set (s1 := instant t / Second). set (s2 := instant u / Second).
  pose proof (clock_fields s1) as (Ha1 & Hb1 & Hc1). pose proof (clock_fields s2) as (Ha2 & Hb2 & Hc2).
  destruct (civil_of_days (s1 / 86400)) as [[y1 m1] d1] eqn:E1.
  destruct (civil_of_days (s2 / 86400)) as [[y2 m2] d2] eqn:E2.
  apply civil_of_days_spec in E1 as (E1 & Hm1 & Hd1), E2 as (E2 & Hm2 & Hd2).
  repeat (rewrite <- app_assoc; cbn [app]). intros H.
  apply decimal_app_inj in H as [Ey H]; [|lia|reflexivity..].
  apply (f_equal tail) in H. cbn [tail] in H.
  apply field_inj in H as [Em H]; [|unfold two_digits; clear -Hm1 Hm2; lia..].
  apply field_inj in H as [Ed H]; [|unfold two_digits; clear -Hd1 Hd2; lia..].
  apply field_inj in H as [Eh H]; [|done..]. apply field_inj in H as [Emin H]; [|done..].
  apply last_field_inj in H as [Es H]; [|done..].
  change (zone_text 0) with [byte_of 90] in H. cbn [app] in H.
  apply fraction_app_inj in H as [En Hr]; [|apply Z.mod_pos_bound; reflexivity..].
  split; [|exact Hr]. apply instant_inj; [|exact En].
  apply (clock_inj s1 s2); [|done..]. rewrite <- E1, <- E2. by rewrite Ey, Em, Ed.
Qed.

Lemma RFC3339Nano_inj t u : RFC3339Nano 0 t = RFC3339Nano 0 u -> instant t = instant u.
Proof.
  intros H. apply (RFC3339Nano_app_inj t u [] []). by rewrite H.
Qed.

Lemma MarshalTime_app_inj t u b c x y :
  MarshalTime 0 t = Some b -> MarshalTime 0 u = Some c -> b ++ x = c ++ y -> instant t = instant u /\ x = y.
Proof.
  unfold MarshalTime. destruct (_ || _ || _); [done|]. intros [= <-]. destruct (_ || _ || _); [done|].
  intros [= <-] H. cbn [app] in H. apply (f_equal tail) in H. cbn [tail] in H.
  rewrite <- !app_assoc in H. apply RFC3339Nano_app_inj in H as [H1 H2].
  split; [done|]. by injection H2.
Qed.
