(* ===== verification/GoFloat.v ===== *)
(** * Go's [float64]

    IEEE 754 binary64 as the Standard Library specifies it. Comparisons with a
    NaN are false. *)

From Stdlib Require Import Floats.SpecFloat.
From S2P Require Import Prelude.

Definition float64 := spec_float.

#[export] Instance float64_eq_dec : EqDecision float64.
Proof. solve_decision. Defined.

(** The precision and the largest exponent of binary64. *)
Definition float_prec : Z := 53.
Definition float_emax : Z := 1024.

Definition f_zero : float64 := S754_zero false.
Definition f_one : float64 := S754_finite false 4503599627370496 (-52).
Definition f_nan : float64 := S754_nan.

(** [x < y], [x > y] and [x == y] *)
Definition f_lt (x y : float64) : bool := SFltb x y.
Definition f_gt (x y : float64) : bool := SFltb y x.
Definition f_eq (x y : float64) : bool := SFeqb x y.

(** What [json.Marshal] encodes: neither a NaN nor an infinity. *)
Definition f_finite (x : float64) : bool :=
  match x with
  | S754_zero _ | S754_finite _ _ _ => true
  | S754_infinity _ | S754_nan => false
  end.

(** The float nearest to an integer. *)
Definition f_of_Z (z : Z) : float64 := binary_normalize float_prec float_emax z 0 false.

(** The quotient of two integers, rounded to nearest, for examples. *)
Definition f_ratio (n d : Z) : float64 := SFdiv float_prec float_emax (f_of_Z n) (f_of_Z d).

(** ** Arithmetic *)

Definition f_add (x y : float64) : float64 := SFadd float_prec float_emax x y.
Definition f_sub (x y : float64) : float64 := SFsub float_prec float_emax x y.
Definition f_mul (x y : float64) : float64 := SFmul float_prec float_emax x y.
Definition f_div (x y : float64) : float64 := SFdiv float_prec float_emax x y.
Definition f_sqrt (x : float64) : float64 := SFsqrt float_prec float_emax x.

(** [x <= y] and [x >= y] *)
Definition f_le (x y : float64) : bool := SFleb x y.
Definition f_ge (x y : float64) : bool := SFleb y x.

(** [math.IsNaN], [math.IsInf] of either sign, [math.Abs] *)
Definition f_is_nan (x : float64) : bool := match x with S754_nan => true | _ => false end.
Definition f_is_inf (x : float64) : bool := match x with S754_infinity _ => true | _ => false end.
Definition f_abs (x : float64) : float64 := SFabs x.

(** [math.Max] *)
Definition f_max (x y : float64) : float64 :=
  match x, y with
  | S754_infinity false, _ | _, S754_infinity false => S754_infinity false
  | S754_nan, _ | _, S754_nan => S754_nan
  | S754_zero sx, S754_zero sy => S754_zero (sx && sy)
  | _, _ => if f_gt x y then x else y
  end.

(** [math.Hypot] *)
Definition f_hypot (p q : float64) : float64 :=
  let p := f_abs p in
  let q := f_abs q in
  if f_is_inf p || f_is_inf q then S754_infinity false else
  if f_is_nan p || f_is_nan q then S754_nan else
  let '(p, q) := if f_lt p q then (q, p) else (p, q) in
  if f_eq p f_zero then f_zero else
  let q := f_div q p in
  f_mul p (f_sqrt (f_add f_one (f_mul q q))).

(** [math.MaxFloat64] *)
Definition f_max_value : float64 := S754_finite false 9007199254740991 971.

Example f_hypot_sample :
  f_hypot (f_of_Z 3) (f_of_Z (-4)) = f_of_Z 5 /\ f_hypot f_zero f_zero = f_zero /\
  f_hypot f_max_value f_max_value = S754_infinity false.
Proof. split_and!; vm_compute; reflexivity. Qed.

(** ** Order

    Numbers other than a NaN are totally ordered. *)

Lemma SFcompare_swap x y : SFcompare y x = option_map CompOpp (SFcompare x y).
Proof.
  destruct x as [sx|sx| |sx mx ex], y as [sy|sy| |sy my ey]; try destruct sx; try destruct sy; try done; cbn;
    rewrite ?(Z.compare_antisym ex ey), ?(Pos.compare_antisym mx my);
    destruct (Z.compare ex ey); cbn; try done;
    unfold Pos.compare; rewrite ?(Pos.compare_cont_antisym mx my); cbn; destruct (Pos.compare_cont Eq mx my); done.
Qed.

Lemma f_le_spec x y : f_is_nan x = false -> f_is_nan y = false -> f_le x y = negb (f_gt x y).
Proof.
  intros Hx Hy. unfold f_le, f_gt, SFleb, SFltb. rewrite (SFcompare_swap x y).
  assert (exists c, SFcompare x y = Some c) as [c ->]; [|by destruct c].
  destruct x as [sx|sx| |sx mx ex], y as [sy|sy| |sy my ey]; try done; cbn;
    try (by eexists); destruct sx, sy; try (by eexists); destruct (Z.compare ex ey); by eexists.
Qed.

Lemma f_eq_refl x : f_is_nan x = false -> f_eq x x = true.
Proof.
  intros Hx. unfold f_eq, SFeqb. pose proof (SFcompare_swap x x) as H.
  destruct (SFcompare x x) as [[]|] eqn:E; try done. by destruct x as [|[]| |[]].
Qed.
