(* ===== verification/GoParse.v ===== *)
(** * Numbers, durations and separators in text

    [strings.Split], [strings.ReplaceAll], [strconv.Atoi], [strconv.ParseUint] and
    [big.Rat.SetString], as far as the rule operators use them;
    [time.ParseDuration], and [strconv.ParseFloat] of a JSON number. *)

From Stdlib Require Import Ascii String QArith Floats.SpecFloat.
From S2P Require Import Prelude GoTime GoString GoJson GoFloat.
Import json.
Open Scope Z_scope.

(** ** Separators *)

(** [strings.Split] at every byte [n]. *)
Fixpoint split_byte (n : N) (b : bytes) : list bytes :=
  match b with
  | [] => [[]]
  | c :: b =>
      if byte_is n c then [] :: split_byte n b else
      match split_byte n b with
      | [] => [[c]]
      | part :: parts => (c :: part) :: parts
      end
  end.

(** [strings.TrimPrefix] of one byte. *)
Definition trim_prefix (n : N) (b : bytes) : bytes :=
  match b with
  | c :: b' => if byte_is n c then b' else b
  | [] => []
  end.

(** [strings.ReplaceAll] of the two bytes [x y] by the byte [r]. *)
Fixpoint replace_pair (x y r : N) (b : bytes) : bytes :=
  match b with
  | [] => []
  | c :: b1 =>
      match b1 with
      | [] => [c]
      | d :: b2 =>
          if byte_is x c && byte_is y d then ascii_of_N r :: replace_pair x y r b2
          else c :: replace_pair x y r b1
      end
  end.

(** ** Integers *)

Definition digits_value (b : bytes) : Z :=
  fold_left (fun n c => n * 10 + (Z.of_N (code c) - 48)) b 0.

(** [strconv.ParseInt(s, 10, 64)] and [strconv.Atoi] *)
Definition Atoi (b : bytes) : option Z :=
  let '(negative, ds) :=
    match b with
    | c :: b' => if byte_is 45 c then (true, b') else if byte_is 43 c then (false, b') else (false, b)
    | [] => (false, [])
    end in
  if (ds == []) || negb (forallb is_digit ds) then None else
  let v := if (negative : bool) then - digits_value ds else digits_value ds in
  if (i64_min <=? v) && (v <=? i64_max) then Some v else None.

(** [strconv.ParseUint(s, 10, 64)] *)
Definition ParseUint (b : bytes) : option Z :=
  if (b == []) || negb (forallb is_digit b) then None else
  if digits_value b <? u64_modulus then Some (digits_value b) else None.

(** ** Rationals *)

(** [*big.Rat], by its value. *)
Abbreviation Rat := Q.

(** [m * 10^n] *)
Definition scaled (m n : Z) : Rat :=
  if 0 <=? n then (m * 10 ^ n # 1)%Q else (m # Z.to_pos (10 ^ (- n)))%Q.

(** [big.Rat.SetString] of a JSON number. The exponent is an int64, and a
    number whose exponent is too large is refused unless it is zero. *)
Definition SetString (b : bytes) : option Rat :=
  let '(sign, b) := parse_sign b in
  match parse_integer b with
  | None => None
  | Some (int, b) =>
      match parse_fraction b with
      | None => None
      | Some (fraction, b) =>
          match parse_exponent b with
          | None => None
          | Some (exponent, b) =>
              if b != [] then None else
              match (match exponent with [] => Some 0 | _ :: e => Atoi e end) with
              | None => None
              | Some e =>
                  let m := digits_value (int ++ tail fraction) in
                  if m =? 0 then Some (0 # 1)%Q else
                  let n := e - Z.of_nat (length (tail fraction)) in
                  if 1000000 <? Z.abs n then None else
                  Some (scaled (if sign == [] then m else - m) n)
              end
          end
      end
  end.

Definition Cmp (x y : Rat) : comparison := Qcompare x y.

Definition Sign (x : Rat) : Z := Z.sgn (Qnum x).

Example SetString_samples :
  SetString (bytes_of "-12.50e1") = Some (-1250 # 10)%Q /\ SetString (bytes_of "0.0e999999") = Some (0 # 1)%Q /\
  SetString (bytes_of "1e1000001") = None /\ SetString (bytes_of "0e9223372036854775808") = None.
Proof. split_and!; vm_compute; reflexivity. Qed.

(** ** Floats *)

(** The exponent as [readFloat] accumulates it: it stops growing at 10000. *)
Definition float_exponent (b : bytes) : Z :=
  let '(negative, ds) :=
    match b with
    | c :: b' => if byte_is 45 c then (true, b') else if byte_is 43 c then (false, b') else (false, b)
    | [] => (false, [])
    end in
  let e := fold_left (fun e c => if e <? 10000 then e * 10 + (Z.of_N (code c) - 48) else e) ds 0 in
  if (negative : bool) then - e else e.

(** [m * 10^n] rounded to the nearest float, ties to even. *)
Definition float_scaled (negative : bool) (m : positive) (n : Z) : float64 :=
  if 0 <=? n then
    binary_normalize float_prec float_emax (if negative then Z.neg m * 10 ^ n else Z.pos m * 10 ^ n) 0 negative
  else
    let '(q, e, l) := SFdiv_core_binary float_prec float_emax (Z.pos m) 0 (10 ^ (- n)) 0 in
    binary_round_aux float_prec float_emax negative q e l.

(** [strconv.ParseFloat(s, 64)] of a JSON number; a number that is too large is
    an error. *)
Definition ParseFloat (b : bytes) : option float64 :=
  let '(sign, b) := parse_sign b in
  match parse_integer b with
  | None => None
  | Some (int, b) =>
      match parse_fraction b with
      | None => None
      | Some (fraction, b) =>
          match parse_exponent b with
          | None => None
          | Some (exponent, b) =>
              if b != [] then None else
              let negative := sign != [] in
              match digits_value (int ++ tail fraction) with
              | Zpos m =>
                  let n := float_exponent (tail exponent) - Z.of_nat (length (tail fraction)) in
                  let x := float_scaled negative m n in
                  if f_finite x then Some x else None
              | _ => Some (S754_zero negative)
              end
          end
      end
  end.

Example ParseFloat_samples :
  ParseFloat (bytes_of "0.1") = Some (f_ratio 1 10) /\ ParseFloat (bytes_of "-25e-1") = Some (f_ratio (-5) 2) /\
  ParseFloat (bytes_of "1e309") = None /\ ParseFloat (bytes_of "1E-400") = Some f_zero /\
  ParseFloat (bytes_of "123") = Some (f_of_Z 123).
Proof. split_and!; vm_compute; reflexivity. Qed.

(** ** Durations *)

Definition two63 : Z := 2 ^ 63.

(** [leadingInt] *)
Fixpoint leadingInt (x : Z) (b : bytes) : option (Z * bytes) :=
  match b with
  | c :: b' =>
      if is_digit c then
        if two63 / 10 <? x then None else
        let x := x * 10 + (Z.of_N (code c) - 48) in
        if two63 <? x then None else leadingInt x b'
      else Some (x, b)
  | [] => Some (x, [])
  end.

(** [leadingFraction]: digits that do not fit are skipped. *)
Fixpoint leadingFraction (x : Z) (scale : float64) (overflow : bool) (b : bytes) : Z * float64 * bytes :=
  match b with
  | c :: b' =>
      if is_digit c then
        if overflow then leadingFraction x scale true b' else
        if (two63 - 1) / 10 <? x then leadingFraction x scale true b' else
        let y := x * 10 + (Z.of_N (code c) - 48) in
        if two63 <? y then leadingFraction x scale true b' else
        leadingFraction y (SFmul float_prec float_emax scale (f_of_Z 10)) false b'
      else (x, scale, b)
  | [] => (x, scale, [])
  end.

(** The unit: everything up to the next digit or point. *)
Fixpoint span_unit (b : bytes) : bytes * bytes :=
  match b with
  | c :: b' =>
      if byte_is 46 c || is_digit c then ([], b) else
      let '(u, r) := span_unit b' in (c :: u, r)
  | [] => ([], [])
  end.

(** [unitMap]; the micro sign and the Greek letter are two bytes each. *)
Definition unitOf (u : bytes) : option Z :=
  if u == bytes_of "ns" then Some 1
  else if (u == bytes_of "us") || (u == [ascii_of_N 194; ascii_of_N 181; ascii_of_N 115]) ||
          (u == [ascii_of_N 206; ascii_of_N 188; ascii_of_N 115]) then Some 1000
  else if u == bytes_of "ms" then Some 1000000
  else if u == bytes_of "s" then Some Second
  else if u == bytes_of "m" then Some (60 * Second)
  else if u == bytes_of "h" then Some (3600 * Second)
  else None.

(** [uint64(x)] of a nonnegative float. *)
Definition f_trunc (x : float64) : Z :=
  match x with
  | S754_finite false m e => Z.shiftl (Z.pos m) e
  | _ => 0
  end.

(** The nanoseconds of one component [v.f unit]. *)
Definition component (v f : Z) (scale : float64) (unit : Z) : option Z :=
  if two63 / unit <? v then None else
  let v := v * unit in
  let v := if 0 <? f then
             v + f_trunc (SFmul float_prec float_emax (f_of_Z f) (SFdiv float_prec float_emax (f_of_Z unit) scale))
           else v in
  if two63 <? v then None else Some v.

(** The loop over the components; each takes at least one byte. *)
Fixpoint durationLoop (fuel : nat) (d : Z) (b : bytes) : option Z :=
  match fuel with
  | O => None
  | S fuel =>
      match b with
      | [] => Some d
      | c :: _ =>
          if negb (byte_is 46 c || is_digit c) then None else
          match leadingInt 0 b with
          | None => None
          | Some (v, b1) =>
              let pre := negb (length b1 =? length b)%nat in
              let '(f, scale, b2, post) :=
                match b1 with
                | p :: b1' =>
                    if byte_is 46 p then
                      let '(f, scale, b2) := leadingFraction 0 f_one false b1' in
                      (f, scale, b2, negb (length b2 =? length b1')%nat)
                    else (0, f_one, b1, false)
                | [] => (0, f_one, b1, false)
                end in
              if negb pre && negb post then None else
              let '(u, b3) := span_unit b2 in
              if u == [] then None else
              match unitOf u with
              | None => None
              | Some unit =>
                  match component v f scale unit with
                  | None => None
                  | Some v => if two63 <? d + v then None else durationLoop fuel (d + v) b3
                  end
              end
          end
      end
  end.

Definition ParseDuration (s : string) : option Duration :=
  let '(negative, b) :=
    match bytes_of s with
    | c :: b' => if byte_is 45 c then (true, b') else if byte_is 43 c then (false, b') else (false, bytes_of s)
    | [] => (false, [])
    end in
  if b == bytes_of "0" then Some 0 else
  if b == [] then None else
  match durationLoop (S (length b)) 0 b with
  | None => None
  | Some d => if (negative : bool) then Some (- d) else if i64_max <? d then None else Some d
  end.

Example ParseDuration_samples :
  ParseDuration "1h30m" = Some (5400 * Second) /\ ParseDuration "1.5s" = Some (1500 * 1000000) /\
  ParseDuration "-.25us" = Some (-250) /\ ParseDuration "0" = Some 0 /\ ParseDuration "5" = None /\
  ParseDuration ".s" = None /\ ParseDuration "9223372036854775808ns" = None /\
  ParseDuration "-9223372036854775808ns" = Some i64_min.
Proof. split_and!; vm_compute; reflexivity. Qed.

(** ** What the parsers return *)

Lemma leadingInt_range b : forall x v r, 0 <= x -> leadingInt x b = Some (v, r) -> 0 <= v /\
  (length r <= length b)%nat.
Proof.
  induction b as [|c b IH]; intros x v r Hx; cbn [leadingInt]; [intros [= <- <-]; cbn; lia|].
  destruct (is_digit c) eqn:Hc; [|intros [= <- <-]; cbn; lia].
  destruct (_ <? x); [done|]. cbv zeta. destruct (two63 <? _); [done|].
  intros H. apply IH in H as [H1 H2]; [cbn; lia|].
  unfold is_digit, byte_in, code in *. lia.
Qed.

Lemma leadingFraction_length b : forall x scale o f scale' r,
  leadingFraction x scale o b = (f, scale', r) -> (length r <= length b)%nat.
Proof.
  induction b as [|c b IH]; intros x scale o f scale' r; cbn [leadingFraction]; [by intros [= _ _ <-]|].
  destruct (is_digit c); [|intros [= _ _ <-]; cbn; lia]. cbv zeta.
  destruct o; [|destruct (_ <? x); [|destruct (two63 <? _)]]; intros H%IH; cbn [length]; lia.
Qed.

Lemma span_unit_length b u r : span_unit b = (u, r) -> (length u + length r = length b)%nat.
Proof.
  revert u r. induction b as [|c b IH]; intros u r; cbn [span_unit]; [by intros [= <- <-]|].
  destruct (_ || _); [by intros [= <- <-]|]. destruct (span_unit b) as [u' r'].
  intros [= <- <-]. cbn. by rewrite (IH u' r').
Qed.

(** The rest of a component is shorter than what it was read from. *)
Lemma component_length b v b1 f scale b2 (post : bool) u b3 :
  leadingInt 0 b = Some (v, b1) ->
  match b1 with
  | p :: b1' =>
      if byte_is 46 p then
        let '(f, scale, b2) := leadingFraction 0 f_one false b1' in
        (f, scale, b2, negb (length b2 =? length b1')%nat)
      else (0, f_one, b1, false)
  | [] => (0, f_one, b1, false)
  end = (f, scale, b2, post) ->
  span_unit b2 = (u, b3) -> u <> [] -> (length b3 < length b)%nat.
Proof.
  intros [_ H1]%leadingInt_range Hf Hu%span_unit_length Hne; [|done].
  assert (length b2 <= length b1)%nat as H2.
  { destruct b1 as [|p b1']; [by injection Hf as _ _ <- _|]. destruct (byte_is 46 p).
    - destruct (leadingFraction _ _ _ b1') as [[f' scale'] b2'] eqn:E. apply leadingFraction_length in E.
      injection Hf as _ _ <- _. cbn. lia.
    - by injection Hf as _ _ <- _. }
  destruct u; [done|]. cbn in Hu. lia.
Qed.

(** More fuel than bytes changes nothing: the loop always ends. *)
Lemma durationLoop_fuel n : forall m d b, (length b < n)%nat -> (length b < m)%nat ->
  durationLoop n d b = durationLoop m d b.
Proof.
  induction n as [|n IH]; intros [|m] d b Hn Hm; try lia. cbn [durationLoop]. destruct b as [|c b']; [done|].
  destruct (negb _); [done|]. destruct (leadingInt 0 (c :: b')) as [[v b1]|] eqn:Hv; [|done].
  match goal with |- context [match ?x with _ => _ end] => destruct x as [[[f scale] b2] post] eqn:Hf end.
  destruct (_ && _); [done|]. destruct (span_unit b2) as [u b3] eqn:Hu.
  destruct (u == []) eqn:Hne; [done|]. apply bool_decide_eq_false in Hne.
  pose proof (component_length _ _ _ _ _ _ _ _ _ Hv Hf Hu Hne) as Hlt.
  destruct (unitOf u); [|done]. destruct (component v f scale z) as [w|]; [|done].
  destruct (two63 <? d + w); [done|]. apply IH; lia.
Qed.

Lemma component_range v f scale unit w : 0 <= v -> 0 < unit -> component v f scale unit = Some w -> 0 <= w <= two63.
Proof.
  intros Hv Hu. unfold component. destruct (_ <? v); [done|]. cbv zeta.
  assert (forall x, 0 <= f_trunc x) as Ht.
  { intros x. unfold f_trunc. destruct x as [| | |[] m e]; try lia. apply Z.shiftl_nonneg. lia. }
  pose proof (Ht (SFmul float_prec float_emax (f_of_Z f) (SFdiv float_prec float_emax (f_of_Z unit) scale))) as H0.
  destruct (0 <? f); destruct (two63 <? _) eqn:E; intros [= <-]; nia.
Qed.

Lemma unitOf_positive u unit : unitOf u = Some unit -> 0 < unit.
Proof.
  unfold unitOf, Second. repeat match goal with |- context [if ?b then _ else _] => destruct b end;
    try done; intros [= <-]; lia.
Qed.

Lemma durationLoop_range n : forall d b d', 0 <= d <= two63 -> durationLoop n d b = Some d' -> 0 <= d' <= two63.
Proof.
  induction n as [|n IH]; intros d b d' Hd; cbn [durationLoop]; [done|]. destruct b as [|c b']; [by intros [= <-]|].
  destruct (negb _); [done|]. destruct (leadingInt 0 (c :: b')) as [[v b1]|] eqn:Hv; [|done].
  match goal with |- context [match ?x with _ => _ end] => destruct x as [[[f scale] b2] post] eqn:Hf end.
  destruct (_ && _); [done|]. destruct (span_unit b2) as [u b3]. destruct (u == []); [done|].
  destruct (unitOf u) as [unit|] eqn:Hu; [|done]. apply unitOf_positive in Hu.
  destruct (component v f scale unit) as [w|] eqn:Hw; [|done].
  apply leadingInt_range in Hv as [Hv _]; [|done]. apply component_range in Hw; [|lia..].
  destruct (two63 <? d + w) eqn:E; [done|]. apply IH. lia.
Qed.

Lemma ParseDuration_range s d : ParseDuration s = Some d -> is_i64 d.
Proof.
  unfold ParseDuration, is_i64. destruct (match bytes_of s with [] => _ | _ :: _ => _ end) as [negative b].
  destruct (_ == _); [intros [= <-]; unfold i64_min, i64_max; lia|]. destruct (b == []); [done|].
  destruct (durationLoop _ 0 b) as [x|] eqn:Hx; [|done].
  apply durationLoop_range in Hx; [|unfold two63; lia]. unfold two63 in Hx.
  destruct negative; [intros [= <-]; unfold i64_min, i64_max; lia|].
  destruct (i64_max <? x) eqn:E; [done|]. intros [= <-]. unfold i64_min in *. lia.
Qed.
