(* ===== verification/GoJsonDecode.v ===== *)
(** * Decoding JSON into Go values

    [json.Decoder] with [DisallowUnknownFields], for the kinds of fields the
    program decodes into: structs, pointers, slices, strings, booleans, floats,
    32-bit counters and raw messages. Only success matters: every mismatch ends
    in an error of the whole decoding.

    A value is decoded into a variable that may already hold one. Members of an
    object whose names differ in case fill the same field, one after the other;
    the documents that are decoded are canonical, so that members come in the
    order of their names and no name comes twice. *)

From Stdlib Require Import Ascii String Floats.SpecFloat.
From S2P Require Import Prelude GoString GoJson GoParse GoFloat.
Import json.

(** A decoder into a variable of type [T]: what it held, what it holds. *)
Definition decoder (T : Type) : Type := Json -> T -> option T.

(** [foldRune], as far as names of ASCII letters are concerned: the long s and
    the Kelvin sign fold to ASCII. *)
Definition fold_rune (u : N) : N :=
  if ((97 <=? u) && (u <=? 122))%N then (u - 32)%N
  else if (u =? 383)%N then 83%N else if (u =? 8490)%N then 75%N else u.

Definition fold_name (name : bytes) : list (option N) := map (option_map fold_rune) (runes name).

(** The field a member is decoded into. *)
Definition same_name (name : string) (key : bytes) : bool := fold_name key == fold_name (bytes_of name).

Definition field_of {T} (fields : list (string * decoder T)) (key : bytes) : option (decoder T) :=
  snd <$> List.find (fun '(name, _) => same_name name key) fields.

(** An unknown field is an error. *)
Fixpoint decode_members {T} (fields : list (string * decoder T)) (members : list (bytes * Json)) (t : T)
    : option T :=
  match members with
  | [] => Some t
  | (key, v) :: members =>
      match field_of fields key with
      | None => None
      | Some dec =>
          match dec v t with
          | None => None
          | Some t => decode_members fields members t
          end
      end
  end.

Definition decode_struct {T} (fields : list (string * decoder T)) : decoder T := fun v t =>
  match v with
  | JNull => Some t
  | JObject members => decode_members fields members t
  | _ => None
  end.

(** A field of a struct. *)
Definition into {T A} (get : T -> A) (set : A -> T -> T) (dec : decoder A) : decoder T := fun v t =>
  match dec v (get t) with
  | Some a => Some (set a t)
  | None => None
  end.

Definition decode_string : decoder string := fun v old =>
  match v with
  | JNull => Some old
  | JString s => Some (string_of s)
  | _ => None
  end.

Definition decode_bool : decoder bool := fun v old =>
  match v with
  | JNull => Some old
  | JBool b => Some b
  | _ => None
  end.

Definition decode_uint32 : decoder Z := fun v old =>
  match v with
  | JNull => Some old
  | JNumber literal =>
      match ParseUint literal with
      | Some n => if n <? u32_modulus then Some n else None
      | None => None
      end
  | _ => None
  end.

Definition decode_float : decoder float64 := fun v old =>
  match v with
  | JNull => Some old
  | JNumber literal => ParseFloat literal
  | _ => None
  end.

(** [json.RawMessage]: the text of the value, which is canonical. *)
Definition decode_raw : decoder bytes := fun v _ => Some (Marshal v).

(** A pointer: [null] clears it, another value is decoded into what it points
    to, or into a new [zero]. *)
Definition decode_pointer {A} (zero : A) (dec : decoder A) : decoder (option A) := fun v old =>
  match v with
  | JNull => Some None
  | _ =>
      match dec v (default zero old) with
      | Some a => Some (Some a)
      | None => None
      end
  end.

(** A slice: its elements, and those its array still holds beyond its length. *)
Record Slice (A : Type) := MkSlice {
  items : list A;
  spare : list A
}.

Arguments MkSlice {A} items spare.
Arguments items {A} s.
Arguments spare {A} s.

Definition nil_slice {A} : Slice A := MkSlice [] [].

Fixpoint decode_elements {A} (zero : A) (dec : decoder A) (l : list Json) (array : list A) : option (list A) :=
  match l with
  | [] => Some []
  | v :: l =>
      match dec v (default zero (head array)) with
      | None => None
      | Some a =>
          match decode_elements zero dec l (tail array) with
          | None => None
          | Some r => Some (a :: r)
          end
      end
  end.

(** An array is decoded element by element into the array of the slice. *)
Definition decode_slice {A} (zero : A) (dec : decoder A) : decoder (Slice A) := fun v old =>
  match v with
  | JNull | JArray [] => Some nil_slice
  | JArray l =>
      let array := items old ++ spare old in
      match decode_elements zero dec l array with
      | None => None
      | Some r => Some (MkSlice r (drop (length l) array))
      end
  | _ => None
  end.

(** [json.Unmarshal] into a [json.Number]: a number, or a string that spells
    one. *)
Definition UnmarshalNumber (b : bytes) : option string :=
  match decodeOne b with
  | Some (JNumber literal) => Some (string_of literal)
  | Some (JString s) =>
      match parse_number s with
      | Some (literal, []) => Some (string_of literal)
      | _ => None
      end
  | Some JNull => Some ""
  | _ => None
  end.
