(* ===== verification/GoUnmarshal.v ===== *)
(** * [json.Unmarshal] into Go values

    The text is first read into a tree that keeps, unlike the one of [Decode],
    the members of an object in their order with their repetitions, and the text
    of every value. Then the tree is decoded into a variable. Unknown members are
    skipped. Only success matters: every mismatch ends in an error, and the
    callers use no value that comes with one. *)

From Stdlib Require Import Ascii String Floats.SpecFloat.
From S2P Require Import Prelude GoTime GoString GoJson GoParse GoFloat GoTimeFormat GoJsonDecode Uuid.
Import json.

(** ** The tree *)

(** A value with its text. A string comes with its unquoted value. *)
Inductive Raw :=
  | RNull
  | RBool (b : bool)
  | RNumber (literal : bytes)
  | RString (literal value : bytes)
  | RArray (text : bytes) (l : list Raw)
  | RObject (text : bytes) (members : list (bytes * Raw)).

Definition text_of (v : Raw) : bytes :=
  match v with
  | RNull => bytes_of "null"
  | RBool true => bytes_of "true"
  | RBool false => bytes_of "false"
  | RNumber literal => literal
  | RString literal _ => literal
  | RArray text _ => text
  | RObject text _ => text
  end.

(** What was read of [b] when [rest] is left. *)
Definition consumed (b rest : bytes) : bytes := take (length b - length rest) b.

Fixpoint raw_value (fuel : nat) (depth : N) (b : bytes) : option (Raw * bytes) :=
  match fuel with
  | O => None
  | S fuel =>
      let b := skip_space b in
      match b with
      | [] => None
      | c :: r =>
          if byte_is 34 c then
            match unquote r with
            | Some (us, r') => Some (RString (consumed b r') (encode us), r')
            | None => None
            end
          else if byte_is 123 c then
            if (depth =? 0)%N then None else
            match expect 125 r with
            | Some r' => Some (RObject (consumed b r') [], r')
            | None =>
                match raw_members fuel (depth - 1) r with
                | Some (m, r') => Some (RObject (consumed b r') m, r')
                | None => None
                end
            end
          else if byte_is 91 c then
            if (depth =? 0)%N then None else
            match expect 93 r with
            | Some r' => Some (RArray (consumed b r') [], r')
            | None =>
                match raw_elements fuel (depth - 1) r with
                | Some (l, r') => Some (RArray (consumed b r') l, r')
                | None => None
                end
            end
          else if byte_is 110 c then
            match strip "ull" r with Some r' => Some (RNull, r') | None => None end
          else if byte_is 116 c then
            match strip "rue" r with Some r' => Some (RBool true, r') | None => None end
          else if byte_is 102 c then
            match strip "alse" r with Some r' => Some (RBool false, r') | None => None end
          else
            match parse_number (c :: r) with
            | Some (literal, r') => Some (RNumber literal, r')
            | None => None
            end
      end
  end

with raw_members (fuel : nat) (depth : N) (b : bytes) : option (list (bytes * Raw) * bytes) :=
  match fuel with
  | O => None
  | S fuel =>
      match expect 34 b with
      | None => None
      | Some r =>
          match unquote r with
          | None => None
          | Some (us, r) =>
              match expect 58 r with
              | None => None
              | Some r =>
                  match raw_value fuel depth r with
                  | None => None
                  | Some (v, r) =>
                      match expect 125 r with
                      | Some r => Some ([(encode us, v)], r)
                      | None =>
                          match expect 44 r with
                          | None => None
                          | Some r =>
                              match raw_members fuel depth r with
                              | Some (m, r) => Some ((encode us, v) :: m, r)
                              | None => None
                              end
                          end
                      end
                  end
              end
          end
      end
  end

with raw_elements (fuel : nat) (depth : N) (b : bytes) : option (list Raw * bytes) :=
  match fuel with
  | O => None
  | S fuel =>
      match raw_value fuel depth b with
      | None => None
      | Some (v, r) =>
          match expect 93 r with
          | Some r => Some ([v], r)
          | None =>
              match expect 44 r with
              | None => None
              | Some r =>
                  match raw_elements fuel depth r with
                  | Some (l, r) => Some (v :: l, r)
                  | None => None
                  end
              end
          end
      end
  end.

(** The tree of a text that is one value: [None] is a syntax error. *)
Definition raw_tree (b : bytes) : option Raw :=
  match raw_value (2 * length b + 2) maxNestingDepth b with
  | Some (v, rest) => if AtEOF rest then Some v else None
  | None => None
  end.

(** [json.Valid] *)
Definition Valid (b : bytes) : bool := match raw_tree b with Some _ => true | None => false end.

(** ** The tree of [Decode] *)

Fixpoint forget (v : Raw) : Json :=
  match v with
  | RNull => JNull
  | RBool b => JBool b
  | RNumber literal => JNumber literal
  | RString _ value => JString value
  | RArray _ l => JArray (map forget l)
  | RObject _ m => JObject (fold_left (fun m kv => set_member kv.1 (forget kv.2) m) m [])
  end.

Definition put_members (l : list (bytes * Raw)) (m : list (bytes * Json)) : list (bytes * Json) :=
  fold_left (fun m kv => set_member kv.1 (forget kv.2) m) l m.

(** [Decode] yields the tree with its members in order, the last of those of one
    name. *)
Lemma raw_forget fuel :
  (forall d b, parse_value fuel d b = (fun vr => (forget vr.1, vr.2)) <$> raw_value fuel d b) /\
  (forall d m b, parse_members fuel d m b = (fun lr => (put_members lr.1 m, lr.2)) <$> raw_members fuel d b) /\
  (forall d b, parse_elements fuel d b = (fun lr => (map forget lr.1, lr.2)) <$> raw_elements fuel d b).
Proof.
  induction fuel as [|fuel (IHv & IHm & IHe)]; [done|]. split_and!; intros.
  - cbn [parse_value raw_value]. destruct (skip_space b) as [|c r]; [done|].
    destruct (byte_is 34 c); [by destruct (unquote r) as [[us r']|]|].
    destruct (byte_is 123 c).
    { destruct (d =? 0)%N; [done|]. destruct (expect 125 r); [done|]. rewrite IHm.
      by destruct (raw_members fuel (d - 1) r) as [[m r']|]. }
    destruct (byte_is 91 c).
    { destruct (d =? 0)%N; [done|]. destruct (expect 93 r); [done|]. rewrite IHe.
      by destruct (raw_elements fuel (d - 1) r) as [[l r']|]. }
    destruct (byte_is 110 c); [by destruct (strip "ull" r)|].
    destruct (byte_is 116 c); [by destruct (strip "rue" r)|].
    destruct (byte_is 102 c); [by destruct (strip "alse" r)|].
    by destruct (parse_number (c :: r)) as [[literal r']|].
  - cbn [parse_members raw_members]. destruct (expect 34 b) as [r|]; [|done].
    destruct (unquote r) as [[us r1]|]; [|done]. destruct (expect 58 r1) as [r2|]; [|done]. rewrite IHv.
    destruct (raw_value fuel d r2) as [[v r3]|]; [|done]. cbn. destruct (expect 125 r3); [done|].
    destruct (expect 44 r3) as [r4|]; [|done]. rewrite IHm. by destruct (raw_members fuel d r4) as [[m' r5]|].
  - cbn [parse_elements raw_elements]. rewrite IHv. destruct (raw_value fuel d b) as [[v r]|]; [|done]. cbn.
    destruct (expect 93 r); [done|]. destruct (expect 44 r) as [r1|]; [|done]. rewrite IHe.
    by destruct (raw_elements fuel d r1) as [[l r2]|].
Qed.

Lemma decodeOne_raw b : decodeOne b = forget <$> raw_tree b.
Proof.
  unfold decodeOne, raw_tree, Decode. rewrite (proj1 (raw_forget _)).
  destruct (raw_value _ _ b) as [[v rest]|]; [|done]. cbn. by destruct (AtEOF rest).
Qed.

Lemma Valid_decodeOne b : Valid b = true <-> is_Some (decodeOne b).
Proof. unfold Valid. rewrite decodeOne_raw. destruct (raw_tree b); split; (done || by intros [? ?]). Qed.

(** ** Decoding into a variable

    A decoder takes the value and what the variable holds, and yields what it
    holds then, or [None] for an error. *)

Module unmarshal.

Definition decoder (T : Type) : Type := Raw -> T -> option T.

Definition field_of {T} (fields : list (string * decoder T)) (key : bytes) : option (decoder T) :=
  snd <$> List.find (fun '(name, _) => same_name name key) fields.

Fixpoint decode_members {T} (fields : list (string * decoder T)) (members : list (bytes * Raw)) (t : T) : option T :=
  match members with
  | [] => Some t
  | (key, v) :: members =>
      match field_of fields key with
      | None => decode_members fields members t
      | Some dec =>
          match dec v t with
          | None => None
          | Some t => decode_members fields members t
          end
      end
  end.

Definition decode_struct {T} (fields : list (string * decoder T)) : decoder T := fun v t =>
  match v with
  | RNull => Some t
  | RObject _ members => decode_members fields members t
  | _ => None
  end.

(** A field of a struct. *)
Definition into {T A} (get : T -> A) (set : A -> T -> T) (dec : decoder A) : decoder T := fun v t =>
  match dec v (get t) with
  | Some a => Some (set a t)
  | None => None
  end.

Definition decode_string : decoder string := fun v old =>
  match v with
  | RNull => Some old
  | RString _ s => Some (string_of s)
  | _ => None
  end.

Definition decode_uint64 : decoder Z := fun v old =>
  match v with
  | RNull => Some old
  | RNumber literal => ParseUint literal
  | _ => None
  end.

Definition decode_float : decoder float64 := fun v old =>
  match v with
  | RNull => Some old
  | RNumber literal => ParseFloat literal
  | _ => None
  end.

(** [json.RawMessage] *)
Definition decode_raw : decoder bytes := fun v _ => Some (text_of v).

(** A [uuid.UUID], through [UnmarshalText]. *)
Definition decode_uuid : decoder UUID := fun v old =>
  match v with
  | RNull => Some old
  | RString _ s =>
      match Parse (string_of s) with
      | Ok id => Some id
      | Err _ => None
      end
  | _ => None
  end.

Definition decode_pointer {A} (zero : A) (dec : decoder A) : decoder (option A) := fun v old =>
  match v with
  | RNull => Some None
  | _ =>
      match dec v (default zero old) with
      | Some a => Some (Some a)
      | None => None
      end
  end.

Fixpoint decode_elements {A} (zero : A) (dec : decoder A) (l : list Raw) (array : list A) : option (list A) :=
  match l with
  | [] => Some []
  | v :: l =>
      match dec v (default zero (head array)) with
      | None => None
      | Some a =>
          match decode_elements zero dec l (tail array) with
          | None => None
          | Some r => Some (a :: r)
          end
      end
  end.

Definition decode_slice {A} (zero : A) (dec : decoder A) : decoder (Slice A) := fun v old =>
  match v with
  | RNull | RArray _ [] => Some nil_slice
  | RArray _ l =>
      let array := items old ++ spare old in
      match decode_elements zero dec l array with
      | None => None
      | Some r => Some (MkSlice r (drop (length l) array))
      end
  | _ => None
  end.

(** A [map[string]string]: [null] clears it, an object adds its members. *)
Fixpoint decode_entries (members : list (bytes * Raw)) (m : gmap string string) : option (gmap string string) :=
  match members with
  | [] => Some m
  | (key, v) :: members =>
      match decode_string v "" with
      | None => None
      | Some s => decode_entries members (<[string_of key := s]> m)
      end
  end.

Definition decode_string_map : decoder (gmap string string) := fun v old =>
  match v with
  | RNull => Some ∅
  | RObject _ members => decode_entries members old
  | _ => None
  end.

(** [json.Unmarshal(b, &t)] *)
Definition Unmarshal {T} (dec : decoder T) (b : bytes) (t : T) : option T :=
  match raw_tree b with
  | Some v => dec v t
  | None => None
  end.

End unmarshal.
