(* ===== verification/GoJsonReads.v ===== *)
(** * Reading what was written

    [reads d b v]: wherever [b] stands in a text, below [d] more levels of
    nesting, the value [v] is read from it. The encodings of structs read back,
    so they determine their fields, and [json.Unmarshal] decodes them. *)

From Stdlib Require Import Ascii String.
From S2P Require Import Prelude GoString GoJson GoJsonText GoJsonStruct GoUnmarshal.
Import json.

(** The first byte of a value. *)
Definition value_head (b : bytes) : Prop :=
  exists c x, b = c :: x /\ is_space c = false /\ byte_is 93 c = false.

Record reads (d : N) (b : bytes) (v : Raw) : Prop := {
  reads_head : value_head b;
  reads_value : forall fuel rest, delimited rest -> (2 * length b <= fuel)%nat ->
    raw_value fuel d (b ++ rest) = Some (v, rest)
}.

Lemma consumed_app p r : GoUnmarshal.consumed (p ++ r) r = p.
Proof. unfold GoUnmarshal.consumed. rewrite length_app, Nat.add_sub. by rewrite take_app_length. Qed.

(** Open the fuel of [raw_value] at the first byte of a value. *)
Lemma raw_value_here fuel d c r :
  is_space c = false -> raw_value (S fuel) d (c :: r) =
  let b := c :: r in
  if byte_is 34 c then
    match unquote r with
    | Some (us, r') => Some (RString (GoUnmarshal.consumed b r') (encode us), r')
    | None => None
    end
  else if byte_is 123 c then
    if (d =? 0)%N then None else
    match expect 125 r with
    | Some r' => Some (RObject (GoUnmarshal.consumed b r') [], r')
    | None =>
        match raw_members fuel (d - 1) r with
        | Some (m, r') => Some (RObject (GoUnmarshal.consumed b r') m, r')
        | None => None
        end
    end
  else if byte_is 91 c then
    if (d =? 0)%N then None else
    match expect 93 r with
    | Some r' => Some (RArray (GoUnmarshal.consumed b r') [], r')
    | None =>
        match raw_elements fuel (d - 1) r with
        | Some (l, r') => Some (RArray (GoUnmarshal.consumed b r') l, r')
        | None => None
        end
    end
  else if byte_is 110 c then match strip "ull" r with Some r' => Some (RNull, r') | None => None end
  else if byte_is 116 c then match strip "rue" r with Some r' => Some (RBool true, r') | None => None end
  else if byte_is 102 c then match strip "alse" r with Some r' => Some (RBool false, r') | None => None end
  else match parse_number (c :: r) with Some (literal, r') => Some (RNumber literal, r') | None => None end.
Proof. intros H. cbn [raw_value]. by rewrite skip_space_here. Qed.

(** ** Scalars *)

Lemma reads_null d : reads d (bytes_of "null") RNull.
Proof. split; [by eexists _, _|]. intros [|fuel] rest _ H; [cbn in H; lia|reflexivity]. Qed.

Lemma reads_string d s : utf8 s -> reads d (quoteString s) (RString (quoteString s) (bytes_of s)).
Proof.
  intros Hs. split; [by eexists _, _|]. intros [|fuel] rest _ H; [cbn in H; lia|].
  change (quoteString s ++ rest) with (ascii_of_N 34 :: (flat_map escape_rune (runes (bytes_of s)) ++ [ascii_of_N 34]) ++ rest).
  rewrite raw_value_here by done. cbv zeta.
  change (ascii_of_N 34 :: (flat_map escape_rune (runes (bytes_of s)) ++ [ascii_of_N 34]) ++ rest) with (quoteString s ++ rest).
  rewrite <- app_assoc. cbn [app]. destruct (unquote_quoted _ rest Hs) as (us & Hus & ->).
  rewrite consumed_app, Hus. reflexivity.
Qed.

Lemma reads_number d lit : valid_number lit -> reads d lit (RNumber lit).
Proof.
  intros (b & r & H). destruct (parse_number_reread b lit r [] H eq_refl) as (_ & _ & Hh).
  destruct lit as [|c x]; [done|]. cbn [starts] in Hh.
  assert (is_space c = false) as Hc.
  { clear -Hh. unfold number_head, is_digit, byte_in, is_space, byte_is in *. lia. }
  split; [eexists _, _; split_and!; [done..|]; clear -Hh; unfold number_head, is_digit, byte_in, byte_is in *; lia|].
  intros [|fuel] rest Hrest Hf; [cbn in Hf; lia|]. cbn [app]. rewrite raw_value_here by done. cbv zeta.
  destruct (parse_number_reread b _ r rest H Hrest) as (_ & Hn & _). cbn [app] in Hn. rewrite Hn.
  clear -Hh. unfold number_head, is_digit, byte_in in Hh. unfold byte_is in *.
  repeat (rewrite (proj2 (N.eqb_neq _ _)); [|lia]). reflexivity.
Qed.

(** ** Arrays *)

Definition array (l : list bytes) : bytes := ascii_of_N 91 :: separated l ++ [ascii_of_N 93].

Lemma raw_elements_reads d bs vs rest :
  Forall2 (reads d) bs vs -> bs <> [] ->
  forall fuel, (2 * (length (separated bs) + 1) <= fuel)%nat ->
  raw_elements fuel d (separated bs ++ ascii_of_N 93 :: rest) = Some (vs, rest).
Proof.
  induction 1 as [|b v bs vs Hb Hbs IH]; [done|]. intros _ [|fuel] Hf; [lia|]. cbn [raw_elements].
  destruct Hbs as [|b' v' bs vs Hb' Hbs].
  - cbn [separated flat_map] in *. rewrite app_nil_r in *.
    rewrite (reads_value _ _ _ Hb) by (done || lia). by rewrite expect_here.
  - rewrite separated_cons in *. rewrite length_app in Hf. cbn [length] in Hf. rewrite <- app_assoc. cbn [app].
    rewrite (reads_value _ _ _ Hb) by (done || lia). rewrite !expect_here by done. cbn [N.eqb Pos.eqb].
    rewrite IH; [done|done|lia].
Qed.

Lemma value_head_expect b rest : value_head b -> expect 93 (b ++ rest) = None.
Proof.
  intros (c & x & -> & H1 & H2). unfold expect. cbn [app]. rewrite skip_space_here by done. by rewrite H2.
Qed.

Lemma separated_head b bs rest : exists x, separated (b :: bs) ++ rest = b ++ x.
Proof. cbn [separated]. rewrite <- app_assoc. by eexists. Qed.

Lemma reads_array d bs vs : (0 < d)%N -> Forall2 (reads (d - 1)) bs vs -> reads d (array bs) (RArray (array bs) vs).
Proof.
  intros Hd H. split; [by eexists _, _|]. intros [|fuel] rest _ Hf; [cbn in Hf; lia|].
  unfold array at 1. cbn [app]. rewrite raw_value_here by done. cbv zeta. rewrite !byte_is_ascii by lia.
  cbn [N.eqb Pos.eqb]. rewrite (proj2 (N.eqb_neq d 0)) by lia. rewrite <- app_assoc. cbn [app].
  change (ascii_of_N 91 :: separated bs ++ ascii_of_N 93 :: rest) with ((ascii_of_N 91 :: separated bs) ++ [ascii_of_N 93] ++ rest).
  rewrite app_assoc. change ((ascii_of_N 91 :: separated bs) ++ [ascii_of_N 93]) with (array bs).
  destruct bs as [|b bs].
  - inversion H; subst. cbn [separated app]. rewrite expect_here by done. cbn [N.eqb Pos.eqb]. by rewrite consumed_app.
  - destruct (separated_head b bs (ascii_of_N 93 :: rest)) as [x Hx].
    rewrite Hx, value_head_expect, <- Hx by (inversion H; subst; by eapply reads_head).
    rewrite (raw_elements_reads _ _ vs); [by rewrite consumed_app|done..|].
    unfold array in Hf. cbn [length] in Hf. rewrite length_app in Hf. cbn [length] in Hf. lia.
Qed.

(** ** Objects *)

(** The members of an object. *)
Definition struct (fields : list (string * bytes)) : bytes := object ((fun f => field f.1 f.2) <$> fields).

Lemma raw_member_reads fuel d n b v x :
  utf8 n -> reads d b v -> (2 * length b <= fuel)%nat -> delimited x ->
  raw_members (S fuel) d (field n b ++ x) =
  match expect 125 x with
  | Some r => Some ([(bytes_of n, v)], r)
  | None =>
      match expect 44 x with
      | None => None
      | Some r => match raw_members fuel d r with Some (m, r) => Some ((bytes_of n, v) :: m, r) | None => None end
      end
  end.
Proof.
  intros Hn Hb Hx Hd. cbn [raw_members]. unfold field, quoteString, quote. cbn [app]. rewrite expect_here by done.
  cbn [N.eqb Pos.eqb]. rewrite <- !app_assoc. cbn [app].
  destruct (unquote_quoted _ (ascii_of_N 58 :: b ++ x) Hn) as (us & Hus & ->). rewrite expect_here by done.
  cbn [N.eqb Pos.eqb]. rewrite (reads_value _ _ _ Hb) by done. by rewrite Hus.
Qed.

Lemma raw_members_reads d fields vs rest :
  Forall2 (fun f v => utf8 f.1 /\ reads d f.2 v) fields vs -> fields <> [] ->
  forall fuel, (2 * (length (separated ((fun f => field f.1 f.2) <$> fields)) + 1) <= fuel)%nat ->
  raw_members fuel d (separated ((fun f => field f.1 f.2) <$> fields) ++ ascii_of_N 125 :: rest) =
  Some (zip (bytes_of ∘ fst <$> fields) vs, rest).
Proof.
  induction 1 as [|[n b] v fields vs [Hn Hb] Hfs IH]; [done|]. intros _ [|fuel] Hf; [lia|]. cbn [fst snd] in *.
  assert (length b < length (field n b))%nat as Hlen.
  { unfold field. rewrite length_app. cbn [length]. lia. }
  destruct Hfs as [|[n' b'] v' fields vs Hb' Hbs].
  - cbn [fmap list_fmap separated flat_map] in *. rewrite app_nil_r in *. cbn [fst snd] in *.
    rewrite (raw_member_reads _ _ _ _ v) by (done || lia). by rewrite expect_here.
  - change ((fun f => field f.1 f.2) <$> ((n, b) :: (n', b') :: fields))
      with (field n b :: field n' b' :: ((fun f => field f.1 f.2) <$> fields)) in *.
    rewrite separated_cons in *. rewrite length_app in Hf. cbn [length] in Hf. rewrite <- app_assoc. cbn [app].
    rewrite (raw_member_reads _ _ _ _ v) by (done || lia). rewrite !expect_here by done. cbn [N.eqb Pos.eqb].
    change (field n' b' :: ((fun f => field f.1 f.2) <$> fields))
      with ((fun f => field f.1 f.2) <$> ((n', b') :: fields)) in *.
    rewrite IH; [done|done|lia].
Qed.

Lemma reads_struct d fields vs :
  (0 < d)%N -> Forall2 (fun f v => utf8 f.1 /\ reads (d - 1) f.2 v) fields vs ->
  reads d (struct fields) (RObject (struct fields) (zip (bytes_of ∘ fst <$> fields) vs)).
Proof.
  intros Hd H. split; [by eexists _, _|]. intros [|fuel] rest _ Hf; [cbn in Hf; lia|].
  unfold struct at 1, object. cbn [app]. rewrite raw_value_here by done. cbv zeta. rewrite !byte_is_ascii by lia.
  cbn [N.eqb Pos.eqb]. rewrite (proj2 (N.eqb_neq d 0)) by lia. rewrite <- app_assoc. cbn [app].
  set (fs := (fun f => field f.1 f.2) <$> fields).
  change (ascii_of_N 123 :: separated fs ++ ascii_of_N 125 :: rest) with ((ascii_of_N 123 :: separated fs) ++ [ascii_of_N 125] ++ rest).
  rewrite app_assoc. change ((ascii_of_N 123 :: separated fs) ++ [ascii_of_N 125]) with (struct fields).
  destruct fields as [|[n b] fields].
  - inversion H; subst. unfold fs. cbn [fmap list_fmap separated app]. rewrite expect_here by done. cbn [N.eqb Pos.eqb].
    by rewrite consumed_app.
  - assert (expect 125 (separated fs ++ ascii_of_N 125 :: rest) = None) as -> by reflexivity.
    unfold fs. rewrite (raw_members_reads _ _ vs); [by rewrite consumed_app|done..|].
    unfold struct, object in Hf. cbn [length] in Hf. rewrite length_app in Hf. cbn [length] in Hf. lia.
Qed.

(** ** Consequences *)

(** A text that reads is valid, and is decoded as what it reads. *)
Lemma reads_tree b v : reads maxNestingDepth b v -> raw_tree b = Some v.
Proof.
  intros H. unfold raw_tree. pose proof (reads_value _ _ _ H (2 * length b + 2) [] eq_refl ltac:(lia)) as E.
  rewrite app_nil_r in E. by rewrite E.
Qed.

Lemma reads_Valid b v : reads maxNestingDepth b v -> Valid b = true.
Proof. intros H%reads_tree. unfold Valid. by rewrite H. Qed.

(** What is read is determined. *)
Lemma reads_det d b v w : reads d b v -> reads d b w -> v = w.
Proof.
  intros H1 H2. pose proof (reads_value _ _ _ H1 (2 * length b) [] eq_refl ltac:(lia)) as E1.
  pose proof (reads_value _ _ _ H2 (2 * length b) [] eq_refl ltac:(lia)) as E2. congruence.
Qed.
