(* ===== verification/GoTimeParse.v ===== *)
(** * Times read from text

    [Time.UnmarshalJSON] of Go 1.22: [time.Parse] with the layout RFC 3339,
    which is more lenient than the RFC: hours of one digit, a comma before the
    fraction, any digits in the offset. *)

From Stdlib Require Import Ascii String.
From S2P Require Import Prelude GoTime GoString GoJson GoJsonText GoJsonStruct GoTimeFormat GoUnmarshal GoJsonReads.
Import json.

(** [getnum]: two digits, or one unless the field is [fixed]. *)
Definition getnum (fixed : bool) (b : bytes) : option (Z * bytes) :=
  match b with
  | c1 :: b =>
      if negb (is_digit c1) then None else
      match b with
      | c2 :: b' => if is_digit c2 then Some (digits_value [c1; c2], b')
                    else if fixed then None else Some (digits_value [c1], b)
      | [] => if fixed then None else Some (digits_value [c1], b)
      end
  | [] => None
  end.

(** A byte of the layout. *)
Definition literal (n : N) (b : bytes) : option bytes :=
  match b with
  | c :: b => if byte_is n c then Some b else None
  | [] => None
  end.

(** The fraction: digits beyond nanoseconds are dropped. *)
Definition parse_nanos (b : bytes) : Z * bytes :=
  match b with
  | c :: b' =>
      let '(ds, rest) := span_digits b' in
      if (byte_is 46 c || byte_is 44 c) && (ds != []) then
        let ds := take 9 ds in (digits_value ds * 10 ^ (9 - Z.of_nat (length ds)), rest)
      else (0, b)
  | [] => (0, b)
  end.

(** The zone: [None] for [Z], else the offset in seconds. *)
Definition parse_zone (b : bytes) : option (option Z * bytes) :=
  match b with
  | s :: b =>
      if byte_is 90 s then Some (None, b) else
      match getnum true (take 2 b), literal 58 (drop 2 b) with
      | Some (hours, _), Some b =>
          match getnum true b with
          | Some (minutes, b) =>
              let offset := (hours * 60 + minutes) * 60 in
              if byte_is 43 s then Some (Some offset, b)
              else if byte_is 45 s then Some (Some (- offset), b) else None
          | None => None
          end
      | _, _ => None
      end
  | [] => None
  end.

Section parse.
(** The location of a time that was given with an offset: the local one where
    it has that offset, else a fixed zone. *)
Variable fixed_zone : Z -> Z -> positive.

(** [time.Parse(time.RFC3339, s)] *)
Definition ParseRFC3339 (b : bytes) : option Time :=
  let year := take 4 b in
  if negb (forallb is_digit year) || (length year != 4%nat)%go then None else
  match literal 45 (drop 4 b) with None => None | Some b =>
  match getnum true b with None => None | Some (month, b) =>
  if (month <=? 0) || (12 <? month) then None else
  match literal 45 b with None => None | Some b =>
  match getnum true b with None => None | Some (day, b) =>
  match literal 84 b with None => None | Some b =>
  match getnum false b with None => None | Some (hour, b) =>
  if 24 <=? hour then None else
  match literal 58 b with None => None | Some b =>
  match getnum true b with None => None | Some (minute, b) =>
  if 60 <=? minute then None else
  match literal 58 b with None => None | Some b =>
  match getnum true b with None => None | Some (second, b) =>
  if 60 <=? second then None else
  let '(nanos, b) := parse_nanos b in
  match parse_zone b with None => None | Some (zone, b) =>
  if b != [] then None else
  let year := digits_value year in
  if (day <? 1) || (month_days (leap year) month <? day) then None else
  let seconds := days_of_civil year month day * 86400 + hour * 3600 + minute * 60 + second in
  match zone with
  | None => Some (MkTime (seconds * Second + nanos) UTCLoc)
  | Some offset =>
      let i := (seconds - offset) * Second + nanos in
      Some (MkTime i (ZoneLoc (fixed_zone offset i)))
  end
  end end end end end end end end end end end.

(** [Time.UnmarshalJSON] takes the text between the quotes as it is. *)
Definition decode_time : unmarshal.decoder Time := fun v old =>
  match v with
  | RNull => Some old
  | RString literal _ => ParseRFC3339 (take (length literal - 2) (tail literal))
  | _ => None
  end.

End parse.

Example ParseRFC3339_samples :
  let zone offset _ := if offset =? 5400 then 1%positive else 2%positive in
  ParseRFC3339 zone (bytes_of "2024-02-29T12:34:56.1203Z") =
    Some (MkTime ((unixEpochSeconds + 1709210096) * Second + 120300000) UTCLoc) /\
  ParseRFC3339 zone (bytes_of "2024-02-29T9:04:56,5-03:30") =
    Some (MkTime ((unixEpochSeconds + 1709210096) * Second + 500000000) (ZoneLoc 2)) /\
  ParseRFC3339 zone (bytes_of "2024-02-29T14:04:56+01:30") =
    Some (MkTime ((unixEpochSeconds + 1709210096) * Second) (ZoneLoc 1)) /\
  ParseRFC3339 zone (bytes_of "2023-02-29T12:34:56Z") = None /\
  ParseRFC3339 zone (bytes_of "2024-02-29T12:34:56") = None /\
  ParseRFC3339 zone (bytes_of "2024-12-31T23:59:60Z") = None.
Proof. split_and!; vm_compute; reflexivity. Qed.

(** ** Reading a formatted time *)

Lemma literal_here n b : (n < 256)%N -> literal n (byte_of n :: b) = Some b.
Proof. intros H. unfold literal, byte_of. by rewrite byte_is_ascii, N.eqb_refl. Qed.

Lemma pad_digits_app_split w n r : take w (pad_digits w n ++ r) = pad_digits w n /\ drop w (pad_digits w n ++ r) = r.
Proof. split; [apply take_app_length'|apply drop_app_length']; by rewrite pad_digits_length. Qed.

Lemma getnum_pad fixed n r : two_digits n -> getnum fixed (pad_digits 2 n ++ r) = Some (n, r).
Proof.
  intros H. pose proof (pad_digits_digits 2 n ltac:(destruct H; lia)) as Hd.
  pose proof (pad_digits_value 2 n ltac:(destruct H; lia)) as Hv. rewrite Z.mod_small in Hv by exact H.
  pose proof (pad_digits_length 2 n) as Hl. destruct (pad_digits 2 n) as [|c1 [|c2 [|? ?]]]; try done.
  apply Forall_cons_1 in Hd as [H1 Hd]. apply Forall_cons_1 in Hd as [H2 _].
  cbn [app getnum]. by rewrite H1, H2, Hv.
Qed.

Lemma digits_value_app_zeros b k : digits_value (b ++ replicate k (digit 0)) = digits_value b * 10 ^ Z.of_nat k.
Proof.
  induction k as [|k IH]; [cbn [replicate]; rewrite app_nil_r; cbn; lia|].
  rewrite replicate_S_end, app_assoc, digits_value_app, IH, digit_code by lia.
  rewrite Nat2Z.inj_succ, Z.pow_succ_r by lia. cbn. lia.
Qed.

(** The digits of a fraction without its trailing zeros. *)
Lemma drop_zeros_end n : exists ds k, rev (drop_zeros (rev (pad_digits 9 n))) = ds /\
  pad_digits 9 n = ds ++ replicate k (digit 0) /\ (length ds + k = 9)%nat.
Proof.
  pose proof (drop_zeros_spec (rev (pad_digits 9 n))) as H. set (d := drop_zeros _) in *.
  set (k := (length (rev (pad_digits 9 n)) - length d)%nat) in H.
  apply (f_equal (@rev _)) in H as H'. rewrite rev_involutive, rev_app_distr in H'.
  assert (rev (replicate k (digit 0)) = replicate k (digit 0)) as Hr.
  { clear. induction k as [|k IH]; [done|]. cbn [replicate rev]. rewrite IH. symmetry. apply replicate_cons_app. }
  rewrite Hr in H'. exists (rev d), k. split_and!; [done|exact H'|].
  apply (f_equal length) in H'. rewrite length_app, length_replicate, pad_digits_length in H'. lia.
Qed.

Lemma parse_nanos_fraction n c r :
  0 <= n < Second -> is_digit c = false -> byte_is 46 c = false -> byte_is 44 c = false ->
  parse_nanos (fraction n ++ c :: r) = (n, c :: r).
Proof.
  intros Hn Hc H46 H44. unfold fraction. destruct (n =? 0) eqn:E.
  { cbn [app parse_nanos]. rewrite H46, H44. assert (n = 0) as -> by lia. by destruct (span_digits r). }
  destruct (drop_zeros_end n) as (ds & k & -> & Hp & Hl). cbn [app parse_nanos].
  pose proof (pad_digits_digits 9 n ltac:(lia)) as Hd. rewrite Hp in Hd. apply Forall_app in Hd as [Hd _].
  pose proof (pad_digits_value 9 n ltac:(lia)) as Hv. rewrite Hp, digits_value_app_zeros in Hv.
  rewrite Z.mod_small in Hv by (unfold Second in Hn; lia).
  rewrite span_digits_app by done. change (byte_is 46 (byte_of 46)) with true. cbn [orb andb].
  destruct ds as [|d ds]; [cbn in Hv; lia|]. change ((d :: ds) != []) with true.
  rewrite take_ge by lia. f_equal. rewrite <- Hv. do 2 f_equal. lia.
Qed.

Lemma decimal_four n : 0 <= n <= 9999 -> decimal 4 n = pad_digits 4 n.
Proof.
  intros H. unfold decimal. rewrite (proj2 (Z.ltb_ge n 0)) by lia. f_equal.
  destruct (Z.to_nat (Z.log2 n)) as [|fuel]; [done|]. cbn [width]. by rewrite (proj2 (Z.ltb_lt n _)) by lia.
Qed.

(** A time in UTC, of a year of four digits, reads back. *)
Lemma ParseRFC3339_format zone t :
  location t = UTCLoc -> 0 <= Year 0 t <= 9999 -> ParseRFC3339 zone (RFC3339Nano 0 t) = Some t.
Proof.
  destruct t as [i l]. cbn [location]. intros -> Hy. unfold Year, RFC3339Nano in *. cbn [instant] in *.
  rewrite Z.mul_0_l, Z.add_0_r in *. set (s := i / Second) in *.
  destruct (civil_of_days (s / 86400)) as [[year month] day] eqn:E.
  apply civil_of_days_date in E as (Hdays & Hm & Hd & Hin). rewrite decimal_four by done.
  set (clock := s mod 86400). assert (0 <= clock < 86400) as Hclock by (subst clock; lia).
  unfold ParseRFC3339. destruct (pad_digits_app_split 4 year (byte_of 45 :: pad_digits 2 month ++
    byte_of 45 :: pad_digits 2 day ++ byte_of 84 :: pad_digits 2 (clock / 3600) ++ byte_of 58 ::
    pad_digits 2 (clock / 60 mod 60) ++ byte_of 58 :: pad_digits 2 (clock mod 60) ++ fraction (i mod Second) ++ zone_text 0))
    as [-> ->].
  rewrite pad_digits_length. change ((4%nat != 4%nat)%go) with false.
  assert (forallb is_digit (pad_digits 4 year) = true) as ->.
  { apply forallb_forall. intros c Hc%list_elem_of_In. by apply (proj1 (Forall_forall _ _) (pad_digits_digits 4 year ltac:(lia))). }
  cbn [negb orb]. rewrite literal_here, getnum_pad by (done || unfold two_digits; lia).
  replace ((month <=? 0) || (12 <? month)) with false by lia.
  rewrite literal_here, getnum_pad, literal_here, getnum_pad by (done || unfold two_digits; lia).
  replace (24 <=? clock / 3600) with false by lia.
  rewrite literal_here, getnum_pad by (done || unfold two_digits; lia).
  replace (60 <=? clock / 60 mod 60) with false by lia.
  rewrite literal_here, getnum_pad by (done || unfold two_digits; lia).
  replace (60 <=? clock mod 60) with false by lia.
  unfold zone_text. cbn [Z.eqb]. rewrite parse_nanos_fraction by (done || unfold Second; lia).
  cbn [parse_zone]. change (byte_is 90 (byte_of 90)) with true. cbn [bool_decide].
  rewrite pad_digits_value, Z.mod_small by lia.
  replace ((day <? 1) || (month_days (leap year) month <? day)) with false by lia.
  do 2 f_equal. rewrite Hdays. subst clock s. unfold Second in *. lia.
Qed.

(** ** The JSON of a time *)

(** Bytes that JSON writes as they are. *)
Definition safe (c : ascii) : bool :=
  byte_in 32 126 c && negb (byte_is 34 c || byte_is 92 c || byte_is 60 c || byte_is 62 c || byte_is 38 c).

Lemma quote_safe b : Forall (fun c => safe c = true) b -> quote b = ascii_of_N 34 :: b ++ [ascii_of_N 34].
Proof.
  intros H. unfold quote. do 2 f_equal. induction H as [|c b Hc _ IH]; [done|].
  unfold safe, byte_in, byte_is in Hc. change (N_of_ascii c) with (code c) in Hc. cbn [runes].
  rewrite (proj2 (N.ltb_lt (code c) 128)) by lia. cbn [flat_map]. rewrite IH. change (c :: b) with ([c] ++ b). f_equal.
  unfold escape_rune. repeat (rewrite (proj2 (N.eqb_neq (code c) _)); [|lia]). rewrite (proj2 (N.ltb_ge _ _)) by lia.
  cbn [orb]. unfold encode_rune. rewrite (proj2 (N.ltb_lt (code c) 128)) by lia. f_equal. apply ascii_N_embedding.
Qed.

Lemma safe_ascii b : Forall (fun c => safe c = true) b -> valid_utf8 b.
Proof.
  intros H. apply ascii_utf8, forallb_forall. intros c Hc%list_elem_of_In.
  apply (proj1 (Forall_forall _ _) H) in Hc. unfold safe, byte_in in Hc. unfold code. lia.
Qed.

Lemma digits_safe b : Forall (fun c => is_digit c = true) b -> Forall (fun c => safe c = true) b.
Proof. intros H. eapply Forall_impl; [exact H|]. intros c. unfold safe, is_digit, byte_in, byte_is. lia. Qed.

Lemma pad_digits_safe w n : 0 <= n -> Forall (fun c => safe c = true) (pad_digits w n).
Proof. intros H. by apply digits_safe, pad_digits_digits. Qed.

Lemma fraction_safe n : 0 <= n -> Forall (fun c => safe c = true) (fraction n).
Proof.
  intros H. unfold fraction. destruct (n =? 0); [constructor|]. constructor; [done|].
  apply Forall_rev, drop_zeros_Forall, Forall_rev. by apply pad_digits_safe.
Qed.

Lemma RFC3339Nano_safe t : 0 <= Year 0 t <= 9999 -> Forall (fun c => safe c = true) (RFC3339Nano 0 t).
Proof.
  intros Hy. unfold Year, RFC3339Nano in *. rewrite !Z.mul_0_l, !Z.add_0_r in *. set (s := instant t / Second) in *.
  destruct (civil_of_days (s / 86400)) as [[year month] day] eqn:E.
  apply civil_of_days_date in E as (_ & Hm & Hd & _). rewrite decimal_four by done.
  pose proof (clock_fields s) as (H1 & H2 & H3). unfold two_digits in *.
  repeat rewrite ?Forall_app, ?Forall_cons. split_and!;
    first [reflexivity | apply fraction_safe; unfold Second; lia | apply pad_digits_safe; lia | by repeat constructor].
Qed.

Lemma MarshalTime_text t b : MarshalTime 0 t = Some b ->
  0 <= Year 0 t <= 9999 /\ b = quoteString (string_of (RFC3339Nano 0 t)).
Proof.
  unfold MarshalTime. destruct (_ || _ || _) eqn:E; [done|]. intros [= <-].
  assert (0 <= Year 0 t <= 9999) as Hy by lia. split; [done|].
  unfold quoteString. rewrite bytes_of_string_of, quote_safe by by apply RFC3339Nano_safe. done.
Qed.

Lemma reads_time d t b : MarshalTime 0 t = Some b -> reads d b (RString b (RFC3339Nano 0 t)).
Proof.
  intros [Hy ->]%MarshalTime_text. 
  pose proof (reads_string d (string_of (RFC3339Nano 0 t))) as H. rewrite bytes_of_string_of in H. apply H. unfold utf8. rewrite bytes_of_string_of. by apply safe_ascii, RFC3339Nano_safe.
Qed.

(** [Unmarshal] yields the time that was marshalled. *)
Lemma decode_time_marshalled zone t b v old :
  MarshalTime 0 t = Some b -> location t = UTCLoc -> decode_time zone (RString b v) old = Some t.
Proof.
  intros [Hy ->]%MarshalTime_text Hl. cbn [decode_time].
  unfold quoteString. rewrite bytes_of_string_of, quote_safe by by apply RFC3339Nano_safe.
  cbn [tail length]. rewrite length_app. cbn [length].
  rewrite take_app_length' by lia. by apply ParseRFC3339_format.
Qed.

(** ** The JSON of an integer *)

Lemma pad_digits_head w n : 0 <= n ->
  exists ds, pad_digits (S w) n = digit (n / 10 ^ Z.of_nat w mod 10) :: ds /\ Forall (fun c => is_digit c = true) ds.
Proof.
  revert n. induction w as [|w IH]; intros n Hn.
  - exists []. cbn. rewrite Z.div_1_r. split; [done|constructor].
  - destruct (IH (n / 10)) as (ds & E & Hd); [lia|]. exists (ds ++ [digit (n mod 10)]).
    change (pad_digits (S (S w)) n) with (pad_digits (S w) (n / 10) ++ [digit (n mod 10)]). rewrite E. split.
    + rewrite Z.div_div by lia. cbn [app]. do 3 f_equal. rewrite Nat2Z.inj_succ, Z.pow_succ_r by lia. done.
    + apply Forall_app. split; [done|]. constructor; [|constructor].
      unfold is_digit, byte_in. rewrite digit_code by lia. lia.
Qed.

Lemma width_minimal fuel w n : width fuel w n = w \/ 10 ^ (Z.of_nat (width fuel w n) - 1) <= n.
Proof.
  revert w. induction fuel as [|fuel IH]; intros w; [by left|]. cbn [width].
  destruct (n <? 10 ^ Z.of_nat w) eqn:E; [by left|]. right.
  destruct (IH (S w)) as [->|H]; [|done]. replace (Z.of_nat (S w) - 1) with (Z.of_nat w) by lia. lia.
Qed.

Lemma span_all_digits ds : Forall (fun c => is_digit c = true) ds -> span_digits ds = (ds, []).
Proof. induction 1 as [|c ds Hc _ IH]; [done|]. cbn. by rewrite Hc, IH. Qed.

Lemma digit_range k : 1 <= k <= 9 ->
  byte_is 45 (digit k) = false /\ byte_is 48 (digit k) = false /\ byte_in 49 57 (digit k) = true.
Proof. intros H. unfold byte_is, byte_in. rewrite digit_code by lia. lia. Qed.

Lemma decimal_valid n : 0 <= n -> valid_number (decimal 1 n).
Proof.
  intros Hn. unfold decimal. rewrite (proj2 (Z.ltb_ge n 0)) by lia.
  destruct (decide (n = 0)) as [->|Hn0]; [exists [digit 0], []; reflexivity|].
  pose proof (width_least (Z.to_nat (Z.log2 n)) 1 n) as Hw. pose proof (decimal_width 1 n ltac:(lia) Hn) as Hup.
  pose proof (width_minimal (Z.to_nat (Z.log2 n)) 1 n) as Hmin. set (k := width _ 1 n) in *.
  destruct k as [|w]; [lia|]. destruct (pad_digits_head w n Hn) as (ds & -> & Hds).
  assert (1 <= n / 10 ^ Z.of_nat w <= 9) as Hd.
  { rewrite Nat2Z.inj_succ, Z.pow_succ_r in Hup by lia. assert (0 < 10 ^ Z.of_nat w) by (apply Z.pow_pos_nonneg; lia).
    split; [|assert (n / 10 ^ Z.of_nat w < 10) by (apply Z.div_lt_upper_bound; lia); lia].
    apply Z.div_le_lower_bound; [done|]. rewrite Z.mul_1_r. destruct Hmin as [Hm|Hm].
    - assert (w = 0%nat) as -> by lia. cbn. lia.
    - replace (Z.of_nat (S w) - 1) with (Z.of_nat w) in Hm by lia. done. }
  rewrite Z.mod_small by lia. set (c := digit _). destruct (digit_range _ Hd) as (H1 & H2 & H3). fold c in H1, H2, H3.
  exists (c :: ds), []. unfold parse_number, parse_sign. rewrite H1. unfold parse_integer. rewrite H2, H3.
  rewrite span_all_digits by done. cbn [parse_fraction parse_exponent]. by rewrite !app_nil_r.
Qed.

Lemma decimal_inj n m : 0 <= n -> 0 <= m -> decimal 1 n = decimal 1 m -> n = m.
Proof.
  intros Hn Hm H. apply (decimal_app_inj 1 n m (ascii_of_N 44) [] (ascii_of_N 44) []); [lia|done..|by rewrite H].
Qed.

Lemma reads_int d n : 0 <= n -> reads d (decimal 1 n) (RNumber (decimal 1 n)).
Proof. intros H. by apply reads_number, decimal_valid. Qed.
