(* ===== verification/GoFloatText.v ===== *)
(** * The JSON text of a float64

    [encoding/json] writes the shortest decimal that reads back as the float,
    in the form [%f], or [%e] for small and large magnitudes. *)

From Stdlib Require Import Ascii String Floats.SpecFloat.
From S2P Require Import Prelude GoString GoJson GoParse GoFloat GoTimeFormat.

(** A positive float as a fraction. *)
Definition f_fraction (m : positive) (e : Z) : Z * Z :=
  if 0 <=? e then (Z.pos m * 2 ^ e, 1) else (Z.pos m, 2 ^ (- e)).

(** The number of decimal digits of a positive integer. *)
Definition digit_count (n : Z) : Z := Z.of_nat (length (decimal 1 n)).

(** The least [j], from [j] on, with [den <= num * 10^j]. *)
Fixpoint scale_up (fuel : nat) (num den j : Z) : Z :=
  match fuel with
  | O => j
  | S fuel => if den <=? num then j else scale_up fuel (num * 10) den (j + 1)
  end.

(** The power of ten of the first digit. *)
Definition magnitude (num den : Z) : Z :=
  if den <=? num then digit_count (num / den) - 1
  else - scale_up (S (Z.to_nat (Z.log2 den))) num den 0.

(** The decimals of [n] digits next to the float, below and above it, that read
    back as it: the closer one where both do. *)
Definition round_digits (m : positive) (e : Z) (n : Z) : option (Z * Z) :=
  let '(num, den) := f_fraction m e in
  let k := magnitude num den - (n - 1) in
  let '(num, den) := if 0 <=? k then (num, den * 10 ^ k) else (num * 10 ^ (- k), den) in
  let down := num / den in
  let rest := num mod den in
  let reads x := bool_decide (float_scaled false (Z.to_pos x) k = S754_finite false m e) && (0 <? x) in
  let up := if rest =? 0 then down else down + 1 in
  match reads down, reads up with
  | true, true => Some (if (2 * rest <? den) || ((2 * rest =? den) && Z.even down) then down else up, k)
  | true, false => Some (down, k)
  | false, true => Some (up, k)
  | false, false => None
  end.

(** The fewest digits, from [n] on; every float has a decimal of its own. *)
Fixpoint shortest (fuel : nat) (m : positive) (e n : Z) : Z * Z :=
  match fuel with
  | O => if 0 <=? e then (Z.pos m * 2 ^ e, 0) else (Z.pos m * 5 ^ (- e), e)
  | S fuel =>
      match round_digits m e n with
      | Some d => d
      | None => shortest fuel m e (n + 1)
      end
  end.

(** Digits without trailing zeros, and the position of the point: the value is
    0.digits * 10^point. *)
Definition decimal_digits (v k : Z) : bytes * Z :=
  let ds := decimal 1 v in
  (rev (drop_zeros (rev ds)), Z.of_nat (length ds) + k).

Definition zeros (n : Z) : bytes := replicate (Z.to_nat n) (digit 0).

(** [%f] *)
Definition format_f (ds : bytes) (point : Z) : bytes :=
  let n := Z.of_nat (length ds) in
  let int := if 0 <? point then take (Z.to_nat point) ds ++ zeros (point - n) else [digit 0] in
  let frac := if 0 <? point then drop (Z.to_nat point) ds else zeros (- point) ++ ds in
  int ++ (if frac == [] then [] else byte_of 46 :: frac).

(** [%e], where [e-09] is written [e-9]. *)
Definition format_e (ds : bytes) (point : Z) : bytes :=
  let exponent := point - 1 in
  take 1 ds ++ (if drop 1 ds == [] then [] else byte_of 46 :: drop 1 ds) ++
  byte_of 101 :: byte_of (if exponent <? 0 then 45 else 43) ::
  decimal (if exponent <? 0 then 1 else 2) (Z.abs exponent).

(** 1e-6 and 1e21, where the form changes. *)
Definition f_small : float64 := Eval vm_compute in float_scaled false 1 (-6).
Definition f_large : float64 := Eval vm_compute in float_scaled false 1 21.

(** The text of a float; NaN and the infinities have none. *)
Definition MarshalFloat (x : float64) : option bytes :=
  match x with
  | S754_zero s => Some ((if s then [byte_of 45] else []) ++ [digit 0])
  | S754_finite s m e =>
      let '(v, k) := shortest 17 m e 1 in
      let '(ds, point) := decimal_digits v k in
      let a := S754_finite false m e in
      Some ((if s then [byte_of 45] else []) ++
            if f_lt a f_small || f_ge a f_large then format_e ds point else format_f ds point)
  | _ => None
  end.

Example MarshalFloat_samples :
  MarshalFloat (f_ratio 1 10) = Some (bytes_of "0.1") /\ MarshalFloat (f_ratio (-2) 3) = Some (bytes_of "-0.6666666666666666") /\
  MarshalFloat (f_of_Z 100) = Some (bytes_of "100") /\ MarshalFloat f_zero = Some (bytes_of "0") /\
  MarshalFloat (float_scaled false 5 (-324)) = Some (bytes_of "5e-324") /\
  MarshalFloat (float_scaled false 1234 (-10)) = Some (bytes_of "1.234e-7") /\
  MarshalFloat (float_scaled false 1 21) = Some (bytes_of "1e+21") /\
  MarshalFloat (f_ratio 19 20) = Some (bytes_of "0.95") /\ MarshalFloat (float_scaled false 9007199254740993 0) = Some (bytes_of "9007199254740992").
Proof. split_and!; vm_compute; reflexivity. Qed.
