(* ===== verification/GoZip.v ===== *)
(** * Zip files ([archive/zip])

    The bytes that the writer makes of stored files, and the reader: the end of the
    directory with its 64-bit form, the headers of the directory with their extra
    fields, and the content of a file with its descriptor and checksum. What the
    reader finds in what the writer wrote. *)

From Stdlib Require Import Ascii String.
From S2P Require Import Prelude GoString GoJson.

Module zip.

(** ** Little-endian words *)

Fixpoint le_bytes (w : nat) (n : Z) : bytes :=
  match w with
  | O => []
  | S w => ascii_of_N (Z.to_N (n mod 256)) :: le_bytes w (n / 256)
  end.

Fixpoint le_value (b : bytes) : Z :=
  match b with
  | [] => 0
  | c :: b => Z.of_N (N_of_ascii c) + 256 * le_value b
  end.

Definition u16 : Z -> bytes := le_bytes 2.
Definition u32 : Z -> bytes := le_bytes 4.

(** [int64] of a [uint64] *)
Definition int64_of (n : Z) : Z := if n <? 2 ^ 63 then n else n - 2 ^ 64.

(** A word of [w] bytes off the front. *)
Definition word (w : nat) (b : bytes) : option (Z * bytes) :=
  if (length b <? w)%nat then None else Some (le_value (take w b), drop w b).

(** ** Checksums ([hash/crc32], IEEE) *)

Definition crc_bit (crc : Z) : Z :=
  if Z.testbit crc 0 then Z.lxor (Z.shiftr crc 1) 3988292384 else Z.shiftr crc 1.

Definition crc_byte (crc : Z) (c : ascii) : Z := Nat.iter 8 crc_bit (Z.lxor crc (Z.of_N (N_of_ascii c))).

Definition crc32 (b : bytes) : Z := Z.land (Z.lxor (fold_left crc_byte b 4294967295) 4294967295) (Z.ones 32).

Example crc32_sample : crc32 (bytes_of "123456789") = 3421780262.
Proof. vm_compute. reflexivity. Qed.

(** ** The writer *)

Definition fileHeaderSignature : Z := 67324752.
Definition directoryHeaderSignature : Z := 33639248.
Definition directoryEndSignature : Z := 101010256.
Definition directory64LocSignature : Z := 117853008.
Definition directory64EndSignature : Z := 101075792.
Definition dataDescriptorSignature : Z := 134695760.
Definition uint16max : Z := 2 ^ 16 - 1.
Definition uint32max : Z := 2 ^ 32 - 1.

(** A stored file with its name, of the writer's only kind: mode 0600 and the first
    moment of 1980 as its time. *)
Record Entry := MkEntry {
  path : string;
  payload : bytes
}.

#[global] Instance Entry_eq_dec : EqDecision Entry.
Proof. solve_decision. Defined.

(** [detectUTF8]: whether the name is UTF-8 and not of the common part of the old
    encodings. *)
Definition requires_utf8 (b : bytes) : bool :=
  let runes := json.runes b in
  forallb (fun r => match r with Some _ => true | None => false end) runes &&
  existsb (fun r => match r with Some u => (u <? 32)%N || (125 <? u)%N || (u =? 92)%N | None => false end) runes.

Definition flags (name : bytes) : Z := if requires_utf8 name then 2048 + 8 else 8.

(** The extended timestamp: tag, size, one flag, the seconds since 1970. *)
Definition extra : bytes := u16 21589 ++ u16 5 ++ [ascii_of_N 1] ++ u32 315532800.

(** The version, flags, method (stored), time and date, as the header of a file and
    the directory have them. *)
Definition common (name : bytes) : bytes := u16 20 ++ u16 (flags name) ++ u16 0 ++ u16 0 ++ u16 33.

(** [writeHeader]: checksum and sizes follow the content. *)
Definition fileHeader (name : bytes) : bytes :=
  u32 fileHeaderSignature ++ common name ++ u32 0 ++ u32 0 ++ u32 0 ++
  u16 (Z.of_nat (length name)) ++ u16 (Z.of_nat (length extra)).

Definition dataDescriptor (content : bytes) : bytes :=
  u32 dataDescriptorSignature ++ u32 (crc32 content) ++ u32 (Z.of_nat (length content)) ++ u32 (Z.of_nat (length content)).

Definition local (e : Entry) : bytes :=
  let name := bytes_of (path e) in
  fileHeader name ++ name ++ extra ++ payload e ++ dataDescriptor (payload e).

(** The header of a file in the directory, with the place of its content. *)
Definition directoryHeader (e : Entry) (offset : Z) : bytes :=
  let name := bytes_of (path e) in
  u32 directoryHeaderSignature ++ u16 (3 * 256 + 20) ++ common name ++ u32 (crc32 (payload e)) ++
  u32 (Z.of_nat (length (payload e))) ++ u32 (Z.of_nat (length (payload e))) ++
  u16 (Z.of_nat (length name)) ++ u16 (Z.of_nat (length extra)) ++ u16 0 ++ u16 0 ++ u16 0 ++
  u32 (33152 * 65536) ++ u32 offset ++ name ++ extra.

Fixpoint locals (l : list Entry) : bytes :=
  match l with
  | [] => []
  | e :: l => local e ++ locals l
  end.

Fixpoint directory (offset : Z) (l : list Entry) : bytes :=
  match l with
  | [] => []
  | e :: l => directoryHeader e offset ++ directory (offset + Z.of_nat (length (local e))) l
  end.

(** The end record, of an archive below the limits of the 32-bit form. *)
Definition directoryEnd (records size offset : Z) : bytes :=
  u32 directoryEndSignature ++ u16 0 ++ u16 0 ++ u16 records ++ u16 records ++ u32 size ++ u32 offset ++ u16 0.

Definition archive (l : list Entry) : bytes :=
  let files := locals l in
  let dir := directory 0 l in
  files ++ dir ++ directoryEnd (Z.of_nat (length l)) (Z.of_nat (length dir)) (Z.of_nat (length files)).

(** ** The reader *)

(** The bytes from an offset on; an offset outside has none. *)
Definition from (offset : Z) (b : bytes) : bytes :=
  if (offset <? 0) || (Z.of_nat (length b) <? offset) then [] else drop (Z.to_nat offset) b.

Record directoryEndRecord := MkDirectoryEnd {
  directoryRecords : Z;
  directorySize : Z;
  directoryOffset : Z
}.

Record File := MkFile {
  Name : string;
  CreatorVersion : Z;
  Flags : Z;
  Method : Z;
  CRC32 : Z;
  CompressedSize64 : Z;
  UncompressedSize64 : Z;
  ExternalAttrs : Z;
  headerOffset : Z
}.

(** How reading a header ends: [io.EOF] is an error of its own. *)
Inductive HeaderError :=
  | ErrHeaderEOF
  | ErrFormat.

(** The 64-bit sizes and the offset, from the extra fields. *)
Record wide := MkWide {
  needUSize : bool;
  needCSize : bool;
  needHeaderOffset : bool;
  wideUSize : Z;
  wideCSize : Z;
  wideOffset : Z
}.

Definition zip64Field (field : bytes) (w : wide) : option wide :=
  match (if needUSize w then word 8 field else Some (wideUSize w, field)) with
  | None => None
  | Some (usize, field) =>
      match (if needCSize w then word 8 field else Some (wideCSize w, field)) with
      | None => None
      | Some (csize, field) =>
          match (if needHeaderOffset w then (fun p => (int64_of p.1, p.2)) <$> word 8 field else Some (wideOffset w, field)) with
          | None => None
          | Some (offset, _) => Some (MkWide false false false usize csize offset)
          end
      end
  end.

(** The loop [parseExtras]; the other fields are about times. *)
Fixpoint parseExtras (fuel : nat) (b : bytes) (w : wide) : option wide :=
  match fuel with
  | O => Some w
  | S fuel =>
      match word 2 b with
      | None => Some w
      | Some (tag, b) =>
          match word 2 b with
          | None => Some w
          | Some (size, b) =>
              if Z.of_nat (length b) <? size then Some w else
              let field := take (Z.to_nat size) b in
              let b := drop (Z.to_nat size) b in
              if tag =? 1 then
                match zip64Field field w with
                | None => None
                | Some w => parseExtras fuel b w
                end
              else parseExtras fuel b w
          end
      end
  end.

(** The word of [w] bytes at [i]. *)
Definition at_ (w i : nat) (b : bytes) : Z := le_value (take w (drop i b)).

(** [readDirectoryHeader], and the rest. *)
Definition readDirectoryHeader (b : bytes) : outcome HeaderError (File * bytes) :=
  match b with
  | [] => Err ErrHeaderEOF
  | _ =>
  if (length b <? 46)%nat then Err ErrFormat else
  if at_ 4 0 b != directoryHeaderSignature then Err ErrFormat else
  let filenameLen := Z.to_nat (at_ 2 28 b) in
  let extraLen := Z.to_nat (at_ 2 30 b) in
  let commentLen := Z.to_nat (at_ 2 32 b) in
  let rest := drop 46 b in
  if (length rest <? filenameLen + extraLen + commentLen)%nat then
    (if bool_decide (rest = []) then Err ErrHeaderEOF else Err ErrFormat)
  else
  let csize := at_ 4 20 b in
  let usize := at_ 4 24 b in
  let offset := at_ 4 42 b in
  match parseExtras (1 + extraLen) (take extraLen (drop filenameLen rest))
          (MkWide (usize =? uint32max) (csize =? uint32max) (offset =? uint32max) usize csize offset) with
  | None => Err ErrFormat
  | Some w =>
      if needCSize w || needHeaderOffset w then Err ErrFormat else
      Ok (MkFile (string_of (take filenameLen rest)) (at_ 2 4 b) (at_ 2 8 b) (at_ 2 10 b) (at_ 4 16 b)
            (wideCSize w) (wideUSize w) (at_ 4 38 b) (wideOffset w),
          drop (filenameLen + extraLen + commentLen) rest)
  end
  end.

(** [findSignatureInBlock], from the index [i] down. *)
Fixpoint findSignature (i : nat) (b : bytes) : option nat :=
  if at_ 4 i b =? directoryEndSignature then
    (if (Z.of_nat (length b) <? at_ 2 (i + 20) b + 22 + Z.of_nat i) then None else Some i)
  else
    match i with
    | O => None
    | S i => findSignature i b
    end.

Definition findSignatureInBlock (b : bytes) : option nat :=
  if (length b <? 22)%nat then None else findSignature (length b - 22) b.

(** The last [n] bytes. *)
Definition tail_block (n : Z) (b : bytes) : bytes := from (Z.max 0 (Z.of_nat (length b) - n)) b.

(** The offset of the end record: in the last 1k, then in the last 65k. *)
Definition findDirectoryEnd (b : bytes) : option Z :=
  let here n := (fun p => Z.max 0 (Z.of_nat (length b) - n) + Z.of_nat p) <$> findSignatureInBlock (tail_block n b) in
  match here 1024 with
  | Some offset => Some offset
  | None => if Z.of_nat (length b) <=? 1024 then None else here (65 * 1024)
  end.

(** [findDirectory64End]: [None] for no locator. *)
Definition findDirectory64End (b : bytes) (directoryEndOffset : Z) : option Z :=
  let locOffset := directoryEndOffset - 20 in
  if locOffset <? 0 then None else
  let r := from locOffset b in
  if (at_ 4 0 r =? directory64LocSignature) && (at_ 4 4 r =? 0) && (at_ 4 16 r =? 1)
  then Some (int64_of (at_ 8 8 r)) else None.

(** [readDirectory64End] *)
Definition readDirectory64End (b : bytes) (offset : Z) : option directoryEndRecord :=
  let r := from offset b in
  if (offset <? 0) || (length r <? 56)%nat || (at_ 4 0 r != directory64EndSignature) then None else
  Some (MkDirectoryEnd (at_ 8 32 r) (at_ 8 40 r) (at_ 8 48 r)).

(** [readDirectoryEnd]: the record and the offset of the archive in its file. *)
Definition readDirectoryEnd (b : bytes) : option (directoryEndRecord * Z) :=
  match findDirectoryEnd b with
  | None => None
  | Some offset =>
      let r := from offset b in
      let d := MkDirectoryEnd (at_ 2 10 r) (at_ 4 12 r) (at_ 4 16 r) in
      let wide :=
        if (directoryRecords d =? uint16max) || (directorySize d =? uint16max) || (directoryOffset d =? uint32max) then
          match findDirectory64End b offset with
          | Some p => if p <? 0 then Some (d, offset) else (fun d => (d, p)) <$> readDirectory64End b p
          | None => Some (d, offset)
          end
        else Some (d, offset) in
      match wide with
      | None => None
      | Some (d, offset) =>
          if (i64_max <? directorySize d) || (i64_max <? directoryOffset d) then None else
          let baseOffset := offset - directorySize d - directoryOffset d in
          let o := baseOffset + directoryOffset d in
          if (o <? 0) || (Z.of_nat (length b) <=? o) then None else
          if (0 <? baseOffset) && match readDirectoryHeader (from (directoryOffset d) b) with Ok _ => true | Err _ => false end
          then Some (d, 0) else Some (d, baseOffset)
      end
  end.

(** The loop of [init]: headers until a bad one. *)
Fixpoint readHeaders (fuel : nat) (baseOffset : Z) (b : bytes) : outcome HeaderError (list File) :=
  match fuel with
  | O => Ok []
  | S fuel =>
      match readDirectoryHeader b with
      | Err ErrFormat => Ok []
      | Err ErrHeaderEOF => Err ErrHeaderEOF
      | Ok (f, rest) =>
          let! files := readHeaders fuel baseOffset rest in
          Ok (MkFile (Name f) (CreatorVersion f) (Flags f) (Method f) (CRC32 f) (CompressedSize64 f)
                (UncompressedSize64 f) (ExternalAttrs f) (headerOffset f + baseOffset) :: files)
      end
  end.

(** [NewReader]: the files of the directory, [None] for an error. *)
Definition NewReader (b : bytes) : option (list File) :=
  match readDirectoryEnd b with
  | None => None
  | Some (d, baseOffset) =>
      match readHeaders (length b) baseOffset (from (baseOffset + directoryOffset d) b) with
      | Err _ => None
      | Ok files =>
          if (Z.of_nat (length files) mod 2 ^ 16 =? directoryRecords d mod 2 ^ 16) then Some files else None
      end
  end.

(** [FileInfo().IsDir()] *)
Definition IsDir (f : File) : bool :=
  let creator := Z.shiftr (CreatorVersion f) 8 in
  (if (creator =? 3) || (creator =? 19) then Z.land (Z.shiftr (ExternalAttrs f) 16) 61440 =? 16384
   else if (creator =? 0) || (creator =? 11) || (creator =? 14) then Z.testbit (ExternalAttrs f) 4
   else false) ||
  match last (bytes_of (Name f)) with Some c => byte_is 47 c | None => false end.

(** [readDataDescriptor]: the checksum is that of the directory. *)
Definition descriptorAgrees (f : File) (b : bytes) : bool :=
  let b := take 16 b in
  if (length b <? 4)%nat then false else
  let b := if at_ 4 0 b =? dataDescriptorSignature then drop 4 b else b in
  (12 <=? length b)%nat && (at_ 4 0 b =? CRC32 f).

(** [Open] and [io.ReadAll]: the content of a stored file. *)
Definition readFile (archive : bytes) (f : File) : option bytes :=
  let b := from (headerOffset f) archive in
  if (headerOffset f <? 0) || (length b <? 30)%nat || (at_ 4 0 b != fileHeaderSignature) then None else
  let bodyOffset := headerOffset f + (30 + at_ 2 26 b + at_ 2 28 b) in
  let size := int64_of (CompressedSize64 f) in
  let body := from bodyOffset archive in
  let content := take (Z.to_nat (Z.min size (Z.of_nat (length body)))) body in
  if negb (Z.of_nat (length content) =? UncompressedSize64 f) then None else
  if Z.testbit (Flags f) 3 then
    if descriptorAgrees f (from (bodyOffset + size) archive) && (crc32 content =? CRC32 f) then Some content else None
  else if (CRC32 f =? 0) || (crc32 content =? CRC32 f) then Some content else None.

(** ** Words read back *)

Lemma le_bytes_length w n : length (le_bytes w n) = w.
Proof. revert n. induction w as [|w IH]; intros n; [done|]. cbn. by rewrite IH. Qed.

Lemma le_value_bytes w n : le_value (le_bytes w n) = n mod 256 ^ Z.of_nat w.
Proof.
  revert n. induction w as [|w IH]; intros n; [by rewrite Z.mod_1_r|]. cbn [le_bytes le_value]. rewrite IH.
  rewrite N_ascii_embedding by (pose proof (Z.mod_pos_bound n 256); lia). rewrite Z2N.id by (apply Z.mod_pos_bound; lia).
  rewrite Nat2Z.inj_succ, Z.pow_succ_r by lia. rewrite Z.rem_mul_r by lia. done.
Qed.

Lemma at_here w n b : 0 <= n < 256 ^ Z.of_nat w -> at_ w 0 (le_bytes w n ++ b) = n.
Proof.
  intros H. unfold at_. rewrite drop_0, take_app_length' by (by rewrite le_bytes_length). by rewrite le_value_bytes, Z.mod_small.
Qed.

Lemma at_skip w k i n b : at_ w (k + i) (le_bytes k n ++ b) = at_ w i b.
Proof. unfold at_. by rewrite <- drop_drop, drop_app_length' by (by rewrite le_bytes_length). Qed.

Lemma at_app w a i b : at_ w (length a + i) (a ++ b) = at_ w i b.
Proof. unfold at_. by rewrite <- drop_drop, drop_app_length. Qed.

(** The word at a position of a list of words. *)
Ltac read_at :=
  repeat first
    [ rewrite at_here by (cbn; lia)
    | lazymatch goal with
      | |- context [at_ ?w ?i (le_bytes ?k ?n ++ ?b)] =>
          let i' := eval vm_compute in (i - k)%nat in change (at_ w i (le_bytes k n ++ b)) with (at_ w (k + i') (le_bytes k n ++ b));
          rewrite at_skip
      end ].

Lemma drop_skip k i n b : drop (k + i) (le_bytes k n ++ b) = drop i b.
Proof. by rewrite <- drop_drop, drop_app_length' by (by rewrite le_bytes_length). Qed.

(** What follows a list of words. *)
Ltac read_rest :=
  repeat
    lazymatch goal with
    | |- context [drop ?i (le_bytes ?k ?n ++ ?b)] =>
        let i' := eval vm_compute in (i - k)%nat in change (drop i (le_bytes k n ++ b)) with (drop (k + i') (le_bytes k n ++ b));
        rewrite drop_skip
    end; rewrite drop_0.

(** Rewrites the word at [i] of [B] into [v], by the words of [B]. *)
Ltac field w i B E v :=
  assert (at_ w i B = v) as -> by (rewrite E; unfold u16, u32; read_at; reflexivity).

Lemma from_app a b : from (Z.of_nat (length a)) (a ++ b) = b.
Proof.
  unfold from. rewrite length_app. destruct (_ || _) eqn:E.
  - rewrite orb_true_iff, !Z.ltb_lt in E. lia.
  - by rewrite Nat2Z.id, drop_app_length.
Qed.

Lemma flags_range name : 0 <= flags name < 2 ^ 16.
Proof. unfold flags. destruct (requires_utf8 name); lia. Qed.

Lemma crc32_range b : 0 <= crc32 b < 2 ^ 32.
Proof. unfold crc32. rewrite Z.land_ones by lia. apply Z.mod_pos_bound. lia. Qed.

Lemma extra_length : length extra = 9%nat.
Proof. reflexivity. Qed.

Lemma local_length e : length (local e) = (55 + length (bytes_of (path e)) + length (payload e))%nat.
Proof.
  unfold local, fileHeader, common, dataDescriptor, u16, u32. rewrite !length_app, !le_bytes_length, extra_length. lia.
Qed.

Lemma directoryHeader_length e offset : length (directoryHeader e offset) = (55 + length (bytes_of (path e)))%nat.
Proof. unfold directoryHeader, common, u16, u32. rewrite !length_app, !le_bytes_length, extra_length. lia. Qed.

(** ** The files of an archive *)

(** What the format can hold of a file. *)
Definition entry_fits (e : Entry) : Prop :=
  Z.of_nat (length (bytes_of (path e))) < 2 ^ 16 /\ Z.of_nat (length (payload e)) < 2 ^ 32 - 1.

Definition file_of (e : Entry) (offset : Z) : File :=
  MkFile (path e) (3 * 256 + 20) (flags (bytes_of (path e))) 0 (crc32 (payload e)) (Z.of_nat (length (payload e)))
    (Z.of_nat (length (payload e))) (33152 * 65536) offset.

Fixpoint files_of (offset : Z) (l : list Entry) : list File :=
  match l with
  | [] => []
  | e :: l => file_of e offset :: files_of (offset + Z.of_nat (length (local e))) l
  end.

Lemma files_of_length offset l : length (files_of offset l) = length l.
Proof. revert offset. induction l as [|e l IH]; intros offset; [done|]. cbn [files_of length]. by rewrite IH. Qed.

Lemma parse_extra fuel w : parseExtras (S (S fuel)) extra w = Some w.
Proof. reflexivity. Qed.

Lemma readDirectoryHeader_here e offset b :
  entry_fits e -> 0 <= offset < 2 ^ 32 - 1 ->
  readDirectoryHeader (directoryHeader e offset ++ b) = Ok (file_of e offset, b).
Proof.
  intros [Hn Hp] Ho. pose proof (flags_range (bytes_of (path e))) as Hf. pose proof (crc32_range (payload e)) as Hc.
  pose proof (directoryHeader_length e offset) as Hl.
  unfold readDirectoryHeader. destruct (directoryHeader e offset ++ b) as [|c0 b0] eqn:E0.
  { apply (f_equal length) in E0. rewrite length_app, Hl in E0. cbn in E0. lia. }
  rewrite <- E0. clear c0 b0 E0. replace (_ <? 46)%nat with false by (symmetry; apply Nat.ltb_ge; rewrite length_app; lia).
  assert (directoryHeader e offset ++ b = u32 directoryHeaderSignature ++ u16 (3 * 256 + 20) ++ u16 20 ++
    u16 (flags (bytes_of (path e))) ++ u16 0 ++ u16 0 ++ u16 33 ++ u32 (crc32 (payload e)) ++
    u32 (Z.of_nat (length (payload e))) ++ u32 (Z.of_nat (length (payload e))) ++
    u16 (Z.of_nat (length (bytes_of (path e)))) ++ u16 9 ++ u16 0 ++ u16 0 ++ u16 0 ++
    u32 (33152 * 65536) ++ u32 offset ++ bytes_of (path e) ++ extra ++ b) as E.
  { unfold directoryHeader, common. rewrite <- !app_assoc. reflexivity. }
  set (B := directoryHeader e offset ++ b) in *.
  field 4%nat 0%nat B E directoryHeaderSignature. field 2%nat 28%nat B E (Z.of_nat (length (bytes_of (path e)))).
  field 2%nat 30%nat B E 9. field 2%nat 32%nat B E 0. field 4%nat 20%nat B E (Z.of_nat (length (payload e))).
  field 4%nat 24%nat B E (Z.of_nat (length (payload e))). field 4%nat 42%nat B E offset.
  field 2%nat 4%nat B E (3 * 256 + 20). field 2%nat 8%nat B E (flags (bytes_of (path e))). field 2%nat 10%nat B E 0.
  field 4%nat 16%nat B E (crc32 (payload e)). field 4%nat 38%nat B E (33152 * 65536).
  assert (drop 46 B = bytes_of (path e) ++ extra ++ b) as -> by (rewrite E; unfold u16, u32; by read_rest).
  rewrite Nat2Z.id. change (Z.to_nat 9) with (length extra). change (Z.to_nat 0) with 0%nat.
  replace (_ <? _)%nat with false by (symmetry; apply Nat.ltb_ge; rewrite !length_app; lia).
  rewrite drop_app_length, take_app_length, take_app_length. change (1 + length extra)%nat with 10%nat. rewrite parse_extra.
  cbn [needCSize needHeaderOffset wideCSize wideUSize wideOffset].
  unfold uint32max. replace (Z.of_nat (length (payload e)) =? 2 ^ 32 - 1) with false by lia.
  replace (offset =? 2 ^ 32 - 1) with false by lia. cbn [orb]. rewrite string_of_bytes_of.
  rewrite Nat.add_0_r, <- drop_drop, drop_app_length, drop_app_length. reflexivity.
Qed.

(** What the reader needs of a list of files at an offset. *)
Definition entries_fit (offset : Z) (l : list Entry) : Prop :=
  Forall entry_fits l /\ 0 <= offset /\ offset + Z.of_nat (length (locals l)) < 2 ^ 32 - 1.

Lemma entries_fit_cons offset e l :
  entries_fit offset (e :: l) ->
  entry_fits e /\ 0 <= offset < 2 ^ 32 - 1 /\ entries_fit (offset + Z.of_nat (length (local e))) l.
Proof.
  intros (Hl & Ho & Hs). cbn [locals] in Hs. rewrite length_app in Hs.
  split; [by inversion Hl|]. split; [lia|]. split; [by inversion Hl|]. lia.
Qed.

Lemma readHeaders_directory fuel offset l b :
  entries_fit offset l -> (length l < fuel)%nat -> readDirectoryHeader b = Err ErrFormat ->
  readHeaders fuel 0 (directory offset l ++ b) = Ok (files_of offset l).
Proof.
  intros Hf Hl Hb. revert fuel offset Hf Hl. induction l as [|e l IH]; intros [|fuel] offset Hf Hl; try (cbn in Hl; lia).
  { cbn [directory files_of app readHeaders]. by rewrite Hb. }
  apply entries_fit_cons in Hf as (He & Ho & Hf). cbn [directory readHeaders]. rewrite <- app_assoc.
  rewrite readDirectoryHeader_here by done. cbn [obind]. rewrite IH by (try done; cbn in Hl; lia).
  cbn [obind files_of]. unfold file_of at 1. cbn. rewrite Z.add_0_r. reflexivity.
Qed.

(** ** The end of the directory *)

Lemma directoryEnd_length n s o : length (directoryEnd n s o) = 22%nat.
Proof. reflexivity. Qed.

Lemma directoryEnd_no_header n s o : readDirectoryHeader (directoryEnd n s o) = Err ErrFormat.
Proof. reflexivity. Qed.

Lemma tail_block_app a b n :
  Z.of_nat (length b) <= n -> exists c, tail_block n (a ++ b) = c ++ b /\
    Z.max 0 (Z.of_nat (length (a ++ b)) - n) + Z.of_nat (length c) = Z.of_nat (length a).
Proof.
  intros H. unfold tail_block, from. rewrite length_app. destruct (_ || _) eqn:E.
  { rewrite orb_true_iff, !Z.ltb_lt in E. lia. }
  exists (drop (Z.to_nat (Z.max 0 (Z.of_nat (length a + length b) - n))) a).
  rewrite drop_app_le by lia. split; [done|]. rewrite length_drop. lia.
Qed.

Lemma findSignatureInBlock_end a n s o : findSignatureInBlock (a ++ directoryEnd n s o) = Some (length a).
Proof.
  unfold findSignatureInBlock. rewrite length_app, directoryEnd_length.
  replace (_ <? 22)%nat with false by (symmetry; apply Nat.ltb_ge; lia).
  replace (length a + 22 - 22)%nat with (length a) by lia.
  assert (forall w i, at_ w (length a + i) (a ++ directoryEnd n s o) = at_ w i (directoryEnd n s o)) as Ha by (intros; apply at_app).
  assert (at_ 4 (length a) (a ++ directoryEnd n s o) = directoryEndSignature) as Hs.
  { rewrite <- (Nat.add_0_r (length a)), Ha. reflexivity. }
  assert (at_ 2 (length a + 20) (a ++ directoryEnd n s o) = 0) as Hc by (rewrite Ha; reflexivity).
  destruct (length a) as [|k] eqn:El; cbn [findSignature]; rewrite Hs, Hc, length_app, El, directoryEnd_length, Z.eqb_refl.
  all: replace (_ <? _) with false by lia; done.
Qed.

Lemma findDirectoryEnd_end a n s o : findDirectoryEnd (a ++ directoryEnd n s o) = Some (Z.of_nat (length a)).
Proof.
  unfold findDirectoryEnd. destruct (tail_block_app a (directoryEnd n s o) 1024) as (c & Hc & Hl); [rewrite directoryEnd_length; lia|].
  rewrite Hc, findSignatureInBlock_end. cbn [fmap option_fmap option_map]. by rewrite Hl.
Qed.

(** The 64-bit locator is not there: the bytes before the end record are the time of
    the last file. *)
Lemma directory_tail offset l : l <> [] -> exists d, (16 <= length d)%nat /\ directory offset l = d ++ u32 315532800.
Proof.
  revert offset. induction l as [|e l IH]; intros offset H; [done|]. cbn [directory].
  destruct l as [|e' l].
  - destruct (directoryHeader_length e offset). cbn [directory]. rewrite app_nil_r.
    exists (take (51 + length (bytes_of (path e))) (directoryHeader e offset)). rewrite length_take, directoryHeader_length. split; [lia|].
    rewrite <- (take_drop (51 + length (bytes_of (path e))) (directoryHeader e offset)) at 1. f_equal.
    unfold directoryHeader, common, extra. rewrite !app_assoc. apply drop_app_length'.
    unfold u16, u32. rewrite !length_app, !le_bytes_length. cbn [length]. lia.
  - destruct (IH (offset + Z.of_nat (length (local e)))) as (d & Hd & E); [done|]. rewrite E.
    exists (directoryHeader e offset ++ d). rewrite app_assoc, length_app. split; [lia|done].
Qed.

Lemma no_locator l n s o : l <> [] ->
  findDirectory64End (locals l ++ directory 0 l ++ directoryEnd n s o) (Z.of_nat (length (locals l ++ directory 0 l))) = None.
Proof.
  intros H. destruct (directory_tail 0 l H) as (d & Hd & ->).
  rewrite <- (take_drop (length d - 16) d). set (d0 := take _ d). set (d1 := drop _ d).
  assert (length d1 = 16%nat) as H1 by (unfold d1; rewrite length_drop; lia).
  replace (locals l ++ ((d0 ++ d1) ++ u32 315532800) ++ directoryEnd n s o)
    with ((locals l ++ d0) ++ d1 ++ u32 315532800 ++ directoryEnd n s o) by (by rewrite <- !app_assoc).
  unfold findDirectory64End. cbv zeta. rewrite !length_app, H1. change (length (u32 315532800)) with 4%nat.
  replace (Z.of_nat _ - 20) with (Z.of_nat (length (locals l ++ d0))) by (rewrite length_app; lia).
  replace (_ <? 0) with false by lia. rewrite from_app.
  replace (at_ 4 16 _) with 315532800; [by rewrite andb_false_r|].
  rewrite <- (Nat.add_0_r 16), <- H1, at_app. reflexivity.
Qed.

(** What an archive can hold. *)
Definition archive_fits (l : list Entry) : Prop :=
  l <> [] /\ Forall entry_fits l /\ (length l < 2 ^ 16)%nat /\ Z.of_nat (length (archive l)) < 2 ^ 32 - 1.

Lemma archive_length l : length (archive l) = (length (locals l) + length (directory 0 l) + 22)%nat.
Proof. unfold archive. rewrite !length_app, directoryEnd_length. lia. Qed.

Lemma directory_length offset l : (55 * length l <= length (directory offset l))%nat.
Proof.
  revert offset. induction l as [|e l IH]; intros offset; [done|]. cbn [directory length]. rewrite length_app, directoryHeader_length.
  specialize (IH (offset + Z.of_nat (length (local e)))). lia.
Qed.

Lemma readDirectoryEnd_archive l : archive_fits l ->
  readDirectoryEnd (archive l) =
    Some (MkDirectoryEnd (Z.of_nat (length l)) (Z.of_nat (length (directory 0 l))) (Z.of_nat (length (locals l))), 0).
Proof.
  intros (Hne & _ & Hn & Hs). rewrite archive_length in Hs. pose proof (archive_length l) as Hl.
  unfold readDirectoryEnd. unfold archive at 1. rewrite app_assoc, findDirectoryEnd_end. cbv beta iota zeta.
  pose proof (no_locator l (Z.of_nat (length l)) (Z.of_nat (length (directory 0 l))) (Z.of_nat (length (locals l))) Hne) as Hno.
  set (D := directoryEnd (Z.of_nat (length l)) (Z.of_nat (length (directory 0 l))) (Z.of_nat (length (locals l)))) in *. change (archive l) with (locals l ++ directory 0 l ++ D) in *.
  rewrite (app_assoc (locals l)). rewrite from_app, <- (app_assoc (locals l)).
  assert (at_ 2 10 D = Z.of_nat (length l)) as -> by (unfold D, directoryEnd, u16, u32; read_at; reflexivity).
  assert (at_ 4 12 D = Z.of_nat (length (directory 0 l))) as -> by (unfold D, directoryEnd, u16, u32; read_at; reflexivity).
  assert (at_ 4 16 D = Z.of_nat (length (locals l))) as -> by (unfold D, directoryEnd, u16, u32; read_at; reflexivity).
  rewrite Hno. cbn [directoryRecords directorySize directoryOffset].
  match goal with |- context [if ?c then Some ?x else Some ?x] => replace (if c then Some x else Some x) with (Some x) by (by destruct c) end.
  cbn [directoryRecords directorySize directoryOffset]. unfold i64_max.
  replace (_ || _) with false by (symmetry; apply orb_false_iff; lia).
  replace (Z.of_nat (length (locals l ++ directory 0 l)) - _ - _) with 0 by (rewrite length_app; lia).
  replace (_ || _) with false by (symmetry; apply orb_false_iff; lia). reflexivity.
Qed.

(** The reader finds the files that were written. *)
Lemma NewReader_archive l : archive_fits l -> NewReader (archive l) = Some (files_of 0 l).
Proof.
  intros H. unfold NewReader. rewrite readDirectoryEnd_archive by done. destruct H as (Hne & He & Hn & Hs).
  rewrite archive_length in Hs. cbn [directoryOffset directoryRecords]. rewrite Z.add_0_l. unfold archive at 2. rewrite from_app.
  pose proof (directory_length 0 l).
  rewrite readHeaders_directory; [|split; [done|lia]|rewrite archive_length; lia|apply directoryEnd_no_header].
  by rewrite files_of_length, Z.eqb_refl.
Qed.

(** ** The content of a file *)

(** What comes before the content. *)
Definition prologue (e : Entry) : bytes := fileHeader (bytes_of (path e)) ++ bytes_of (path e) ++ extra.

Lemma local_prologue e : local e = prologue e ++ payload e ++ dataDescriptor (payload e).
Proof. unfold local, prologue. by rewrite <- !app_assoc. Qed.

Lemma prologue_length e : length (prologue e) = (30 + length (bytes_of (path e)) + 9)%nat.
Proof. unfold prologue, fileHeader, common, u16, u32. rewrite !length_app, !le_bytes_length, extra_length. lia. Qed.

Lemma prologue_words e b :
  entry_fits e ->
  at_ 4 0 (prologue e ++ b) = fileHeaderSignature /\ at_ 2 26 (prologue e ++ b) = Z.of_nat (length (bytes_of (path e))) /\
  at_ 2 28 (prologue e ++ b) = 9.
Proof.
  intros [Hn _]. pose proof (flags_range (bytes_of (path e))) as Hf.
  unfold prologue, fileHeader, common, u16, u32, fileHeaderSignature. rewrite <- !app_assoc.
  rewrite extra_length. repeat split; read_at; reflexivity.
Qed.

Lemma descriptor_agrees e offset b :
  entry_fits e -> descriptorAgrees (file_of e offset) (dataDescriptor (payload e) ++ b) = true.
Proof.
  intros [_ Hp]. pose proof (crc32_range (payload e)) as Hc. unfold descriptorAgrees. rewrite take_app_length' by done.
  cbn [CRC32 file_of]. unfold dataDescriptor, u32.
  replace (at_ 4 0 _) with dataDescriptorSignature by (rewrite at_here; [done|unfold dataDescriptorSignature; cbn; lia]).
  rewrite Z.eqb_refl. rewrite !length_app, !le_bytes_length. cbn [Nat.ltb Nat.leb Nat.add].
  rewrite drop_app_length' by (by rewrite le_bytes_length). rewrite !length_app, !le_bytes_length.
  rewrite at_here by (cbn; lia). by rewrite Z.eqb_refl.
Qed.

Lemma readFile_local a e b :
  entry_fits e -> readFile (a ++ local e ++ b) (file_of e (Z.of_nat (length a))) = Some (payload e).
Proof.
  intros He. pose proof He as [Hn Hp]. pose proof (prologue_length e) as Hl.
  unfold readFile. cbn [headerOffset file_of CompressedSize64 UncompressedSize64 Flags CRC32]. cbv zeta.
  rewrite from_app, local_prologue, <- !app_assoc.
  destruct (prologue_words e (payload e ++ dataDescriptor (payload e) ++ b) He) as (-> & -> & ->).
  replace (_ || _) with false by (rewrite length_app; symmetry; rewrite !orb_false_iff, Nat.ltb_ge, Z.ltb_ge; split; [split; lia|done]).
  replace (Z.of_nat (length a) + _) with (Z.of_nat (length (a ++ prologue e))) by (rewrite length_app, Hl; lia).
  replace (int64_of (Z.of_nat (length (payload e)))) with (Z.of_nat (length (payload e)))
    by (unfold int64_of; by replace (_ <? 2 ^ 63) with true by lia).
  replace (Z.of_nat (length (a ++ prologue e)) + _) with (Z.of_nat (length ((a ++ prologue e) ++ payload e))) by (rewrite length_app; lia).
  replace (a ++ prologue e ++ payload e ++ dataDescriptor (payload e) ++ b)
    with (((a ++ prologue e) ++ payload e) ++ dataDescriptor (payload e) ++ b) by (by rewrite <- !app_assoc).
  rewrite from_app, descriptor_agrees by done. rewrite <- (app_assoc (a ++ prologue e)), from_app.
  rewrite (length_app (payload e)), Z.min_l by lia. rewrite Nat2Z.id, take_app_length, Z.eqb_refl. cbn [negb andb].
  replace (Z.testbit (flags (bytes_of (path e))) 3) with true by (unfold flags; by destruct (requires_utf8 _)).
  by rewrite Z.eqb_refl.
Qed.

Lemma readFile_files_of a l b :
  Forall entry_fits l ->
  map (readFile (a ++ locals l ++ b)) (files_of (Z.of_nat (length a)) l) = map (fun e => Some (payload e)) l.
Proof.
  revert a. induction l as [|e l IH]; intros a Hf; [done|]. inversion Hf as [|? ? He Hl]; subst.
  cbn [files_of locals map]. rewrite <- !app_assoc, readFile_local by done. f_equal.
  replace (Z.of_nat (length a) + _) with (Z.of_nat (length (a ++ local e))) by (rewrite length_app; lia).
  rewrite app_assoc. by apply IH.
Qed.

(** Every file of an archive has the content that was written. *)
Lemma readFile_archive l : archive_fits l -> map (readFile (archive l)) (files_of 0 l) = map (fun e => Some (payload e)) l.
Proof. intros (_ & Hf & _). exact (readFile_files_of [] l _ Hf). Qed.

End zip.
