(* ===== verification/Responsibility.v ===== *)
(** * Responsibility for physical objects ([responsibility/])

    The aggregate holding the single responsible Participant of an Object
    ([aggregate.go]), the repository interface with its in-memory
    implementation ([repository.go]), the handover service ([service.go]) and
    the delivery claim ([delivery.go]). Errors are identified as [errors.Is]
    identifies them: the text a [fmt.Errorf] wraps around a sentinel is not
    kept. *)

From Stdlib Require Import Ascii String.
From S2P Require Import Prelude GoTime GoString GoCrypto.

Module responsibility.

Inductive Error :=
  | ErrObjectIDRequired
  | ErrParticipantIDRequired
  | ErrAssignmentTime
  | ErrInvalidSnapshot
  | ErrSameParticipant
  | ErrTransferTime
  | ErrTransferEventInvalid
  | ErrTransferAuditInvalid
  | ErrRepositoryRequired
  | ErrNotFound
  | ErrConcurrentModification
  | ErrInvalidVersionTransition
  | ErrInvalidTransferCommit
  | ErrTransferNotFound
  | ErrClaimLimitInvalid
  | ErrWorkerIDRequired
  | ErrLockDurationInvalid
  | ErrClaimTimeRequired
  | ErrPublicationTimeRequired
  | ErrDeliveryConflict.

#[global] Instance Error_eq_dec : EqDecision Error.
Proof. solve_decision. Defined.

(** ** Identities *)

Abbreviation PhysicalObjectID := string.
Abbreviation ParticipantID := string.

Definition NewPhysicalObjectID (value : string) : outcome Error PhysicalObjectID :=
  let value := TrimSpace value in
  if value == "" then Err ErrObjectIDRequired else Ok value.

Definition NewParticipantID (value : string) : outcome Error ParticipantID :=
  let value := TrimSpace value in
  if value == "" then Err ErrParticipantIDRequired else Ok value.

(** ** Data *)

Record Snapshot := MkSnapshot {
  ObjectID : PhysicalObjectID;
  ResponsibleID : ParticipantID;
  Version : Z;
  AssignedAt : Time
}.

#[global] Instance Snapshot_eq_dec : EqDecision Snapshot.
Proof. solve_decision. Defined.

#[global] Instance Snapshot_eta : Eta Snapshot :=
  fun s => MkSnapshot (ObjectID s) (ResponsibleID s) (Version s) (AssignedAt s).

Definition ZeroSnapshot : Snapshot := MkSnapshot "" "" 0 ZeroTime.

Record TransferredEvent := MkTransferredEvent {
  EventObjectID : PhysicalObjectID;
  FromParticipantID : ParticipantID;
  ToParticipantID : ParticipantID;
  TransferredAt : Time;
  EventVersion : Z
}.

#[global] Instance TransferredEvent_eta : Eta TransferredEvent :=
  fun e => MkTransferredEvent (EventObjectID e) (FromParticipantID e) (ToParticipantID e)
             (TransferredAt e) (EventVersion e).

#[global] Instance TransferredEvent_eq_dec : EqDecision TransferredEvent.
Proof. solve_decision. Defined.

(** [pendingEvent] and [hasPending] of the Go struct are one option. *)
Record Aggregate := MkAggregate {
  objectID : PhysicalObjectID;
  participantID : ParticipantID;
  version : Z;
  assignedAt : Time;
  pendingEvent : option TransferredEvent
}.

#[global] Instance Aggregate_eta : Eta Aggregate :=
  fun a => MkAggregate (objectID a) (participantID a) (version a) (assignedAt a) (pendingEvent a).

(** ** Validation *)

Definition validateObjectID (id : PhysicalObjectID) : option Error :=
  if (id == "") || (id != TrimSpace id) then Some ErrObjectIDRequired else None.

Definition validateParticipantID (id : ParticipantID) : option Error :=
  if (id == "") || (id != TrimSpace id) then Some ErrParticipantIDRequired else None.

Definition validateSnapshot (s : Snapshot) : option Error :=
  if Version s =? 0 then Some ErrInvalidSnapshot else
  match validateObjectID (ObjectID s) with
  | Some err => Some err
  | None =>
      match validateParticipantID (ResponsibleID s) with
      | Some err => Some err
      | None => if IsZero (AssignedAt s) then Some ErrAssignmentTime else None
      end
  end.

Definition validateTransferredEvent (e : TransferredEvent) : option Error :=
  if (EventVersion e <? 2) || (FromParticipantID e == ToParticipantID e) ||
     IsZero (TransferredAt e)
  then Some ErrTransferEventInvalid else
  match validateObjectID (EventObjectID e) with
  | Some _ => Some ErrTransferEventInvalid
  | None =>
      match validateParticipantID (FromParticipantID e) with
      | Some _ => Some ErrTransferEventInvalid
      | None =>
          match validateParticipantID (ToParticipantID e) with
          | Some _ => Some ErrTransferEventInvalid
          | None => None
          end
      end
  end.

(** ** The aggregate *)

Definition New (oid : PhysicalObjectID) (pid : ParticipantID) (at_ : Time) : outcome Error Aggregate :=
  let snapshot := MkSnapshot oid pid 1 (UTC at_) in
  match validateSnapshot snapshot with
  | Some err => Err err
  | None =>
      Ok (MkAggregate (ObjectID snapshot) (ResponsibleID snapshot) (Version snapshot)
            (AssignedAt snapshot) None)
  end.

Definition Rehydrate (s : Snapshot) : outcome Error Aggregate :=
  let s := s <| AssignedAt := UTC (AssignedAt s) |> in
  match validateSnapshot s with
  | Some err => Err err
  | None => Ok (MkAggregate (ObjectID s) (ResponsibleID s) (Version s) (AssignedAt s) None)
  end.

Definition Transfer (to : ParticipantID) (transferredAt : Time) : action Aggregate Error unit :=
  fun a =>
    match validateParticipantID to with
    | Some err => (a, Err err)
    | None =>
        if to == participantID a then (a, Err ErrSameParticipant) else
        let transferredAt := UTC transferredAt in
        if IsZero transferredAt || negb (After transferredAt (assignedAt a))
        then (a, Err ErrTransferTime) else
        let nextVersion := u64_succ (version a) in
        let event := MkTransferredEvent (objectID a) (participantID a) to transferredAt nextVersion in
        (a <| participantID := to |> <| assignedAt := transferredAt |>
           <| version := nextVersion |> <| pendingEvent := Some event |>, Ok tt)
    end.

Definition AggregateSnapshot (a : Aggregate) : Snapshot :=
  MkSnapshot (objectID a) (participantID a) (version a) (assignedAt a).

Definition PendingEvents (a : Aggregate) : list TransferredEvent :=
  match pendingEvent a with
  | Some e => [e]
  | None => []
  end.

Definition PendingTransfer (a : Aggregate) : option TransferredEvent := pendingEvent a.

Definition ClearPendingEvents (a : Aggregate) : Aggregate := a <| pendingEvent := None |>.

(** Calls through a possibly nil pointer. *)
Definition Transfer_ptr (to : ParticipantID) (at_ : Time) : action (option Aggregate) Error unit :=
  on_pointer ErrInvalidSnapshot (Transfer to at_).

Definition AggregateSnapshot_ptr (a : option Aggregate) : Snapshot :=
  match a with
  | Some a => AggregateSnapshot a
  | None => ZeroSnapshot
  end.

(** ** The root of a transfer *)

Definition transferRootDomain : string := "cargoos:responsibility-transfer:v1".

(** The bytes written to the digest: the domain, the three identities with
    their lengths, the version and the transfer time in microseconds. *)
Definition transferPreimage (e : TransferredEvent) : bytes :=
  bytes_of transferRootDomain ++ length_prefixed (EventObjectID e) ++
  length_prefixed (FromParticipantID e) ++ length_prefixed (ToParticipantID e) ++
  be64 (EventVersion e) ++ be64 (u64 (UnixMicro (TransferredAt e))).

Definition TransferredEventRoot (e : TransferredEvent) : outcome Error bytes :=
  match validateTransferredEvent e with
  | Some err => Err err
  | None => Ok (sha256 (transferPreimage e))
  end.

(** ** Repositories *)

Definition normalizedSnapshot (s : Snapshot) (expectedVersion : Z) : outcome Error Snapshot :=
  match Rehydrate s with
  | Err err => Err err
  | Ok aggregate =>
      if (expectedVersion =? u64_modulus - 1) || negb (version aggregate =? u64_succ expectedVersion)
      then Err ErrInvalidVersionTransition
      else Ok (AggregateSnapshot aggregate)
  end.

Definition ValidateTransferCommit (s : Snapshot) (expectedVersion : Z) (e : TransferredEvent)
    : outcome Error Snapshot :=
  match normalizedSnapshot s expectedVersion with
  | Err err => Err err
  | Ok normalized =>
      if (expectedVersion =? 0) || (EventObjectID e != ObjectID normalized) ||
         (FromParticipantID e == ToParticipantID e) ||
         (ToParticipantID e != ResponsibleID normalized) ||
         negb (EventVersion e =? Version normalized) ||
         negb (TimeEqual (TransferredAt e) (AssignedAt normalized))
      then Err ErrInvalidTransferCommit else
      match validateTransferredEvent e with
      | Some _ => Err ErrInvalidTransferCommit
      | None => Ok normalized
      end
  end.

(** The [Repository] interface. *)
Class Repository (R : Type) := {
  SaveResponsibility : Snapshot -> Z -> action R Error unit;
  FindResponsibility : PhysicalObjectID -> R -> outcome Error Aggregate;
  CommitTransfer : Snapshot -> Z -> TransferredEvent -> action R Error unit;
  FindTransfer : PhysicalObjectID -> Z -> R -> outcome Error TransferredEvent
}.

(** The in-memory implementation. Its mutex makes each operation one step. *)
Record MemoryRepository := MkMemoryRepository {
  snapshots : gmap string Snapshot;
  transfers : gmap (string * Z) TransferredEvent
}.

#[global] Instance MemoryRepository_eta : Eta MemoryRepository :=
  fun r => MkMemoryRepository (snapshots r) (transfers r).

Definition NewMemoryRepository : MemoryRepository := MkMemoryRepository ∅ ∅.

Definition memory_CommitTransfer (s : Snapshot) (expectedVersion : Z) (event : TransferredEvent)
    : action MemoryRepository Error unit :=
  fun r =>
    match ValidateTransferCommit s expectedVersion event with
    | Err err => (r, Err err)
    | Ok normalized =>
        match snapshots r !! ObjectID normalized with
        | None => (r, Err ErrConcurrentModification)
        | Some current =>
            if negb (Version current =? expectedVersion) ||
               (ResponsibleID current != FromParticipantID event) ||
               negb (After (AssignedAt normalized) (AssignedAt current))
            then (r, Err ErrConcurrentModification) else
            let key := (ObjectID normalized, Version normalized) in
            match transfers r !! key with
            | Some _ => (r, Err ErrConcurrentModification)
            | None =>
                let event := event <| TransferredAt := AssignedAt normalized |> in
                (r <| snapshots := <[ObjectID normalized := normalized]> (snapshots r) |>
                   <| transfers := <[key := event]> (transfers r) |>, Ok tt)
            end
        end
    end.

Definition memory_FindTransfer (oid : PhysicalObjectID) (v : Z) (r : MemoryRepository)
    : outcome Error TransferredEvent :=
  match validateObjectID oid with
  | Some err => Err err
  | None =>
      match transfers r !! (oid, v) with
      | None => Err ErrTransferNotFound
      | Some event => Ok event
      end
  end.

Definition memory_SaveResponsibility (s : Snapshot) (expectedVersion : Z)
    : action MemoryRepository Error unit :=
  fun r =>
    match normalizedSnapshot s expectedVersion with
    | Err err => (r, Err err)
    | Ok normalized =>
        let store := (r <| snapshots := <[ObjectID normalized := normalized]> (snapshots r) |>, Ok tt) in
        let conflict := (r, Err ErrConcurrentModification) in
        match snapshots r !! ObjectID normalized with
        | None => if expectedVersion =? 0 then store else conflict
        | Some current =>
            if expectedVersion =? 0 then conflict else
            if negb (Version current =? expectedVersion) ||
               (ResponsibleID current == ResponsibleID normalized) ||
               negb (After (AssignedAt normalized) (AssignedAt current))
            then conflict else store
        end
    end.

Definition memory_FindResponsibility (oid : PhysicalObjectID) (r : MemoryRepository)
    : outcome Error Aggregate :=
  match validateObjectID oid with
  | Some err => Err err
  | None =>
      match snapshots r !! oid with
      | None => Err ErrNotFound
      | Some s => Rehydrate s
      end
  end.

#[global] Instance MemoryRepository_Repository : Repository MemoryRepository := {|
  SaveResponsibility := memory_SaveResponsibility;
  FindResponsibility := memory_FindResponsibility;
  CommitTransfer := memory_CommitTransfer;
  FindTransfer := memory_FindTransfer
|}.

(** ** The handover service *)

Section service.
Context {R : Type} `{!Repository R}.

(** The state of a [Service] is its repository. *)
Definition transferLoaded (a : Aggregate) (to : ParticipantID) (at_ : Time) : action R Error Snapshot :=
  fun r =>
    let expectedVersion := Version (AggregateSnapshot a) in
    match Transfer to at_ a with
    | (_, Err err) => (r, Err err)
    | (a', Ok _) =>
        match PendingTransfer a' with
        | None => (r, Err ErrInvalidTransferCommit)
        | Some event =>
            let snapshot := AggregateSnapshot a' in
            match CommitTransfer snapshot expectedVersion event r with
            | (r', Err err) => (r', Err err)
            | (r', Ok _) => (r', Ok snapshot)
            end
        end
    end.

Definition ServiceTransfer (oid : PhysicalObjectID) (to : ParticipantID) (at_ : Time)
    : action R Error Snapshot :=
  fun r =>
    match FindResponsibility oid r with
    | Err err => (r, Err err)
    | Ok aggregate => transferLoaded aggregate to at_ r
    end.

Definition TransferExpected (expected : Snapshot) (to : ParticipantID) (at_ : Time)
    : action R Error Snapshot :=
  fun r =>
    match Rehydrate expected with
    | Err err => (r, Err err)
    | Ok validated =>
        let expected := AggregateSnapshot validated in
        match FindResponsibility (ObjectID expected) r with
        | Err err => (r, Err err)
        | Ok aggregate =>
            if AggregateSnapshot aggregate != expected
            then (r, Err ErrConcurrentModification)
            else transferLoaded aggregate to at_ r
        end
    end.
End service.

(** [NewService] with a nil repository fails; a service with a nil repository
    refuses both operations with the same error. *)
Definition NewService {R} (repository : option R) : outcome Error R :=
  match repository with
  | None => Err ErrRepositoryRequired
  | Some r => Ok r
  end.

(** ** Delivery claims *)

Definition MaxDeliveryClaim : Z := 1000.

Record DeliveryClaim := MkDeliveryClaim {
  Limit : Z;
  WorkerID : string;
  ClaimedAt : Time;
  LockDuration : Duration
}.

Definition DeliveryClaim_Validate (c : DeliveryClaim) : option Error :=
  if (Limit c <=? 0) || (MaxDeliveryClaim <? Limit c) then Some ErrClaimLimitInvalid else
  if TrimSpace (WorkerID c) == "" then Some ErrWorkerIDRequired else
  if IsZero (ClaimedAt c) then Some ErrClaimTimeRequired else
  if LockDuration c <=? 0 then Some ErrLockDurationInvalid else
  None.

Record ClaimedTransfer := MkClaimedTransfer {
  ClaimedEvent : TransferredEvent;
  Attempts : Z;
  LockOwner : string;
  LockUntil : Time
}.

(** ** What the operations check *)

Definition valid_id (id : string) : Prop := id <> "" /\ TrimSpace id = id.

Record valid_snapshot (s : Snapshot) : Prop := {
  vs_version : Version s <> 0;
  vs_object : valid_id (ObjectID s);
  vs_participant : valid_id (ResponsibleID s);
  vs_time : instant (AssignedAt s) <> 0
}.

Record valid_event (e : TransferredEvent) : Prop := {
  ve_version : 2 <= EventVersion e;
  ve_distinct : FromParticipantID e <> ToParticipantID e;
  ve_time : instant (TransferredAt e) <> 0;
  ve_object : valid_id (EventObjectID e);
  ve_from : valid_id (FromParticipantID e);
  ve_to : valid_id (ToParticipantID e)
}.

Lemma validateObjectID_none id : validateObjectID id = None <-> valid_id id.
Proof. unfold validateObjectID, valid_id. case_match; go_bool; naive_solver. Qed.

Lemma validateParticipantID_none id : validateParticipantID id = None <-> valid_id id.
Proof. unfold validateParticipantID, valid_id. case_match; go_bool; naive_solver. Qed.

Lemma validateSnapshot_none s : validateSnapshot s = None <-> valid_snapshot s.
Proof.
  unfold validateSnapshot. split.
  - intros H. repeat case_match; simplify_eq. go_bool.
    split; [done|by apply validateObjectID_none|by apply validateParticipantID_none|time_lia].
  - intros [H1 H2%validateObjectID_none H3%validateParticipantID_none H4].
    rewrite H2, H3. unfold IsZero. repeat case_match; go_bool; done.
Qed.

Lemma validateTransferredEvent_none e : validateTransferredEvent e = None <-> valid_event e.
Proof.
  unfold validateTransferredEvent. split.
  - intros H. repeat case_match; simplify_eq. go_bool.
    split; [lia|done|time_lia|by apply validateObjectID_none|by apply validateParticipantID_none..].
  - intros [H1 H2 H3 H4%validateObjectID_none H5%validateParticipantID_none H6%validateParticipantID_none].
    rewrite H4, H5, H6. unfold IsZero. case_match; [|done]. go_bool.
    destruct H as [[?|?]|?]; lia || done.
Qed.

(** The aggregate a snapshot stands for. *)
Definition loaded (s : Snapshot) : Aggregate :=
  MkAggregate (ObjectID s) (ResponsibleID s) (Version s) (UTC (AssignedAt s)) None.

Lemma Rehydrate_ok s a : Rehydrate s = Ok a <-> valid_snapshot s /\ a = loaded s.
Proof.
  unfold Rehydrate. set (s' := s <| AssignedAt := UTC (AssignedAt s) |>).
  assert (valid_snapshot s' <-> valid_snapshot s) as Hv by (split; intros []; by split).
  rewrite <- Hv, <- validateSnapshot_none. destruct (validateSnapshot s'); naive_solver.
Qed.

(** A snapshot in the form the repositories keep it. *)
Definition stored (s : Snapshot) : Prop :=
  valid_snapshot s /\ is_u64 (Version s) /\ location (AssignedAt s) = UTCLoc.

Lemma snapshot_loaded s : location (AssignedAt s) = UTCLoc -> AggregateSnapshot (loaded s) = s.
Proof. intros H. destruct s as [o p v t]. unfold AggregateSnapshot; simpl in *. f_equal. by apply UTC_fixed. Qed.

Lemma Transfer_ok to at_ a a' :
  Transfer to at_ a = (a', Ok tt) <->
  valid_id to /\ to <> participantID a /\ instant at_ <> 0 /\ instant (assignedAt a) < instant at_ /\
  a' = MkAggregate (objectID a) to (u64_succ (version a)) (UTC at_)
         (Some (MkTransferredEvent (objectID a) (participantID a) to (UTC at_) (u64_succ (version a)))).
Proof.
  unfold Transfer. rewrite <- validateParticipantID_none.
  destruct (validateParticipantID to); [naive_solver|].
  repeat case_match; go_bool; unfold IsZero, After in *; go_bool; simpl in *; naive_solver lia.
Qed.

Lemma Transfer_err to at_ a a' err : Transfer to at_ a = (a', Err err) -> a' = a.
Proof. unfold Transfer. intros H. repeat case_match; by simplify_eq. Qed.

Lemma normalizedSnapshot_ok s v n :
  is_u64 v ->
  normalizedSnapshot s v = Ok n <->
  valid_snapshot s /\ Version s = v + 1 /\ is_u64 (Version s) /\ n = s <| AssignedAt := UTC (AssignedAt s) |>.
Proof.
  intros Hv. unfold normalizedSnapshot.
  destruct (Rehydrate s) as [a|err] eqn:Ha.
  - apply Rehydrate_ok in Ha as [Hs ->]. simpl.
    unfold AggregateSnapshot; simpl.
    case_match; go_bool.
    + split; [done|]. intros (_ & HV & HR & _).
      destruct Hv, HR. destruct H as [H|H]; [lia|].
      rewrite u64_succ_small in H; [lia|done|lia].
    + rewrite u64_succ_small in * by (done || lia).
      unfold is_u64 in *. naive_solver lia.
  - split; [done|]. intros (Hs & _).
    assert (Rehydrate s = Ok (loaded s)) by by apply Rehydrate_ok. congruence.
Qed.

Lemma ValidateTransferCommit_ok s v e n :
  is_u64 v ->
  ValidateTransferCommit s v e = Ok n <->
  valid_snapshot s /\ Version s = v + 1 /\ is_u64 (Version s) /\
  n = s <| AssignedAt := UTC (AssignedAt s) |> /\ v <> 0 /\ valid_event e /\
  EventObjectID e = ObjectID s /\ ToParticipantID e = ResponsibleID s /\ EventVersion e = Version s /\
  instant (TransferredAt e) = instant (AssignedAt s).
Proof.
  intros Hv. unfold ValidateTransferCommit.
  destruct (normalizedSnapshot s v) as [n'|err] eqn:Hn.
  - apply normalizedSnapshot_ok in Hn as (Hs & HV & HR & ->); [|done]. simpl.
    pose proof (validateTransferredEvent_none e) as He.
    case_match eqn:Hc.
    + split; [done|]. intros (_ & _ & _ & _ & H0 & [] & H1 & H2 & H3 & H4).
      unfold TimeEqual in Hc. simpl in Hc. rewrite H1, H2, H3, H4 in Hc. go_absurd.
    + unfold TimeEqual in Hc. simpl in Hc. go_bool.
      destruct (validateTransferredEvent e); naive_solver.
  - split; [done|]. intros (Hs & HV & HR & _).
    assert (normalizedSnapshot s v = Ok (s <| AssignedAt := UTC (AssignedAt s) |>)) as Hn'
      by (apply normalizedSnapshot_ok; naive_solver).
    congruence.
Qed.

(** ** The repository contract

    What a client of the [Repository] interface relies on, stated over the two
    durable maps: the sole assignment of each Object and the transfer events.
    [repo_ok] is the implementation's representation invariant. *)

Class RepositoryLaws (R : Type) `{!Repository R} := {
  assignment : R -> gmap string Snapshot;
  events : R -> gmap (string * Z) TransferredEvent;
  repo_ok : R -> Prop;
  assignment_ok r oid s :
    repo_ok r -> assignment r !! oid = Some s -> ObjectID s = oid /\ stored s;
  find_ok r oid a :
    repo_ok r ->
    FindResponsibility oid r = Ok a <-> exists s, assignment r !! oid = Some s /\ a = loaded s;
  commit_err r r' s v e err : CommitTransfer s v e r = (r', Err err) -> r' = r;
  commit_ok r r' s v e :
    repo_ok r -> is_u64 v -> CommitTransfer s v e r = (r', Ok tt) ->
    exists current n,
      ValidateTransferCommit s v e = Ok n /\
      assignment r !! ObjectID s = Some current /\ Version current = v /\
      ResponsibleID current = FromParticipantID e /\
      instant (AssignedAt current) < instant (AssignedAt s) /\
      events r !! (ObjectID s, Version s) = None /\
      assignment r' = <[ObjectID s := n]> (assignment r) /\
      events r' = <[(ObjectID s, Version s) := e <| TransferredAt := AssignedAt n |>]> (events r);
  commit_complete r s v e current n :
    repo_ok r -> is_u64 v -> ValidateTransferCommit s v e = Ok n ->
    assignment r !! ObjectID s = Some current -> Version current = v ->
    ResponsibleID current = FromParticipantID e ->
    instant (AssignedAt current) < instant (AssignedAt s) ->
    events r !! (ObjectID s, Version s) = None ->
    exists r', CommitTransfer s v e r = (r', Ok tt);
  commit_preserves r r' s v e :
    repo_ok r -> is_u64 v -> CommitTransfer s v e r = (r', Ok tt) -> repo_ok r'
}.

(** ** The in-memory repository meets the contract *)

Definition memory_ok (r : MemoryRepository) : Prop :=
  forall oid s, snapshots r !! oid = Some s -> ObjectID s = oid /\ stored s.

Lemma memory_find_ok r oid a :
  memory_ok r ->
  memory_FindResponsibility oid r = Ok a <-> exists s, snapshots r !! oid = Some s /\ a = loaded s.
Proof.
  intros Hr. unfold memory_FindResponsibility.
  destruct (snapshots r !! oid) as [s|] eqn:Hs.
  - destruct (Hr _ _ Hs) as [<- [Hv _]].
    rewrite (proj2 (validateObjectID_none _) (vs_object _ Hv)).
    rewrite Rehydrate_ok. naive_solver.
  - destruct (validateObjectID oid); naive_solver.
Qed.

Lemma memory_commit_ok r r' s v e :
  is_u64 v -> memory_CommitTransfer s v e r = (r', Ok tt) ->
  exists current n,
    ValidateTransferCommit s v e = Ok n /\
    snapshots r !! ObjectID s = Some current /\ Version current = v /\
    ResponsibleID current = FromParticipantID e /\
    instant (AssignedAt current) < instant (AssignedAt s) /\
    transfers r !! (ObjectID s, Version s) = None /\
    snapshots r' = <[ObjectID s := n]> (snapshots r) /\
    transfers r' = <[(ObjectID s, Version s) := e <| TransferredAt := AssignedAt n |>]> (transfers r).
Proof.
  intros Hv. unfold memory_CommitTransfer.
  destruct (ValidateTransferCommit s v e) as [n|] eqn:Hn; [|done].
  apply ValidateTransferCommit_ok in Hn as Hn'; [|done].
  destruct Hn' as (_ & _ & _ & -> & _). simpl. unfold After; simpl.
  intros H. repeat case_match; simplify_eq; go_bool. naive_solver.
Qed.

Lemma memory_commit_complete r s v e current n :
  is_u64 v -> ValidateTransferCommit s v e = Ok n ->
  snapshots r !! ObjectID s = Some current -> Version current = v ->
  ResponsibleID current = FromParticipantID e ->
  instant (AssignedAt current) < instant (AssignedAt s) ->
  transfers r !! (ObjectID s, Version s) = None ->
  exists r', memory_CommitTransfer s v e r = (r', Ok tt).
Proof.
  intros Hv Hn Hcur HV HP Ht He. unfold memory_CommitTransfer. rewrite Hn.
  apply ValidateTransferCommit_ok in Hn as (_ & _ & _ & -> & _); [|done]. simpl.
  rewrite Hcur. unfold After; simpl.
  case_match eqn:Hc; [go_bool; naive_solver lia|]. rewrite He. eauto.
Qed.

Lemma memory_commit_preserves r r' s v e :
  memory_ok r -> is_u64 v -> memory_CommitTransfer s v e r = (r', Ok tt) -> memory_ok r'.
Proof.
  intros Hr Hv H. apply memory_commit_ok in H as (cur & n & Hn & _ & _ & _ & _ & _ & Hs & _); [|done].
  apply ValidateTransferCommit_ok in Hn as (Hvs & _ & HV & -> & _); [|done].
  intros oid s'. rewrite Hs. intros [[<- <-]|[_ H]]%lookup_insert_Some; [|by apply Hr].
  split; [done|]. split; [|done]. by destruct Hvs.
Qed.

Lemma memory_commit_err r r' s v e err : memory_CommitTransfer s v e r = (r', Err err) -> r' = r.
Proof. unfold memory_CommitTransfer. intros H. repeat case_match; by simplify_eq. Qed.

#[global] Instance MemoryRepository_laws : RepositoryLaws MemoryRepository := {|
  assignment := snapshots;
  events := transfers;
  repo_ok := memory_ok;
  assignment_ok r oid s Hr := Hr oid s;
  find_ok := memory_find_ok;
  commit_err := memory_commit_err;
  commit_ok r r' s v e _ := memory_commit_ok r r' s v e;
  commit_complete r s v e current n _ := memory_commit_complete r s v e current n;
  commit_preserves := memory_commit_preserves
|}.

(** ** The handover service over any lawful repository *)

(** The specification: responsibility is a map from Objects to Participants,
    and a handover replaces the Participant of one Object by a different one. *)
Inductive handover (oid : string) (to : string) : gmap string string -> gmap string string -> Prop :=
  | handover_commit from m :
      m !! oid = Some from -> from <> to -> handover oid to m (<[oid := to]> m).

(** The event a committed handover leaves behind. *)
Definition handover_event (current : Snapshot) (to : ParticipantID) (at_ : Time) : TransferredEvent :=
  MkTransferredEvent (ObjectID current) (ResponsibleID current) to (UTC at_) (Version current + 1).

Definition handed_over (current : Snapshot) (to : ParticipantID) (at_ : Time) : Snapshot :=
  MkSnapshot (ObjectID current) to (Version current + 1) (UTC at_).

(** A request that the current assignment admits. *)
Definition admissible (current : Snapshot) (to : ParticipantID) (at_ : Time) : Prop :=
  valid_id to /\ to <> ResponsibleID current /\ instant at_ <> 0 /\
  instant (AssignedAt current) < instant at_ /\ Version current <> u64_modulus - 1.

Section service_theorems.
Context {R : Type} `{RepositoryLaws R}.

Definition responsible (r : R) : gmap string string := ResponsibleID <$> assignment r.

Lemma handed_over_validates current to at_ :
  stored current -> admissible current to at_ ->
  ValidateTransferCommit (handed_over current to at_) (Version current)
    (handover_event current to at_) = Ok (handed_over current to at_).
Proof.
  intros ([Hv Ho Hp Ht] & HV & HL) (Hto & Hne & Hz & Hlt & Hmax).
  pose proof (u64_succ_range (Version current)) as HS.
  rewrite u64_succ_small in HS by done.
  apply ValidateTransferCommit_ok; [done|]. unfold is_u64 in *. simpl.
  split_and!; try done; try lia; split; simpl; done || lia || congruence.
Qed.

(** [transferLoaded] on a freshly loaded aggregate. *)
Lemma transferLoaded_spec r r' current to at_ res :
  repo_ok r -> assignment r !! ObjectID current = Some current ->
  transferLoaded (loaded current) to at_ r = (r', res) ->
  match res with
  | Ok s =>
      admissible current to at_ /\ s = handed_over current to at_ /\
      assignment r' = <[ObjectID current := s]> (assignment r) /\
      events r !! (ObjectID current, Version s) = None /\
      events r' = <[(ObjectID current, Version s) := handover_event current to at_]> (events r) /\
      repo_ok r'
  | Err _ => r' = r
  end.
Proof.
  intros Hr Hcur. destruct (assignment_ok _ _ _ Hr Hcur) as [_ (Hvs & HV & HL)].
  unfold transferLoaded.
  destruct (Transfer to at_ (loaded current)) as [a' [[]|err]] eqn:HT; [|by intros [= <- <-]].
  apply Transfer_ok in HT as (Hto & Hne & Hz & Hlt & ->). simpl in *.
  unfold AggregateSnapshot; simpl.
  match goal with |- context [CommitTransfer ?s ?v ?e r] =>
    destruct (CommitTransfer s v e r) as [r1 [[]|err]] eqn:HC end; intros [= <- <-].
  2: by eapply commit_err.
  pose proof (commit_preserves _ _ _ _ _ Hr HV HC) as Hr1.
  apply commit_ok in HC as (cur & n & Hn & Hcur' & _ & _ & _ & He & Ha & Hev); [|done..].
  apply ValidateTransferCommit_ok in Hn as (_ & Hver & _ & -> & _); [|done]. simpl in *.
  assert (Version current <> u64_modulus - 1) as Hmax.
  { intros Hm. rewrite Hm, u64_succ_max in Hver. unfold u64_modulus in *. lia. }
  rewrite u64_succ_small in * by done.
  split_and!; done || by split_and!.
Qed.

Lemma transferLoaded_complete r current to at_ :
  repo_ok r -> assignment r !! ObjectID current = Some current ->
  admissible current to at_ -> events r !! (ObjectID current, Version current + 1) = None ->
  exists r', transferLoaded (loaded current) to at_ r = (r', Ok (handed_over current to at_)).
Proof.
  intros Hr Hcur Hadm He. destruct (assignment_ok _ _ _ Hr Hcur) as [_ Hst].
  pose proof Hst as (Hvs & HV & HL). pose proof Hadm as (Hto & Hne & Hz & Hlt & Hmax).
  destruct (commit_complete r (handed_over current to at_) (Version current)
    (handover_event current to at_) current (handed_over current to at_)) as [r' HC];
    try done; [by apply handed_over_validates|].
  exists r'. unfold transferLoaded.
  assert (Transfer to at_ (loaded current) = (MkAggregate (ObjectID current) to (Version current + 1)
    (UTC at_) (Some (handover_event current to at_)), Ok tt)) as ->.
  { apply Transfer_ok. simpl. rewrite u64_succ_small by done. by split_and!. }
  simpl. unfold AggregateSnapshot; simpl. unfold handed_over in HC. by rewrite HC.
Qed.

Lemma loaded_current r oid current a :
  repo_ok r -> FindResponsibility oid r = Ok a -> assignment r !! oid = Some current ->
  a = loaded current /\ ObjectID current = oid.
Proof.
  intros Hr Hf Hcur. apply find_ok in Hf as (s & Hs & ->); [|done].
  destruct (assignment_ok _ _ _ Hr Hcur). naive_solver.
Qed.

(** What a [Transfer] request does, on every branch. *)
Lemma ServiceTransfer_spec r r' oid to at_ res :
  repo_ok r -> ServiceTransfer oid to at_ r = (r', res) ->
  match res with
  | Ok s =>
      exists current, assignment r !! oid = Some current /\ admissible current to at_ /\
      s = handed_over current to at_ /\ assignment r' = <[oid := s]> (assignment r) /\
      events r !! (oid, Version s) = None /\
      events r' = <[(oid, Version s) := handover_event current to at_]> (events r) /\
      repo_ok r'
  | Err _ => r' = r
  end.
Proof.
  intros Hr. unfold ServiceTransfer.
  destruct (FindResponsibility oid r) as [a|err] eqn:Hf; [|by intros [= <- <-]].
  apply find_ok in Hf as (s & Hs & ->); [|done].
  destruct (assignment_ok _ _ _ Hr Hs) as [<- _].
  intros H'. apply transferLoaded_spec in H'; [|done..].
  destruct res; [|done]. exists s. naive_solver.
Qed.

(** [TransferExpected] hands over only from exactly the expected snapshot. *)
Lemma TransferExpected_spec r r' expected to at_ res :
  repo_ok r -> TransferExpected expected to at_ r = (r', res) ->
  match res with
  | Ok s =>
      let current := expected <| AssignedAt := UTC (AssignedAt expected) |> in
      assignment r !! ObjectID expected = Some current /\ admissible current to at_ /\
      s = handed_over current to at_ /\
      assignment r' = <[ObjectID expected := s]> (assignment r) /\
      events r' = <[(ObjectID expected, Version s) := handover_event current to at_]> (events r) /\
      repo_ok r'
  | Err _ => r' = r
  end.
Proof.
  intros Hr. unfold TransferExpected.
  destruct (Rehydrate expected) as [v|err] eqn:Hre; [|by intros [= <- <-]].
  apply Rehydrate_ok in Hre as [Hv ->].
  destruct (FindResponsibility _ r) as [a|err] eqn:Hf; [|by intros [= <- <-]].
  apply find_ok in Hf as (s & Hs & ->); [|done].
  destruct (assignment_ok _ _ _ Hr Hs) as [Hoid (_ & _ & HL)].
  case_match eqn:Hc; [by intros [= <- <-]|]. go_bool.
  rewrite snapshot_loaded in Hc by done. unfold AggregateSnapshot in Hc. simpl in Hc. subst s.
  intros H'. apply transferLoaded_spec in H'; [|done..].
  destruct res; [|done]. simpl in *. naive_solver.
Qed.
End service_theorems.

(** ** The transfer root binds the transfer *)

(** A Go string is shorter than 2^64 bytes. *)
Definition go_string (s : string) : Prop := is_u64 (Z.of_nat (length (bytes_of s))).

Definition go_event (e : TransferredEvent) : Prop :=
  go_string (EventObjectID e) /\ go_string (FromParticipantID e) /\ go_string (ToParticipantID e) /\
  is_u64 (EventVersion e).

Lemma transferPreimage_inj e1 e2 :
  go_event e1 -> go_event e2 -> transferPreimage e1 = transferPreimage e2 ->
  EventObjectID e1 = EventObjectID e2 /\ FromParticipantID e1 = FromParticipantID e2 /\
  ToParticipantID e1 = ToParticipantID e2 /\ EventVersion e1 = EventVersion e2 /\
  UnixMicro (TransferredAt e1) = UnixMicro (TransferredAt e2).
Proof.
  intros (Ho1 & Hf1 & Ht1 & Hv1) (Ho2 & Hf2 & Ht2 & Hv2) H. unfold transferPreimage in H.
  apply app_inv_head in H.
  apply length_prefixed_app_inj in H as [Ho H]; [|done..].
  apply length_prefixed_app_inj in H as [Hf H]; [|done..].
  apply length_prefixed_app_inj in H as [Ht H]; [|done..].
  apply be64_app_inj in H as [Hv H]; [|done..].
  apply be64_inj in H; [|apply u64_range..].
  apply u64_of_i64_inj in H; [|apply i64_range..]. done.
Qed.

(** ** Histories

    The states reached from an empty repository by initial assignments and
    service handovers. *)

Inductive repo_step : MemoryRepository -> MemoryRepository -> Prop :=
  | step_assign s r r' : SaveResponsibility s 0 r = (r', Ok tt) -> repo_step r r'
  | step_transfer oid to at_ s r r' : ServiceTransfer oid to at_ r = (r', Ok s) -> repo_step r r'
  | step_expected expected to at_ s r r' :
      TransferExpected expected to at_ r = (r', Ok s) -> repo_step r r'.

(** The assignment of an Object of version [n] has exactly the events of
    versions 2 to [n], each handing over from the Participant the previous one
    handed over to, at increasing times, ending in the current assignment. *)
Record history_ok (r : MemoryRepository) : Prop := {
  h_memory : memory_ok r;
  h_complete oid s v :
    snapshots r !! oid = Some s -> 2 <= v <= Version s -> is_Some (transfers r !! (oid, v));
  h_last oid s e :
    snapshots r !! oid = Some s -> transfers r !! (oid, Version s) = Some e ->
    ToParticipantID e = ResponsibleID s /\ TransferredAt e = AssignedAt s;
  h_event oid v e :
    transfers r !! (oid, v) = Some e ->
    valid_event e /\ EventObjectID e = oid /\ EventVersion e = v /\
    exists s, snapshots r !! oid = Some s /\ v <= Version s;
  h_chain oid v e1 e2 :
    transfers r !! (oid, v) = Some e1 -> transfers r !! (oid, v + 1) = Some e2 ->
    ToParticipantID e1 = FromParticipantID e2 /\
    instant (TransferredAt e1) < instant (TransferredAt e2)
}.

Lemma history_empty : history_ok NewMemoryRepository.
Proof. split; try intros ????; simpl; intros *; by rewrite ?lookup_empty. Qed.

Lemma save_initial_ok s r r' :
  memory_SaveResponsibility s 0 r = (r', Ok tt) ->
  snapshots r !! ObjectID s = None /\
  exists n, stored n /\ Version n = 1 /\ ObjectID n = ObjectID s /\
    r' = r <| snapshots := <[ObjectID s := n]> (snapshots r) |>.
Proof.
  unfold memory_SaveResponsibility.
  destruct (normalizedSnapshot s 0) as [n|] eqn:Hn; [|done].
  apply normalizedSnapshot_ok in Hn as (Hv & HV & HR & ->); [|done]. simpl in *.
  destruct (snapshots r !! ObjectID s) eqn:Hs; [done|]. intros [= <-].
  split; [done|]. exists (s <| AssignedAt := UTC (AssignedAt s) |>).
  split_and!; [|simpl; lia|done..]. split_and!; [by destruct Hv|done|done].
Qed.

Lemma history_assign r r' s :
  history_ok r -> memory_SaveResponsibility s 0 r = (r', Ok tt) -> history_ok r'.
Proof.
  intros [Hm Hc Hl He Hch] H. apply save_initial_ok in H as (Hnone & n & Hn & HV & Ho & ->).
  assert (forall v e, transfers r !! (ObjectID s, v) = Some e -> False) as Hno.
  { intros v e H. apply He in H as (_ & _ & _ & s' & Hs & _). congruence. }
  split; simpl.
  - intros oid s'; simpl; intros [[<- <-]|[_ Hs]]%lookup_insert_Some; [done|by apply Hm].
  - intros oid s' v [[<- <-]|[_ Hs]]%lookup_insert_Some Hv; [lia|by eapply Hc].
  - intros oid s' e [[<- <-]|[_ Hs]]%lookup_insert_Some Hv; [by apply Hno in Hv|by eapply Hl].
  - intros oid v e H. pose proof (He _ _ _ H) as (? & ? & ? & s' & Hs' & ?).
    split_and!; try done. exists s'. split; [|done]. apply lookup_insert_Some. right.
    split; [|done]. intros <-. by eapply Hno.
  - done.
Qed.

Lemma history_handover r r' current to at_ :
  history_ok r -> snapshots r !! ObjectID current = Some current -> admissible current to at_ ->
  snapshots r' = <[ObjectID current := handed_over current to at_]> (snapshots r) ->
  transfers r' =
    <[(ObjectID current, Version current + 1) := handover_event current to at_]> (transfers r) ->
  memory_ok r' -> history_ok r'.
Proof.
  intros [Hm Hc Hl He Hch] Hcur (Hto & Hne & Hz & Hlt & Hmax) Hs' Ht' Hm'.
  destruct (Hm _ _ Hcur) as [_ ([Hv0 Hvo Hvp Hvt] & HV & HL)].
  split; [done|..]; rewrite ?Hs', ?Ht'.
  - intros oid s v [[<- <-]|[Hne' Hs]]%lookup_insert_Some Hv; simpl in *.
    + destruct (decide (v = Version current + 1)) as [->|Hv1]; [by rewrite lookup_insert_eq|].
      rewrite lookup_insert_ne by congruence. eapply Hc; [done|lia].
    + rewrite lookup_insert_ne by congruence. by eapply Hc.
  - intros oid s e [[<- <-]|[Hne' Hs]]%lookup_insert_Some; simpl.
    + rewrite lookup_insert_eq. by intros [= <-].
    + rewrite lookup_insert_ne by congruence. by eapply Hl.
  - intros oid v e [[[= <- <-] <-]|[Hne' H]]%lookup_insert_Some.
    + split_and!; [|done|done|].
      * split; simpl; try done. unfold is_u64 in *; lia.
      * eexists. rewrite lookup_insert_eq. split; [done|]. simpl. lia.
    + destruct (He _ _ _ H) as (? & ? & ? & s & Hs & Hle). split_and!; try done.
      destruct (decide (oid = ObjectID current)) as [->|Hno].
      * eexists. rewrite lookup_insert_eq. split; [done|]. simpl. simplify_eq. lia.
      * exists s. by rewrite lookup_insert_ne.
  - intros oid v e1 e2 [[Heq1 <-]|[Hn1 H1]]%lookup_insert_Some
      [[Heq2 <-]|[Hn2 H2]]%lookup_insert_Some; simplify_eq.
    + lia.
    + apply He in H2 as (_ & _ & _ & s & Hs & Hle). simplify_eq. lia.
    + assert (v = Version current) as -> by lia.
      destruct (Hl _ _ _ Hcur H1) as [-> ->]. done.
    + by eapply Hch.
Qed.

Lemma history_step r r' : history_ok r -> repo_step r r' -> history_ok r'.
Proof.
  intros Hr Hstep. pose proof (h_memory _ Hr) as Hm.
  destruct Hstep as [s r r' H|oid to at_ s r r' H|expected to at_ s r r' H].
  - by eapply history_assign.
  - apply ServiceTransfer_spec in H as (cur & Hcur & Hadm & -> & Hs & _ & Ht & Hm'); [|done].
    destruct (Hm _ _ Hcur) as [<- _]. by eapply history_handover.
  - apply TransferExpected_spec in H as (Hcur & Hadm & -> & Hs & Ht & Hm'); [|done].
    by apply (history_handover r _ (expected <| AssignedAt := UTC (AssignedAt expected) |>) to at_).
Qed.

Lemma history_reachable r : rtc repo_step NewMemoryRepository r -> history_ok r.
Proof.
  intros H. pose proof history_empty as Hr. revert Hr.
  induction H; [done|]. eauto using history_step.
Qed.

(** ** Properties *)

Section properties.
Context {R : Type} `{RepositoryLaws R}.

(** C3: a handover request either replaces the Object's sole Participant, records
    exactly one new event for it and leaves every other Object alone, or fails and
    leaves the durable state as it was; the representation invariant is kept. Proved
    against the repository contract. *)
Theorem transfer_refines_handover (r r' : R) oid to at_ res :
  repo_ok r -> ServiceTransfer oid to at_ r = (r', res) ->
  repo_ok r' /\
  match res with
  | Ok s =>
      handover oid to (responsible r) (responsible r') /\
      events r !! (oid, Version s) = None /\
      (exists e, events r' = <[(oid, Version s) := e]> (events r) /\ valid_event e /\
                 EventObjectID e = oid /\ ToParticipantID e = to /\
                 responsible r !! oid = Some (FromParticipantID e)) /\
      assignment r' !! oid = Some s
  | Err _ => r' = r
  end.
Proof.
  intros Hr H'. apply ServiceTransfer_spec in H'; [|done]. destruct res as [s|err].
  2: by subst.
  destruct H' as (cur & Hcur & Hadm & -> & Ha & Hn & He & Hr').
  destruct (assignment_ok _ _ _ Hr Hcur) as [<- Hst].
  split; [done|]. split_and!.
  - unfold responsible. rewrite Ha, fmap_insert. destruct Hadm as (_ & Hne & _).
    apply handover_commit with (from := ResponsibleID cur); [|done].
    rewrite lookup_fmap, Hcur. done.
  - done.
  - eexists. split; [done|]. split_and!; try done.
    + pose proof (handed_over_validates _ _ _ Hst Hadm) as Hok.
      destruct Hst as (_ & HV & _). by apply ValidateTransferCommit_ok in Hok as (_&_&_&_&_&Hok&_).
    + unfold responsible. by rewrite lookup_fmap, Hcur.
  - by rewrite Ha, lookup_insert_eq.
Qed.

(** TransferExpected hands over only when the stored assignment is exactly the
    snapshot the authorization was evaluated on; after any change it fails and the
    store is unchanged. *)
Theorem transfer_expected_exact (r r' : R) expected to at_ res :
  repo_ok r -> TransferExpected expected to at_ r = (r', res) ->
  (assignment r !! ObjectID expected <>
     Some (expected <| AssignedAt := UTC (AssignedAt expected) |>) ->
   is_ok res = false) /\
  (is_ok res = false -> r' = r).
Proof.
  intros Hr H'. apply TransferExpected_spec in H'; [|done].
  destruct res; simpl; naive_solver.
Qed.
End properties.

(** In every repository reached from the empty one by initial assignments and
    service handovers, the events of an Object form a complete chain: versions 2 to
    its current version are all present, each hands over from the Participant the
    previous event handed over to, times increase, and the last event is the current
    assignment. *)
Theorem reachable_history_chain r :
  rtc repo_step NewMemoryRepository r -> history_ok r.
Proof. intros H. by apply history_reachable. Qed.

(** A handover request that the current assignment admits always succeeds in a
    reachable repository: no stale event can block it. *)
Theorem admissible_transfer_succeeds r oid current to at_ :
  rtc repo_step NewMemoryRepository r -> snapshots r !! oid = Some current ->
  admissible current to at_ ->
  exists r', ServiceTransfer oid to at_ r = (r', Ok (handed_over current to at_)).
Proof.
  intros Hreach Hcur Hadm. apply history_reachable in Hreach as [Hm _ _ He _].
  destruct (Hm _ _ Hcur) as [<- _].
  unfold ServiceTransfer.
  assert (FindResponsibility (ObjectID current) r = Ok (loaded current)) as ->
    by (apply memory_find_ok; eauto).
  apply transferLoaded_complete; [done..|].
  destruct (events r !! _) eqn:E; [|done].
  apply He in E as (_ & _ & _ & s & Hs & Hle). simplify_eq. lia.
Qed.

(** At the last [uint64] version the wrapped next version is refused, and
    the assignment and its history stay as they are. *)
Theorem transfer_version_overflow (r : MemoryRepository) oid current to at_ :
  memory_ok r -> snapshots r !! oid = Some current -> Version current = u64_modulus - 1 ->
  exists err, ServiceTransfer oid to at_ r = (r, Err err).
Proof.
  intros Hm Hcur HV.
  destruct (ServiceTransfer oid to at_ r) as [r' [s|err]] eqn:H.
  - apply ServiceTransfer_spec in H as (cur & Hcur' & (_ & _ & _ & _ & Hmax) & _); [|done].
    simpl in *. simplify_eq. 
  - apply ServiceTransfer_spec in H; [|done]. subst. eauto.
Qed.

(** The transfer root binds the Object, both Participants, the version and the
    microsecond of the transfer: two events with the same root agree on them, or
    their preimages are a SHA-256 collision. *)
Theorem transfer_root_binds e1 e2 root :
  go_event e1 -> go_event e2 ->
  TransferredEventRoot e1 = Ok root -> TransferredEventRoot e2 = Ok root ->
  (EventObjectID e1 = EventObjectID e2 /\ FromParticipantID e1 = FromParticipantID e2 /\
   ToParticipantID e1 = ToParticipantID e2 /\ EventVersion e1 = EventVersion e2 /\
   UnixMicro (TransferredAt e1) = UnixMicro (TransferredAt e2)) \/
  Collision (transferPreimage e1) (transferPreimage e2).
Proof.
  intros H1 H2. unfold TransferredEventRoot.
  destruct (validateTransferredEvent e1); [done|]. destruct (validateTransferredEvent e2); [done|].
  intros [= <-] [= Heq].
  destruct (decide (transferPreimage e1 = transferPreimage e2)) as [Hp|Hp].
  - left. by apply transferPreimage_inj.
  - right. by split.
Qed.

(** ** Witnesses *)

Definition ex_snapshot : Snapshot := MkSnapshot "crate-7" "alice" 1 (utc_seconds 100).
Definition ex_repository : MemoryRepository :=
  fst (SaveResponsibility ex_snapshot 0 NewMemoryRepository).
Definition ex_current_max : Snapshot := MkSnapshot "crate-7" "alice" (u64_modulus - 1) (utc_seconds 100).
Definition ex_repository_max : MemoryRepository := MkMemoryRepository {["crate-7" := ex_current_max]} ∅.

Lemma ex_reachable : rtc repo_step NewMemoryRepository ex_repository.
Proof. apply rtc_once. apply (step_assign ex_snapshot). vm_compute. reflexivity. Qed.

Lemma ex_ok : memory_ok ex_repository.
Proof. apply history_reachable, ex_reachable. Qed.

Lemma ex_max_ok : memory_ok ex_repository_max.
Proof.
  intros oid s; simpl; intros [<- <-]%lookup_singleton_Some. split; [done|].
  split; [|done]. by apply validateSnapshot_none.
Qed.

Lemma transfer_refines_handover_witness :
  snd (ServiceTransfer "crate-7" "bob" (utc_seconds 200) ex_repository) =
    Ok (MkSnapshot "crate-7" "bob" 2 (utc_seconds 200)) /\
  memory_ok (fst (ServiceTransfer "crate-7" "bob" (utc_seconds 200) ex_repository)).
Proof.
  split; [vm_compute; reflexivity|].
  exact (proj1 (transfer_refines_handover ex_repository _ "crate-7" "bob" (utc_seconds 200) _
    ex_ok (surjective_pairing _))).
Defined.

Lemma transfer_expected_exact_witness :
  is_ok (snd (TransferExpected (MkSnapshot "crate-7" "carol" 1 (utc_seconds 100)) "bob"
    (utc_seconds 200) ex_repository)) = false.
Proof.
  refine (proj1 (transfer_expected_exact ex_repository _ _ "bob" (utc_seconds 200) _
    ex_ok (surjective_pairing _)) _).
  vm_compute. discriminate.
Defined.

Lemma reachable_history_chain_witness : history_ok ex_repository.
Proof. exact (reachable_history_chain ex_repository ex_reachable). Defined.

Lemma admissible_transfer_succeeds_witness :
  exists r', ServiceTransfer "crate-7" "bob" (utc_seconds 200) ex_repository =
    (r', Ok (handed_over ex_snapshot "bob" (utc_seconds 200))).
Proof.
  apply (admissible_transfer_succeeds ex_repository "crate-7" ex_snapshot "bob" (utc_seconds 200)
    ex_reachable); [vm_compute; reflexivity|].
  split_and!; vm_compute; try split; congruence || reflexivity.
Defined.

Lemma transfer_version_overflow_witness :
  exists err, ServiceTransfer "crate-7" "bob" (utc_seconds 200) ex_repository_max =
    (ex_repository_max, Err err).
Proof.
  exact (transfer_version_overflow ex_repository_max "crate-7" ex_current_max "bob" (utc_seconds 200)
    ex_max_ok eq_refl eq_refl).
Defined.

Definition ex_event : TransferredEvent :=
  MkTransferredEvent "crate-7" "alice" "bob" (utc_seconds 200) 2.

Lemma transfer_root_binds_witness :
  EventObjectID ex_event = EventObjectID ex_event \/
  Collision (transferPreimage ex_event) (transferPreimage ex_event).
Proof.
  destruct (transfer_root_binds ex_event ex_event (sha256 (transferPreimage ex_event))) as [H|H].
  1,2: split_and!; vm_compute; split; congruence || reflexivity.
  1,2: reflexivity.
  - left. apply H.
  - right. exact H.
Defined.

End responsibility.
