(* ===== verification/Safety.v ===== *)
(** * The handover safety machine and motion interlock ([safety/])

    [machine.go]: IDLE, PROPOSED, VERIFIED, COMMITTED, REJECTED and HALT, with
    the permit checks and the commit through the responsibility service.
    [interlock.go]: motion decisions from the exact verified permit. A machine
    commits through any [responsibility.Repository]; the theorems use only the
    repository contract. *)

From Stdlib Require Import Ascii String.
From S2P Require Import Prelude GoTime GoString Responsibility.

Module safety.

Inductive State :=
  | StateIdle | StateProposed | StateVerified | StateCommitted | StateRejected | StateHalt.

#[global] Instance State_eq_dec : EqDecision State.
Proof. solve_decision. Defined.

(** [OtherReason] stands for any other string: [Halt] takes an arbitrary one. *)
Inductive Reason :=
  | ReasonNone | ReasonInvalidTransition | ReasonInvalidEvidence | ReasonEvidenceExpired
  | ReasonAuthorizationBinding | ReasonConcurrentChange | ReasonCommitFailed | ReasonManualHalt
  | ReasonMotionStateBlocked | OtherReason (text : string).

#[global] Instance Reason_eq_dec : EqDecision Reason.
Proof. solve_decision. Defined.

Inductive Error :=
  | ErrInvalidTransition | ErrInvalidPermit | ErrServiceRequired
  | ErrResponsibility (err : responsibility.Error).

Record Permit := MkPermit {
  PermitObjectID : responsibility.PhysicalObjectID;
  PermitFrom : responsibility.ParticipantID;
  PermitTo : responsibility.ParticipantID;
  PolicyID : string;
  PolicyVersion : string;
  EvidenceVersion : string;
  EvaluatedAt : Time;
  ValidUntil : Time;
  Admissible : bool
}.

#[global] Instance Permit_eta : Eta Permit :=
  fun p => MkPermit (PermitObjectID p) (PermitFrom p) (PermitTo p) (PolicyID p) (PolicyVersion p)
             (EvidenceVersion p) (EvaluatedAt p) (ValidUntil p) (Admissible p).

Definition ZeroPermit : Permit := MkPermit "" "" "" "" "" "" ZeroTime ZeroTime false.

Record Snapshot := MkSnapshot {
  SnapshotState : State;
  SnapshotReason : Reason;
  Responsibility : responsibility.Snapshot;
  ProposedParticipantID : responsibility.ParticipantID
}.

Record Machine := MkMachine {
  state : State;
  reason : Reason;
  current : responsibility.Snapshot;
  proposed : responsibility.ParticipantID;
  verifiedPermit : Permit;
  hasVerifiedPermit : bool
}.

#[global] Instance Machine_eta : Eta Machine :=
  fun m => MkMachine (state m) (reason m) (current m) (proposed m) (verifiedPermit m)
             (hasVerifiedPermit m).

(** ** Operations *)

Definition NewMachine (s : responsibility.Snapshot) : outcome responsibility.Error Machine :=
  match responsibility.Rehydrate s with
  | Err err => Err err
  | Ok aggregate =>
      Ok (MkMachine StateIdle ReasonNone (responsibility.AggregateSnapshot aggregate) "" ZeroPermit false)
  end.

Definition MachineSnapshot (m : Machine) : Snapshot :=
  MkSnapshot (state m) (reason m) (current m) (proposed m).

Definition MotionAllowed (m : option Machine) : bool :=
  match m with
  | None => false
  | Some m => (state m == StateIdle) || (state m == StateVerified) || (state m == StateCommitted)
  end.

Definition clearVerifiedPermit (m : Machine) : Machine :=
  m <| verifiedPermit := ZeroPermit |> <| hasVerifiedPermit := false |>.

Definition enterHalt (r : Reason) (m : Machine) : Machine :=
  clearVerifiedPermit (m <| proposed := "" |>) <| state := StateHalt |> <| reason := r |>.

Definition validatePermit (m : Machine) (p : Permit) (now : Time) (to : responsibility.ParticipantID)
    : Reason :=
  if IsZero now || negb (Admissible p) || (TrimSpace (PolicyID p) == "") ||
     (TrimSpace (PolicyVersion p) == "") || (TrimSpace (EvidenceVersion p) == "") ||
     IsZero (EvaluatedAt p) || IsZero (ValidUntil p)
  then ReasonInvalidEvidence else
  if (PermitObjectID p != responsibility.ObjectID (current m)) ||
     (PermitFrom p != responsibility.ResponsibleID (current m)) || (PermitTo p != to)
  then ReasonAuthorizationBinding else
  let now := UTC now in
  if After (EvaluatedAt p) now || After now (ValidUntil p) || Before (ValidUntil p) (EvaluatedAt p)
  then ReasonEvidenceExpired else
  ReasonNone.

Definition Propose (to : responsibility.ParticipantID) : action Machine Error unit :=
  fun m =>
    if (state m != StateIdle) && (state m != StateCommitted)
    then (m, Err ErrInvalidTransition) else
    let rejected := (m <| state := StateRejected |> <| reason := ReasonInvalidTransition |>,
                     Err ErrInvalidTransition) in
    match responsibility.NewParticipantID to with
    | Err _ => rejected
    | Ok validated =>
        if (validated != to) || (to == responsibility.ResponsibleID (current m)) then rejected else
        (clearVerifiedPermit m <| proposed := to |> <| state := StateProposed |>
           <| reason := ReasonNone |>, Ok tt)
    end.

Definition Verify (p : Permit) (now : Time) : action Machine Error unit :=
  fun m =>
    if state m != StateProposed then (m, Err ErrInvalidTransition) else
    let r := validatePermit m p now (proposed m) in
    if r != ReasonNone then (enterHalt r m, Err ErrInvalidPermit) else
    let p := p <| EvaluatedAt := UTC (EvaluatedAt p) |> <| ValidUntil := UTC (ValidUntil p) |> in
    (m <| verifiedPermit := p |> <| hasVerifiedPermit := true |> <| state := StateVerified |>
       <| reason := ReasonNone |>, Ok tt).

(** [Commit] through a service, whose state is its repository; [None] is a
    nil service. *)
Definition Commit {R} `{!responsibility.Repository R} (committedAt : Time)
    : action (Machine * option R) Error responsibility.Snapshot :=
  fun '(m, service) =>
    if state m != StateVerified then ((m, service), Err ErrInvalidTransition) else
    match service with
    | None => ((enterHalt ReasonCommitFailed m, service), Err ErrServiceRequired)
    | Some r =>
        match responsibility.TransferExpected (current m) (proposed m) committedAt r with
        | (r', Err err) =>
            let why := if err == responsibility.ErrConcurrentModification
                       then ReasonConcurrentChange else ReasonCommitFailed in
            ((enterHalt why m, Some r'), Err (ErrResponsibility err))
        | (r', Ok updated) =>
            ((clearVerifiedPermit (m <| current := updated |> <| proposed := "" |>)
                <| state := StateCommitted |> <| reason := ReasonNone |>, Some r'), Ok updated)
        end
    end.

Definition Halt (r : Reason) (m : Machine) : Machine :=
  enterHalt (if r == ReasonNone then ReasonManualHalt else r) m.

Definition Recover (p : Permit) (now : Time) : action Machine Error unit :=
  fun m =>
    if state m != StateHalt then (m, Err ErrInvalidTransition) else
    let r := validatePermit m p now (responsibility.ResponsibleID (current m)) in
    if r != ReasonNone then (m <| reason := r |>, Err ErrInvalidPermit) else
    (clearVerifiedPermit (m <| proposed := "" |>) <| state := StateIdle |> <| reason := ReasonNone |>,
     Ok tt).

(** ** The interlock *)

Record MotionRequest := MkMotionRequest {
  CommandID : string;
  Sequence : Z;
  RequestObjectID : responsibility.PhysicalObjectID;
  RequestResponsible : responsibility.ParticipantID;
  RequestTarget : responsibility.ParticipantID
}.

Record MotionDecision := MkMotionDecision {
  Allowed : bool;
  DecisionReason : Reason;
  DecisionState : option State; (* None is the zero string *)
  DecisionCommandID : string;
  DecisionSequence : Z;
  DecisionObjectID : responsibility.PhysicalObjectID;
  DecisionResponsible : responsibility.ParticipantID;
  DecisionTarget : responsibility.ParticipantID;
  DecisionPolicyID : string;
  DecisionPolicyVersion : string;
  DecisionEvidenceVersion : string;
  DecisionValidUntil : Time
}.

Definition denied (r : Reason) (s : State) (m : Machine) : MotionDecision :=
  MkMotionDecision false r (Some s) "" 0 (responsibility.ObjectID (current m))
    (responsibility.ResponsibleID (current m)) (proposed m) "" "" "" ZeroTime.

Definition AuthorizeMotion (q : MotionRequest) (now : Time) (m : Machine) : Machine * MotionDecision :=
  if (state m != StateVerified) || negb (hasVerifiedPermit m)
  then (m, denied ReasonMotionStateBlocked (state m) m) else
  if (TrimSpace (CommandID q) == "") || (CommandID q != TrimSpace (CommandID q)) ||
     (Sequence q =? 0) || (RequestObjectID q != responsibility.ObjectID (current m)) ||
     (RequestResponsible q != responsibility.ResponsibleID (current m)) ||
     (RequestTarget q != proposed m)
  then (enterHalt ReasonAuthorizationBinding m, denied ReasonAuthorizationBinding StateHalt m) else
  let p := verifiedPermit m in
  let r := validatePermit m p now (proposed m) in
  if r != ReasonNone then (enterHalt r m, denied r StateHalt m) else
  (m, MkMotionDecision true ReasonNone (Some StateVerified) (CommandID q) (Sequence q)
        (RequestObjectID q) (RequestResponsible q) (RequestTarget q) (PolicyID p) (PolicyVersion p)
        (EvidenceVersion p) (ValidUntil p)).

(** A nil machine decides nothing. *)
Definition AuthorizeMotion_ptr (q : MotionRequest) (now : Time) (m : option Machine)
    : option Machine * MotionDecision :=
  match m with
  | None =>
      (None, MkMotionDecision false ReasonMotionStateBlocked None "" 0 "" "" "" "" "" "" ZeroTime)
  | Some m => let '(m', d) := AuthorizeMotion q now m in (Some m', d)
  end.

(** ** Runs: one machine over one repository *)

Inductive Command :=
  | CmdPropose (to : responsibility.ParticipantID)
  | CmdVerify (p : Permit) (now : Time)
  | CmdCommit (committedAt : Time)
  | CmdHalt (r : Reason)
  | CmdRecover (p : Permit) (now : Time)
  | CmdAuthorize (q : MotionRequest) (now : Time).

Definition exec {R} `{!responsibility.Repository R} (c : Command) (sys : Machine * R) : Machine * R :=
  let '(m, r) := sys in
  match c with
  | CmdPropose to => (fst (Propose to m), r)
  | CmdVerify p now => (fst (Verify p now m), r)
  | CmdCommit at_ =>
      match fst (Commit at_ (m, Some r)) with
      | (m', Some r') => (m', r')
      | (m', None) => (m', r)
      end
  | CmdHalt why => (Halt why m, r)
  | CmdRecover p now => (fst (Recover p now m), r)
  | CmdAuthorize q now => (fst (AuthorizeMotion q now m), r)
  end.

(** ** Permits *)

(** What [validatePermit] accepts at [now] for a target Participant. *)
Record permit_valid (cur : responsibility.Snapshot) (p : Permit) (now : Time) (to : string) : Prop := {
  pv_now : instant now <> 0;
  pv_admissible : Admissible p = true;
  pv_policy : TrimSpace (PolicyID p) <> "";
  pv_policy_version : TrimSpace (PolicyVersion p) <> "";
  pv_evidence : TrimSpace (EvidenceVersion p) <> "";
  pv_object : PermitObjectID p = responsibility.ObjectID cur;
  pv_from : PermitFrom p = responsibility.ResponsibleID cur;
  pv_to : PermitTo p = to;
  pv_times : instant (EvaluatedAt p) <> 0 /\ instant (ValidUntil p) <> 0;
  pv_window : instant (EvaluatedAt p) <= instant now <= instant (ValidUntil p)
}.

Lemma validatePermit_none m p now to :
  validatePermit m p now to = ReasonNone <-> permit_valid (current m) p now to.
Proof.
  unfold validatePermit, IsZero, After, Before; simpl. split.
  - intros H. repeat case_match; simplify_eq. go_bool. split; try done; lia.
  - intros []. case_match eqn:H1; [go_absurd|]. case_match eqn:H2; [go_absurd|].
    case_match eqn:H3; [go_absurd|done].
Qed.

Lemma permit_valid_utc cur p now to :
  permit_valid cur p now to <->
  permit_valid cur (p <| EvaluatedAt := UTC (EvaluatedAt p) |> <| ValidUntil := UTC (ValidUntil p) |>) now to.
Proof. split; intros []; by split. Qed.

(** The permit of a verified machine was valid when it was verified. *)
Record machine_ok (m : Machine) : Prop := {
  mo_current : responsibility.stored (current m);
  mo_permit : hasVerifiedPermit m = true <-> state m = StateVerified;
  mo_no_permit : state m <> StateVerified -> verifiedPermit m = ZeroPermit;
  mo_verified : state m = StateVerified ->
    exists now, permit_valid (current m) (verifiedPermit m) now (proposed m);
  mo_proposed : state m = StateProposed \/ state m = StateVerified ->
    responsibility.valid_id (proposed m) /\ proposed m <> responsibility.ResponsibleID (current m);
  mo_unproposed : state m <> StateProposed -> state m <> StateVerified -> proposed m = ""
}.

(** States without a proposal hold no permit. *)
Lemma unproposed_ok m :
  responsibility.stored (current m) -> hasVerifiedPermit m = false -> verifiedPermit m = ZeroPermit ->
  proposed m = "" -> state m <> StateVerified -> state m <> StateProposed -> machine_ok m.
Proof. intros Hc Hh Hp Hpr H1 H2. split; try done; [rewrite Hh; done|by intros [?|?]]. Qed.

Lemma machine_ok_unproposed m :
  machine_ok m -> state m <> StateVerified -> state m <> StateProposed ->
  hasVerifiedPermit m = false /\ verifiedPermit m = ZeroPermit /\ proposed m = "".
Proof.
  intros [_ Hh Hz _ _ Hu] H1 H2. split_and!; [|by apply Hz|by apply Hu].
  destruct (hasVerifiedPermit m); [by destruct H1; apply Hh|done].
Qed.

Lemma enterHalt_ok r m : responsibility.stored (current m) -> machine_ok (enterHalt r m).
Proof. intros H. by apply unproposed_ok. Qed.

Lemma Propose_spec to m m' res :
  Propose to m = (m', res) ->
  (m' = m /\ state m <> StateIdle /\ state m <> StateCommitted /\ res = Err ErrInvalidTransition) \/
  (m' = m <| state := StateRejected |> <| reason := ReasonInvalidTransition |> /\
   (state m = StateIdle \/ state m = StateCommitted) /\ res = Err ErrInvalidTransition) \/
  (m' = MkMachine StateProposed ReasonNone (current m) to ZeroPermit false /\
   (state m = StateIdle \/ state m = StateCommitted) /\ res = Ok tt /\
   responsibility.valid_id to /\ to <> responsibility.ResponsibleID (current m)).
Proof.
  unfold Propose, responsibility.NewParticipantID. intros H.
  case_match eqn:Hs; go_bool; [naive_solver|].
  assert (state m = StateIdle \/ state m = StateCommitted) as Hst by (destruct (state m); naive_solver).
  right. case_match; simplify_eq; [|naive_solver]. repeat case_match; simplify_eq; go_bool; [naive_solver|].
  right. split_and!; try done. split; congruence.
Qed.

Lemma Verify_spec p now m m' res :
  Verify p now m = (m', res) ->
  (m' = m /\ state m <> StateProposed /\ res = Err ErrInvalidTransition) \/
  (exists r, r <> ReasonNone /\ m' = enterHalt r m /\ res = Err ErrInvalidPermit) \/
  (state m = StateProposed /\ permit_valid (current m) p now (proposed m) /\ res = Ok tt /\
   m' = MkMachine StateVerified ReasonNone (current m) (proposed m)
     (p <| EvaluatedAt := UTC (EvaluatedAt p) |> <| ValidUntil := UTC (ValidUntil p) |>) true).
Proof.
  unfold Verify. intros H. case_match eqn:Hs; go_bool; [naive_solver|].
  case_match eqn:Hr; go_bool; simplify_eq; [right; left; by eexists|].
  right; right. apply validatePermit_none in Hr. done.
Qed.

Lemma Recover_spec p now m m' res :
  Recover p now m = (m', res) ->
  (m' = m /\ state m <> StateHalt /\ res = Err ErrInvalidTransition) \/
  (exists r, state m = StateHalt /\ m' = m <| reason := r |> /\ res = Err ErrInvalidPermit) \/
  (state m = StateHalt /\ permit_valid (current m) p now (responsibility.ResponsibleID (current m)) /\
   res = Ok tt /\ m' = MkMachine StateIdle ReasonNone (current m) "" ZeroPermit false).
Proof.
  unfold Recover. intros H. case_match eqn:Hs; go_bool; [naive_solver|].
  case_match eqn:Hr; go_bool; simplify_eq; [right; left; by eexists|].
  right; right. apply validatePermit_none in Hr. done.
Qed.

(** The request an allowed decision answers. *)
Record request_bound (m : Machine) (q : MotionRequest) : Prop := {
  rb_command : CommandID q <> "" /\ TrimSpace (CommandID q) = CommandID q;
  rb_sequence : Sequence q <> 0;
  rb_object : RequestObjectID q = responsibility.ObjectID (current m);
  rb_responsible : RequestResponsible q = responsibility.ResponsibleID (current m);
  rb_target : RequestTarget q = proposed m
}.

Lemma AuthorizeMotion_spec q now m m' d :
  AuthorizeMotion q now m = (m', d) ->
  (m' = m /\ Allowed d = false /\ (state m <> StateVerified \/ hasVerifiedPermit m = false)) \/
  (exists r, m' = enterHalt r m /\ Allowed d = false /\ DecisionState d = Some StateHalt /\
     state m = StateVerified /\ r <> ReasonNone /\
     ~ (request_bound m q /\ permit_valid (current m) (verifiedPermit m) now (proposed m))) \/
  (m' = m /\ Allowed d = true /\ state m = StateVerified /\ hasVerifiedPermit m = true /\
   request_bound m q /\ permit_valid (current m) (verifiedPermit m) now (proposed m)).
Proof.
  unfold AuthorizeMotion. intros H.
  case_match eqn:Hs; go_bool; [simplify_eq; naive_solver|].
  case_match eqn:Hb.
  { simplify_eq. right; left. eexists. split_and!; try done. intros [[[? Htr] ? ? ? ?] _].
    rewrite Htr in Hb. go_absurd. }
  go_bool. case_match eqn:Hr; simplify_eq.
  - right; left. eexists. split_and!; [done..| |]; go_bool; [done|].
    intros [_ Hp%validatePermit_none]. congruence.
  - go_bool. apply validatePermit_none in Hr. right; right. split_and!; try done.
    split; try done. split; congruence.
Qed.

Section over_repository.
Context {R : Type} `{responsibility.RepositoryLaws R}.

Lemma stored_utc cur :
  responsibility.stored cur ->
  cur <| responsibility.AssignedAt := UTC (responsibility.AssignedAt cur) |> = cur.
Proof. intros (_ & _ & HL%UTC_fixed). destruct cur; simpl in *. congruence. Qed.

Lemma Commit_spec at_ m (r : R) m' sv res :
  responsibility.repo_ok r -> responsibility.stored (current m) ->
  Commit at_ (m, Some r) = ((m', sv), res) ->
  (m' = m /\ sv = Some r /\ state m <> StateVerified /\ res = Err ErrInvalidTransition) \/
  (exists why err, m' = enterHalt why m /\ sv = Some r /\ res = Err err /\
     state m = StateVerified) \/
  (exists r', sv = Some r' /\ state m = StateVerified /\
     responsibility.assignment r !! responsibility.ObjectID (current m) = Some (current m) /\
     responsibility.admissible (current m) (proposed m) at_ /\
     let s := responsibility.handed_over (current m) (proposed m) at_ in
     res = Ok s /\ m' = MkMachine StateCommitted ReasonNone s "" ZeroPermit false /\
     responsibility.assignment r' =
       <[responsibility.ObjectID (current m) := s]> (responsibility.assignment r) /\
     responsibility.events r' =
       <[(responsibility.ObjectID (current m), responsibility.Version s) :=
          responsibility.handover_event (current m) (proposed m) at_]> (responsibility.events r) /\
     responsibility.repo_ok r').
Proof.
  intros Hr Hst. unfold Commit. case_match eqn:Hs; go_bool; [intros [= <- <- <-]; by left|].
  destruct (responsibility.TransferExpected _ _ _ r) as [r1 [u|err]] eqn:HT;
    intros [= <- <- <-]; apply responsibility.TransferExpected_spec in HT; try done; right.
  - rewrite (stored_utc _ Hst) in HT. destruct HT as (Hc & Ha & -> & Has & Hev & Hr1).
    right. exists r1. split_and!; done.
  - left. subst. by do 2 eexists.
Qed.

Lemma handed_over_stored cur to at_ :
  responsibility.stored cur -> responsibility.admissible cur to at_ ->
  responsibility.stored (responsibility.handed_over cur to at_).
Proof.
  intros Hst Hadm. pose proof (responsibility.handed_over_validates _ _ _ Hst Hadm) as Hok.
  destruct Hst as (Hv & HV & HL).
  apply responsibility.ValidateTransferCommit_ok in Hok as (Hv' & _ & HV' & _); [|done].
  by split_and!.
Qed.

(** Every command keeps the machine and the repository well-formed. *)
Lemma exec_ok c m (r : R) m' r' :
  machine_ok m -> responsibility.repo_ok r -> exec c (m, r) = (m', r') ->
  machine_ok m' /\ responsibility.repo_ok r'.
Proof.
  intros Hm Hr. pose proof (mo_current _ Hm) as Hcur. unfold exec. destruct c.
  - destruct (Propose to m) as [m1 res] eqn:E. intros [= <- <-]. split; [|done]. simpl.
    apply Propose_spec in E as [(-> & _)|[(-> & Hs & _)|(-> & Hs & _ & Hid & Hne)]]; [done| |].
    + destruct (machine_ok_unproposed m Hm) as (? & ? & ?); [destruct Hs; congruence..|].
      by apply unproposed_ok.
    + by split; simpl; try naive_solver.
  - destruct (Verify p now m) as [m1 res] eqn:E. intros [= <- <-]. split; [|done]. simpl.
    apply Verify_spec in E as [(-> & _)|[(why & _ & -> & _)|(Hs & Hp & _ & ->)]]; [done|by apply enterHalt_ok|].
    split; simpl; try done.
    + intros _. exists now. by apply permit_valid_utc in Hp.
    + intros _. apply (mo_proposed _ Hm). by left.
  - destruct (Commit committedAt (m, Some r)) as [[m1 sv] res] eqn:E.
    apply Commit_spec in E as [(-> & -> & _)|[(why & err & -> & -> & _)|(r1 & -> & Hs & Hc & Hadm & _ & -> & _ & _ & Hr1)]];
      simpl; try done; intros [= <- <-]; split; try done; [by apply enterHalt_ok|].
    apply unproposed_ok; try done. by apply handed_over_stored.
  - intros [= <- <-]. split; [|done]. by apply enterHalt_ok.
  - destruct (Recover p now m) as [m1 res] eqn:E. intros [= <- <-]. split; [|done]. simpl.
    apply Recover_spec in E as [(-> & _)|[(why & Hs & -> & _)|(Hs & Hp & _ & ->)]]; [done| |].
    + destruct (machine_ok_unproposed m Hm) as (? & ? & ?); [congruence..|].
      apply unproposed_ok; simpl; congruence || done.
    + by apply unproposed_ok.
  - destruct (AuthorizeMotion q now m) as [m1 d] eqn:E. intros [= <- <-]. split; [|done]. simpl.
    apply AuthorizeMotion_spec in E as [(-> & _)|[(why & -> & _)|(-> & _)]]; try done.
    by apply enterHalt_ok.
Qed.

Definition step (sys sys' : Machine * R) : Prop := exists c, exec c sys = sys'.

Lemma run_ok sys sys' :
  rtc step sys sys' -> machine_ok (fst sys) -> responsibility.repo_ok (snd sys) ->
  machine_ok (fst sys') /\ responsibility.repo_ok (snd sys').
Proof.
  induction 1 as [|[m r] [m1 r1] sys' [c Hc] _ IH]; [done|]. intros Hm Hr.
  apply IH; by apply (exec_ok c m r m1 r1 Hm Hr Hc).
Qed.

(** Commands, one after the other. *)
Definition run (cs : list Command) (sys : Machine * R) : Machine * R := fold_left (fun sys c => exec c sys) cs sys.

Lemma run_rtc cs sys : rtc step sys (run cs sys).
Proof.
  revert sys. induction cs as [|c cs IH]; intros sys; [done|]. eapply rtc_l; [by exists c|apply IH].
Qed.

(** A machine is verified by its last [Verify] alone, and stays as that left it. *)
Lemma exec_verified c m (r : R) m' r' :
  machine_ok m -> responsibility.repo_ok r -> exec c (m, r) = (m', r') -> state m' = StateVerified ->
  m' = m \/
  exists p now, c = CmdVerify p now /\ state m = StateProposed /\ current m' = current m /\ proposed m' = proposed m /\
    permit_valid (current m) p now (proposed m) /\ fst (Verify p now m) = m'.
Proof.
  intros Hm Hr. pose proof (mo_current _ Hm) as Hcur. unfold exec. destruct c.
  - destruct (Propose to m) as [m1 res] eqn:E. intros [= <- <-]. apply Propose_spec in E. naive_solver.
  - destruct (Verify p now m) as [m1 res] eqn:E. intros [= <- <-] Hs. pose proof E as E'.
    apply Verify_spec in E as [(-> & _)|[(why & _ & -> & _)|(Hs1 & Hp & _ & ->)]]; [by left|done|]. right.
    exists p, now. cbn [fst]. rewrite E'. by split_and!.
  - destruct (Commit committedAt (m, Some r)) as [[m1 sv] res] eqn:E.
    apply Commit_spec in E as [(-> & -> & _)|[(why & err & -> & -> & _)|(r1 & -> & Hs & Hc & Hadm & _ & -> & _)]];
      simpl; try done; intros [= <- <-] Hs2; [by left|done..].
  - by intros [= <- <-].
  - destruct (Recover p now m) as [m1 res] eqn:E. intros [= <- <-] Hs2.
    apply Recover_spec in E as [(-> & _)|[(why & Hs & -> & _)|(_ & _ & _ & ->)]]; [by left| |done]. cbn in Hs2. congruence.
  - destruct (AuthorizeMotion q now m) as [m1 d] eqn:E. intros [= <- <-] Hs2.
    apply AuthorizeMotion_spec in E as [(-> & _)|[(why & -> & _)|(-> & _)]]; [by left|done|by left].
Qed.

(** The command that verified a machine, and the machine before it. *)
Definition verified_in (cs : list Command) (sys : Machine * R) (m : Machine) : Prop :=
  exists before p now after, cs = before ++ CmdVerify p now :: after /\
    let m1 := fst (run before sys) in
    state m1 = StateProposed /\ current m1 = current m /\ proposed m1 = proposed m /\
    permit_valid (current m1) p now (proposed m1) /\ fst (Verify p now m1) = m.

Lemma run_verified cs sys :
  machine_ok (fst sys) -> responsibility.repo_ok (snd sys) -> state (fst sys) <> StateVerified ->
  state (fst (run cs sys)) = StateVerified -> verified_in cs sys (fst (run cs sys)).
Proof.
  intros Hm Hr H0. induction cs as [|c cs IH] using rev_ind; [done|]. unfold run in *. rewrite fold_left_app. cbn [fold_left].
  destruct (run_ok _ _ (run_rtc cs sys) Hm Hr) as [Hm1 Hr1]. unfold run in *.
  destruct (fold_left _ cs sys) as [m1 r1] eqn:E1. destruct (exec c (m1, r1)) as [m2 r2] eqn:E2. cbn [fst snd] in *.
  intros Hs. destruct (exec_verified _ _ _ _ _ Hm1 Hr1 E2 Hs) as [->|(p & now & -> & Hp & Hc & Hpr & Hv & He)].
  - destruct (IH Hs) as (before & p & now & after & -> & Hb). exists before, p, now, (after ++ [c]).
    by rewrite <- app_assoc.
  - exists cs, p, now, []. unfold run. rewrite E1. cbn [fst]. by split_and!.
Qed.

Lemma NewMachine_ok s m :
  is_u64 (responsibility.Version s) -> NewMachine s = Ok m -> machine_ok m.
Proof.
  intros Hu. unfold NewMachine.
  destruct (responsibility.Rehydrate s) as [a|] eqn:E; [|done].
  apply responsibility.Rehydrate_ok in E as [[] ->]. intros [= <-].
  by apply unproposed_ok.
Qed.

Lemma exec_change c m (r : R) m' r' :
  machine_ok m -> responsibility.repo_ok r -> exec c (m, r) = (m', r') ->
  (current m' = current m /\ r' = r) \/
  (exists at_, c = CmdCommit at_ /\ state m = StateVerified /\ state m' = StateCommitted /\
     current m' = responsibility.handed_over (current m) (proposed m) at_ /\
     responsibility.assignment r !! responsibility.ObjectID (current m) = Some (current m) /\
     responsibility.assignment r' =
       <[responsibility.ObjectID (current m) := current m']> (responsibility.assignment r) /\
     responsibility.admissible (current m) (proposed m) at_).
Proof.
  intros Hm Hr. pose proof (mo_current _ Hm) as Hcur. unfold exec. destruct c.
  - destruct (Propose to m) as [m1 res] eqn:E. intros [= <- <-]. left. simpl.
    apply Propose_spec in E. naive_solver.
  - destruct (Verify p now m) as [m1 res] eqn:E. intros [= <- <-]. left. simpl.
    apply Verify_spec in E. naive_solver.
  - destruct (Commit committedAt (m, Some r)) as [[m1 sv] res] eqn:E.
    apply Commit_spec in E as [(-> & -> & _)|[(why & err & -> & -> & _)|(r1 & -> & Hs & Hc & Hadm & _ & -> & Ha & _ & _)]];
      simpl; try done; intros [= <- <-]; [by left..|].
    right. exists committedAt. by split_and!.
  - intros [= <- <-]. by left.
  - destruct (Recover p now m) as [m1 res] eqn:E. intros [= <- <-]. left. simpl.
    apply Recover_spec in E. naive_solver.
  - destruct (AuthorizeMotion q now m) as [m1 d] eqn:E. intros [= <- <-]. left. simpl.
    apply AuthorizeMotion_spec in E. naive_solver.
Qed.
End over_repository.

(** ** Properties *)

Section properties.
Context {R : Type} `{responsibility.RepositoryLaws R}.

(** C4: along every run of commands from a new machine, a successful commit hands
    over exactly from the recorded responsible Participant to the proposed one,
    under the permit that a Verify earlier in the run was given, valid for that
    Object and those Participants at the clock which that Verify read, and the
    repository's assignment becomes the machine's. *)
Theorem commit_requires_verified_permit s m0 (r0 : R) cs m r at_ m' sv snap :
  is_u64 (responsibility.Version s) -> NewMachine s = Ok m0 -> responsibility.repo_ok r0 ->
  run cs (m0, r0) = (m, r) -> Commit at_ (m, Some r) = ((m', sv), Ok snap) ->
  (exists before p now after, cs = before ++ CmdVerify p now :: after /\
    let m1 := fst (run before (m0, r0)) in
    state m1 = StateProposed /\ current m1 = current m /\ proposed m1 = proposed m /\
    permit_valid (current m1) p now (proposed m1) /\ fst (Verify p now m1) = m) /\
  responsibility.admissible (current m) (proposed m) at_ /\
  snap = responsibility.handed_over (current m) (proposed m) at_ /\
  state m' = StateCommitted /\ current m' = snap /\ hasVerifiedPermit m' = false /\
  exists r', sv = Some r' /\
    responsibility.handover (responsibility.ObjectID (current m)) (proposed m)
      (responsibility.responsible r) (responsibility.responsible r') /\
    responsibility.assignment r' !! responsibility.ObjectID (current m) = Some snap.
Proof.
  intros Hu Hnew Hr0 Hrun HC. pose proof (NewMachine_ok s m0 Hu Hnew) as Hm0.
  pose proof (run_verified cs (m0, r0) Hm0 Hr0) as Hv. destruct (run_ok _ _ (run_rtc cs (m0, r0)) Hm0 Hr0) as [Hm Hr].
  rewrite Hrun in Hv, Hm, Hr. simpl in Hm, Hr, Hv.
  apply Commit_spec in HC as [(_ & _ & _ & ?)|[(? & ? & _ & _ & ? & _)|(r' & -> & Hs & Hc & Hadm & Hres & -> & Ha & _ & _)]];
    [done..| |done|by apply mo_current].
  injection Hres as ->. split_and!; try done.
  { apply Hv; [|done]. unfold NewMachine in Hnew. destruct (responsibility.Rehydrate s); [by injection Hnew as <-|done]. }
  exists r'. split_and!; [done| |by rewrite Ha, lookup_insert_eq].
  unfold responsibility.responsible. rewrite Ha, fmap_insert. destruct Hadm as (_ & Hne & _).
  apply responsibility.handover_commit with (from := responsibility.ResponsibleID (current m)); [|done].
  by rewrite lookup_fmap, Hc.
Qed.

(** Only a commit out of VERIFIED changes responsibility: every other
    command, and every failed commit, leaves both the machine's snapshot and
    the repository as they were. *)
Theorem responsibility_changes_only_by_commit c m (r : R) m' r' :
  machine_ok m -> responsibility.repo_ok r -> exec c (m, r) = (m', r') ->
  (current m' = current m /\ r' = r) \/
  (exists at_, c = CmdCommit at_ /\ state m = StateVerified /\ state m' = StateCommitted).
Proof. intros Hm Hr He. apply exec_change in He; naive_solver. Qed.

(** C29: HALT retains responsibility and is left only by Recover with a permit valid
    now for the current Object and its responsible Participant; commits are refused
    without touching the repository and motion is denied. *)
Theorem halt_is_safe c m (r : R) m' r' :
  machine_ok m -> responsibility.repo_ok r -> state m = StateHalt -> exec c (m, r) = (m', r') ->
  current m' = current m /\ r' = r /\
  (state m' = StateHalt \/
   exists p now, c = CmdRecover p now /\ state m' = StateIdle /\
     permit_valid (current m) p now (responsibility.ResponsibleID (current m))) /\
  forall q now, Allowed (snd (AuthorizeMotion q now m)) = false.
Proof.
  intros Hm Hr Hs He.
  destruct (exec_change _ _ _ _ _ Hm Hr He) as [[Hc ->]|(at_ & _ & ? & _)]; [|congruence].
  split_and!; [done|done| |].
  - unfold exec in He. destruct c.
    + destruct (Propose to m) as [m1 res] eqn:E. simplify_eq/=. left.
      apply Propose_spec in E as [(-> & _)|[(_ & [?|?] & _)|(_ & [?|?] & _)]]; congruence.
    + destruct (Verify p now m) as [m1 res] eqn:E. simplify_eq/=. left.
      by apply Verify_spec in E as [(-> & _)|[(why & _ & -> & _)|(? & _)]]; [..|congruence].
    + unfold Commit in He. rewrite Hs in He. simpl in He. simplify_eq. by left.
    + left. by injection He as <-.
    + destruct (Recover p now m) as [m1 res] eqn:E. simplify_eq/=.
      apply Recover_spec in E as [(-> & _)|[(why & _ & -> & _)|(_ & Hp & _ & ->)]];
        [by left|by left|right; by exists p, now].
    + destruct (AuthorizeMotion q now m) as [m1 d] eqn:E. simplify_eq/=. left.
      by apply AuthorizeMotion_spec in E as [(-> & _)|[(why & -> & _)|(-> & _)]].
  - intros q now. destruct (AuthorizeMotion q now m) as [m1 d] eqn:E. simpl.
    apply AuthorizeMotion_spec in E as [(_ & ? & _)|[(why & _ & ? & _)|(_ & _ & ? & _)]];
      [done..|congruence].
Qed.
End properties.

(** Motion is allowed exactly in VERIFIED, for a request carrying a trimmed
    command, a sequence, and the Object, Participant and target of the stored
    permit, while that permit is valid; every refusal in VERIFIED enters HALT and
    erases the permit. *)
Theorem motion_allowed_iff_permit q now m m' d :
  machine_ok m -> AuthorizeMotion q now m = (m', d) ->
  (Allowed d = true <->
   state m = StateVerified /\ request_bound m q /\
   permit_valid (current m) (verifiedPermit m) now (proposed m)) /\
  (Allowed d = true -> m' = m) /\
  (Allowed d = false -> state m = StateVerified ->
   state m' = StateHalt /\ hasVerifiedPermit m' = false /\ verifiedPermit m' = ZeroPermit /\
   current m' = current m).
Proof.
  intros Hm E. pose proof (mo_permit _ Hm) as Hp.
  apply AuthorizeMotion_spec in E as [(-> & Ha & Hs)|[(r & -> & Ha & Hst & Hs & Hr & Hn)|(-> & Ha & Hs & Hh & Hb & Hv)]];
    rewrite Ha.
  - assert (state m <> StateVerified) as Hns by (destruct Hs as [?|Hf]; [done|rewrite Hf in Hp; naive_solver]).
    naive_solver.
  - naive_solver.
  - naive_solver.
Qed.

(** A machine whose stored snapshot is the repository's assignment commits
    an admissible handover: the machine gets to COMMITTED in one step. *)
Theorem verified_commit_succeeds (r : responsibility.MemoryRepository) m at_ :
  rtc responsibility.repo_step responsibility.NewMemoryRepository r -> machine_ok m ->
  state m = StateVerified ->
  responsibility.snapshots r !! responsibility.ObjectID (current m) = Some (current m) ->
  responsibility.admissible (current m) (proposed m) at_ ->
  exists r', Commit at_ (m, Some r) =
    ((MkMachine StateCommitted ReasonNone
        (responsibility.handed_over (current m) (proposed m) at_) "" ZeroPermit false, Some r'),
     Ok (responsibility.handed_over (current m) (proposed m) at_)).
Proof.
  intros Hreach Hm Hs Hc Hadm.
  destruct (responsibility.history_reachable _ Hreach) as [Hmem _ _ He _].
  pose proof (mo_current _ Hm) as Hst. pose proof Hst as (Hv & HV & HL).
  destruct (responsibility.transferLoaded_complete r (current m) (proposed m) at_) as [r' HT]; [done..| |].
  { destruct (responsibility.events r !! _) eqn:E; [|done].
    apply He in E as (_ & _ & _ & s & Hs' & Hle). simplify_eq. lia. }
  exists r'. unfold Commit. rewrite Hs. simpl. unfold responsibility.TransferExpected.
  rewrite (proj2 (responsibility.Rehydrate_ok _ (responsibility.loaded (current m)))) by done.
  rewrite responsibility.snapshot_loaded by done.
  assert (responsibility.FindResponsibility (responsibility.ObjectID (current m)) r
    = Ok (responsibility.loaded (current m))) as -> by (apply responsibility.memory_find_ok; eauto).
  rewrite responsibility.snapshot_loaded by done.
  rewrite bool_decide_eq_true_2 by done. simpl. by rewrite HT.
Qed.

(** Commit never looks at the stored permit, so a permit that expired after
    Verify still commits: replacing the permit changes no outcome. *)
Theorem commit_ignores_permit {R} `{!responsibility.Repository R} at_ m (r : option R) p :
  snd (Commit at_ (m <| verifiedPermit := p |>, r)) = snd (Commit at_ (m, r)) /\
  snd (fst (Commit at_ (m <| verifiedPermit := p |>, r))) = snd (fst (Commit at_ (m, r))).
Proof.
  unfold Commit. simpl. destruct (state m != StateVerified); [done|].
  destruct r as [r|]; [|done].
  by destruct (responsibility.TransferExpected _ _ _ r) as [r' [u|err]].
Qed.

(** ** Witnesses *)

Definition ex_machine : Machine :=
  MkMachine StateIdle ReasonNone responsibility.ex_snapshot "" ZeroPermit false.
Definition ex_permit : Permit :=
  MkPermit "crate-7" "alice" "bob" "policy" "v1" "ev1" (utc_seconds 150) (utc_seconds 180) true.
Definition ex_verified : Machine :=
  fst (Verify ex_permit (utc_seconds 160) (fst (Propose "bob" ex_machine))).
Definition ex_halted : Machine := Halt ReasonNone ex_machine.
Definition ex_request : MotionRequest := MkMotionRequest "cmd-1" 1 "crate-7" "alice" "bob".

Lemma ex_new : NewMachine responsibility.ex_snapshot = Ok ex_machine.
Proof. vm_compute. reflexivity. Qed.

Lemma ex_machine_ok : machine_ok ex_machine.
Proof. apply (NewMachine_ok responsibility.ex_snapshot); [vm_compute; split; congruence|apply ex_new]. Qed.

Lemma ex_repo_ok : responsibility.repo_ok responsibility.ex_repository.
Proof. exact responsibility.ex_ok. Qed.

Lemma ex_run : rtc step (ex_machine, responsibility.ex_repository) (ex_verified, responsibility.ex_repository).
Proof.
  apply rtc_l with (fst (Propose "bob" ex_machine), responsibility.ex_repository);
    [by exists (CmdPropose "bob")|].
  apply rtc_once. by exists (CmdVerify ex_permit (utc_seconds 160)).
Qed.

Lemma ex_verified_ok : machine_ok ex_verified.
Proof. apply (run_ok _ _ ex_run); [apply ex_machine_ok|apply responsibility.ex_ok]. Qed.

Lemma ex_halted_ok : machine_ok ex_halted.
Proof. apply enterHalt_ok, ex_machine_ok. Qed.

Lemma commit_requires_verified_permit_witness :
  exists before p now after, [CmdPropose "bob"; CmdVerify ex_permit (utc_seconds 160)] = before ++ CmdVerify p now :: after /\
    permit_valid responsibility.ex_snapshot p now "bob".
Proof.
  destruct (commit_requires_verified_permit responsibility.ex_snapshot ex_machine
    responsibility.ex_repository [CmdPropose "bob"; CmdVerify ex_permit (utc_seconds 160)]
    ex_verified responsibility.ex_repository (utc_seconds 200)
    (fst (fst (Commit (utc_seconds 200) (ex_verified, Some responsibility.ex_repository)))) (snd (fst (Commit (utc_seconds 200) (ex_verified, Some responsibility.ex_repository))))
    (responsibility.MkSnapshot "crate-7" "bob" 2 (utc_seconds 200)))
    as [(before & p & now & after & Hcs & _ & Hc & Hp & Hv & _) _]; [vm_compute; split; congruence|exact ex_new|exact ex_repo_ok|vm_compute; reflexivity..|].
  exists before, p, now, after. split; [exact Hcs|]. rewrite Hc, Hp in Hv. exact Hv.
Defined.

Lemma responsibility_changes_only_by_commit_witness :
  current (fst (exec (CmdHalt ReasonNone) (ex_machine, responsibility.ex_repository))) =
    responsibility.ex_snapshot.
Proof.
  destruct (responsibility_changes_only_by_commit (CmdHalt ReasonNone) ex_machine
    responsibility.ex_repository _ _ ex_machine_ok ex_repo_ok (surjective_pairing _))
    as [[H _]|[at_ [H _]]].
  - exact H.
  - discriminate H.
Defined.

Lemma halt_is_safe_witness :
  snd (exec (CmdCommit (utc_seconds 200)) (ex_halted, responsibility.ex_repository)) =
    responsibility.ex_repository.
Proof.
  apply (halt_is_safe (CmdCommit (utc_seconds 200)) ex_halted responsibility.ex_repository _ _
    ex_halted_ok ex_repo_ok eq_refl (surjective_pairing _)).
Defined.

Lemma motion_allowed_iff_permit_witness :
  Allowed (snd (AuthorizeMotion ex_request (utc_seconds 170) ex_verified)) = true /\
  fst (AuthorizeMotion ex_request (utc_seconds 170) ex_verified) = ex_verified.
Proof.
  split; [vm_compute; reflexivity|].
  apply (motion_allowed_iff_permit ex_request (utc_seconds 170) ex_verified _ _
    ex_verified_ok (surjective_pairing _)).
  vm_compute. reflexivity.
Defined.

Lemma verified_commit_succeeds_witness :
  exists r', snd (fst (Commit (utc_seconds 200) (ex_verified, Some responsibility.ex_repository))) = Some r'.
Proof.
  destruct (verified_commit_succeeds responsibility.ex_repository ex_verified (utc_seconds 200)
    responsibility.ex_reachable ex_verified_ok) as [r' H].
  - reflexivity.
  - vm_compute. reflexivity.
  - split_and!; vm_compute; try split; congruence || reflexivity.
  - exists r'. rewrite H. reflexivity.
Defined.

(** The permit of [ex_verified] ends at second 180; it still commits at 200. *)
Example expired_permit_commits :
  validatePermit ex_verified (verifiedPermit ex_verified) (utc_seconds 200) "bob" = ReasonEvidenceExpired /\
  snd (Commit (utc_seconds 200) (ex_verified, Some responsibility.ex_repository)) =
    Ok (responsibility.MkSnapshot "crate-7" "bob" 2 (utc_seconds 200)).
Proof. split; vm_compute; reflexivity. Qed.

End safety.
