(* ===== verification/AuditLedger.v ===== *)
(** * The hash-linked audit ledger ([audit/chain.go],
    [persistence/postgres/audit_repository.go])

    Chain entries and their roots, and the append protocol of the PostgreSQL
    ledger. The [audit_ledger] table is the list of its rows, newest first;
    the exclusive table lock makes an append one step. The database itself is
    outside the program: an append takes as argument whether the database
    carries the transaction through. *)

From Stdlib Require Import Ascii String.
From S2P Require Import Prelude GoTime GoString GoCrypto.

Module audit.

Inductive Error :=
  | ErrKindInvalid
  | ErrSequenceInvalid
  | ErrRecordRootMissing
  | ErrOccurredAtMissing
  | ErrEntryNotCanonical
  | ErrLedgerEmpty
  | ErrLedgerConflict
  | ErrDatabase.

(** [RecordKind uint8]; the valid ones are 1 to 4. *)
Definition RecordEvaluation : Z := 1.
Definition RecordEstimator : Z := 2.
Definition RecordResponsibilityHandover : Z := 3.
Definition RecordEvidenceBundle : Z := 4.

Definition KindIsValid (kind : Z) : bool :=
  (RecordEvaluation <=? kind) && (kind <=? RecordEvidenceBundle).

Record Entry := MkEntry {
  Sequence : Z;
  Kind : Z;
  PreviousRoot : bytes;
  RecordRoot : bytes;
  OccurredAt : Time;
  Root : bytes
}.

#[global] Instance Entry_eta : Eta Entry :=
  fun e => MkEntry (Sequence e) (Kind e) (PreviousRoot e) (RecordRoot e) (OccurredAt e) (Root e).

#[global] Instance Entry_eq_dec : EqDecision Entry.
Proof. solve_decision. Defined.

Definition chainDomain : string := "cargoos:audit-chain:v1".

Definition chainPreimage (e : Entry) : bytes :=
  bytes_of chainDomain ++ ascii_of_N (Z.to_N (Kind e)) :: be64 (Sequence e) ++
  PreviousRoot e ++ RecordRoot e ++ be64 (u64 (UnixMicro (OccurredAt e))).

Definition calculateRoot (e : Entry) : bytes := sha256 (chainPreimage e).

Definition NewEntry (sequence kind : Z) (previousRoot recordRoot : bytes) (occurredAt : Time)
    : outcome Error Entry :=
  if negb (KindIsValid kind) then Err ErrKindInvalid else
  if (sequence =? 0) || negb (Bool.eqb (sequence =? 1) (previousRoot == ZeroRoot))
  then Err ErrSequenceInvalid else
  if recordRoot == ZeroRoot then Err ErrRecordRootMissing else
  if IsZero occurredAt then Err ErrOccurredAtMissing else
  let entry := MkEntry sequence kind previousRoot recordRoot
                 (TruncateMicrosecond (UTC occurredAt)) ZeroRoot in
  Ok (entry <| Root := calculateRoot entry |>).

Definition Validate (e : Entry) : option Error :=
  match NewEntry (Sequence e) (Kind e) (PreviousRoot e) (RecordRoot e) (OccurredAt e) with
  | Err err => Some err
  | Ok normalized => if normalized != e then Some ErrEntryNotCanonical else None
  end.

(** ** The ledger *)

Definition Ledger := list Entry.

(** [auditHeadLocked] *)
Definition auditHeadLocked (l : Ledger) : outcome Error (Z * bytes) :=
  match l with
  | [] => Err ErrLedgerEmpty
  | e :: _ => if (length (Root e) != 32%nat) then Err ErrEntryNotCanonical else Ok (Sequence e, Root e)
  end.

(** [insertAuditEntry]: [root] is UNIQUE and [sequence] the primary key. *)
Definition insertAuditEntry (carried : bool) (e : Entry) (l : Ledger) : outcome Error Ledger :=
  if negb carried || existsb (fun x => (Sequence x =? Sequence e) || (Root x == Root e)) l
  then Err ErrDatabase else Ok (e :: l).

Definition AppendAuditEntry (carried : bool) (e : Entry) : action Ledger Error unit :=
  fun l =>
    let conflict := (l, Err ErrLedgerConflict) in
    let insert :=
      match insertAuditEntry carried e l with
      | Err err => (l, Err err)
      | Ok l' => (l', Ok tt)
      end in
    match Validate e with
    | Some _ => (l, Err ErrEntryNotCanonical)
    | None =>
        if i64_max <? Sequence e then (l, Err ErrEntryNotCanonical) else
        match auditHeadLocked l with
        | Err ErrLedgerEmpty =>
            if negb (Sequence e =? 1) || (PreviousRoot e != ZeroRoot) then conflict else insert
        | Err err => (l, Err err)
        | Ok (sequence, root) =>
            if negb (Sequence e =? u64_succ sequence) || (PreviousRoot e != root) then conflict else insert
        end
    end.

(** [nextAuditEntryLocked]: the entry a repository appends for a record. *)
Definition nextAuditEntryLocked (kind : Z) (recordRoot : bytes) (occurredAt : Time) (l : Ledger)
    : outcome Error Entry :=
  match auditHeadLocked l with
  | Err ErrLedgerEmpty => NewEntry 1 kind ZeroRoot recordRoot occurredAt
  | Err err => Err err
  | Ok (sequence, previousRoot) =>
      if i64_max <=? sequence then Err ErrSequenceInvalid else
      NewEntry (u64_succ sequence) kind previousRoot recordRoot occurredAt
  end.

(** [FindAuditHead] *)
Definition FindAuditHead (l : Ledger) : outcome Error Entry :=
  match l with
  | [] => Err ErrLedgerEmpty
  | e :: _ =>
      if (length (PreviousRoot e) != 32%nat) || (length (RecordRoot e) != 32%nat) ||
         (length (Root e) != 32%nat)
      then Err ErrEntryNotCanonical else
      let e := e <| OccurredAt := UTC (OccurredAt e) |> in
      match Validate e with
      | Some err => Err err
      | None => Ok e
      end
  end.

(** ** Lemmas *)

(** Go's fixed-size arrays and an instant within [int64] Unix microseconds. *)
Record go_entry (e : Entry) : Prop := {
  ge_sequence : is_u64 (Sequence e);
  ge_kind : 0 <= Kind e < 256;
  ge_previous : length (PreviousRoot e) = 32%nat;
  ge_record : length (RecordRoot e) = 32%nat;
  ge_time : is_i64 ((instant (OccurredAt e) - unixEpochSeconds * Second) / Microsecond)
}.

Record canonical (e : Entry) : Prop := {
  ce_kind : 1 <= Kind e <= 4;
  ce_sequence : Sequence e <> 0;
  ce_genesis : Sequence e = 1 <-> PreviousRoot e = ZeroRoot;
  ce_record : RecordRoot e <> ZeroRoot;
  ce_time : instant (OccurredAt e) <> 0;
  ce_utc : location (OccurredAt e) = UTCLoc;
  ce_micro : instant (OccurredAt e) mod Microsecond = 0;
  ce_root : Root e = calculateRoot e
}.

Lemma byte_inj a b :
  0 <= a < 256 -> 0 <= b < 256 -> ascii_of_N (Z.to_N a) = ascii_of_N (Z.to_N b) -> a = b.
Proof.
  intros Ha Hb H. apply (f_equal N_of_ascii) in H. rewrite !N_ascii_embedding in H by lia. lia.
Qed.

(** The preimage determines every field but the root itself. *)
Lemma chainPreimage_inj e1 e2 :
  go_entry e1 -> go_entry e2 -> chainPreimage e1 = chainPreimage e2 ->
  Kind e1 = Kind e2 /\ Sequence e1 = Sequence e2 /\ PreviousRoot e1 = PreviousRoot e2 /\
  RecordRoot e1 = RecordRoot e2 /\ UnixMicro (OccurredAt e1) = UnixMicro (OccurredAt e2).
Proof.
  intros [Hs1 Hk1 Hp1 Hr1 Ht1] [Hs2 Hk2 Hp2 Hr2 Ht2] H. unfold chainPreimage in H.
  clear Ht1 Ht2. apply app_inv_head in H. assert (Hk := f_equal head H); cbn [head] in Hk; apply (f_equal tail) in H; cbn [tail] in H.
  apply Some_inj in Hk.
  apply byte_inj in Hk; [|assumption..].
  apply be64_app_inj in H as [Hs H]; [|assumption..].
  apply app_eq_length in H as [Hp H]; [|congruence].
  apply app_eq_length in H as [Hr H]; [|congruence].
  apply be64_inj in H; [|apply u64_range..].
  apply u64_of_i64_inj in H; [|apply i64_range..].
  split_and!; assumption.
Qed.

Lemma calculateRoot_length e : length (calculateRoot e) = 32%nat.
Proof. apply sha256_length. Qed.

Lemma calculateRoot_eq e : calculateRoot e = sha256 (chainPreimage e).
Proof. done. Qed.

#[local] Opaque calculateRoot.

Lemma genesis_flag (s : Z) (p : bytes) :
  Bool.eqb (s =? 1) (p == ZeroRoot) = true <-> (s = 1 <-> p = ZeroRoot).
Proof.
  rewrite eqb_true_iff. destruct (decide (p = ZeroRoot)) as [Hp|Hp].
  - rewrite bool_decide_eq_true_2 by done. rewrite Z.eqb_eq. tauto.
  - rewrite bool_decide_eq_false_2 by done. rewrite Z.eqb_neq. tauto.
Qed.

Lemma NewEntry_ok s k p r t e :
  NewEntry s k p r t = Ok e <->
  1 <= k <= 4 /\ s <> 0 /\ (s = 1 <-> p = ZeroRoot) /\ r <> ZeroRoot /\ instant t <> 0 /\
  e = MkEntry s k p r (TruncateMicrosecond (UTC t))
        (calculateRoot (MkEntry s k p r (TruncateMicrosecond (UTC t)) ZeroRoot)).
Proof.
  rewrite <- genesis_flag. unfold NewEntry. cbn [fset Sequence Kind PreviousRoot RecordRoot OccurredAt].
  generalize (calculateRoot (MkEntry s k p r (TruncateMicrosecond (UTC t)) ZeroRoot)). intros root.
  destruct (KindIsValid k) eqn:Hk; unfold KindIsValid, RecordEvaluation, RecordEvidenceBundle in Hk;
    go_bool; cbn [negb]; [|split; [done|intros (? & _); lia]].
  destruct (s =? 0) eqn:Hs; go_bool; cbn [orb]; [split; [done|tauto]|].
  destruct (Bool.eqb _ _); cbn [negb]; [|split; [done|intros (? & ? & ? & _); done]].
  case_bool_decide as Hr; [split; [done|tauto]|].
  destruct (IsZero t) eqn:Ht; unfold IsZero in Ht; go_bool; [split; [done|tauto]|].
  split; [intros Heq; inversion Heq; split_and!; done|intros (? & ? & ? & ? & ? & ->); done].
Qed.

Lemma calculateRoot_root e r : calculateRoot (e <| Root := r |>) = calculateRoot e.
Proof. done. Qed.

Lemma Validate_none e : Validate e = None <-> canonical e.
Proof.
  unfold Validate. split.
  - destruct (NewEntry _ _ _ _ _) as [n|] eqn:E; [|done].
    destruct (n != e) eqn:Hn; [done|]. apply negb_false_iff, bool_decide_eq_true_1 in Hn.
    intros _. apply NewEntry_ok in E as (Hk & Hs & Hg & Hr & Ht & Hn').
    rewrite Hn in Hn'. clear Hn n.
    assert (Htr := f_equal OccurredAt Hn'). assert (Hroot := f_equal Root Hn').
    cbn [Root OccurredAt] in Hroot, Htr. rewrite <- Htr in Hroot.
    assert (location (OccurredAt e) = UTCLoc) as Hloc by (rewrite Htr; reflexivity).
    split; try assumption.
    apply TruncateMicrosecond_exact. by rewrite (proj2 (UTC_fixed _) Hloc) in Htr.
  - intros [Hk Hs Hg Hr Ht Hl Hm Hroot].
    rewrite (proj2 (NewEntry_ok _ _ _ _ _ (MkEntry (Sequence e) (Kind e) (PreviousRoot e)
      (RecordRoot e) (TruncateMicrosecond (UTC (OccurredAt e)))
      (calculateRoot (MkEntry (Sequence e) (Kind e) (PreviousRoot e) (RecordRoot e)
        (TruncateMicrosecond (UTC (OccurredAt e))) ZeroRoot))))) by done.
    assert (TruncateMicrosecond (UTC (OccurredAt e)) = OccurredAt e) as ->.
    { rewrite (proj2 (UTC_fixed _) Hl). by apply TruncateMicrosecond_exact. }
    case_match eqn:Hc; [|done]. go_bool. destruct Hc. destruct e; simpl in *. by rewrite Hroot.
Qed.

#[local] Opaque chainPreimage.

(** Canonical entries with the same preimage are the same entry. *)
Lemma canonical_inj e1 e2 :
  go_entry e1 -> go_entry e2 -> canonical e1 -> canonical e2 ->
  chainPreimage e1 = chainPreimage e2 -> e1 = e2.
Proof.
  intros G1 G2 C1 C2 H. assert (Root e1 = Root e2) as Hroot.
  { rewrite (ce_root _ C1), (ce_root _ C2). by rewrite !calculateRoot_eq, H. }
  apply chainPreimage_inj in H as (Hk & Hs & Hp & Hr & Ht); [|assumption..].
  apply UnixMicro_inj in Ht;
    [|apply (ce_micro _ C1)|apply (ce_micro _ C2)|apply (ge_time _ G1)|apply (ge_time _ G2)].
  pose proof (ce_utc _ C1) as U1. pose proof (ce_utc _ C2) as U2. clear G1 G2 C1 C2.
  destruct e1 as [s1 k1 p1 r1 [i1 l1] x1], e2 as [s2 k2 p2 r2 [i2 l2] x2].
  cbn [Sequence Kind PreviousRoot RecordRoot OccurredAt Root instant location] in *. congruence.
Qed.

(** Entries whose roots agree are equal, or their preimages collide. *)
Lemma root_binds e1 e2 :
  go_entry e1 -> go_entry e2 -> canonical e1 -> canonical e2 -> Root e1 = Root e2 ->
  e1 = e2 \/ Collision (chainPreimage e1) (chainPreimage e2).
Proof.
  intros G1 G2 C1 C2 H.
  destruct (decide (chainPreimage e1 = chainPreimage e2)) as [Hp|Hp].
  - left. by apply canonical_inj.
  - right. split; [done|]. rewrite (ce_root _ C1), (ce_root _ C2), !calculateRoot_eq in H. exact H.
Qed.

(** *** The chain invariant *)

(** What an entry says of the rows under it. *)
Definition links (e : Entry) (l : Ledger) : Prop :=
  match l with
  | [] => Sequence e = 1 /\ PreviousRoot e = ZeroRoot
  | e' :: _ => Sequence e = Sequence e' + 1 /\ PreviousRoot e = Root e'
  end.

Fixpoint chained (l : Ledger) : Prop :=
  match l with
  | [] => True
  | e :: l' => canonical e /\ go_entry e /\ Sequence e <= i64_max /\ links e l' /\ chained l'
  end.

(** The ledgers the append operation can produce, failed appends included. *)
Inductive reachable : Ledger -> Prop :=
  | reachable_empty : reachable []
  | reachable_append l carried e :
      reachable l -> go_entry e -> reachable (fst (AppendAuditEntry carried e l)).

(** The append accepts exactly an entry that links to the head. *)
Lemma AppendAuditEntry_cases carried e l :
  AppendAuditEntry carried e l = (e :: l, Ok tt) /\ canonical e /\ Sequence e <= i64_max /\
    match l with
    | [] => Sequence e = 1 /\ PreviousRoot e = ZeroRoot
    | e' :: _ => Sequence e = u64_succ (Sequence e') /\ PreviousRoot e = Root e'
    end \/
  exists err, AppendAuditEntry carried e l = (l, Err err).
Proof.
  unfold AppendAuditEntry.
  destruct (Validate e) eqn:Hv; [by eauto|]. apply Validate_none in Hv.
  destruct (i64_max <? Sequence e) eqn:Hm; [by eauto|]. apply Z.ltb_ge in Hm.
  destruct (insertAuditEntry carried e l) as [l'|err] eqn:Hi; unfold insertAuditEntry in Hi;
    destruct (negb carried || _); simplify_eq.
  - destruct l as [|e' l]; cbn [auditHeadLocked].
    + destruct (negb (Sequence e =? 1) || _) eqn:Hc; [by eauto|]. go_bool. by left.
    + destruct (length (Root e') != 32%nat); [by eauto|].
      destruct (negb (Sequence e =? _) || _) eqn:Hc; [by eauto|]. go_bool. by left.
  - right. destruct (auditHeadLocked l) as [[sequence root]|[]]; try case_match; eauto.
Qed.

Lemma chained_range e l : chained (e :: l) -> is_u64 (Sequence e) /\ Sequence e <= i64_max.
Proof. intros (_ & G & Hm & _). split; [apply (ge_sequence _ G)|done]. Qed.

Lemma u64_succ_i64 v : is_u64 v -> v <= i64_max -> u64_succ v = v + 1.
Proof.
  intros Hv Hm. apply u64_succ_small; [done|]. intros ->. by vm_compute in Hm.
Qed.

Lemma append_chained carried e l :
  chained l -> go_entry e -> chained (fst (AppendAuditEntry carried e l)).
Proof.
  intros Hl G. destruct (AppendAuditEntry_cases carried e l) as [(-> & C & Hm & Hlink)|[err ->]]; [|done].
  cbn [fst chained]. split_and!; [done..| |done].
  destruct l as [|e' l]; [done|]. apply chained_range in Hl as [Hr Hx].
  cbn [links]. by rewrite <- u64_succ_i64.
Qed.

Lemma reachable_chained l : reachable l -> chained l.
Proof. induction 1; [done|]. by apply append_chained. Qed.

(** The entry at depth [i] has the sequence number of its position. *)
Lemma chained_sequence l i e :
  chained l -> l !! i = Some e -> Sequence e = Z.of_nat (length l - i).
Proof.
  revert e i. induction l as [|e' l IH]; intros e i Hl Hi; [done|].
  destruct Hl as (C & G & Hm & Hk & Hl). clear C G Hm. destruct i as [|i]; simplify_eq/=.
  - destruct l as [|e'' l]; cbn [links length] in *; [lia|].
    rewrite (proj1 Hk), (IH e'' 0%nat Hl eq_refl). cbn [length]. lia.
  - by apply IH.
Qed.

Lemma chained_forall l e : chained l -> e ∈ l -> canonical e /\ go_entry e.
Proof.
  induction l as [|e' l IH]; intros Hl He; [by apply elem_of_nil in He|].
  destruct Hl as (C & G & _ & _ & Hl). apply elem_of_cons in He as [->|He]; auto.
Qed.

(** The head as the append reads it. *)
Lemma chained_head l :
  chained l ->
  auditHeadLocked l =
  match l with [] => Err ErrLedgerEmpty | e :: _ => Ok (Sequence e, Root e) end.
Proof.
  destruct l as [|e l]; [done|]. intros (C & _). cbn [auditHeadLocked].
  rewrite bool_decide_eq_true_2; [done|]. rewrite (ce_root _ C). apply calculateRoot_length.
Qed.

Lemma NewEntry_canonical s k p r t e :
  NewEntry s k p r t = Ok e -> instant (TruncateMicrosecond t) <> 0 -> canonical e.
Proof.
  intros (Hk & Hs & Hg & Hr & Ht & ->)%NewEntry_ok Ht'.
  split; cbn [Sequence Kind PreviousRoot RecordRoot Root OccurredAt]; try done.
  apply TruncateMicrosecond_exact, TruncateMicrosecond_idemp.
Qed.

(** An entry of another sequence number can only clash by its root. *)
Lemma insert_or_collision e l :
  chained l -> canonical e -> go_entry e -> Sequence e = Z.of_nat (length l) + 1 ->
  insertAuditEntry true e l = Ok (e :: l) \/
  exists e', e' ∈ l /\ Collision (chainPreimage e') (chainPreimage e).
Proof.
  intros Hl C G Hs. unfold insertAuditEntry. cbn [negb orb].
  destruct (existsb _ l) eqn:Hx; [right|by left].
  apply existsb_exists in Hx as (e' & Hin & Hx). apply list_elem_of_In in Hin as Hin'.
  apply list_elem_of_lookup_1 in Hin' as [i Hi].
  pose proof (chained_sequence _ _ _ Hl Hi) as Hs'.
  destruct (chained_forall _ _ Hl (list_elem_of_lookup_2 _ _ _ Hi)) as [C' G'].
  exists e'. split; [by eapply list_elem_of_lookup_2|].
  apply orb_true_iff in Hx as [Hx|Hx]; [apply Z.eqb_eq in Hx; lia|].
  apply bool_decide_eq_true_1 in Hx.
  destruct (root_binds e' e G' G C' C Hx) as [->|Hc]; [lia|done].
Qed.

(** A record of a valid kind has a next entry while the sequence fits [int64]. *)
Lemma next_entry_ok l kind recordRoot occurredAt :
  chained l -> 1 <= kind <= 4 -> recordRoot <> ZeroRoot -> instant occurredAt <> 0 ->
  Z.of_nat (length l) < i64_max -> option_map Root (head l) <> Some ZeroRoot ->
  let p := match l with [] => ZeroRoot | e :: _ => Root e end in
  nextAuditEntryLocked kind recordRoot occurredAt l =
    NewEntry (Z.of_nat (length l) + 1) kind p recordRoot occurredAt /\
  exists e, NewEntry (Z.of_nat (length l) + 1) kind p recordRoot occurredAt = Ok e.
Proof.
  intros Hl Hk Hr Ht Hmax Hroot p. split.
  - unfold nextAuditEntryLocked. rewrite chained_head by done. destruct l as [|e l]; [done|].
    pose proof (chained_sequence _ 0 _ Hl eq_refl) as Hs.
    apply chained_range in Hl as [Hu Hm]. rewrite u64_succ_i64 by done.
    rewrite Nat.sub_0_r in Hs. rewrite Hs. by rewrite (proj2 (Z.leb_gt _ _)).
  - eexists. apply NewEntry_ok. split_and!; [lia|lia|lia| |done|done|done].
    subst p. destruct l as [|e l]; cbn [length head option_map] in *; [done|].
    split; [lia|]. intros He. by rewrite He in Hroot.
Qed.

Lemma prev_root_length l :
  chained l -> length (match l with [] => ZeroRoot | e :: _ => Root e end) = 32%nat.
Proof. destruct l as [|e l]; [done|]. intros (C & _). rewrite (ce_root _ C). apply calculateRoot_length. Qed.

Lemma append_ok e l :
  chained l -> canonical e -> Sequence e = Z.of_nat (length l) + 1 -> Sequence e <= i64_max ->
  PreviousRoot e = match l with [] => ZeroRoot | e' :: _ => Root e' end ->
  insertAuditEntry true e l = Ok (e :: l) -> AppendAuditEntry true e l = (e :: l, Ok tt).
Proof.
  intros Hl C Hs Hm Hp Hi. unfold AppendAuditEntry. rewrite (proj2 (Validate_none e) C).
  rewrite (proj2 (Z.ltb_ge _ _) Hm), chained_head, Hi by done.
  destruct l as [|e' l].
  - rewrite Hs, Hp. cbn [length Nat.add]. by rewrite bool_decide_eq_true_2.
  - pose proof (chained_sequence _ 0 _ Hl eq_refl) as Hs'. rewrite Nat.sub_0_r in Hs'.
    apply chained_range in Hl as [Hu Hm']. rewrite u64_succ_i64, Hs', <- Hs, Z.eqb_refl, Hp by done.
    by rewrite bool_decide_eq_true_2.
Qed.

(** *** Properties *)

(** C7: every ledger the appends can produce, with any entries offered and any
    database failures, is a hash chain: each row validates, its sequence is its
    position counted from one at the oldest row, and its previous root is the root
    of the row before it (zero for the first). *)
Theorem ledger_is_a_chain l i e :
  reachable l -> l !! i = Some e ->
  Validate e = None /\ Sequence e = Z.of_nat (length l - i) /\
  PreviousRoot e = match l !! S i with Some e' => Root e' | None => ZeroRoot end.
Proof.
  intros Hl%reachable_chained Hi. split_and!.
  - apply Validate_none. eapply chained_forall; [done|]. by eapply list_elem_of_lookup_2.
  - by apply chained_sequence.
  - revert i Hi. induction l as [|e' l IH]; intros i Hi; [done|].
    destruct Hl as (_ & _ & _ & Hk & Hl). destruct i as [|i]; simplify_eq/=; [|by apply IH].
    destruct l as [|e'' l]; apply Hk.
Qed.

(** C8: the head root commits to the whole history. Two ledgers whose head rows have
    the same root are equal row by row, or two of their rows have different SHA-256
    preimages with one digest. *)
Theorem ledger_tamper_evident l1 l2 :
  reachable l1 -> reachable l2 ->
  option_map Root (head l1) = option_map Root (head l2) ->
  l1 = l2 \/
  exists e1 e2, e1 ∈ l1 /\ e2 ∈ l2 /\ Collision (chainPreimage e1) (chainPreimage e2).
Proof.
  intros H1%reachable_chained H2%reachable_chained. revert l2 H2.
  induction l1 as [|e1 l1 IH]; intros [|e2 l2] H2 Hroot; try done; [by left|].
  pose proof (chained_sequence _ 0 _ H1 eq_refl) as S1.
  pose proof (chained_sequence _ 0 _ H2 eq_refl) as S2.
  destruct H1 as (C1 & G1 & _ & K1 & H1). destruct H2 as (C2 & G2 & _ & K2 & H2).
  cbn [head option_map] in Hroot. apply Some_inj in Hroot.
  destruct (root_binds e1 e2 G1 G2 C1 C2 Hroot) as [<-|Hc];
    [|right; exists e1, e2; split_and!; [left|left|done]]. clear C1 C2 G1 G2.
  destruct (IH H1 l2 H2) as [->|(x & y & Hx & Hy & Hc)]; [|by left|].
  - destruct l1 as [|x l1], l2 as [|y l2]; cbn [length] in *; [done|lia|lia|].
    cbn [head option_map]. f_equal. destruct K1 as [_ <-], K2 as [_ <-]. done.
  - right. exists x, y. split_and!; [by right|by right|done].
Qed.

(** A repository's record always gets its audit row. On a reachable ledger,
    nextAuditEntryLocked yields an entry for any record of a valid kind with a root
    and a time, while sequences fit int64, and the append of that entry succeeds
    when the database carries it through, unless its root collides with that of an
    earlier row. *)
Theorem next_entry_appends l kind recordRoot occurredAt :
  reachable l -> 1 <= kind <= 4 -> length recordRoot = 32%nat -> recordRoot <> ZeroRoot ->
  instant (TruncateMicrosecond occurredAt) <> 0 -> Z.of_nat (length l) < i64_max ->
  is_i64 ((instant (TruncateMicrosecond occurredAt) - unixEpochSeconds * Second) / Microsecond) ->
  option_map Root (head l) <> Some ZeroRoot ->
  exists e, nextAuditEntryLocked kind recordRoot occurredAt l = Ok e /\
    RecordRoot e = recordRoot /\ Kind e = kind /\
    (AppendAuditEntry true e l = (e :: l, Ok tt) \/
     exists e', e' ∈ l /\ Collision (chainPreimage e') (chainPreimage e)).
Proof.
  intros Hl%reachable_chained Hk Hlen Hr Ht Hmax Hin Hroot.
  assert (instant occurredAt <> 0) as Ht'.
  { intros H0. apply Ht. unfold TruncateMicrosecond. cbn [instant]. by rewrite H0. }
  destruct (next_entry_ok l kind recordRoot occurredAt) as [-> [e He]]; try done.
  exists e. split; [done|]. pose proof (NewEntry_canonical _ _ _ _ _ _ He Ht) as C.
  apply NewEntry_ok in He as (_ & _ & _ & _ & _ & He).
  assert (go_entry e) as G.
  { rewrite He. split; cbn [Sequence Kind PreviousRoot RecordRoot OccurredAt]; try done; [|lia|].
    - split; [lia|]. clear -Hmax. unfold i64_max, u64_modulus in *. lia.
    - by apply prev_root_length. }
  assert (Sequence e = Z.of_nat (length l) + 1) as Hs by by rewrite He.
  split_and!; [by rewrite He..|].
  destruct (insert_or_collision e l Hl C G Hs) as [Hi|Hc]; [left|by right].
  apply append_ok; [done..|lia| |done]. by rewrite He.
Qed.

(** A successful append adds exactly its entry, and [FindAuditHead] then
    reads that entry back. *)
Theorem append_then_head carried e l l' :
  go_entry e -> AppendAuditEntry carried e l = (l', Ok tt) ->
  l' = e :: l /\ FindAuditHead l' = Ok e.
Proof.
  intros G H. destruct (AppendAuditEntry_cases carried e l) as [(H' & C & _)|[err H']];
    rewrite H' in H; simplify_eq. split; [done|].
  unfold FindAuditHead. rewrite (ge_previous _ G), (ge_record _ G).
  assert (length (Root e) = 32%nat) as -> by (rewrite (ce_root _ C); apply calculateRoot_length).
  cbn [negb orb bool_decide]. rewrite !bool_decide_eq_true_2 by done. cbn [negb orb].
  cbn [fset]. rewrite (proj2 (UTC_fixed _) (ce_utc _ C)).
  replace (MkEntry _ _ _ _ _ _) with e by by destruct e.
  by rewrite (proj2 (Validate_none e) C).
Qed.

(** *** Witnesses *)

Definition ex_root (c : ascii) : bytes := replicate 32 c.
Definition ex_time (s : Z) : Time := utc_seconds (unixEpochSeconds + s).

Definition ex_next (c : ascii) (s : Z) (l : Ledger) : Entry :=
  match nextAuditEntryLocked RecordResponsibilityHandover (ex_root c) (ex_time s) l with
  | Ok e => e
  | Err _ => MkEntry 0 0 [] [] (ex_time 0) []
  end.

Definition ex_append (c : ascii) (s : Z) (l : Ledger) : Ledger :=
  fst (AppendAuditEntry true (ex_next c s l) l).

Definition ex_ledger1 : Ledger := Eval vm_compute in ex_append "a" 10 [].
Definition ex_ledger2 : Ledger := Eval vm_compute in ex_append "b" 20 ex_ledger1.

Ltac ex_go_entry :=
  split; vm_compute; repeat split; try reflexivity; intros ?; discriminate.

Lemma ex_reachable1 : reachable ex_ledger1.
Proof.
  change ex_ledger1 with (ex_append "a" 10 []). apply (reachable_append [] true); [constructor|].
  ex_go_entry.
Qed.

Lemma ex_reachable2 : reachable ex_ledger2.
Proof.
  change ex_ledger2 with (ex_append "b" 20 ex_ledger1).
  apply (reachable_append _ true); [apply ex_reachable1|]. ex_go_entry.
Qed.

Lemma ledger_is_a_chain_witness :
  exists e, ex_ledger2 !! 1%nat = Some e /\ Sequence e = 1 /\ PreviousRoot e = ZeroRoot.
Proof.
  eexists. split; [reflexivity|].
  destruct (ledger_is_a_chain ex_ledger2 1 _ ex_reachable2 eq_refl) as (_ & Hs & Hp).
  split; [exact Hs|exact Hp].
Defined.

Lemma ledger_tamper_evident_witness :
  option_map Root (head ex_ledger2) = option_map Root (head ex_ledger2) /\
  (ex_ledger2 = ex_ledger2 \/
   exists e1 e2, e1 ∈ ex_ledger2 /\ e2 ∈ ex_ledger2 /\ Collision (chainPreimage e1) (chainPreimage e2)).
Proof.
  split; [reflexivity|].
  exact (ledger_tamper_evident ex_ledger2 ex_ledger2 ex_reachable2 ex_reachable2 eq_refl).
Defined.

Lemma next_entry_appends_witness :
  exists e, nextAuditEntryLocked 3 (ex_root "c") (ex_time 30) ex_ledger2 = Ok e /\
    RecordRoot e = ex_root "c" /\ Kind e = 3.
Proof.
  destruct (next_entry_appends ex_ledger2 3 (ex_root "c") (ex_time 30) ex_reachable2)
    as (e & He & Hr & Hk & _).
  - lia.
  - reflexivity.
  - discriminate.
  - discriminate.
  - reflexivity.
  - split; vm_compute; discriminate.
  - vm_compute. discriminate.
  - exists e. split; [exact He|]. split; [exact Hr|exact Hk].
Defined.

Lemma append_then_head_witness :
  FindAuditHead (ex_next "a" 10 [] :: []) = Ok (ex_next "a" 10 []).
Proof.
  apply (append_then_head true (ex_next "a" 10 []) [] (ex_next "a" 10 [] :: [])).
  - ex_go_entry.
  - vm_compute. reflexivity.
Defined.

End audit.
