(* ===== verification/Spatial.v ===== *)
(** * Spatial estimates ([spatial/])

    Estimates of positions with their covariance ([estimate.go]), whether two
    estimates admit a handover ([admissibility.go]) and whether a change of
    floor is consistent ([floor_transition.go]).

    Arithmetic is that of binary64, rounded to nearest after every operation:
    products and sums are not fused. *)

From Stdlib Require Import Ascii String Floats.SpecFloat.
From S2P Require Import Prelude GoTime GoString GoFloat.

Module spatial.

Inductive Error :=
  | ErrFrameRequired
  | ErrNonFiniteValue
  | ErrInvalidCovariance
  | ErrConfidenceRange
  | ErrObservedAtRequired
  | ErrProfileRequired
  | ErrCalibrationRequired
  | ErrNonCanonicalEstimate
  | ErrInvalidAdmissibilityPolicy
  | ErrEvaluationTimeRequired
  | ErrInvalidFloorTransitionPolicy.

(** ** Estimates *)

Definition FrameID := string.

Definition NewFrameID (value : string) : outcome Error FrameID :=
  let value := TrimSpace value in
  if value == "" then Err ErrFrameRequired else Ok value.

Record Vector3 := MkVector3 {
  X : float64;
  Y : float64;
  Z_ : float64
}.

Definition finite (value : float64) : bool := negb (f_is_nan value) && negb (f_is_inf value).

Definition ValidateVector (v : Vector3) : option Error :=
  if negb (finite (X v)) || negb (finite (Y v)) || negb (finite (Z_ v)) then Some ErrNonFiniteValue else None.

Record Covariance3 := MkCovariance3 {
  XX : float64;
  XY : float64;
  XZ : float64;
  YY : float64;
  YZ : float64;
  ZZ : float64
}.

(** [-1e-12] *)
Definition negTolerance : float64 := Eval vm_compute in f_ratio (-1) (10 ^ 12).

Definition ValidateCovariance (c : Covariance3) : option Error :=
  if negb (finite (XX c)) || negb (finite (XY c)) || negb (finite (XZ c)) ||
     negb (finite (YY c)) || negb (finite (YZ c)) || negb (finite (ZZ c))
  then Some ErrNonFiniteValue else
  let scale :=
    f_max (f_max (f_abs (XX c)) (f_abs (XY c)))
          (f_max (f_max (f_abs (XZ c)) (f_abs (YY c))) (f_max (f_abs (YZ c)) (f_abs (ZZ c)))) in
  if f_eq scale f_zero then None else
  let xx := f_div (XX c) scale in
  let xy := f_div (XY c) scale in
  let xz := f_div (XZ c) scale in
  let yy := f_div (YY c) scale in
  let yz := f_div (YZ c) scale in
  let zz := f_div (ZZ c) scale in
  if f_lt (XX c) f_zero || f_lt (YY c) f_zero || f_lt (ZZ c) f_zero ||
     f_lt (f_sub (f_mul xx yy) (f_mul xy xy)) negTolerance ||
     f_lt (f_sub (f_mul xx zz) (f_mul xz xz)) negTolerance ||
     f_lt (f_sub (f_mul yy zz) (f_mul yz yz)) negTolerance
  then Some ErrInvalidCovariance else
  let determinant :=
    f_add (f_sub (f_mul xx (f_sub (f_mul yy zz) (f_mul yz yz)))
                 (f_mul xy (f_sub (f_mul xy zz) (f_mul yz xz))))
          (f_mul xz (f_sub (f_mul xy yz) (f_mul yy xz))) in
  if f_lt determinant negTolerance then Some ErrInvalidCovariance else None.

Definition Trace (c : Covariance3) : outcome Error float64 :=
  let trace := f_add (f_add (XX c) (YY c)) (ZZ c) in
  if negb (finite trace) then Err ErrNonFiniteValue else Ok trace.

(** [EstimateInput] has the fields of [Estimate]. [Floor] is an [int32]. *)
Record Estimate := MkEstimate {
  Frame : FrameID;
  Position : Vector3;
  Floor : Z;
  Covariance : Covariance3;
  Confidence : float64;
  ObservedAt : Time;
  ProfileID : string;
  ProfileVersion : string;
  CalibrationVersion : string
}.

Definition zeroEstimate : Estimate :=
  MkEstimate "" (MkVector3 f_zero f_zero f_zero) 0
    (MkCovariance3 f_zero f_zero f_zero f_zero f_zero f_zero) f_zero ZeroTime "" "" "".

Definition EstimateInput := Estimate.

Definition NewEstimate (input : EstimateInput) : outcome Error Estimate :=
  match NewFrameID (Frame input) with
  | Err _ => Err ErrFrameRequired
  | Ok frame =>
      if frame != Frame input then Err ErrFrameRequired else
      match ValidateVector (Position input) with
      | Some err => Err err
      | None =>
      match ValidateCovariance (Covariance input) with
      | Some err => Err err
      | None =>
          if negb (finite (Confidence input)) then Err ErrNonFiniteValue else
          if f_lt (Confidence input) f_zero || f_gt (Confidence input) f_one then Err ErrConfidenceRange else
          if IsZero (ObservedAt input) then Err ErrObservedAtRequired else
          let profileID := TrimSpace (ProfileID input) in
          let profileVersion := TrimSpace (ProfileVersion input) in
          if (profileID == "") || (profileVersion == "") then Err ErrProfileRequired else
          let calibrationVersion := TrimSpace (CalibrationVersion input) in
          if calibrationVersion == "" then Err ErrCalibrationRequired else
          Ok (MkEstimate frame (Position input) (Floor input) (Covariance input) (Confidence input)
                (UTC (ObservedAt input)) profileID profileVersion calibrationVersion)
      end
      end
  end.

(** [==] of the structs: that of floats is [f_eq]. *)
Definition vectorEqual (v w : Vector3) : bool := f_eq (X v) (X w) && f_eq (Y v) (Y w) && f_eq (Z_ v) (Z_ w).

Definition covarianceEqual (c d : Covariance3) : bool :=
  f_eq (XX c) (XX d) && f_eq (XY c) (XY d) && f_eq (XZ c) (XZ d) &&
  f_eq (YY c) (YY d) && f_eq (YZ c) (YZ d) && f_eq (ZZ c) (ZZ d).

Definition estimateEqual (e f : Estimate) : bool :=
  (Frame e == Frame f) && vectorEqual (Position e) (Position f) && (Floor e =? Floor f) &&
  covarianceEqual (Covariance e) (Covariance f) && f_eq (Confidence e) (Confidence f) &&
  (ObservedAt e == ObservedAt f) && (ProfileID e == ProfileID f) &&
  (ProfileVersion e == ProfileVersion f) && (CalibrationVersion e == CalibrationVersion f).

Definition Validate (e : Estimate) : option Error :=
  match NewEstimate e with
  | Err err => Some err
  | Ok normalized => if negb (estimateEqual normalized e) then Some ErrNonCanonicalEstimate else None
  end.

(** ** Flags *)

(** [failure.Has(flag)] *)
Definition Has (failure flag : Z) : bool := negb (Z.land failure flag =? 0).

(** [if c { failures |= flag }] *)
Definition raise (c : bool) (flag failures : Z) : Z := if c then Z.lor failures flag else failures.

(** ** Admissibility *)

Definition FailureNone : Z := 0.
Definition FailureFrameMismatch : Z := 1.
Definition FailureLowConfidence : Z := 2.
Definition FailureStale : Z := 4.
Definition FailureFuture : Z := 8.
Definition FailureProximity : Z := 16.
Definition FailureFloorMismatch : Z := 32.
Definition FailureUncertainty : Z := 64.

Record AdmissibilityPolicy := MkAdmissibilityPolicy {
  MinConfidence : float64;
  MaxAge : Duration;
  FutureTolerance : Duration;
  MaxDistance : float64;
  MaxTrace : float64
}.

Definition ValidateAdmissibilityPolicy (p : AdmissibilityPolicy) : option Error :=
  if negb (finite (MinConfidence p)) || f_lt (MinConfidence p) f_zero || f_gt (MinConfidence p) f_one ||
     (MaxAge p <=? 0) || (FutureTolerance p <? 0) ||
     negb (finite (MaxDistance p)) || f_le (MaxDistance p) f_zero ||
     negb (finite (MaxTrace p)) || f_le (MaxTrace p) f_zero
  then Some ErrInvalidAdmissibilityPolicy else None.

Record AdmissibilityResult := MkAdmissibilityResult {
  Admissible : bool;
  Failures : Z;
  Distance : float64;
  ObjectAge : Duration;
  ParticipantAge : Duration
}.

(** The distance of two positions. *)
Definition distance (v w : Vector3) : float64 :=
  f_hypot (f_hypot (f_sub (X v) (X w)) (f_sub (Y v) (Y w))) (f_sub (Z_ v) (Z_ w)).

(** [trace > max], or there is no trace. *)
Definition uncertain (c : Covariance3) (max : float64) : bool :=
  match Trace c with
  | Err _ => true
  | Ok trace => f_gt trace max
  end.

Definition EvaluateAdmissibility (object participant : Estimate) (policy : AdmissibilityPolicy) (now : Time)
    : outcome Error AdmissibilityResult :=
  match Validate object with
  | Some err => Err err
  | None =>
  match Validate participant with
  | Some err => Err err
  | None =>
  match ValidateAdmissibilityPolicy policy with
  | Some err => Err err
  | None =>
      if IsZero now then Err ErrEvaluationTimeRequired else
      let now := UTC now in
      let objectAge := Sub now (ObservedAt object) in
      let participantAge := Sub now (ObservedAt participant) in
      let mismatch := Frame object != Frame participant in
      let d := if mismatch then f_zero else distance (Position object) (Position participant) in
      let failures :=
        if mismatch then raise true FailureFrameMismatch FailureNone
        else raise (negb (finite d) || f_gt d (MaxDistance policy)) FailureProximity FailureNone in
      let failures := raise (f_lt (Confidence object) (MinConfidence policy) ||
                             f_lt (Confidence participant) (MinConfidence policy))
                        FailureLowConfidence failures in
      let failures := raise ((MaxAge policy <? objectAge) || (MaxAge policy <? participantAge))
                        FailureStale failures in
      let failures := raise ((objectAge <? i64 (- FutureTolerance policy)) ||
                             (participantAge <? i64 (- FutureTolerance policy)))
                        FailureFuture failures in
      let failures := raise (negb (Floor object =? Floor participant)) FailureFloorMismatch failures in
      let failures := raise (uncertain (Covariance object) (MaxTrace policy) ||
                             uncertain (Covariance participant) (MaxTrace policy))
                        FailureUncertainty failures in
      Ok (MkAdmissibilityResult (failures =? FailureNone) failures d objectAge participantAge)
  end
  end
  end.

(** ** Floor transitions *)

(** A [uint32]. *)
Definition MaxFloorStep : Z := 100.

Definition FloorFailureNone : Z := 0.
Definition FloorFailureFrame : Z := 1.
Definition FloorFailureProfile : Z := 2.
Definition FloorFailureConfidence : Z := 4.
Definition FloorFailureTimeOrder : Z := 8.
Definition FloorFailureStale : Z := 16.
Definition FloorFailureFuture : Z := 32.
Definition FloorFailureStep : Z := 64.
Definition FloorFailureDirection : Z := 128.
Definition FloorFailureHeight : Z := 256.

Record FloorTransitionPolicy := MkFloorTransitionPolicy {
  FloorMinConfidence : float64;
  MaxTransitionDuration : Duration;
  FloorMaxAge : Duration;
  FloorFutureTolerance : Duration;
  MaxStep : Z;
  MinHeightPerFloor : float64;
  MaxHeightPerFloor : float64;
  StationaryTolerance : float64
}.

Definition ValidateFloorTransitionPolicy (p : FloorTransitionPolicy) : option Error :=
  if negb (finite (FloorMinConfidence p)) || f_lt (FloorMinConfidence p) f_zero ||
     f_gt (FloorMinConfidence p) f_one ||
     (MaxTransitionDuration p <=? 0) || (FloorMaxAge p <=? 0) || (FloorFutureTolerance p <? 0) ||
     (MaxStep p =? 0) || (MaxFloorStep <? MaxStep p) ||
     negb (finite (MinHeightPerFloor p)) || f_le (MinHeightPerFloor p) f_zero ||
     negb (finite (MaxHeightPerFloor p)) || f_lt (MaxHeightPerFloor p) (MinHeightPerFloor p) ||
     f_gt (MaxHeightPerFloor p) (f_div f_max_value (f_of_Z (MaxStep p))) ||
     negb (finite (StationaryTolerance p)) || f_lt (StationaryTolerance p) f_zero
  then Some ErrInvalidFloorTransitionPolicy else None.

Record FloorTransitionResult := MkFloorTransitionResult {
  Consistent : bool;
  FloorFailures : Z;
  FloorDelta : Z;
  VerticalDelta : float64;
  Elapsed : Duration;
  Age : Duration
}.

Definition absFloorDelta (delta : Z) : Z := if delta <? 0 then u64 (i64 (- delta)) else u64 delta.

(** The failures of the height of a step. *)
Definition heightFailures (delta steps : Z) (vertical : float64) (p : FloorTransitionPolicy) (failures : Z) : Z :=
  if negb (finite vertical) then raise true FloorFailureHeight failures else
  if delta =? 0 then raise (f_gt (f_abs vertical) (StationaryTolerance p)) FloorFailureHeight failures else
  let failures := raise (((0 <? delta) && f_le vertical f_zero) || ((delta <? 0) && f_ge vertical f_zero))
                    FloorFailureDirection failures in
  let height := f_abs vertical in
  let minimum := f_mul (f_of_Z steps) (MinHeightPerFloor p) in
  let maximum := f_mul (f_of_Z steps) (MaxHeightPerFloor p) in
  raise (f_lt height minimum || f_gt height maximum) FloorFailureHeight failures.

Definition EvaluateFloorTransition (previous current : Estimate) (policy : FloorTransitionPolicy) (now : Time)
    : outcome Error FloorTransitionResult :=
  match Validate previous with
  | Some err => Err err
  | None =>
  match Validate current with
  | Some err => Err err
  | None =>
  match ValidateFloorTransitionPolicy policy with
  | Some err => Err err
  | None =>
      if IsZero now then Err ErrEvaluationTimeRequired else
      let now := UTC now in
      let delta := i64 (Floor current - Floor previous) in
      let vertical := f_sub (Z_ (Position current)) (Z_ (Position previous)) in
      let elapsed := Sub (ObservedAt current) (ObservedAt previous) in
      let age := Sub now (ObservedAt current) in
      let failures := raise (Frame previous != Frame current) FloorFailureFrame FloorFailureNone in
      let failures := raise ((ProfileID previous != ProfileID current) ||
                             (ProfileVersion previous != ProfileVersion current) ||
                             (CalibrationVersion previous != CalibrationVersion current))
                        FloorFailureProfile failures in
      let failures := raise (f_lt (Confidence previous) (FloorMinConfidence policy) ||
                             f_lt (Confidence current) (FloorMinConfidence policy))
                        FloorFailureConfidence failures in
      let failures := raise ((elapsed <=? 0) || (MaxTransitionDuration policy <? elapsed))
                        FloorFailureTimeOrder failures in
      let failures := raise (FloorMaxAge policy <? age) FloorFailureStale failures in
      let failures := raise (age <? i64 (- FloorFutureTolerance policy)) FloorFailureFuture failures in
      let steps := absFloorDelta delta in
      let failures := raise (MaxStep policy <? steps) FloorFailureStep failures in
      let failures := heightFailures delta steps vertical policy failures in
      Ok (MkFloorTransitionResult (failures =? FloorFailureNone) failures delta vertical elapsed age)
  end
  end
  end.

End spatial.
