(* ===== verification/SpatialProperties.v ===== *)
(** * Properties of spatial estimates

    Estimates are canonical; the decisions on admissibility and on floor
    transitions hold exactly under their conditions, and every failure is
    reported by its own flag. *)

From Stdlib Require Import Ascii String Floats.SpecFloat.
From S2P Require Import Prelude GoTime GoString GoFloat Spatial.
Import spatial.

(** ** Canonical estimates *)

Definition trimmed_name (s : string) : Prop := TrimSpace s = s /\ s <> "".

Record canonical (e : Estimate) : Prop := {
  cn_frame : trimmed_name (Frame e);
  cn_position : ValidateVector (Position e) = None;
  cn_covariance : ValidateCovariance (Covariance e) = None;
  cn_confidence : finite (Confidence e) = true /\ f_le f_zero (Confidence e) = true /\
    f_le (Confidence e) f_one = true;
  cn_observed : instant (ObservedAt e) <> 0 /\ location (ObservedAt e) = UTCLoc;
  cn_profile : trimmed_name (ProfileID e) /\ trimmed_name (ProfileVersion e);
  cn_calibration : trimmed_name (CalibrationVersion e)
}.

Lemma finite_not_nan x : finite x = true -> f_is_nan x = false.
Proof. by destruct x. Qed.

Lemma f_le_false x y : f_is_nan x = false -> f_is_nan y = false -> f_gt x y = false <-> f_le x y = true.
Proof. intros Hx Hy. rewrite f_le_spec by done. by rewrite negb_true_iff. Qed.

Lemma NewFrameID_same f : (NewFrameID f = Ok f) <-> trimmed_name f.
Proof.
  unfold NewFrameID, trimmed_name. case_bool_decide as E; split; [done| | |].
  - intros [H Hne]. congruence.
  - intros [= H]. split; [done|]. congruence.
  - by intros [-> _].
Qed.

(** What [NewEstimate] accepts, and what it yields. *)
Lemma NewEstimate_ok input e :
  NewEstimate input = Ok e <->
  trimmed_name (Frame input) /\ canonical e /\
  e = MkEstimate (Frame input) (Position input) (Floor input) (Covariance input) (Confidence input)
        (UTC (ObservedAt input)) (TrimSpace (ProfileID input)) (TrimSpace (ProfileVersion input))
        (TrimSpace (CalibrationVersion input)).
Proof.
  unfold NewEstimate. split.
  - destruct (NewFrameID (Frame input)) as [frame|] eqn:Hf; [|done]. case_bool_decide as Heq; [|done]. subst frame.
    apply NewFrameID_same in Hf. cbn [negb]. destruct (ValidateVector _) eqn:Hv; [done|].
    destruct (ValidateCovariance _) eqn:Hc; [done|]. destruct (finite (Confidence input)) eqn:Hfin; [cbn [negb]|done].
    destruct (_ || _) eqn:Hr; [done|]. apply orb_false_iff in Hr as [Hlo Hhi].
    pose proof (finite_not_nan _ Hfin) as Hn.
    destruct (IsZero (ObservedAt input)) eqn:Ht; [done|].
    case_bool_decide as E1; [done|]. case_bool_decide as E2; [done|]. case_bool_decide as E3; [done|].
    intros [= <-]. split_and!; [done| |done].
    split; [done..| |split; [by apply Z.eqb_neq|done]|split; split; [apply TrimSpace_idemp|done|apply TrimSpace_idemp|done]
      |split; [apply TrimSpace_idemp|done]].
    split_and!; [done|by apply f_le_false|by apply f_le_false].
  - intros (Hf & [_ Hv Hc (Hfin & Hlo & Hhi) [Ht _] [[_ H1] [_ H2]] [_ H3]] & ->). cbn in *.
    rewrite (proj2 (NewFrameID_same _) Hf), bool_decide_eq_true_2, Hv, Hc, Hfin by done. cbn [negb].
    pose proof (finite_not_nan _ Hfin) as Hn.
    apply f_le_false in Hlo, Hhi; [|done..]. unfold f_gt in Hlo. unfold f_lt. rewrite Hlo, Hhi. cbn [orb].
    unfold IsZero. rewrite (proj2 (Z.eqb_neq _ _) Ht). by rewrite !bool_decide_eq_false_2.
Qed.

Lemma vector_equal_refl v : ValidateVector v = None -> vectorEqual v v = true.
Proof.
  unfold ValidateVector, vectorEqual. destruct (_ || _) eqn:E; [done|]. intros _. go_bool.
  by rewrite !f_eq_refl by (by apply finite_not_nan).
Qed.

Lemma covariance_equal_refl c : ValidateCovariance c = None -> covarianceEqual c c = true.
Proof.
  unfold ValidateCovariance, covarianceEqual. destruct (_ || negb (finite (ZZ c))) eqn:E; [done|]. intros _. go_bool.
  by rewrite !f_eq_refl by (by apply finite_not_nan).
Qed.

Lemma estimateEqual_refl e : canonical e -> estimateEqual e e = true.
Proof.
  intros [_ Hv Hc (Hf & _) _ _ _]. unfold estimateEqual.
  by rewrite vector_equal_refl, covariance_equal_refl, f_eq_refl, Z.eqb_refl, !bool_decide_eq_true_2
    by (done || by apply finite_not_nan).
Qed.

(** A canonical estimate is its own normal form. *)
Lemma canonical_fixed e : canonical e -> NewEstimate e = Ok e.
Proof.
  intros Hc. apply NewEstimate_ok. pose proof Hc as [Hf _ _ _ [_ Ht] [[H1 _] [H2 _]] [H3 _]].
  split_and!; [done|done|]. destruct e as [? ? ? ? ? o ? ? ?]. cbn in *. rewrite H1, H2, H3.
  f_equal. destruct o. cbn in *. by rewrite Ht.
Qed.

Lemma Validate_canonical e : Validate e = None <-> canonical e.
Proof.
  unfold Validate. split.
  - destruct (NewEstimate e) as [n|] eqn:Hn; [|done]. destruct (estimateEqual n e) eqn:E; [|done]. intros _.
    apply NewEstimate_ok in Hn as (Hf & Hc & ->). unfold estimateEqual in E.
    rewrite !andb_true_iff, !bool_decide_eq_true in E. cbn in E. destruct E as ((((_ & E1) & E2) & E3) & E4).
    destruct e as [? ? ? ? ? o ? ? ?]. cbn in *. by rewrite E1, E2, E3, E4 in Hc.
  - intros Hc. rewrite (canonical_fixed e Hc). by rewrite estimateEqual_refl.
Qed.

(** An estimate that NewEstimate yields validates and is its own normal
    form, and the estimates that validate are exactly the canonical ones: finite
    numbers, a confidence between zero and one, an accepted covariance, a UTC time,
    and trimmed, non-empty names. *)
Theorem estimates_are_canonical input e :
  (NewEstimate input = Ok e -> Validate e = None /\ NewEstimate e = Ok e) /\ (Validate e = None <-> canonical e).
Proof.
  split; [|apply Validate_canonical]. intros (_ & Hc & _)%NewEstimate_ok.
  split; [by apply Validate_canonical|by apply canonical_fixed].
Qed.

(** ** Flags *)

Lemma Has_raise c flag failures g : Has (raise c flag failures) g = Has failures g || c && Has flag g.
Proof.
  unfold raise, Has. destruct c; [|by rewrite orb_false_r]. cbn [andb]. rewrite Z.land_lor_distr_l.
  apply eq_bool_prop_intro. rewrite !Is_true_true, orb_true_iff, !negb_true_iff, !Z.eqb_neq, Z.lor_eq_0_iff. lia.
Qed.

Lemma raise_none c flag failures : flag <> 0 -> raise c flag failures = 0 <-> failures = 0 /\ c = false.
Proof. intros Hf. unfold raise. destruct c; [rewrite Z.lor_eq_0_iff|]; naive_solver. Qed.

(** ** Admissibility *)

Definition within_age (now : Time) (maxAge tolerance : Duration) (e : Estimate) : Prop :=
  - tolerance <= Sub now (ObservedAt e) <= maxAge.

Definition certain (max : float64) (e : Estimate) : Prop :=
  exists trace, Trace (Covariance e) = Ok trace /\ f_le trace max = true.

(** The two estimates admit a handover at [now]. *)
Record admissible (object participant : Estimate) (policy : AdmissibilityPolicy) (now : Time) : Prop := {
  ad_frame : Frame object = Frame participant;
  ad_near : finite (distance (Position object) (Position participant)) = true /\
    f_le (distance (Position object) (Position participant)) (MaxDistance policy) = true;
  ad_confidence : f_le (MinConfidence policy) (Confidence object) = true /\
    f_le (MinConfidence policy) (Confidence participant) = true;
  ad_age : within_age now (MaxAge policy) (FutureTolerance policy) object /\
    within_age now (MaxAge policy) (FutureTolerance policy) participant;
  ad_floor : Floor object = Floor participant;
  ad_certain : certain (MaxTrace policy) object /\ certain (MaxTrace policy) participant
}.

Lemma valid_policy_facts p :
  ValidateAdmissibilityPolicy p = None ->
  f_is_nan (MinConfidence p) = false /\ f_is_nan (MaxDistance p) = false /\ f_is_nan (MaxTrace p) = false /\
  0 <= FutureTolerance p.
Proof.
  unfold ValidateAdmissibilityPolicy. destruct (_ || f_le (MaxTrace p) f_zero) eqn:E; [done|]. intros _. go_bool.
  split_and!; [by apply finite_not_nan..|done].
Qed.

Lemma not_uncertain c max :
  f_is_nan max = false -> uncertain c max = false <-> exists trace, Trace c = Ok trace /\ f_le trace max = true.
Proof.
  intros Hm. unfold uncertain. destruct (Trace c) as [t|] eqn:Ht; [|naive_solver].
  assert (f_is_nan t = false) as Hn.
  { unfold Trace in Ht. destruct (finite _) eqn:Hf; [|done]. injection Ht as <-. by apply finite_not_nan. }
  rewrite f_le_false by done. naive_solver.
Qed.

(** No flag is raised exactly when the estimates are admissible. *)
Lemma no_failures object participant policy now :
  canonical object -> canonical participant -> ValidateAdmissibilityPolicy policy = None ->
  is_i64 (FutureTolerance policy) ->
  let mismatch := Frame object != Frame participant in
  let d := if mismatch then f_zero else distance (Position object) (Position participant) in
  (mismatch = true \/ negb (finite d) || f_gt d (MaxDistance policy) = false) /\ mismatch = false /\
  f_lt (Confidence object) (MinConfidence policy) || f_lt (Confidence participant) (MinConfidence policy) = false /\
  (MaxAge policy <? Sub now (ObservedAt object)) || (MaxAge policy <? Sub now (ObservedAt participant)) = false /\
  (Sub now (ObservedAt object) <? i64 (- FutureTolerance policy)) ||
    (Sub now (ObservedAt participant) <? i64 (- FutureTolerance policy)) = false /\
  negb (Floor object =? Floor participant) = false /\
  uncertain (Covariance object) (MaxTrace policy) || uncertain (Covariance participant) (MaxTrace policy) = false <->
  admissible object participant policy now.
Proof.
  intros Ho Hp (Hn1 & Hn2 & Hn3 & Htol)%valid_policy_facts Hr. cbv zeta.
  rewrite i64_small by (unfold is_i64, i64_min, i64_max in *; lia).
  rewrite !orb_false_iff, !negb_false_iff, bool_decide_eq_true.
  destruct Ho as [_ _ _ [Hof%finite_not_nan _] _ _ _]. destruct Hp as [_ _ _ [Hpf%finite_not_nan _] _ _ _].
  rewrite !not_uncertain, Z.eqb_eq, !Z.ltb_ge by done.
  change (f_lt (Confidence object) (MinConfidence policy)) with (f_gt (MinConfidence policy) (Confidence object)).
  change (f_lt (Confidence participant) (MinConfidence policy)) with (f_gt (MinConfidence policy) (Confidence participant)).
  rewrite (f_le_false _ (Confidence object)), (f_le_false _ (Confidence participant)) by done. split.
  - intros (Hd & Hf & Hc & Ha & Hb & Hfl & Hu). rewrite bool_decide_eq_true_2 in Hd by done. cbn [negb] in Hd.
    destruct Hd as [?|[Hd1 Hd2]]; [done|]. apply f_le_false in Hd2; [|by apply finite_not_nan|done].
    split; try done. unfold within_age. tauto.
  - intros [Hf [Hd1 Hd2] Hc Ha Hfl Hu]. unfold within_age in Ha. rewrite bool_decide_eq_true_2 by done.
    cbn [negb]. split_and!; try done; [|tauto..].
    right. split; [done|]. by apply f_le_false; [apply finite_not_nan|..].
Qed.

(** A handover is admissible exactly when both estimates are canonical, the
    policy is valid, the time is given, and the estimates share frame and floor, are
    close, confident, certain, and neither too old nor too far in the future. *)
Theorem admissible_iff object participant policy now :
  is_i64 (FutureTolerance policy) ->
  (exists r, EvaluateAdmissibility object participant policy now = Ok r /\ Admissible r = true) <->
  canonical object /\ canonical participant /\ ValidateAdmissibilityPolicy policy = None /\ IsZero now = false /\
  admissible object participant policy now.
Proof.
  intros Hr. unfold EvaluateAdmissibility. rewrite <- (Validate_canonical object), <- (Validate_canonical participant).
  destruct (Validate object) eqn:Ho; [naive_solver|]. destruct (Validate participant) eqn:Hp; [naive_solver|].
  destruct (ValidateAdmissibilityPolicy policy) eqn:Hv; [naive_solver|]. destruct (IsZero now) eqn:Ht; [naive_solver|].
  apply Validate_canonical in Ho, Hp.
  pose proof (no_failures object participant policy now Ho Hp Hv Hr) as H. cbv zeta in H.
  assert (forall (P : Prop) r, (Admissible r = true <-> P) ->
    (exists r', @Ok Error _ r = Ok r' /\ Admissible r' = true) <-> P) as Hex by naive_solver.
  rewrite (Hex (admissible object participant policy now)); [tauto|]. cbn [Admissible]. rewrite <- H.
  rewrite Z.eqb_eq. unfold FailureNone. rewrite !raise_none by done. change (Sub (UTC now)) with (Sub now).
  destruct (Frame object != Frame participant) eqn:Hm; rewrite raise_none by done.
  - split; [intros Hall; by destruct_and! Hall|by intros (_ & ? & _)].
  - split; [intros Hall; destruct_and! Hall; split_and!; auto|].
    intros ([?|?] & _ & Hall); [done|]. destruct_and! Hall. split_and!; auto.
Qed.

(** Every flag of the result tells its own failure. *)
Theorem admissibility_flags object participant policy now r :
  EvaluateAdmissibility object participant policy now = Ok r ->
  Has (Failures r) FailureFrameMismatch = (Frame object != Frame participant) /\
  Has (Failures r) FailureProximity =
    (Frame object == Frame participant) && (negb (finite (Distance r)) || f_gt (Distance r) (MaxDistance policy)) /\
  Has (Failures r) FailureLowConfidence =
    f_lt (Confidence object) (MinConfidence policy) || f_lt (Confidence participant) (MinConfidence policy) /\
  Has (Failures r) FailureStale = (MaxAge policy <? ObjectAge r) || (MaxAge policy <? ParticipantAge r) /\
  Has (Failures r) FailureFuture =
    (ObjectAge r <? i64 (- FutureTolerance policy)) || (ParticipantAge r <? i64 (- FutureTolerance policy)) /\
  Has (Failures r) FailureFloorMismatch = negb (Floor object =? Floor participant) /\
  Has (Failures r) FailureUncertainty =
    uncertain (Covariance object) (MaxTrace policy) || uncertain (Covariance participant) (MaxTrace policy) /\
  Admissible r = (Failures r =? FailureNone).
Proof.
  unfold EvaluateAdmissibility. destruct (Validate object); [done|]. destruct (Validate participant); [done|].
  destruct (ValidateAdmissibilityPolicy policy); [done|]. destruct (IsZero now); [done|]. intros [= <-].
  cbn [Failures Admissible Distance ObjectAge ParticipantAge].
  destruct (Frame object == Frame participant) eqn:Hm; cbn [negb];
    split_and!; try done; rewrite ?Has_raise; cbn -[f_lt f_gt finite distance Sub uncertain raise];
    rewrite ?andb_false_r, ?andb_true_r, ?orb_false_r; done.
Qed.

(** ** Floor transitions *)

(** An [int32]. *)
Definition is_i32 (z : Z) : Prop := - 2 ^ 31 <= z < 2 ^ 31.

(** The move is as high as its floors. *)
Definition height_ok (delta : Z) (vertical : float64) (p : FloorTransitionPolicy) : Prop :=
  finite vertical = true /\
  (delta = 0 -> f_gt (f_abs vertical) (StationaryTolerance p) = false) /\
  (0 < delta -> f_gt vertical f_zero = true) /\ (delta < 0 -> f_lt vertical f_zero = true) /\
  (delta <> 0 ->
    f_lt (f_abs vertical) (f_mul (f_of_Z (Z.abs delta)) (MinHeightPerFloor p)) = false /\
    f_gt (f_abs vertical) (f_mul (f_of_Z (Z.abs delta)) (MaxHeightPerFloor p)) = false).

(** The current estimate follows from the previous one. *)
Record follows (previous current : Estimate) (p : FloorTransitionPolicy) (now : Time) : Prop := {
  fo_frame : Frame previous = Frame current;
  fo_profile : ProfileID previous = ProfileID current /\ ProfileVersion previous = ProfileVersion current /\
    CalibrationVersion previous = CalibrationVersion current;
  fo_confidence : f_le (FloorMinConfidence p) (Confidence previous) = true /\
    f_le (FloorMinConfidence p) (Confidence current) = true;
  fo_order : 0 < Sub (ObservedAt current) (ObservedAt previous) <= MaxTransitionDuration p;
  fo_age : within_age now (FloorMaxAge p) (FloorFutureTolerance p) current;
  fo_step : Z.abs (Floor current - Floor previous) <= MaxStep p;
  fo_height : height_ok (Floor current - Floor previous)
    (f_sub (Z_ (Position current)) (Z_ (Position previous))) p
}.

Lemma floor_delta a b : is_i32 a -> is_i32 b -> i64 (a - b) = a - b.
Proof. unfold is_i32. intros Ha Hb. apply i64_small. unfold is_i64, i64_min, i64_max. lia. Qed.

Lemma absFloorDelta_abs a b : is_i32 a -> is_i32 b -> absFloorDelta (a - b) = Z.abs (a - b).
Proof.
  unfold is_i32, absFloorDelta. intros Ha Hb. destruct (a - b <? 0) eqn:E.
  - rewrite i64_small by (unfold is_i64, i64_min, i64_max; lia). rewrite u64_small; [lia|].
    unfold is_u64, u64_modulus. lia.
  - rewrite u64_small; [lia|]. unfold is_u64, u64_modulus. lia.
Qed.

Lemma heightFailures_none delta vertical p failures :
  heightFailures delta (Z.abs delta) vertical p failures = 0 <-> failures = 0 /\ height_ok delta vertical p.
Proof.
  unfold heightFailures, height_ok. destruct (finite vertical) eqn:Hf; cbn [negb]; [|rewrite raise_none by done; naive_solver].
  pose proof (finite_not_nan _ Hf) as Hn.
  assert (f_le vertical f_zero = negb (f_gt vertical f_zero)) as -> by by apply f_le_spec.
  assert (f_ge vertical f_zero = negb (f_lt vertical f_zero)) as -> by (by apply (f_le_spec f_zero vertical)).
  destruct (Z.eqb_spec delta 0) as [->|Hd]; rewrite !raise_none by done.
  - split; [|tauto]. intros [-> H]. split_and!; try done; lia.
  - rewrite !orb_false_iff, !andb_false_iff, !negb_false_iff, !Z.ltb_ge. split.
    + intros [[-> [H1 H2]] [H3 H4]]. split_and!; try done; intros; destruct H1, H2; try done; lia.
    + intros (-> & _ & _ & H1 & H2 & H3). destruct (H3 Hd) as [H4 H5]. split_and!; try done;
        [destruct (Z.lt_total 0 delta) as [?|[?|?]]; [right; auto|lia|left; lia]|
         destruct (Z.lt_total 0 delta) as [?|[?|?]]; [left; lia|lia|right; auto]].
Qed.

(** A change of floor is consistent exactly when both estimates are canonical,
    the policy is valid, the time is given, and the second estimate follows the
    first: same frame, profile and calibration, later within the allowed duration,
    recent, within the allowed steps, and with a height that fits the number and the
    direction of the floors. *)
Theorem floor_transition_consistent_iff previous current policy now :
  is_i32 (Floor previous) -> is_i32 (Floor current) -> is_i64 (FloorFutureTolerance policy) ->
  (exists r, EvaluateFloorTransition previous current policy now = Ok r /\ Consistent r = true /\
     FloorDelta r = Floor current - Floor previous) <->
  canonical previous /\ canonical current /\ ValidateFloorTransitionPolicy policy = None /\ IsZero now = false /\
  follows previous current policy now.
Proof.
  intros Hf1 Hf2 Hr. unfold EvaluateFloorTransition.
  rewrite <- (Validate_canonical previous), <- (Validate_canonical current).
  destruct (Validate previous) eqn:Ho; [naive_solver|]. destruct (Validate current) eqn:Hp; [naive_solver|].
  destruct (ValidateFloorTransitionPolicy policy) eqn:Hv; [naive_solver|]. destruct (IsZero now) eqn:Ht; [naive_solver|].
  apply Validate_canonical in Ho as [_ _ _ [Hof%finite_not_nan _] _ _ _], Hp as [_ _ _ [Hpf%finite_not_nan _] _ _ _].
  assert (f_is_nan (FloorMinConfidence policy) = false /\ 0 <= FloorFutureTolerance policy) as [Hn Htol].
  { unfold ValidateFloorTransitionPolicy in Hv. destruct (_ || f_lt (StationaryTolerance policy) f_zero) eqn:E; [done|].
    go_bool. split; [by apply finite_not_nan|done]. }
  rewrite floor_delta, absFloorDelta_abs by done.
  rewrite i64_small by (unfold is_i64, i64_min, i64_max in *; lia).
  assert (forall (P : Prop) r, FloorDelta r = Floor current - Floor previous -> (Consistent r = true <-> P) ->
    (exists r', @Ok Error _ r = Ok r' /\ Consistent r' = true /\ FloorDelta r' = Floor current - Floor previous) <-> P)
    as Hex by naive_solver.
  rewrite (Hex (follows previous current policy now)); [tauto|done|]. cbn [Consistent].
  rewrite Z.eqb_eq. unfold FloorFailureNone. rewrite heightFailures_none, !raise_none by done.
  rewrite !orb_false_iff, !negb_false_iff, !bool_decide_eq_true, Z.leb_gt, !Z.ltb_ge.
  change (f_lt (Confidence previous) (FloorMinConfidence policy)) with (f_gt (FloorMinConfidence policy) (Confidence previous)).
  change (f_lt (Confidence current) (FloorMinConfidence policy)) with (f_gt (FloorMinConfidence policy) (Confidence current)).
  rewrite !f_le_false by done. change (Sub (UTC now)) with (Sub now). split.
  - intros (H & Hh). destruct_and! H. split; done.
  - intros [H1 H2 H3 H4 H5 H6 H7]. unfold within_age in H5. destruct_and!. split_and!; try done; lia.
Qed.
