(* ===== verification/Estimator.v ===== *)
(** * The estimator port ([estimator/])

    Requests to an estimator, the execution of one through a port, and the
    results with the metadata that replays them ([port.go]). The port is code of
    somebody else: a function from requests to estimates. Then spatial estimates on
    concrete inputs: a pallet and a forklift a few metres apart, and a lift that
    carries the pallet one floor up. *)

From Stdlib Require Import Ascii String Floats.SpecFloat.
From S2P Require Import Prelude GoTime GoString Uuid GoCrypto GoFloat Responsibility Spatial SpatialProperties.

Module estimator.

Inductive Error :=
  | ErrObjectRequired
  | ErrObservationRequired
  | ErrSequenceInvalid
  | ErrObservationTime
  | ErrTargetFrameRequired
  | ErrProfileRequired
  | ErrPriorStateInvalid
  | ErrPortRequired
  | ErrOutputBinding
  | ErrCompletionTime
  | ErrResultInvalid
  | ErrResultNotFound
  | ErrResultAlreadyRecorded
  | SpatialError (err : spatial.Error)
  | PortError (message : string).

Record Request := MkRequest {
  ObjectID : responsibility.PhysicalObjectID;
  Sequence : Z;
  ObservationID : UUID;
  ObservationDigest : bytes;
  ObservedAt : Time;
  ReceivedAt : Time;
  TargetFrame : spatial.FrameID;
  ProfileID : string;
  ProfileVersion : string;
  CalibrationVersion : string;
  HasPrior : bool;
  Prior : spatial.Estimate
}.

Definition ZeroDigest : bytes := replicate 32 zero.

(** [TrimSpace(s) == "" || s != TrimSpace(s)] *)
Definition untrimmed (s : string) : bool := (TrimSpace s == "") || (s != TrimSpace s).

(** The prior state fits the request. *)
Definition priorFits (r : Request) : bool :=
  match spatial.Validate (Prior r) with
  | Some _ => false
  | None =>
      Before (spatial.ObservedAt (Prior r)) (ObservedAt r) && (spatial.Frame (Prior r) == TargetFrame r) &&
      (spatial.ProfileID (Prior r) == ProfileID r) && (spatial.ProfileVersion (Prior r) == ProfileVersion r) &&
      (spatial.CalibrationVersion (Prior r) == CalibrationVersion r)
  end.

Definition ValidateRequest (r : Request) : option Error :=
  match responsibility.NewPhysicalObjectID (ObjectID r) with
  | Err _ => Some ErrObjectRequired
  | Ok objectID =>
      if objectID != ObjectID r then Some ErrObjectRequired else
      if (ObservationID r == NilUUID) || (ObservationDigest r == ZeroDigest) then Some ErrObservationRequired else
      if IsZero (ObservedAt r) || IsZero (ReceivedAt r) || Before (ReceivedAt r) (ObservedAt r)
      then Some ErrObservationTime else
      match spatial.NewFrameID (TargetFrame r) with
      | Err _ => Some ErrTargetFrameRequired
      | Ok frame =>
          if frame != TargetFrame r then Some ErrTargetFrameRequired else
          if untrimmed (ProfileID r) || untrimmed (ProfileVersion r) || untrimmed (CalibrationVersion r)
          then Some ErrProfileRequired else
          if (Sequence r =? 0) || negb (Bool.eqb (HasPrior r) (1 <? Sequence r)) then Some ErrSequenceInvalid else
          if negb (HasPrior r) then
            if negb (spatial.estimateEqual (Prior r) spatial.zeroEstimate) then Some ErrSequenceInvalid else None
          else if negb (priorFits r) then Some ErrPriorStateInvalid else None
      end
  end.

(** [Port], whose errors are known by their text. *)
Definition Port : Type := Request -> outcome string spatial.Estimate.

(** The fields of the request, and when it was completed. *)
Record ReplayMetadata := MkReplayMetadata {
  request : Request;
  CompletedAt : Time
}.

Record Result := MkResult {
  Estimate : spatial.Estimate;
  Replay : ReplayMetadata
}.

(** The estimate is the one the request asks for. *)
Definition bound (e : spatial.Estimate) (r : Request) : bool :=
  (spatial.Frame e == TargetFrame r) && (spatial.ObservedAt e == UTC (ObservedAt r)) &&
  (spatial.ProfileID e == ProfileID r) && (spatial.ProfileVersion e == ProfileVersion r) &&
  (spatial.CalibrationVersion e == CalibrationVersion r).

Definition ValidateResult (result : Result) : option Error :=
  let r := request (Replay result) in
  match ValidateRequest r with
  | Some _ => Some ErrResultInvalid
  | None =>
      if IsZero (CompletedAt (Replay result)) || Before (CompletedAt (Replay result)) (ReceivedAt r)
      then Some ErrResultInvalid else
      match spatial.Validate (Estimate result) with
      | Some _ => Some ErrResultInvalid
      | None => if negb (bound (Estimate result) r) then Some ErrResultInvalid else None
      end
  end.

Definition replayMetadata (r : Request) (completedAt : Time) : ReplayMetadata :=
  MkReplayMetadata
    (MkRequest (ObjectID r) (Sequence r) (ObservationID r) (ObservationDigest r) (UTC (ObservedAt r))
       (UTC (ReceivedAt r)) (TargetFrame r) (ProfileID r) (ProfileVersion r) (CalibrationVersion r) (HasPrior r)
       (if HasPrior r then Prior r else spatial.zeroEstimate))
    (UTC completedAt).

Definition Execute (port : option Port) (r : Request) (completedAt : Time) : outcome Error Result :=
  match port with
  | None => Err ErrPortRequired
  | Some port =>
      match ValidateRequest r with
      | Some err => Err err
      | None =>
          if IsZero completedAt || Before completedAt (ReceivedAt r) then Err ErrCompletionTime else
          let! estimate := omap_err PortError (port r) in
          match spatial.Validate estimate with
          | Some err => Err (SpatialError err)
          | None =>
              if negb (bound estimate r) then Err ErrOutputBinding else
              let result := MkResult estimate (replayMetadata r completedAt) in
              match ValidateResult result with
              | Some err => Err err
              | None => Ok result
              end
          end
      end
  end.

(** ** Properties *)

Lemma replay_valid r completedAt : ValidateRequest r = None -> ValidateRequest (request (replayMetadata r completedAt)) = None.
Proof.
  unfold ValidateRequest, replayMetadata. cbn. destruct (responsibility.NewPhysicalObjectID _); [|done].
  destruct (_ != ObjectID r); [done|]. destruct (_ || _); [done|].
  unfold IsZero, Before. cbn. destruct (_ || _); [done|]. destruct (spatial.NewFrameID _); [|done].
  destruct (_ != TargetFrame r); [done|]. destruct (_ || _); [done|]. destruct (_ || _); [done|].
  destruct (HasPrior r); cbn [negb].
  - unfold priorFits. cbn. done.
  - done.
Qed.

(** What an execution yields. *)
Lemma Execute_iff port r completedAt result :
  Execute (Some port) r completedAt = Ok result <->
  ValidateRequest r = None /\ IsZero completedAt || Before completedAt (ReceivedAt r) = false /\
  exists e, port r = Ok e /\ canonical e /\ bound e r = true /\
    result = MkResult e (replayMetadata r completedAt) /\ ValidateResult result = None.
Proof.
  unfold Execute. destruct (ValidateRequest r) eqn:Hr; [naive_solver|].
  destruct (IsZero completedAt || _) eqn:Ht; [naive_solver|]. destruct (port r) as [e|] eqn:Hp; [cbn [omap_err obind]|naive_solver].
  destruct (spatial.Validate e) eqn:Hv.
  { split; [done|]. intros (_ & _ & e' & [= <-] & Hc%Validate_canonical & _). by rewrite Hv in Hc. }
  apply Validate_canonical in Hv as Hc. destruct (bound e r) eqn:Hb; cbn [negb];
    [|split; [done|]; intros (_ & _ & e' & [= <-] & _ & Hb' & _); congruence].
  assert (ValidateResult (MkResult e (replayMetadata r completedAt)) = None) as Hvr.
  { unfold ValidateResult. cbn [Replay Estimate]. rewrite replay_valid by done.
    change (IsZero (CompletedAt (replayMetadata r completedAt)) ||
            Before (CompletedAt (replayMetadata r completedAt)) (ReceivedAt (request (replayMetadata r completedAt))))
      with (IsZero completedAt || Before completedAt (ReceivedAt r)). rewrite Ht, Hv.
    change (bound e (request (replayMetadata r completedAt))) with (bound e r). by rewrite Hb. }
  rewrite Hvr. split.
  - intros [= <-]. split_and!; [done..|]. by exists e.
  - intros (_ & _ & e' & [= <-] & _ & _ & -> & _). done.
Qed.

(** An execution yields a result exactly when the request is valid, the
    completion is not before the receipt, and the port answers with a canonical
    estimate of the frame, the observation and the profile asked for; the result
    then validates, holds that estimate, and replays the request, with its times in
    UTC and no prior state where the request has none. *)
Theorem execution_is_bound port r completedAt result :
  Execute (Some port) r completedAt = Ok result <->
  ValidateRequest r = None /\ IsZero completedAt || Before completedAt (ReceivedAt r) = false /\
  exists e, port r = Ok e /\ canonical e /\ bound e r = true /\
    result = MkResult e (replayMetadata r completedAt) /\ ValidateResult result = None.
Proof. apply Execute_iff. Qed.

(** A result that validates can be replayed: a port that answers the recorded
    request with the recorded estimate yields the same result again. *)
Theorem result_replays result :
  ValidateResult result = None -> location (ReceivedAt (request (Replay result))) = UTCLoc ->
  location (ObservedAt (request (Replay result))) = UTCLoc -> location (CompletedAt (Replay result)) = UTCLoc ->
  HasPrior (request (Replay result)) = true ->
  Execute (Some (fun _ => Ok (Estimate result))) (request (Replay result)) (CompletedAt (Replay result)) = Ok result.
Proof.
  intros H H1 H2 H3 H4. assert (result = MkResult (Estimate result)
    (replayMetadata (request (Replay result)) (CompletedAt (Replay result)))) as Heq.
  { destruct result as [e [r t]]. unfold replayMetadata. cbn in *. rewrite H4.
    rewrite (proj2 (UTC_fixed _) H1), (proj2 (UTC_fixed _) H2), (proj2 (UTC_fixed _) H3). destruct r. cbn in *. by subst. }
  apply Execute_iff. unfold ValidateResult in H.
  destruct (ValidateRequest _) eqn:Hr; [done|]. destruct (IsZero _ || _) eqn:Ht; [done|].
  destruct (spatial.Validate _) eqn:Hv; [done|]. destruct (bound _ _) eqn:Hb; [|done].
  split_and!; [done..|]. exists (Estimate result). split_and!; [done|by apply Validate_canonical|done|done|].
  unfold ValidateResult. by rewrite Hr, Ht, Hv, Hb.
Qed.

End estimator.

Import spatial.

Definition ex_estimate (x z : Z) (floor : Z) (seconds : Z) : Estimate :=
  MkEstimate "dock" (MkVector3 (f_of_Z x) (f_ratio 1 2) (f_of_Z z)) floor
    (MkCovariance3 f_one f_zero (f_ratio 1 10) f_one f_zero f_one) (f_ratio 9 10) (utc_seconds seconds)
    "fusion" "1" "cal-7".

Definition ex_admissibility : AdmissibilityPolicy :=
  MkAdmissibilityPolicy (f_ratio 1 2) (30 * Second) Second (f_of_Z 5) (f_of_Z 4).

Example ex_distance :
  (exists r, EvaluateAdmissibility (ex_estimate 0 0 0 100) (ex_estimate 3 4 0 110) ex_admissibility (utc_seconds 120)
     = Ok r /\ Distance r = f_of_Z 5 /\ Admissible r = true) /\
  (exists r, EvaluateAdmissibility (ex_estimate 0 0 0 100) (ex_estimate 4 4 1 110) ex_admissibility (utc_seconds 140)
     = Ok r /\ Failures r = FailureProximity + FailureStale + FailureFloorMismatch) /\
  ValidateCovariance (MkCovariance3 f_one (f_of_Z 2) f_zero f_one f_zero f_one) = Some ErrInvalidCovariance.
Proof. split_and!; [eexists; split_and!; vm_compute; reflexivity..|vm_compute; reflexivity]. Qed.

Lemma admissible_iff_witness :
  admissible (ex_estimate 0 0 0 100) (ex_estimate 3 4 0 110) ex_admissibility (utc_seconds 120).
Proof.
  refine (proj2 (proj2 (proj2 (proj2 (proj1 (admissible_iff (ex_estimate 0 0 0 100) (ex_estimate 3 4 0 110)
    ex_admissibility (utc_seconds 120) _) _))))).
  - split; vm_compute; congruence.
  - eexists. split; vm_compute; reflexivity.
Defined.

Definition ex_floors : FloorTransitionPolicy :=
  MkFloorTransitionPolicy (f_ratio 1 2) (60 * Second) (30 * Second) Second 2 (f_of_Z 2) (f_of_Z 5) (f_ratio 1 10).

Lemma floor_transition_consistent_iff_witness :
  follows (ex_estimate 0 0 (-1) 100) (ex_estimate 0 3 0 110) ex_floors (utc_seconds 120).
Proof.
  refine (proj2 (proj2 (proj2 (proj2 (proj1 (floor_transition_consistent_iff (ex_estimate 0 0 (-1) 100)
    (ex_estimate 0 3 0 110) ex_floors (utc_seconds 120) _ _ _) _))))).
  - split; vm_compute; congruence.
  - split; vm_compute; congruence.
  - split; vm_compute; congruence.
  - eexists. split_and!; vm_compute; reflexivity.
Defined.
