(* ===== verification/Evidence.v ===== *)
(** * Evidence ([evidence/])

    Evidence objects ([object.go]), their qualification ([qualification.go]),
    the memory repository ([memory_repository.go]) and the service
    ([service.go]).

    A Go map that the code iterates over is a [gmap]; the order of an
    iteration, where the result can depend on it, is a parameter. A nil map and
    an empty one are the same [gmap]: the code copies empty maps to nil. The
    mutexes make every operation of the repository atomic. *)

From Stdlib Require Import Ascii String.
From S2P Require Import Prelude GoTime GoString Uuid GoCrypto GoJson GoJsonStruct GoTimeFormat GoFloat.

Module evidence.

Inductive Error :=
  | ErrEvidenceIDRequired
  | ErrSessionIDRequired
  | ErrSourceIDRequired
  | ErrSourceTypeRequired
  | ErrInvalidEvidenceType
  | ErrObservedAtRequired
  | ErrReceivedAtRequired
  | ErrInvalidTimestampOrder
  | ErrInvalidPayload
  | ErrInvalidConfidence
  | ErrSchemaVersionRequired
  | ErrRuntimeVersionRequired
  | ErrAcquisitionRequired
  | ErrIntegrityMismatch
  | ErrNonCanonicalPayload
  | ErrQualificationPolicyVersionRequired
  | ErrInvalidQualificationMaxAge
  | ErrInvalidQualificationTolerance
  | ErrInvalidQualificationConfidence
  | ErrQualificationTimeRequired
  | ErrRepositoryRequired
  | ErrQualifierRequired
  | ErrNotFound
  | ErrConflict.

#[global] Instance Error_eq_dec : EqDecision Error.
Proof. solve_decision. Defined.

(** ** Objects *)

Abbreviation Type_ := string.

(** [typePattern] *)
Definition typePattern (t : Type_) : bool := match_code 0 63 t.

Record IntegrityMetadata := MkIntegrity {
  Algorithm : string;
  PayloadDigest : string;
  SchemaVersion : string;
  RuntimeVersion : string;
  AcquisitionMethod : string
}.

#[global] Instance IntegrityMetadata_eq_dec : EqDecision IntegrityMetadata.
Proof. solve_decision. Defined.

Record Snapshot := MkSnapshot {
  EvidenceID : UUID;
  SessionID : UUID;
  SourceID : string;
  SourceType : string;
  EvidenceType : Type_;
  ObservedAt : Time;
  ReceivedAt : Time;
  Payload : bytes;
  Confidence : option float64;
  Provenance : gmap string string;
  Integrity : IntegrityMetadata
}.

#[global] Instance Snapshot_eq_dec : EqDecision Snapshot.
Proof. solve_decision. Defined.

#[global] Instance Snapshot_eta : Eta Snapshot := fun s =>
  MkSnapshot (EvidenceID s) (SessionID s) (SourceID s) (SourceType s) (EvidenceType s) (ObservedAt s)
    (ReceivedAt s) (Payload s) (Confidence s) (Provenance s) (Integrity s).

Record Input := MkInput {
  InputEvidenceID : UUID;
  InputSessionID : UUID;
  InputSourceID : string;
  InputSourceType : string;
  InputEvidenceType : Type_;
  InputObservedAt : Time;
  InputReceivedAt : Time;
  InputPayload : bytes;
  InputConfidence : option float64;
  InputProvenance : gmap string string;
  InputSchemaVersion : string;
  InputRuntimeVersion : string;
  InputAcquisitionMethod : string
}.

#[global] Instance Input_eta : Eta Input := fun i =>
  MkInput (InputEvidenceID i) (InputSessionID i) (InputSourceID i) (InputSourceType i)
    (InputEvidenceType i) (InputObservedAt i) (InputReceivedAt i) (InputPayload i) (InputConfidence i)
    (InputProvenance i) (InputSchemaVersion i) (InputRuntimeVersion i) (InputAcquisitionMethod i).

Record Object := MkObject { snapshot : Snapshot }.

#[global] Instance Object_eq_dec : EqDecision Object.
Proof. solve_decision. Defined.

(** The copies are equal to their originals: they own their memory, which
    values do anyway. *)
Definition copyConfidence (confidence : option float64) : option float64 := confidence.
Definition copyProvenance (provenance : gmap string string) : gmap string string := provenance.
Definition copySnapshot (s : Snapshot) : Snapshot :=
  s <| Confidence := copyConfidence (Confidence s) |> <| Provenance := copyProvenance (Provenance s) |>.

Definition canonicalJSON (payload : bytes) : outcome Error bytes :=
  match json.Decode payload with
  | None => Err ErrInvalidPayload
  | Some (value, rest) =>
      if negb (json.AtEOF rest) then Err ErrInvalidPayload else Ok (json.Marshal value)
  end.

Definition digest (payload : bytes) : string := "sha256:" ++ string_of (hex_encode (sha256 payload)).

Definition validateSnapshot (s : Snapshot) : option Error :=
  if EvidenceID s == NilUUID then Some ErrEvidenceIDRequired else
  if SessionID s == NilUUID then Some ErrSessionIDRequired else
  if TrimSpace (SourceID s) == "" then Some ErrSourceIDRequired else
  if TrimSpace (SourceType s) == "" then Some ErrSourceTypeRequired else
  if negb (typePattern (EvidenceType s)) then Some ErrInvalidEvidenceType else
  if IsZero (ObservedAt s) then Some ErrObservedAtRequired else
  if IsZero (ReceivedAt s) then Some ErrReceivedAtRequired else
  if Before (ReceivedAt s) (ObservedAt s) then Some ErrInvalidTimestampOrder else
  if match Confidence s with None => false | Some c => f_lt c f_zero || f_gt c f_one end
  then Some ErrInvalidConfidence else
  if TrimSpace (SchemaVersion (Integrity s)) == "" then Some ErrSchemaVersionRequired else
  if TrimSpace (RuntimeVersion (Integrity s)) == "" then Some ErrRuntimeVersionRequired else
  if TrimSpace (AcquisitionMethod (Integrity s)) == "" then Some ErrAcquisitionRequired else
  None.

Definition VerifySnapshot (s : Snapshot) : option Error :=
  match validateSnapshot s with
  | Some err => Some err
  | None =>
      match canonicalJSON (Payload s) with
      | Err err => Some err
      | Ok canonical =>
          if canonical != Payload s then Some ErrNonCanonicalPayload else
          if (Algorithm (Integrity s) != "SHA-256") || (PayloadDigest (Integrity s) != digest (Payload s))
          then Some ErrIntegrityMismatch else None
      end
  end.

Definition NewObject (input : Input) : outcome Error Object :=
  let! payload := canonicalJSON (InputPayload input) in
  let s := MkSnapshot (InputEvidenceID input) (InputSessionID input) (TrimSpace (InputSourceID input))
             (TrimSpace (InputSourceType input)) (InputEvidenceType input) (UTC (InputObservedAt input))
             (UTC (InputReceivedAt input)) payload (copyConfidence (InputConfidence input))
             (copyProvenance (InputProvenance input))
             (MkIntegrity "SHA-256" (digest payload) (TrimSpace (InputSchemaVersion input))
                (TrimSpace (InputRuntimeVersion input)) (TrimSpace (InputAcquisitionMethod input))) in
  match validateSnapshot s with
  | Some err => Err err
  | None => Ok (MkObject s)
  end.

Definition Rehydrate (s : Snapshot) : outcome Error Object :=
  match VerifySnapshot s with
  | Some err => Err err
  | None => Ok (MkObject (copySnapshot s))
  end.

Definition ObjectSnapshot (o : Object) : Snapshot := copySnapshot (snapshot o).

(** Through a pointer, which may be nil. *)
Definition VerifyIntegrity (o : option Object) : option Error :=
  match o with
  | None => Some ErrEvidenceIDRequired
  | Some o => VerifySnapshot (snapshot o)
  end.

(** ** Qualification *)

Abbreviation QualificationStatus := string.
Definition QualificationQualified : QualificationStatus := "QUALIFIED".
Definition QualificationRejected : QualificationStatus := "REJECTED".
Definition QualificationUnavailable : QualificationStatus := "UNAVAILABLE".

Abbreviation QualificationReasonCode := string.
Definition ReasonEvidenceUnavailable : QualificationReasonCode := "EVIDENCE_UNAVAILABLE".
Definition ReasonIntegrityInvalid : QualificationReasonCode := "INTEGRITY_INVALID".
Definition ReasonSourceUntrusted : QualificationReasonCode := "SOURCE_UNTRUSTED".
Definition ReasonTypeNotAllowed : QualificationReasonCode := "TYPE_NOT_ALLOWED".
Definition ReasonTimestampFuture : QualificationReasonCode := "TIMESTAMP_FUTURE".
Definition ReasonEvidenceExpired : QualificationReasonCode := "EVIDENCE_EXPIRED".
Definition ReasonConfidenceMissing : QualificationReasonCode := "CONFIDENCE_MISSING".
Definition ReasonConfidenceLow : QualificationReasonCode := "CONFIDENCE_LOW".
Definition ReasonProvenanceMissing : QualificationReasonCode := "PROVENANCE_MISSING".
Definition ReasonPayloadFieldMissing : QualificationReasonCode := "PAYLOAD_FIELD_MISSING".
Definition ReasonAcquisitionDenied : QualificationReasonCode := "ACQUISITION_DENIED".
Definition ReasonSessionMismatch : QualificationReasonCode := "SESSION_MISMATCH".
Definition ReasonDuplicateObservation : QualificationReasonCode := "DUPLICATE_OBSERVATION".
Definition ReasonConflictingObservation : QualificationReasonCode := "CONFLICTING_OBSERVATION".

Record QualificationReason := MkReason {
  Code : QualificationReasonCode;
  Field : string
}.

#[global] Instance QualificationReason_eq_dec : EqDecision QualificationReason.
Proof. solve_decision. Defined.

Record QualificationResult := MkResult {
  ResultEvidenceID : UUID;
  Status : QualificationStatus;
  EvaluatedAt : Time;
  ResultPolicyVersion : string;
  Reasons : list QualificationReason
}.

#[global] Instance QualificationResult_eq_dec : EqDecision QualificationResult.
Proof. solve_decision. Defined.

#[global] Instance QualificationResult_eta : Eta QualificationResult := fun r =>
  MkResult (ResultEvidenceID r) (Status r) (EvaluatedAt r) (ResultPolicyVersion r) (Reasons r).

Record SessionQualificationResult := MkSessionResult {
  ResultSessionID : UUID;
  SessionStatus : QualificationStatus;
  SessionEvaluatedAt : Time;
  SessionPolicyVersion : string;
  SessionReasons : list QualificationReason;
  SessionEvidence : list QualificationResult
}.

Record QualificationPolicy := MkPolicy {
  PolicyVersion : string;
  TrustedSources : gmap string bool;
  AllowedTypes : gmap Type_ bool;
  AllowedAcquisitionMethods : gmap string bool;
  MaxAge : Duration;
  FutureTolerance : Duration;
  RequireConfidence : bool;
  MinimumConfidence : option float64;
  RequiredProvenance : list string;
  RequiredPayloadFields : list string
}.

(** The order in which an iteration visits the entries of a map. *)
Definition Range : Type := gmap string bool -> list (string * bool).

(** Entries whose keys only differ in white space overwrite each other. *)
Definition copyStringSet (range : Range) (values : gmap string bool) : gmap string bool :=
  fold_left (fun m '(key, allowed) => <[TrimSpace key := allowed]> m) (range values) ∅.

Definition copyTypeSet (values : gmap Type_ bool) : gmap Type_ bool := values.

Definition normalizedKeys (values : list string) : list string :=
  let keys : gset string := list_to_set (List.filter (fun key => key != "") (TrimSpace <$> values)) in
  sort_strings (elements keys).

Record Qualifier := MkQualifier { policy : QualificationPolicy }.

Definition NewQualifier (range : Range) (p : QualificationPolicy) : outcome Error Qualifier :=
  if TrimSpace (PolicyVersion p) == "" then Err ErrQualificationPolicyVersionRequired else
  if MaxAge p <? 0 then Err ErrInvalidQualificationMaxAge else
  if FutureTolerance p <? 0 then Err ErrInvalidQualificationTolerance else
  if match MinimumConfidence p with None => false | Some c => f_lt c f_zero || f_gt c f_one end
  then Err ErrInvalidQualificationConfidence else
  Ok (MkQualifier (MkPolicy (TrimSpace (PolicyVersion p)) (copyStringSet range (TrustedSources p))
    (copyTypeSet (AllowedTypes p)) (copyStringSet range (AllowedAcquisitionMethods p)) (MaxAge p)
    (FutureTolerance p) (RequireConfidence p) (copyConfidence (MinimumConfidence p))
    (normalizedKeys (RequiredProvenance p)) (normalizedKeys (RequiredPayloadFields p)))).

(** A restriction that is configured and does not list the value. *)
Definition restricts (allowed : gmap string bool) (value : string) : bool :=
  (allowed != ∅) && negb (default false (allowed !! value)).

(** The members of a payload that is an object: [json.Unmarshal] into a map of
    raw messages, whose error is dropped. *)
Definition payloadMembers (payload : bytes) : list (bytes * json.Json) :=
  match json.decodeOne payload with
  | Some (json.JObject members) => members
  | _ => []
  end.

(** The raw message of a member is [null] or there is none. *)
Definition fieldMissing (payload : bytes) (key : string) : bool :=
  match List.find (fun '(k, _) => k == bytes_of key) (payloadMembers payload) with
  | None => true
  | Some (_, json.JNull) => true
  | Some _ => false
  end.

Definition provenanceMissing (s : Snapshot) (key : string) : bool :=
  TrimSpace (default "" (Provenance s !! key)) == "".

Definition when (b : bool) (code : QualificationReasonCode) (field : string) : list QualificationReason :=
  if b then [MkReason code field] else [].

Definition timestampReasons (p : QualificationPolicy) (evaluatedAt : Time) (s : Snapshot) :=
  if After (ObservedAt s) (Add evaluatedAt (FutureTolerance p))
  then [MkReason ReasonTimestampFuture "observed_at"] else
  when ((0 <? MaxAge p) && (MaxAge p <? Sub evaluatedAt (ObservedAt s))) ReasonEvidenceExpired "observed_at".

Definition confidenceReasons (p : QualificationPolicy) (s : Snapshot) :=
  match Confidence s, MinimumConfidence p with
  | None, minimum =>
      when (RequireConfidence p || match minimum with Some _ => true | None => false end)
        ReasonConfidenceMissing "confidence"
  | Some c, Some minimum => when (f_lt c minimum) ReasonConfidenceLow "confidence"
  | Some _, None => []
  end.

(** The reasons against a snapshot whose integrity is verified. *)
Definition policyReasons (p : QualificationPolicy) (evaluatedAt : Time) (s : Snapshot)
    : list QualificationReason :=
  when (restricts (TrustedSources p) (SourceID s)) ReasonSourceUntrusted "source_id" ++
  when (restricts (AllowedTypes p) (EvidenceType s)) ReasonTypeNotAllowed "evidence_type" ++
  timestampReasons p evaluatedAt s ++
  confidenceReasons p s ++
  flat_map (fun key => when (provenanceMissing s key) ReasonProvenanceMissing key) (RequiredProvenance p) ++
  flat_map (fun key => when (fieldMissing (Payload s) key) ReasonPayloadFieldMissing key)
    (RequiredPayloadFields p) ++
  when (restricts (AllowedAcquisitionMethods p) (AcquisitionMethod (Integrity s)))
    ReasonAcquisitionDenied "acquisition_method".

Definition Qualify (q : Qualifier) (object : option Object) (evaluatedAt : Time)
    : outcome Error QualificationResult :=
  if IsZero evaluatedAt then Err ErrQualificationTimeRequired else
  let evaluatedAt := UTC evaluatedAt in
  let version := PolicyVersion (policy q) in
  match object with
  | None =>
      Ok (MkResult NilUUID QualificationUnavailable evaluatedAt version [MkReason ReasonEvidenceUnavailable ""])
  | Some object =>
      let s := ObjectSnapshot object in
      match VerifySnapshot s with
      | Some _ =>
          Ok (MkResult (EvidenceID s) QualificationRejected evaluatedAt version
                [MkReason ReasonIntegrityInvalid "integrity"])
      | None =>
          let reasons := policyReasons (policy q) evaluatedAt s in
          Ok (MkResult (EvidenceID s)
                (if reasons == [] then QualificationQualified else QualificationRejected)
                evaluatedAt version reasons)
      end
  end.

(** *** Evidence sets *)

(** The comparison that orders a set: observation time, then text of the ID,
    nil objects last. *)
Definition objectLess (left right : option Object) : bool :=
  match left, right with
  | None, _ => false
  | Some _, None => true
  | Some l, Some r =>
      let l := ObjectSnapshot l in
      let r := ObjectSnapshot r in
      if TimeEqual (ObservedAt l) (ObservedAt r)
      then String.ltb (UuidString (EvidenceID l)) (UuidString (EvidenceID r))
      else Before (ObservedAt l) (ObservedAt r)
  end.

Definition objectLe (left right : option Object) : Prop := objectLess right left = false.

#[global] Instance objectLe_dec : RelDecision objectLe.
Proof. intros left right. unfold objectLe. apply _. Defined.

(** [sort.SliceStable] *)
Definition orderObjects (objects : list (option Object)) : list (option Object) :=
  stable_sort objectLe objects.

Record observation := MkObservation {
  index : nat;
  observedDigest : string
}.

Abbreviation Groups := (gmap string (list observation)).

Definition groupKey (s : Snapshot) : string :=
  SourceID s ++ String zero (EvidenceType s ++ String zero (string_of (RFC3339Nano 0 (UTC (ObservedAt s))))).

Definition addReason (i : nat) (r : QualificationReason) (l : list QualificationResult)
    : list QualificationResult :=
  alter (fun e => e <| Reasons := Reasons e ++ [r] |>) i l.

(** The first loop, over the objects from index [i] on. *)
Fixpoint qualifyLoop (q : Qualifier) (sessionID : UUID) (evaluatedAt : Time) (i : nat)
    (objects : list (option Object)) (results : list QualificationResult) (groups : Groups)
    : outcome Error (list QualificationResult * Groups) :=
  match objects with
  | [] => Ok (results, groups)
  | object :: objects =>
      let! qualified := Qualify q object evaluatedAt in
      let results := results ++ [qualified] in
      match object with
      | None => qualifyLoop q sessionID evaluatedAt (S i) objects results groups
      | Some o =>
          let s := ObjectSnapshot o in
          if SessionID s != sessionID then
            qualifyLoop q sessionID evaluatedAt (S i) objects
              (addReason i (MkReason ReasonSessionMismatch "session_id") results) groups
          else
            let group := default [] (groups !! groupKey s) ++ [MkObservation i (PayloadDigest (Integrity s))] in
            qualifyLoop q sessionID evaluatedAt (S i) objects results (<[groupKey s := group]> groups)
      end
  end.

(** The reasons a group adds. *)
Definition resolveGroup (results : list QualificationResult) (group : list observation)
    : list QualificationResult :=
  match group with
  | [] | [_] => results
  | first :: others =>
      if existsb (fun o => observedDigest o != observedDigest first) others then
        fold_left (fun l o => addReason (index o) (MkReason ReasonConflictingObservation "payload") l)
          group results
      else
        fold_left (fun l o => addReason (index o) (MkReason ReasonDuplicateObservation "evidence_id") l)
          others results
  end.

(** The last loop. *)
Definition finishResult (r : QualificationResult) : QualificationResult :=
  if (Reasons r != []) && (Status r == QualificationQualified)
  then r <| Status := QualificationRejected |> else r.

(** [range] is the order in which the groups are visited. *)
Definition QualifySet (range : Groups -> list (list observation)) (q : Qualifier) (sessionID : UUID)
    (objects : list (option Object)) (evaluatedAt : Time) : outcome Error SessionQualificationResult :=
  if sessionID == NilUUID then Err ErrSessionIDRequired else
  if IsZero evaluatedAt then Err ErrQualificationTimeRequired else
  let evaluatedAt := UTC evaluatedAt in
  let version := PolicyVersion (policy q) in
  let ordered := orderObjects objects in
  if ordered == [] then
    Ok (MkSessionResult sessionID QualificationUnavailable evaluatedAt version
          [MkReason ReasonEvidenceUnavailable ""] [])
  else
    let! qualified := qualifyLoop q sessionID evaluatedAt 0 ordered [] ∅ in
    let '(results, groups) := qualified in
    let results := finishResult <$> fold_left resolveGroup (range groups) results in
    let status :=
      if forallb (fun r => Status r == QualificationQualified) results
      then QualificationQualified else QualificationRejected in
    Ok (MkSessionResult sessionID status evaluatedAt version [] results).

(** ** The memory repository *)

(** [Repository] *)
Class Repository (R : Type) := {
  SaveEvidence : Snapshot -> action R Error unit;
  FindEvidence : UUID -> R -> outcome Error (option Object);
  ListEvidenceBySession : UUID -> R -> outcome Error (list (option Object))
}.

Abbreviation MemoryRepository := (gmap UUID Snapshot).

Definition NewMemoryRepository : MemoryRepository := ∅.

Section repository.
(** The offset from UTC, in seconds, of a zone at an instant. *)
Variable zone_offset : positive -> Z -> Z.

Definition MarshalTimeIn (t : Time) : option bytes :=
  match location t with
  | UTCLoc => MarshalTime 0 t
  | ZoneLoc zone => MarshalTime (zone_offset zone (instant t)) t
  end.

(** The JSON text of a snapshot. A confidence stays a float: its shortest
    decimal form names it. *)
Record snapshotJSON := MkSnapshotJSON {
  jsonBefore : bytes;
  jsonConfidence : option float64;
  jsonAfter : bytes
}.

#[global] Instance snapshotJSON_eq_dec : EqDecision snapshotJSON.
Proof. solve_decision. Defined.

(** [map[string]string]: the members in the order of their keys. *)
Definition MarshalProvenance (m : gmap string string) : bytes :=
  object ((fun key => field key (quoteString (default "" (m !! key)))) <$>
            sort_strings (fst <$> map_to_list m)).

Definition MarshalIntegrity (i : IntegrityMetadata) : bytes :=
  object [field "algorithm" (quoteString (Algorithm i)); field "payload_digest" (quoteString (PayloadDigest i));
          field "schema_version" (quoteString (SchemaVersion i));
          field "runtime_version" (quoteString (RuntimeVersion i));
          field "acquisition_method" (quoteString (AcquisitionMethod i))].

Definition MarshalSnapshot (s : Snapshot) : option snapshotJSON :=
  if match Confidence s with None => false | Some c => negb (f_finite c) end then None else
  match MarshalTimeIn (ObservedAt s), MarshalTimeIn (ReceivedAt s), MarshalRaw (Payload s) with
  | Some observed, Some received, Some payload =>
      let before :=
        [field "evidence_id" (quoteString (UuidString (EvidenceID s)));
         field "session_id" (quoteString (UuidString (SessionID s)));
         field "source_id" (quoteString (SourceID s)); field "source_type" (quoteString (SourceType s));
         field "evidence_type" (quoteString (EvidenceType s)); field "observed_at" observed;
         field "received_at" received; field "payload" payload] in
      let provenance :=
        if Provenance s == ∅ then [] else [field "provenance" (MarshalProvenance (Provenance s))] in
      let after := provenance ++ [field "integrity" (MarshalIntegrity (Integrity s))] in
      Some (MkSnapshotJSON (ascii_of_N 123 :: json.separated before) (Confidence s)
              (json.separated after ++ [ascii_of_N 125]))
  | _, _, _ => None
  end.

Definition snapshotsEqual (left right : Snapshot) : bool :=
  match MarshalSnapshot left, MarshalSnapshot right with
  | Some leftJSON, Some rightJSON => leftJSON == rightJSON
  | _, _ => false
  end.

Definition SameSubmission (left right : Snapshot) : bool :=
  snapshotsEqual (left <| ReceivedAt := ZeroTime |>) (right <| ReceivedAt := ZeroTime |>).

Definition memory_SaveEvidence (s : Snapshot) : action MemoryRepository Error unit := fun m =>
  match Rehydrate s with
  | Err err => (m, Err err)
  | Ok object =>
      let normalized := ObjectSnapshot object in
      match m !! EvidenceID normalized with
      | Some existing => if SameSubmission existing normalized then (m, Ok tt) else (m, Err ErrConflict)
      | None => (<[EvidenceID normalized := normalized]> m, Ok tt)
      end
  end.

Definition memory_FindEvidence (id : UUID) (m : MemoryRepository) : outcome Error (option Object) :=
  if id == NilUUID then Err ErrEvidenceIDRequired else
  match m !! id with
  | None => Err ErrNotFound
  | Some s => let! object := Rehydrate s in Ok (Some object)
  end.

(** The order of a listing. *)
Definition snapshotLess (l r : Snapshot) : bool :=
  if TimeEqual (ObservedAt l) (ObservedAt r)
  then String.ltb (UuidString (EvidenceID l)) (UuidString (EvidenceID r))
  else Before (ObservedAt l) (ObservedAt r).

Definition snapshotLe (l r : Snapshot) : Prop := snapshotLess r l = false.

#[global] Instance snapshotLe_dec : RelDecision snapshotLe.
Proof. intros l r. unfold snapshotLe. apply _. Defined.

Fixpoint rehydrateAll (l : list Snapshot) : outcome Error (list (option Object)) :=
  match l with
  | [] => Ok []
  | s :: l =>
      let! object := Rehydrate s in
      let! objects := rehydrateAll l in
      Ok (Some object :: objects)
  end.

Definition memory_ListEvidenceBySession (sessionID : UUID) (m : MemoryRepository)
    : outcome Error (list (option Object)) :=
  if sessionID == NilUUID then Err ErrSessionIDRequired else
  let snapshots := List.filter (fun s => SessionID s == sessionID) (snd <$> map_to_list m) in
  rehydrateAll (merge_sort snapshotLe (copySnapshot <$> snapshots)).

Definition MemoryRepository_repository : Repository MemoryRepository := {|
  SaveEvidence := memory_SaveEvidence;
  FindEvidence := memory_FindEvidence;
  ListEvidenceBySession := memory_ListEvidenceBySession
|}.
End repository.

(** ** The service *)

Record ServiceConfig := MkServiceConfig {
  ConfigSchemaVersion : string;
  ConfigRuntimeVersion : string
}.

(** The versions a service stamps on what it ingests. Its repository and the
    readings of its clock are arguments of its operations. *)
Record Service := MkService {
  schemaVersion : string;
  runtimeVersion : string
}.

Definition NewService {R} (repository : option R) (config : ServiceConfig) : outcome Error (Service * R) :=
  match repository with
  | None => Err ErrRepositoryRequired
  | Some r =>
      let schema := TrimSpace (ConfigSchemaVersion config) in
      if schema == "" then Err ErrSchemaVersionRequired else
      let runtime := TrimSpace (ConfigRuntimeVersion config) in
      if runtime == "" then Err ErrRuntimeVersionRequired else
      Ok (MkService schema runtime, r)
  end.

Section service.
Context {R : Type} `{!Repository R}.

(** A nil object that the repository returns without an error has the zero
    snapshot. *)
Definition zeroSnapshot : Snapshot :=
  MkSnapshot NilUUID NilUUID "" "" "" ZeroTime ZeroTime [] None ∅ (MkIntegrity "" "" "" "" "").

(** [now] is the reading of the clock and [random] what [uuid.New] reads. *)
Definition Ingest (svc : Service) (now : Time) (random : bytes) (input : Input) : action R Error Snapshot :=
  fun r =>
  let id := if InputEvidenceID input == NilUUID then NewUUID random else InputEvidenceID input in
  let input := input <| InputEvidenceID := id |> <| InputReceivedAt := UTC now |>
                     <| InputSchemaVersion := schemaVersion svc |>
                     <| InputRuntimeVersion := runtimeVersion svc |> in
  match NewObject input with
  | Err err => (r, Err err)
  | Ok object =>
      let s := ObjectSnapshot object in
      match SaveEvidence s r with
      | (r, Err err) => (r, Err err)
      | (r, Ok _) =>
          match FindEvidence (EvidenceID s) r with
          | Err err => (r, Err err)
          | Ok None => (r, Ok zeroSnapshot)
          | Ok (Some stored) => (r, Ok (ObjectSnapshot stored))
          end
      end
  end.

Definition Find (id : UUID) (r : R) : outcome Error Snapshot :=
  match FindEvidence id r with
  | Err err => Err err
  | Ok None => Err ErrNotFound
  | Ok (Some object) => Ok (ObjectSnapshot object)
  end.

Fixpoint objectSnapshots (objects : list (option Object)) : outcome Error (list Snapshot) :=
  match objects with
  | [] => Ok []
  | None :: _ => Err ErrNotFound
  | Some o :: objects => let! snapshots := objectSnapshots objects in Ok (ObjectSnapshot o :: snapshots)
  end.

Definition ListBySession (sessionID : UUID) (r : R) : outcome Error (list Snapshot) :=
  if sessionID == NilUUID then Err ErrSessionIDRequired else
  let! objects := ListEvidenceBySession sessionID r in
  objectSnapshots objects.

Definition QualifySession (range : Groups -> list (list observation)) (sessionID : UUID)
    (qualifier : option Qualifier) (now : Time) (r : R) : outcome Error SessionQualificationResult :=
  match qualifier with
  | None => Err ErrQualifierRequired
  | Some q =>
      if sessionID == NilUUID then Err ErrSessionIDRequired else
      let! objects := ListEvidenceBySession sessionID r in
      QualifySet range q sessionID objects (UTC now)
  end.
End service.
End evidence.
