(* ===== verification/EvidenceObjects.v ===== *)
(** * Properties of evidence objects and of their qualification

    An object verifies and rehydrates; its digest binds its payload; an object
    qualifies exactly when it meets every requirement of the policy. *)

From Stdlib Require Import Ascii String.
From S2P Require Import Prelude GoTime GoString Uuid GoCrypto GoJson GoJsonText GoFloat Evidence.
Import evidence.

(** ** Integrity *)

Lemma copySnapshot_id s : copySnapshot s = s.
Proof. by destruct s. Qed.

Lemma ObjectSnapshot_eq o : ObjectSnapshot o = snapshot o.
Proof. apply copySnapshot_id. Qed.

Lemma payload_canonical d c : canonicalJSON d = Ok c <-> json.canonical d = Some c.
Proof.
  unfold canonicalJSON, json.canonical, json.decodeOne. destruct (json.Decode d) as [[value rest]|]; [|done].
  destruct (json.AtEOF rest); cbn; [|done]. split; intros [= <-]; done.
Qed.

Lemma payload_canonical_stable d c : canonicalJSON d = Ok c -> canonicalJSON c = Ok c.
Proof. rewrite !payload_canonical. apply canonical_idempotent. Qed.

(** What a verified snapshot satisfies. *)
Record verified (s : Snapshot) : Prop := {
  vs_valid : validateSnapshot s = None;
  vs_canonical : canonicalJSON (Payload s) = Ok (Payload s);
  vs_algorithm : Algorithm (Integrity s) = "SHA-256";
  vs_digest : PayloadDigest (Integrity s) = digest (Payload s)
}.

Lemma VerifySnapshot_verified s : VerifySnapshot s = None <-> verified s.
Proof.
  unfold VerifySnapshot. split.
  - destruct (validateSnapshot s) eqn:Hv; [done|]. destruct (canonicalJSON (Payload s)) as [c|] eqn:Hc; [|done].
    destruct (c != Payload s) eqn:E1; [done|]. destruct (_ || _) eqn:E2; [done|]. intros _.
    apply negb_false_iff, bool_decide_eq_true_1 in E1 as ->.
    apply orb_false_iff in E2 as [E2 E3]. apply negb_false_iff, bool_decide_eq_true_1 in E2, E3. by split.
  - intros [-> -> -> ->]. by rewrite !bool_decide_eq_true_2.
Qed.

Lemma rehydrated s o : Rehydrate s = Ok o <-> verified s /\ snapshot o = s.
Proof.
  unfold Rehydrate. rewrite <- VerifySnapshot_verified. rewrite copySnapshot_id.
  destruct (VerifySnapshot s); split.
  - done.
  - by intros [? _].
  - by intros [= <-].
  - intros [_ <-]. by destruct o.
Qed.

Lemma NewObject_ok input o :
  NewObject input = Ok o ->
  verified (snapshot o) /\ canonicalJSON (InputPayload input) = Ok (Payload (snapshot o)) /\
  snapshot o =
    MkSnapshot (InputEvidenceID input) (InputSessionID input) (TrimSpace (InputSourceID input))
      (TrimSpace (InputSourceType input)) (InputEvidenceType input) (UTC (InputObservedAt input))
      (UTC (InputReceivedAt input)) (Payload (snapshot o)) (InputConfidence input) (InputProvenance input)
      (MkIntegrity "SHA-256" (digest (Payload (snapshot o))) (TrimSpace (InputSchemaVersion input))
         (TrimSpace (InputRuntimeVersion input)) (TrimSpace (InputAcquisitionMethod input))).
Proof.
  unfold NewObject. intros (payload & Hp & H)%obind_ok.
  destruct (validateSnapshot _) eqn:Hv; [done|]. injection H as <-. cbn [snapshot Payload].
  split_and!; [|exact Hp|reflexivity]. split; cbn [Payload Integrity Algorithm PayloadDigest].
  - exact Hv.
  - by eapply payload_canonical_stable.
  - reflexivity.
  - reflexivity.
Qed.

(** An object that NewObject accepts verifies, rehydrates from its own snapshot
    to itself, and holds the canonical form of the payload it was given, which is
    its own canonical form, with its digest and UTC times. *)
Theorem evidence_round_trip input o :
  NewObject input = Ok o ->
  Rehydrate (ObjectSnapshot o) = Ok o /\ VerifyIntegrity (Some o) = None /\
  json.canonical (InputPayload input) = Some (Payload (snapshot o)) /\
  json.canonical (Payload (snapshot o)) = Some (Payload (snapshot o)) /\
  PayloadDigest (Integrity (snapshot o)) = digest (Payload (snapshot o)) /\
  location (ObservedAt (snapshot o)) = UTCLoc /\ location (ReceivedAt (snapshot o)) = UTCLoc.
Proof.
  intros (Hv & Hc & Hs)%NewObject_ok. rewrite ObjectSnapshot_eq. split_and!.
  - by apply rehydrated.
  - by apply VerifySnapshot_verified.
  - by apply payload_canonical.
  - by apply payload_canonical, vs_canonical.
  - by apply vs_digest.
  - by rewrite Hs.
  - by rewrite Hs.
Qed.

Lemma digest_inj p q : digest p = digest q -> p = q \/ Collision p q.
Proof.
  intros H. destruct (decide (p = q)) as [|Hne]; [by left|]. right. split; [exact Hne|].
  assert (string_of (hex_encode (sha256 p)) = string_of (hex_encode (sha256 q))) as H' by by injection H.
  apply (f_equal bytes_of) in H'. rewrite !bytes_of_string_of in H'.
  apply (f_equal hex_decode) in H'. rewrite !hex_decode_encode in H'. by injection H'.
Qed.

(** A snapshot whose payload was replaced under the same integrity metadata
    does not verify, unless the payloads are a SHA-256 collision. *)
Theorem payload_tamper_evident s payload :
  VerifySnapshot s = None -> payload <> Payload s ->
  VerifySnapshot (s <| Payload := payload |>) <> None \/ Collision payload (Payload s).
Proof.
  intros Hs Hne. destruct (VerifySnapshot (s <| Payload := payload |>)) eqn:E; [by left|]. right.
  apply VerifySnapshot_verified in Hs, E. destruct Hs as [_ _ _ Hd], E as [_ _ _ Hd'].
  change (Integrity (s <| Payload := payload |>)) with (Integrity s) in Hd'.
  change (Payload (s <| Payload := payload |>)) with payload in Hd'.
  rewrite Hd in Hd'. apply eq_sym, digest_inj in Hd' as [|]; done.
Qed.

(** ** Qualification of one object *)

(** What a policy requires of a snapshot. *)
Record meets (p : QualificationPolicy) (evaluatedAt : Time) (s : Snapshot) : Prop := {
  mt_source : TrustedSources p = ∅ \/ TrustedSources p !! SourceID s = Some true;
  mt_type : AllowedTypes p = ∅ \/ AllowedTypes p !! EvidenceType s = Some true;
  mt_future : instant (ObservedAt s) <= instant evaluatedAt + FutureTolerance p;
  mt_age : MaxAge p <= 0 \/ Sub evaluatedAt (ObservedAt s) <= MaxAge p;
  mt_confidence :
    match Confidence s, MinimumConfidence p with
    | None, None => RequireConfidence p = false
    | None, Some _ => False
    | Some _, None => True
    | Some c, Some minimum => f_lt c minimum = false
    end;
  mt_provenance :
    Forall (fun key => TrimSpace (default "" (Provenance s !! key)) <> "") (RequiredProvenance p);
  mt_fields :
    Forall (fun key => exists members v, json.decodeOne (Payload s) = Some (json.JObject members) /\
      (bytes_of key, v) ∈ members /\ v <> json.JNull) (RequiredPayloadFields p);
  mt_method :
    AllowedAcquisitionMethods p = ∅ \/
    AllowedAcquisitionMethods p !! AcquisitionMethod (Integrity s) = Some true
}.

Lemma when_nil b code field : when b code field = [] <-> b = false.
Proof. by destruct b. Qed.

Lemma restricts_false allowed value :
  restricts allowed value = false <-> allowed = ∅ \/ allowed !! value = Some true.
Proof.
  unfold restricts. rewrite andb_false_iff, !negb_false_iff, bool_decide_eq_true.
  destruct (allowed !! value) as [[]|]; cbn; intuition congruence.
Qed.

Lemma flat_map_nil {A B} (f : A -> list B) l : flat_map f l = [] <-> Forall (fun x => f x = []) l.
Proof.
  induction l as [|x l IH]; cbn; [split; [constructor|done]|].
  rewrite Forall_cons, <- IH. destruct (f x); [cbn; naive_solver|]. cbn. naive_solver.
Qed.

Lemma sorted_keys_unique (m : list (bytes * json.Json)) k v w :
  StronglySorted key_lt (map fst m) -> (k, v) ∈ m -> (k, w) ∈ m -> v = w.
Proof.
  induction m as [|[k' x] m IH]; cbn; intros Hs Hv Hw; [by apply not_elem_of_nil in Hv|].
  apply StronglySorted_inv in Hs as [Hs Hk].
  assert (Hirr : forall y, (k', y) ∈ m -> False).
  { intros y Hy%list_elem_of_In. apply (in_map fst) in Hy. cbn in Hy.
    apply list_elem_of_In in Hy. pose proof (proj1 (Forall_forall _ _) Hk _ Hy) as H.
    unfold key_lt in H. by rewrite byte_compare_refl in H. }
  apply elem_of_cons in Hv as [[= -> ->]|Hv], Hw as [[= E2]|Hw]; subst; try done.
  - exfalso. eauto.
  - exfalso. eauto.
  - by apply IH.
Qed.

Lemma fieldMissing_false payload key :
  fieldMissing payload key = false <->
  exists members v, json.decodeOne payload = Some (json.JObject members) /\
    (bytes_of key, v) ∈ members /\ v <> json.JNull.
Proof.
  unfold fieldMissing, payloadMembers. split.
  - destruct (json.decodeOne payload) as [[]|] eqn:Ed; try done.
    destruct (List.find _ members) as [[k v]|] eqn:Ef; [|done].
    apply List.find_some in Ef as [Hin Hk%bool_decide_eq_true_1]. subst k. intros Hv.
    exists members, v. split_and!; [done|by apply list_elem_of_In|by intros ->].
  - intros (members & v & Hd & Hin & Hv). rewrite Hd.
    apply decodeOne_wf in Hd. inversion Hd as [| | | | |d m _ Hs _ _]; subst.
    destruct (List.find _ members) as [[k w]|] eqn:Ef.
    + apply List.find_some in Ef as [Hin' Hk%bool_decide_eq_true_1]. subst k.
      apply list_elem_of_In in Hin'. rewrite (sorted_keys_unique members _ w v Hs Hin' Hin). by destruct v.
    + apply list_elem_of_In in Hin. pose proof (List.find_none _ _ Ef _ Hin) as H. cbn in H.
      by rewrite bool_decide_eq_true_2 in H.
Qed.

Lemma policyReasons_nil p evaluatedAt s : policyReasons p evaluatedAt s = [] <-> meets p evaluatedAt s.
Proof.
  unfold policyReasons. rewrite !app_nil, !when_nil, !restricts_false, !flat_map_nil.
  assert (Ht : timestampReasons p evaluatedAt s = [] <->
    instant (ObservedAt s) <= instant evaluatedAt + FutureTolerance p /\
    (MaxAge p <= 0 \/ Sub evaluatedAt (ObservedAt s) <= MaxAge p)).
  { unfold timestampReasons. destruct (After _ _) eqn:Ea; unfold After, Add in Ea; cbn [instant] in Ea.
    - split; [done|]. lia.
    - rewrite when_nil. lia. }
  assert (Hc : confidenceReasons p s = [] <->
    match Confidence s, MinimumConfidence p with
    | None, None => RequireConfidence p = false
    | None, Some _ => False
    | Some _, None => True
    | Some c, Some minimum => f_lt c minimum = false
    end).
  { unfold confidenceReasons. destruct (Confidence s), (MinimumConfidence p); rewrite ?when_nil; try done.
    - by rewrite orb_true_r.
    - by rewrite orb_false_r. }
  rewrite Ht, Hc.
  assert (Hp : Forall (fun key => when (provenanceMissing s key) ReasonProvenanceMissing key = []) (RequiredProvenance p) <->
    Forall (fun key => TrimSpace (default "" (Provenance s !! key)) <> "") (RequiredProvenance p)).
  { apply Forall_iff. intros key. rewrite when_nil. unfold provenanceMissing. apply bool_decide_eq_false. }
  assert (Hf : Forall (fun key => when (fieldMissing (Payload s) key) ReasonPayloadFieldMissing key = []) (RequiredPayloadFields p) <->
    Forall (fun key => exists members v, json.decodeOne (Payload s) = Some (json.JObject members) /\
      (bytes_of key, v) ∈ members /\ v <> json.JNull) (RequiredPayloadFields p)).
  { apply Forall_iff. intros key. rewrite when_nil. apply fieldMissing_false. }
  rewrite Hp, Hf. split; [intros (? & ? & [? ?] & ? & ? & ? & ?); by constructor|].
  intros [? ? ? ? ? ? ? ?]. split_and!; done.
Qed.

(** An object qualifies exactly when its snapshot verifies and meets every
    requirement of the policy (trusted source, allowed type, not in the future, not
    expired, confidence, provenance, payload fields, acquisition method), which is
    exactly when it has no reasons. *)
Theorem qualify_spec q o evaluatedAt r :
  Qualify q (Some o) evaluatedAt = Ok r ->
  (Status r = QualificationQualified <-> verified (snapshot o) /\ meets (policy q) evaluatedAt (snapshot o)) /\
  (Status r = QualificationQualified <-> Reasons r = []) /\
  Status r <> QualificationUnavailable /\
  ResultEvidenceID r = EvidenceID (snapshot o) /\ EvaluatedAt r = UTC evaluatedAt /\
  ResultPolicyVersion r = PolicyVersion (policy q).
Proof.
  unfold Qualify. destruct (IsZero evaluatedAt); [done|]. rewrite ObjectSnapshot_eq.
  assert (Hm : meets (policy q) (UTC evaluatedAt) (snapshot o) <-> meets (policy q) evaluatedAt (snapshot o)).
  { split; intros [H1 H2 H3 H4 H5 H6 H7 H8]; by split. }
  rewrite <- Hm, <- policyReasons_nil, <- VerifySnapshot_verified.
  destruct (VerifySnapshot (snapshot o)) eqn:Hv; intros [= <-]; cbn.
  - split_and!; try done; split; try done. by intros [? _].
  - destruct (policyReasons _ _ _ == []) eqn:E.
    + apply bool_decide_eq_true_1 in E. rewrite E. split_and!; done.
    + apply bool_decide_eq_false_1 in E. split_and!; try done; (split; [done|]). by intros [_ ?].
Qed.

(** ** The qualifier *)

(** The order in which Go visits a map is some order. *)
Definition is_key_range (range : Range) : Prop := forall m, range m ≡ₚ map_to_list m.

Definition trimmed_entry (kv : string * bool) : string * bool := (TrimSpace kv.1, kv.2).

Lemma fold_insert_list_to_map (l : list (string * bool)) (m0 : gmap string bool) :
  NoDup ((fun kv => TrimSpace kv.1) <$> l) ->
  fold_left (fun m '(key, allowed) => <[TrimSpace key := allowed]> m) l m0 =
  list_to_map (trimmed_entry <$> l) ∪ m0.
Proof.
  revert m0. induction l as [|[k a] l IH]; intros m0 Hn; cbn [fold_left].
  { by rewrite fmap_nil, list_to_map_nil, (left_id_L ∅ (∪)). }
  rewrite fmap_cons in Hn. apply NoDup_cons in Hn as [Hk Hn]. rewrite IH by done.
  rewrite fmap_cons. unfold trimmed_entry at 2. cbn [fst snd list_to_map foldr].
  rewrite <- insert_union_l. symmetry. apply insert_union_r. apply not_elem_of_list_to_map_1.
  intros Hin. apply Hk. rewrite <- list_fmap_compose in Hin. exact Hin.
Qed.

(** The qualifier of a policy whose configured names stay distinct after
    trimming does not depend on the order in which Go visits the maps. *)
Theorem qualifier_deterministic range range' p :
  is_key_range range -> is_key_range range' ->
  NoDup ((fun kv => TrimSpace kv.1) <$> map_to_list (TrustedSources p)) ->
  NoDup ((fun kv => TrimSpace kv.1) <$> map_to_list (AllowedAcquisitionMethods p)) ->
  NewQualifier range p = NewQualifier range' p.
Proof.
  intros Hr Hr' H1 H2.
  assert (Hset : forall m, NoDup ((fun kv => TrimSpace kv.1) <$> map_to_list m) ->
    copyStringSet range m = copyStringSet range' m).
  { intros m Hm. unfold copyStringSet.
    assert (Hm1 : NoDup ((fun kv => TrimSpace kv.1) <$> range m)) by (rewrite (Hr m); exact Hm).
    assert (Hm2 : NoDup ((fun kv => TrimSpace kv.1) <$> range' m)) by (rewrite (Hr' m); exact Hm).
    rewrite (fold_insert_list_to_map _ _ Hm1), (fold_insert_list_to_map _ _ Hm2). f_equal.
    apply list_to_map_proper; [|by rewrite (Hr m), (Hr' m)].
    rewrite <- list_fmap_compose. exact Hm1. }
  unfold NewQualifier. by rewrite !Hset.
Qed.

(** Two names that differ in white space only: whether the source is trusted
    depends on which of them Go visits last. *)
Definition ambiguous_sources : gmap string bool := <["CAM" := true]> (<["CAM " := false]> ∅).

Theorem trust_depends_on_iteration :
  exists range range', is_key_range range /\ is_key_range range' /\
    copyStringSet range ambiguous_sources !! "CAM" = Some true /\
    copyStringSet range' ambiguous_sources !! "CAM" = Some false.
Proof.
  pose (order := fun first m => merge_sort (fun kv kv' : string * bool => kv.2 = first \/ kv'.2 <> first) (map_to_list m)).
  exists (order false), (order true).
  split_and!; [intros m; apply merge_sort_Permutation..| |]; vm_compute; reflexivity.
Qed.

(** A NaN is no confidence between zero and one, and no confidence below a
    minimum: an object that claims it passes both checks. *)
Theorem nan_confidence_qualifies q o evaluatedAt minimum :
  Confidence (snapshot o) = Some f_nan -> MinimumConfidence (policy q) = Some minimum ->
  confidenceReasons (policy q) (snapshot o) = [] /\
  validateSnapshot (snapshot o) = validateSnapshot ((snapshot o) <| Confidence := Some f_one |>) /\
  Qualify q (Some o) evaluatedAt =
    Qualify (MkQualifier (MkPolicy (PolicyVersion (policy q)) (TrustedSources (policy q)) (AllowedTypes (policy q))
      (AllowedAcquisitionMethods (policy q)) (MaxAge (policy q)) (FutureTolerance (policy q))
      (RequireConfidence (policy q)) None (RequiredProvenance (policy q)) (RequiredPayloadFields (policy q))))
      (Some o) evaluatedAt.
Proof.
  intros Hc Hm. unfold confidenceReasons, validateSnapshot, Qualify, policyReasons, timestampReasons.
  rewrite ObjectSnapshot_eq. cbn [policy PolicyVersion TrustedSources AllowedTypes AllowedAcquisitionMethods
    MaxAge FutureTolerance RequiredProvenance RequiredPayloadFields].
  unfold confidenceReasons. cbn [MinimumConfidence]. rewrite Hc, Hm.
  split_and!; [by destruct minimum|by destruct o as [[]]|]. by destruct minimum.
Qed.
