(* ===== verification/EvidenceSets.v ===== *)
(** * Properties of the qualification of evidence sets

    The result of [QualifySet] is the one of a declarative definition: every
    object in its place with its own reasons, a mismatch of its session, a
    conflict with another object about the same observation, or the repetition
    of an earlier one. It depends neither on the order in which Go visits a map
    nor on the order in which the objects are given. *)

From Stdlib Require Import Ascii String.
From S2P Require Import Prelude GoTime GoString Uuid GoCrypto GoTimeFormat GoFloat Evidence EvidenceObjects.
Import evidence.

(** ** The declarative definition *)

(** Two snapshots of one source, type and instant. *)
Definition same_observation (s t : Snapshot) : bool :=
  (SourceID s == SourceID t) && (EvidenceType s == EvidenceType t) &&
  TimeEqual (ObservedAt s) (ObservedAt t).

(** An object of the session about the same observation. *)
Definition is_peer (sessionID : UUID) (s : Snapshot) (o : option Object) : bool :=
  match o with
  | None => false
  | Some o => (SessionID (snapshot o) == sessionID) && same_observation s (snapshot o)
  end.

Definition is_conflict (sessionID : UUID) (s : Snapshot) (o : option Object) : bool :=
  is_peer sessionID s o &&
  match o with
  | None => false
  | Some o => PayloadDigest (Integrity (snapshot o)) != PayloadDigest (Integrity s)
  end.

(** The reasons that the set adds to the object at position [i]. *)
Definition set_reasons (sessionID : UUID) (l : list (option Object)) (i : nat) (o : option Object)
    : list QualificationReason :=
  match o with
  | None => []
  | Some o =>
      let s := snapshot o in
      if SessionID s != sessionID then [MkReason ReasonSessionMismatch "session_id"] else
      if existsb (is_conflict sessionID s) l then [MkReason ReasonConflictingObservation "payload"] else
      when (existsb (is_peer sessionID s) (take i l)) ReasonDuplicateObservation "evidence_id"
  end.

Definition own_result (q : Qualifier) (evaluatedAt : Time) (o : option Object) : QualificationResult :=
  match Qualify q o evaluatedAt with
  | Ok r => r
  | Err _ => MkResult NilUUID QualificationUnavailable ZeroTime "" []
  end.

Definition add_reasons (l : list QualificationReason) (r : QualificationResult) : QualificationResult :=
  r <| Reasons := Reasons r ++ l |>.

Definition expected_evidence (q : Qualifier) (sessionID : UUID) (evaluatedAt : Time)
    (l : list (option Object)) : list QualificationResult :=
  imap (fun i o => finishResult (add_reasons (set_reasons sessionID l i o) (own_result q evaluatedAt o))) l.

(** ** The key of a group *)

Lemma separator_inj (c : ascii) (a b x y : bytes) :
  c ∉ a -> c ∉ b -> a ++ c :: x = b ++ c :: y -> a = b /\ x = y.
Proof.
  revert b. induction a as [|d a IH]; intros [|e b] Ha Hb H; cbn in H.
  - by injection H.
  - injection H as -> _. by destruct Hb; left.
  - injection H as -> _. by destruct Ha; left.
  - injection H as -> H. destruct (IH b) as [-> ->]; [set_solver..|done|done].
Qed.

Lemma last_separator_inj (c : ascii) (a b x y : bytes) :
  c ∉ x -> c ∉ y -> a ++ c :: x = b ++ c :: y -> a = b /\ x = y.
Proof.
  intros Hx Hy H. apply (f_equal (@rev ascii)) in H. rewrite !rev_app_distr in H. cbn [rev] in H.
  rewrite <- !app_assoc in H. cbn [app] in H.
  assert (forall l : bytes, c ∉ l -> c ∉ rev l) as Hrev.
  { intros l Hl Hin. apply Hl. apply list_elem_of_In, in_rev. by apply list_elem_of_In. }
  apply separator_inj in H as [Hr Ha]; [|by auto..].
  apply (f_equal (@rev ascii)) in Hr, Ha. by rewrite !rev_involutive in Hr, Ha.
Qed.

Lemma digits_no_zero (b : bytes) : Forall (fun c => is_digit c = true) b -> zero ∉ b.
Proof. intros H Hin. by pose proof (proj1 (Forall_forall _ _) H _ Hin). Qed.

Lemma pad_no_zero w n : 0 <= n -> zero ∉ pad_digits w n.
Proof. intros Hn. by apply digits_no_zero, pad_digits_digits. Qed.

Lemma decimal_no_zero w n : zero ∉ decimal w n.
Proof.
  unfold decimal. destruct (n <? 0) eqn:E; [|apply pad_no_zero; lia].
  apply not_elem_of_cons. split; [done|apply pad_no_zero; lia].
Qed.

Lemma fraction_no_zero n : 0 <= n -> zero ∉ fraction n.
Proof.
  intros Hn. unfold fraction. destruct (n =? 0); [apply not_elem_of_nil|].
  apply not_elem_of_cons. split; [done|]. apply digits_no_zero.
  by apply Forall_rev, drop_zeros_Forall, Forall_rev, pad_digits_digits.
Qed.

#[local] Opaque pad_digits decimal fraction.

Lemma RFC3339Nano_no_zero t : zero ∉ RFC3339Nano 0 t.
Proof.
  unfold RFC3339Nano. change (zone_text 0) with [byte_of 90]. set (local := instant t + 0 * Second). clearbody local.
  destruct (civil_of_days _) as [[y m] d] eqn:E. apply civil_of_days_spec in E as (_ & Hm & Hd).
  pose proof (clock_fields (local / Second)) as (H1 & H2 & H3). unfold two_digits in *.
  pose proof (Z.mod_pos_bound local Second eq_refl).
  repeat first [apply not_elem_of_app; split|apply not_elem_of_cons; split];
    first [apply decimal_no_zero|apply pad_no_zero; lia|apply fraction_no_zero; lia|done|apply not_elem_of_nil].
Qed.

Lemma bytes_of_String c s : bytes_of (String c s) = c :: bytes_of s.
Proof. done. Qed.

Lemma typePattern_no_zero t : typePattern t = true -> zero ∉ bytes_of t.
Proof.
  unfold typePattern, match_code. destruct (bytes_of t) as [|c l]; [done|].
  rewrite !andb_true_iff. intros [[[Hc Hl] _] _] Hin.
  apply elem_of_cons in Hin as [<-|Hin]; [done|].
  apply list_elem_of_In in Hin. by pose proof (proj1 (forallb_forall _ _) Hl _ Hin).
Qed.

(** Two keys agree exactly for one observation. *)
Lemma groupKey_spec s t :
  typePattern (EvidenceType s) = true -> typePattern (EvidenceType t) = true ->
  groupKey s = groupKey t <-> same_observation s t = true.
Proof.
  intros Hs Ht. unfold same_observation, TimeEqual. rewrite !andb_true_iff, !bool_decide_eq_true, Z.eqb_eq.
  split.
  - intros H. apply (f_equal bytes_of) in H. unfold groupKey in H.
    rewrite !bytes_of_app, !bytes_of_String, !bytes_of_app, !bytes_of_String, !bytes_of_string_of in H.
    assert (forall a b c : bytes, a ++ zero :: b ++ zero :: c = (a ++ zero :: b) ++ zero :: c) as Hassoc.
    { intros a b c. by rewrite <- app_assoc. }
    rewrite !Hassoc in H. apply last_separator_inj in H as [H Hr]; [|apply RFC3339Nano_no_zero..].
    apply last_separator_inj in H as [H1 H2]; [|by apply typePattern_no_zero..].
    apply RFC3339Nano_inj in Hr. split_and!; [by apply bytes_of_inj..|exact Hr].
  - intros [[H1 H2] H3]. unfold groupKey. rewrite H1, H2. do 4 f_equal. unfold UTC. by rewrite H3.
Qed.

(** ** The first loop *)

(** The observations of a group among the objects from index [i] on. *)
Fixpoint group_of (sessionID : UUID) (k : string) (i : nat) (l : list (option Object)) : list observation :=
  match l with
  | [] => []
  | o :: l =>
      let rest := group_of sessionID k (S i) l in
      match o with
      | None => rest
      | Some o =>
          if (SessionID (snapshot o) == sessionID) && (groupKey (snapshot o) == k)
          then MkObservation i (PayloadDigest (Integrity (snapshot o))) :: rest else rest
      end
  end.

Definition mismatch (sessionID : UUID) (o : option Object) : list QualificationReason :=
  match o with
  | None => []
  | Some o => when (SessionID (snapshot o) != sessionID) ReasonSessionMismatch "session_id"
  end.

Lemma add_reasons_nil r : add_reasons [] r = r.
Proof. destruct r. unfold add_reasons. cbn. by rewrite app_nil_r. Qed.

Lemma add_reasons_app a b r : add_reasons b (add_reasons a r) = add_reasons (a ++ b) r.
Proof. destruct r. unfold add_reasons. cbn. by rewrite app_assoc. Qed.

Lemma Qualify_own q o evaluatedAt :
  IsZero evaluatedAt = false -> Qualify q o evaluatedAt = Ok (own_result q evaluatedAt o).
Proof.
  intros Hz. unfold own_result. assert (exists r, Qualify q o evaluatedAt = Ok r) as [r ->]; [|done].
  unfold Qualify. rewrite Hz. destruct o as [o|]; [destruct (VerifySnapshot _)|]; eauto.
Qed.

Lemma addReason_last i r l x :
  i = length l -> addReason i r (l ++ [x]) = l ++ [add_reasons [r] x].
Proof.
  intros ->. unfold addReason. rewrite <- (Nat.add_0_r (length l)), alter_app_r. done.
Qed.

Definition default_group (groups : Groups) (k : string) : list observation := default [] (groups !! k).

Lemma default_group_insert groups k g k' :
  default_group (<[k := g]> groups) k' = if decide (k = k') then g else default_group groups k'.
Proof.
  unfold default_group. case_decide as H; [by subst; rewrite lookup_insert_eq|by rewrite lookup_insert_ne].
Qed.

Lemma qualifyLoop_spec q sessionID evaluatedAt l : IsZero evaluatedAt = false -> forall i results groups,
  i = length results ->
  exists groups', qualifyLoop q sessionID evaluatedAt i l results groups =
    Ok (results ++ ((fun o => add_reasons (mismatch sessionID o) (own_result q evaluatedAt o)) <$> l), groups') /\
    forall k, default_group groups' k = default_group groups k ++ group_of sessionID k i l.
Proof.
  intros Hz. induction l as [|o l IH]; intros i results groups Hi; cbn [qualifyLoop].
  { exists groups. split; [by rewrite app_nil_r|]. intros k. cbn. by rewrite app_nil_r. }
  rewrite Qualify_own by done. cbn [obind]. rewrite fmap_cons.
  assert (Hlen : forall r, S i = length (results ++ [r])) by (intros r; rewrite length_app; cbn; lia).
  destruct o as [o|]; cbn [mismatch group_of].
  - rewrite ObjectSnapshot_eq. destruct (SessionID (snapshot o) == sessionID) eqn:E; cbn [negb andb when].
    + rewrite add_reasons_nil.
      edestruct IH as (groups' & -> & Hg); [apply Hlen|]. exists groups'. rewrite <- app_assoc. cbn [app].
      split; [done|]. intros k. rewrite Hg, default_group_insert.
      destruct (decide (groupKey (snapshot o) = k)) as [<-|Hk].
      * rewrite bool_decide_eq_true_2 by done. unfold default_group. by rewrite <- app_assoc.
      * by rewrite bool_decide_eq_false_2 by done.
    + rewrite addReason_last by done.
      edestruct IH as (groups' & -> & Hg); [apply Hlen|]. exists groups'. rewrite <- app_assoc. cbn [app].
      split; [done|]. exact Hg.
  - rewrite add_reasons_nil. edestruct IH as (groups' & -> & Hg); [apply Hlen|].
    exists groups'. rewrite <- app_assoc. cbn [app]. by split.
Qed.

(** ** The groups *)

Lemma group_of_spec sessionID k l : forall i x,
  x ∈ group_of sessionID k i l <->
  exists n o, l !! n = Some (Some o) /\ index x = (i + n)%nat /\
    SessionID (snapshot o) = sessionID /\ groupKey (snapshot o) = k /\
    observedDigest x = PayloadDigest (Integrity (snapshot o)).
Proof.
  induction l as [|o l IH]; intros i x; cbn [group_of].
  { split; [by intros ?%not_elem_of_nil|]. by intros (n & o & H & _). }
  assert (Hrest : x ∈ group_of sessionID k (S i) l <-> exists n o', (o :: l) !! S n = Some (Some o') /\
    index x = (i + S n)%nat /\ SessionID (snapshot o') = sessionID /\ groupKey (snapshot o') = k /\
    observedDigest x = PayloadDigest (Integrity (snapshot o'))).
  { rewrite IH. cbn. split; intros (n & o' & H & Hx & H'); exists n, o'; (split; [done|split; [lia|done]]). }
  assert (Hback : (exists n o', (o :: l) !! n = Some (Some o') /\ index x = (i + n)%nat /\
      SessionID (snapshot o') = sessionID /\ groupKey (snapshot o') = k /\
      observedDigest x = PayloadDigest (Integrity (snapshot o'))) <->
    x ∈ group_of sessionID k (S i) l \/
    exists o', o = Some o' /\ index x = i /\ SessionID (snapshot o') = sessionID /\
      groupKey (snapshot o') = k /\ observedDigest x = PayloadDigest (Integrity (snapshot o'))).
  { rewrite Hrest. split.
    - intros ([|n] & o' & H & Hx & H'); [|left; by exists n, o'].
      right. exists o'. injection H as ->. split; [done|split; [lia|done]].
    - intros [(n & o' & H)|(o' & -> & Hx & H')]; [by exists (S n), o'|].
      exists 0%nat, o'. split; [done|split; [lia|done]]. }
  rewrite Hback. clear IH Hrest Hback. destruct o as [o|].
  - destruct ((SessionID (snapshot o) == sessionID) && (groupKey (snapshot o) == k)) eqn:E.
    + apply andb_true_iff in E as [E1%bool_decide_eq_true_1 E2%bool_decide_eq_true_1].
      rewrite elem_of_cons. split.
      * intros [->|H]; [right; by exists o|by left].
      * intros [H|(o' & [= <-] & H1 & _ & _ & H2)]; [by right|left]. destruct x. cbn in *. by subst.
    + split; [by left|]. intros [H|(o' & [= <-] & _ & H1 & H2 & _)]; [done|].
      by rewrite H1, H2, !bool_decide_eq_true_2 in E.
  - split; [by left|]. by intros [H|(o' & ? & _)].
Qed.

(** The indices of a group increase. *)
Lemma group_of_sorted sessionID k l : forall i, StronglySorted lt (index <$> group_of sessionID k i l).
Proof.
  induction l as [|o l IH]; intros i; cbn [group_of]; [constructor|].
  destruct o as [o|]; [|apply IH]. destruct (_ && _); [|apply IH]. rewrite fmap_cons. constructor; [apply IH|].
  apply Forall_fmap, Forall_forall. intros x Hx. apply group_of_spec in Hx as (n & _ & _ & Hx & _). cbn. lia.
Qed.

Lemma sorted_lt_nodup l : StronglySorted lt l -> NoDup l.
Proof.
  induction 1 as [|x l _ IH Hx]; constructor; [|exact IH].
  intros Hin. pose proof (proj1 (Forall_forall _ _) Hx _ Hin). lia.
Qed.

(** What a group adds to the result at position [j]. *)
Definition group_reasons (g : list observation) (j : nat) : list QualificationReason :=
  match g with
  | [] | [_] => []
  | first :: others =>
      if existsb (fun o => observedDigest o != observedDigest first) others
      then when (bool_decide (j ∈ index <$> g)) ReasonConflictingObservation "payload"
      else when (bool_decide (j ∈ index <$> others)) ReasonDuplicateObservation "evidence_id"
  end.

Lemma fold_addReason code field g : forall l j, NoDup (index <$> g) ->
  fold_left (fun l o => addReason (index o) (MkReason code field) l) g l !! j =
  add_reasons (when (bool_decide (j ∈ index <$> g)) code field) <$> l !! j.
Proof.
  induction g as [|o g IH]; intros l j Hn; cbn [fold_left].
  { rewrite bool_decide_eq_false_2 by apply not_elem_of_nil. cbn [when].
    destruct (l !! j); [|done]. cbn. by rewrite add_reasons_nil. }
  rewrite fmap_cons in Hn. apply NoDup_cons in Hn as [Ho Hn]. rewrite IH by done. unfold addReason.
  destruct (decide (index o = j)) as [<-|Hne].
  - rewrite list_lookup_alter, decide_True, bool_decide_eq_false_2 by done.
    rewrite bool_decide_eq_true_2 by (rewrite fmap_cons; by left). cbn [when].
    destruct (l !! index o); [|done]. cbn. by rewrite add_reasons_nil.
  - rewrite list_lookup_alter, decide_False by done. do 3 f_equal. apply bool_decide_ext.
    rewrite fmap_cons, elem_of_cons. naive_solver.
Qed.

Lemma resolveGroup_lookup l g j :
  NoDup (index <$> g) -> resolveGroup l g !! j = add_reasons (group_reasons g j) <$> l !! j.
Proof.
  intros Hn. unfold resolveGroup, group_reasons. destruct g as [|o [|o' g]].
  1-2: destruct (l !! j); [cbn; by rewrite add_reasons_nil|done].
  destruct (existsb _ _); apply fold_addReason; [exact Hn|]. by apply NoDup_cons in Hn as [_ Hn].
Qed.

Lemma resolveGroups_lookup gs j : forall l,
  Forall (fun g => NoDup (index <$> g)) gs ->
  fold_left resolveGroup gs l !! j = add_reasons (flat_map (fun g => group_reasons g j) gs) <$> l !! j.
Proof.
  induction gs as [|g gs IH]; intros l Hgs; cbn [fold_left flat_map].
  { destruct (l !! j); [cbn; by rewrite add_reasons_nil|done]. }
  apply Forall_cons in Hgs as [Hg Hgs]. rewrite IH, resolveGroup_lookup by done.
  destruct (l !! j); [|done]. cbn. by rewrite add_reasons_app.
Qed.

Lemma group_reasons_outside g j : j ∉ index <$> g -> group_reasons g j = [].
Proof.
  intros Hj. unfold group_reasons. destruct g as [|o [|o' g]]; [done..|].
  rewrite (bool_decide_eq_false_2 (j ∈ index <$> o :: o' :: g)) by done.
  rewrite (bool_decide_eq_false_2 (j ∈ index <$> o' :: g)).
  - by destruct (existsb _ _).
  - intros H. apply Hj. rewrite fmap_cons. by right.
Qed.

Lemma group_reasons_short g j : (length (group_reasons g j) <= 1)%nat.
Proof. unfold group_reasons, when. repeat case_match; cbn; lia. Qed.

Lemma permutation_short {A} (l k : list A) : (length l <= 1)%nat -> k ≡ₚ l -> k = l.
Proof.
  destruct l as [|x [|y l]]; cbn; [| |lia]; intros _ H.
  - by apply Permutation_nil_r in H.
  - by apply Permutation_singleton_r in H.
Qed.

Lemma flat_map_one {K A B} (f : A -> list B) (kvs : list (K * A)) k g :
  NoDup (fst <$> kvs) -> (k, g) ∈ kvs -> (forall k' g', (k', g') ∈ kvs -> k' <> k -> f g' = []) ->
  flat_map f (snd <$> kvs) = f g.
Proof.
  induction kvs as [|[k1 g1] kvs IH]; intros Hn Hin Hf; [by apply not_elem_of_nil in Hin|].
  rewrite !fmap_cons in *. cbn [fst snd flat_map] in *. apply NoDup_cons in Hn as [Hk1 Hn].
  apply elem_of_cons in Hin as [[= -> ->]|Hin].
  - enough (flat_map f (snd <$> kvs) = []) as -> by apply app_nil_r.
    apply flat_map_nil, Forall_fmap, Forall_forall. intros [k' g'] Hk'. cbn.
    apply (Hf k'); [by right|]. intros ->. apply Hk1, list_elem_of_fmap. by exists (k1, g').
  - rewrite (Hf k1 g1); [|by left|]; [|intros ->; apply Hk1, list_elem_of_fmap; by exists (k, g)].
    apply IH; [done..|]. intros k' g' Hk'. apply Hf. by right.
Qed.

(** The order in which the groups are visited is some order. *)
Definition is_range (range : Groups -> list (list observation)) : Prop :=
  forall groups, range groups ≡ₚ snd <$> map_to_list groups.

Section groups.
Context (sessionID : UUID) (l : list (option Object)) (groups : Groups)
  (Hgroups : forall k, default_group groups k = group_of sessionID k 0 l).

Lemma group_entry k g : (k, g) ∈ map_to_list groups -> g = group_of sessionID k 0 l.
Proof. intros H%elem_of_map_to_list. rewrite <- Hgroups. unfold default_group. by rewrite H. Qed.

Lemma group_nodup k : NoDup (index <$> group_of sessionID k 0 l).
Proof. apply sorted_lt_nodup, group_of_sorted. Qed.

(** The group of a position. *)
Definition group_at (o : option Object) : list observation :=
  match o with
  | None => []
  | Some o =>
      if SessionID (snapshot o) == sessionID then group_of sessionID (groupKey (snapshot o)) 0 l else []
  end.

Lemma in_group j k o :
  l !! j = Some o -> j ∈ index <$> group_of sessionID k 0 l <->
  exists o', o = Some o' /\ SessionID (snapshot o') = sessionID /\ groupKey (snapshot o') = k.
Proof.
  intros Hj. rewrite list_elem_of_fmap. split.
  - intros (x & -> & Hx). apply group_of_spec in Hx as (n & o' & Hn & Hi & H1 & H2 & _).
    cbn in Hi. subst n. rewrite Hj in Hn. injection Hn as ->. eauto.
  - intros (o' & -> & H1 & H2).
    exists (MkObservation j (PayloadDigest (Integrity (snapshot o')))). split; [done|].
    apply group_of_spec. by exists j, o'.
Qed.

Lemma groups_reasons gs j o :
  gs ≡ₚ snd <$> map_to_list groups -> l !! j = Some o ->
  flat_map (fun g => group_reasons g j) gs = group_reasons (group_at o) j.
Proof.
  intros Hgs Hj. apply permutation_short; [apply group_reasons_short|].
  rewrite (Permutation_flat_map _ Hgs).
  assert (Hnone : forall k g, (k, g) ∈ map_to_list groups ->
    (forall o', o = Some o' -> SessionID (snapshot o') = sessionID -> groupKey (snapshot o') <> k) ->
    group_reasons g j = []).
  { intros k g Hg Ho. apply group_entry in Hg as ->. apply group_reasons_outside.
    rewrite (in_group j k o Hj). naive_solver. }
  assert (Hout : group_at o = [] -> (forall o', o = Some o' -> SessionID (snapshot o') <> sessionID) ->
    flat_map (fun g => group_reasons g j) (snd <$> map_to_list groups) ≡ₚ group_reasons (group_at o) j).
  { intros -> Ho. enough (flat_map (fun g => group_reasons g j) (snd <$> map_to_list groups) = []) as -> by done.
    apply flat_map_nil, Forall_fmap, Forall_forall. intros [k g] Hg. cbn.
    apply (Hnone k g Hg). intros o' Ho' Hs. by destruct (Ho o' Ho'). }
  destruct o as [o'|]; [|by apply Hout]. cbn [group_at] in *.
  destruct (decide (SessionID (snapshot o') = sessionID)) as [Hs|Hs].
  2: { rewrite bool_decide_eq_false_2 in * by done. apply Hout; [done|]. by intros ? [= <-]. }
  rewrite bool_decide_eq_true_2 in * by done. set (k := groupKey (snapshot o')) in *.
  destruct (groups !! k) as [g|] eqn:Eg.
  - rewrite (flat_map_one _ _ k g); [|apply NoDup_fst_map_to_list|by apply elem_of_map_to_list|].
    + rewrite <- Hgroups. unfold default_group. by rewrite Eg.
    + intros k' g' Hk' Hne. apply (Hnone k' g' Hk'). intros o'' [= <-] _. by subst k.
  - exfalso. pose proof (proj2 (in_group j k _ Hj) ltac:(eauto)) as Hin.
    rewrite <- Hgroups in Hin. unfold default_group in Hin. rewrite Eg in Hin.
    by apply not_elem_of_nil in Hin.
Qed.
End groups.

(** Objects come from [NewObject] and [Rehydrate]. *)
Definition genuine (o : option Object) : Prop :=
  match o with
  | None => True
  | Some o => verified (snapshot o)
  end.

Lemma validateSnapshot_type s : validateSnapshot s = None -> typePattern (EvidenceType s) = true.
Proof.
  unfold validateSnapshot. destruct (typePattern (EvidenceType s)); [done|].
  by repeat (case_match; [done|]).
Qed.

Lemma genuine_type o : genuine (Some o) -> typePattern (EvidenceType (snapshot o)) = true.
Proof. intros [Hv _ _ _]. by apply validateSnapshot_type. Qed.

Section reasons.
Context (sessionID : UUID) (l : list (option Object)) (Hl : Forall genuine l).
Context (j : nat) (o : Object) (Hj : l !! j = Some (Some o)) (Hs : SessionID (snapshot o) = sessionID).

Let G : list observation := group_of sessionID (groupKey (snapshot o)) 0 l.

Lemma lookup_genuine n o' : l !! n = Some (Some o') -> genuine (Some o').
Proof. intros H. exact (proj1 (Forall_lookup _ _) Hl _ _ H). Qed.

Lemma peer_key n o' :
  l !! n = Some (Some o') ->
  groupKey (snapshot o') = groupKey (snapshot o) <-> same_observation (snapshot o) (snapshot o') = true.
Proof.
  intros Hn. rewrite <- groupKey_spec by (eapply genuine_type, lookup_genuine; eassumption).
  split; by intros ->.
Qed.

Lemma self_in_group : exists x, x ∈ G /\ index x = j /\ observedDigest x = PayloadDigest (Integrity (snapshot o)).
Proof.
  exists (MkObservation j (PayloadDigest (Integrity (snapshot o)))). split; [|done].
  apply group_of_spec. by exists j, o.
Qed.

Lemma conflict_in_group :
  existsb (is_conflict sessionID (snapshot o)) l = true <->
  exists x, x ∈ G /\ observedDigest x <> PayloadDigest (Integrity (snapshot o)).
Proof.
  rewrite existsb_exists. split.
  - intros (o' & Hin%list_elem_of_In%list_elem_of_lookup_1 & H). destruct Hin as [n Hn].
    unfold is_conflict, is_peer in H. destruct o' as [o'|]; [|done].
    rewrite !andb_true_iff, bool_decide_eq_true, negb_true_iff, bool_decide_eq_false in H.
    destruct H as [[H1 H2] H3]. exists (MkObservation n (PayloadDigest (Integrity (snapshot o')))). split; [|done].
    apply group_of_spec. exists n, o'. split_and!; try done. by apply (peer_key n).
  - intros (x & Hx & Hd). apply group_of_spec in Hx as (n & o' & Hn & _ & H1 & H2 & H3).
    exists (Some o'). split; [by apply list_elem_of_In, (list_elem_of_lookup_2 l n)|].
    apply (peer_key n o' Hn) in H2. unfold is_conflict, is_peer.
    rewrite H2, H1, bool_decide_eq_true_2 by done. cbn [andb]. rewrite <- H3.
    by rewrite bool_decide_eq_false_2.
Qed.

Lemma earlier_in_group :
  existsb (is_peer sessionID (snapshot o)) (take j l) = true <-> exists x, x ∈ G /\ (index x < j)%nat.
Proof.
  rewrite existsb_exists. split.
  - intros (o' & Hin%list_elem_of_In%list_elem_of_lookup_1 & H). destruct Hin as [n Hn].
    apply lookup_take_Some in Hn as [Hn Hlt].
    unfold is_peer in H. destruct o' as [o'|]; [|done].
    rewrite !andb_true_iff, bool_decide_eq_true in H. destruct H as [H1 H2].
    exists (MkObservation n (PayloadDigest (Integrity (snapshot o')))). split; [|done].
    apply group_of_spec. exists n, o'. split_and!; try done. by apply (peer_key n).
  - intros (x & Hx & Hd). apply group_of_spec in Hx as (n & o' & Hn & Hi & H1 & H2 & H3).
    exists (Some o'). split.
    + apply list_elem_of_In, (list_elem_of_lookup_2 _ n). rewrite lookup_take_lt by lia. exact Hn.
    + apply (peer_key n o' Hn) in H2. unfold is_peer. by rewrite H2, H1, bool_decide_eq_true_2.
Qed.

Lemma set_reasons_group : set_reasons sessionID l j (Some o) = group_reasons G j.
Proof.
  unfold set_reasons. rewrite Hs, bool_decide_eq_true_2 by done. cbn [negb].
  pose proof (group_of_sorted sessionID (groupKey (snapshot o)) l 0) as Hsorted. fold G in Hsorted.
  destruct self_in_group as (xj & Hxj & Hij & Hdj). unfold group_reasons.
  assert (Hc := conflict_in_group). assert (He := earlier_in_group). clearbody G.
  destruct G as [|first [|second others]].
  - by apply not_elem_of_nil in Hxj.
  - apply list_elem_of_singleton in Hxj as ->.
    destruct (existsb (is_conflict _ _) l).
    { by destruct (proj1 Hc eq_refl) as (x & ->%list_elem_of_singleton & H). }
    destruct (existsb (is_peer _ _) _); [|done].
    destruct (proj1 He eq_refl) as (x & ->%list_elem_of_singleton & H). lia.
  - set (rest := second :: others) in *.
    assert (Hconf : existsb (fun x => observedDigest x != observedDigest first) rest =
      existsb (is_conflict sessionID (snapshot o)) l).
    { apply eq_true_iff_eq. rewrite Hc, existsb_exists. split.
      - intros (y & Hy%list_elem_of_In & Hne). apply negb_true_iff, bool_decide_eq_false_1 in Hne.
        destruct (decide (observedDigest y = PayloadDigest (Integrity (snapshot o)))) as [E|E];
          [exists first; split; [by left|congruence]|exists y; split; [by right|done]].
      - intros (x & Hx & Hne). destruct (decide (observedDigest xj = observedDigest first)) as [E|E].
        + apply elem_of_cons in Hx as [->|Hx]; [congruence|]. exists x.
          split; [by apply list_elem_of_In|]. apply negb_true_iff, bool_decide_eq_false_2. congruence.
        + apply elem_of_cons in Hxj as [->|Hxj]; [done|]. exists xj.
          split; [by apply list_elem_of_In|]. by apply negb_true_iff, bool_decide_eq_false_2. }
    rewrite Hconf. destruct (existsb (is_conflict _ _) l).
    + rewrite bool_decide_eq_true_2; [done|]. apply list_elem_of_fmap. by exists xj.
    + f_equal. apply eq_true_iff_eq. rewrite He, bool_decide_eq_true.
      rewrite fmap_cons in Hsorted. apply StronglySorted_inv in Hsorted as [_ Hfirst].
      assert (Hlt : forall y, y ∈ rest -> (index first < index y)%nat).
      { intros y Hy. apply (proj1 (Forall_forall _ _) Hfirst). apply list_elem_of_fmap. by exists y. }
      split.
      * intros (x & Hx & Hlt'). apply elem_of_cons in Hxj as [->|Hxj]; [|apply list_elem_of_fmap; by exists xj].
        apply elem_of_cons in Hx as [->|Hx]; [lia|]. specialize (Hlt _ Hx). lia.
      * intros (y & -> & Hy)%list_elem_of_fmap. exists first. split; [by left|]. by apply Hlt.
Qed.
End reasons.

(** ** The whole set *)

Definition reference_result (q : Qualifier) (sessionID : UUID) (evaluatedAt : Time)
    (objects : list (option Object)) : SessionQualificationResult :=
  let evidence := expected_evidence q sessionID evaluatedAt (orderObjects objects) in
  let version := PolicyVersion (policy q) in
  if objects == [] then
    MkSessionResult sessionID QualificationUnavailable evaluatedAt version [MkReason ReasonEvidenceUnavailable ""] []
  else
    MkSessionResult sessionID
      (if forallb (fun r => Status r == QualificationQualified) evidence
       then QualificationQualified else QualificationRejected)
      evaluatedAt version [] evidence.

Lemma orderObjects_nil objects : orderObjects objects = [] <-> objects = [].
Proof.
  split; [|by intros ->]. intros H. unfold orderObjects in H.
  pose proof (stable_sort_perm objectLe objects) as Hp. rewrite H in Hp.
  by apply Permutation_nil_l in Hp.
Qed.

Lemma add_set_reasons sessionID l j o r :
  Forall genuine l -> l !! j = Some o ->
  add_reasons (group_reasons (group_at sessionID l o) j) (add_reasons (mismatch sessionID o) r) =
  add_reasons (set_reasons sessionID l j o) r.
Proof.
  intros Hl Hj. rewrite add_reasons_app. f_equal. destruct o as [o|]; [|done]. cbn [group_at mismatch].
  destruct (decide (SessionID (snapshot o) = sessionID)) as [Hs|Hs].
  - rewrite bool_decide_eq_true_2 by done. cbn [negb when app]. by rewrite set_reasons_group.
  - unfold set_reasons. by rewrite bool_decide_eq_false_2.
Qed.

Lemma QualifySet_reference range q sessionID objects evaluatedAt :
  is_range range -> Forall genuine objects -> sessionID <> NilUUID -> instant evaluatedAt <> 0 ->
  QualifySet range q sessionID objects evaluatedAt =
  Ok (reference_result q sessionID (UTC evaluatedAt) objects).
Proof.
  intros Hr Hg Hid Ht. unfold QualifySet, reference_result.
  rewrite bool_decide_eq_false_2 by done. apply Z.eqb_neq in Ht. unfold IsZero at 1. rewrite Ht.
  destruct (decide (objects = [])) as [->|Hne].
  { rewrite !bool_decide_eq_true_2; done. }
  rewrite (bool_decide_eq_false_2 (objects = [])) by done.
  rewrite bool_decide_eq_false_2 by (by rewrite orderObjects_nil).
  assert (Hl : Forall genuine (orderObjects objects)).
  { unfold orderObjects. by rewrite stable_sort_perm. }
  set (l := orderObjects objects) in *. clearbody l.
  destruct (qualifyLoop_spec q sessionID (UTC evaluatedAt) l Ht 0 [] ∅ eq_refl) as (groups & -> & Hgroups).
  cbn [obind app].
  assert (Hd : forall k, default_group groups k = group_of sessionID k 0 l) by (intros k; rewrite Hgroups; done).
  assert (Hev : finishResult <$> fold_left resolveGroup (range groups)
      ((fun o => add_reasons (mismatch sessionID o) (own_result q (UTC evaluatedAt) o)) <$> l) =
    expected_evidence q sessionID (UTC evaluatedAt) l).
  { apply list_eq. intros j. unfold expected_evidence. rewrite list_lookup_fmap, list_lookup_imap.
    rewrite resolveGroups_lookup, list_lookup_fmap.
    - destruct (l !! j) as [o|] eqn:Hj; [|done]. cbn.
      rewrite (groups_reasons sessionID l groups Hd (range groups) j o (Hr groups) Hj).
      by rewrite add_set_reasons.
    - rewrite (Hr groups). apply Forall_fmap, Forall_forall. intros [k g] Hk. cbn.
      rewrite (group_entry sessionID l groups Hd k g Hk). apply group_nodup. }
  by rewrite Hev.
Qed.

(** ** The order of a set *)

Lemma ltb_false s t : String.ltb s t = false <-> String.le t s.
Proof.
  unfold String.le, String.leb, String.ltb. rewrite (String.compare_antisym t s).
  destruct (s ?= t)%string; cbn; [|split; done|]; by split.
Qed.

Lemma snapshotLe_spec s t :
  snapshotLe s t <-> instant (ObservedAt s) < instant (ObservedAt t) \/
    instant (ObservedAt s) = instant (ObservedAt t) /\
    String.le (UuidString (EvidenceID s)) (UuidString (EvidenceID t)).
Proof.
  unfold snapshotLe, snapshotLess, TimeEqual, Before.
  destruct (instant (ObservedAt t) =? instant (ObservedAt s)) eqn:E.
  - rewrite ltb_false. split; [right; split; [lia|done]|]. intros [H|[_ H]]; [lia|done].
  - split; [left; lia|]. intros [H|[H _]]; lia.
Qed.

#[global] Instance snapshotLe_trans : Transitive snapshotLe.
Proof.
  intros s t u. rewrite !snapshotLe_spec. intros [H1|[E1 H1]] [H2|[E2 H2]]; [left; lia..|].
  right. split; [lia|]. by etrans.
Qed.

#[global] Instance snapshotLe_total : Total snapshotLe.
Proof.
  intros s t. rewrite !snapshotLe_spec.
  destruct (Z.lt_trichotomy (instant (ObservedAt s)) (instant (ObservedAt t))) as [H|[H|H]];
    [by left; left| |by right; left].
  destruct (total String.le (UuidString (EvidenceID s)) (UuidString (EvidenceID t)));
    [left|right]; right; by split.
Qed.

Lemma snapshotLe_antisym s t :
  is_uuid (EvidenceID s) -> is_uuid (EvidenceID t) -> snapshotLe s t -> snapshotLe t s ->
  EvidenceID s = EvidenceID t.
Proof.
  rewrite !snapshotLe_spec. intros Hs Ht H1 H2.
  assert (UuidString (EvidenceID s) = UuidString (EvidenceID t)) as E.
  { destruct H1 as [|[E1 H1]], H2 as [|[E2 H2]]; try lia. by apply (anti_symm String.le). }
  apply (f_equal Parse) in E. rewrite !Parse_UuidString in E by done. by injection E.
Qed.

Lemma objectLe_spec a b :
  objectLe a b <->
  match a, b with
  | _, None => True
  | None, Some _ => False
  | Some a, Some b => snapshotLe (snapshot a) (snapshot b)
  end.
Proof.
  unfold objectLe, objectLess, snapshotLe, snapshotLess.
  destruct a as [a|], b as [b|]; [by rewrite !ObjectSnapshot_eq|done..].
Qed.

#[global] Instance objectLe_trans : Transitive objectLe.
Proof. intros [a|] [b|] [c|]; rewrite !objectLe_spec; try done. by etrans. Qed.

#[global] Instance objectLe_total : Total objectLe.
Proof. intros [a|] [b|]; rewrite !objectLe_spec; auto. apply (total snapshotLe). Qed.

Definition object_id (o : option Object) : option UUID := (fun o => EvidenceID (snapshot o)) <$> o.

Lemma omap_unique {A K} (f : A -> option K) (l : list A) x y k :
  NoDup (omap f l) -> x ∈ l -> y ∈ l -> f x = Some k -> f y = Some k -> x = y.
Proof.
  induction l as [|z l IH]; intros Hn Hx Hy Ex Ey; [by apply not_elem_of_nil in Hx|].
  assert (Hin : forall w, w ∈ l -> f w = Some k -> k ∈ omap f l).
  { intros w Hw Ew. apply list_elem_of_omap. eauto. }
  cbn in Hn. apply elem_of_cons in Hx as [->|Hx], Hy as [->|Hy]; try done.
  - rewrite Ex in Hn. apply NoDup_cons in Hn as [Hn _]. by destruct Hn; eapply Hin.
  - rewrite Ey in Hn. apply NoDup_cons in Hn as [Hn _]. by destruct Hn; eapply Hin.
  - apply IH; try done. by destruct (f z); [apply NoDup_cons in Hn as [_ Hn]|].
Qed.

Lemma orderObjects_permutation objects objects' :
  objects ≡ₚ objects' -> NoDup (omap object_id objects) ->
  Forall (fun o => match o with Some o => is_uuid (EvidenceID (snapshot o)) | None => True end) objects ->
  orderObjects objects = orderObjects objects'.
Proof.
  intros Hp Hn Hu. unfold orderObjects. apply (Sorted_unique_strong objectLe).
  - intros a b. rewrite !stable_sort_perm, <- Hp. intros Ha Hb H1 H2.
    rewrite objectLe_spec in H1, H2. destruct a as [a|], b as [b|]; try done.
    pose proof (proj1 (Forall_forall _ _) Hu _ Ha) as Hua. pose proof (proj1 (Forall_forall _ _) Hu _ Hb) as Hub.
    apply (omap_unique object_id objects _ _ (EvidenceID (snapshot a))); try done.
    cbn. by rewrite (snapshotLe_antisym _ _ Hua Hub H1 H2).
  - apply StronglySorted_Sorted, stable_sort_stably; apply _.
  - apply StronglySorted_Sorted, stable_sort_stably; apply _.
  - by rewrite !stable_sort_perm.
Qed.

(** The order of observation: by time, then by the text of the identity; what is
    missing comes last. *)
Definition observed_before (a b : option Object) : Prop :=
  match a, b with
  | _, None => True
  | None, Some _ => False
  | Some a, Some b =>
      let s := snapshot a in
      let t := snapshot b in
      instant (ObservedAt s) < instant (ObservedAt t) \/
      instant (ObservedAt s) = instant (ObservedAt t) /\
      String.le (UuidString (EvidenceID s)) (UuidString (EvidenceID t))
  end.

#[global] Instance observed_before_dec : RelDecision observed_before.
Proof. intros [a|] [b|]; cbn; apply _. Defined.

Lemma objectLe_observed a b : objectLe a b <-> observed_before a b.
Proof. rewrite objectLe_spec. destruct a as [a|], b as [b|]; [apply snapshotLe_spec|done..]. Qed.

Lemma orderObjects_stable objects : stably_sorted observed_before objects (orderObjects objects).
Proof. eapply stably_sorted_ext; [apply objectLe_observed|]. apply stable_sort_stably; apply _. Qed.

(** The result of an object with the reasons that the set adds: what was qualified
    is rejected for them. *)
Definition set_result (own : QualificationResult) (added : list QualificationReason) : QualificationResult :=
  MkResult (ResultEvidenceID own)
    (if (Status own == QualificationQualified) && (added != []) then QualificationRejected else Status own)
    (EvaluatedAt own) (ResultPolicyVersion own) (Reasons own ++ added).

Lemma own_result_qualified q evaluatedAt o :
  Status (own_result q evaluatedAt o) = QualificationQualified -> Reasons (own_result q evaluatedAt o) = [].
Proof.
  unfold own_result, Qualify. destruct (IsZero _); [done|]. destruct o as [o|]; [|done]. cbv zeta.
  destruct (VerifySnapshot _); [done|]. cbn [Status Reasons]. by case_bool_decide.
Qed.

Lemma finish_set_result q evaluatedAt o added :
  finishResult (add_reasons added (own_result q evaluatedAt o)) = set_result (own_result q evaluatedAt o) added.
Proof.
  pose proof (own_result_qualified q evaluatedAt o) as H. destruct (own_result q evaluatedAt o) as [id st at_ v l].
  unfold finishResult, set_result, add_reasons. cbn in *. destruct (decide (st = QualificationQualified)) as [->|Hne].
  - rewrite H by done. by destruct added.
  - rewrite !(bool_decide_eq_false_2 (st = _)) by done. by rewrite andb_false_r.
Qed.

(** What an object's own result says: an object qualifies exactly when it is intact and
    meets the policy, and is rejected for its reasons otherwise; a missing one is
    unavailable. *)
Definition own_verdict (q : Qualifier) (evaluatedAt : Time) (o : option Object) (r : QualificationResult) : Prop :=
  match o with
  | None => r = MkResult NilUUID QualificationUnavailable evaluatedAt (PolicyVersion (policy q))
                  [MkReason ReasonEvidenceUnavailable ""]
  | Some o =>
      (Status r = QualificationQualified <-> verified (snapshot o) /\ meets (policy q) evaluatedAt (snapshot o)) /\
      (Status r = QualificationQualified <-> Reasons r = []) /\ Status r <> QualificationUnavailable /\
      ResultEvidenceID r = EvidenceID (snapshot o) /\ EvaluatedAt r = evaluatedAt /\
      ResultPolicyVersion r = PolicyVersion (policy q)
  end.

Lemma own_result_verdict q evaluatedAt o :
  instant evaluatedAt <> 0 -> own_verdict q (UTC evaluatedAt) o (own_result q (UTC evaluatedAt) o).
Proof.
  intros Ht. assert (IsZero (UTC evaluatedAt) = false) as Hz by by apply Z.eqb_neq.
  destruct o as [o|]; cbn [own_verdict].
  - assert (Qualify q (Some o) (UTC evaluatedAt) = Ok (own_result q (UTC evaluatedAt) (Some o))) as E.
    { unfold own_result, Qualify. rewrite Hz. cbv zeta. by destruct (VerifySnapshot _). }
    by apply qualify_spec in E.
  - unfold own_result, Qualify. by rewrite Hz.
Qed.

(** C30: for a session and an evaluation time, QualifySet always yields one result,
    whatever the order in which Go visits its map of groups. It lists the objects
    stably sorted by the time and then the ID of their observation, nil objects
    last, each with its own verdict (qualified exactly when it is intact and meets
    the policy, else rejected for its reasons) and, for an object of the session, a
    conflict exactly when another object reports the same source, type and instant
    with a different digest, or a duplicate exactly when an earlier one repeats it;
    an object that was qualified is rejected for these. The session is qualified
    exactly when every object is, and unavailable without any. *)
Theorem qualify_set_spec range q sessionID objects evaluatedAt :
  is_range range -> Forall genuine objects -> sessionID <> NilUUID -> instant evaluatedAt <> 0 ->
  (forall o, own_verdict q (UTC evaluatedAt) o (own_result q (UTC evaluatedAt) o)) /\
  exists l status reasons, stably_sorted observed_before objects l /\
    let evidence := imap (fun i o => set_result (own_result q (UTC evaluatedAt) o) (set_reasons sessionID l i o)) l in
    QualifySet range q sessionID objects evaluatedAt =
      Ok (MkSessionResult sessionID status (UTC evaluatedAt) (PolicyVersion (policy q)) reasons evidence) /\
    (objects = [] -> status = QualificationUnavailable /\ reasons = [MkReason ReasonEvidenceUnavailable ""]) /\
    (objects <> [] -> reasons = [] /\ (status = QualificationQualified \/ status = QualificationRejected) /\
       (status = QualificationQualified <-> Forall (fun r => Status r = QualificationQualified) evidence)).
Proof.
  intros Hr Hg Hid Ht. split; [intros o; by apply own_result_verdict|].
  rewrite (QualifySet_reference range) by done. unfold reference_result. exists (orderObjects objects).
  assert (expected_evidence q sessionID (UTC evaluatedAt) (orderObjects objects) =
    imap (fun i o => set_result (own_result q (UTC evaluatedAt) o) (set_reasons sessionID (orderObjects objects) i o))
      (orderObjects objects)) as <-.
  { apply imap_ext. intros i o _. apply finish_set_result. }
  destruct (decide (objects = [])) as [->|Hne].
  - eexists _, _. split; [apply orderObjects_stable|]. rewrite bool_decide_eq_true_2 by done. by split_and!.
  - eexists _, _. split; [apply orderObjects_stable|]. rewrite bool_decide_eq_false_2 by done.
    split_and!; [done|done|]. intros _. split; [done|].
    split; [destruct (forallb _ _); auto|]. rewrite Forall_forall. destruct (forallb _ _) eqn:E.
    + split; [|done]. intros _ r Hr'. apply forallb_forall with (x := r) in E; [|by apply list_elem_of_In].
      by apply bool_decide_eq_true in E.
    + split; [done|]. intros Hall. apply not_true_iff_false in E. destruct E. apply forallb_forall. intros r Hr'.
      apply bool_decide_eq_true, Hall. by apply list_elem_of_In.
Qed.

(** The result of a set of objects with different IDs depends neither on the
    order of the objects nor on that of Go's map. *)
Theorem qualify_set_deterministic range range' q sessionID objects objects' evaluatedAt :
  is_range range -> is_range range' -> objects ≡ₚ objects' ->
  Forall genuine objects -> NoDup (omap object_id objects) ->
  Forall (fun o => match o with Some o => is_uuid (EvidenceID (snapshot o)) | None => True end) objects ->
  QualifySet range q sessionID objects evaluatedAt = QualifySet range' q sessionID objects' evaluatedAt.
Proof.
  intros Hr Hr' Hp Hg Hn Hu. assert (Hg' : Forall genuine objects') by by rewrite <- Hp.
  destruct (decide (sessionID = NilUUID)) as [->|Hid]; [done|].
  destruct (decide (instant evaluatedAt = 0)) as [Hz|Hz].
  { unfold QualifySet, IsZero. by rewrite Hz, bool_decide_eq_false_2. }
  rewrite (QualifySet_reference range), (QualifySet_reference range') by done. unfold reference_result.
  rewrite (orderObjects_permutation objects objects') by done.
  f_equal. replace (objects == []) with (objects' == []); [done|]. apply bool_decide_ext.
  split; intros ->; [by apply Permutation_nil_r in Hp|by apply Permutation_nil_l in Hp].
Qed.
