(* ===== verification/EvidenceStore.v ===== *)
(** * Properties of the evidence repository and its service

    The repository is write-once: it only grows, by verified snapshots under
    their own IDs. An ingestion stores what the service controls, a retry
    returns what the first attempt stored, and a session is qualified on
    exactly its evidence. At the end two cameras report on one pallet, and the
    theorems about evidence are applied to them. *)

From Stdlib Require Import Ascii String.
From S2P Require Import Prelude GoTime GoString Uuid GoCrypto GoJson GoFloat Evidence EvidenceObjects EvidenceSets.
Import evidence.

(** ** The store *)

Definition store_ok (m : MemoryRepository) : Prop :=
  forall id s, m !! id = Some s -> EvidenceID s = id /\ verified s.

Lemma NewMemoryRepository_ok : store_ok NewMemoryRepository.
Proof. intros id s H. unfold NewMemoryRepository in H. by rewrite lookup_empty in H. Qed.

Lemma verified_id s : verified s -> EvidenceID s <> NilUUID.
Proof.
  intros [Hv _ _ _] He. unfold validateSnapshot in Hv. by rewrite bool_decide_eq_true_2 in Hv.
Qed.

Lemma verified_session s : verified s -> SessionID s <> NilUUID.
Proof.
  intros [Hv _ _ _] He. unfold validateSnapshot in Hv. case_match; [done|].
  by rewrite bool_decide_eq_true_2 in Hv.
Qed.

Section store.
Context (zone_offset : positive -> Z -> Z).

#[local] Instance repository : Repository MemoryRepository := MemoryRepository_repository zone_offset.

Abbreviation SaveEvidence' := (memory_SaveEvidence zone_offset).
Abbreviation SameSubmission' := (SameSubmission zone_offset).

(** What a save does, on every branch. *)
Lemma SaveEvidence_cases s m m' res :
  SaveEvidence' s m = (m', res) ->
  (exists err, VerifySnapshot s = Some err /\ m' = m /\ res = Err err) \/
  verified s /\
    ((m !! EvidenceID s = None /\ m' = <[EvidenceID s := s]> m /\ res = Ok tt) \/
     exists existing, m !! EvidenceID s = Some existing /\ m' = m /\
       res = if SameSubmission' existing s then Ok tt else Err ErrConflict).
Proof.
  unfold memory_SaveEvidence, Rehydrate.
  destruct (VerifySnapshot s) as [err|] eqn:Hv; [intros [= <- <-]; left; eauto|].
  rewrite ObjectSnapshot_eq. cbn [snapshot]. rewrite copySnapshot_id.
  apply VerifySnapshot_verified in Hv. intros H. right. split; [exact Hv|].
  destruct (m !! EvidenceID s) as [existing|] eqn:He; [right|left].
  - exists existing. destruct (SameSubmission' existing s); by injection H as <- <-.
  - by injection H as <- <-.
Qed.

Lemma SaveEvidence_grows s m : store_ok m ->
  store_ok (fst (SaveEvidence' s m)) /\ m ⊆ fst (SaveEvidence' s m).
Proof.
  intros Hm. destruct (SaveEvidence' s m) as [m' res] eqn:E. cbn [fst].
  apply SaveEvidence_cases in E as [(err & _ & -> & _)|[Hv [(Hn & -> & _)|(existing & _ & -> & _)]]]; [done| |done].
  split; [|by apply insert_subseteq].
  intros id t H. destruct (decide (id = EvidenceID s)) as [->|Hne].
  - rewrite lookup_insert_eq in H. by injection H as <-.
  - rewrite lookup_insert_ne in H by done. by apply Hm.
Qed.

Lemma FindEvidence_stored m id s :
  store_ok m -> m !! id = Some s -> memory_FindEvidence id m = Ok (Some (MkObject s)).
Proof.
  intros Hm H. destruct (Hm _ _ H) as [<- Hv]. unfold memory_FindEvidence.
  rewrite bool_decide_eq_false_2 by by apply verified_id. rewrite H.
  by rewrite (proj2 (rehydrated s (MkObject s))).
Qed.

(** What the service builds from an input. *)
Definition stamped (svc : Service) (now : Time) (random : bytes) (input : Input) : Input :=
  input <| InputEvidenceID := if InputEvidenceID input == NilUUID then NewUUID random else InputEvidenceID input |>
        <| InputReceivedAt := UTC now |> <| InputSchemaVersion := schemaVersion svc |>
        <| InputRuntimeVersion := runtimeVersion svc |>.

Lemma Ingest_cases svc now random input m m' res :
  store_ok m -> Ingest svc now random input m = (m', res) ->
  (exists err, NewObject (stamped svc now random input) = Err err /\ m' = m /\ res = Err err) \/
  exists o, NewObject (stamped svc now random input) = Ok o /\
    ((m !! EvidenceID (snapshot o) = None /\ m' = <[EvidenceID (snapshot o) := snapshot o]> m /\
      res = Ok (snapshot o)) \/
     exists existing, m !! EvidenceID (snapshot o) = Some existing /\ m' = m /\
       res = if SameSubmission' existing (snapshot o) then Ok existing else Err ErrConflict).
Proof.
  intros Hm. unfold Ingest. fold (stamped svc now random input).
  destruct (NewObject (stamped svc now random input)) as [o|err] eqn:Eo; [|intros [= <- <-]; left; eauto].
  intros H. right. exists o. split; [done|]. rewrite ObjectSnapshot_eq in H. cbn in H.
  destruct (NewObject_ok _ _ Eo) as (Hv & _).
  destruct (SaveEvidence' (snapshot o) m) as [m1 r1] eqn:Es.
  apply SaveEvidence_cases in Es as [(err & Hv' & _)|[_ [(Hn & -> & ->)|(existing & He & -> & ->)]]].
  - by rewrite (proj2 (VerifySnapshot_verified _) Hv) in Hv'.
  - left. rewrite (FindEvidence_stored _ _ (snapshot o)) in H; [| |by rewrite lookup_insert_eq].
    + rewrite ObjectSnapshot_eq in H. by injection H as <- <-.
    + pose proof (SaveEvidence_grows (snapshot o) m Hm) as [Hok _]. unfold memory_SaveEvidence in Hok.
      rewrite (proj2 (rehydrated _ o)) in Hok by done. rewrite ObjectSnapshot_eq, Hn in Hok. exact Hok.
  - right. exists existing. split; [done|]. destruct (SameSubmission' existing (snapshot o)).
    + rewrite (FindEvidence_stored _ _ existing) in H by done. rewrite ObjectSnapshot_eq in H.
      by injection H as <- <-.
    + by injection H as <- <-.
Qed.

Lemma Ingest_grows svc now random input m :
  store_ok m -> store_ok (fst (Ingest svc now random input m)) /\ m ⊆ fst (Ingest svc now random input m).
Proof.
  intros Hm. destruct (Ingest svc now random input m) as [m' res] eqn:E. cbn [fst].
  destruct (Ingest_cases _ _ _ _ _ _ _ Hm E) as [(err & _ & -> & _)|(o & Eo & [(Hn & -> & _)|(s & _ & -> & _)])];
    [done| |done].
  split; [|by apply insert_subseteq]. destruct (NewObject_ok _ _ Eo) as (Hv & _).
  pose proof (SaveEvidence_grows (snapshot o) m Hm) as [Hok _]. unfold memory_SaveEvidence in Hok.
  rewrite (proj2 (rehydrated _ o)) in Hok by done. rewrite ObjectSnapshot_eq, Hn in Hok. exact Hok.
Qed.

(** A client of the repository: one ingestion of some service. *)
Record Submission := MkSubmission {
  by_service : Service;
  at_time : Time;
  random_bytes : bytes;
  submitted : Input
}.

Definition submit (m : MemoryRepository) (c : Submission) : MemoryRepository :=
  fst (Ingest (by_service c) (at_time c) (random_bytes c) (submitted c) m).

Definition submissions (cs : list Submission) (m : MemoryRepository) : MemoryRepository :=
  fold_left submit cs m.

Lemma submissions_grow cs : forall m, store_ok m -> store_ok (submissions cs m) /\ m ⊆ submissions cs m.
Proof.
  induction cs as [|c cs IH]; intros m Hm; [done|]. cbn.
  destruct (Ingest_grows (by_service c) (at_time c) (random_bytes c) (submitted c) m Hm) as [H1 H2].
  destruct (IH _ H1) as [H3 H4]. split; [exact H3|]. by etrans.
Qed.

(** Evidence is written once: whatever is submitted later, by whatever
    services, an object that was found is found again, unchanged, and every object
    that is found verifies and carries the ID asked for. *)
Theorem evidence_is_immutable cs cs' id o :
  let m := submissions cs NewMemoryRepository in
  memory_FindEvidence id m = Ok (Some o) ->
  memory_FindEvidence id (submissions cs' m) = Ok (Some o) /\ VerifyIntegrity (Some o) = None /\
  EvidenceID (snapshot o) = id.
Proof.
  cbv zeta. destruct (submissions_grow cs _ NewMemoryRepository_ok) as [Hm _].
  set (m := submissions cs NewMemoryRepository) in *. clearbody m.
  unfold memory_FindEvidence at 1. destruct (id == NilUUID); [done|].
  destruct (m !! id) as [s|] eqn:Hs; [|done]. intros (o' & [Hv Ho]%rehydrated & [= ->])%obind_ok.
  destruct (submissions_grow cs' m Hm) as [Hm' Hsub].
  rewrite (FindEvidence_stored _ _ s Hm') by by eapply lookup_weaken.
  destruct o as [t]. cbn in Ho. subst t. split_and!; [done| |].
  - by apply VerifySnapshot_verified.
  - by destruct (Hm _ _ Hs).
Qed.

(** An ingestion that succeeds on a reachable repository returns what is stored
    under its ID: its own object, stamped with the service's versions and the
    reading of the clock, when the ID was free; otherwise the object of an
    earlier submission with the same content, and nothing is stored. *)
Theorem ingest_spec cs svc now random input m' s :
  let m := submissions cs NewMemoryRepository in
  Ingest svc now random input m = (m', Ok s) ->
  Find (EvidenceID s) m' = Ok s /\
  exists o, NewObject (stamped svc now random input) = Ok o /\ EvidenceID (snapshot o) = EvidenceID s /\
    ((m !! EvidenceID s = None /\ m' = <[EvidenceID s := s]> m /\ s = snapshot o /\
      ReceivedAt s = UTC now /\ SchemaVersion (Integrity s) = TrimSpace (schemaVersion svc) /\
      RuntimeVersion (Integrity s) = TrimSpace (runtimeVersion svc)) \/
     (m !! EvidenceID s = Some s /\ m' = m /\ SameSubmission' s (snapshot o) = true)).
Proof.
  cbv zeta. destruct (submissions_grow cs _ NewMemoryRepository_ok) as [Hm _].
  set (m := submissions cs NewMemoryRepository) in *. clearbody m. intros H.
  pose proof (Ingest_grows svc now random input m Hm) as [Hok _]. rewrite H in Hok. cbn [fst] in Hok.
  assert (Hfind : m' !! EvidenceID s = Some s -> Find (EvidenceID s) m' = Ok s).
  { intros Hl. unfold Find. cbn. by rewrite (FindEvidence_stored _ _ _ Hok Hl), ObjectSnapshot_eq. }
  destruct (Ingest_cases _ _ _ _ _ _ _ Hm H) as [(err & _ & _ & [=])|(o & Eo & [(Hn & E & [= ->])|(t & Ht & -> & Hr)])].
  - split; [apply Hfind; by rewrite E, lookup_insert_eq|]. exists o. split_and!; [done..|]. left.
    destruct (NewObject_ok _ _ Eo) as (_ & _ & Hs). rewrite Hs. split_and!; try done; by rewrite <- Hs.
  - destruct (SameSubmission' t (snapshot o)) eqn:Es; [|done]. injection Hr as ->.
    destruct (Hm _ _ Ht) as [Hid _]. rewrite <- Hid in Ht. split; [by apply Hfind|].
    exists o. split_and!; [done..|]. by right.
Qed.

(** The content of a snapshot encodes as JSON. *)
Definition encodable (s : Snapshot) : Prop :=
  MarshalSnapshot zone_offset (s <| ReceivedAt := ZeroTime |>) <> None.

Lemma SameSubmission_refl s t :
  encodable s -> s <| ReceivedAt := ZeroTime |> = t <| ReceivedAt := ZeroTime |> -> SameSubmission' s t = true.
Proof.
  intros Hs Ht. unfold SameSubmission, snapshotsEqual. rewrite <- Ht. unfold encodable in Hs.
  destruct (MarshalSnapshot zone_offset _); [|done]. by apply bool_decide_eq_true_2.
Qed.

Lemma SameSubmission_received s t t' :
  t <| ReceivedAt := ZeroTime |> = t' <| ReceivedAt := ZeroTime |> -> SameSubmission' s t = SameSubmission' s t'.
Proof. intros Ht. unfold SameSubmission. by rewrite Ht. Qed.

Lemma validateSnapshot_received s r :
  validateSnapshot s = None -> IsZero r = false -> Before r (ObservedAt s) = false ->
  validateSnapshot (s <| ReceivedAt := r |>) = None.
Proof.
  destruct s. intros H Hz Hb. unfold validateSnapshot in *. cbn in *. rewrite Hz, Hb.
  repeat (case_match; [done|]). done.
Qed.

(** The object of a retry only differs in its time of receipt. *)
Lemma NewObject_retry svc now now' random random' input o :
  InputEvidenceID input <> NilUUID ->
  NewObject (stamped svc now random input) = Ok o ->
  instant now' <> 0 -> instant (InputObservedAt input) <= instant now' ->
  exists o', NewObject (stamped svc now' random' input) = Ok o' /\
    (snapshot o) <| ReceivedAt := ZeroTime |> = (snapshot o') <| ReceivedAt := ZeroTime |>.
Proof.
  intros Hid Eo Hnow Hle. destruct (NewObject_ok _ _ Eo) as ([Hv _ _ _] & Hc & Hs).
  assert (Hr := validateSnapshot_received _ (UTC (UTC now')) Hv (proj2 (Z.eqb_neq (instant now') 0) Hnow)).
  rewrite Hs in Hr at 1. specialize (Hr (proj2 (Z.ltb_ge _ _) Hle)).
  set (s' := (snapshot o) <| ReceivedAt := UTC (UTC now') |>) in *.
  exists (MkObject s'). split; [|reflexivity]. unfold NewObject.
  change (InputPayload (stamped svc now' random' input)) with (InputPayload (stamped svc now random input)).
  rewrite Hc. cbn [obind].
  set (built := MkSnapshot _ _ _ _ _ _ _ _ _ _ _).
  assert (built = s') as ->; [|by rewrite Hr].
  subst built s'. rewrite Hs. unfold stamped. cbn. by rewrite !bool_decide_eq_false_2.
Qed.

(** A client that repeats a submission under its own ID, at any later time and
    whatever was submitted in between, gets the object that was stored first, and
    nothing changes, provided its content encodes as JSON. *)
Theorem ingest_retry cs cs' svc now now' random random' input m1 s :
  InputEvidenceID input <> NilUUID -> instant now' <> 0 -> instant (InputObservedAt input) <= instant now' ->
  Ingest svc now random input (submissions cs NewMemoryRepository) = (m1, Ok s) -> encodable s ->
  let m2 := submissions cs' m1 in
  Ingest svc now' random' input m2 = (m2, Ok s).
Proof.
  intros Hid Hnow Hle H Henc. cbv zeta.
  destruct (submissions_grow cs _ NewMemoryRepository_ok) as [Hm _].
  set (m := submissions cs NewMemoryRepository) in *. clearbody m.
  pose proof (Ingest_grows svc now random input m Hm) as [Hok _]. rewrite H in Hok. cbn [fst] in Hok.
  destruct (submissions_grow cs' m1 Hok) as [Hok2 Hsub]. set (m2 := submissions cs' m1) in *. clearbody m2.
  destruct (Ingest_cases _ _ _ _ _ _ _ Hm H) as [(err & _ & _ & [=])|(o & Eo & Hcases)].
  destruct (NewObject_retry _ _ _ _ random' _ _ Hid Eo Hnow Hle) as (o' & Eo' & Hsame).
  assert (Hido : EvidenceID (snapshot o') = EvidenceID (snapshot o)) by exact (eq_sym (f_equal EvidenceID Hsame)).
  assert (Hst : m1 !! EvidenceID (snapshot o) = Some s /\ SameSubmission' s (snapshot o') = true).
  { destruct Hcases as [(Hn & -> & [= ->])|(t & Ht & -> & Hr)].
    - split; [by rewrite lookup_insert_eq|]. by apply SameSubmission_refl.
    - destruct (SameSubmission' t (snapshot o)) eqn:Es; [|done]. injection Hr as ->.
      split; [done|]. by rewrite <- (SameSubmission_received _ _ _ Hsame). }
  destruct Hst as [Hst Hss]. destruct (Ingest svc now' random' input m2) as [m3 res] eqn:E.
  destruct (Ingest_cases _ _ _ _ _ _ _ Hok2 E) as [(err & Hbad & _)|(o2 & Eo2 & Hc2)].
  { by rewrite Eo' in Hbad. }
  rewrite Eo' in Eo2. injection Eo2 as <-. rewrite Hido in Hc2.
  rewrite (lookup_weaken _ _ _ _ Hst Hsub) in Hc2.
  destruct Hc2 as [([=] & _)|(t & [= <-] & -> & ->)]. by rewrite Hss.
Qed.

(** A refused ingestion stores nothing: the input makes no object, or another
    object is stored under its ID. *)
Theorem refused_ingestion cs svc now random input m' err :
  let m := submissions cs NewMemoryRepository in
  Ingest svc now random input m = (m', Err err) ->
  m' = m /\
  (NewObject (stamped svc now random input) = Err err \/
   err = ErrConflict /\ exists o t, NewObject (stamped svc now random input) = Ok o /\
     m !! EvidenceID (snapshot o) = Some t /\ SameSubmission' t (snapshot o) = false).
Proof.
  cbv zeta. destruct (submissions_grow cs _ NewMemoryRepository_ok) as [Hm _]. intros H.
  destruct (Ingest_cases _ _ _ _ _ _ _ Hm H) as [(e & He & -> & [= ->])|(o & Eo & [(_ & _ & [=])|(t & Ht & -> & Hr)])].
  - split; [done|by left].
  - split; [done|right]. destruct (SameSubmission' t (snapshot o)) eqn:Es; [done|]. injection Hr as ->.
    split; [done|]. by exists o, t.
Qed.

(** ** Sessions *)

Lemma rehydrateAll_ok l : Forall verified l -> rehydrateAll l = Ok ((fun s => Some (MkObject s)) <$> l).
Proof.
  induction 1 as [|s l Hs _ IH]; [done|]. cbn. rewrite (proj2 (rehydrated s (MkObject s))) by done.
  cbn. by rewrite IH.
Qed.

Definition session_snapshots (sessionID : UUID) (m : MemoryRepository) : list Snapshot :=
  merge_sort snapshotLe (List.filter (fun s => SessionID s == sessionID) (snd <$> map_to_list m)).

Lemma in_session sessionID m s :
  store_ok m -> s ∈ session_snapshots sessionID m <-> m !! EvidenceID s = Some s /\ SessionID s = sessionID.
Proof.
  intros Hm. unfold session_snapshots. rewrite merge_sort_Permutation.
  rewrite list_elem_of_In, filter_In, <- list_elem_of_In, bool_decide_eq_true, list_elem_of_fmap.
  split.
  - intros [([id t] & -> & H%elem_of_map_to_list) Hs]. cbn in *. destruct (Hm _ _ H) as [<- _]. done.
  - intros [H Hs]. split; [|done]. exists (EvidenceID s, s). split; [done|]. by apply elem_of_map_to_list.
Qed.

Lemma NoDup_fmap_filter {A B} (f : A -> B) (p : A -> bool) l :
  NoDup (f <$> l) -> NoDup (f <$> List.filter p l).
Proof.
  induction l as [|x l IH]; [done|]. cbn [List.filter]. rewrite fmap_cons, NoDup_cons. intros [Hx Hn].
  destruct (p x); [|by apply IH]. rewrite fmap_cons, NoDup_cons. split; [|by apply IH].
  intros (y & E & [Hy _]%list_elem_of_In%filter_In)%list_elem_of_fmap. apply Hx, list_elem_of_fmap.
  exists y. split; [done|]. by apply list_elem_of_In.
Qed.

Lemma session_snapshots_ids sessionID m :
  store_ok m -> NoDup (EvidenceID <$> session_snapshots sessionID m).
Proof.
  intros Hm. unfold session_snapshots. rewrite merge_sort_Permutation. apply NoDup_fmap_filter.
  assert (Hids : EvidenceID <$> (snd <$> map_to_list m) = fst <$> map_to_list m).
  { rewrite <- list_fmap_compose. apply list_fmap_ext. intros i [id s] Hi. cbn.
    apply (list_elem_of_lookup_2 _ i), elem_of_map_to_list in Hi. by destruct (Hm _ _ Hi). }
  rewrite Hids. apply NoDup_fst_map_to_list.
Qed.

Lemma ListEvidence_session sessionID m :
  store_ok m -> sessionID <> NilUUID ->
  memory_ListEvidenceBySession sessionID m = Ok ((fun s => Some (MkObject s)) <$> session_snapshots sessionID m).
Proof.
  intros Hm Hid. unfold memory_ListEvidenceBySession. rewrite bool_decide_eq_false_2 by done. cbv zeta.
  rewrite (list_fmap_ext copySnapshot id) by (intros; apply copySnapshot_id). rewrite list_fmap_id.
  apply rehydrateAll_ok, Forall_forall. intros s Hs.
  apply (in_session sessionID m s Hm) in Hs as [Hs _]. by destruct (Hm _ _ Hs).
Qed.

Lemma objectSnapshots_ok l : objectSnapshots ((fun s => Some (MkObject s)) <$> l) = Ok l.
Proof.
  induction l as [|s l IH]; [done|]. rewrite fmap_cons. cbn [objectSnapshots]. rewrite IH. cbn [obind].
  by rewrite ObjectSnapshot_eq.
Qed.

(** The evidence of a session is exactly what was stored for it, in the order
    of observation and each object once; qualifying the session always succeeds and
    is qualifying that set. *)
Theorem session_qualification cs range sessionID q now :
  let m := submissions cs NewMemoryRepository in
  is_range range -> sessionID <> NilUUID -> instant now <> 0 ->
  exists l,
    ListBySession sessionID m = Ok l /\
    (forall s, s ∈ l <-> Find (EvidenceID s) m = Ok s /\ SessionID s = sessionID) /\
    StronglySorted snapshotLe l /\ NoDup (EvidenceID <$> l) /\
    QualifySession range sessionID (Some q) now m =
      Ok (reference_result q sessionID (UTC now) ((fun s => Some (MkObject s)) <$> l)).
Proof.
  cbv zeta. intros Hr Hid Hnow. destruct (submissions_grow cs _ NewMemoryRepository_ok) as [Hm _].
  set (m := submissions cs NewMemoryRepository) in *. clearbody m.
  exists (session_snapshots sessionID m). split_and!.
  - unfold ListBySession. rewrite bool_decide_eq_false_2 by done. cbn.
    rewrite ListEvidence_session by done. cbn [obind].
    apply objectSnapshots_ok.
  - intros s. rewrite in_session by done. unfold Find. cbn. split; intros [H Hs]; (split; [|exact Hs]).
    + by rewrite (FindEvidence_stored _ _ _ Hm H), ObjectSnapshot_eq.
    + unfold memory_FindEvidence in H. destruct (EvidenceID s == NilUUID); [done|].
      destruct (m !! EvidenceID s) as [t|] eqn:Et; [|done]. destruct (Hm _ _ Et) as [_ Hv].
      rewrite (proj2 (rehydrated t (MkObject t))) in H by done. cbn in H.
      rewrite ObjectSnapshot_eq in H. cbn in H. by injection H as ->.
  - apply StronglySorted_merge_sort; apply _.
  - by apply session_snapshots_ids.
  - unfold QualifySession. rewrite bool_decide_eq_false_2 by done. cbn.
    rewrite ListEvidence_session by done. cbn [obind].
    rewrite (QualifySet_reference range) by (done || (apply Forall_fmap, Forall_forall; intros s Hs;
      apply (in_session sessionID m s Hm) in Hs as [Hs _]; cbn; by destruct (Hm _ _ Hs))). done.
Qed.
End store.

(** ** Inputs *)

Definition uuid_of (n : N) : UUID := replicate 15 zero ++ [ascii_of_N n].

Definition ex_input (n : N) (payload : string) (observed : Z) : Input :=
  MkInput (uuid_of n) (uuid_of 200) " CAM-1 " "CAMERA" "POSITION" (utc_seconds observed) ZeroTime
    (json.text payload) (Some (f_ratio 1 2)) {["site" := "dock"]} "" "" "VISION".

Definition ex_service : Service := MkService "1.0" "2.0".

Definition ex_submission (n : N) (payload : string) (observed : Z) : Submission :=
  MkSubmission ex_service (utc_seconds 1000) [] (ex_input n payload observed).

(** The first report, a conflicting one, a later one. *)
Definition ex_submissions : list Submission :=
  [ex_submission 1 "{ 'z' : 3, 'x':1.50 }" 900; ex_submission 2 "{'x':2.5,'z':3}" 900;
   ex_submission 3 "{'x':1.50,'z':3}" 950].

Definition ex_zone (zone : positive) (at_ : Z) : Z := 3600.

Definition ex_store := Eval vm_compute in submissions ex_zone ex_submissions NewMemoryRepository.

Definition ex_snapshot (n : N) : Snapshot := default zeroSnapshot (ex_store !! uuid_of n).

Definition ex_s1 := Eval vm_compute in ex_snapshot 1.
Definition ex_s2 := Eval vm_compute in ex_snapshot 2.
Definition ex_s3 := Eval vm_compute in ex_snapshot 3.

Lemma ex_verified_1 : verified ex_s1.
Proof. apply VerifySnapshot_verified. vm_compute. reflexivity. Qed.

Lemma ex_verified_2 : verified ex_s2.
Proof. apply VerifySnapshot_verified. vm_compute. reflexivity. Qed.

Lemma ex_verified_3 : verified ex_s3.
Proof. apply VerifySnapshot_verified. vm_compute. reflexivity. Qed.

Definition ex_objects : list (option Object) := [Some (MkObject ex_s3); None; Some (MkObject ex_s2); Some (MkObject ex_s1)].

Lemma ex_genuine : Forall genuine ex_objects.
Proof.
  repeat apply Forall_cons_2; [exact ex_verified_3|exact I|exact ex_verified_2|exact ex_verified_1|apply Forall_nil_2].
Qed.

Definition ex_policy : QualificationPolicy :=
  MkPolicy " release " {["CAM-1" := true]} ∅ {[" VISION" := true]} (100 * Second) (5 * Second) true
    (Some (f_ratio 1 4)) ["site"; " site "; ""] ["z"; "x"].

Definition ex_range (m : gmap string bool) : list (string * bool) := map_to_list m.

Definition ex_qualifier :=
  Eval vm_compute in match NewQualifier ex_range ex_policy with Ok q => q | Err _ => MkQualifier ex_policy end.

Definition ex_groups (groups : Groups) : list (list observation) := snd <$> map_to_list groups.

Lemma ex_groups_range : is_range ex_groups.
Proof. intros groups. reflexivity. Qed.

(** ** Witnesses *)

Definition ex_stamped : Input := stamped ex_service (utc_seconds 1000) [] (ex_input 1 "{ 'z' : 3, 'x':1.50 }" 900).

Lemma evidence_round_trip_witness :
  Rehydrate (ObjectSnapshot (MkObject ex_s1)) = Ok (MkObject ex_s1) /\
  Payload ex_s1 = json.text "{'x':1.50,'z':3}".
Proof.
  assert (H : NewObject ex_stamped = Ok (MkObject ex_s1)) by (vm_compute; reflexivity).
  split; [exact (proj1 (evidence_round_trip ex_stamped (MkObject ex_s1) H))|vm_compute; reflexivity].
Defined.

Lemma payload_tamper_evident_witness :
  VerifySnapshot (ex_s1 <| Payload := json.text "{'x':9,'z':3}" |>) <> None \/
  Collision (json.text "{'x':9,'z':3}") (Payload ex_s1).
Proof.
  apply (payload_tamper_evident ex_s1 (json.text "{'x':9,'z':3}")).
  - exact (proj2 (VerifySnapshot_verified ex_s1) ex_verified_1).
  - vm_compute. discriminate.
Defined.

Lemma qualify_spec_witness : meets (policy ex_qualifier) (utc_seconds 960) ex_s1.
Proof.
  assert (exists r, Qualify ex_qualifier (Some (MkObject ex_s1)) (utc_seconds 960) = Ok r /\
    Status r = QualificationQualified) as (r & Hr & Hs) by (eexists; split; vm_compute; reflexivity).
  destruct (qualify_spec ex_qualifier (MkObject ex_s1) (utc_seconds 960) r Hr) as [[H _] _].
  exact (proj2 (H Hs)).
Defined.

Lemma qualify_set_spec_witness :
  exists l status reasons, stably_sorted observed_before ex_objects l /\
    QualifySet ex_groups ex_qualifier (uuid_of 200) ex_objects (utc_seconds 960) =
      Ok (MkSessionResult (uuid_of 200) status (UTC (utc_seconds 960)) (PolicyVersion (policy ex_qualifier)) reasons
            (imap (fun i o => set_result (own_result ex_qualifier (UTC (utc_seconds 960)) o)
                                (set_reasons (uuid_of 200) l i o)) l)).
Proof.
  assert (Hid : uuid_of 200 <> NilUUID) by (vm_compute; discriminate).
  assert (Ht : instant (utc_seconds 960) <> 0) by (vm_compute; discriminate).
  destruct (qualify_set_spec ex_groups ex_qualifier (uuid_of 200) ex_objects (utc_seconds 960)
              ex_groups_range ex_genuine Hid Ht) as (_ & l & status & reasons & Hl & E & _).
  exact (ex_intro _ l (ex_intro _ status (ex_intro _ reasons (conj Hl E)))).
Defined.

(** The conflicting reports are rejected, the later one qualifies, and so the
    session does not. *)
Example ex_set_result :
  (fun r => (Status r, Code <$> Reasons r)) <$>
    SessionEvidence (reference_result ex_qualifier (uuid_of 200) (utc_seconds 960) ex_objects) =
  [(QualificationRejected, [ReasonConflictingObservation]); (QualificationRejected, [ReasonConflictingObservation]);
   (QualificationQualified, []); (QualificationUnavailable, [ReasonEvidenceUnavailable])].
Proof. vm_compute. reflexivity. Qed.

Lemma qualify_set_deterministic_witness :
  QualifySet ex_groups ex_qualifier (uuid_of 200) ex_objects (utc_seconds 960) =
  QualifySet ex_groups ex_qualifier (uuid_of 200) (rev ex_objects) (utc_seconds 960).
Proof.
  apply (qualify_set_deterministic ex_groups ex_groups ex_qualifier (uuid_of 200) ex_objects (rev ex_objects)
           (utc_seconds 960)).
  - exact ex_groups_range.
  - exact ex_groups_range.
  - apply Permutation_rev.
  - exact ex_genuine.
  - refine (bool_decide_eq_true_1 _ _). vm_compute. reflexivity.
  - repeat apply Forall_cons_2; (reflexivity || exact I || apply Forall_nil_2).
Defined.

Lemma qualifier_deterministic_witness :
  NewQualifier ex_range ex_policy = NewQualifier (fun m => rev (map_to_list m)) ex_policy.
Proof.
  apply (qualifier_deterministic ex_range (fun m => rev (map_to_list m)) ex_policy).
  - intros m. reflexivity.
  - intros m. symmetry. apply Permutation_rev.
  - refine (bool_decide_eq_true_1 _ _). vm_compute. reflexivity.
  - refine (bool_decide_eq_true_1 _ _). vm_compute. reflexivity.
Defined.

Definition ex_ingest (now : Z) : MemoryRepository * outcome Error Snapshot :=
  @Ingest _ (MemoryRepository_repository ex_zone) ex_service (utc_seconds now) [] (ex_input 4 "[1]" 970)
    (submissions ex_zone ex_submissions NewMemoryRepository).

Definition ex_s4 := Eval vm_compute in match snd (ex_ingest 1100) with Ok s => s | Err _ => zeroSnapshot end.

Lemma pair_snd {A B} (p : A * B) b : snd p = b -> p = (fst p, b).
Proof. destruct p. by intros <-. Qed.

Lemma ex_ingest_4 : ex_ingest 1100 = (fst (ex_ingest 1100), Ok ex_s4).
Proof. apply pair_snd. vm_compute. reflexivity. Qed.

Lemma evidence_is_immutable_witness :
  memory_FindEvidence (uuid_of 1)
    (submissions ex_zone ex_submissions (submissions ex_zone ex_submissions NewMemoryRepository)) =
  Ok (Some (MkObject ex_s1)).
Proof.
  apply (evidence_is_immutable ex_zone ex_submissions ex_submissions (uuid_of 1) (MkObject ex_s1)).
  vm_compute. reflexivity.
Defined.

Lemma ingest_spec_witness :
  @Find _ (MemoryRepository_repository ex_zone) (EvidenceID ex_s4) (fst (ex_ingest 1100)) = Ok ex_s4.
Proof.
  exact (proj1 (ingest_spec ex_zone ex_submissions ex_service (utc_seconds 1100) [] (ex_input 4 "[1]" 970)
    (fst (ex_ingest 1100)) ex_s4 ex_ingest_4)).
Defined.

Lemma ingest_retry_witness :
  let m2 := submissions ex_zone ex_submissions (fst (ex_ingest 1100)) in
  @Ingest _ (MemoryRepository_repository ex_zone) ex_service (utc_seconds 1200) [] (ex_input 4 "[1]" 970) m2 =
  (m2, Ok ex_s4).
Proof.
  apply (ingest_retry ex_zone ex_submissions ex_submissions ex_service (utc_seconds 1100) (utc_seconds 1200)
    [] [] (ex_input 4 "[1]" 970) (fst (ex_ingest 1100)) ex_s4).
  - vm_compute. discriminate.
  - vm_compute. discriminate.
  - vm_compute. discriminate.
  - exact ex_ingest_4.
  - unfold encodable. vm_compute. discriminate.
Defined.

Lemma refused_ingestion_witness :
  let m := submissions ex_zone ex_submissions NewMemoryRepository in
  fst (@Ingest _ (MemoryRepository_repository ex_zone) ex_service (utc_seconds 1200) [] (ex_input 1 "[1]" 970) m) = m.
Proof.
  cbv zeta. set (m := submissions ex_zone ex_submissions NewMemoryRepository).
  assert (H : @Ingest _ (MemoryRepository_repository ex_zone) ex_service (utc_seconds 1200) [] (ex_input 1 "[1]" 970) m =
    (fst (@Ingest _ (MemoryRepository_repository ex_zone) ex_service (utc_seconds 1200) [] (ex_input 1 "[1]" 970) m),
     Err ErrConflict)) by (apply pair_snd; vm_compute; reflexivity).
  exact (proj1 (refused_ingestion ex_zone ex_submissions ex_service (utc_seconds 1200) [] (ex_input 1 "[1]" 970) _ _ H)).
Defined.

Lemma session_qualification_witness :
  exists l, @ListBySession _ (MemoryRepository_repository ex_zone) (uuid_of 200)
    (submissions ex_zone ex_submissions NewMemoryRepository) = Ok l.
Proof.
  destruct (session_qualification ex_zone ex_submissions ex_groups (uuid_of 200) ex_qualifier (utc_seconds 960))
    as (l & Hl & _).
  - exact ex_groups_range.
  - vm_compute. discriminate.
  - vm_compute. discriminate.
  - exists l. exact Hl.
Defined.
