(* ===== verification/Evaluation.v ===== *)
(** * The evaluation aggregate ([evaluation/])

    Types ([types.go]), domain events and their metadata ([aggregate.go],
    [event_metadata.go]), the aggregate with its lifecycle ([aggregate.go]),
    evidence and policy bindings ([evidence.go], [policy.go]), rule outcomes
    ([rules.go], [rules_advanced.go]), checkpoints, history and atomic mutation
    ([history.go]), snapshots and the decision trace ([snapshot.go]).

    A method with an error result is an [action] on the aggregate; the
    nil-receiver results are in [call]. The methods ending in [Now] read the
    wall clock and call the method that takes the time, which is the one
    modelled. String-typed enumerations stay strings, since snapshots come from
    outside. Go copies every slice it stores or hands out, so slices are lists.
    Errors are identified as [errors.Is] identifies them: the text a
    [fmt.Errorf] wraps around a sentinel is not kept. *)

From Stdlib Require Import Ascii String.
From S2P Require Import Prelude GoTime GoString Uuid.

Module evaluation.

Inductive Error :=
  | ErrInvalidStateTransition
  | ErrReasonCodeRequired
  | ErrCancellationReasonRequired
  | ErrInvalidExpirationTime
  | ErrEvaluationIDRequired
  | ErrSessionIDRequired
  | ErrInvalidEvaluationSnapshot
  | ErrInvalidStartTime
  | ErrInvalidCompletionTime
  | ErrInvalidCompletionResult
  | ErrRuleIDRequired
  | ErrRuleOutcomeAlreadyRecorded
  | ErrInvalidRuleOutcome
  | ErrRequiredRulesIncomplete
  | ErrInvalidReasonCode
  | ErrEvidenceBindingRequired
  | ErrEvidenceSessionMismatch
  | ErrEvidenceAlreadyBound
  | ErrEvidenceBoundAfterRules
  | ErrPolicyBindingRequired
  | ErrPolicyAlreadyBound
  | ErrPolicyBoundAfterRules
  | ErrRuleOutcomeConflict
  | ErrInvalidRuleOutcomeTimestamp
  | ErrRuleOutcomeTimestampRequired
  | ErrUnknownRule
  | ErrRuleOutcomeNotFound
  | ErrStaleRuleOutcomeReplacement
  | ErrRuleOutcomeRemovalTimeRequired
  | ErrRuleOutcomeResetTimeRequired
  | ErrEvaluationVersionConflict
  | ErrCheckpointNotFound
  | ErrCheckpointAlreadyExists
  | ErrEvaluationHistoryEntryNotFound
  | ErrEvaluationHistoryVersionExists
  | ErrInvalidEvaluationHistoryEntry
  | ErrHistoryCaptureTimeRequired
  | ErrMutationFunctionRequired
  | ErrSnapshotVersionRequired.

#[global] Instance Error_eq_dec : EqDecision Error.
Proof. solve_decision. Defined.

(** ** Types *)

Abbreviation EvaluationState := string.

Definition StateCreated : EvaluationState := "CREATED".
Definition StateRunning : EvaluationState := "RUNNING".
Definition StateCompleted : EvaluationState := "COMPLETED".
Definition StateCancelled : EvaluationState := "CANCELLED".
Definition StateExpired : EvaluationState := "EXPIRED".

Definition CanTransitionTo (s target : EvaluationState) : bool :=
  if s == StateCreated then
    (target == StateRunning) || (target == StateCancelled) || (target == StateExpired)
  else if s == StateRunning then
    (target == StateCompleted) || (target == StateCancelled) || (target == StateExpired)
  else false.

Definition IsTerminal (s : EvaluationState) : bool :=
  (s == StateCompleted) || (s == StateCancelled) || (s == StateExpired).

Abbreviation VerificationResult := string.

Definition ResultUnknown : VerificationResult := "UNKNOWN".
Definition ResultVerified : VerificationResult := "VERIFIED".
Definition ResultVerifiedWithException : VerificationResult := "VERIFIED_WITH_EXCEPTION".
Definition ResultRejected : VerificationResult := "REJECTED".
Definition ResultManualReview : VerificationResult := "MANUAL_REVIEW".
Definition ResultSystemException : VerificationResult := "SYSTEM_EXCEPTION".

Definition ResultIsValid (r : VerificationResult) : bool :=
  (r == ResultUnknown) || (r == ResultVerified) || (r == ResultVerifiedWithException) ||
  (r == ResultRejected) || (r == ResultManualReview) || (r == ResultSystemException).

Abbreviation ReasonCode := string.

Definition ReasonCodeEvaluationTimeout : ReasonCode := "EVALUATION_TIMEOUT".

Definition reasonCodePattern (s : string) : bool := match_code 1 63 s.

Definition NewReasonCode (value : string) : outcome Error ReasonCode :=
  let v := ToUpper (TrimSpace value) in
  if negb (reasonCodePattern v) then Err ErrInvalidReasonCode else Ok v.

Abbreviation RuleOutcomeStatus := string.

Definition RuleOutcomePass : RuleOutcomeStatus := "PASS".
Definition RuleOutcomeWarning : RuleOutcomeStatus := "WARNING".
Definition RuleOutcomeFail : RuleOutcomeStatus := "FAIL".
Definition RuleOutcomeInconclusive : RuleOutcomeStatus := "INCONCLUSIVE".

Definition RuleOutcomeStatusIsValid (s : RuleOutcomeStatus) : bool :=
  (s == RuleOutcomePass) || (s == RuleOutcomeWarning) || (s == RuleOutcomeFail) ||
  (s == RuleOutcomeInconclusive).

(** [normalizeReasonCodes], whose loop keeps the set of codes [seen]. *)
Fixpoint normalizeReasonCodes_loop (seen : gset string) (v : list ReasonCode)
    : outcome Error (list ReasonCode) :=
  match v with
  | [] => Ok []
  | r :: v' =>
      let! c := NewReasonCode r in
      if bool_decide (c ∈ seen) then normalizeReasonCodes_loop seen v' else
      let! out := normalizeReasonCodes_loop ({[c]} ∪ seen) v' in
      Ok (c :: out)
  end.

Definition normalizeReasonCodes (v : list ReasonCode) : outcome Error (list ReasonCode) :=
  normalizeReasonCodes_loop ∅ v.

(** ** Rule outcomes *)

Record RuleOutcome := MkRuleOutcome {
  RuleID : string;
  Status : RuleOutcomeStatus;
  ReasonCodes : list ReasonCode;
  EvaluatedAt : Time
}.

#[global] Instance RuleOutcome_eta : Eta RuleOutcome :=
  fun o => MkRuleOutcome (RuleID o) (Status o) (ReasonCodes o) (EvaluatedAt o).

#[global] Instance RuleOutcome_eq_dec : EqDecision RuleOutcome.
Proof. solve_decision. Defined.

Definition normalizeRuleOutcome (o : RuleOutcome) : outcome Error RuleOutcome :=
  let o := o <| RuleID := TrimSpace (RuleID o) |> in
  if RuleID o == "" then Err ErrRuleIDRequired else
  if negb (RuleOutcomeStatusIsValid (Status o)) || IsZero (EvaluatedAt o)
  then Err ErrInvalidRuleOutcome else
  let! reasons := normalizeReasonCodes (ReasonCodes o) in
  if (Status o == RuleOutcomePass) && (reasons != []) then Err ErrInvalidRuleOutcome else
  if (Status o != RuleOutcomePass) && (reasons == []) then Err ErrInvalidRuleOutcome else
  Ok (o <| ReasonCodes := reasons |> <| EvaluatedAt := UTC (EvaluatedAt o) |>).

Definition ruleOutcomesEqual (left right : RuleOutcome) : bool :=
  (RuleID left == RuleID right) && (Status left == Status right) &&
  TimeEqual (EvaluatedAt left) (EvaluatedAt right) &&
  (ReasonCodes left == ReasonCodes right).

(** ** Evidence bindings *)

Abbreviation EvidenceQualificationStatus := string.

Definition EvidenceQualified : EvidenceQualificationStatus := "QUALIFIED".
Definition EvidenceRejected : EvidenceQualificationStatus := "REJECTED".
Definition EvidenceUnavailable : EvidenceQualificationStatus := "UNAVAILABLE".

Definition EvidenceQualificationStatusIsValid (s : EvidenceQualificationStatus) : bool :=
  (s == EvidenceQualified) || (s == EvidenceRejected) || (s == EvidenceUnavailable).

Record EvidenceReference := MkEvidenceReference {
  EvidenceID : UUID;
  RefStatus : EvidenceQualificationStatus;
  RefReasons : list string
}.

#[global] Instance EvidenceReference_eta : Eta EvidenceReference :=
  fun r => MkEvidenceReference (EvidenceID r) (RefStatus r) (RefReasons r).

#[global] Instance UUID_eq_dec : EqDecision UUID := _ : EqDecision bytes.
#[global] Instance UUID_countable : Countable UUID := _ : Countable bytes.

#[global] Instance EvidenceReference_eq_dec : EqDecision EvidenceReference.
Proof. solve_decision. Defined.

Record EvidenceSetBinding := MkEvidenceSetBinding {
  BoundSessionID : UUID;
  BoundStatus : EvidenceQualificationStatus;
  PolicyVersion : string;
  QualifiedAt : Time;
  Reasons : list string;
  Evidence : list EvidenceReference
}.

#[global] Instance EvidenceSetBinding_eta : Eta EvidenceSetBinding :=
  fun b => MkEvidenceSetBinding (BoundSessionID b) (BoundStatus b) (PolicyVersion b)
             (QualifiedAt b) (Reasons b) (Evidence b).

#[global] Instance EvidenceSetBinding_eq_dec : EqDecision EvidenceSetBinding.
Proof. solve_decision. Defined.

Fixpoint normalizeEvidenceReasons_loop (seen : gset string) (reasons : list string)
    : outcome Error (list string) :=
  match reasons with
  | [] => Ok []
  | reason :: rest =>
      let reason := ToUpper (TrimSpace reason) in
      if reason == "" then normalizeEvidenceReasons_loop seen rest else
      if negb (reasonCodePattern reason) then Err ErrEvidenceBindingRequired else
      if bool_decide (reason ∈ seen) then normalizeEvidenceReasons_loop seen rest else
      let! result := normalizeEvidenceReasons_loop ({[reason]} ∪ seen) rest in
      Ok (reason :: result)
  end.

Definition normalizeEvidenceReasons (reasons : list string) : outcome Error (list string) :=
  normalizeEvidenceReasons_loop ∅ reasons.

(** The loop over [binding.Evidence], with the identities already [seen]. *)
Fixpoint normalizeEvidenceReferences (seen : gset UUID) (l : list EvidenceReference)
    : outcome Error (list EvidenceReference) :=
  match l with
  | [] => Ok []
  | reference :: rest =>
      if (EvidenceID reference == NilUUID) ||
         negb (EvidenceQualificationStatusIsValid (RefStatus reference))
      then Err ErrEvidenceBindingRequired else
      if bool_decide (EvidenceID reference ∈ seen) then Err ErrEvidenceBindingRequired else
      let! reasons := normalizeEvidenceReasons (RefReasons reference) in
      if (RefStatus reference == EvidenceQualified) && (reasons != [])
      then Err ErrEvidenceBindingRequired else
      if (RefStatus reference != EvidenceQualified) && (reasons == [])
      then Err ErrEvidenceBindingRequired else
      let! out := normalizeEvidenceReferences ({[EvidenceID reference]} ∪ seen) rest in
      Ok (reference <| RefReasons := reasons |> :: out)
  end.

Definition normalizeEvidenceBinding (binding : EvidenceSetBinding)
    : outcome Error EvidenceSetBinding :=
  let binding := binding <| PolicyVersion := TrimSpace (PolicyVersion binding) |>
                         <| QualifiedAt := UTC (QualifiedAt binding) |> in
  if (BoundSessionID binding == NilUUID) ||
     negb (EvidenceQualificationStatusIsValid (BoundStatus binding)) ||
     (PolicyVersion binding == "") || IsZero (QualifiedAt binding)
  then Err ErrEvidenceBindingRequired else
  let! reasons := normalizeEvidenceReasons (Reasons binding) in
  let binding := binding <| Reasons := reasons |> in
  let! evidence := normalizeEvidenceReferences ∅ (Evidence binding) in
  let binding := binding <| Evidence := evidence |> in
  if (BoundStatus binding == EvidenceQualified) &&
     ((Evidence binding == []) || (Reasons binding != []) ||
      existsb (fun reference => RefStatus reference != EvidenceQualified) (Evidence binding))
  then Err ErrEvidenceBindingRequired else
  if (BoundStatus binding == EvidenceUnavailable) &&
     ((Evidence binding != []) || (Reasons binding == []))
  then Err ErrEvidenceBindingRequired else
  if (BoundStatus binding == EvidenceRejected) &&
     negb ((Reasons binding != []) ||
           existsb (fun reference => RefStatus reference != EvidenceQualified) (Evidence binding))
  then Err ErrEvidenceBindingRequired else
  Ok binding.

Definition evidenceReferencesEqual (l r : EvidenceReference) : bool :=
  (EvidenceID l == EvidenceID r) && (RefStatus l == RefStatus r) && (RefReasons l == RefReasons r).

Definition evidenceBindingsEqual (left right : EvidenceSetBinding) : bool :=
  (BoundSessionID left == BoundSessionID right) && (BoundStatus left == BoundStatus right) &&
  (PolicyVersion left == PolicyVersion right) &&
  TimeEqual (QualifiedAt left) (QualifiedAt right) &&
  (Reasons left == Reasons right) &&
  (length (Evidence left) == length (Evidence right)) &&
  forallb (fun '(l, r) => evidenceReferencesEqual l r) (zip (Evidence left) (Evidence right)).

(** ** Policy bindings *)

Record PolicyBinding := MkPolicyBinding {
  PolicyID : string;
  PolicyBindingVersion : string;
  Hash : string;
  BoundAt : Time
}.

#[global] Instance PolicyBinding_eta : Eta PolicyBinding :=
  fun b => MkPolicyBinding (PolicyID b) (PolicyBindingVersion b) (Hash b) (BoundAt b).

#[global] Instance PolicyBinding_eq_dec : EqDecision PolicyBinding.
Proof. solve_decision. Defined.

(** [^sha256:[0-9a-f]{64}$] *)
Definition policyHashPattern (s : string) : bool :=
  let b := bytes_of s in
  (take 7 b == bytes_of "sha256:") && (length b == 71%nat) && forallb is_lower_hex (drop 7 b).

Definition normalizePolicyBinding (binding : PolicyBinding) : outcome Error PolicyBinding :=
  let binding := binding <| PolicyID := TrimSpace (PolicyID binding) |>
                         <| PolicyBindingVersion := TrimSpace (PolicyBindingVersion binding) |>
                         <| Hash := TrimSpace (Hash binding) |>
                         <| BoundAt := UTC (BoundAt binding) |> in
  if (PolicyID binding == "") || (PolicyBindingVersion binding == "") ||
     negb (policyHashPattern (Hash binding)) || IsZero (BoundAt binding)
  then Err ErrPolicyBindingRequired else
  Ok binding.

(** ** Domain events *)

Inductive DomainEvent :=
  | EvaluationCreatedEvent (EvaluationID SessionID : UUID) (CreatedAt : Time) (Version : Z)
  | EvaluationStartedEvent (EvaluationID SessionID : UUID) (StartedAt : Time) (Version : Z)
  | EvaluationCompletedEvent (EvaluationID SessionID : UUID) (Result : VerificationResult)
      (CompletedAt : Time) (Version : Z)
  | EvaluationRejectedEvent (EvaluationID SessionID : UUID) (codes : list ReasonCode)
      (CompletedAt : Time) (Version : Z)
  | EvaluationManualReviewRequiredEvent (EvaluationID SessionID : UUID) (codes : list ReasonCode)
      (RequiredAt : Time) (Version : Z)
  | EvaluationSystemExceptionEvent (EvaluationID SessionID : UUID) (codes : list ReasonCode)
      (OccurredAt : Time) (Version : Z)
  | EvaluationCancelledEvent (EvaluationID SessionID : UUID) (Reason : string)
      (CancelledAt : Time) (Version : Z)
  | EvaluationExpiredEvent (EvaluationID SessionID : UUID) (codes : list ReasonCode)
      (ExpiredAt : Time) (Version : Z)
  | RuleOutcomeRecordedEvent (EvaluationID SessionID : UUID) (rule : string)
      (status : RuleOutcomeStatus) (codes : list ReasonCode) (EvaluatedAt : Time) (Version : Z)
  | RequiredRuleRegisteredEvent (EvaluationID SessionID : UUID) (rule : string)
      (RegisteredAt : Time) (Version : Z)
  | EvidenceSetBoundEvent (EvaluationID SessionID : UUID) (Binding : EvidenceSetBinding)
      (Version : Z)
  | VerificationPolicyBoundEvent (EvaluationID SessionID : UUID) (Binding : PolicyBinding)
      (Version : Z)
  | RuleOutcomeBatchRecordedEvent (EvaluationID SessionID : UUID) (Outcomes : list RuleOutcome)
      (RecordedAt : Time) (Version : Z)
  | RuleOutcomeReplacedEvent (EvaluationID SessionID : UUID) (Previous Replacement : RuleOutcome)
      (ReplacedAt : Time) (Version : Z)
  | RuleOutcomeBatchReplacedEvent (EvaluationID SessionID : UUID)
      (Previous Replacements : list RuleOutcome) (ReplacedAt : Time) (Version : Z)
  | RuleOutcomeRemovedEvent (EvaluationID SessionID : UUID) (Outcome : RuleOutcome)
      (RemovedAt : Time) (Version : Z)
  | RuleOutcomeBatchRemovedEvent (EvaluationID SessionID : UUID) (Outcomes : list RuleOutcome)
      (RemovedAt : Time) (Version : Z)
  | RuleOutcomesResetEvent (EvaluationID SessionID : UUID) (Outcomes : list RuleOutcome)
      (ResetAt : Time) (Version : Z)
  | EvaluationCheckpointCreatedEvent (EvaluationID SessionID : UUID) (Name : string)
      (CreatedAt : Time) (Version : Z)
  | EvaluationRolledBackEvent (EvaluationID SessionID : UUID) (Checkpoint : string)
      (RolledBackAt : Time) (Version : Z)
  | EvaluationHistoryRecordedEvent (EvaluationID SessionID : UUID) (Version : Z)
      (RecordedAt : Time).

Record EventMetadata := MkEventMetadata {
  EventType : string;
  EvaluationID : UUID;
  SessionID : UUID;
  Version : Z;
  OccurredAt : Time
}.

Definition Metadata (event : DomainEvent) : EventMetadata :=
  match event with
  | EvaluationCreatedEvent i s at_ v => MkEventMetadata "EvaluationCreatedEvent" i s v at_
  | EvaluationStartedEvent i s at_ v => MkEventMetadata "EvaluationStartedEvent" i s v at_
  | EvaluationCompletedEvent i s _ at_ v => MkEventMetadata "EvaluationCompletedEvent" i s v at_
  | EvaluationRejectedEvent i s _ at_ v => MkEventMetadata "EvaluationRejectedEvent" i s v at_
  | EvaluationManualReviewRequiredEvent i s _ at_ v =>
      MkEventMetadata "EvaluationManualReviewRequiredEvent" i s v at_
  | EvaluationSystemExceptionEvent i s _ at_ v =>
      MkEventMetadata "EvaluationSystemExceptionEvent" i s v at_
  | EvaluationCancelledEvent i s _ at_ v => MkEventMetadata "EvaluationCancelledEvent" i s v at_
  | EvaluationExpiredEvent i s _ at_ v => MkEventMetadata "EvaluationExpiredEvent" i s v at_
  | RuleOutcomeRecordedEvent i s _ _ _ at_ v => MkEventMetadata "RuleOutcomeRecordedEvent" i s v at_
  | RequiredRuleRegisteredEvent i s _ at_ v =>
      MkEventMetadata "RequiredRuleRegisteredEvent" i s v at_
  | EvidenceSetBoundEvent i s b v => MkEventMetadata "EvidenceSetBoundEvent" i s v (QualifiedAt b)
  | VerificationPolicyBoundEvent i s b v =>
      MkEventMetadata "VerificationPolicyBoundEvent" i s v (BoundAt b)
  | RuleOutcomeBatchRecordedEvent i s _ at_ v =>
      MkEventMetadata "RuleOutcomeBatchRecordedEvent" i s v at_
  | RuleOutcomeReplacedEvent i s _ _ at_ v => MkEventMetadata "RuleOutcomeReplacedEvent" i s v at_
  | RuleOutcomeBatchReplacedEvent i s _ _ at_ v =>
      MkEventMetadata "RuleOutcomeBatchReplacedEvent" i s v at_
  | RuleOutcomeRemovedEvent i s _ at_ v => MkEventMetadata "RuleOutcomeRemovedEvent" i s v at_
  | RuleOutcomeBatchRemovedEvent i s _ at_ v =>
      MkEventMetadata "RuleOutcomeBatchRemovedEvent" i s v at_
  | RuleOutcomesResetEvent i s _ at_ v => MkEventMetadata "RuleOutcomesResetEvent" i s v at_
  | EvaluationCheckpointCreatedEvent i s _ at_ v =>
      MkEventMetadata "EvaluationCheckpointCreatedEvent" i s v at_
  | EvaluationRolledBackEvent i s _ at_ v => MkEventMetadata "EvaluationRolledBackEvent" i s v at_
  | EvaluationHistoryRecordedEvent i s v at_ =>
      MkEventMetadata "EvaluationHistoryRecordedEvent" i s v at_
  end.

(** ** The aggregate *)

Record EvaluationCheckpoint := MkEvaluationCheckpoint {
  CheckpointName : string;
  CheckpointOutcomes : list RuleOutcome;
  CheckpointVersion : Z;
  CheckpointCreatedAt : Time
}.

Record EvaluationHistoryEntry := MkEvaluationHistoryEntry {
  HistoryEvaluationID : UUID;
  HistorySessionID : UUID;
  HistoryVersion : Z;
  HistoryState : EvaluationState;
  HistoryResult : VerificationResult;
  HistoryReasonCodes : list ReasonCode;
  HistoryRequiredRuleIDs : list string;
  HistoryRuleOutcomes : list RuleOutcome;
  HistoryRecordedAt : Time
}.

Record EvaluationAggregate := MkEvaluationAggregate {
  id_ : UUID;
  sessionID : UUID;
  state : EvaluationState;
  result : VerificationResult;
  reasonCodes : list ReasonCode;
  createdAt : Time;
  startedAt : option Time;
  completedAt : option Time;
  cancelledAt : option Time;
  expiredAt : option Time;
  cancellationReason : string;
  version : Z;
  domainEvents : list DomainEvent;
  ruleOutcomes : list RuleOutcome;
  requiredRuleIDs : list string;
  checkpoints : gmap string EvaluationCheckpoint;
  history : list EvaluationHistoryEntry;
  evidenceBinding : option EvidenceSetBinding;
  policyBinding : option PolicyBinding
}.

#[global] Instance EvaluationAggregate_eta : Eta EvaluationAggregate :=
  fun e => MkEvaluationAggregate (id_ e) (sessionID e) (state e) (result e) (reasonCodes e)
    (createdAt e) (startedAt e) (completedAt e) (cancelledAt e) (expiredAt e)
    (cancellationReason e) (version e) (domainEvents e) (ruleOutcomes e) (requiredRuleIDs e)
    (checkpoints e) (history e) (evidenceBinding e) (policyBinding e).

Definition addDomainEvent (v : DomainEvent) (e : EvaluationAggregate) : EvaluationAggregate :=
  e <| domainEvents := domainEvents e ++ [v] |>.

(** [e.version++] followed by [addDomainEvent] of the event that carries the
    new version. *)
Definition bump (event : Z -> DomainEvent) (e : EvaluationAggregate) : EvaluationAggregate :=
  let e := e <| version := u64_succ (version e) |> in
  addDomainEvent (event (version e)) e.

Definition ClearDomainEvents (e : EvaluationAggregate) : EvaluationAggregate :=
  e <| domainEvents := [] |>.

Definition NewEvaluation (id sessionID : UUID) (createdAt : Time)
    : outcome Error EvaluationAggregate :=
  if id == NilUUID then Err ErrEvaluationIDRequired else
  if sessionID == NilUUID then Err ErrSessionIDRequired else
  if IsZero createdAt then Err ErrInvalidEvaluationSnapshot else
  let createdAt := UTC createdAt in
  Ok (addDomainEvent (EvaluationCreatedEvent id sessionID createdAt 1)
        (MkEvaluationAggregate id sessionID StateCreated ResultUnknown [] createdAt
           None None None None "" 1 [] [] [] ∅ [] None None)).

(** A method of the aggregate that returns only an error. *)
Abbreviation method := (action EvaluationAggregate Error unit).

Definition fail (err : Error) : method := fun e => (e, Err err).
Definition done_ : method := aret tt.
Definition update (f : EvaluationAggregate -> EvaluationAggregate) : method := fun e => (f e, Ok tt).

Definition Start (at_ : Time) : method := fun e =>
  if negb (CanTransitionTo (state e) StateRunning) then fail ErrInvalidStateTransition e else
  if IsZero at_ || Before at_ (createdAt e) then fail ErrInvalidStartTime e else
  let at_ := UTC at_ in
  update (fun e =>
    bump (EvaluationStartedEvent (id_ e) (sessionID e) at_)
      (e <| state := StateRunning |> <| startedAt := Some at_ |>)) e.

Definition ruleOutcomeIndex (ruleID : string) (e : EvaluationAggregate) : option nat :=
  fst <$> list_find (fun o => RuleID o = ruleID) (ruleOutcomes e).

Definition RuleOutcomeByID (ruleID : string) (e : EvaluationAggregate) : option RuleOutcome :=
  match ruleOutcomeIndex (TrimSpace ruleID) e with
  | None => None
  | Some idx => ruleOutcomes e !! idx
  end.

Definition HasRecordedRule (ruleID : string) (e : EvaluationAggregate) : bool :=
  match ruleOutcomeIndex (TrimSpace ruleID) e with
  | None => false
  | Some _ => true
  end.

Definition IsRuleRequired (ruleID : string) (e : EvaluationAggregate) : bool :=
  let ruleID := TrimSpace ruleID in
  existsb (fun id => id == ruleID) (requiredRuleIDs e).

Definition MissingRequiredRuleIDs (e : EvaluationAggregate) : list string :=
  let seen : gset string := list_to_set (RuleID <$> ruleOutcomes e) in
  filter (fun id => id ∉ seen) (requiredRuleIDs e).

Definition RequiredRulesComplete (e : EvaluationAggregate) : bool :=
  MissingRequiredRuleIDs e == [].

Definition completionEvent (e : EvaluationAggregate) (result : VerificationResult)
    (nr : list ReasonCode) (at_ : Time) : Z -> DomainEvent :=
  if result == ResultRejected then EvaluationRejectedEvent (id_ e) (sessionID e) nr at_
  else if result == ResultManualReview then
    EvaluationManualReviewRequiredEvent (id_ e) (sessionID e) nr at_
  else if result == ResultSystemException then
    EvaluationSystemExceptionEvent (id_ e) (sessionID e) nr at_
  else EvaluationCompletedEvent (id_ e) (sessionID e) result at_.

(** Whether a result of a completion must come with reason codes. *)
Definition needsReasons (result : VerificationResult) : bool :=
  (result == ResultRejected) || (result == ResultManualReview) ||
  (result == ResultSystemException) || (result == ResultVerifiedWithException).

Definition CompleteAt (result_ : VerificationResult) (reasons : list ReasonCode) (at_ : Time)
    : method := fun e =>
  if negb (CanTransitionTo (state e) StateCompleted) then fail ErrInvalidStateTransition e else
  if IsZero at_ || match startedAt e with None => true | Some started => Before at_ started end
  then fail ErrInvalidCompletionTime e else
  if negb (ResultIsValid result_) || (result_ == ResultUnknown)
  then fail ErrInvalidCompletionResult e else
  if negb (RequiredRulesComplete e) then fail ErrRequiredRulesIncomplete e else
  match normalizeReasonCodes reasons with
  | Err err => fail err e
  | Ok nr =>
      if needsReasons result_ && (nr == []) then fail ErrInvalidCompletionResult e else
      if ((result_ == ResultVerified) || (result_ == ResultVerifiedWithException)) &&
         (result_ == ResultVerified) && (nr != [])
      then fail ErrInvalidCompletionResult e else
      let at_ := UTC at_ in
      update (fun e =>
        bump (completionEvent e result_ nr at_)
          (e <| state := StateCompleted |> <| result := result_ |>
             <| reasonCodes := nr |> <| completedAt := Some at_ |>)) e
  end.

(** [Cancel] reads the wall clock: [now] is what it reads. *)
Definition Cancel (reason : string) (now : Time) : method := fun e =>
  if IsTerminal (state e) then fail ErrInvalidStateTransition e else
  let reason := TrimSpace reason in
  if reason == "" then fail ErrCancellationReasonRequired e else
  let now := UTC now in
  update (fun e =>
    bump (EvaluationCancelledEvent (id_ e) (sessionID e) reason now)
      (e <| state := StateCancelled |> <| cancelledAt := Some now |>
         <| cancellationReason := reason |>)) e.

Definition Expire (at_ : Time) : method := fun e =>
  if IsTerminal (state e) then fail ErrInvalidStateTransition e else
  if IsZero at_ then fail ErrInvalidExpirationTime e else
  let at_ := UTC at_ in
  if Before at_ (createdAt e) then fail ErrInvalidExpirationTime e else
  update (fun e =>
    let e := e <| state := StateExpired |> <| result := ResultSystemException |>
               <| reasonCodes := [ReasonCodeEvaluationTimeout] |> <| expiredAt := Some at_ |> in
    bump (EvaluationExpiredEvent (id_ e) (sessionID e) (reasonCodes e) at_) e) e.

Definition BindEvidenceSet (binding : EvidenceSetBinding) : method := fun e =>
  if IsTerminal (state e) then fail ErrInvalidStateTransition e else
  if ruleOutcomes e != [] then fail ErrEvidenceBoundAfterRules e else
  match normalizeEvidenceBinding binding with
  | Err err => fail err e
  | Ok normalized =>
      if BoundSessionID normalized != sessionID e then fail ErrEvidenceSessionMismatch e else
      match evidenceBinding e with
      | Some bound =>
          if evidenceBindingsEqual bound normalized then done_ e else fail ErrEvidenceAlreadyBound e
      | None =>
          update (fun e =>
            bump (EvidenceSetBoundEvent (id_ e) (sessionID e) normalized)
              (e <| evidenceBinding := Some normalized |>)) e
      end
  end.

Definition BindVerificationPolicy (binding : PolicyBinding) : method := fun e =>
  if IsTerminal (state e) then fail ErrInvalidStateTransition e else
  if ruleOutcomes e != [] then fail ErrPolicyBoundAfterRules e else
  match normalizePolicyBinding binding with
  | Err _ => fail ErrPolicyBindingRequired e
  | Ok normalized =>
      if Before (BoundAt normalized) (createdAt e) then fail ErrPolicyBindingRequired e else
      match policyBinding e with
      | Some bound =>
          if bound == normalized then done_ e else fail ErrPolicyAlreadyBound e
      | None =>
          update (fun e =>
            bump (VerificationPolicyBoundEvent (id_ e) (sessionID e) normalized)
              (e <| policyBinding := Some normalized |>)) e
      end
  end.

Definition RegisterRequiredRuleAt (id : string) (registeredAt : Time) : method := fun e =>
  if IsTerminal (state e) then fail ErrInvalidStateTransition e else
  if IsZero registeredAt || Before registeredAt (createdAt e)
  then fail ErrInvalidRuleOutcomeTimestamp e else
  let registeredAt := UTC registeredAt in
  let id := TrimSpace id in
  if id == "" then fail ErrRuleIDRequired e else
  if existsb (fun x => x == id) (requiredRuleIDs e) then done_ e else
  update (fun e =>
    bump (RequiredRuleRegisteredEvent (id_ e) (sessionID e) id registeredAt)
      (e <| requiredRuleIDs := requiredRuleIDs e ++ [id] |>)) e.

(** ** Recording rule outcomes *)

(** [e.startedAt == nil || t.Before( *e.startedAt)] *)
Definition beforeStart (t : Time) (e : EvaluationAggregate) : bool :=
  match startedAt e with
  | None => true
  | Some started => Before t started
  end.

(** [len(e.requiredRuleIDs) > 0 && !e.IsRuleRequired(id)] *)
Definition notRequired (ruleID : string) (e : EvaluationAggregate) : bool :=
  (requiredRuleIDs e != []) && negb (IsRuleRequired ruleID e).

Definition appendOutcome (o : RuleOutcome) (e : EvaluationAggregate) : EvaluationAggregate :=
  bump (RuleOutcomeRecordedEvent (id_ e) (sessionID e) (RuleID o) (Status o) (ReasonCodes o)
          (EvaluatedAt o))
    (e <| ruleOutcomes := ruleOutcomes e ++ [o] |>).

Definition RecordRuleOutcome (o : RuleOutcome) : method := fun e =>
  if state e != StateRunning then fail ErrInvalidStateTransition e else
  match normalizeRuleOutcome o with
  | Err err => fail err e
  | Ok normalized =>
      if beforeStart (EvaluatedAt normalized) e then fail ErrInvalidRuleOutcomeTimestamp e else
      if notRequired (RuleID normalized) e then fail ErrUnknownRule e else
      match RuleOutcomeByID (RuleID normalized) e with
      | Some existing =>
          if ruleOutcomesEqual existing normalized then done_ e else fail ErrRuleOutcomeConflict e
      | None => update (appendOutcome normalized) e
      end
  end.

Definition RecordRuleOutcomes (outcomes : list RuleOutcome) : method :=
  afor RecordRuleOutcome outcomes.

(** The loop of [validateRuleOutcomeBatch], before the sort. *)
Fixpoint validateRuleOutcomeBatch_loop (e : EvaluationAggregate)
    (batchByRuleID : gmap string RuleOutcome) (outcomes : list RuleOutcome)
    : outcome Error (list RuleOutcome) :=
  match outcomes with
  | [] => Ok []
  | outcome :: rest =>
      let! value := normalizeRuleOutcome outcome in
      if beforeStart (EvaluatedAt value) e then Err ErrInvalidRuleOutcomeTimestamp else
      if notRequired (RuleID value) e then Err ErrUnknownRule else
      match batchByRuleID !! RuleID value with
      | Some previous =>
          if ruleOutcomesEqual previous value
          then validateRuleOutcomeBatch_loop e batchByRuleID rest
          else Err ErrRuleOutcomeConflict
      | None =>
          if match RuleOutcomeByID (RuleID value) e with
             | Some existing => negb (ruleOutcomesEqual existing value)
             | None => false
             end
          then Err ErrRuleOutcomeConflict else
          let! normalized :=
            validateRuleOutcomeBatch_loop e (<[RuleID value := value]> batchByRuleID) rest in
          Ok (value :: normalized)
      end
  end.

(** [sort.Slice] by rule ID: the IDs are distinct, so the order is unique. *)
Definition outcome_le (a b : RuleOutcome) : Prop := String.le (RuleID a) (RuleID b).

#[global] Instance outcome_le_dec : RelDecision outcome_le :=
  fun a b => decide (String.le (RuleID a) (RuleID b)).

Definition validateRuleOutcomeBatch (outcomes : list RuleOutcome) (e : EvaluationAggregate)
    : outcome Error (list RuleOutcome) :=
  let! normalized := validateRuleOutcomeBatch_loop e ∅ outcomes in
  Ok (merge_sort outcome_le normalized).

(** [found && ruleOutcomesEqual(existing, outcome)] *)
Definition alreadyRecorded (o : RuleOutcome) (e : EvaluationAggregate) : bool :=
  match RuleOutcomeByID (RuleID o) e with
  | Some existing => ruleOutcomesEqual existing o
  | None => false
  end.

Definition RecordRuleOutcomesAtomic (outcomes : list RuleOutcome) : method := fun e =>
  if state e != StateRunning then fail ErrInvalidStateTransition e else
  match validateRuleOutcomeBatch outcomes e with
  | Err err => fail err e
  | Ok normalized =>
      afor (fun outcome e =>
        if alreadyRecorded outcome e then done_ e else update (appendOutcome outcome) e)
        normalized e
  end.

Definition RecordRuleOutcomeBatch (outcomes : list RuleOutcome) (recordedAt : Time) : method :=
  fun e =>
  if state e != StateRunning then fail ErrInvalidStateTransition e else
  if outcomes == [] then done_ e else
  if IsZero recordedAt then fail ErrRuleOutcomeTimestampRequired e else
  let recordedAt := UTC recordedAt in
  if beforeStart recordedAt e then fail ErrInvalidRuleOutcomeTimestamp e else
  match validateRuleOutcomeBatch outcomes e with
  | Err err => fail err e
  | Ok normalized =>
      let pending := filter (fun o => alreadyRecorded o e = false) normalized in
      if pending == [] then done_ e else
      update (fun e =>
        bump (RuleOutcomeBatchRecordedEvent (id_ e) (sessionID e) pending recordedAt)
          (e <| ruleOutcomes := ruleOutcomes e ++ pending |>)) e
  end.

(** ** Replacing rule outcomes *)

Definition ReplaceRuleOutcome (replacement : RuleOutcome) (replacedAt : Time) : method := fun e =>
  if state e != StateRunning then fail ErrInvalidStateTransition e else
  if IsZero replacedAt then fail ErrRuleOutcomeTimestampRequired e else
  let replacedAt := UTC replacedAt in
  match normalizeRuleOutcome replacement with
  | Err err => fail err e
  | Ok normalized =>
      if beforeStart replacedAt e || beforeStart (EvaluatedAt normalized) e ||
         After (EvaluatedAt normalized) replacedAt
      then fail ErrInvalidRuleOutcomeTimestamp e else
      if notRequired (RuleID normalized) e then fail ErrUnknownRule e else
      match list_find (fun o => RuleID o = RuleID normalized) (ruleOutcomes e) with
      | None => fail ErrRuleOutcomeNotFound e
      | Some (index, previous) =>
          if ruleOutcomesEqual previous normalized then done_ e else
          if Before (EvaluatedAt normalized) (EvaluatedAt previous)
          then fail ErrStaleRuleOutcomeReplacement e else
          update (fun e =>
            bump (RuleOutcomeReplacedEvent (id_ e) (sessionID e) previous normalized replacedAt)
              (e <| ruleOutcomes := <[index := normalized]> (ruleOutcomes e) |>)) e
      end
  end.

Record RuleOutcomeReplacement := MkRuleOutcomeReplacement {
  Replacement : RuleOutcome;
  ReplacedAt : Time
}.

#[global] Instance RuleOutcomeReplacement_eq_dec : EqDecision RuleOutcomeReplacement.
Proof. solve_decision. Defined.

(** The first loop of [ReplaceRuleOutcomesAtomic]: [byID], and the IDs in
    order of first appearance. *)
Fixpoint collectReplacements (e : EvaluationAggregate) (replacedAt : Time)
    (byID : gmap string RuleOutcome) (ids : list string) (replacements : list RuleOutcomeReplacement)
    : outcome Error (gmap string RuleOutcome * list string) :=
  match replacements with
  | [] => Ok (byID, ids)
  | item :: rest =>
      let at_ := if IsZero (ReplacedAt item) then replacedAt else ReplacedAt item in
      if After (UTC at_) replacedAt then Err ErrInvalidRuleOutcomeTimestamp else
      let! value := normalizeRuleOutcome (Replacement item) in
      if After (EvaluatedAt value) replacedAt || beforeStart (EvaluatedAt value) e
      then Err ErrInvalidRuleOutcomeTimestamp else
      if notRequired (RuleID value) e then Err ErrUnknownRule else
      match list_find (fun o => RuleID o = RuleID value) (ruleOutcomes e) with
      | None => Err ErrRuleOutcomeNotFound
      | Some (_, current) =>
          if Before (EvaluatedAt value) (EvaluatedAt current)
          then Err ErrStaleRuleOutcomeReplacement else
          match byID !! RuleID value with
          | Some old =>
              if negb (ruleOutcomesEqual old value) then Err ErrRuleOutcomeConflict else
              collectReplacements e replacedAt (<[RuleID value := value]> byID) ids rest
          | None =>
              collectReplacements e replacedAt (<[RuleID value := value]> byID)
                (ids ++ [RuleID value]) rest
          end
      end
  end.

(** The pairs of current outcome and replacement that differ, in the order of
    the sorted IDs. *)
Definition pendingReplacements (e : EvaluationAggregate) (byID : gmap string RuleOutcome)
    (ids : list string) : list (RuleOutcome * RuleOutcome) :=
  omap (fun id =>
    match list_find (fun o => RuleID o = id) (ruleOutcomes e), byID !! id with
    | Some (_, current), Some replacement =>
        if ruleOutcomesEqual current replacement then None else Some (current, replacement)
    | _, _ => None
    end) ids.

(** [e.ruleOutcomes[e.ruleOutcomeIndex(o.RuleID)] = o] on the slice; the
    program only does this with a recorded ID. *)
Definition setOutcome (l : list RuleOutcome) (o : RuleOutcome) : list RuleOutcome :=
  match list_find (fun x => RuleID x = RuleID o) l with
  | Some (index, _) => <[index := o]> l
  | None => l
  end.

Definition ReplaceRuleOutcomesAtomic (replacements : list RuleOutcomeReplacement) (replacedAt : Time)
    : method := fun e =>
  if state e != StateRunning then fail ErrInvalidStateTransition e else
  if replacements == [] then done_ e else
  if IsZero replacedAt then fail ErrRuleOutcomeTimestampRequired e else
  let replacedAt := UTC replacedAt in
  if beforeStart replacedAt e then fail ErrInvalidRuleOutcomeTimestamp e else
  match collectReplacements e replacedAt ∅ [] replacements with
  | Err err => fail err e
  | Ok (byID, ids) =>
      let pairs := pendingReplacements e byID (sort_strings ids) in
      if pairs == [] then done_ e else
      update (fun e =>
        bump (RuleOutcomeBatchReplacedEvent (id_ e) (sessionID e) (fst <$> pairs) (snd <$> pairs)
                replacedAt)
          (e <| ruleOutcomes := fold_left setOutcome (snd <$> pairs) (ruleOutcomes e) |>)) e
  end.

(** ** Removing rule outcomes *)

Definition RemoveRuleOutcome (ruleID : string) (removedAt : Time) : method := fun e =>
  if state e != StateRunning then fail ErrInvalidStateTransition e else
  let ruleID := TrimSpace ruleID in
  if ruleID == "" then fail ErrRuleIDRequired e else
  if IsZero removedAt then fail ErrRuleOutcomeRemovalTimeRequired e else
  let removedAt := UTC removedAt in
  if beforeStart removedAt e then fail ErrInvalidRuleOutcomeTimestamp e else
  match list_find (fun o => RuleID o = ruleID) (ruleOutcomes e) with
  | None => fail ErrRuleOutcomeNotFound e
  | Some (index, outcome) =>
      update (fun e =>
        bump (RuleOutcomeRemovedEvent (id_ e) (sessionID e) outcome removedAt)
          (e <| ruleOutcomes := take index (ruleOutcomes e) ++ drop (S index) (ruleOutcomes e) |>)) e
  end.

Definition RemoveRuleOutcomeIfPresent (ruleID : string) (removedAt : Time) : method := fun e =>
  let ruleID := TrimSpace ruleID in
  if ruleID == "" then fail ErrRuleIDRequired e else
  if negb (HasRecordedRule ruleID e) then done_ e else
  RemoveRuleOutcome ruleID removedAt e.

Fixpoint normalizeRuleIDs_loop (seen : gset string) (ruleIDs : list string)
    : outcome Error (list string) :=
  match ruleIDs with
  | [] => Ok []
  | id :: rest =>
      let id := TrimSpace id in
      if id == "" then Err ErrRuleIDRequired else
      if bool_decide (id ∈ seen) then normalizeRuleIDs_loop seen rest else
      let! out := normalizeRuleIDs_loop ({[id]} ∪ seen) rest in
      Ok (id :: out)
  end.

Definition normalizeRuleIDsForRemoval (ruleIDs : list string) : outcome Error (list string) :=
  let! out := normalizeRuleIDs_loop ∅ ruleIDs in
  Ok (sort_strings out).

(** The outcomes to remove, or the error of the first ID with none. *)
Fixpoint collectRemoved (e : EvaluationAggregate) (ids : list string)
    : outcome Error (list RuleOutcome) :=
  match ids with
  | [] => Ok []
  | id :: rest =>
      match list_find (fun o => RuleID o = id) (ruleOutcomes e) with
      | None => Err ErrRuleOutcomeNotFound
      | Some (_, outcome) =>
          let! removed := collectRemoved e rest in
          Ok (outcome :: removed)
      end
  end.

Definition RemoveRuleOutcomesAtomic (ruleIDs : list string) (removedAt : Time) : method := fun e =>
  if state e != StateRunning then fail ErrInvalidStateTransition e else
  if ruleIDs == [] then done_ e else
  if IsZero removedAt then fail ErrRuleOutcomeRemovalTimeRequired e else
  let removedAt := UTC removedAt in
  if beforeStart removedAt e then fail ErrInvalidRuleOutcomeTimestamp e else
  match normalizeRuleIDsForRemoval ruleIDs with
  | Err err => fail err e
  | Ok ids =>
      match collectRemoved e ids with
      | Err err => fail err e
      | Ok removed =>
          let removeSet : gset string := list_to_set ids in
          update (fun e =>
            bump (RuleOutcomeBatchRemovedEvent (id_ e) (sessionID e) removed removedAt)
              (e <| ruleOutcomes := filter (fun o => RuleID o ∉ removeSet) (ruleOutcomes e) |>)) e
      end
  end.

Definition RemoveRuleOutcomesIfPresent (ruleIDs : list string) (removedAt : Time) : method := fun e =>
  if state e != StateRunning then fail ErrInvalidStateTransition e else
  match normalizeRuleIDsForRemoval ruleIDs with
  | Err err => fail err e
  | Ok ids =>
      let existing := filter (fun id => HasRecordedRule id e = true) ids in
      if existing == [] then done_ e else
      RemoveRuleOutcomesAtomic existing removedAt e
  end.

Definition ResetRuleOutcomes (resetAt : Time) : method := fun e =>
  if state e != StateRunning then fail ErrInvalidStateTransition e else
  if IsZero resetAt then fail ErrRuleOutcomeResetTimeRequired e else
  let resetAt := UTC resetAt in
  if beforeStart resetAt e then fail ErrInvalidRuleOutcomeTimestamp e else
  if ruleOutcomes e == [] then done_ e else
  update (fun e =>
    let removed := ruleOutcomes e in
    bump (RuleOutcomesResetEvent (id_ e) (sessionID e) removed resetAt)
      (e <| ruleOutcomes := [] |>)) e.

Definition ResetRuleOutcomesAtVersion (expectedVersion : Z) (resetAt : Time) : method := fun e =>
  if negb (version e =? expectedVersion) then fail ErrEvaluationVersionConflict e else
  ResetRuleOutcomes resetAt e.

(** ** The result *)

(** The loop of [DeriveResult] over the outcomes: the result so far and the
    reasons in order. *)
Definition deriveStep (acc : VerificationResult * list ReasonCode) (o : RuleOutcome)
    : VerificationResult * list ReasonCode :=
  let '(result, reasons) := acc in
  if Status o == RuleOutcomeFail then (ResultRejected, reasons ++ ReasonCodes o) else
  if Status o == RuleOutcomeInconclusive then
    (if result != ResultRejected then ResultManualReview else result, reasons ++ ReasonCodes o) else
  if Status o == RuleOutcomeWarning then
    (if result == ResultVerified then ResultVerifiedWithException else result,
     reasons ++ ReasonCodes o) else
  (result, reasons).

Definition DeriveResult (e : EvaluationAggregate)
    : outcome Error (VerificationResult * list ReasonCode) :=
  if negb (RequiredRulesComplete e) then Err ErrRequiredRulesIncomplete else
  if ruleOutcomes e == [] then Err ErrInvalidRuleOutcome else
  let '(result, reasons) := fold_left deriveStep (ruleOutcomes e) (ResultVerified, []) in
  let! nr := normalizeReasonCodes reasons in
  Ok (result, nr).

(** ** Checkpoints and history *)

Definition CreateCheckpoint (name : string) (at_ : Time) : method := fun e =>
  if state e != StateRunning then fail ErrInvalidStateTransition e else
  let name := TrimSpace name in
  if name == "" then fail ErrRuleIDRequired e else
  if IsZero at_ then fail ErrHistoryCaptureTimeRequired e else
  let at_ := UTC at_ in
  if beforeStart at_ e then fail ErrInvalidEvaluationHistoryEntry e else
  match checkpoints e !! name with
  | Some _ => fail ErrCheckpointAlreadyExists e
  | None =>
      let cp := MkEvaluationCheckpoint name (ruleOutcomes e) (version e) at_ in
      update (fun e =>
        bump (EvaluationCheckpointCreatedEvent (id_ e) (sessionID e) name at_)
          (e <| checkpoints := <[name := cp]> (checkpoints e) |>)) e
  end.

Definition RollbackToCheckpoint (name : string) (rolledBackAt : Time) : method := fun e =>
  if state e != StateRunning then fail ErrInvalidStateTransition e else
  let name := TrimSpace name in
  match checkpoints e !! name with
  | None => fail ErrCheckpointNotFound e
  | Some cp =>
      if IsZero rolledBackAt then fail ErrHistoryCaptureTimeRequired e else
      let rolledBackAt := UTC rolledBackAt in
      if beforeStart rolledBackAt e || Before rolledBackAt (CheckpointCreatedAt cp)
      then fail ErrInvalidEvaluationHistoryEntry e else
      update (fun e =>
        bump (EvaluationRolledBackEvent (id_ e) (sessionID e) name rolledBackAt)
          (e <| ruleOutcomes := CheckpointOutcomes cp |>)) e
  end.

(** [Checkpoints]: the values in the order of the sorted names. *)
Definition Checkpoints (e : EvaluationAggregate) : list EvaluationCheckpoint :=
  let names := sort_strings (elements (dom (checkpoints e))) in
  omap (fun n => checkpoints e !! n) names.

Definition isState (s : EvaluationState) : bool :=
  (s == StateCreated) || (s == StateRunning) || (s == StateCompleted) || (s == StateCancelled) ||
  (s == StateExpired).

Definition validateEvaluationHistoryEntry (h : EvaluationHistoryEntry) : option Error :=
  if (HistoryEvaluationID h == NilUUID) || (HistorySessionID h == NilUUID) ||
     (HistoryVersion h =? 0) || IsZero (HistoryRecordedAt h) || negb (ResultIsValid (HistoryResult h))
  then Some ErrInvalidEvaluationHistoryEntry else
  if isState (HistoryState h) then None else Some ErrInvalidEvaluationHistoryEntry.

Definition RecordHistory (recordedAt : Time) : method := fun e =>
  if IsZero recordedAt then fail ErrHistoryCaptureTimeRequired e else
  let recordedAt := UTC recordedAt in
  if Before recordedAt (createdAt e) then fail ErrInvalidEvaluationHistoryEntry e else
  if existsb (fun h => HistoryVersion h =? version e) (history e)
  then fail ErrEvaluationHistoryVersionExists e else
  let entry := MkEvaluationHistoryEntry (id_ e) (sessionID e) (version e) (state e) (result e)
                 (reasonCodes e) (requiredRuleIDs e) (ruleOutcomes e) recordedAt in
  match validateEvaluationHistoryEntry entry with
  | Some err => fail err e
  | None =>
      update (fun e =>
        addDomainEvent (EvaluationHistoryRecordedEvent (id_ e) (sessionID e) (version e) recordedAt)
          (e <| history := history e ++ [entry] |>)) e
  end.

Definition HistoryAtVersion (v : Z) (e : EvaluationAggregate) : outcome Error EvaluationHistoryEntry :=
  match list_find (fun h => HistoryVersion h = v) (history e) with
  | Some (_, h) => Ok h
  | None => Err ErrEvaluationHistoryEntryNotFound
  end.

(** *** Atomic mutation *)

Record evaluationMutableState := MkEvaluationMutableState {
  mState : EvaluationState;
  mResult : VerificationResult;
  mReasonCodes : list ReasonCode;
  mRequiredRuleIDs : list string;
  mRuleOutcomes : list RuleOutcome;
  mStartedAt : option Time;
  mCompletedAt : option Time;
  mCancelledAt : option Time;
  mExpiredAt : option Time;
  mVersion : Z;
  mCheckpoints : gmap string EvaluationCheckpoint;
  mHistory : list EvaluationHistoryEntry;
  mEvents : list DomainEvent
}.

Definition captureMutableState (e : EvaluationAggregate) : evaluationMutableState :=
  MkEvaluationMutableState (state e) (result e) (reasonCodes e) (requiredRuleIDs e)
    (ruleOutcomes e) (startedAt e) (completedAt e) (cancelledAt e) (expiredAt e) (version e)
    (checkpoints e) (history e) (domainEvents e).

Definition restoreMutableState (s : evaluationMutableState) (e : EvaluationAggregate)
    : EvaluationAggregate :=
  e <| state := mState s |> <| result := mResult s |> <| reasonCodes := mReasonCodes s |>
    <| requiredRuleIDs := mRequiredRuleIDs s |> <| ruleOutcomes := mRuleOutcomes s |>
    <| startedAt := mStartedAt s |> <| completedAt := mCompletedAt s |>
    <| cancelledAt := mCancelledAt s |> <| expiredAt := mExpiredAt s |>
    <| version := mVersion s |> <| checkpoints := mCheckpoints s |> <| history := mHistory s |>
    <| domainEvents := mEvents s |>.

(** [mutation] is the caller's function; [None] is a nil function value. *)
Definition ApplyAtomicMutation (occurredAt : Time) (mutation : option method) : method := fun e =>
  match mutation with
  | None => fail ErrMutationFunctionRequired e
  | Some mutation =>
      let before := captureMutableState e in
      match mutation e with
      | (e, Err err) => (restoreMutableState before e, Err err)
      | (e, Ok _) =>
          match RecordHistory occurredAt e with
          | (e, Err err) => (restoreMutableState before e, Err err)
          | (e, Ok _) => (e, Ok tt)
          end
      end
  end.

(** ** Snapshots *)

Record EvaluationSnapshot := MkEvaluationSnapshot {
  SnapEvaluationID : UUID;
  SnapSessionID : UUID;
  SnapState : EvaluationState;
  SnapResult : VerificationResult;
  SnapReasonCodes : list ReasonCode;
  SnapCreatedAt : Time;
  SnapStartedAt : option Time;
  SnapCompletedAt : option Time;
  SnapCancelledAt : option Time;
  SnapExpiredAt : option Time;
  SnapCancellationReason : string;
  SnapVersion : Z;
  SnapRequiredRuleIDs : list string;
  SnapRuleOutcomes : list RuleOutcome;
  SnapCheckpoints : list EvaluationCheckpoint;
  SnapHistory : list EvaluationHistoryEntry;
  SnapEvidenceBinding : option EvidenceSetBinding;
  SnapPolicyBinding : option PolicyBinding
}.

Definition Snapshot (e : EvaluationAggregate) : EvaluationSnapshot :=
  MkEvaluationSnapshot (id_ e) (sessionID e) (state e) (result e) (reasonCodes e) (createdAt e)
    (startedAt e) (completedAt e) (cancelledAt e) (expiredAt e) (cancellationReason e) (version e)
    (requiredRuleIDs e) (ruleOutcomes e) (Checkpoints e) (history e) (evidenceBinding e)
    (policyBinding e).

(** The [switch snapshot.State] of [validateEvaluationSnapshot]. *)
Definition snapshotStateInvalid (s : EvaluationSnapshot) : bool :=
  let absent {A} (x : option A) := match x with None => true | Some _ => false end in
  if SnapState s == StateCreated then
    negb (absent (SnapStartedAt s)) || negb (absent (SnapCompletedAt s)) ||
    negb (absent (SnapCancelledAt s)) || negb (absent (SnapExpiredAt s))
  else if SnapState s == StateRunning then
    absent (SnapStartedAt s) || negb (absent (SnapCompletedAt s)) ||
    negb (absent (SnapCancelledAt s)) || negb (absent (SnapExpiredAt s))
  else if SnapState s == StateCompleted then
    absent (SnapStartedAt s) || absent (SnapCompletedAt s) || (SnapResult s == ResultUnknown)
  else if SnapState s == StateCancelled then
    absent (SnapCancelledAt s) || (SnapCancellationReason s == "")
  else if SnapState s == StateExpired then absent (SnapExpiredAt s)
  else true.

Definition validateEvaluationSnapshot (s : EvaluationSnapshot) : option Error :=
  if (SnapEvaluationID s == NilUUID) || (SnapSessionID s == NilUUID)
  then Some ErrInvalidEvaluationSnapshot else
  if SnapVersion s =? 0 then Some ErrSnapshotVersionRequired else
  if IsZero (SnapCreatedAt s) || negb (ResultIsValid (SnapResult s))
  then Some ErrInvalidEvaluationSnapshot else
  if snapshotStateInvalid s then Some ErrInvalidEvaluationSnapshot else
  if negb (forallb (fun o => is_ok (normalizeRuleOutcome o)) (SnapRuleOutcomes s))
  then Some ErrInvalidEvaluationSnapshot else
  if negb (forallb (fun h => validateEvaluationHistoryEntry h == None) (SnapHistory s))
  then Some ErrInvalidEvaluationSnapshot else
  if match SnapEvidenceBinding s with
     | None => false
     | Some b =>
         match normalizeEvidenceBinding b with
         | Err _ => true
         | Ok binding => BoundSessionID binding != SnapSessionID s
         end
     end
  then Some ErrInvalidEvaluationSnapshot else
  if match SnapPolicyBinding s with
     | None => false
     | Some b =>
         match normalizePolicyBinding b with
         | Err _ => true
         | Ok binding => Before (BoundAt binding) (SnapCreatedAt s)
         end
     end
  then Some ErrInvalidEvaluationSnapshot else
  None.

Fixpoint rehydrateCheckpoints (acc : gmap string EvaluationCheckpoint)
    (l : list EvaluationCheckpoint) : outcome Error (gmap string EvaluationCheckpoint) :=
  match l with
  | [] => Ok acc
  | cp :: rest =>
      if (CheckpointName cp == "") || IsZero (CheckpointCreatedAt cp)
      then Err ErrInvalidEvaluationSnapshot else
      match acc !! CheckpointName cp with
      | Some _ => Err ErrInvalidEvaluationSnapshot
      | None => rehydrateCheckpoints (<[CheckpointName cp := cp]> acc) rest
      end
  end.

Definition RehydrateEvaluation (s : EvaluationSnapshot) : outcome Error EvaluationAggregate :=
  match validateEvaluationSnapshot s with
  | Some err => Err err
  | None =>
      let! cps := rehydrateCheckpoints ∅ (SnapCheckpoints s) in
      Ok (MkEvaluationAggregate (SnapEvaluationID s) (SnapSessionID s) (SnapState s) (SnapResult s)
            (SnapReasonCodes s) (UTC (SnapCreatedAt s)) (SnapStartedAt s) (SnapCompletedAt s)
            (SnapCancelledAt s) (SnapExpiredAt s) (SnapCancellationReason s) (SnapVersion s)
            [] (SnapRuleOutcomes s) (SnapRequiredRuleIDs s) cps (SnapHistory s)
            (SnapEvidenceBinding s) (SnapPolicyBinding s))
  end.

Record DecisionTrace := MkDecisionTrace {
  TraceEvaluationID : UUID;
  TraceSessionID : UUID;
  TraceVersion : Z;
  TraceState : EvaluationState;
  TraceResult : VerificationResult;
  TraceReasonCodes : list ReasonCode;
  TraceRequiredRuleIDs : list string;
  TraceMissingRuleIDs : list string;
  TraceRuleOutcomes : list RuleOutcome;
  TraceCreatedAt : Time;
  TraceStartedAt : option Time;
  TraceCompletedAt : option Time;
  TraceExpiredAt : option Time;
  TraceEvidenceBinding : option EvidenceSetBinding;
  TracePolicyBinding : option PolicyBinding
}.

Definition decisionTrace (e : EvaluationAggregate) : DecisionTrace :=
  MkDecisionTrace (id_ e) (sessionID e) (version e) (state e) (result e) (reasonCodes e)
    (requiredRuleIDs e) (MissingRequiredRuleIDs e) (ruleOutcomes e) (createdAt e) (startedAt e)
    (completedAt e) (expiredAt e) (evidenceBinding e) (policyBinding e).

(** ** Commands

    Every mutating method, as data, so that a run of the program on one
    aggregate is a list of commands. The function given to
    [ApplyAtomicMutation] runs commands until the first error. *)

Inductive Command :=
  | CStart (at_ : Time)
  | CComplete (result : VerificationResult) (reasons : list ReasonCode) (at_ : Time)
  | CCancel (reason : string) (now : Time)
  | CExpire (at_ : Time)
  | CBindEvidence (binding : EvidenceSetBinding)
  | CBindPolicy (binding : PolicyBinding)
  | CRegister (id : string) (at_ : Time)
  | CRecord (o : RuleOutcome)
  | CRecordEach (outcomes : list RuleOutcome)
  | CRecordAtomic (outcomes : list RuleOutcome)
  | CRecordBatch (outcomes : list RuleOutcome) (at_ : Time)
  | CReplace (o : RuleOutcome) (at_ : Time)
  | CReplaceAtomic (replacements : list RuleOutcomeReplacement) (at_ : Time)
  | CRemove (id : string) (at_ : Time)
  | CRemoveIfPresent (id : string) (at_ : Time)
  | CRemoveAtomic (ids : list string) (at_ : Time)
  | CRemoveAllIfPresent (ids : list string) (at_ : Time)
  | CReset (at_ : Time)
  | CResetAtVersion (v : Z) (at_ : Time)
  | CCheckpoint (name : string) (at_ : Time)
  | CRollback (name : string) (at_ : Time)
  | CRecordHistory (at_ : Time)
  | CClearEvents
  | CAtomic (at_ : Time) (body : option (list Command)).

Fixpoint exec (c : Command) : method :=
  match c with
  | CStart at_ => Start at_
  | CComplete r reasons at_ => CompleteAt r reasons at_
  | CCancel reason now => Cancel reason now
  | CExpire at_ => Expire at_
  | CBindEvidence b => BindEvidenceSet b
  | CBindPolicy b => BindVerificationPolicy b
  | CRegister id at_ => RegisterRequiredRuleAt id at_
  | CRecord o => RecordRuleOutcome o
  | CRecordEach os => RecordRuleOutcomes os
  | CRecordAtomic os => RecordRuleOutcomesAtomic os
  | CRecordBatch os at_ => RecordRuleOutcomeBatch os at_
  | CReplace o at_ => ReplaceRuleOutcome o at_
  | CReplaceAtomic rs at_ => ReplaceRuleOutcomesAtomic rs at_
  | CRemove id at_ => RemoveRuleOutcome id at_
  | CRemoveIfPresent id at_ => RemoveRuleOutcomeIfPresent id at_
  | CRemoveAtomic ids at_ => RemoveRuleOutcomesAtomic ids at_
  | CRemoveAllIfPresent ids at_ => RemoveRuleOutcomesIfPresent ids at_
  | CReset at_ => ResetRuleOutcomes at_
  | CResetAtVersion v at_ => ResetRuleOutcomesAtVersion v at_
  | CCheckpoint name at_ => CreateCheckpoint name at_
  | CRollback name at_ => RollbackToCheckpoint name at_
  | CRecordHistory at_ => RecordHistory at_
  | CClearEvents => update ClearDomainEvents
  | CAtomic at_ body => ApplyAtomicMutation at_ (option_map (afor exec) body)
  end.

(** What each method returns on a nil receiver: [Start], [CompleteAt],
    [Cancel] and [Expire] treat nil as an illegal transition, and
    [RecordRuleOutcomes] of nothing does not look at it. [ClearDomainEvents]
    has no nil check and would panic. *)
Definition nilResult (c : Command) : outcome Error unit :=
  match c with
  | CStart _ | CComplete _ _ _ | CCancel _ _ | CExpire _ => Err ErrInvalidStateTransition
  | CRecordEach [] => Ok tt
  | _ => Err ErrInvalidEvaluationSnapshot
  end.

(** A method call through a possibly nil pointer. *)
Definition call (c : Command) : action (option EvaluationAggregate) Error unit := fun p =>
  match p with
  | None => (None, nilResult c)
  | Some e => let '(e', r) := exec c e in (Some e', r)
  end.

(** A client's run: every command is called, its error ignored. *)
Definition run (cs : list Command) (e : EvaluationAggregate) : EvaluationAggregate :=
  fold_left (fun e c => fst (exec c e)) cs e.

Inductive reachable : EvaluationAggregate -> Prop :=
  | reachable_new id session at_ e : NewEvaluation id session at_ = Ok e -> reachable e
  | reachable_exec e c : reachable e -> reachable (fst (exec c e)).

End evaluation.
