(* ===== verification/EvaluationLifecycle.v ===== *)
(** * Lifecycle of an evaluation

    The normalizers of reason codes, rule outcomes, evidence bindings and policy
    bindings ([types.go], [rules_advanced.go], [evidence.go], [policy.go]): each
    is idempotent, so that what the aggregate stores is a fixed point. The
    well-formedness invariant of the aggregate, the relation every method keeps
    between the aggregate before and after ([step]), and the properties that
    follow for every reachable aggregate. *)

From Stdlib Require Import Ascii String Relations.
From S2P Require Import Prelude GoTime GoString Uuid Evaluation.
Import evaluation.

(** A value its normalizer returns unchanged. *)
Definition normal {A} (normalize : A -> outcome Error A) (a : A) : Prop := normalize a = Ok a.

Abbreviation outcome_normal := (normal normalizeRuleOutcome).

(** ** Reason codes *)

Definition is_code (c : ReasonCode) : Prop := reasonCodePattern c = true.

Lemma code_fixed c : is_code c -> ToUpper (TrimSpace c) = c.
Proof.
  intros H%match_code_chars. by rewrite (TrimSpace_code c H), (ToUpper_code c H).
Qed.

Lemma code_nonempty c : is_code c -> c <> "".
Proof. apply match_code_nonempty. Qed.

Lemma NewReasonCode_is_code v c : NewReasonCode v = Ok c -> is_code c.
Proof. unfold NewReasonCode, is_code. case_match eqn:H; [done|]. intros [= <-]. go_bool. done. Qed.

Lemma NewReasonCode_fixed c : is_code c -> NewReasonCode c = Ok c.
Proof. intros H. unfold NewReasonCode. rewrite code_fixed by done. by rewrite H. Qed.

(** What the loops that drop duplicates return. *)
Record code_list (seen : gset string) (l : list string) : Prop := {
  cl_codes : Forall is_code l;
  cl_nodup : NoDup l;
  cl_fresh : forall c, c ∈ l -> c ∉ seen
}.

Lemma code_list_nil seen : code_list seen [].
Proof. split; [constructor..|]. by intros c ?%elem_of_nil. Qed.

Lemma code_list_cons seen c l :
  code_list seen (c :: l) <-> is_code c /\ c ∉ seen /\ code_list ({[c]} ∪ seen) l.
Proof.
  split.
  - intros [Hc Hn Hf]. apply Forall_cons in Hc as [Hc Hl]. apply NoDup_cons in Hn as [Hn Hl'].
    split_and!; [done|apply Hf; left|]. split; [done..|].
    intros x Hx. assert (x ∉ seen) by (apply Hf; by right). set_solver.
  - intros (Hc & Hs & [Hl Hn Hf]). split.
    + by constructor.
    + constructor; [|done]. intros Hx%Hf. set_solver.
    + intros x [->|Hx]%elem_of_cons; [done|]. apply Hf in Hx. set_solver.
Qed.

Lemma normalizeReasonCodes_loop_ok v : forall seen out,
  normalizeReasonCodes_loop seen v = Ok out ->
  code_list seen out /\
  forall c, c ∈ out <-> c ∉ seen /\ exists r, r ∈ v /\ NewReasonCode r = Ok c.
Proof.
  induction v as [|r v IH]; intros seen out; cbn [normalizeReasonCodes_loop].
  - intros [= <-]. split; [apply code_list_nil|]. intros c. split; [by intros ?%elem_of_nil|].
    by intros (_ & r & ?%elem_of_nil & _).
  - intros (c & Hc & H)%obind_ok. pose proof (NewReasonCode_is_code _ _ Hc) as Hcode.
    case_bool_decide as Hs.
    + apply IH in H as [Hl Hin]. split; [done|]. intros x. rewrite Hin. clear IH Hin.
      split; intros (Hx & r' & Hr & Hn); (split; [done|]).
      * exists r'. split; [by right|done].
      * apply elem_of_cons in Hr as [->|Hr]; [congruence|by exists r'].
    + apply obind_ok in H as (l & Hl & [= <-]). apply IH in Hl as [Hl Hin].
      split; [by apply code_list_cons|]. intros x. rewrite elem_of_cons, Hin, elem_of_union.
      rewrite elem_of_singleton. clear IH Hin. split.
      * intros [->|(Hx & r' & Hr & Hn)]; [split; [done|]; exists r; split; [left|done]|].
        split; [tauto|]. exists r'. split; [by right|done].
      * intros (Hx & r' & Hr & Hn). destruct (decide (x = c)) as [->|Hne]; [by left|right].
        split; [tauto|]. apply elem_of_cons in Hr as [->|Hr]; [congruence|by exists r'].
Qed.

Lemma normalizeReasonCodes_loop_fixed l : forall seen,
  code_list seen l -> normalizeReasonCodes_loop seen l = Ok l.
Proof.
  induction l as [|c l IH]; intros seen Hl; [done|].
  apply code_list_cons in Hl as (Hc & Hs & Hl). cbn [normalizeReasonCodes_loop].
  rewrite NewReasonCode_fixed by done. cbn [obind].
  rewrite bool_decide_eq_false_2 by done. by rewrite IH.
Qed.

Lemma normalizeReasonCodes_ok v out :
  normalizeReasonCodes v = Ok out ->
  code_list ∅ out /\ forall c, c ∈ out <-> exists r, r ∈ v /\ NewReasonCode r = Ok c.
Proof.
  intros [H Hin]%normalizeReasonCodes_loop_ok. split; [done|]. intros c. rewrite Hin.
  split; [by intros [_ ?]|]. intros ?. split; [apply not_elem_of_empty|done].
Qed.

Lemma normalizeReasonCodes_idemp v out : normalizeReasonCodes v = Ok out -> normal normalizeReasonCodes out.
Proof. intros [H _]%normalizeReasonCodes_ok. by apply normalizeReasonCodes_loop_fixed. Qed.

(** Codes that are already codes normalize without error. *)
Lemma normalizeReasonCodes_total v :
  Forall is_code v -> exists out, normalizeReasonCodes v = Ok out /\ forall c, c ∈ out <-> c ∈ v.
Proof.
  intros Hv. assert (forall seen, exists out, normalizeReasonCodes_loop seen v = Ok out) as Ht.
  { induction Hv as [|c v Hc Hv IH]; intros seen; [by eexists|]. cbn [normalizeReasonCodes_loop].
    rewrite NewReasonCode_fixed by done. cbn [obind]. case_bool_decide; [done|].
    destruct (IH ({[c]} ∪ seen)) as [out ->]. by eexists. }
  destruct (Ht ∅) as [out Hout]. exists out. split; [done|].
  apply normalizeReasonCodes_ok in Hout as [_ Hin]. intros c. rewrite Hin.
  rewrite Forall_forall in Hv. split.
  - intros (r & Hr & Hc). specialize (Hv r Hr). rewrite NewReasonCode_fixed in Hc by done. congruence.
  - intros Hc. exists c. split; [done|]. by apply NewReasonCode_fixed, Hv.
Qed.

(** ** Rule outcomes *)

Lemma normalizeRuleOutcome_ok o o' :
  normalizeRuleOutcome o = Ok o' <->
  exists codes, normalizeReasonCodes (ReasonCodes o) = Ok codes /\
    TrimSpace (RuleID o) <> "" /\ RuleOutcomeStatusIsValid (Status o) = true /\
    instant (EvaluatedAt o) <> 0 /\ (Status o = RuleOutcomePass <-> codes = []) /\
    o' = MkRuleOutcome (TrimSpace (RuleID o)) (Status o) codes (UTC (EvaluatedAt o)).
Proof.
  unfold normalizeRuleOutcome. cbn [fset RuleID Status ReasonCodes EvaluatedAt].
  case_bool_decide as Hid; [split; [done|]; by intros (? & _ & ? & _)|].
  destruct (RuleOutcomeStatusIsValid (Status o)); cbn [negb orb];
    [|split; [done|]; by intros (? & _ & _ & ? & _)].
  unfold IsZero. destruct (_ =? 0) eqn:Ht; go_bool; [split; [done|]; by intros (? & _ & _ & _ & ? & _)|].
  destruct (normalizeReasonCodes (ReasonCodes o)) as [codes|err]; cbn [obind];
    [|split; [done|]; by intros (? & ? & _)].
  destruct (decide (Status o = RuleOutcomePass)) as [Hs|Hs], (decide (codes = [])) as [Hc|Hc];
    rewrite ?(bool_decide_eq_true_2 (Status o = _)), ?(bool_decide_eq_false_2 (Status o = _)),
      ?(bool_decide_eq_true_2 (codes = _)), ?(bool_decide_eq_false_2 (codes = _)) by done;
    cbn [andb negb]; split; try done.
  - intros [= <-]. by exists codes.
  - by intros (? & [= <-] & _ & _ & _ & _ & ->).
  - by intros (? & [= <-] & _ & _ & _ & Hiff & _); apply Hiff in Hs.
  - by intros (? & [= <-] & _ & _ & _ & Hiff & _); apply Hiff in Hc.
  - intros [= <-]. by exists codes.
  - by intros (? & [= <-] & _ & _ & _ & _ & ->).
Qed.

Lemma normalizeRuleOutcome_idemp o o' : normalizeRuleOutcome o = Ok o' -> outcome_normal o'.
Proof.
  intros (codes & Hc & Hid & Hs & Ht & Hp & ->)%normalizeRuleOutcome_ok.
  apply normalizeRuleOutcome_ok. exists codes. cbn [RuleID Status ReasonCodes EvaluatedAt].
  rewrite TrimSpace_idemp. split_and!; try done. by eapply normalizeReasonCodes_idemp.
Qed.

Record outcome_facts (o : RuleOutcome) : Prop := {
  of_id : TrimSpace (RuleID o) = RuleID o;
  of_nonempty : RuleID o <> "";
  of_status : RuleOutcomeStatusIsValid (Status o) = true;
  of_time : instant (EvaluatedAt o) <> 0;
  of_utc : location (EvaluatedAt o) = UTCLoc;
  of_codes : code_list ∅ (ReasonCodes o);
  of_pass : Status o = RuleOutcomePass <-> ReasonCodes o = []
}.

Lemma outcome_normal_facts o : outcome_normal o -> outcome_facts o.
Proof.
  intros (codes & Hc & Hid & Hs & Ht & Hp & He)%normalizeRuleOutcome_ok.
  assert (RuleID o = TrimSpace (RuleID o)) as H1 by by rewrite He at 1.
  assert (ReasonCodes o = codes) as H2 by by rewrite He at 1.
  assert (EvaluatedAt o = UTC (EvaluatedAt o)) as H3 by by rewrite He at 1.
  apply normalizeReasonCodes_ok in Hc as [Hc _].
  split; try done.
  - congruence.
  - by rewrite H3.
  - by rewrite H2.
  - by rewrite H2.
Qed.

(** Equality of normal outcomes, as the code tests it, is equality. *)
Lemma ruleOutcomesEqual_true a b :
  location (EvaluatedAt a) = UTCLoc -> location (EvaluatedAt b) = UTCLoc ->
  ruleOutcomesEqual a b = true <-> a = b.
Proof.
  unfold ruleOutcomesEqual. destruct a as [i s c [t l]], b as [i' s' c' [t' l']].
  cbn [RuleID Status ReasonCodes EvaluatedAt location]. intros -> ->.
  unfold TimeEqual. cbn [instant]. rewrite !andb_true_iff, !bool_decide_eq_true, Z.eqb_eq.
  split; [intros [[[-> ->] ->] ->]; done|intros [= -> -> -> ->]; done].
Qed.

Lemma ruleOutcomesEqual_normal a b :
  outcome_normal a -> outcome_normal b -> ruleOutcomesEqual a b = true <-> a = b.
Proof. intros Ha%outcome_normal_facts Hb%outcome_normal_facts. apply ruleOutcomesEqual_true; apply of_utc; done. Qed.

(** ** Evidence bindings *)

Lemma normalizeEvidenceReasons_loop_ok v : forall seen out,
  normalizeEvidenceReasons_loop seen v = Ok out -> code_list seen out.
Proof.
  induction v as [|r v IH]; intros seen out; cbn [normalizeEvidenceReasons_loop].
  - intros [= <-]. apply code_list_nil.
  - case_bool_decide; [by apply IH|]. case_match eqn:Hp; [done|]. go_bool.
    case_bool_decide as Hs; [by apply IH|].
    intros (l & Hl & [= <-])%obind_ok. apply code_list_cons. split_and!; [done..|by apply IH].
Qed.

Lemma normalizeEvidenceReasons_loop_fixed l : forall seen,
  code_list seen l -> normalizeEvidenceReasons_loop seen l = Ok l.
Proof.
  induction l as [|c l IH]; intros seen Hl; [done|].
  apply code_list_cons in Hl as (Hc & Hs & Hl). cbn [normalizeEvidenceReasons_loop].
  rewrite code_fixed by done. rewrite bool_decide_eq_false_2 by by apply code_nonempty.
  rewrite Hc. cbn [negb]. rewrite bool_decide_eq_false_2 by done. by rewrite IH.
Qed.

Lemma normalizeEvidenceReasons_idemp v out :
  normalizeEvidenceReasons v = Ok out -> normal normalizeEvidenceReasons out.
Proof. intros H%normalizeEvidenceReasons_loop_ok. by apply normalizeEvidenceReasons_loop_fixed. Qed.

Lemma normalizeEvidenceReferences_idemp l : forall seen out,
  normalizeEvidenceReferences seen l = Ok out -> normalizeEvidenceReferences seen out = Ok out.
Proof.
  induction l as [|r l IH]; intros seen out; cbn [normalizeEvidenceReferences].
  { by intros [= <-]. }
  destruct (_ || negb (EvidenceQualificationStatusIsValid _)) eqn:H1; [done|].
  destruct (bool_decide (_ ∈ seen)) eqn:H2; [done|].
  intros (reasons & Hr & H)%obind_ok.
  destruct (_ && (reasons != [])) eqn:H3; [done|]. destruct (_ && (reasons == [])) eqn:H4; [done|].
  apply obind_ok in H as (out' & Hout & [= <-]).
  cbn [normalizeEvidenceReferences fset EvidenceID RefStatus RefReasons].
  rewrite H1, H2.
  rewrite (normalizeEvidenceReasons_idemp _ _ Hr). cbn [obind]. rewrite H3, H4.
  apply IH in Hout. by rewrite Hout.
Qed.

Lemma normalizeEvidenceBinding_idemp b b' :
  normalizeEvidenceBinding b = Ok b' ->
  normal normalizeEvidenceBinding b' /\ BoundSessionID b' = BoundSessionID b.
Proof.
  unfold normal, normalizeEvidenceBinding.
  cbn [fset BoundSessionID BoundStatus PolicyVersion QualifiedAt Reasons Evidence].
  case_match eqn:H1; [done|].
  intros (reasons & Hr & H)%obind_ok. apply obind_ok in H as (evidence & He & H).
  case_match eqn:H2; [done|]. case_match eqn:H3; [done|]. case_match eqn:H4; [done|].
  injection H as <-. cbn [BoundSessionID BoundStatus PolicyVersion QualifiedAt Reasons Evidence].
  split; [|done]. rewrite TrimSpace_idemp, UTC_idemp, H1.
  rewrite (normalizeEvidenceReasons_idemp _ _ Hr). cbn [obind].
  rewrite (normalizeEvidenceReferences_idemp _ _ _ He). cbn [obind]. by rewrite H2, H3, H4.
Qed.

(** ** Policy bindings *)

Lemma normalizePolicyBinding_idemp b b' :
  normalizePolicyBinding b = Ok b' -> normal normalizePolicyBinding b'.
Proof.
  unfold normal, normalizePolicyBinding. cbn [fset PolicyID PolicyBindingVersion Hash BoundAt].
  case_match eqn:H1; [done|]. intros [= <-].
  cbn [PolicyID PolicyBindingVersion Hash BoundAt]. by rewrite !TrimSpace_idemp, UTC_idemp, H1.
Qed.

(** ** The invariant *)

Definition trimmed (s : string) : Prop := TrimSpace s = s /\ s <> "".

(** Outcomes recorded by an evaluation that started at [started]. *)
Record outcomes_ok (started : option Time) (l : list RuleOutcome) : Prop := {
  oo_normal : Forall outcome_normal l;
  oo_nodup : NoDup (RuleID <$> l);
  oo_times : Forall (fun o => exists s, started = Some s /\ instant s <= instant (EvaluatedAt o)) l
}.

Record checkpoint_ok (started : option Time) (name : string) (cp : EvaluationCheckpoint) : Prop := {
  co_name : CheckpointName cp = name;
  co_trimmed : trimmed name;
  co_time : instant (CheckpointCreatedAt cp) <> 0;
  co_outcomes : outcomes_ok started (CheckpointOutcomes cp)
}.

(** The reason codes a completed evaluation carries with its result. *)
Definition completion_ok (r : VerificationResult) (codes : list ReasonCode) : Prop :=
  ResultIsValid r = true /\ r <> ResultUnknown /\ code_list ∅ codes /\
  (r = ResultVerified <-> codes = []).

(** What each state says of the other fields. *)
Inductive state_shape (e : EvaluationAggregate) : Prop :=
  | ShapeCreated :
      state e = StateCreated -> startedAt e = None -> completedAt e = None ->
      cancelledAt e = None -> expiredAt e = None -> result e = ResultUnknown ->
      reasonCodes e = [] -> ruleOutcomes e = [] -> checkpoints e = ∅ -> state_shape e
  | ShapeRunning s :
      state e = StateRunning -> startedAt e = Some s -> instant (createdAt e) <= instant s ->
      completedAt e = None -> cancelledAt e = None -> expiredAt e = None ->
      result e = ResultUnknown -> reasonCodes e = [] -> state_shape e
  | ShapeCompleted s c :
      state e = StateCompleted -> startedAt e = Some s -> instant (createdAt e) <= instant s ->
      completedAt e = Some c ->
      instant s <= instant c -> cancelledAt e = None -> expiredAt e = None ->
      completion_ok (result e) (reasonCodes e) -> RequiredRulesComplete e = true -> state_shape e
  | ShapeCancelled c :
      state e = StateCancelled -> cancelledAt e = Some c -> trimmed (cancellationReason e) ->
      completedAt e = None -> expiredAt e = None -> result e = ResultUnknown -> state_shape e
  | ShapeExpired x :
      state e = StateExpired -> expiredAt e = Some x -> instant (createdAt e) <= instant x ->
      completedAt e = None -> cancelledAt e = None -> result e = ResultSystemException ->
      reasonCodes e = [ReasonCodeEvaluationTimeout] -> state_shape e.

Record history_ok (e : EvaluationAggregate) (h : EvaluationHistoryEntry) : Prop := {
  ho_valid : validateEvaluationHistoryEntry h = None;
  ho_id : HistoryEvaluationID h = id_ e;
  ho_session : HistorySessionID h = sessionID e
}.

Definition evidence_ok (e : EvaluationAggregate) : Prop :=
  forall b, evidenceBinding e = Some b ->
    normal normalizeEvidenceBinding b /\ BoundSessionID b = sessionID e.

Definition policy_ok (e : EvaluationAggregate) : Prop :=
  forall b, policyBinding e = Some b ->
    normal normalizePolicyBinding b /\ Before (BoundAt b) (createdAt e) = false.

Record inv (e : EvaluationAggregate) : Prop := {
  i_id : id_ e <> NilUUID;
  i_session : sessionID e <> NilUUID;
  i_created : instant (createdAt e) <> 0;
  i_utc : location (createdAt e) = UTCLoc;
  i_version : is_u64 (version e);
  i_shape : state_shape e;
  i_outcomes : outcomes_ok (startedAt e) (ruleOutcomes e);
  i_required : Forall trimmed (requiredRuleIDs e);
  i_required_nodup : NoDup (requiredRuleIDs e);
  i_checkpoints : map_Forall (checkpoint_ok (startedAt e)) (checkpoints e);
  i_history : Forall (history_ok e) (history e);
  i_history_nodup : NoDup (HistoryVersion <$> history e);
  i_evidence : evidence_ok e;
  i_policy : policy_ok e
}.

(** ** What a method may change *)

Definition transition (s t : EvaluationState) : Prop := CanTransitionTo s t = true.

(** The fields that no method changes once the state is terminal. *)
Definition decision (e : EvaluationAggregate) :=
  (state e, result e, reasonCodes e, (startedAt e, completedAt e, cancelledAt e, expiredAt e),
   cancellationReason e, version e, ruleOutcomes e, requiredRuleIDs e, checkpoints e,
   (evidenceBinding e, policyBinding e)).

Record frame (e e' : EvaluationAggregate) : Prop := {
  f_id : id_ e' = id_ e;
  f_session : sessionID e' = sessionID e;
  f_created : createdAt e' = createdAt e;
  f_state : rtc transition (state e) (state e');
  f_terminal : IsTerminal (state e) = true -> decision e' = decision e;
  f_reason : trimmed (cancellationReason e) -> trimmed (cancellationReason e');
  f_started : forall s, startedAt e = Some s -> startedAt e' = Some s;
  f_checkpoints : checkpoints e ⊆ checkpoints e';
  f_history : history e `prefix_of` history e';
  f_evidence : forall b, evidenceBinding e = Some b -> evidenceBinding e' = Some b;
  f_policy : forall b, policyBinding e = Some b -> policyBinding e' = Some b
}.

Definition is_history_event (ev : DomainEvent) : bool :=
  match ev with
  | EvaluationHistoryRecordedEvent _ _ _ _ => true
  | _ => false
  end.

(** The versions of a run of events from version [v] to version [v']: a history
    event carries the version it records, every other event the next one. *)
Fixpoint versions_ok (v : Z) (evs : list DomainEvent) (v' : Z) : Prop :=
  match evs with
  | [] => v' = v
  | ev :: rest =>
      let next := if is_history_event ev then v else u64_succ v in
      Version (Metadata ev) = next /\ versions_ok next rest v'
  end.

(** [e'] carries the events of [e] and then new ones of its own. *)
Definition grows (e e' : EvaluationAggregate) : Prop :=
  exists evs, domainEvents e' = domainEvents e ++ evs /\ versions_ok (version e) evs (version e') /\
    Forall (fun ev => EvaluationID (Metadata ev) = id_ e /\ SessionID (Metadata ev) = sessionID e) evs.

Record step (e e' : EvaluationAggregate) : Prop := {
  st_inv : inv e';
  st_frame : frame e e';
  st_grows : grows e e'
}.

Lemma frame_refl e : frame e e.
Proof. split; done. Qed.

Lemma frame_trans e1 e2 e3 : frame e1 e2 -> frame e2 e3 -> frame e1 e3.
Proof.
  intros [] []. split; try congruence; try (by etrans); auto.
  intros Ht. assert (decision e2 = decision e1) as Hd by auto.
  rewrite <- Hd. apply f_terminal1. assert (state e2 = state e1) as -> by (unfold decision in Hd; congruence).
  done.
Qed.

Lemma versions_ok_app v1 l1 v2 l2 v3 :
  versions_ok v1 l1 v2 -> versions_ok v2 l2 v3 -> versions_ok v1 (l1 ++ l2) v3.
Proof.
  revert v1. induction l1 as [|ev l1 IH]; intros v1; cbn [versions_ok app].
  - by intros ->.
  - intros [Hv H1] H2. split; [done|]. by apply IH.
Qed.

Lemma grows_refl e : grows e e.
Proof. exists []. split_and!; [by rewrite app_nil_r|done|constructor]. Qed.

Lemma grows_trans e1 e2 e3 : frame e1 e2 -> grows e1 e2 -> grows e2 e3 -> grows e1 e3.
Proof.
  intros F (l1 & D1 & V1 & I1) (l2 & D2 & V2 & I2). exists (l1 ++ l2). split_and!.
  - by rewrite D2, D1, app_assoc.
  - by eapply versions_ok_app.
  - apply Forall_app. split; [done|]. by rewrite (f_id _ _ F), (f_session _ _ F) in I2.
Qed.

Lemma step_refl e : inv e -> step e e.
Proof. intros H. split; [done|apply frame_refl|apply grows_refl]. Qed.

Lemma step_trans e1 e2 e3 : step e1 e2 -> step e2 e3 -> step e1 e3.
Proof.
  intros [I1 F1 G1] [I2 F2 G2]. split; [done|by eapply frame_trans|by eapply grows_trans].
Qed.

(** A loop of steps is a step. *)
Lemma afor_step {A} (body : A -> method) l :
  (forall x e, x ∈ l -> inv e -> step e (fst (body x e))) ->
  forall e, inv e -> step e (fst (afor body l e)).
Proof.
  intros H e He.
  apply (afor_preserves (fun e' => step e e') body l); [|by apply step_refl].
  intros x e' Hx Hs. eapply step_trans; [done|]. apply H; [done|apply Hs].
Qed.

(** *** Versioned updates *)

Definition event_of (e : EvaluationAggregate) (event : Z -> DomainEvent) : Prop :=
  forall v, is_history_event (event v) = false /\ Version (Metadata (event v)) = v /\
    EvaluationID (Metadata (event v)) = id_ e /\ SessionID (Metadata (event v)) = sessionID e.

Lemma bump_grows e e1 event :
  event_of e event -> version e1 = version e -> domainEvents e1 = domainEvents e ->
  grows e (bump event e1).
Proof.
  intros Hev Hv Hd. destruct (Hev (u64_succ (version e))) as (Hh & Hver & Hid & Hs).
  exists [event (u64_succ (version e))]. cbn. rewrite Hv, Hd, Hh, Hver.
  split_and!; [done..|]. by constructor.
Qed.

Create HintDb evaluation.
#[export] Hint Resolve frame_refl grows_refl step_refl : evaluation.
#[export] Hint Resolve u64_succ_range : evaluation.

Ltac state_absurd :=
  match goal with
  | H : state ?e = _, H' : state ?e = _ |- _ => rewrite H in H'; discriminate H'
  | H : state ?e = _, H' : IsTerminal (state ?e) = _ |- _ => rewrite H in H'; discriminate H'
  end.

Lemma running_shape e :
  inv e -> state e = StateRunning ->
  exists s, startedAt e = Some s /\ instant (createdAt e) <= instant s /\
    completedAt e = None /\ cancelledAt e = None /\ expiredAt e = None /\
    result e = ResultUnknown /\ reasonCodes e = [].
Proof. intros Hi Hr. destruct (i_shape e Hi); try state_absurd. eauto 10. Qed.

Lemma running_nonterminal e : state e = StateRunning -> IsTerminal (state e) = false.
Proof. by intros ->. Qed.

(** The two states a command may still act on. *)
Lemma nonterminal_shape e :
  inv e -> IsTerminal (state e) = false ->
  (state e = StateCreated \/ state e = StateRunning) /\
  completedAt e = None /\ cancelledAt e = None /\ expiredAt e = None /\
  result e = ResultUnknown /\ reasonCodes e = [].
Proof. intros Hi Hr. destruct (i_shape e Hi); try state_absurd; split_and!; auto. Qed.

(** Solve the side condition on the event of an update. *)
Ltac solve_event := intros ?; split_and!; reflexivity.

(** The shape only depends on the lifecycle fields and the rules. *)
Lemma state_shape_ext e e1 :
  state_shape e -> state e1 = state e -> createdAt e1 = createdAt e -> startedAt e1 = startedAt e ->
  completedAt e1 = completedAt e -> cancelledAt e1 = cancelledAt e -> expiredAt e1 = expiredAt e ->
  result e1 = result e -> reasonCodes e1 = reasonCodes e -> ruleOutcomes e1 = ruleOutcomes e ->
  requiredRuleIDs e1 = requiredRuleIDs e -> checkpoints e1 = checkpoints e ->
  (trimmed (cancellationReason e) -> trimmed (cancellationReason e1)) -> state_shape e1.
Proof.
  intros Hs H1 H2 H3 H4 H5 H6 H7 H8 H9 H10 H11 H12.
  assert (RequiredRulesComplete e1 = RequiredRulesComplete e) as H13
    by (unfold RequiredRulesComplete, MissingRequiredRuleIDs; by rewrite H9, H10).
  destruct Hs; [eapply ShapeCreated|eapply ShapeRunning|eapply ShapeCompleted
    |eapply ShapeCancelled|eapply ShapeExpired];
    rewrite ?H1, ?H2, ?H3, ?H4, ?H5, ?H6, ?H7, ?H8, ?H9, ?H11, ?H13; eauto.
Qed.

(** An update of a live aggregate that keeps its identity, its bindings and
    its state, and does not lose checkpoints or history. *)
Lemma live_step e e1 event :
  inv e -> IsTerminal (state e) = false -> event_of e event ->
  version e1 = version e -> domainEvents e1 = domainEvents e ->
  id_ e1 = id_ e -> sessionID e1 = sessionID e -> createdAt e1 = createdAt e ->
  state e1 = state e -> cancellationReason e1 = cancellationReason e ->
  startedAt e1 = startedAt e -> checkpoints e ⊆ checkpoints e1 -> history e1 = history e ->
  (forall b, evidenceBinding e = Some b -> evidenceBinding e1 = Some b) ->
  (forall b, policyBinding e = Some b -> policyBinding e1 = Some b) ->
  inv e1 -> step e (bump event e1).
Proof.
  intros Hi Ht Hev Hv Hd Hid Hs Hc Hst Hr Hsa Hcp Hh He Hp Hi1. split.
  - pose proof (i_history e1 Hi1) as Hh1. pose proof (i_shape e1 Hi1) as Hsh.
    destruct Hi1. split; cbn; auto with evaluation.
    + by apply (state_shape_ext e1).
    + eapply Forall_impl; [exact Hh1|]. by intros h [].
  - split; cbn; try done.
    + by rewrite Hst.
    + by rewrite Ht.
    + by rewrite Hr.
    + by rewrite Hsa.
    + by rewrite Hh.
  - by apply bump_grows.
Qed.

Lemma outcomes_step e l event :
  inv e -> state e = StateRunning -> outcomes_ok (startedAt e) l -> event_of e event ->
  step e (bump event (e <| ruleOutcomes := l |>)).
Proof.
  intros Hi Hr Hl Hev. apply live_step; auto using running_nonterminal.
  destruct (running_shape e Hi Hr) as (s & ? & ? & ? & ? & ? & ? & ?).
  pose proof (i_history e Hi) as Hh. destruct Hi.
  split; cbn; auto; [by apply ShapeRunning with s|].
  eapply Forall_impl; [exact Hh|]. by intros h [].
Qed.

(** ** Each method takes a step *)

Lemma beforeStart_false t e s :
  startedAt e = Some s -> beforeStart t e = false -> instant s <= instant t.
Proof. unfold beforeStart, Before. intros ->. lia. Qed.

Lemma outcomes_ok_nil started : outcomes_ok started [].
Proof. split; constructor. Qed.

Lemma outcomes_ok_app started l k :
  outcomes_ok started l -> outcomes_ok started k ->
  (forall o o', o ∈ l -> o' ∈ k -> RuleID o <> RuleID o') -> outcomes_ok started (l ++ k).
Proof.
  intros [N1 D1 T1] [N2 D2 T2] Hd. split; [by apply Forall_app..| |by apply Forall_app].
  rewrite fmap_app. apply NoDup_app. split_and!; [done| |done].
  intros x (o & -> & Ho)%list_elem_of_fmap (o' & He & Ho')%list_elem_of_fmap. by eapply Hd.
Qed.

(** Removing outcomes keeps the rest well formed. *)
Lemma outcomes_ok_sublist started l k :
  outcomes_ok started l -> k `sublist_of` l -> outcomes_ok started k.
Proof.
  intros [N D T] Hs. split.
  - by eapply sublist_forall.
  - eapply sublist_NoDup; [exact D|]. by apply sublist_fmap.
  - by eapply sublist_forall.
Qed.

Lemma ruleOutcomeIndex_none id e :
  ruleOutcomeIndex id e = None -> forall o, o ∈ ruleOutcomes e -> RuleID o <> id.
Proof.
  unfold ruleOutcomeIndex. destruct (list_find _ _) as [[]|] eqn:H; [done|].
  intros _. apply list_find_None in H. by rewrite Forall_forall in H.
Qed.

Lemma RuleOutcomeByID_none id e :
  RuleOutcomeByID id e = None -> forall o, o ∈ ruleOutcomes e -> RuleID o <> TrimSpace id.
Proof.
  unfold RuleOutcomeByID. destruct (ruleOutcomeIndex _ e) as [i|] eqn:H.
  - unfold ruleOutcomeIndex in H. apply fmap_Some in H as ([i' o] & Hf & ->).
    apply list_find_Some in Hf as (Hl & _). cbn. by rewrite Hl.
  - intros _. by apply ruleOutcomeIndex_none.
Qed.

Lemma RuleOutcomeByID_some id e o :
  RuleOutcomeByID id e = Some o -> o ∈ ruleOutcomes e /\ RuleID o = TrimSpace id.
Proof.
  unfold RuleOutcomeByID. destruct (ruleOutcomeIndex _ e) as [i|] eqn:H; [|done].
  unfold ruleOutcomeIndex in H. apply fmap_Some in H as ([i' o'] & Hf & ->). cbn.
  apply list_find_Some in Hf as (Hl & Hid & _). rewrite Hl. intros [= <-].
  split; [by eapply list_elem_of_lookup_2|done].
Qed.

(** One early return: the aggregate is unchanged there. *)
Ltac early H :=
  match goal with
  | |- step _ (fst (if ?b then _ else _)) => destruct b eqn:H; [by apply step_refl|]
  end.

Lemma neq_running_false e : (state e != StateRunning) = false -> state e = StateRunning.
Proof. by intros H%negb_false_iff%bool_decide_eq_true_1. Qed.

Ltac early_running H := early H; apply neq_running_false in H.

Lemma outcome_time e o :
  inv e -> state e = StateRunning -> beforeStart (EvaluatedAt o) e = false ->
  exists s, startedAt e = Some s /\ instant s <= instant (EvaluatedAt o).
Proof.
  intros Hi Hr Hb. destruct (running_shape e Hi Hr) as (s & Hs & _).
  exists s. split; [done|]. by eapply beforeStart_false.
Qed.

Lemma outcomes_ok_singleton e o :
  inv e -> state e = StateRunning -> outcome_normal o -> beforeStart (EvaluatedAt o) e = false ->
  outcomes_ok (startedAt e) [o].
Proof.
  intros Hi Hr Ho Hb. split.
  - by constructor.
  - apply NoDup_singleton.
  - constructor; [by eapply outcome_time|constructor].
Qed.

Lemma appendOutcome_step e o :
  inv e -> state e = StateRunning -> outcome_normal o -> beforeStart (EvaluatedAt o) e = false ->
  (forall o', o' ∈ ruleOutcomes e -> RuleID o' <> RuleID o) -> step e (appendOutcome o e).
Proof.
  intros Hi Hr Ho Hb Hn. apply outcomes_step; [done..| |solve_event].
  apply outcomes_ok_app; [apply Hi|by apply outcomes_ok_singleton|].
  intros x y Hx ->%list_elem_of_singleton. by apply Hn.
Qed.

Lemma RuleOutcomeByID_none_normal o e :
  outcome_normal o -> RuleOutcomeByID (RuleID o) e = None ->
  forall o', o' ∈ ruleOutcomes e -> RuleID o' <> RuleID o.
Proof.
  intros Ho%outcome_normal_facts Hn o' Ho'. rewrite <- (of_id _ Ho). by eapply RuleOutcomeByID_none.
Qed.

Lemma RecordRuleOutcome_step o e : inv e -> step e (fst (RecordRuleOutcome o e)).
Proof.
  intros Hi. unfold RecordRuleOutcome. early_running Hr.
  destruct (normalizeRuleOutcome o) as [n|] eqn:Hn; [|by apply step_refl].
  apply normalizeRuleOutcome_idemp in Hn. early Hb. early Hu.
  destruct (RuleOutcomeByID _ e) as [x|] eqn:Hx.
  - destruct (ruleOutcomesEqual _ _); by apply step_refl.
  - apply appendOutcome_step; try done. by eapply RuleOutcomeByID_none_normal.
Qed.

Lemma RecordRuleOutcomes_step os e : inv e -> step e (fst (RecordRuleOutcomes os e)).
Proof. apply afor_step. intros x e' _. apply RecordRuleOutcome_step. Qed.

(** *** Batches *)

(** What the validated batch is: outcomes ready to be appended or already
    recorded, one per rule. *)
Record batch_ok (e : EvaluationAggregate) (seen : gmap string RuleOutcome) (l : list RuleOutcome)
    : Prop := {
  ba_normal : Forall outcome_normal l;
  ba_times : Forall (fun o => beforeStart (EvaluatedAt o) e = false) l;
  ba_required : Forall (fun o => notRequired (RuleID o) e = false) l;
  ba_nodup : NoDup (RuleID <$> l);
  ba_fresh : Forall (fun o => seen !! RuleID o = None) l;
  ba_recorded : Forall (fun o => forall x, RuleOutcomeByID (RuleID o) e = Some x ->
                                   ruleOutcomesEqual x o = true) l
}.

Lemma batch_ok_nil e seen : batch_ok e seen [].
Proof. split; constructor. Qed.

Lemma validateRuleOutcomeBatch_loop_ok e l : forall seen out,
  validateRuleOutcomeBatch_loop e seen l = Ok out -> batch_ok e seen out.
Proof.
  induction l as [|o l IH]; intros seen out; cbn [validateRuleOutcomeBatch_loop].
  { intros [= <-]. apply batch_ok_nil. }
  intros (v & Hv & H)%obind_ok. apply normalizeRuleOutcome_idemp in Hv.
  destruct (beforeStart _ e) eqn:Hb; [done|]. destruct (notRequired _ e) eqn:Hu; [done|].
  destruct (seen !! RuleID v) as [p|] eqn:Hp.
  { destruct (ruleOutcomesEqual _ _); [by apply IH|done]. }
  destruct (match RuleOutcomeByID _ e with Some _ => _ | None => _ end) eqn:Hx; [done|].
  apply obind_ok in H as (out' & Hout & [= <-]). apply IH in Hout as [].
  split; try (constructor; done).
  - cbn. constructor; [|done]. intros (y & Hy & Hin)%list_elem_of_fmap.
    rewrite Forall_forall in ba_fresh0. specialize (ba_fresh0 y Hin).
    rewrite <- Hy in ba_fresh0. by rewrite lookup_insert_eq in ba_fresh0.
  - constructor; [done|]. eapply Forall_impl; [exact ba_fresh0|]. intros y Hy.
    by apply lookup_insert_None in Hy as [? _].
  - constructor; [|done]. intros x Hx'. rewrite Hx' in Hx. by apply negb_false_iff.
Qed.

Lemma batch_ok_permutation e seen l k : l ≡ₚ k -> batch_ok e seen l -> batch_ok e seen k.
Proof. intros Hp []. by split; rewrite <- ?Hp. Qed.

Lemma RuleOutcomeByID_iff e id o :
  NoDup (RuleID <$> ruleOutcomes e) ->
  RuleOutcomeByID id e = Some o <-> o ∈ ruleOutcomes e /\ RuleID o = TrimSpace id.
Proof.
  intros Hn. split; [apply RuleOutcomeByID_some|]. intros [Ho Hid].
  destruct (RuleOutcomeByID id e) as [x|] eqn:Hx.
  - f_equal. apply RuleOutcomeByID_some in Hx as [Hx Hxid].
    eapply nodup_fmap_inj; [exact Hn|done..|congruence].
  - by destruct (RuleOutcomeByID_none id e Hx o Ho).
Qed.

(** Looking up a rule is not affected by an appended outcome of another. *)
Lemma RuleOutcomeByID_append e o id :
  NoDup (RuleID <$> ruleOutcomes e) -> NoDup (RuleID <$> ruleOutcomes (appendOutcome o e)) ->
  RuleID o <> TrimSpace id -> RuleOutcomeByID id (appendOutcome o e) = RuleOutcomeByID id e.
Proof.
  intros Hn Hn' Hid. apply option_eq. intros x. rewrite !RuleOutcomeByID_iff by done.
  cbn. rewrite elem_of_app, list_elem_of_singleton. split; [intros [[Hx| ->] He]|intros [Hx He]]; tauto.
Qed.

(** The body of the loop of [RecordRuleOutcomesAtomic]. *)
Abbreviation recordNew := (fun outcome e =>
  if alreadyRecorded outcome e then done_ e else update (appendOutcome outcome) e).

Lemma batch_ok_cons e seen o l :
  batch_ok e seen (o :: l) ->
  outcome_normal o /\ beforeStart (EvaluatedAt o) e = false /\ batch_ok e seen l /\
  (forall x, RuleOutcomeByID (RuleID o) e = Some x -> ruleOutcomesEqual x o = true) /\
  (forall o', o' ∈ l -> RuleID o' <> RuleID o).
Proof.
  intros [N T R D F X]. apply Forall_cons in N as [N1 N], T as [T1 T], R as [R1 R], F as [F1 F], X as [X1 X].
  apply NoDup_cons in D as [D1 D]. split_and!; try done.
  intros o' Ho' He. apply D1. rewrite <- He. by apply list_elem_of_fmap_2.
Qed.

Lemma alreadyRecorded_append e o o' :
  inv e -> inv (appendOutcome o e) -> outcome_normal o' -> RuleID o' <> RuleID o ->
  RuleOutcomeByID (RuleID o') (appendOutcome o e) = RuleOutcomeByID (RuleID o') e.
Proof.
  intros Hi Hi' Ho'%outcome_normal_facts Hne.
  apply RuleOutcomeByID_append; [apply Hi|apply Hi'|]. rewrite (of_id _ Ho'). congruence.
Qed.

Lemma batch_ok_append e seen o l :
  inv e -> inv (appendOutcome o e) -> (forall o', o' ∈ l -> RuleID o' <> RuleID o) ->
  batch_ok e seen l -> batch_ok (appendOutcome o e) seen l.
Proof.
  intros Hi Hi' Hne [N T R D F X]. split; try done.
  rewrite Forall_forall in N, X |- *. intros o' Ho' x.
  rewrite alreadyRecorded_append by auto. by apply X.
Qed.

(** The loop appends exactly the outcomes not recorded yet. *)
Lemma recordNew_loop l : forall e seen,
  inv e -> state e = StateRunning -> batch_ok e seen l ->
  step e (fst (afor recordNew l e)) /\ snd (afor recordNew l e) = Ok tt /\
  ruleOutcomes (fst (afor recordNew l e)) =
    ruleOutcomes e ++ filter (fun o => alreadyRecorded o e = false) l.
Proof.
  induction l as [|o l IH]; intros e seen Hi Hr Hb.
  { cbn. rewrite app_nil_r. split_and!; [by apply step_refl|done..]. }
  apply batch_ok_cons in Hb as (Ho & Ht & Hb & Hx & Hne).
  cbn [afor]. unfold abind. rewrite filter_cons.
  destruct (alreadyRecorded o e) eqn:Ha; cbn [done_ update aret].
  - rewrite decide_False by done. by apply (IH e seen).
  - rewrite decide_True by done.
    assert (forall o', o' ∈ ruleOutcomes e -> RuleID o' <> RuleID o) as Hnew.
    { apply RuleOutcomeByID_none_normal; [done|]. unfold alreadyRecorded in Ha.
      destruct (RuleOutcomeByID (RuleID o) e) as [x|]; [|done]. by rewrite Hx in Ha. }
    pose proof (appendOutcome_step e o Hi Hr Ho Ht Hnew) as Hs.
    destruct (IH (appendOutcome o e) seen) as (Hs' & Hok & Hl);
      [apply Hs|done|apply batch_ok_append; try done; apply Hs|].
    split_and!; [by eapply step_trans|done|]. rewrite Hl. cbn. rewrite <- app_assoc. f_equal. cbn.
    f_equal. apply filter_ext_elem. intros o' Ho'.
    unfold alreadyRecorded. rewrite alreadyRecorded_append; try done; [apply Hs| |by apply Hne].
    apply ba_normal in Hb. rewrite Forall_forall in Hb. by apply Hb.
Qed.
