(* ===== verification/EvaluationRules.v ===== *)
(** * Rule outcomes of an evaluation

    The recording, replacing and removing methods of [rules.go] and
    [rules_advanced.go]: each takes a [step], and what it does to the list of
    outcomes. *)

From Stdlib Require Import Ascii String.
From S2P Require Import Prelude GoTime GoString Uuid Evaluation EvaluationLifecycle.
Import evaluation.

(** ** Recording *)

Lemma validateRuleOutcomeBatch_ok l e out :
  validateRuleOutcomeBatch l e = Ok out -> batch_ok e ∅ out.
Proof.
  unfold validateRuleOutcomeBatch. intros (k & Hk & [= <-])%obind_ok.
  apply validateRuleOutcomeBatch_loop_ok in Hk. eapply batch_ok_permutation; [|done].
  symmetry. apply merge_sort_Permutation.
Qed.

Lemma RecordRuleOutcomesAtomic_step os e : inv e -> step e (fst (RecordRuleOutcomesAtomic os e)).
Proof.
  intros Hi. unfold RecordRuleOutcomesAtomic. early_running Hr.
  destruct (validateRuleOutcomeBatch os e) as [out|] eqn:Hv; [|by apply step_refl].
  apply validateRuleOutcomeBatch_ok in Hv. by eapply recordNew_loop.
Qed.

Lemma batch_ok_outcomes e seen l :
  inv e -> state e = StateRunning -> batch_ok e seen l -> outcomes_ok (startedAt e) l.
Proof.
  intros Hi Hr [N T R D F X]. split; [done..|]. eapply Forall_impl; [exact T|].
  intros o Ho. by apply outcome_time.
Qed.

Lemma alreadyRecorded_false_fresh e seen l o :
  batch_ok e seen l -> o ∈ l -> alreadyRecorded o e = false ->
  forall o', o' ∈ ruleOutcomes e -> RuleID o' <> RuleID o.
Proof.
  intros [N _ _ _ _ X] Ho Ha. rewrite Forall_forall in N, X.
  apply RuleOutcomeByID_none_normal; [by apply N|]. unfold alreadyRecorded in Ha.
  destruct (RuleOutcomeByID _ e) as [x|] eqn:Hx; [|done]. by rewrite (X o Ho x) in Ha.
Qed.

Lemma RecordRuleOutcomeBatch_step os at_ e : inv e -> step e (fst (RecordRuleOutcomeBatch os at_ e)).
Proof.
  intros Hi. unfold RecordRuleOutcomeBatch. early_running Hr. early H1. early H2. early H3.
  destruct (validateRuleOutcomeBatch os e) as [out|] eqn:Hv; [|by apply step_refl].
  apply validateRuleOutcomeBatch_ok in Hv. early H4.
  apply outcomes_step; [done..| |solve_event]. apply outcomes_ok_app.
  - apply Hi.
  - eapply outcomes_ok_sublist; [by eapply batch_ok_outcomes|apply sublist_filter].
  - intros o o' Ho [Ha Ho']%list_elem_of_filter. by eapply alreadyRecorded_false_fresh.
Qed.

(** ** Looking up a rule *)

Definition lookup_rule (id : string) (l : list RuleOutcome) : option RuleOutcome :=
  snd <$> list_find (fun o => RuleID o = id) l.

Arguments lookup_rule : simpl never.

Lemma lookup_rule_cons id o l :
  lookup_rule id (o :: l) = if decide (RuleID o = id) then Some o else lookup_rule id l.
Proof.
  unfold lookup_rule. cbn. case_decide; [done|]. by destruct (list_find _ l) as [[]|].
Qed.

Lemma lookup_rule_some id l o : lookup_rule id l = Some o -> o ∈ l /\ RuleID o = id.
Proof.
  unfold lookup_rule. intros ([i x] & Hf & ->)%fmap_Some. apply list_find_Some in Hf as (Hl & Hid & _).
  split; [by eapply list_elem_of_lookup_2|done].
Qed.

Lemma lookup_rule_none id l : lookup_rule id l = None <-> forall o, o ∈ l -> RuleID o <> id.
Proof.
  unfold lookup_rule. rewrite fmap_None, list_find_None, Forall_forall. done.
Qed.

Lemma lookup_rule_iff id l o :
  NoDup (RuleID <$> l) -> lookup_rule id l = Some o <-> o ∈ l /\ RuleID o = id.
Proof.
  intros Hn. split; [apply lookup_rule_some|]. intros [Ho Hid].
  destruct (lookup_rule id l) as [x|] eqn:Hx.
  - apply lookup_rule_some in Hx as [Hx Hxid]. f_equal.
    eapply nodup_fmap_inj; [exact Hn|done..|congruence].
  - by destruct (proj1 (lookup_rule_none id l) Hx o Ho).
Qed.

Lemma list_find_lookup_rule id l i o :
  list_find (fun o => RuleID o = id) l = Some (i, o) -> lookup_rule id l = Some o.
Proof. unfold lookup_rule. by intros ->. Qed.

Lemma RuleOutcomeByID_lookup id e :
  RuleOutcomeByID id e = lookup_rule (TrimSpace id) (ruleOutcomes e).
Proof.
  unfold RuleOutcomeByID, ruleOutcomeIndex, lookup_rule.
  destruct (list_find _ _) as [[i o]|] eqn:Hf; [|done]. cbn.
  by apply list_find_Some in Hf as (-> & _).
Qed.

Lemma inv_outcome_normal e o : inv e -> o ∈ ruleOutcomes e -> outcome_normal o.
Proof. intros Hi Ho. pose proof (oo_normal _ _ (i_outcomes e Hi)) as N. rewrite Forall_forall in N. auto. Qed.

(** ** Replacing *)

Lemma outcomes_ok_set started l i p n :
  outcomes_ok started l -> l !! i = Some p -> RuleID p = RuleID n -> outcome_normal n ->
  (exists s, started = Some s /\ instant s <= instant (EvaluatedAt n)) ->
  outcomes_ok started (<[i := n]> l).
Proof.
  intros [N D T] Hp Hid Hn Ht. split.
  - by apply Forall_insert.
  - rewrite list_fmap_insert. rewrite list_insert_id; [done|].
    by rewrite list_lookup_fmap, Hp, <- Hid.
  - by apply Forall_insert.
Qed.

Lemma ReplaceRuleOutcome_step o at_ e : inv e -> step e (fst (ReplaceRuleOutcome o at_ e)).
Proof.
  intros Hi. unfold ReplaceRuleOutcome. early_running Hr. early H1.
  destruct (normalizeRuleOutcome o) as [n|] eqn:Hn; [|by apply step_refl].
  apply normalizeRuleOutcome_idemp in Hn. early H2. early H3.
  destruct (list_find _ _) as [[i p]|] eqn:Hf; [|by apply step_refl].
  early H4. early H5. apply list_find_Some in Hf as (Hp & Hid & _).
  apply outcomes_step; [done..| |solve_event].
  eapply outcomes_ok_set; [apply Hi|done..|]. apply outcome_time; [done..|].
  by apply orb_false_iff in H2 as [[_ ?]%orb_false_iff _].
Qed.

(** A replacement ready to be stored. *)
Record replacement_ok (e : EvaluationAggregate) (id : string) (v : RuleOutcome) : Prop := {
  ro_id : RuleID v = id;
  ro_normal : outcome_normal v;
  ro_time : beforeStart (EvaluatedAt v) e = false;
  ro_current : exists current, lookup_rule id (ruleOutcomes e) = Some current /\
                 Before (EvaluatedAt v) (EvaluatedAt current) = false
}.

Lemma collectReplacements_ok e at_ rs : forall byID ids byID' ids',
  collectReplacements e at_ byID ids rs = Ok (byID', ids') ->
  map_Forall (replacement_ok e) byID -> NoDup ids -> (forall id, id ∈ ids <-> is_Some (byID !! id)) ->
  map_Forall (replacement_ok e) byID' /\ NoDup ids' /\
  (forall id, id ∈ ids' <-> is_Some (byID' !! id)) /\ byID ⊆ byID' /\
  (forall id v, byID' !! id = Some v ->
     byID !! id = Some v \/ exists item, item ∈ rs /\ normalizeRuleOutcome (Replacement item) = Ok v) /\
  (forall item, item ∈ rs ->
     exists v, normalizeRuleOutcome (Replacement item) = Ok v /\ byID' !! RuleID v = Some v).
Proof.
  induction rs as [|item rs IH]; intros byID ids byID' ids'; cbn [collectReplacements].
  { intros [= <- <-] ? ? ?. split_and!; auto. by intros item ?%elem_of_nil. }
  destruct (After (UTC _) at_); [done|].
  intros (v & Hv & H)%obind_ok Hall Hnd Hids. pose proof (normalizeRuleOutcome_idemp _ _ Hv) as Hn.
  destruct (_ || beforeStart _ e) eqn:Hb; [done|]. destruct (notRequired _ e); [done|].
  destruct (list_find _ _) as [[i cur]|] eqn:Hf; [|done]. apply list_find_lookup_rule in Hf.
  destruct (Before _ _) eqn:Hold; [done|]. apply orb_false_iff in Hb as [_ Hb].
  assert (replacement_ok e (RuleID v) v) as Hrv by (split; eauto).
  assert (map_Forall (replacement_ok e) (<[RuleID v:=v]> byID)) as Hall'
    by by apply map_Forall_insert_2.
  assert (exists ids1, collectReplacements e at_ (<[RuleID v:=v]> byID) ids1 rs = Ok (byID', ids') /\
    NoDup ids1 /\ (forall id, id ∈ ids1 <-> is_Some (<[RuleID v:=v]> byID !! id)) /\
    (byID !! RuleID v = None \/ byID !! RuleID v = Some v)) as (ids1 & H' & Hnd' & Hids' & Hprev).
  { destruct (byID !! RuleID v) as [old|] eqn:Hbv.
    - destruct (ruleOutcomesEqual old v) eqn:Heq; cbn [negb] in H; [|done].
      apply ruleOutcomesEqual_normal in Heq; [|by apply (Hall _ _ Hbv)|done]. subst old.
      exists ids. rewrite insert_id in * by done. split_and!; auto.
    - exists (ids ++ [RuleID v]). split_and!; auto.
      + apply NoDup_app. split_and!; [done| |apply NoDup_singleton].
        intros x [y Hy]%Hids ->%list_elem_of_singleton. congruence.
      + intros id. rewrite elem_of_app, list_elem_of_singleton, Hids, lookup_insert_is_Some'.
        split; intros [?|?]; auto. }
  apply IH in H' as (A & B & C & D & E & F); [|done..].
  assert (byID' !! RuleID v = Some v) as Hvv by (eapply lookup_weaken; [apply lookup_insert_eq|done]).
  split_and!; auto.
  - etrans; [|exact D]. destruct Hprev as [Hp|Hp]; [by apply insert_subseteq|by rewrite insert_id].
  - intros id w Hw. destruct (E id w Hw) as [[[Hid <-]|[_ ?]]%lookup_insert_Some|(it & ? & ?)];
      [right; exists item; split; [left|done]|by left|right; exists it; split; [by right|done]].
  - intros it [->|Hit]%elem_of_cons; [by exists v|by apply F].
Qed.

Lemma setOutcome_map l o :
  NoDup (RuleID <$> l) ->
  setOutcome l o = (fun x => if decide (RuleID x = RuleID o) then o else x) <$> l.
Proof.
  intros Hn. unfold setOutcome. apply list_eq. intros j. rewrite list_lookup_fmap.
  destruct (list_find _ l) as [[i p]|] eqn:Hf.
  - apply list_find_Some in Hf as (Hp & Hid & _). destruct (decide (i = j)) as [->|Hij].
    + rewrite list_lookup_insert_eq by by eapply lookup_lt_Some. rewrite Hp. cbn. by rewrite decide_True.
    + rewrite list_lookup_insert_ne by done. destruct (l !! j) as [x|] eqn:Hx; [|done]. cbn.
      rewrite decide_False; [done|]. intros He. apply Hij.
      eapply NoDup_lookup; [exact Hn|by rewrite list_lookup_fmap, Hp|].
      rewrite list_lookup_fmap, Hx. cbn. congruence.
  - apply list_find_None in Hf. rewrite Forall_forall in Hf.
    destruct (l !! j) as [x|] eqn:Hx; [|done]. cbn. rewrite decide_False; [done|].
    apply Hf. by eapply list_elem_of_lookup_2.
Qed.

Lemma setOutcome_ids l o : NoDup (RuleID <$> l) -> RuleID <$> setOutcome l o = RuleID <$> l.
Proof.
  intros Hn. rewrite setOutcome_map, <- list_fmap_compose by done. apply list_fmap_ext.
  intros i x _. cbn. by case_decide.
Qed.

(** Storing replacements of distinct rules one by one maps the list. *)
Lemma fold_setOutcome rs : forall l,
  NoDup (RuleID <$> l) -> NoDup (RuleID <$> rs) ->
  fold_left setOutcome rs l = (fun x => default x (lookup_rule (RuleID x) rs)) <$> l.
Proof.
  induction rs as [|r rs IH]; intros l Hl Hrs; cbn [fold_left].
  { rewrite <- (list_fmap_id l) at 1. by apply list_fmap_ext. }
  rewrite fmap_cons in Hrs. apply NoDup_cons in Hrs as [Hr Hrs].
  rewrite IH; [|by rewrite setOutcome_ids|done].
  rewrite setOutcome_map, <- list_fmap_compose by done. apply list_fmap_ext. intros i x _. cbn.
  rewrite lookup_rule_cons. destruct (decide (RuleID x = RuleID r)) as [He|He].
  - rewrite decide_True by done. cbn.
    rewrite (proj2 (lookup_rule_none (RuleID r) rs)); [done|]. intros o Ho Ho'.
    apply Hr. rewrite <- Ho'. by apply list_elem_of_fmap_2.
  - by rewrite decide_False by done.
Qed.

Lemma pendingReplacements_elem e byID ids v :
  map_Forall (replacement_ok e) byID ->
  v ∈ snd <$> pendingReplacements e byID ids <->
  RuleID v ∈ ids /\ byID !! RuleID v = Some v /\
  exists cur, lookup_rule (RuleID v) (ruleOutcomes e) = Some cur /\ ruleOutcomesEqual cur v = false.
Proof.
  intros Hall. unfold pendingReplacements. rewrite list_elem_of_fmap. split.
  - intros ([cur w] & -> & (id & Hid & H)%list_elem_of_omap). cbn.
    destruct (list_find _ _) as [[i c]|] eqn:Hf; [|done]. apply list_find_lookup_rule in Hf.
    destruct (byID !! id) as [r|] eqn:Hr; [|done]. destruct (ruleOutcomesEqual c r) eqn:He; [done|].
    injection H as <- <-. pose proof (ro_id _ _ _ (Hall _ _ Hr)) as <-. eauto 10.
  - intros (Hid & Hv & cur & Hc & He). exists (cur, v). split; [done|].
    apply list_elem_of_omap. exists (RuleID v). split; [done|].
    unfold lookup_rule in Hc. apply fmap_Some in Hc as ([i c] & -> & ->). cbn in *. by rewrite Hv, He.
Qed.

Lemma pendingReplacements_nodup e byID ids :
  map_Forall (replacement_ok e) byID -> NoDup ids ->
  NoDup (RuleID <$> (snd <$> pendingReplacements e byID ids)).
Proof.
  intros Hall Hn.
  assert (RuleID <$> (snd <$> pendingReplacements e byID ids) `sublist_of` ids) as Hs;
    [|by eapply sublist_NoDup].
  clear Hn. unfold pendingReplacements. induction ids as [|id ids IH]; [constructor|]. cbn.
  destruct (list_find _ _) as [[i c]|]; [|by apply sublist_cons].
  destruct (byID !! id) as [r|] eqn:Hr; [|by apply sublist_cons].
  destruct (ruleOutcomesEqual c r); [by apply sublist_cons|]. cbn.
  rewrite (ro_id _ _ _ (Hall _ _ Hr)). by apply sublist_skip.
Qed.

(** The outcomes after the replacement: each rule in [byID] has its new one. *)
Lemma pendingReplacements_fold e byID ids :
  inv e -> map_Forall (replacement_ok e) byID -> NoDup ids ->
  (forall id, id ∈ ids <-> is_Some (byID !! id)) ->
  fold_left setOutcome (snd <$> pendingReplacements e byID ids) (ruleOutcomes e) =
  (fun x => default x (byID !! RuleID x)) <$> ruleOutcomes e.
Proof.
  intros Hi Hall Hnd Hids. pose proof (oo_nodup _ _ (i_outcomes e Hi)) as Hn.
  pose proof (pendingReplacements_nodup e byID ids Hall Hnd) as Hpn.
  rewrite fold_setOutcome by done. apply list_fmap_ext. intros i x Hx.
  apply list_elem_of_lookup_2 in Hx.
  destruct (byID !! RuleID x) as [v|] eqn:Hv.
  - pose proof (Hall _ _ Hv) as Hr. pose proof (ro_id _ _ _ Hr) as Hid.
    assert (lookup_rule (RuleID x) (ruleOutcomes e) = Some x) as Hxx by by apply lookup_rule_iff.
    destruct (ruleOutcomesEqual x v) eqn:He.
    + apply ruleOutcomesEqual_normal in He; [|by eapply inv_outcome_normal|apply Hr].
      subst v. destruct (lookup_rule (RuleID x) (snd <$> _)) as [y|] eqn:Hy; [|done].
      apply lookup_rule_some in Hy as [Hy Hyx]. apply pendingReplacements_elem in Hy as (_ & Hy & _); [|done].
      rewrite Hyx in Hy. cbn. congruence.
    + rewrite (proj2 (lookup_rule_iff (RuleID x) _ v Hpn)); [done|]. split; [|done].
      apply pendingReplacements_elem; [done|]. rewrite Hid. split_and!; eauto.
      apply Hids. by rewrite Hv.
  - rewrite (proj2 (lookup_rule_none _ _)); [done|]. intros o Ho Hox.
    apply pendingReplacements_elem in Ho as (_ & Ho & _); [|done]. rewrite Hox in Ho. congruence.
Qed.

Lemma replaced_ok e (byID : gmap string RuleOutcome) :
  inv e -> state e = StateRunning -> map_Forall (replacement_ok e) byID ->
  outcomes_ok (startedAt e) ((fun x => default x (byID !! RuleID x)) <$> ruleOutcomes e).
Proof.
  intros Hi Hr Hall. destruct (i_outcomes e Hi) as [N D T]. split.
  - rewrite Forall_fmap. eapply Forall_impl; [exact N|]. intros x Hx. cbn.
    destruct (byID !! RuleID x) as [v|] eqn:Hv; [|done]. apply (Hall _ _ Hv).
  - rewrite <- list_fmap_compose. erewrite list_fmap_ext; [exact D|]. intros i x _. cbn.
    destruct (byID !! RuleID x) as [v|] eqn:Hv; [|done]. cbn. apply (Hall _ _ Hv).
  - rewrite Forall_fmap. eapply Forall_impl; [exact T|]. intros x Hx. cbn.
    destruct (byID !! RuleID x) as [v|] eqn:Hv; [|done]. apply outcome_time; [done..|].
    apply (Hall _ _ Hv).
Qed.

Lemma collectReplacements_start e at_ rs byID ids :
  collectReplacements e at_ ∅ [] rs = Ok (byID, ids) ->
  map_Forall (replacement_ok e) byID /\ NoDup ids /\ (forall id, id ∈ ids <-> is_Some (byID !! id)) /\
  (forall id v, byID !! id = Some v <->
     RuleID v = id /\ exists item, item ∈ rs /\ normalizeRuleOutcome (Replacement item) = Ok v).
Proof.
  intros H. apply collectReplacements_ok in H as (A & B & C & _ & E & F).
  - split_and!; [done..|]. intros id v. split.
    + intros Hv. split; [by apply (A _ _ Hv)|]. by destruct (E id v Hv) as [?%lookup_empty_Some|?].
    + intros (<- & item & Hit & Hn). destruct (F item Hit) as (w & Hw & ?). rewrite Hn in Hw. by injection Hw as <-.
  - apply map_Forall_empty.
  - constructor.
  - intros id. rewrite lookup_empty. split; [by intros ?%elem_of_nil|by intros []].
Qed.

Lemma sort_strings_elem l id : id ∈ sort_strings l <-> id ∈ l.
Proof. unfold sort_strings. by rewrite merge_sort_Permutation. Qed.

Lemma sort_strings_nodup l : NoDup l -> NoDup (sort_strings l).
Proof. unfold sort_strings. by rewrite merge_sort_Permutation. Qed.

Lemma ReplaceRuleOutcomesAtomic_fold e at_ rs byID ids :
  inv e -> collectReplacements e at_ ∅ [] rs = Ok (byID, ids) ->
  fold_left setOutcome (snd <$> pendingReplacements e byID (sort_strings ids)) (ruleOutcomes e) =
  (fun x => default x (byID !! RuleID x)) <$> ruleOutcomes e.
Proof.
  intros Hi (A & B & C & _)%collectReplacements_start. apply pendingReplacements_fold; auto.
  - by apply sort_strings_nodup.
  - intros id. by rewrite sort_strings_elem.
Qed.

Lemma ReplaceRuleOutcomesAtomic_step rs at_ e : inv e -> step e (fst (ReplaceRuleOutcomesAtomic rs at_ e)).
Proof.
  intros Hi. unfold ReplaceRuleOutcomesAtomic. early_running Hr. early H1. early H2. early H3.
  destruct (collectReplacements _ _ _ _ _) as [[byID ids]|] eqn:Hc; [|by apply step_refl].
  early H4. cbn [update fst]. rewrite (ReplaceRuleOutcomesAtomic_fold _ _ _ _ _ Hi Hc).
  apply outcomes_step; [done..| |solve_event]. apply replaced_ok; [done..|].
  by apply collectReplacements_start in Hc as [? _].
Qed.

(** ** Removing *)

Lemma RemoveRuleOutcome_step id at_ e : inv e -> step e (fst (RemoveRuleOutcome id at_ e)).
Proof.
  intros Hi. unfold RemoveRuleOutcome. early_running Hr. early H1. early H2. early H3.
  destruct (list_find _ _) as [[i o]|]; [|by apply step_refl].
  apply outcomes_step; [done..| |solve_event].
  eapply outcomes_ok_sublist; [apply Hi|apply sublist_take_drop].
Qed.

Lemma RemoveRuleOutcomeIfPresent_step id at_ e :
  inv e -> step e (fst (RemoveRuleOutcomeIfPresent id at_ e)).
Proof.
  intros Hi. unfold RemoveRuleOutcomeIfPresent. early H1. early H2. by apply RemoveRuleOutcome_step.
Qed.

Lemma RemoveRuleOutcomesAtomic_step ids at_ e :
  inv e -> step e (fst (RemoveRuleOutcomesAtomic ids at_ e)).
Proof.
  intros Hi. unfold RemoveRuleOutcomesAtomic. early_running Hr. early H1. early H2. early H3.
  destruct (normalizeRuleIDsForRemoval ids) as [l|]; [|by apply step_refl].
  destruct (collectRemoved e l) as [removed|]; [|by apply step_refl].
  apply outcomes_step; [done..| |solve_event].
  eapply outcomes_ok_sublist; [apply Hi|apply sublist_filter].
Qed.

Lemma RemoveRuleOutcomesIfPresent_step ids at_ e :
  inv e -> step e (fst (RemoveRuleOutcomesIfPresent ids at_ e)).
Proof.
  intros Hi. unfold RemoveRuleOutcomesIfPresent. early H1.
  destruct (normalizeRuleIDsForRemoval ids) as [l|]; [|by apply step_refl].
  early H2. by apply RemoveRuleOutcomesAtomic_step.
Qed.

Lemma ResetRuleOutcomes_step at_ e : inv e -> step e (fst (ResetRuleOutcomes at_ e)).
Proof.
  intros Hi. unfold ResetRuleOutcomes. early_running Hr. early H1. early H2. early H3.
  apply outcomes_step; [done..|apply outcomes_ok_nil|solve_event].
Qed.

Lemma ResetRuleOutcomesAtVersion_step v at_ e :
  inv e -> step e (fst (ResetRuleOutcomesAtVersion v at_ e)).
Proof. intros Hi. unfold ResetRuleOutcomesAtVersion. early H1. by apply ResetRuleOutcomes_step. Qed.

#[export] Hint Resolve RecordRuleOutcome_step RecordRuleOutcomes_step RecordRuleOutcomesAtomic_step
  RecordRuleOutcomeBatch_step ReplaceRuleOutcome_step ReplaceRuleOutcomesAtomic_step
  RemoveRuleOutcome_step RemoveRuleOutcomeIfPresent_step RemoveRuleOutcomesAtomic_step
  RemoveRuleOutcomesIfPresent_step ResetRuleOutcomes_step ResetRuleOutcomesAtVersion_step
  : evaluation.
