(* ===== verification/EvaluationReach.v ===== *)
(** * Every method of an evaluation takes a step

    The lifecycle, binding, checkpoint and history methods, atomic mutation,
    and the induction over commands that gives the invariant and the frame for
    every run. *)

From Stdlib Require Import Ascii String.
From S2P Require Import Prelude GoTime GoString Uuid Evaluation EvaluationLifecycle.
From S2P Require Import EvaluationLifecycle EvaluationRules.
Import evaluation.

(** ** Lifecycle methods *)

(** A transition of a live aggregate: the frame and the events. *)
Lemma transition_step e e1 event :
  inv e -> transition (state e) (state e1) -> event_of e event ->
  version e1 = version e -> domainEvents e1 = domainEvents e ->
  id_ e1 = id_ e -> sessionID e1 = sessionID e -> createdAt e1 = createdAt e ->
  (trimmed (cancellationReason e) -> trimmed (cancellationReason e1)) ->
  (forall s, startedAt e = Some s -> startedAt e1 = Some s) ->
  checkpoints e1 = checkpoints e -> history e1 = history e ->
  evidenceBinding e1 = evidenceBinding e -> policyBinding e1 = policyBinding e ->
  inv (bump event e1) -> step e (bump event e1).
Proof.
  intros Hi Ht Hev Hv Hd Hid Hs Hc Hr Hsa Hcp Hh He Hp Hi1. split; [done| |by apply bump_grows].
  split; cbn; try done.
  - by apply rtc_once.
  - intros Hterm. unfold transition, CanTransitionTo in Ht. unfold IsTerminal in Hterm.
    rewrite !orb_true_iff, !bool_decide_eq_true in Hterm.
    destruct Hterm as [[Hx|Hx]|Hx]; by rewrite Hx in Ht.
  - by rewrite Hcp.
  - by rewrite Hh.
  - by rewrite He.
  - by rewrite Hp.
Qed.

Lemma can_start e : CanTransitionTo (state e) StateRunning = true -> state e = StateCreated.
Proof.
  unfold CanTransitionTo. case_bool_decide; [done|]. by case_bool_decide.
Qed.

Lemma can_complete e : CanTransitionTo (state e) StateCompleted = true -> state e = StateRunning.
Proof.
  unfold CanTransitionTo. case_bool_decide; [done|]. by case_bool_decide.
Qed.

Lemma live_transitions s :
  s = StateCreated \/ s = StateRunning -> transition s StateCancelled /\ transition s StateExpired.
Proof. by intros [-> | ->]. Qed.

Lemma history_ok_frame e e1 l :
  id_ e1 = id_ e -> sessionID e1 = sessionID e -> Forall (history_ok e) l -> Forall (history_ok e1) l.
Proof. intros Hid Hs H. eapply Forall_impl; [exact H|]. intros h []. split; congruence. Qed.

(** Outcomes and checkpoints are empty before the start. *)
Lemma created_empty e :
  inv e -> state e = StateCreated ->
  startedAt e = None /\ ruleOutcomes e = [] /\ checkpoints e = ∅.
Proof. intros Hi Hc. destruct (i_shape e Hi); try state_absurd. done. Qed.

Lemma Start_step at_ e : inv e -> step e (fst (Start at_ e)).
Proof.
  intros Hi. unfold Start. early H1. early H2. apply negb_false_iff, can_start in H1.
  apply orb_false_iff in H2 as [Hz Hb].
  destruct (created_empty e Hi H1) as (Hs & Ho & Hcp).
  destruct (nonterminal_shape e Hi) as (_ & ? & ? & ? & ? & ?); [by rewrite H1|].
  apply transition_step; try done.
  - by rewrite H1.
  - by rewrite Hs.
  - destruct Hi. split; cbn; auto with evaluation.
    + apply ShapeRunning with (UTC at_); cbn; auto. unfold Before in Hb. lia.
    + rewrite Ho. apply outcomes_ok_nil.
    + rewrite Hcp. apply map_Forall_empty.
    + by apply (history_ok_frame e).
Qed.

Lemma completionEvent_of e r nr at_ : event_of e (completionEvent e r nr at_).
Proof. intros v. unfold completionEvent. repeat case_bool_decide; split_and!; reflexivity. Qed.

Lemma completion_reasons r (nr : list ReasonCode) :
  ResultIsValid r = true -> r <> ResultUnknown -> needsReasons r && (nr == []) = false ->
  ((r == ResultVerified) || (r == ResultVerifiedWithException)) && (r == ResultVerified) &&
    (nr != []) = false -> r = ResultVerified <-> nr = [].
Proof.
  unfold ResultIsValid, needsReasons. intros Hv Hu Hn Hc. split.
  - intros ->. rewrite bool_decide_eq_true_2 in Hc by done. cbn in Hc.
    by apply negb_false_iff, bool_decide_eq_true_1 in Hc.
  - intros ->. rewrite (bool_decide_eq_true_2 ([] = [])), andb_true_r in Hn by done.
    rewrite !orb_false_iff, !bool_decide_eq_false in Hn.
    rewrite !orb_true_iff, !bool_decide_eq_true in Hv. tauto.
Qed.

Lemma CompleteAt_step r reasons at_ e : inv e -> step e (fst (CompleteAt r reasons at_ e)).
Proof.
  intros Hi. unfold CompleteAt. early H1. early H2. early H3. early H4.
  apply negb_false_iff, can_complete in H1. apply negb_false_iff in H4.
  destruct (running_shape e Hi H1) as (s & Hs & Hcs & ? & ? & ? & ? & ?).
  rewrite Hs in H2. apply orb_false_iff in H2 as [_ Hb].
  apply orb_false_iff in H3 as [Hv%negb_false_iff Hu%bool_decide_eq_false_1].
  destruct (normalizeReasonCodes reasons) as [nr|] eqn:Hn; [|by apply step_refl].
  apply normalizeReasonCodes_ok in Hn as [Hcodes _]. early Hneed. early Hver.
  apply transition_step; try done.
  - by rewrite H1.
  - apply completionEvent_of.
  - pose proof (completion_reasons _ _ Hv Hu Hneed Hver) as Hiff.
    destruct Hi. split; cbn; auto with evaluation.
    + apply ShapeCompleted with s (UTC at_); cbn; auto; [unfold Before in Hb; lia|].
      by split_and!.
    + by apply (history_ok_frame e).
Qed.

Lemma Cancel_step reason now e : inv e -> step e (fst (Cancel reason now e)).
Proof.
  intros Hi. unfold Cancel. early H1. early H2. apply bool_decide_eq_false_1 in H2.
  destruct (nonterminal_shape e Hi H1) as (Hst & ? & ? & ? & ? & ?).
  assert (trimmed (TrimSpace reason)) as Ht by (split; [apply TrimSpace_idemp|done]).
  apply transition_step; try done.
  - by apply live_transitions.
  - destruct Hi. split; cbn; auto with evaluation.
    + by eapply ShapeCancelled.
    + by apply (history_ok_frame e).
Qed.

Lemma Expire_step at_ e : inv e -> step e (fst (Expire at_ e)).
Proof.
  intros Hi. unfold Expire. early H1. early H2. early H3.
  destruct (nonterminal_shape e Hi H1) as (Hst & ? & ? & ? & ? & ?).
  apply transition_step; try done.
  - by apply live_transitions.
  - destruct Hi. split; cbn; auto with evaluation.
    + apply ShapeExpired with (UTC at_); cbn; auto. unfold Before in H3. cbn in H3. lia.
    + by apply (history_ok_frame e).
Qed.

(** ** Bindings and registration *)

(** An update that leaves outcomes and lifecycle alone keeps the shape. *)
Lemma live_shape e e1 :
  inv e -> IsTerminal (state e) = false -> state e1 = state e -> startedAt e1 = startedAt e ->
  createdAt e1 = createdAt e -> completedAt e1 = completedAt e -> cancelledAt e1 = cancelledAt e ->
  expiredAt e1 = expiredAt e -> result e1 = result e -> reasonCodes e1 = reasonCodes e ->
  (state e = StateCreated -> ruleOutcomes e1 = ruleOutcomes e /\ checkpoints e1 = checkpoints e) ->
  state_shape e1.
Proof.
  intros Hi Ht Hst Hs Hc H1 H2 H3 H4 H5 H6. destruct (i_shape e Hi); try state_absurd.
  - destruct H6 as [Ho Hcp]; [done|]. apply ShapeCreated; congruence.
  - apply ShapeRunning with s; congruence.
Qed.

Lemma BindEvidenceSet_step b e : inv e -> step e (fst (BindEvidenceSet b e)).
Proof.
  intros Hi. unfold BindEvidenceSet. early H1. early H2.
  destruct (normalizeEvidenceBinding b) as [n|] eqn:Hn; [|by apply step_refl].
  apply normalizeEvidenceBinding_idemp in Hn as [Hn _]. early H3.
  apply negb_false_iff, bool_decide_eq_true_1 in H3.
  destruct (evidenceBinding e) as [old|] eqn:Hold.
  { destruct (evidenceBindingsEqual old n); by apply step_refl. }
  apply live_step; try done; [by rewrite Hold|].
  pose proof Hi as []. split; cbn; auto; [by eapply live_shape|by apply (history_ok_frame e)|].
  by intros x [= <-].
Qed.

Lemma BindVerificationPolicy_step b e : inv e -> step e (fst (BindVerificationPolicy b e)).
Proof.
  intros Hi. unfold BindVerificationPolicy. early H1. early H2.
  destruct (normalizePolicyBinding b) as [n|] eqn:Hn; [|by apply step_refl].
  apply normalizePolicyBinding_idemp in Hn. early H3.
  destruct (policyBinding e) as [old|] eqn:Hold.
  { destruct (old == n); by apply step_refl. }
  apply live_step; try done; [by rewrite Hold|].
  pose proof Hi as []. split; cbn; auto; [by eapply live_shape|by apply (history_ok_frame e)|].
  by intros x [= <-].
Qed.

Lemma existsb_eq_false (l : list string) x : existsb (fun y => y == x) l = false -> x ∉ l.
Proof.
  intros H Hx. assert (existsb (fun y => y == x) l = true); [|congruence].
  apply existsb_exists. exists x. split; [by apply list_elem_of_In|by apply bool_decide_eq_true_2].
Qed.

Lemma RegisterRequiredRuleAt_step id at_ e : inv e -> step e (fst (RegisterRequiredRuleAt id at_ e)).
Proof.
  intros Hi. unfold RegisterRequiredRuleAt. early H1. early H2. early H3. early H4.
  apply bool_decide_eq_false_1 in H3. apply existsb_eq_false in H4.
  apply live_step; try done. pose proof Hi as [].
  split; cbn; auto; [by eapply live_shape| | |by apply (history_ok_frame e)].
  - apply Forall_app. split; [done|]. constructor; [|constructor]. split; [apply TrimSpace_idemp|done].
  - apply NoDup_app. split_and!; [done| |apply NoDup_singleton].
    by intros x Hx ->%list_elem_of_singleton.
Qed.

(** ** Checkpoints and history *)

Lemma CreateCheckpoint_step name at_ e : inv e -> step e (fst (CreateCheckpoint name at_ e)).
Proof.
  intros Hi. unfold CreateCheckpoint. early_running Hr. early H1. early H2. early H3.
  destruct (checkpoints e !! _) as [cp|] eqn:Hcp; [by apply step_refl|].
  apply bool_decide_eq_false_1 in H1. unfold IsZero in H2. apply Z.eqb_neq in H2.
  pose proof (running_nonterminal e Hr) as Ht.
  apply live_step; try done; [by apply insert_subseteq|].
  pose proof Hi as []. split; cbn; auto; [| |by apply (history_ok_frame e)].
  - eapply live_shape; try done. intros Hc. state_absurd.
  - apply map_Forall_insert_2; [|done]. split; [done| |done|done]. split; [apply TrimSpace_idemp|done].
Qed.

Lemma RollbackToCheckpoint_step name at_ e : inv e -> step e (fst (RollbackToCheckpoint name at_ e)).
Proof.
  intros Hi. unfold RollbackToCheckpoint. early_running Hr.
  destruct (checkpoints e !! _) as [cp|] eqn:Hcp; [|by apply step_refl]. early H1. early H2.
  apply outcomes_step; [done..| |solve_event]. apply (i_checkpoints e Hi) in Hcp. apply Hcp.
Qed.

Lemma existsb_version_false (l : list EvaluationHistoryEntry) v :
  existsb (fun h => HistoryVersion h =? v) l = false -> v ∉ HistoryVersion <$> l.
Proof.
  intros H (h & -> & Hh)%list_elem_of_fmap.
  assert (existsb (fun x => HistoryVersion x =? HistoryVersion h) l = true); [|congruence].
  apply existsb_exists. exists h. split; [by apply list_elem_of_In|by apply Z.eqb_eq].
Qed.

Lemma RecordHistory_step at_ e : inv e -> step e (fst (RecordHistory at_ e)).
Proof.
  intros Hi. unfold RecordHistory. early H1. early H2. early H3.
  apply existsb_version_false in H3.
  set (entry := MkEvaluationHistoryEntry _ _ _ _ _ _ _ _ _).
  destruct (validateEvaluationHistoryEntry entry) eqn:Hv; [by apply step_refl|].
  pose proof Hi as []. split.
  - split; cbn; auto.
    + by apply (state_shape_ext e).
    + apply Forall_app. split; [by apply (history_ok_frame e)|]. constructor; [by split|constructor].
    + rewrite fmap_app. apply NoDup_app. split_and!; [done| |apply NoDup_singleton].
      by intros x Hx ->%list_elem_of_singleton.
  - split; cbn; try done. by apply prefix_app_r.
  - exists [EvaluationHistoryRecordedEvent (id_ e) (sessionID e) (version e) (UTC at_)].
    split_and!; [done|by cbn|]. by constructor.
Qed.

#[export] Hint Resolve Start_step CompleteAt_step Cancel_step Expire_step BindEvidenceSet_step
  BindVerificationPolicy_step RegisterRequiredRuleAt_step CreateCheckpoint_step
  RollbackToCheckpoint_step RecordHistory_step : evaluation.

(** ** Atomic mutation *)

(** The invariant and the frame hold of every command; the events only grow
    when no command clears them ([b] is true). *)
Record bstep (b : bool) (e e' : EvaluationAggregate) : Prop := {
  bs_inv : inv e';
  bs_frame : frame e e';
  bs_grows : b = true -> grows e e'
}.

Lemma step_bstep b e e' : step e e' -> bstep b e e'.
Proof. by intros []. Qed.

Lemma bstep_trans b e1 e2 e3 : bstep b e1 e2 -> bstep b e2 e3 -> bstep b e1 e3.
Proof.
  intros [I1 F1 G1] [I2 F2 G2]. split; [done|by eapply frame_trans|].
  intros Hb. eapply grows_trans; [exact F1|by apply G1|by apply G2].
Qed.

(** What a failed atomic mutation leaves: everything restored, except the
    cancellation reason and the bindings. *)
Lemma restored e e' :
  frame e e' ->
  restoreMutableState (captureMutableState e) e' =
  e <| cancellationReason := cancellationReason e' |> <| evidenceBinding := evidenceBinding e' |>
    <| policyBinding := policyBinding e' |>.
Proof.
  intros F. destruct e, e'. unfold restoreMutableState, captureMutableState.
  pose proof (f_id _ _ F). pose proof (f_session _ _ F). pose proof (f_created _ _ F).
  cbn in *. congruence.
Qed.

Lemma restored_bstep b e e' :
  inv e -> inv e' -> frame e e' ->
  bstep b e (restoreMutableState (captureMutableState e) e').
Proof.
  intros Hi Hi' F. rewrite (restored e e' F). split.
  - pose proof Hi as []. split; cbn; auto.
    + apply (state_shape_ext e); try done. apply (f_reason _ _ F).
    + by apply (history_ok_frame e).
    + intros x Hx. destruct Hi' as [_ _ _ _ _ _ _ _ _ _ _ _ He' _].
      pose proof (He' x Hx) as Hx'. by rewrite (f_session _ _ F) in Hx'.
    + intros x Hx. destruct Hi' as [_ _ _ _ _ _ _ _ _ _ _ _ _ Hp'].
      pose proof (Hp' x Hx) as Hx'. by rewrite (f_created _ _ F) in Hx'.
  - split; cbn; try done; try apply F.
    intros Ht. pose proof (f_terminal _ _ F Ht) as Hd. unfold decision in *. cbn. congruence.
  - intros _. exists []. split_and!; [by rewrite app_nil_r|done|constructor].
Qed.

Lemma ApplyAtomicMutation_bstep b at_ (m : method) e :
  inv e -> bstep b e (fst (m e)) -> bstep b e (fst (ApplyAtomicMutation at_ (Some m) e)).
Proof.
  intros Hi Hm. unfold ApplyAtomicMutation. destruct (m e) as [e1 [[]|err]]; cbn in Hm |- *.
  - pose proof (RecordHistory_step at_ e1 (bs_inv _ _ _ Hm)) as Hh.
    assert (bstep b e (fst (RecordHistory at_ e1))) as Hall
      by (eapply bstep_trans; [done|by apply step_bstep]).
    destruct (RecordHistory at_ e1) as [e2 [[]|err]]; cbn in *; [done|].
    apply restored_bstep; [done|apply Hall..].
  - apply restored_bstep; [done|apply Hm..].
Qed.

Lemma afor_bstep b (body : Command -> method) l :
  Forall (fun c => forall e, inv e -> bstep b e (fst (body c e))) l ->
  forall e, inv e -> bstep b e (fst (afor body l e)).
Proof.
  intros H e He. rewrite Forall_forall in H.
  apply (afor_preserves (fun e' => bstep b e e') body l);
    [|split; [done|apply frame_refl|intros _; apply grows_refl]].
  intros x e' Hx Hs. eapply bstep_trans; [done|]. apply H; [done|apply Hs].
Qed.

(** ** Commands *)

(** Whether a command never clears the pending events. *)
Fixpoint keeps_events (c : Command) : bool :=
  match c with
  | CClearEvents => false
  | CAtomic _ (Some body) => forallb keeps_events body
  | _ => true
  end.

(** Induction over commands, with the bodies of atomic mutations. *)
Lemma Command_nested_ind (P : Command -> Prop) :
  (forall c, match c with CAtomic _ (Some _) => False | _ => True end -> P c) ->
  (forall at_ body, Forall P body -> P (CAtomic at_ (Some body))) ->
  forall c, P c.
Proof.
  intros Hleaf Hatomic. fix IH 1. intros c.
  destruct c as [| | | | | | | | | | | | | | | | | | | | | | |at_ [body|]];
    try (apply Hleaf; exact I).
  apply Hatomic. induction body as [|c body IHb]; constructor; [apply IH|apply IHb].
Qed.

Lemma ClearDomainEvents_keeps e : inv e -> inv (ClearDomainEvents e) /\ frame e (ClearDomainEvents e).
Proof.
  intros Hi. split; [|by split].
  pose proof Hi as []. split; cbn; auto; [|by apply (history_ok_frame e)].
  by apply (state_shape_ext e).
Qed.

Lemma exec_bstep b c :
  (b = true -> keeps_events c = true) -> forall e, inv e -> bstep b e (fst (exec c e)).
Proof.
  induction c as [c Hc|at_ body IH] using Command_nested_ind; intros Hb e Hi.
  - destruct c; try (apply step_bstep; cbn [exec]; auto with evaluation; fail).
    + destruct (ClearDomainEvents_keeps e Hi). split; [done..|]. intros ->. by discriminate Hb.
    + destruct body; [done|]. apply step_bstep. cbn. by apply step_refl.
  - cbn [exec option_map]. apply ApplyAtomicMutation_bstep; [done|]. apply afor_bstep; [|done].
    rewrite Forall_forall in IH |- *. intros c Hc e' Hi'. apply IH; [done| |done].
    intros Ht. specialize (Hb Ht). cbn [keeps_events] in Hb. rewrite forallb_forall in Hb.
    apply Hb. by apply list_elem_of_In.
Qed.

Lemma exec_inv c e : inv e -> inv (fst (exec c e)).
Proof. intros Hi. by apply (exec_bstep false c). Qed.

Lemma exec_frame c e : inv e -> frame e (fst (exec c e)).
Proof. intros Hi. by apply (exec_bstep false c). Qed.

Lemma NewEvaluation_inv id session at_ e : NewEvaluation id session at_ = Ok e -> inv e.
Proof.
  unfold NewEvaluation. case_bool_decide; [done|]. case_bool_decide; [done|].
  unfold IsZero. destruct (_ =? 0) eqn:Hz; [done|]. apply Z.eqb_neq in Hz. intros [= <-].
  split; cbn; try done; try constructor; try done; try (by constructor).
Qed.

Lemma reachable_inv e : reachable e -> inv e.
Proof. induction 1; [by eapply NewEvaluation_inv|by apply exec_inv]. Qed.

Lemma run_bstep b cs e :
  (b = true -> forallb keeps_events cs = true) -> inv e -> bstep b e (run cs e).
Proof.
  unfold run. revert e. induction cs as [|c cs IH]; intros e Hb Hi; cbn [fold_left].
  - split; [done|apply frame_refl|intros _; apply grows_refl].
  - assert (bstep b e (fst (exec c e))) as Hc.
    { apply exec_bstep; [|done]. intros Ht. specialize (Hb Ht). cbn in Hb. by apply andb_true_iff in Hb as [? _]. }
    eapply bstep_trans; [exact Hc|]. apply IH; [|apply Hc].
    intros Ht. specialize (Hb Ht). cbn in Hb. by apply andb_true_iff in Hb as [_ ?].
Qed.

Lemma run_reachable cs e : reachable e -> reachable (run cs e).
Proof. revert e. induction cs as [|c cs IH]; intros e He; [done|]. apply IH. by constructor. Qed.

(** ** Properties *)

(** C5: the lifecycle of an evaluation only moves along CanTransitionTo: whatever
    methods run, the state is reached by allowed transitions, and once it is
    terminal nothing of the decision (state, result, reasons, times, version,
    outcomes, rules, checkpoints, bindings) changes any more. *)
Theorem lifecycle_is_monotone e cs :
  reachable e ->
  rtc transition (state e) (state (run cs e)) /\
  (IsTerminal (state e) = true -> decision (run cs e) = decision e).
Proof.
  intros He%reachable_inv. destruct (run_bstep false cs e) as [_ F _]; [done..|].
  split; [apply (f_state _ _ F)|apply (f_terminal _ _ F)].
Qed.

Lemma missing_nil e :
  RequiredRulesComplete e = true ->
  forall id, id ∈ requiredRuleIDs e -> exists o, o ∈ ruleOutcomes e /\ RuleID o = id.
Proof.
  unfold RequiredRulesComplete, MissingRequiredRuleIDs. intros H%bool_decide_eq_true_1 id Hid.
  destruct (decide (id ∈ (list_to_set (RuleID <$> ruleOutcomes e) : gset string))) as [Hs|Hs].
  - apply elem_of_list_to_set, list_elem_of_fmap in Hs as (o & -> & Ho). by exists o.
  - assert (id ∈ ([] : list string)) as Hn; [|by apply elem_of_nil in Hn].
    rewrite <- H. by apply list_elem_of_filter.
Qed.

(** C6: a completed evaluation is justified: every required rule has an outcome, the
    result is a valid one other than UNKNOWN, it carries reason codes exactly when
    it is not VERIFIED, and its creation, start and completion times are in order.
    *)
Theorem completed_is_justified e :
  reachable e -> state e = StateCompleted ->
  (forall id, id ∈ requiredRuleIDs e -> exists o, o ∈ ruleOutcomes e /\ RuleID o = id) /\
  ResultIsValid (result e) = true /\ result e <> ResultUnknown /\
  (result e = ResultVerified <-> reasonCodes e = []) /\
  exists s c, startedAt e = Some s /\ completedAt e = Some c /\
    instant (createdAt e) <= instant s /\ instant s <= instant c.
Proof.
  intros He%reachable_inv Hc.
  destruct (i_shape e He) as [| |s c Hst Hs Hcs Hco Hsc Hca Hex Hok Hr| |]; try state_absurd.
  destruct Hok as (Hv & Hu & _ & Hiff). split_and!; [by apply missing_nil|done..|].
  exists s, c. auto.
Qed.

(** While nobody clears them, the pending events of an evaluation carry its
    identity and every version since its creation in order; only history events
    repeat the version they record. *)
Theorem events_log_every_version id session at_ e cs :
  NewEvaluation id session at_ = Ok e -> forallb keeps_events cs = true ->
  let e' := run cs e in
  versions_ok 0 (domainEvents e') (version e') /\
  Forall (fun ev => EvaluationID (Metadata ev) = id /\ SessionID (Metadata ev) = session)
    (domainEvents e').
Proof.
  intros He Hcs e'. pose proof (NewEvaluation_inv _ _ _ _ He) as Hi.
  assert (domainEvents e = [EvaluationCreatedEvent id session (UTC at_) 1] /\ version e = 1 /\
          id_ e = id /\ sessionID e = session) as (Hd & Hv & Hid & Hs).
  { unfold NewEvaluation in He. go_cases; done. }
  destruct (run_bstep true cs e) as [_ _ G]; [done..|].
  destruct (G eq_refl) as (evs & Hevs & Hver & Hids). fold e' in Hevs, Hver.
  rewrite Hevs, Hd. split; [|by constructor; [|rewrite Hid, Hs in Hids]].
  cbn [app versions_ok is_history_event Metadata Version]. split; [done|]. by rewrite Hv in Hver.
Qed.

(** The methods that either do all their work or nothing. *)
Definition all_or_nothing (c : Command) : bool :=
  match c with
  | CRecordEach _ | CAtomic _ _ => false
  | _ => true
  end.

Lemma recordNew_never_fails l e err : snd (afor recordNew l e) <> Err err.
Proof.
  revert e. induction l as [|o l IH]; intros e; [done|]. cbn [afor]. unfold abind.
  destruct (alreadyRecorded o e); apply IH.
Qed.

Ltac unfold_methods := unfold Start, CompleteAt, Cancel, Expire, BindEvidenceSet,
  BindVerificationPolicy, RegisterRequiredRuleAt, RecordRuleOutcome, RecordRuleOutcomeBatch,
  ReplaceRuleOutcome, ReplaceRuleOutcomesAtomic, RemoveRuleOutcomeIfPresent,
  RemoveRuleOutcomesIfPresent, RemoveRuleOutcome, RemoveRuleOutcomesAtomic,
  ResetRuleOutcomesAtVersion, ResetRuleOutcomes, CreateCheckpoint, RollbackToCheckpoint,
  RecordHistory, fail, update, done_, aret in *.

(** A method that returns an error leaves the aggregate as it was, for every
    method but RecordRuleOutcomes, which stops in the middle, and
    ApplyAtomicMutation. *)
Theorem failed_method_changes_nothing c e e' err :
  all_or_nothing c = true -> exec c e = (e', Err err) -> e' = e.
Proof.
  intros Hc H. destruct c; try discriminate Hc; cbn [exec] in H; unfold_methods;
    try (repeat match type of H with
         | context [match ?x with _ => _ end] => destruct x; try congruence
         end; congruence).
  unfold RecordRuleOutcomesAtomic, fail in H. destruct (state e != _); [congruence|].
  destruct (validateRuleOutcomeBatch _ e) as [out|]; [|congruence].
  pose proof (recordNew_never_fails out e err) as Hn. by rewrite H in Hn.
Qed.

(** ** Examples *)

Definition ex_uuid (c : ascii) : UUID := replicate 15 zero ++ [c].

Definition ex_empty : EvaluationAggregate :=
  MkEvaluationAggregate [] [] "" "" [] ZeroTime None None None None "" 0 [] [] [] ∅ [] None None.

Definition ex_new : EvaluationAggregate :=
  match NewEvaluation (ex_uuid "a") (ex_uuid "s") (utc_seconds 100) with
  | Ok e => e
  | Err _ => ex_empty
  end.

Lemma ex_new_reachable : reachable ex_new.
Proof. apply (reachable_new (ex_uuid "a") (ex_uuid "s") (utc_seconds 100)). vm_compute. reflexivity. Qed.

(** Two required rules, the evaluation started, one rule passed and one warned. *)
Definition ex_pass : RuleOutcome := MkRuleOutcome " RULE-1 " RuleOutcomePass [] (utc_seconds 130).
Definition ex_warning : RuleOutcome :=
  MkRuleOutcome "RULE-2" RuleOutcomeWarning ["late_scan"; "LATE_SCAN"] (utc_seconds 140).

Definition ex_commands : list Command :=
  [CRegister "RULE-1" (utc_seconds 110); CRegister " RULE-2" (utc_seconds 111);
   CStart (utc_seconds 120); CRecord ex_pass; CRecord ex_warning].

Definition ex_running : EvaluationAggregate := run ex_commands ex_new.

Definition ex_completed : EvaluationAggregate :=
  run [CComplete ResultVerifiedWithException ["LATE_SCAN"] (utc_seconds 150)] ex_running.

Lemma ex_running_reachable : reachable ex_running.
Proof. apply run_reachable, ex_new_reachable. Qed.

Lemma ex_completed_reachable : reachable ex_completed.
Proof. apply run_reachable, ex_running_reachable. Qed.

Lemma lifecycle_is_monotone_witness :
  state ex_completed = StateCompleted /\
  decision (run [CCancel "too late" (utc_seconds 160); CExpire (utc_seconds 170)] ex_completed) =
  decision ex_completed.
Proof.
  split; [vm_compute; reflexivity|].
  apply (lifecycle_is_monotone ex_completed
           [CCancel "too late" (utc_seconds 160); CExpire (utc_seconds 170)] ex_completed_reachable).
  vm_compute. reflexivity.
Defined.

Lemma completed_is_justified_witness :
  result ex_completed = ResultVerifiedWithException /\ result ex_completed <> ResultUnknown.
Proof.
  split; [vm_compute; reflexivity|].
  apply (completed_is_justified ex_completed ex_completed_reachable). vm_compute. reflexivity.
Defined.

Lemma events_log_every_version_witness :
  length (domainEvents ex_running) = 6%nat /\
  versions_ok 0 (domainEvents ex_running) (version ex_running).
Proof.
  split; [vm_compute; reflexivity|].
  apply (events_log_every_version (ex_uuid "a") (ex_uuid "s") (utc_seconds 100) ex_new ex_commands);
    vm_compute; reflexivity.
Defined.

Lemma failed_method_changes_nothing_witness :
  exec (CComplete ResultRejected [] (utc_seconds 150)) ex_running =
    (ex_running, Err ErrInvalidCompletionResult) /\ ex_running = ex_running.
Proof.
  assert (exec (CComplete ResultRejected [] (utc_seconds 150)) ex_running =
    (ex_running, Err ErrInvalidCompletionResult)) as H by (vm_compute; reflexivity).
  split; [exact H|].
  exact (failed_method_changes_nothing (CComplete ResultRejected [] (utc_seconds 150)) ex_running
           ex_running ErrInvalidCompletionResult eq_refl H).
Defined.
