(* ===== verification/EvaluationDecision.v ===== *)
(** * The derived verification result

    [DeriveResult] ([rules.go]) against its specification: the result is the
    worst status recorded, the reasons are the codes of all outcomes, and the
    pair is one [CompleteAt] accepts. *)

From Stdlib Require Import Ascii String.
From S2P Require Import Prelude GoTime GoString Uuid Evaluation EvaluationLifecycle.
From S2P Require Import EvaluationLifecycle EvaluationRules EvaluationReach.
Import evaluation.

(** ** Specification *)

Definition severity (s : RuleOutcomeStatus) : nat :=
  if s == RuleOutcomeFail then 3%nat
  else if s == RuleOutcomeInconclusive then 2%nat
  else if s == RuleOutcomeWarning then 1%nat
  else 0%nat.

Definition worst (l : list RuleOutcome) : nat :=
  foldr (fun o acc => Nat.max (severity (Status o)) acc) 0%nat l.

Definition result_of (severity : nat) : VerificationResult :=
  match severity with
  | 0 => ResultVerified
  | 1 => ResultVerifiedWithException
  | 2 => ResultManualReview
  | _ => ResultRejected
  end%nat.

(** ** The loop *)

Lemma severity_bound s : (severity s <= 3)%nat.
Proof. unfold severity. repeat case_bool_decide; lia. Qed.

Lemma worst_cons o l : worst (o :: l) = Nat.max (severity (Status o)) (worst l).
Proof. done. Qed.

Lemma worst_bound l : (worst l <= 3)%nat.
Proof. induction l as [|o l IH]; [cbn; lia|]. rewrite worst_cons. pose proof (severity_bound (Status o)). lia. Qed.

Lemma severity_zero o : outcome_normal o -> severity (Status o) = 0%nat <-> ReasonCodes o = [].
Proof.
  intros [_ _ Hs _ _ _ Hp]%outcome_normal_facts. rewrite <- Hp. unfold severity.
  unfold RuleOutcomeStatusIsValid in Hs. rewrite !orb_true_iff, !bool_decide_eq_true in Hs.
  destruct Hs as [[[-> | ->] | ->] | ->]; cbn; split; done.
Qed.

Lemma deriveStep_severity m reasons o :
  (m <= 3)%nat -> outcome_normal o ->
  deriveStep (result_of m, reasons) o =
  (result_of (Nat.max m (severity (Status o))), reasons ++ ReasonCodes o).
Proof.
  intros Hm Ho. pose proof (severity_zero o Ho) as Hz. unfold deriveStep, severity in *.
  destruct (Status o == RuleOutcomeFail), (Status o == RuleOutcomeInconclusive),
    (Status o == RuleOutcomeWarning);
    try (destruct m as [|[|[|[|]]]]; [done..|lia]).
  rewrite (proj1 Hz eq_refl), app_nil_r. by rewrite Nat.max_0_r.
Qed.

Lemma derive_loop l : forall m reasons,
  (m <= 3)%nat -> Forall outcome_normal l ->
  fold_left deriveStep l (result_of m, reasons) =
  (result_of (Nat.max m (worst l)), reasons ++ flat_map ReasonCodes l).
Proof.
  induction l as [|o l IH]; intros m reasons Hm Hl; cbn [fold_left flat_map].
  - cbn [worst foldr]. by rewrite Nat.max_0_r, app_nil_r.
  - apply Forall_cons in Hl as [Ho Hl]. rewrite deriveStep_severity by done.
    rewrite IH; [|pose proof (severity_bound (Status o)); lia|done].
    by rewrite worst_cons, <- app_assoc, Nat.max_assoc.
Qed.

Lemma worst_zero l :
  Forall outcome_normal l -> worst l = 0%nat <-> flat_map ReasonCodes l = [].
Proof.
  induction 1 as [|o l Ho Hl IH]; cbn [flat_map]; [done|].
  rewrite app_nil, <- IH, <- severity_zero, worst_cons by done. lia.
Qed.

Lemma flat_map_codes l : Forall outcome_normal l -> Forall is_code (flat_map ReasonCodes l).
Proof.
  induction 1 as [|o l Ho Hl IH]; cbn; [constructor|]. apply Forall_app. split; [|done].
  apply outcome_normal_facts in Ho. apply (cl_codes _ _ (of_codes _ Ho)).
Qed.

(** [DeriveResult] on a well-formed aggregate. *)
Lemma DeriveResult_eq e :
  inv e -> RequiredRulesComplete e = true -> ruleOutcomes e <> [] ->
  exists codes, DeriveResult e = Ok (result_of (worst (ruleOutcomes e)), codes) /\
    normalizeReasonCodes (flat_map ReasonCodes (ruleOutcomes e)) = Ok codes /\
    forall c, c ∈ codes <-> exists o, o ∈ ruleOutcomes e /\ c ∈ ReasonCodes o.
Proof.
  intros Hi Hr Ho. pose proof (oo_normal _ _ (i_outcomes e Hi)) as Hn.
  destruct (normalizeReasonCodes_total _ (flat_map_codes _ Hn)) as (codes & Hc & Hin).
  exists codes. split_and!; [|done|].
  - unfold DeriveResult. rewrite Hr. cbn [negb]. rewrite bool_decide_eq_false_2 by done.
    change ResultVerified with (result_of 0). rewrite derive_loop by (done || lia).
    rewrite Nat.max_0_l. cbn [app]. by rewrite Hc.
  - intros c. rewrite Hin, list_elem_of_In, in_flat_map.
    by setoid_rewrite <- list_elem_of_In.
Qed.

Lemma result_of_valid k : ResultIsValid (result_of k) = true /\ result_of k <> ResultUnknown.
Proof. destruct k as [|[|[|]]]; split; done. Qed.

(** The checks [CompleteAt] makes on a result and its reasons. *)
Lemma derived_reasons_accepted k (codes : list ReasonCode) :
  (k = 0%nat <-> codes = []) ->
  needsReasons (result_of k) && (codes == []) = false /\
  ((result_of k == ResultVerified) || (result_of k == ResultVerifiedWithException)) &&
    (result_of k == ResultVerified) && (codes != []) = false.
Proof.
  intros Hk. destruct (decide (codes = [])) as [Hc|Hc].
  - rewrite (proj2 Hk Hc), Hc. done.
  - rewrite (bool_decide_eq_false_2 (codes = [])) by done.
    destruct k as [|[|[|]]]; [destruct (Hc (proj1 Hk eq_refl))|done..].
Qed.

Lemma worst_permutation l k : l ≡ₚ k -> worst l = worst k.
Proof. induction 1; rewrite ?worst_cons in *; lia. Qed.

Lemma derive_spec e r codes :
  inv e -> DeriveResult e = Ok (r, codes) ->
  r = result_of (worst (ruleOutcomes e)) /\ NoDup codes /\
  forall c, c ∈ codes <-> exists o, o ∈ ruleOutcomes e /\ c ∈ ReasonCodes o.
Proof.
  intros He H.
  assert (RequiredRulesComplete e = true /\ ruleOutcomes e <> []) as [Hr Ho].
  { unfold DeriveResult in H. destruct (RequiredRulesComplete e); [|done].
    cbn [negb] in H. case_bool_decide; done. }
  destruct (DeriveResult_eq e He Hr Ho) as (codes' & H' & Hn & Hin).
  rewrite H in H'. injection H' as -> ->. split_and!; [done| |done].
  apply normalizeReasonCodes_ok in Hn as [Hl _]. apply (cl_nodup _ _ Hl).
Qed.

(** ** Properties *)

(** The loop of DeriveResult equals its reference: the result is that of the
    most severe outcome (FAIL, then INCONCLUSIVE, then WARNING, then PASS), and the
    reason codes are, each once, exactly those of the outcomes. *)
Theorem derive_result_spec e r codes :
  reachable e -> DeriveResult e = Ok (r, codes) ->
  r = result_of (worst (ruleOutcomes e)) /\ NoDup codes /\
  forall c, c ∈ codes <-> exists o, o ∈ ruleOutcomes e /\ c ∈ ReasonCodes o.
Proof.
  intros He%reachable_inv. by apply derive_spec.
Qed.

(** A running evaluation whose required rules all have outcomes can always be
    completed: DeriveResult succeeds, and CompleteAt accepts what it derived at any
    time from the start on, entering COMPLETED with that result. *)
Theorem derived_result_completes e s at_ :
  reachable e -> state e = StateRunning -> startedAt e = Some s ->
  RequiredRulesComplete e = true -> ruleOutcomes e <> [] ->
  instant at_ <> 0 -> instant s <= instant at_ ->
  exists r codes e', DeriveResult e = Ok (r, codes) /\ CompleteAt r codes at_ e = (e', Ok tt) /\
    state e' = StateCompleted /\ result e' = r /\ reasonCodes e' = codes /\
    completedAt e' = Some (UTC at_) /\ version e' = u64_succ (version e).
Proof.
  intros He%reachable_inv Hst Hs Hr Ho Hz Hat.
  destruct (DeriveResult_eq e He Hr Ho) as (codes & Hd & Hn & _).
  pose proof (oo_normal _ _ (i_outcomes e He)) as Hall.
  assert (worst (ruleOutcomes e) = 0%nat <-> codes = []) as Hk.
  { rewrite worst_zero by done. destruct (normalizeReasonCodes_total _ (flat_map_codes _ Hall))
      as (codes' & Hn' & Hin). rewrite Hn in Hn'. injection Hn' as <-.
    split; intros Hnil; apply elem_of_nil_inv; intros c Hc.
    - apply Hin in Hc. rewrite Hnil in Hc. by apply elem_of_nil in Hc.
    - apply Hin in Hc. rewrite Hnil in Hc. by apply elem_of_nil in Hc. }
  destruct (derived_reasons_accepted _ codes Hk) as [H1 H2].
  destruct (result_of_valid (worst (ruleOutcomes e))) as [Hv Hu].
  eexists _, codes, _. split; [exact Hd|]. split.
  - unfold CompleteAt. rewrite Hst, Hs, Hv, Hr. cbn [CanTransitionTo negb].
    unfold IsZero, Before. rewrite (proj2 (Z.eqb_neq _ _) Hz), (proj2 (Z.ltb_ge _ _) Hat).
    rewrite (bool_decide_eq_false_2 (_ = ResultUnknown)) by done. cbn [orb negb].
    rewrite (normalizeReasonCodes_idemp _ _ Hn), H1, H2. reflexivity.
  - split_and!; reflexivity.
Qed.

(** Order of outcomes. *)
Theorem derive_result_order e1 e2 r1 r2 codes1 codes2 :
  reachable e1 -> reachable e2 -> ruleOutcomes e1 ≡ₚ ruleOutcomes e2 ->
  DeriveResult e1 = Ok (r1, codes1) -> DeriveResult e2 = Ok (r2, codes2) ->
  r1 = r2 /\ codes1 ≡ₚ codes2.
Proof.
  intros H1%reachable_inv H2%reachable_inv Hp D1%derive_spec D2%derive_spec; [|done..].
  destruct D1 as (-> & N1 & C1), D2 as (-> & N2 & C2). split; [by rewrite (worst_permutation _ _ Hp)|].
  apply NoDup_Permutation; [done..|]. intros c. rewrite C1, C2. by setoid_rewrite Hp.
Qed.

(** ** Witnesses *)

Lemma derive_result_spec_witness :
  ResultVerifiedWithException = result_of (worst (ruleOutcomes ex_running)).
Proof.
  apply (derive_result_spec ex_running ResultVerifiedWithException ["LATE_SCAN"]).
  - apply ex_running_reachable.
  - vm_compute. reflexivity.
Defined.

Lemma derived_result_completes_witness :
  exists r codes e', DeriveResult ex_running = Ok (r, codes) /\
    CompleteAt r codes (utc_seconds 150) ex_running = (e', Ok tt).
Proof.
  destruct (derived_result_completes ex_running (utc_seconds 120) (utc_seconds 150) ex_running_reachable)
    as (r & codes & e' & Hd & Hc & _).
  - vm_compute. reflexivity.
  - vm_compute. reflexivity.
  - vm_compute. reflexivity.
  - vm_compute. discriminate.
  - discriminate.
  - vm_compute. discriminate.
  - exists r, codes, e'. split; [exact Hd|exact Hc].
Defined.

Definition ex_running_reordered : EvaluationAggregate :=
  run [CRegister "RULE-1" (utc_seconds 110); CRegister "RULE-2" (utc_seconds 111);
       CStart (utc_seconds 120); CRecord ex_warning; CRecord ex_pass] ex_new.

Lemma derive_result_order_witness :
  ResultVerifiedWithException = ResultVerifiedWithException /\
  (["LATE_SCAN"] : list string) ≡ₚ ["LATE_SCAN"].
Proof.
  apply (derive_result_order ex_running ex_running_reordered).
  - apply ex_running_reachable.
  - apply run_reachable, ex_new_reachable.
  - vm_compute. apply Permutation_swap.
  - vm_compute. reflexivity.
  - vm_compute. reflexivity.
Defined.
