(* ===== verification/EvaluationPersistence.v ===== *)
(** * Persistence, checkpoints, atomic mutation and batches of an evaluation

    [Snapshot] and [RehydrateEvaluation] ([snapshot.go]) are inverse on reachable
    aggregates; checkpoints, history and [ApplyAtomicMutation] ([history.go]);
    what the batch methods on rule outcomes do ([rules_advanced.go]). *)

From Stdlib Require Import Ascii String.
From S2P Require Import Prelude GoTime GoString Uuid Evaluation EvaluationLifecycle EvaluationRules EvaluationReach.
Import evaluation.

(** ** Checkpoints through a snapshot *)

Lemma rehydrateCheckpoints_names (m : gmap string EvaluationCheckpoint) names : forall acc,
  NoDup names ->
  (forall n, n ∈ names -> acc !! n = None /\ exists started cp, m !! n = Some cp /\ checkpoint_ok started n cp) ->
  exists out, rehydrateCheckpoints acc (omap (fun n => m !! n) names) = Ok out /\
    forall n, out !! n = if decide (n ∈ names) then m !! n else acc !! n.
Proof.
  induction names as [|n names IH]; intros acc Hn Hall.
  { exists acc. split; [done|]. intros n. by rewrite decide_False by apply not_elem_of_nil. }
  apply NoDup_cons in Hn as [Hni Hn].
  destruct (Hall n ltac:(left)) as (Hacc & started & cp & Hm & [Hname [_ Hne] Ht _]).
  cbn [omap list_omap]. rewrite Hm. cbn [rehydrateCheckpoints].
  rewrite Hname, Hacc. rewrite bool_decide_eq_false_2 by done.
  unfold IsZero. rewrite (proj2 (Z.eqb_neq _ _) Ht). cbn [orb].
  destruct (IH (<[n:=cp]> acc)) as (out & -> & Hout); [done| |].
  { intros k Hk. destruct (Hall k ltac:(by right)) as [Hka Hk']. split; [|done].
    rewrite lookup_insert_ne; [done|]. by intros ->. }
  exists out. split; [done|]. intros k. rewrite Hout. destruct (decide (k = n)) as [->|Hkn].
  - rewrite (decide_False (P := n ∈ names)) by done. rewrite decide_True by left.
    by rewrite lookup_insert_eq.
  - destruct (decide (k ∈ names)) as [Hk|Hk].
    + by rewrite decide_True by by right.
    + rewrite decide_False by by intros [?|?]%elem_of_cons. by rewrite lookup_insert_ne.
Qed.

Lemma rehydrateCheckpoints_Checkpoints e :
  inv e -> rehydrateCheckpoints ∅ (Checkpoints e) = Ok (checkpoints e).
Proof.
  intros Hi. unfold Checkpoints.
  destruct (rehydrateCheckpoints_names (checkpoints e) (sort_strings (elements (dom (checkpoints e)))) ∅)
    as (out & -> & Hout).
  - apply sort_strings_nodup, NoDup_elements.
  - intros n. rewrite sort_strings_elem, elem_of_elements, elem_of_dom. intros [cp Hcp].
    split; [apply lookup_empty|]. exists (startedAt e), cp. split; [done|]. by apply (i_checkpoints e Hi).
  - f_equal. apply map_eq. intros n. rewrite Hout, lookup_empty. case_decide as Hn; [done|].
    rewrite sort_strings_elem, elem_of_elements, elem_of_dom, <- eq_None_not_Some in Hn. done.
Qed.

(** ** Validation of own snapshots *)

Lemma snapshotStateInvalid_Snapshot e : inv e -> snapshotStateInvalid (Snapshot e) = false.
Proof.
  intros Hi. unfold snapshotStateInvalid. cbn.
  destruct (i_shape e Hi) as [Hst H1 H2 H3 H4|s Hst H1 _ H2 H3 H4|s c Hst H1 _ H2 _ H3 H4 (_ & Hu & _)
    |c Hst H1 [_ H2]|x Hst H1]; rewrite Hst; cbn.
  - by rewrite H1, H2, H3, H4.
  - by rewrite H1, H2, H3, H4.
  - rewrite H1, H2. cbn. by apply bool_decide_eq_false_2.
  - rewrite H1. cbn. by apply bool_decide_eq_false_2.
  - by rewrite H1.
Qed.

Lemma ResultIsValid_inv e : inv e -> ResultIsValid (result e) = true.
Proof.
  intros Hi. destruct (i_shape e Hi) as [? ? ? ? ? Hr|? ? ? ? ? ? ? Hr|? ? ? ? ? ? ? ? ? [Hr _]
    |? ? ? ? ? ? Hr|? ? ? ? ? ? Hr]; by rewrite Hr.
Qed.

Lemma validateEvaluationSnapshot_Snapshot e :
  inv e -> version e <> 0 -> validateEvaluationSnapshot (Snapshot e) = None.
Proof.
  intros Hi Hv. unfold validateEvaluationSnapshot. rewrite snapshotStateInvalid_Snapshot by done.
  cbn [Snapshot SnapEvaluationID SnapSessionID SnapVersion SnapCreatedAt SnapResult SnapRuleOutcomes
    SnapHistory SnapEvidenceBinding SnapPolicyBinding].
  rewrite ResultIsValid_inv by done. pose proof Hi as [Hid Hs Hc _ _ _ [Hn _ _] _ _ _ Hh _ He Hp].
  rewrite !bool_decide_eq_false_2 by done. unfold IsZero.
  rewrite (proj2 (Z.eqb_neq _ _) Hv), (proj2 (Z.eqb_neq _ _) Hc). cbn [orb negb].
  assert (forallb (fun o => is_ok (normalizeRuleOutcome o)) (ruleOutcomes e) = true) as ->.
  { apply forallb_forall. intros o Ho%list_elem_of_In. rewrite Forall_forall in Hn.
    by rewrite (Hn o Ho). }
  assert (forallb (fun h => validateEvaluationHistoryEntry h == None) (history e) = true) as ->.
  { apply forallb_forall. intros h Hin%list_elem_of_In. rewrite Forall_forall in Hh.
    apply bool_decide_eq_true_2. apply (ho_valid _ _ (Hh h Hin)). }
  cbn [negb]. destruct (evidenceBinding e) as [b|] eqn:Hb.
  - destruct (He b Hb) as [Hnb Hbs]. rewrite Hnb, Hbs, (bool_decide_eq_true_2 _ eq_refl). cbn [negb].
    destruct (policyBinding e) as [p|] eqn:Hpb; [|done]. destruct (Hp p Hpb) as [Hnp Hpt]. by rewrite Hnp, Hpt.
  - destruct (policyBinding e) as [p|] eqn:Hpb; [|done]. destruct (Hp p Hpb) as [Hnp Hpt]. by rewrite Hnp, Hpt.
Qed.

Lemma RehydrateEvaluation_Snapshot e :
  inv e -> version e <> 0 -> RehydrateEvaluation (Snapshot e) = Ok (ClearDomainEvents e).
Proof.
  intros Hi Hv. unfold RehydrateEvaluation.
  rewrite validateEvaluationSnapshot_Snapshot by done. cbn [Snapshot SnapCheckpoints].
  rewrite rehydrateCheckpoints_Checkpoints by done. cbn [obind].
  cbn. rewrite (proj2 (UTC_fixed _) (i_utc e Hi)). done.
Qed.

(** A snapshot without a version is refused. *)
Lemma RehydrateEvaluation_unversioned e :
  version e = 0 -> exists err, RehydrateEvaluation (Snapshot e) = Err err.
Proof.
  intros Hv. unfold RehydrateEvaluation, validateEvaluationSnapshot.
  cbn [Snapshot SnapEvaluationID SnapSessionID SnapVersion]. rewrite Hv.
  destruct (_ || _); eauto.
Qed.

(** C28: persistence round trip: rehydrating the snapshot of any aggregate that the
    methods can produce gives back the aggregate, without its pending events, unless
    its version wrapped around to zero. *)
Theorem rehydrate_snapshot e :
  reachable e -> version e <> 0 -> RehydrateEvaluation (Snapshot e) = Ok (ClearDomainEvents e).
Proof. intros Hi%reachable_inv. by apply RehydrateEvaluation_Snapshot. Qed.

(** ** Checkpoints *)

Lemma CreateCheckpoint_ok name at_ e e1 :
  CreateCheckpoint name at_ e = (e1, Ok tt) ->
  exists s, startedAt e = Some s /\ instant s <= instant at_ /\ startedAt e1 = Some s /\
    checkpoints e1 !! TrimSpace name =
      Some (MkEvaluationCheckpoint (TrimSpace name) (ruleOutcomes e) (version e) (UTC at_)).
Proof.
  unfold CreateCheckpoint, fail, update, beforeStart.
  destruct (state e != StateRunning); [done|]. destruct (TrimSpace name == ""); [done|].
  destruct (IsZero at_); [done|].
  destruct (startedAt e) as [s|] eqn:Hs; [|done]. destruct (Before _ s) eqn:Hb; [done|].
  destruct (checkpoints e !! TrimSpace name); [done|].
  intros [= <-]. exists s. cbn. unfold Before in Hb. cbn in Hb. rewrite lookup_insert_eq.
  split_and!; [done|lia|done|done].
Qed.

Lemma RollbackToCheckpoint_ok name at_ e cp s :
  state e = StateRunning -> checkpoints e !! TrimSpace name = Some cp -> startedAt e = Some s ->
  instant at_ <> 0 -> instant s <= instant at_ -> instant (CheckpointCreatedAt cp) <= instant at_ ->
  RollbackToCheckpoint name at_ e =
  (bump (EvaluationRolledBackEvent (id_ e) (sessionID e) (TrimSpace name) (UTC at_))
     (e <| ruleOutcomes := CheckpointOutcomes cp |>), Ok tt).
Proof.
  intros Hst Hcp Hs Hz Hsat Hcat. unfold RollbackToCheckpoint, beforeStart, Before, IsZero.
  rewrite Hst, Hcp, Hs, (proj2 (Z.eqb_neq _ _) Hz). cbn [negb bool_decide instant UTC].
  rewrite (proj2 (Z.ltb_ge _ _) Hsat), (proj2 (Z.ltb_ge _ _) Hcat). reflexivity.
Qed.

(** A checkpoint can be rolled back to from any later state of the run:
    whatever methods ran since, in a still running evaluation the rollback succeeds
    and restores exactly the rule outcomes of the moment of the checkpoint, under a
    new version. *)
Theorem rollback_restores e e1 name at_ cs at2 :
  reachable e -> CreateCheckpoint name at_ e = (e1, Ok tt) ->
  state (run cs e1) = StateRunning -> instant at2 <> 0 -> instant at_ <= instant at2 ->
  exists e2, RollbackToCheckpoint name at2 (run cs e1) = (e2, Ok tt) /\
    ruleOutcomes e2 = ruleOutcomes e /\ version e2 = u64_succ (version (run cs e1)).
Proof.
  intros Hi%reachable_inv Hc Hst Hz Hat.
  pose proof (CreateCheckpoint_step name at_ e Hi) as Hs. rewrite Hc in Hs. cbn in Hs.
  destruct (run_bstep false cs e1) as [_ F _]; [done|apply Hs|].
  destruct (CreateCheckpoint_ok _ _ _ _ Hc) as (s & _ & Hsat & Hs1 & Hcp).
  erewrite RollbackToCheckpoint_ok; [| |eapply lookup_weaken; [exact Hcp|apply (f_checkpoints _ _ F)]
    |by apply (f_started _ _ F)|done|lia|done]; [|done].
  eexists. split; [done|]. done.
Qed.

(** ** History and atomic mutation *)

Lemma RecordHistory_ok at_ e e1 :
  RecordHistory at_ e = (e1, Ok tt) ->
  exists h, history e1 = history e ++ [h] /\ HistoryVersion h = version e /\
    (forall x, x ∈ history e -> HistoryVersion x <> version e) /\
    h = MkEvaluationHistoryEntry (id_ e) (sessionID e) (version e) (state e) (result e)
          (reasonCodes e) (requiredRuleIDs e) (ruleOutcomes e) (UTC at_) /\
    decision e1 = decision e.
Proof.
  unfold RecordHistory, fail, update. destruct (IsZero at_); [done|].
  destruct (Before _ _); [done|]. destruct (existsb _ _) eqn:Hx; [done|].
  apply existsb_version_false in Hx.
  destruct (validateEvaluationHistoryEntry _); [done|]. intros [= <-].
  eexists. split; [done|]. split_and!; [done| |done|done].
  intros x Hin Hv. apply Hx. rewrite <- Hv. by apply list_elem_of_fmap_2.
Qed.

(** History. *)
Theorem history_is_kept e e1 at_ cs :
  reachable e -> RecordHistory at_ e = (e1, Ok tt) ->
  HistoryAtVersion (version e) (run cs e1) =
  Ok (MkEvaluationHistoryEntry (id_ e) (sessionID e) (version e) (state e) (result e)
        (reasonCodes e) (requiredRuleIDs e) (ruleOutcomes e) (UTC at_)).
Proof.
  intros Hi%reachable_inv H.
  pose proof (RecordHistory_step at_ e Hi) as Hs. rewrite H in Hs. cbn in Hs.
  destruct (run_bstep false cs e1) as [_ F _]; [done|apply Hs|].
  destruct (RecordHistory_ok _ _ _ H) as (h & Hh & Hv & Hnew & He & _).
  destruct (f_history _ _ F) as [k Hk]. rewrite Hh, <- app_assoc in Hk.
  unfold HistoryAtVersion. rewrite Hk.
  rewrite list_find_app_r by by apply list_find_None, Forall_forall.
  cbn [app list_find]. rewrite decide_True by done. cbn. by rewrite He.
Qed.

(** C33: ApplyAtomicMutation either runs its whole function and records the
    resulting state in the history, or restores everything the function changed,
    apart from the cancellation reason and the two bindings, which
    restoreMutableState leaves out. *)
Theorem atomic_mutation_all_or_nothing e e' at_ body r :
  reachable e -> exec (CAtomic at_ (Some body)) e = (e', r) ->
  match r with
  | Ok _ =>
      exists e1, afor exec body e = (e1, Ok tt) /\ decision e' = decision e1 /\
        HistoryAtVersion (version e1) e' =
          Ok (MkEvaluationHistoryEntry (id_ e1) (sessionID e1) (version e1) (state e1) (result e1)
                (reasonCodes e1) (requiredRuleIDs e1) (ruleOutcomes e1) (UTC at_))
  | Err _ =>
      e' <| cancellationReason := cancellationReason e |>
         <| evidenceBinding := evidenceBinding e |> <| policyBinding := policyBinding e |> = e
  end.
Proof.
  intros Hi%reachable_inv H. cbn [exec option_map] in H.
  assert (bstep false e (fst (afor exec body e))) as Hb.
  { apply afor_bstep; [|done]. apply Forall_forall. intros c _ x Hx. by apply exec_bstep. }
  unfold ApplyAtomicMutation in H. destruct (afor exec body e) as [e1 [[]|err]]; cbn in Hb.
  - pose proof (RecordHistory_step at_ e1 (bs_inv _ _ _ Hb)) as Hh.
    assert (frame e (fst (RecordHistory at_ e1))) as F
      by (eapply frame_trans; [apply (bs_frame _ _ _ Hb)|apply Hh]).
    destruct (RecordHistory at_ e1) as [e2 [[]|err]] eqn:Hr; injection H as <- <-.
    + exists e1. split; [done|]. destruct (RecordHistory_ok _ _ _ Hr) as (h & Hhist & Hv & Hnew & He & Hd).
      split; [done|]. unfold HistoryAtVersion. rewrite Hhist.
      rewrite list_find_app_r by by apply list_find_None, Forall_forall.
      cbn [list_find]. rewrite decide_True by done. cbn. by rewrite He.
    + cbn in F. rewrite (restored e _ F). by destruct e.
  - injection H as <- <-. rewrite (restored e e1 (bs_frame _ _ _ Hb)). by destruct e.
Qed.

(** ** Witnesses *)

Lemma rehydrate_snapshot_witness :
  version ex_completed = 7 /\
  RehydrateEvaluation (Snapshot ex_completed) = Ok (ClearDomainEvents ex_completed).
Proof.
  split; [vm_compute; reflexivity|].
  apply (rehydrate_snapshot ex_completed ex_completed_reachable). vm_compute. discriminate.
Defined.

Definition ex_checkpointed : EvaluationAggregate :=
  fst (CreateCheckpoint "before reset" (utc_seconds 145) ex_running).

Lemma rollback_restores_witness :
  exists e2, RollbackToCheckpoint "before reset" (utc_seconds 160)
      (run [CReset (utc_seconds 150)] ex_checkpointed) = (e2, Ok tt) /\
    ruleOutcomes e2 = ruleOutcomes ex_running.
Proof.
  destruct (rollback_restores ex_running ex_checkpointed "before reset" (utc_seconds 145)
    [CReset (utc_seconds 150)] (utc_seconds 160) ex_running_reachable) as (e2 & H1 & H2 & _).
  - vm_compute. reflexivity.
  - vm_compute. reflexivity.
  - discriminate.
  - vm_compute. discriminate.
  - exists e2. split; [exact H1|exact H2].
Defined.

Lemma history_is_kept_witness :
  is_ok (HistoryAtVersion (version ex_running)
    (run [CExpire (utc_seconds 200)] (fst (RecordHistory (utc_seconds 145) ex_running)))) = true.
Proof.
  rewrite (history_is_kept ex_running (fst (RecordHistory (utc_seconds 145) ex_running))
             (utc_seconds 145) [CExpire (utc_seconds 200)] ex_running_reachable).
  - reflexivity.
  - vm_compute. reflexivity.
Defined.

(** A binding that succeeds inside a mutation that then fails. *)
Definition ex_policy : PolicyBinding :=
  MkPolicyBinding "POL" "1.0"
    "sha256:0123456789abcdef0123456789abcdef0123456789abcdef0123456789abcdef" (utc_seconds 105).

Definition ex_failing_body : list Command := [CBindPolicy ex_policy; CStart ZeroTime].

Lemma atomic_mutation_all_or_nothing_witness :
  exists e', exec (CAtomic (utc_seconds 115) (Some ex_failing_body)) ex_new =
      (e', Err ErrInvalidStartTime) /\
    e' <| cancellationReason := cancellationReason ex_new |>
       <| evidenceBinding := evidenceBinding ex_new |>
       <| policyBinding := policyBinding ex_new |> = ex_new.
Proof.
  eexists. split; [vm_compute; reflexivity|].
  apply (atomic_mutation_all_or_nothing ex_new _ (utc_seconds 115) ex_failing_body
           (Err ErrInvalidStartTime) ex_new_reachable).
  vm_compute. reflexivity.
Defined.

(** The restored state leaves out the bindings and the cancellation reason:
    after a failed atomic mutation the policy it bound stays bound, with the
    version and the events of before, and a later binding of another policy is
    refused. *)
Theorem atomic_failure_keeps_binding :
  exists e e', reachable e /\ policyBinding e = None /\
    exec (CAtomic (utc_seconds 115) (Some ex_failing_body)) e = (e', Err ErrInvalidStartTime) /\
    policyBinding e' = Some ex_policy /\ version e' = version e /\
    domainEvents e' = domainEvents e /\
    snd (BindVerificationPolicy (ex_policy <| PolicyID := "OTHER" |>) e') = Err ErrPolicyAlreadyBound.
Proof.
  exists ex_new. eexists. split; [apply ex_new_reachable|]. split; [reflexivity|].
  split; [vm_compute; reflexivity|]. split_and!; vm_compute; reflexivity.
Qed.

(** ** Recording *)

(** The batch holds exactly the normalized outcomes it was given. *)
Lemma validate_loop_elem e l : forall seen out,
  map_Forall (fun _ o => outcome_normal o) seen ->
  validateRuleOutcomeBatch_loop e seen l = Ok out ->
  (forall o, o ∈ out -> exists x, x ∈ l /\ normalizeRuleOutcome x = Ok o) /\
  (forall x, x ∈ l -> exists o, normalizeRuleOutcome x = Ok o /\ (o ∈ out \/ seen !! RuleID o = Some o)).
Proof.
  induction l as [|x l IH]; intros seen out Hseen; cbn [validateRuleOutcomeBatch_loop].
  { intros [= <-]. split; by intros ? ?%elem_of_nil. }
  intros (v & Hv & H)%obind_ok. pose proof (normalizeRuleOutcome_idemp _ _ Hv) as Hn.
  destruct (beforeStart _ e); [done|]. destruct (notRequired _ e); [done|].
  destruct (seen !! RuleID v) as [p|] eqn:Hp.
  - destruct (ruleOutcomesEqual p v) eqn:He; [|done].
    apply ruleOutcomesEqual_normal in He; [|by apply (Hseen _ _ Hp)|done]. subst p.
    destruct (IH _ _ Hseen H) as [H1 H2]. split.
    + intros o (y & Hy & ?)%H1. exists y. split; [by right|done].
    + intros y [->|Hy]%elem_of_cons; [by exists v; auto|by apply H2].
  - destruct (match RuleOutcomeByID _ e with Some _ => _ | None => _ end); [done|].
    apply obind_ok in H as (out' & Hout & [= <-]).
    destruct (IH (<[RuleID v:=v]> seen) out') as [H1 H2]; [by apply map_Forall_insert_2|done|]. split.
    + intros o [->|(y & Hy & ?)%H1]%elem_of_cons;
        [exists x; split; [left|done]|exists y; split; [by right|done]].
    + intros y [->|Hy]%elem_of_cons; [exists v; split; [done|]; left; left|].
      destruct (H2 y Hy) as (o & Ho & [Hin|Hin]); exists o; (split; [done|]); [left; by right|].
      apply lookup_insert_Some in Hin as [[Hid <-]|[_ Hin]]; [left; left|by right].
Qed.

(** Validation gives the same batch on an aggregate that already holds it. *)
Lemma validate_loop_again e e' l : forall seen out,
  startedAt e' = startedAt e -> requiredRuleIDs e' = requiredRuleIDs e ->
  (forall x v, x ∈ l -> normalizeRuleOutcome x = Ok v ->
     forall y, RuleOutcomeByID (RuleID v) e' = Some y -> ruleOutcomesEqual y v = true) ->
  validateRuleOutcomeBatch_loop e seen l = Ok out -> validateRuleOutcomeBatch_loop e' seen l = Ok out.
Proof.
  induction l as [|x l IH]; intros seen out Hs Hr Hrec; cbn [validateRuleOutcomeBatch_loop]; [done|].
  intros (v & Hv & H)%obind_ok. rewrite Hv. cbn [obind].
  unfold beforeStart, notRequired, IsRuleRequired in *. rewrite Hs, Hr.
  destruct (match startedAt e with Some _ => _ | None => _ end); [done|].
  destruct (_ && _); [done|].
  assert (forall x v, x ∈ l -> normalizeRuleOutcome x = Ok v ->
     forall y, RuleOutcomeByID (RuleID v) e' = Some y -> ruleOutcomesEqual y v = true) as Hrec'
    by (intros x' v' Hx'; apply Hrec; by right).
  destruct (seen !! RuleID v) as [p|].
  - destruct (ruleOutcomesEqual p v); [by apply IH|done].
  - destruct (match RuleOutcomeByID _ e with Some _ => _ | None => _ end); [done|].
    apply obind_ok in H as (out' & Hout & [= <-]).
    destruct (RuleOutcomeByID (RuleID v) e') as [y|] eqn:Hy.
    + rewrite (Hrec x v ltac:(left) Hv y Hy). cbn [negb]. by erewrite IH.
    + by erewrite IH.
Qed.

Lemma recordNew_all_recorded l e :
  Forall (fun o => alreadyRecorded o e = true) l -> afor recordNew l e = (e, Ok tt).
Proof. induction 1 as [|o l Ho Hl IH]; [done|]. cbn [afor]. unfold abind. by rewrite Ho. Qed.

Lemma RecordRuleOutcomesAtomic_ok os e e' :
  RecordRuleOutcomesAtomic os e = (e', Ok tt) ->
  state e = StateRunning /\ exists out, validateRuleOutcomeBatch os e = Ok out /\
    e' = fst (afor recordNew out e).
Proof.
  unfold RecordRuleOutcomesAtomic, fail. destruct (state e != StateRunning) eqn:Hs; [done|].
  apply neq_running_false in Hs. destruct (validateRuleOutcomeBatch os e) as [out|]; [|done].
  intros H. split; [done|]. exists out. by rewrite H.
Qed.

#[global] Instance outcome_le_trans : Transitive outcome_le.
Proof. unfold outcome_le. intros a b c. apply transitivity. Qed.

#[global] Instance outcome_le_total : Total outcome_le.
Proof. unfold outcome_le. intros a b. apply total. apply _. Qed.

Lemma validateRuleOutcomeBatch_sorted os e out :
  validateRuleOutcomeBatch os e = Ok out -> StronglySorted outcome_le out.
Proof.
  unfold validateRuleOutcomeBatch. intros (k & _ & [= <-])%obind_ok.
  apply (StronglySorted_merge_sort outcome_le).
Qed.

Lemma validateRuleOutcomeBatch_elem os e out o :
  validateRuleOutcomeBatch os e = Ok out ->
  o ∈ out <-> exists x, x ∈ os /\ normalizeRuleOutcome x = Ok o.
Proof.
  unfold validateRuleOutcomeBatch. intros (k & Hk & [= <-])%obind_ok.
  apply validate_loop_elem in Hk as [H1 H2]; [|apply map_Forall_empty].
  rewrite merge_sort_Permutation. split; [apply H1|]. intros (x & Hx & Ho).
  destruct (H2 x Hx) as (o' & Ho' & [Hin|Hin]); [|by apply lookup_empty_Some in Hin].
  rewrite Ho in Ho'. by injection Ho' as <-.
Qed.

Lemma validateRuleOutcomeBatch_total os e out x :
  validateRuleOutcomeBatch os e = Ok out -> x ∈ os -> exists o, normalizeRuleOutcome x = Ok o.
Proof.
  unfold validateRuleOutcomeBatch. intros (k & Hk & _)%obind_ok Hx.
  apply validate_loop_elem in Hk as [_ H2]; [|apply map_Forall_empty].
  destruct (H2 x Hx) as (o & Ho & _). by exists o.
Qed.

Lemma alreadyRecorded_true o e :
  inv e -> outcome_normal o -> alreadyRecorded o e = true <-> o ∈ ruleOutcomes e.
Proof.
  intros Hi Ho. pose proof (oo_nodup _ _ (i_outcomes e Hi)) as Hn. unfold alreadyRecorded.
  pose proof (of_id _ (outcome_normal_facts _ Ho)) as Hid. split.
  - destruct (RuleOutcomeByID _ e) as [x|] eqn:Hx; [|done].
    apply RuleOutcomeByID_iff in Hx as [Hx _]; [|done]. intros He.
    apply ruleOutcomesEqual_normal in He; [by subst|by eapply inv_outcome_normal|done].
  - intros Hin. rewrite (proj2 (RuleOutcomeByID_iff e (RuleID o) o Hn)) by by rewrite Hid.
    by apply ruleOutcomesEqual_normal.
Qed.

Lemma recordNew_keeps l e :
  let e' := fst (afor recordNew l e) in
  state e' = state e /\ startedAt e' = startedAt e /\ requiredRuleIDs e' = requiredRuleIDs e.
Proof.
  apply (afor_preserves (fun e' => state e' = state e /\ startedAt e' = startedAt e /\
                                   requiredRuleIDs e' = requiredRuleIDs e)); [|done].
  intros o x _ H. by destruct (alreadyRecorded o x).
Qed.

(** Recording again what is recorded changes nothing. *)
Lemma record_atomic_again os e e' out :
  inv e' -> state e' = StateRunning -> startedAt e' = startedAt e ->
  requiredRuleIDs e' = requiredRuleIDs e -> validateRuleOutcomeBatch os e = Ok out ->
  (forall o, o ∈ out -> o ∈ ruleOutcomes e') -> RecordRuleOutcomesAtomic os e' = (e', Ok tt).
Proof.
  intros Hi Hr Hs Hq Hv Hin.
  assert (forall o, o ∈ out -> alreadyRecorded o e' = true) as Hrec.
  { intros o Ho. apply alreadyRecorded_true; [done| |by apply Hin].
    apply (validateRuleOutcomeBatch_elem _ _ _ o Hv) in Ho as (x & _ & Hx).
    by eapply normalizeRuleOutcome_idemp. }
  assert (validateRuleOutcomeBatch os e' = Ok out) as Hv'.
  { pose proof Hv as Hv0. unfold validateRuleOutcomeBatch in *.
    apply obind_ok in Hv0 as (k & Hk & Hout). erewrite validate_loop_again; [exact Hout|done..| |done].
    intros x v Hx Hxv y Hy. assert (alreadyRecorded v e' = true) as Ha.
    { apply Hrec. apply (validateRuleOutcomeBatch_elem os e out v Hv). eauto. }
    unfold alreadyRecorded in Ha. by rewrite Hy in Ha. }
  unfold RecordRuleOutcomesAtomic. rewrite Hr, Hv'. cbn [negb bool_decide].
  apply recordNew_all_recorded. by apply Forall_forall.
Qed.

(** A successful RecordRuleOutcomesAtomic appends the new outcomes in the order
    of their rule IDs; afterwards the outcomes are the earlier ones and the normal
    forms of those given, and recording the same batch again changes nothing. *)
Theorem record_atomic_spec os e e' :
  reachable e -> RecordRuleOutcomesAtomic os e = (e', Ok tt) ->
  (exists added, ruleOutcomes e' = ruleOutcomes e ++ added /\ StronglySorted outcome_le added) /\
  (forall o, o ∈ ruleOutcomes e' <->
     o ∈ ruleOutcomes e \/ exists x, x ∈ os /\ normalizeRuleOutcome x = Ok o) /\
  RecordRuleOutcomesAtomic os e' = (e', Ok tt).
Proof.
  intros Hi%reachable_inv H. destruct (RecordRuleOutcomesAtomic_ok _ _ _ H) as (Hr & out & Hv & ->).
  pose proof (validateRuleOutcomeBatch_ok _ _ _ Hv) as Hb.
  destruct (recordNew_loop out e ∅ Hi Hr Hb) as (Hs & Hok & Hl).
  destruct (recordNew_keeps out e) as (K1 & K2 & K3).
  assert (forall o, o ∈ ruleOutcomes (fst (afor recordNew out e)) <-> o ∈ ruleOutcomes e \/ o ∈ out)
    as Hin.
  { intros o. rewrite Hl, elem_of_app, list_elem_of_filter. split; [tauto|].
    intros [Ho|Ho]; [by left|]. destruct (alreadyRecorded o e) eqn:Ha; [left|by right].
    apply alreadyRecorded_true in Ha; [done..|].
    pose proof (ba_normal _ _ _ Hb) as Hn. rewrite Forall_forall in Hn. auto. }
  split_and!.
  - eexists. split; [exact Hl|]. eapply sublist_strongly_sorted; [apply sublist_filter|].
    by eapply validateRuleOutcomeBatch_sorted.
  - intros o. rewrite Hin. by rewrite (validateRuleOutcomeBatch_elem _ _ _ o Hv).
  - eapply record_atomic_again; [apply Hs|by rewrite K1|done..|]. intros o Ho. apply Hin. by right.
Qed.

(** ** Replacing *)

(** A successful ReplaceRuleOutcomesAtomic replaces, in place, exactly the
    outcomes of the rules given by the normal forms of their replacements; every
    replaced rule had an outcome, and none is replaced by an older one. *)
Theorem replace_atomic_spec rs at_ e e' :
  reachable e -> ReplaceRuleOutcomesAtomic rs at_ e = (e', Ok tt) ->
  exists byID : gmap string RuleOutcome,
    (forall id v, byID !! id = Some v <->
       RuleID v = id /\ exists item, item ∈ rs /\ normalizeRuleOutcome (Replacement item) = Ok v) /\
    ruleOutcomes e' = (fun o => default o (byID !! RuleID o)) <$> ruleOutcomes e /\
    (forall id v, byID !! id = Some v -> exists o, o ∈ ruleOutcomes e /\ RuleID o = id /\
       instant (EvaluatedAt o) <= instant (EvaluatedAt v)).
Proof.
  intros Hi%reachable_inv H. unfold ReplaceRuleOutcomesAtomic, fail, done_, aret, update in H.
  destruct (state e != StateRunning); [done|].
  destruct (rs == []) eqn:Hrs.
  { injection H as <-. apply bool_decide_eq_true_1 in Hrs as ->. exists ∅. split_and!.
    - intros id v. rewrite lookup_empty. split; [done|]. by intros (_ & item & ?%elem_of_nil & _).
    - rewrite <- (list_fmap_id (ruleOutcomes e)) at 1. apply list_fmap_ext. intros i o _.
      by rewrite lookup_empty.
    - by intros id v ?%lookup_empty_Some. }
  destruct (IsZero at_); [done|]. destruct (beforeStart _ e); [done|].
  destruct (collectReplacements _ _ _ _ _) as [[byID ids]|] eqn:Hc; [|done].
  pose proof (ReplaceRuleOutcomesAtomic_fold _ _ _ _ _ Hi Hc) as Hf.
  apply collectReplacements_start in Hc as (A & _ & _ & D). exists byID. split; [done|]. split.
  - rewrite <- Hf. destruct (pendingReplacements e byID (sort_strings ids) == []) eqn:Hp.
    + injection H as <-. apply bool_decide_eq_true_1 in Hp. by rewrite Hp.
    + by injection H as <-.
  - intros id v Hv. destruct (ro_current _ _ _ (A id v Hv)) as (o & Ho & Hb).
    apply lookup_rule_some in Ho as [Ho Hid]. exists o. unfold Before in Hb. split_and!; [done..|lia].
Qed.

(** ** Removing *)

Lemma normalizeRuleIDs_loop_elem ids : forall seen out,
  normalizeRuleIDs_loop seen ids = Ok out ->
  forall id, id ∈ out <-> id ∉ seen /\ id ∈ TrimSpace <$> ids.
Proof.
  induction ids as [|x ids IH]; intros seen out; cbn [normalizeRuleIDs_loop].
  { intros [= <-] id. cbn. split; [by intros ?%elem_of_nil|by intros [_ ?%elem_of_nil]]. }
  destruct (TrimSpace x == ""); [done|]. rewrite fmap_cons. case_bool_decide as Hs.
  - intros H id. rewrite (IH _ _ H id), elem_of_cons. split; [tauto|]. by intros [Hn [->|?]].
  - intros (l & Hl & [= <-])%obind_ok id. rewrite !elem_of_cons, (IH _ _ Hl id).
    rewrite elem_of_union, elem_of_singleton. destruct (decide (id = TrimSpace x)) as [->|?]; tauto.
Qed.

Lemma normalizeRuleIDsForRemoval_elem ids out id :
  normalizeRuleIDsForRemoval ids = Ok out -> id ∈ out <-> id ∈ TrimSpace <$> ids.
Proof.
  unfold normalizeRuleIDsForRemoval. intros (l & Hl & [= <-])%obind_ok.
  rewrite sort_strings_elem, (normalizeRuleIDs_loop_elem _ _ _ Hl id).
  split; [tauto|]. intros ?. split; [apply not_elem_of_empty|done].
Qed.

Lemma collectRemoved_ok e ids removed :
  collectRemoved e ids = Ok removed ->
  forall id, id ∈ ids -> exists o, o ∈ ruleOutcomes e /\ RuleID o = id.
Proof.
  revert removed. induction ids as [|x ids IH]; intros removed; cbn [collectRemoved].
  { intros _ id ?%elem_of_nil. done. }
  destruct (list_find _ _) as [[i o]|] eqn:Hf; [|done]. intros (l & Hl & _)%obind_ok.
  intros id [->|Hid]%elem_of_cons; [|by eapply IH].
  apply list_find_lookup_rule, lookup_rule_some in Hf as [? ?]. eauto.
Qed.

(** Atomic removal. *)
Theorem remove_atomic_spec ids at_ e e' :
  RemoveRuleOutcomesAtomic ids at_ e = (e', Ok tt) ->
  ruleOutcomes e' = filter (fun o => RuleID o ∉ TrimSpace <$> ids) (ruleOutcomes e) /\
  forall id, id ∈ ids -> exists o, o ∈ ruleOutcomes e /\ RuleID o = TrimSpace id.
Proof.
  unfold RemoveRuleOutcomesAtomic, fail, done_, aret, update. intros H.
  destruct (state e != StateRunning); [done|]. destruct (ids == []) eqn:Hids.
  { injection H as <-. apply bool_decide_eq_true_1 in Hids as ->. split; [|by intros id ?%elem_of_nil].
    symmetry. apply filter_all, Forall_forall. intros o _. apply not_elem_of_nil. }
  destruct (IsZero at_); [done|]. destruct (beforeStart _ e); [done|].
  destruct (normalizeRuleIDsForRemoval ids) as [l|] eqn:Hl; [|done].
  destruct (collectRemoved e l) as [removed|] eqn:Hc; [|done]. injection H as <-. split.
  - cbn. apply filter_ext_elem. intros o _. rewrite elem_of_list_to_set.
    by rewrite (normalizeRuleIDsForRemoval_elem _ _ (RuleID o) Hl).
  - intros id Hid. eapply collectRemoved_ok; [done|].
    apply (normalizeRuleIDsForRemoval_elem _ _ (TrimSpace id) Hl). by apply list_elem_of_fmap_2.
Qed.

(** ** Witnesses *)

Definition ex_started : EvaluationAggregate := run [CStart (utc_seconds 120)] ex_new.

Lemma ex_started_reachable : reachable ex_started.
Proof. apply run_reachable, ex_new_reachable. Qed.

Lemma record_atomic_spec_witness :
  exists e', RecordRuleOutcomesAtomic [ex_warning; ex_pass; ex_warning] ex_started = (e', Ok tt) /\
    RecordRuleOutcomesAtomic [ex_warning; ex_pass; ex_warning] e' = (e', Ok tt).
Proof.
  exists (fst (RecordRuleOutcomesAtomic [ex_warning; ex_pass; ex_warning] ex_started)).
  assert (RecordRuleOutcomesAtomic [ex_warning; ex_pass; ex_warning] ex_started =
    (fst (RecordRuleOutcomesAtomic [ex_warning; ex_pass; ex_warning] ex_started), Ok tt)) as H
    by (vm_compute; reflexivity).
  split; [exact H|].
  exact (proj2 (proj2 (record_atomic_spec _ _ _ ex_started_reachable H))).
Defined.

Definition ex_replacement : RuleOutcomeReplacement :=
  MkRuleOutcomeReplacement (MkRuleOutcome "RULE-2" RuleOutcomePass [] (utc_seconds 150)) ZeroTime.

Lemma replace_atomic_spec_witness :
  exists byID : gmap string RuleOutcome,
    ruleOutcomes (fst (ReplaceRuleOutcomesAtomic [ex_replacement] (utc_seconds 160) ex_running)) =
    (fun o => default o (byID !! RuleID o)) <$> ruleOutcomes ex_running.
Proof.
  destruct (replace_atomic_spec [ex_replacement] (utc_seconds 160) ex_running
    (fst (ReplaceRuleOutcomesAtomic [ex_replacement] (utc_seconds 160) ex_running))
    ex_running_reachable) as (byID & _ & H & _).
  - vm_compute. reflexivity.
  - exists byID. exact H.
Defined.

Lemma remove_atomic_spec_witness :
  ruleOutcomes (fst (RemoveRuleOutcomesAtomic ["RULE-2 "] (utc_seconds 160) ex_running)) =
  filter (fun o => RuleID o ∉ TrimSpace <$> ["RULE-2 "]) (ruleOutcomes ex_running).
Proof.
  apply (remove_atomic_spec ["RULE-2 "] (utc_seconds 160) ex_running). vm_compute. reflexivity.
Defined.
