(* ===== verification/Outbox.v ===== *)
(** * The transactional outbox ([evaluation/outbox.go], [evaluation/publisher.go])

    Outbox records built from domain events, the delivery state machine of a
    record with its retry schedule, and one pass of the publisher. The JSON
    encoder is a parameter; a publisher pass is given what its environment (the
    claimed records, the broker, the clock, the repository) answers and yields
    the calls it makes. The goroutine in which [OutboxPublisher.Start] runs passes
    on a ticker, and [Stop], are a transition system ([publisher]). *)

From Stdlib Require Import Ascii String.
From S2P Require Import Prelude GoTime GoString Uuid Evaluation.

Module outbox.

Inductive Error :=
  | ErrOutboxEventRequired
  | ErrOutboxEventTypeRequired
  | ErrOutboxTimestampRequired
  | ErrOutboxSerializationFailed
  | ErrOutboxRecordNotFound
  | ErrOutboxAlreadyPublished
  | ErrOutboxAlreadyDeadLettered
  | ErrOutboxPublishTimeRequired
  | ErrOutboxFailureTimeRequired
  | ErrOutboxFailureReasonRequired
  | ErrOutboxInvalidRetrySchedule
  | ErrOutboxClaimLimitInvalid
  | ErrOutboxWorkerIDRequired
  | ErrOutboxLockDurationInvalid
  | ErrOutboxLockOwnershipMismatch
  | ErrOutboxPublisherConfigInvalid
  | ErrRepository
  | ErrOutboxPublisherUnavailable
  | ErrOutboxBrokerUnavailable
  | ErrOutboxPublisherAlreadyRunning
  | ErrOutboxPublisherNotRunning.

#[global] Instance Error_eq_dec : EqDecision Error.
Proof. solve_decision. Defined.

Abbreviation OutboxStatus := string.

Definition OutboxStatusPending : OutboxStatus := "PENDING".
Definition OutboxStatusPublishing : OutboxStatus := "PUBLISHING".
Definition OutboxStatusPublished : OutboxStatus := "PUBLISHED".
Definition OutboxStatusRetryScheduled : OutboxStatus := "RETRY_SCHEDULED".
Definition OutboxStatusDeadLettered : OutboxStatus := "DEAD_LETTERED".

Definition IsTerminal (s : OutboxStatus) : bool :=
  (s == OutboxStatusPublished) || (s == OutboxStatusDeadLettered).

Definition DefaultOutboxMaxAttempts : Z := 10.

Record OutboxRecord := MkOutboxRecord {
  ID : UUID;
  AggregateType : string;
  AggregateID : UUID;
  RecordSessionID : UUID;
  AggregateVersion : Z;
  RecordEventType : string;
  Payload : bytes;
  Status : OutboxStatus;
  RecordOccurredAt : Time;
  CreatedAt : Time;
  PublishingStartedAt : option Time;
  PublishedAt : option Time;
  NextAttemptAt : option Time;
  LastAttemptAt : option Time;
  DeadLetteredAt : option Time;
  Attempts : Z;
  MaxAttempts : Z;
  LastError : string;
  LockOwner : string;
  LockUntil : option Time
}.

#[global] Instance OutboxRecord_eta : Eta OutboxRecord :=
  fun r => MkOutboxRecord (ID r) (AggregateType r) (AggregateID r) (RecordSessionID r)
    (AggregateVersion r) (RecordEventType r) (Payload r) (Status r) (RecordOccurredAt r)
    (CreatedAt r) (PublishingStartedAt r) (PublishedAt r) (NextAttemptAt r) (LastAttemptAt r)
    (DeadLetteredAt r) (Attempts r) (MaxAttempts r) (LastError r) (LockOwner r) (LockUntil r).

Definition normalizeOutboxRecord (r : OutboxRecord) : OutboxRecord :=
  let r := if Status r == "" then r <| Status := OutboxStatusPending |> else r in
  let r := if MaxAttempts r =? 0 then r <| MaxAttempts := DefaultOutboxMaxAttempts |> else r in
  r <| LockOwner := TrimSpace (LockOwner r) |> <| LastError := TrimSpace (LastError r) |>.

(** ** Building records *)

Section build.
(** [json.Marshal] of a domain event: its bytes, or its error. *)
Variable json_Marshal : evaluation.DomainEvent -> option bytes.

(** [random] is what the random reader of [uuid.New] yields. *)
Definition NewOutboxRecord (random : bytes) (event : option evaluation.DomainEvent)
    (createdAt : Time) : outcome Error OutboxRecord :=
  match event with
  | None => Err ErrOutboxEventRequired
  | Some event =>
      if IsZero createdAt then Err ErrOutboxTimestampRequired else
      let m := evaluation.Metadata event in
      let eventType := TrimSpace (evaluation.EventType m) in
      if eventType == "" then Err ErrOutboxEventTypeRequired else
      if (evaluation.EvaluationID m == NilUUID) || (evaluation.SessionID m == NilUUID) ||
         (evaluation.Version m =? 0)
      then Err ErrOutboxEventRequired else
      if IsZero (evaluation.OccurredAt m) then Err ErrOutboxTimestampRequired else
      match json_Marshal event with
      | None => Err ErrOutboxSerializationFailed
      | Some payload =>
          Ok (normalizeOutboxRecord
                (MkOutboxRecord (NewUUID random) "evaluation" (evaluation.EvaluationID m)
                   (evaluation.SessionID m) (evaluation.Version m) eventType payload
                   OutboxStatusPending (UTC (evaluation.OccurredAt m)) (UTC createdAt)
                   None None None None None 0 0 "" "" None))
      end
  end.

Fixpoint buildRecords (random : nat -> bytes) (events : list evaluation.DomainEvent)
    (createdAt : Time) : outcome Error (list OutboxRecord) :=
  match events with
  | [] => Ok []
  | event :: rest =>
      let! r := NewOutboxRecord (random 0%nat) (Some event) createdAt in
      let! records := buildRecords (fun i => random (S i)) rest createdAt in
      Ok (r :: records)
  end.

Definition BuildOutboxRecords (random : nat -> bytes) (createdAt : Time)
    (e : evaluation.EvaluationAggregate) : outcome Error (list OutboxRecord) :=
  buildRecords random (evaluation.domainEvents e) createdAt.
End build.

(** ** The delivery state machine *)

Definition StartPublishing (workerID : string) (startedAt : Time) (lockDuration : Duration)
    : action OutboxRecord Error unit := fun r =>
  let r := normalizeOutboxRecord r in
  if Status r == OutboxStatusPublished then (r, Err ErrOutboxAlreadyPublished) else
  if Status r == OutboxStatusDeadLettered then (r, Err ErrOutboxAlreadyDeadLettered) else
  let workerID := TrimSpace workerID in
  if workerID == "" then (r, Err ErrOutboxWorkerIDRequired) else
  if IsZero startedAt then (r, Err ErrOutboxPublishTimeRequired) else
  if lockDuration <=? 0 then (r, Err ErrOutboxLockDurationInvalid) else
  let startedAt := UTC startedAt in
  let until := Add startedAt lockDuration in
  (r <| Status := OutboxStatusPublishing |> <| PublishingStartedAt := Some startedAt |>
     <| LastAttemptAt := Some startedAt |> <| LockOwner := workerID |>
     <| LockUntil := Some until |> <| Attempts := u32_succ (Attempts r) |>, Ok tt).

Definition MarkPublished (workerID : string) (at_ : Time) : action OutboxRecord Error unit := fun r =>
  if Status r == OutboxStatusPublished then (r, Err ErrOutboxAlreadyPublished) else
  if (TrimSpace workerID == "") || (LockOwner r != TrimSpace workerID)
  then (r, Err ErrOutboxLockOwnershipMismatch) else
  if IsZero at_ then (r, Err ErrOutboxPublishTimeRequired) else
  (r <| Status := OutboxStatusPublished |> <| PublishedAt := Some (UTC at_) |>
     <| NextAttemptAt := None |> <| LastError := "" |> <| LockOwner := "" |>
     <| LockUntil := None |>, Ok tt).

Record OutboxRetryPolicy := MkOutboxRetryPolicy {
  BaseDelay : Duration;
  MaxDelay : Duration;
  Multiplier : Z
}.

Definition DefaultOutboxRetryPolicy : OutboxRetryPolicy :=
  MkOutboxRetryPolicy Second (5 * Minute) 2.

Definition ValidateRetryPolicy (p : OutboxRetryPolicy) : option Error :=
  if (BaseDelay p <=? 0) || (MaxDelay p <? BaseDelay p) || (Multiplier p <? 1)
  then Some ErrOutboxInvalidRetrySchedule else None.

(** The loop of [Delay], [n] iterations from delay [d]; the product is an
    [int64] and [/] truncates. *)
Fixpoint delayLoop (p : OutboxRetryPolicy) (n : nat) (d : Duration) : Duration :=
  match n with
  | O => if MaxDelay p <? d then MaxDelay p else d
  | S n' =>
      if Z.quot (MaxDelay p) (Multiplier p) <=? d then MaxDelay p else
      delayLoop p n' (i64 (d * Multiplier p))
  end.

Definition Delay (p : OutboxRetryPolicy) (attempt : Z) : Duration :=
  delayLoop p (Z.to_nat (attempt - 1)) (BaseDelay p).

Definition RegisterFailure (workerID reason : string) (failedAt : Time) (policy : OutboxRetryPolicy)
    : action OutboxRecord Error unit := fun r =>
  if Status r == OutboxStatusPublished then (r, Err ErrOutboxAlreadyPublished) else
  if Status r == OutboxStatusDeadLettered then (r, Err ErrOutboxAlreadyDeadLettered) else
  if LockOwner r != TrimSpace workerID then (r, Err ErrOutboxLockOwnershipMismatch) else
  if IsZero failedAt then (r, Err ErrOutboxFailureTimeRequired) else
  let reason := TrimSpace reason in
  if reason == "" then (r, Err ErrOutboxFailureReasonRequired) else
  match ValidateRetryPolicy policy with
  | Some err => (r, Err err)
  | None =>
      let failedAt := UTC failedAt in
      let r := r <| LastError := reason |> <| LastAttemptAt := Some failedAt |>
                 <| LockOwner := "" |> <| LockUntil := None |> in
      if MaxAttempts r <=? Attempts r then
        (r <| Status := OutboxStatusDeadLettered |> <| DeadLetteredAt := Some failedAt |>
           <| NextAttemptAt := None |>, Ok tt)
      else
        let next := Add failedAt (Delay policy (Attempts r)) in
        (r <| Status := OutboxStatusRetryScheduled |> <| NextAttemptAt := Some next |>, Ok tt)
  end.

Definition Ready (at_ : Time) (r : OutboxRecord) : bool :=
  if Status r == OutboxStatusPending then true else
  (Status r == OutboxStatusRetryScheduled) &&
  match NextAttemptAt r with
  | None => false
  | Some next => negb (After next at_)
  end.

Record OutboxClaimRequest := MkOutboxClaimRequest {
  WorkerID : string;
  Limit : Z;
  ClaimedAt : Time;
  ClaimLockDuration : Duration
}.

Definition ValidateClaimRequest (r : OutboxClaimRequest) : option Error :=
  if TrimSpace (WorkerID r) == "" then Some ErrOutboxWorkerIDRequired else
  if Limit r <=? 0 then Some ErrOutboxClaimLimitInvalid else
  if IsZero (ClaimedAt r) then Some ErrOutboxPublishTimeRequired else
  if ClaimLockDuration r <=? 0 then Some ErrOutboxLockDurationInvalid else
  None.

(** ** The publisher *)

Record OutboxPublisherConfig := MkOutboxPublisherConfig {
  ConfigWorkerID : string;
  Topic : string;
  BatchSize : Z;
  PollInterval : Duration;
  LockDuration : Duration;
  PublishTimeout : Duration;
  MaxParallelPublications : Z;
  RetryPolicy : OutboxRetryPolicy;
  ExpiredLockCleanupInterval : Duration
}.

Definition DefaultOutboxPublisherConfig (workerID : string) : OutboxPublisherConfig :=
  MkOutboxPublisherConfig workerID "cargoos.evaluation.events.v1" 100 (500 * 1000 * Microsecond)
    (30 * Second) (10 * Second) 8 DefaultOutboxRetryPolicy (30 * Second).

Definition ValidateConfig (c : OutboxPublisherConfig) : option Error :=
  if TrimSpace (ConfigWorkerID c) == "" then Some ErrOutboxWorkerIDRequired else
  if (TrimSpace (Topic c) == "") || (PollInterval c <=? 0) || (LockDuration c <=? 0) ||
     (PublishTimeout c <=? 0) || (MaxParallelPublications c <=? 0) ||
     (ExpiredLockCleanupInterval c <=? 0)
  then Some ErrOutboxPublisherConfigInvalid else
  if BatchSize c <=? 0 then Some ErrOutboxClaimLimitInvalid else
  if LockDuration c <=? PublishTimeout c then Some ErrOutboxPublisherConfigInvalid else
  ValidateRetryPolicy (RetryPolicy c).

(** A message carries the record's ID, its aggregate's ID as key, its type and
    version as headers and its payload. *)
Record BrokerMessage := MkBrokerMessage {
  MessageID : string;
  MessageTopic : string;
  MessageKey : string;
  MessageEventType : string;
  MessageAggregateVersion : Z;
  MessagePayload : bytes;
  MessageOccurredAt : Time
}.

Definition message (c : OutboxPublisherConfig) (r : OutboxRecord) : BrokerMessage :=
  MkBrokerMessage (UuidString (ID r)) (Topic c) (UuidString (AggregateID r)) (RecordEventType r)
    (AggregateVersion r) (Payload r) (RecordOccurredAt r).

(** The calls of a pass. *)
Inductive Call :=
  | CallPublish (m : BrokerMessage)
  | CallMarkPublished (id : UUID) (workerID : string) (at_ : Time)
  | CallScheduleRetry (r : OutboxRecord) (workerID : string)
  | CallMarkDeadLettered (r : OutboxRecord) (workerID : string).

(** What the environment answers while one record is handled: the broker's
    error text if it refuses, the clock afterwards, and whether the repository
    accepts the update. *)
Record Answer := MkAnswer {
  brokerError : option string;
  now : Time;
  repositoryOk : bool
}.

(** The loop of [PublishOnce]: the calls made, and the count and error
    returned. *)
Fixpoint publishLoop (c : OutboxPublisherConfig) (published : Z) (l : list (OutboxRecord * Answer))
    : list Call * (Z * option Error) :=
  match l with
  | [] => ([], (published, None))
  | (r, a) :: rest =>
      let publish := CallPublish (message c r) in
      match brokerError a with
      | None =>
          let mark := CallMarkPublished (ID r) (ConfigWorkerID c) (UTC (now a)) in
          if negb (repositoryOk a) then ([publish; mark], (published, Some ErrRepository)) else
          let '(calls, res) := publishLoop c (published + 1) rest in
          (publish :: mark :: calls, res)
      | Some reason =>
          match RegisterFailure (ConfigWorkerID c) reason (UTC (now a)) (RetryPolicy c) r with
          | (_, Err ferr) => ([publish], (published, Some ferr))
          | (r', Ok _) =>
              let update := if Status r' == OutboxStatusDeadLettered
                            then CallMarkDeadLettered r' (ConfigWorkerID c)
                            else CallScheduleRetry r' (ConfigWorkerID c) in
              if negb (repositoryOk a) then ([publish; update], (published, Some ErrRepository)) else
              let '(calls, res) := publishLoop c published rest in
              (publish :: update :: calls, res)
          end
      end
  end.

(** [PublishOnce]: [claimed] is what [ClaimReady] returned, with the answers
    given while its records are handled. *)
Definition PublishOnce (c : OutboxPublisherConfig)
    (claimed : outcome Error (list (OutboxRecord * Answer))) : list Call * (Z * option Error) :=
  match claimed with
  | Err err => ([], (0, Some err))
  | Ok l => publishLoop c 0 l
  end.

(** ** Delivery commands *)

Inductive Command :=
  | CStart (workerID : string) (at_ : Time) (lockDuration : Duration)
  | CPublished (workerID : string) (at_ : Time)
  | CFailure (workerID reason : string) (at_ : Time) (policy : OutboxRetryPolicy).

Definition exec (c : Command) : action OutboxRecord Error unit :=
  match c with
  | CStart w at_ d => StartPublishing w at_ d
  | CPublished w at_ => MarkPublished w at_
  | CFailure w reason at_ p => RegisterFailure w reason at_ p
  end.

Definition run (cs : list Command) (r : OutboxRecord) : OutboxRecord :=
  fold_left (fun r c => fst (exec c r)) cs r.

(** ** The retry schedule *)

Lemma ValidateRetryPolicy_none p :
  ValidateRetryPolicy p = None <-> 0 < BaseDelay p /\ BaseDelay p <= MaxDelay p /\ 1 <= Multiplier p.
Proof.
  unfold ValidateRetryPolicy. split.
  - case_match eqn:H; [done|]. intros _. go_bool. lia.
  - intros (H1 & H2 & H3). case_match eqn:H; [|done]. go_bool. destruct_or?; lia.
Qed.

Section delay.
Context (p : OutboxRetryPolicy).
Hypothesis valid : ValidateRetryPolicy p = None.
Hypothesis range : is_i64 (MaxDelay p).

(** Below the guard the product does not overflow. *)
Lemma delay_product d :
  0 < d -> d < Z.quot (MaxDelay p) (Multiplier p) ->
  d <= d * Multiplier p <= MaxDelay p /\ i64 (d * Multiplier p) = d * Multiplier p.
Proof.
  apply ValidateRetryPolicy_none in valid as (H1 & H2 & H3). intros Hd Hq.
  rewrite Z.quot_div_nonneg in Hq by lia.
  assert (d * Multiplier p <= MaxDelay p) as Hm.
  { pose proof (Z.mul_div_le (MaxDelay p) (Multiplier p)). nia. }
  split; [nia|]. apply i64_small. destruct range as [Hlo Hhi]. split; [|lia].
  transitivity 0; [done|nia].
Qed.

Lemma delayLoop_spec n : forall d,
  0 < d <= MaxDelay p ->
  d <= delayLoop p n d <= MaxDelay p /\
  (delayLoop p n d = MaxDelay p \/ delayLoop p n d = d * Multiplier p ^ Z.of_nat n) /\
  delayLoop p n d <= delayLoop p (S n) d.
Proof.
  induction n as [|n IH]; intros d Hd; cbn [delayLoop].
  - rewrite (proj2 (Z.ltb_ge _ _)) by lia.
    destruct (Z.quot (MaxDelay p) (Multiplier p) <=? d) eqn:Hq; [split_and!; [lia|lia|right; lia|lia]|].
    apply Z.leb_gt in Hq. destruct (delay_product d) as [Hp Hi]; [lia|done|].
    rewrite Hi. rewrite (proj2 (Z.ltb_ge _ _)) by lia. split_and!; [lia|lia|right; lia|lia].
  - destruct (Z.quot (MaxDelay p) (Multiplier p) <=? d) eqn:Hq; [split_and!; [lia|lia|by left|lia]|].
    apply Z.leb_gt in Hq. destruct (delay_product d) as [Hp Hi]; [lia|done|]. rewrite Hi.
    destruct (IH (d * Multiplier p)) as (H1 & H2 & H3); [lia|].
    split_and!; [lia|lia| |exact H3]. destruct H2 as [H2|H2]; [by left|right]. rewrite H2.
    rewrite Nat2Z.inj_succ, Z.pow_succ_r by lia. by rewrite Z.mul_assoc.
Qed.

Lemma delayLoop_mono n m d :
  0 < d <= MaxDelay p -> (n <= m)%nat -> delayLoop p n d <= delayLoop p m d.
Proof.
  intros Hd. induction 1 as [|m Hm IH]; [lia|]. destruct (delayLoop_spec m d Hd) as (_ & _ & H). lia.
Qed.
End delay.

(** C35: under a valid retry policy the delay never overflows: it is between the
    base and the maximal delay, grows with the attempt, and is the base times a
    power of the multiplier until the maximum takes over. *)
Theorem retry_delay_bounds p n m :
  ValidateRetryPolicy p = None -> is_i64 (MaxDelay p) -> 1 <= n <= m ->
  BaseDelay p <= Delay p n <= MaxDelay p /\ Delay p n <= Delay p m /\
  (Delay p n = MaxDelay p \/ Delay p n = BaseDelay p * Multiplier p ^ (n - 1)).
Proof.
  intros Hp Hr Hn. pose proof (proj1 (ValidateRetryPolicy_none p) Hp) as (H1 & H2 & H3).
  assert (0 < BaseDelay p <= MaxDelay p) as Hb by lia.
  destruct (delayLoop_spec p Hp Hr (Z.to_nat (n - 1)) (BaseDelay p) Hb) as (Hd & He & _).
  rewrite Z2Nat.id in He by lia. unfold Delay. split_and!; [lia|lia| |done].
  apply delayLoop_mono; [done..|lia].
Qed.

(** ** The invariant of a record *)

Inductive delivery_shape (r : OutboxRecord) : Prop :=
  | ShapePending : Status r = OutboxStatusPending -> LockOwner r = "" -> delivery_shape r
  | ShapePublishing s u :
      Status r = OutboxStatusPublishing -> LockOwner r <> "" -> PublishingStartedAt r = Some s ->
      LockUntil r = Some u -> instant s < instant u -> delivery_shape r
  | ShapePublished t :
      Status r = OutboxStatusPublished -> LockOwner r = "" -> PublishedAt r = Some t ->
      delivery_shape r
  | ShapeRetry l n :
      Status r = OutboxStatusRetryScheduled -> LockOwner r = "" -> LastAttemptAt r = Some l ->
      NextAttemptAt r = Some n -> instant l < instant n -> Attempts r < MaxAttempts r ->
      delivery_shape r
  | ShapeDead t :
      Status r = OutboxStatusDeadLettered -> LockOwner r = "" -> DeadLetteredAt r = Some t ->
      MaxAttempts r <= Attempts r -> delivery_shape r.

Record record_ok (r : OutboxRecord) : Prop := {
  ok_max : 0 < MaxAttempts r;
  ok_owner : TrimSpace (LockOwner r) = LockOwner r;
  ok_error : TrimSpace (LastError r) = LastError r;
  ok_shape : delivery_shape r
}.

(** A Go [time.Duration] is an [int64]. *)
Definition command_ok (c : Command) : Prop :=
  match c with
  | CFailure _ _ _ p => is_i64 (MaxDelay p)
  | _ => True
  end.

Section reach.
Context (json_Marshal : evaluation.DomainEvent -> option bytes).

Inductive reachable : OutboxRecord -> Prop :=
  | reachable_new random event at_ r :
      NewOutboxRecord json_Marshal random event at_ = Ok r -> reachable r
  | reachable_exec r c : reachable r -> command_ok c -> reachable (fst (exec c r)).
End reach.

Lemma status_nonempty r : record_ok r -> Status r <> "".
Proof. intros [_ _ _ Hs]. by destruct Hs as [H|? ? H|? H|? ? H|? H]; rewrite H. Qed.

Lemma normalizeOutboxRecord_id r : record_ok r -> normalizeOutboxRecord r = r.
Proof.
  intros Hr. pose proof (status_nonempty r Hr) as Hs. destruct Hr as [Hm Ho He _].
  unfold normalizeOutboxRecord. rewrite bool_decide_eq_false_2 by done.
  rewrite (proj2 (Z.eqb_neq _ _)) by lia. cbn. rewrite Ho, He. by destruct r.
Qed.

Lemma NewOutboxRecord_record json random event at_ r :
  NewOutboxRecord json random event at_ = Ok r ->
  Status r = OutboxStatusPending /\ LockOwner r = "" /\ LastError r = "" /\ Attempts r = 0 /\
  MaxAttempts r = DefaultOutboxMaxAttempts.
Proof.
  unfold NewOutboxRecord. destruct event as [event|]; [|done].
  destruct (IsZero at_); [done|]. destruct (TrimSpace _ == ""); [done|].
  destruct (_ || _); [done|]. destruct (IsZero _); [done|].
  destruct (json event); [|done]. by intros [= <-].
Qed.

Lemma NewOutboxRecord_ok json random event at_ r :
  NewOutboxRecord json random event at_ = Ok r -> record_ok r.
Proof.
  intros (Hs & Ho & He & _ & Hm)%NewOutboxRecord_record. split; rewrite ?Ho, ?He, ?Hm; try done.
  by apply ShapePending.
Qed.

Lemma StartPublishing_ok w at_ d r : record_ok r -> record_ok (fst (StartPublishing w at_ d r)).
Proof.
  intros Hr. unfold StartPublishing. rewrite normalizeOutboxRecord_id by done.
  do 4 (case_match; [done|]). destruct (d <=? 0) eqn:Hd; [done|].
  apply Z.leb_gt in Hd. go_bool. destruct Hr as [Hm Ho He _].
  split; cbn; [done|apply TrimSpace_idemp|done|].
  eapply ShapePublishing; cbn; [done..|time_lia].
Qed.

Lemma MarkPublished_ok w at_ r : record_ok r -> record_ok (fst (MarkPublished w at_ r)).
Proof.
  intros Hr. unfold MarkPublished. destruct (Status r == _); [done|]. destruct (_ || _); [done|].
  destruct (IsZero at_); [done|]. destruct Hr as [Hm _ _ _]. split; cbn; try done.
  by eapply ShapePublished.
Qed.

Lemma Delay_positive p n : ValidateRetryPolicy p = None -> is_i64 (MaxDelay p) -> 0 < Delay p n.
Proof.
  intros Hp Hr. pose proof (proj1 (ValidateRetryPolicy_none p) Hp) as (H1 & H2 & H3).
  destruct (delayLoop_spec p Hp Hr (Z.to_nat (n - 1)) (BaseDelay p)) as (Hd & _); [lia|].
  unfold Delay. lia.
Qed.

Lemma RegisterFailure_ok w reason at_ p r :
  is_i64 (MaxDelay p) -> record_ok r -> record_ok (fst (RegisterFailure w reason at_ p r)).
Proof.
  intros Hp Hr. unfold RegisterFailure. do 2 (destruct (Status r == _); [done|]).
  destruct (LockOwner r != _); [done|]. destruct (IsZero at_); [done|].
  destruct (TrimSpace reason == ""); [done|].
  destruct (ValidateRetryPolicy p) eqn:Hv; [done|]. destruct Hr as [Hm _ _ _].
  pose proof (Delay_positive p (Attempts r) Hv Hp) as Hd. clear Hp Hv.
  cbn -[Delay Add UTC TrimSpace Z.leb].
  generalize dependent (Delay p (Attempts r)). intros d Hd.
  destruct (MaxAttempts r <=? Attempts r) eqn:Ha; cbn -[Add UTC TrimSpace].
  - apply Z.leb_le in Ha. split; [exact Hm|apply TrimSpace_empty|apply TrimSpace_idemp|].
    apply (ShapeDead _ (UTC at_)); [reflexivity..|exact Ha].
  - apply Z.leb_gt in Ha. split; [exact Hm|apply TrimSpace_empty|apply TrimSpace_idemp|].
    apply (ShapeRetry _ (UTC at_) (Add (UTC at_) d)); [reflexivity..|time_lia|exact Ha].
Qed.

Lemma record_exec_ok c r : command_ok c -> record_ok r -> record_ok (fst (exec c r)).
Proof.
  destruct c; intros Hc Hr; [by apply StartPublishing_ok|by apply MarkPublished_ok|].
  by apply RegisterFailure_ok.
Qed.

Lemma record_reachable_ok json r : reachable json r -> record_ok r.
Proof. induction 1; [by eapply NewOutboxRecord_ok|by apply record_exec_ok]. Qed.

(** A command on a finished record is refused and changes nothing. *)
Lemma terminal_exec c r :
  record_ok r -> IsTerminal (Status r) = true -> exists err, exec c r = (r, Err err).
Proof.
  intros Hr Ht. pose proof (normalizeOutboxRecord_id r Hr) as Hn. destruct Hr as [_ _ _ Hs].
  destruct Hs as [H|? ? H|? H Ho|? ? H|? H Ho]; rewrite H in Ht; try discriminate Ht;
    destruct c as [w at_ d|w at_|w reason at_ p]; cbn [exec];
    unfold StartPublishing, MarkPublished, RegisterFailure; rewrite ?Hn, H; cbn; eauto.
  rewrite Ho. destruct (TrimSpace w == "") eqn:Hw; cbn [orb]; [by eauto|].
  apply bool_decide_eq_false_1 in Hw. rewrite (bool_decide_eq_false_2 ("" = TrimSpace w)) by congruence.
  eexists. reflexivity.
Qed.

(** A published or dead-lettered outbox record is never changed again by any
    command. *)
Theorem terminal_records_are_final json r cs :
  reachable json r -> IsTerminal (Status r) = true -> run cs r = r.
Proof.
  intros Hr%record_reachable_ok Ht. unfold run. induction cs as [|c cs IH]; cbn [fold_left]; [done|].
  destruct (terminal_exec c r Hr Ht) as [err ->]. exact IH.
Qed.

(** Publication. *)
Theorem published_only_by_lock_owner json r r' w at_ :
  reachable json r -> MarkPublished w at_ r = (r', Ok tt) ->
  Status r = OutboxStatusPublishing /\ LockOwner r = TrimSpace w /\
  Status r' = OutboxStatusPublished /\ PublishedAt r' = Some (UTC at_) /\ LockOwner r' = "" /\
  Payload r' = Payload r /\ Attempts r' = Attempts r.
Proof.
  intros [_ _ _ Hs]%record_reachable_ok H. unfold MarkPublished in H.
  destruct (Status r == _); [done|]. destruct (_ || _) eqn:Hw; [done|]. destruct (IsZero at_); [done|].
  injection H as <-. apply orb_false_iff in Hw as [Hw1%bool_decide_eq_false_1 Hw2].
  apply negb_false_iff, bool_decide_eq_true_1 in Hw2.
  assert (Status r = OutboxStatusPublishing) as Hp; [|by split_and!].
  destruct Hs as [? Ho|? ? ? Ho|? ? Ho|? ? ? Ho|? ? Ho]; [|done|..]; congruence.
Qed.

(** ** Retries *)

(** One delivery attempt that fails. *)
Record FailedAttempt := MkFailedAttempt {
  attemptWorker : string;
  attemptStart : Time;
  attemptLock : Duration;
  attemptReason : string;
  attemptFailure : Time;
  attemptPolicy : OutboxRetryPolicy
}.

Definition attempt_ok (a : FailedAttempt) : Prop :=
  TrimSpace (attemptWorker a) <> "" /\ IsZero (attemptStart a) = false /\ 0 < attemptLock a /\
  TrimSpace (attemptReason a) <> "" /\ IsZero (attemptFailure a) = false /\
  ValidateRetryPolicy (attemptPolicy a) = None.

Definition failAttempt (r : OutboxRecord) (a : FailedAttempt) : OutboxRecord :=
  run [CStart (attemptWorker a) (attemptStart a) (attemptLock a);
       CFailure (attemptWorker a) (attemptReason a) (attemptFailure a) (attemptPolicy a)] r.

Lemma StartPublishing_eq w at_ d r :
  normalizeOutboxRecord r = r -> IsTerminal (Status r) = false ->
  TrimSpace w <> "" -> IsZero at_ = false -> 0 < d ->
  StartPublishing w at_ d r =
  (r <| Status := OutboxStatusPublishing |> <| PublishingStartedAt := Some (UTC at_) |>
     <| LastAttemptAt := Some (UTC at_) |> <| LockOwner := TrimSpace w |>
     <| LockUntil := Some (Add (UTC at_) d) |> <| Attempts := u32_succ (Attempts r) |>, Ok tt).
Proof.
  intros Hn Ht Hw Hz Hd. unfold StartPublishing. rewrite Hn.
  apply orb_false_iff in Ht as [-> ->]. rewrite bool_decide_eq_false_2, Hz by done.
  by rewrite (proj2 (Z.leb_gt _ _)).
Qed.

Lemma RegisterFailure_eq w reason at_ p r :
  IsTerminal (Status r) = false -> LockOwner r = TrimSpace w -> IsZero at_ = false ->
  TrimSpace reason <> "" -> ValidateRetryPolicy p = None ->
  RegisterFailure w reason at_ p r =
  (let r := r <| LastError := TrimSpace reason |> <| LastAttemptAt := Some (UTC at_) |>
              <| LockOwner := "" |> <| LockUntil := None |> in
   if MaxAttempts r <=? Attempts r then
     r <| Status := OutboxStatusDeadLettered |> <| DeadLetteredAt := Some (UTC at_) |>
       <| NextAttemptAt := None |>
   else r <| Status := OutboxStatusRetryScheduled |>
          <| NextAttemptAt := Some (Add (UTC at_) (Delay p (Attempts r))) |>, Ok tt).
Proof.
  intros Ht Ho Hz Hr Hp. unfold RegisterFailure. apply orb_false_iff in Ht as [-> ->].
  rewrite Ho, bool_decide_eq_true_2, Hz, bool_decide_eq_false_2, Hp by done. cbn [negb].
  by case_match.
Qed.

Lemma failAttempt_live r a :
  record_ok r -> IsTerminal (Status r) = false -> attempt_ok a -> is_i64 (MaxDelay (attemptPolicy a)) ->
  record_ok (failAttempt r a) /\ MaxAttempts (failAttempt r a) = MaxAttempts r /\
  Attempts (failAttempt r a) = u32_succ (Attempts r) /\
  Status (failAttempt r a) = if MaxAttempts r <=? u32_succ (Attempts r)
              then OutboxStatusDeadLettered else OutboxStatusRetryScheduled.
Proof.
  intros Hok Ht (Hw & Hs & Hl & Hr & Hf & Hp) Hi. split.
  { unfold failAttempt, run. cbn [fold_left]. apply record_exec_ok; [done|]. by apply record_exec_ok. }
  unfold failAttempt, run. cbn [fold_left exec].
  rewrite StartPublishing_eq by auto using normalizeOutboxRecord_id. cbn [fst].
  rewrite RegisterFailure_eq by done. cbn. by case_match.
Qed.

#[local] Opaque failAttempt.

Definition attempt_valid (a : FailedAttempt) : Prop :=
  attempt_ok a /\ is_i64 (MaxDelay (attemptPolicy a)).

Lemma fold_left_cons {A B} (f : A -> B -> A) b l a : fold_left f (b :: l) a = fold_left f l (f a b).
Proof. done. Qed.

Lemma fold_left_nil {A B} (f : A -> B -> A) a : fold_left f [] a = a.
Proof. done. Qed.

Lemma failAttempts_live l : forall r k,
  record_ok r -> IsTerminal (Status r) = false -> MaxAttempts r = 10 -> Attempts r = k -> 0 <= k ->
  l <> [] -> k + Z.of_nat (length l) <= 10 -> Forall attempt_valid l ->
  Attempts (fold_left failAttempt l r) = k + Z.of_nat (length l) /\
  Status (fold_left failAttempt l r) =
    if k + Z.of_nat (length l) =? 10 then OutboxStatusDeadLettered else OutboxStatusRetryScheduled.
Proof.
  induction l as [|a l IH]; intros r k Hok Ht Hm Ha Hk Hne Hlen Hall; [done|].
  apply Forall_cons in Hall as [[Ha1 Ha2] Hall].
  destruct (failAttempt_live r a Hok Ht Ha1 Ha2) as (Hok' & Hm' & Ha' & Hs').
  rewrite fold_left_cons.
  change (length (a :: l)) with (S (length l)) in *. rewrite Nat2Z.inj_succ in *.
  assert (u32_succ (Attempts r) = k + 1) as Hsucc.
  { rewrite Ha. unfold u32_succ, u32, u32_modulus. apply Z.mod_small. lia. }
  rewrite Hsucc in Ha', Hs'. rewrite Hm in Hm', Hs'. clear Hsucc. destruct l as [|b l].
  - rewrite fold_left_nil, Ha', Hs'. cbn [length Z.of_nat]. split; [lia|].
    replace (10 <=? k + 1) with (k + Z.succ 0 =? 10); [done|].
    cbn [length] in Hlen. destruct (10 <=? k + 1) eqn:Hc; lia.
  - assert (0 < Z.of_nat (length (b :: l))) as Hpos by (cbn [length]; lia).
    rewrite (proj2 (Z.leb_gt _ _)) in Hs' by lia.
    destruct (IH (failAttempt r a) (k + 1)) as [H1 H2];
      [exact Hok'|by rewrite Hs'|exact Hm'|exact Ha'|lia|done|lia|exact Hall|].
    rewrite H1, H2. split; [lia|]. by replace (k + 1 + Z.of_nat (length (b :: l)))
      with (k + Z.succ (Z.of_nat (length (b :: l)))) by lia.
Qed.

(** C34: retries end: a new record that keeps failing counts every attempt, stays
    scheduled for retry after fewer than ten of them, and is dead-lettered at the
    tenth. *)
Theorem retries_are_bounded json random event at_ r attempts :
  NewOutboxRecord json random event at_ = Ok r ->
  Forall attempt_valid attempts -> attempts <> [] -> Z.of_nat (length attempts) <= 10 ->
  Attempts (fold_left failAttempt attempts r) = Z.of_nat (length attempts) /\
  Status (fold_left failAttempt attempts r) =
    if Z.of_nat (length attempts) =? 10 then OutboxStatusDeadLettered else OutboxStatusRetryScheduled.
Proof.
  intros Hnew Hall Hne Hlen. pose proof (NewOutboxRecord_ok _ _ _ _ _ Hnew) as Hok.
  apply NewOutboxRecord_record in Hnew as (Hs & _ & _ & Ha & Hm).
  apply (failAttempts_live attempts r 0); [exact Hok|by rewrite Hs|exact Hm|exact Ha|lia|done|lia|done].
Qed.

(** ** A publisher pass *)

Definition published_messages (calls : list Call) : list BrokerMessage :=
  omap (fun call => match call with CallPublish m => Some m | _ => None end) calls.

Definition accepted (x : OutboxRecord * Answer) : bool :=
  match brokerError x.2 with None => true | Some _ => false end.

(** Why a repository update is made. *)
Definition justified (c : OutboxPublisherConfig) (l : list (OutboxRecord * Answer)) (call : Call) : Prop :=
  match call with
  | CallPublish m => exists r a, (r, a) ∈ l /\ m = message c r
  | CallMarkPublished id w _ =>
      exists r a, (r, a) ∈ l /\ ID r = id /\ w = ConfigWorkerID c /\ brokerError a = None
  | CallScheduleRetry r' w =>
      exists r a reason, (r, a) ∈ l /\ brokerError a = Some reason /\ w = ConfigWorkerID c /\
        Status r' <> OutboxStatusDeadLettered /\
        RegisterFailure w reason (UTC (now a)) (RetryPolicy c) r = (r', Ok tt)
  | CallMarkDeadLettered r' w =>
      exists r a reason, (r, a) ∈ l /\ brokerError a = Some reason /\ w = ConfigWorkerID c /\
        Status r' = OutboxStatusDeadLettered /\
        RegisterFailure w reason (UTC (now a)) (RetryPolicy c) r = (r', Ok tt)
  end.

Lemma justified_cons c x l call : justified c l call -> justified c (x :: l) call.
Proof.
  destruct call; cbn.
  - intros (r & a & ? & ?). exists r, a. split; [by right|done].
  - intros (r & a & ? & ?). exists r, a. split; [by right|done].
  - intros (r' & a & reason & ? & ?). exists r', a, reason. split; [by right|done].
  - intros (r' & a & reason & ? & ?). exists r', a, reason. split; [by right|done].
Qed.

Lemma justified_update c r a l reason r' :
  brokerError a = Some reason ->
  RegisterFailure (ConfigWorkerID c) reason (UTC (now a)) (RetryPolicy c) r = (r', Ok tt) ->
  justified c ((r, a) :: l)
    (if Status r' == OutboxStatusDeadLettered then CallMarkDeadLettered r' (ConfigWorkerID c)
     else CallScheduleRetry r' (ConfigWorkerID c)).
Proof.
  intros Hb Hf. case_bool_decide as Hd; exists r, a, reason; split_and!; try done; by left.
Qed.

(** What a pass over [l] with count [n] before it guarantees. *)
Definition pass_ok (c : OutboxPublisherConfig) (l : list (OutboxRecord * Answer)) (n : Z)
    (res : list Call * (Z * option Error)) : Prop :=
  let '(calls, (n', err)) := res in
  Forall (justified c l) calls /\
  (exists k, (k <= length l)%nat /\
     published_messages calls = (fun x => message c x.1) <$> take k l /\
     (err = None -> k = length l)) /\
  (err = None -> n' = n + Z.of_nat (length (filter (fun x => accepted x = true) l))).

Lemma pass_stop c x l n n' calls err :
  Forall (justified c (x :: l)) calls -> published_messages calls = [message c x.1] ->
  pass_ok c (x :: l) n (calls, (n', Some err)).
Proof.
  intros Hj Hp. split_and!; [done| |done]. exists 1%nat. cbn [length]. split_and!; [lia| |done]. by rewrite Hp.
Qed.

Lemma pass_continue c x l n n0 calls call2 n' err :
  pass_ok c l n0 (calls, (n', err)) -> justified c (x :: l) call2 ->
  published_messages [call2] = [] ->
  n0 = (if accepted x then n + 1 else n) ->
  pass_ok c (x :: l) n (CallPublish (message c x.1) :: call2 :: calls, (n', err)).
Proof.
  intros (Hj & (k & Hk & Hm & Hke) & Hn) Hj2 Hp2 ->. split_and!.
  - constructor; [|constructor; [done|]].
    + destruct x as [r a]. exists r, a. split; [left|done].
    + eapply Forall_impl; [exact Hj|]. intros call. apply justified_cons.
  - exists (S k). cbn [length]. split_and!; [lia| |intros He; by rewrite Hke].
    change (CallPublish (message c x.1) :: call2 :: calls)
      with ([CallPublish (message c x.1)] ++ [call2] ++ calls).
    unfold published_messages in *. rewrite !omap_app, Hp2, Hm. done.
  - intros He. rewrite (Hn He), filter_cons. unfold accepted.
    destruct (brokerError x.2); [rewrite decide_False by done|rewrite decide_True by done];
      cbn [length]; lia.
Qed.

Lemma publishLoop_ok c l : forall n, pass_ok c l n (publishLoop c n l).
Proof.
  induction l as [|[r a] l IH]; intros n; cbn [publishLoop].
  { split_and!; [constructor| |intros _; cbn; lia]. by exists 0%nat. }
  destruct (brokerError a) as [reason|] eqn:Hb.
  - destruct (RegisterFailure _ _ _ _ r) as [r' [[]|ferr]] eqn:Hf.
    + pose proof (justified_update c r a l reason r' Hb Hf) as Hj.
      assert (published_messages
        [if Status r' == OutboxStatusDeadLettered then CallMarkDeadLettered r' (ConfigWorkerID c)
         else CallScheduleRetry r' (ConfigWorkerID c)] = []) as Hp by by case_bool_decide.
      destruct (repositoryOk a); cbn [negb].
      * specialize (IH n). destruct (publishLoop c n l) as [calls [n' err]].
        eapply (pass_continue c (r, a)); [exact IH|exact Hj|exact Hp|]. unfold accepted. cbn. by rewrite Hb.
      * apply pass_stop; [|by case_bool_decide].
        constructor; [exists r, a; split; [left|done]|]. constructor; [exact Hj|constructor].
    + apply pass_stop; [|done]. constructor; [exists r, a; split; [left|done]|constructor].
  - assert (justified c ((r, a) :: l) (CallMarkPublished (ID r) (ConfigWorkerID c) (UTC (now a)))) as Hj
      by (exists r, a; split_and!; [left|done..]).
    destruct (repositoryOk a); cbn [negb].
    + specialize (IH (n + 1)). destruct (publishLoop c (n + 1) l) as [calls [n' err]].
      eapply (pass_continue c (r, a)); [exact IH|exact Hj|done|]. unfold accepted. cbn. by rewrite Hb.
    + apply pass_stop; [|done].
      constructor; [exists r, a; split; [left|done]|]. constructor; [exact Hj|constructor].
Qed.

(** A publisher pass publishes the claimed records in their order, without
    skipping one, and each call after a publication is the one its answer calls for
    (mark published, retry or dead letter); unless it stops on an error, it goes
    through the whole batch and counts exactly the records the broker accepted and
    the store marked. *)
Theorem publisher_pass_accounts c l calls n err :
  PublishOnce c (Ok l) = (calls, (n, err)) ->
  Forall (justified c l) calls /\
  (exists k, (k <= length l)%nat /\
     published_messages calls = (fun x => message c x.1) <$> take k l /\
     (err = None -> k = length l)) /\
  (err = None -> n = Z.of_nat (length (filter (fun x => accepted x = true) l))).
Proof.
  intros H. cbn [PublishOnce] in H. pose proof (publishLoop_ok c l 0) as Hp. rewrite H in Hp. exact Hp.
Qed.

(** ** Witnesses *)

Definition ex_event : evaluation.DomainEvent :=
  evaluation.EvaluationCreatedEvent (replicate 16 "a"%char) (replicate 16 "s"%char) (utc_seconds 100) 1.

Definition ex_marshal (event : evaluation.DomainEvent) : option bytes := Some (bytes_of "{}").

Definition ex_record : OutboxRecord :=
  match NewOutboxRecord ex_marshal (replicate 16 "r"%char) (Some ex_event) (utc_seconds 101) with
  | Ok r => r
  | Err _ => MkOutboxRecord [] "" [] [] 0 "" [] "" ZeroTime ZeroTime None None None None None 0 0 "" "" None
  end.

Lemma ex_record_new :
  NewOutboxRecord ex_marshal (replicate 16 "r"%char) (Some ex_event) (utc_seconds 101) = Ok ex_record.
Proof. vm_compute. reflexivity. Qed.

Lemma ex_record_reachable cs : Forall command_ok cs -> reachable ex_marshal (run cs ex_record).
Proof.
  assert (reachable ex_marshal ex_record) as H by (eapply reachable_new; apply ex_record_new).
  revert H. generalize ex_record. induction cs as [|c cs IH]; intros r Hr Hall; [done|].
  apply Forall_cons in Hall as [Hc Hall]. apply IH; [by constructor|done].
Qed.

Definition ex_claimed : OutboxRecord := run [CStart "worker" (utc_seconds 110) Second] ex_record.

Definition ex_published : OutboxRecord :=
  run [CStart "worker" (utc_seconds 110) Second; CPublished "worker" (utc_seconds 111)] ex_record.

Lemma ex_claimed_reachable : reachable ex_marshal ex_claimed.
Proof. unfold ex_claimed. apply ex_record_reachable. repeat constructor. Qed.

Lemma ex_published_reachable : reachable ex_marshal ex_published.
Proof. unfold ex_published. apply ex_record_reachable. repeat constructor. Qed.

Lemma retry_delay_bounds_witness :
  Delay DefaultOutboxRetryPolicy 3 = 4 * Second /\
  Delay DefaultOutboxRetryPolicy 3 <= Delay DefaultOutboxRetryPolicy 12.
Proof.
  split; [reflexivity|].
  apply (retry_delay_bounds DefaultOutboxRetryPolicy 3 12); [reflexivity| |lia].
  split; vm_compute; discriminate.
Defined.

Lemma terminal_records_are_final_witness :
  run [CStart "other" (utc_seconds 200) Second; CPublished "other" (utc_seconds 201)] ex_published =
  ex_published.
Proof.
  apply (terminal_records_are_final ex_marshal).
  - apply ex_published_reachable.
  - vm_compute. reflexivity.
Defined.

Lemma published_only_by_lock_owner_witness :
  Status ex_claimed = OutboxStatusPublishing /\ Status ex_published = OutboxStatusPublished.
Proof.
  destruct (published_only_by_lock_owner ex_marshal ex_claimed ex_published "worker" (utc_seconds 111))
    as (H1 & _ & H2 & _).
  - apply ex_claimed_reachable.
  - vm_compute. reflexivity.
  - split; [exact H1|exact H2].
Defined.

Definition ex_attempt : FailedAttempt :=
  MkFailedAttempt "worker" (utc_seconds 110) Second "broker down" (utc_seconds 120)
    DefaultOutboxRetryPolicy.

Lemma ex_attempt_valid : attempt_valid ex_attempt.
Proof. split; [split_and!; vm_compute; congruence|split; vm_compute; discriminate]. Qed.

Lemma retries_are_bounded_witness :
  Status (fold_left failAttempt (replicate 10 ex_attempt) ex_record) = OutboxStatusDeadLettered.
Proof.
  apply (retries_are_bounded ex_marshal (replicate 16 "r"%char) (Some ex_event) (utc_seconds 101)
           ex_record (replicate 10 ex_attempt)).
  - apply ex_record_new.
  - apply Forall_replicate, ex_attempt_valid.
  - discriminate.
  - vm_compute. discriminate.
Defined.

Definition ex_config : OutboxPublisherConfig := DefaultOutboxPublisherConfig "worker".

Definition ex_pass : list (OutboxRecord * Answer) :=
  [(ex_claimed, MkAnswer None (utc_seconds 111) true);
   (ex_claimed, MkAnswer (Some "timeout") (utc_seconds 112) true)].

Lemma publisher_pass_accounts_witness :
  snd (PublishOnce ex_config (Ok ex_pass)) = (1, None) /\
  Forall (justified ex_config ex_pass) (fst (PublishOnce ex_config (Ok ex_pass))).
Proof.
  split; [vm_compute; reflexivity|].
  apply (publisher_pass_accounts ex_config ex_pass (fst (PublishOnce ex_config (Ok ex_pass))) 1 None).
  vm_compute. reflexivity.
Defined.

(** A failure is accepted on a record nobody claimed: the lock owner of a
    pending record is empty, and so is the worker ID, which [MarkPublished]
    refuses and [RegisterFailure] does not. *)
Theorem unclaimed_failure_schedules_retry :
  Status ex_record = OutboxStatusPending /\
  snd (MarkPublished "" (utc_seconds 120) ex_record) = Err ErrOutboxLockOwnershipMismatch /\
  exists r, RegisterFailure "" "no worker" (utc_seconds 120) DefaultOutboxRetryPolicy ex_record =
              (r, Ok tt) /\ Status r = OutboxStatusRetryScheduled.
Proof. split_and!; [reflexivity|vm_compute; reflexivity|]. eexists. split; vm_compute; reflexivity. Qed.

End outbox.

(** ** The goroutines of the publisher

    [Start] begins a goroutine that loops until its context is cancelled, and [Stop]
    cancels the context, waits until no goroutine is left and closes the broker.
    Both hold the mutex while they change the fields; [Stop] waits, closes and
    returns without it, so that each of these is a step of its own.

    The wait group is that of the standard library: [Wait] returns at once where the
    counter is zero and registers as a waiter otherwise; the [Done] that brings the
    counter to zero then wakes the waiters, each of which looks at the counter once
    more before its [Wait] returns. An [Add] between that [Done] and the waking, and a
    counter or a waiter that a woken [Wait] finds, are misuse, which panics. *)

Module publisher.
Import outbox.

(** What a loop is at, between two rounds of its [select]. *)
Inductive Work :=
  | Publishing
  | Cleaning.

Record Loop := MkLoop {
  cancelled : bool;
  work : option Work
}.

#[global] Instance Loop_eta : Eta Loop := fun l => MkLoop (cancelled l) (work l).

(** The fields of the publisher; the goroutines that the wait group counts; the calls
    of [Stop] that gave the mutex back, that are waiters of the group, that it woke,
    and whose [Wait] returned; how often the broker was closed, how many calls of
    [Stop] have returned, and whether the program panicked. *)
Record OutboxPublisher := MkOutboxPublisher {
  config : OutboxPublisherConfig;
  running : bool;
  cancel : option nat;
  loops : gmap nat Loop;
  started : nat;
  stopping : nat;
  waiting : nat;
  woken : nat;
  closing : nat;
  closed : nat;
  returned : nat;
  panicked : bool
}.

#[global] Instance OutboxPublisher_eta : Eta OutboxPublisher :=
  fun p => MkOutboxPublisher (config p) (running p) (cancel p) (loops p) (started p) (stopping p) (waiting p) (woken p)
             (closing p) (closed p) (returned p) (panicked p).

Definition NewOutboxPublisher {R B} (repo : option R) (broker : option B) (c : OutboxPublisherConfig)
    : outcome Error OutboxPublisher :=
  match repo, broker with
  | None, _ => Err ErrOutboxPublisherUnavailable
  | _, None => Err ErrOutboxBrokerUnavailable
  | Some _, Some _ =>
      match ValidateConfig c with
      | Some err => Err err
      | None => Ok (MkOutboxPublisher c false None ∅ 0 0 0 0 0 0 0 false)
      end
  end.

(** The counter of the wait group is zero. *)
Definition idle (p : OutboxPublisher) : bool := (size (loops p) =? 0)%nat.

(** [wg.Add(1)] panics where waiters are still to be woken. *)
Definition Start : action OutboxPublisher Error unit := fun p =>
  if running p then (p, Err ErrOutboxPublisherAlreadyRunning) else
  if idle p && negb (waiting p =? 0)%nat
  then (p <| running := true |> <| cancel := Some (started p) |> <| panicked := true |>, Ok tt) else
  (p <| running := true |> <| cancel := Some (started p) |>
     <| loops := <[started p := MkLoop false None]> (loops p) |> <| started := S (started p) |>, Ok tt).

Definition cancelLoop (n : nat) (p : OutboxPublisher) : OutboxPublisher :=
  p <| loops := alter (fun l => l <| cancelled := true |>) n (loops p) |>.

(** Up to the second [p.mu.Unlock]. *)
Definition Stop : action OutboxPublisher Error unit := fun p =>
  if negb (running p) then (p, Err ErrOutboxPublisherNotRunning) else
  let p := match cancel p with Some n => cancelLoop n p | None => p end in
  (p <| running := false |> <| stopping := S (stopping p) |>, Ok tt).

(** [p.wg.Wait]: it returns, or becomes a waiter. *)
Definition Wait (p : OutboxPublisher) : option OutboxPublisher :=
  if (stopping p =? 0)%nat then None else
  let p := p <| stopping := pred (stopping p) |> in
  Some (if idle p then p <| closing := S (closing p) |> else p <| waiting := S (waiting p) |>).

(** The waiters are woken, once the counter is zero. *)
Definition Wake (p : OutboxPublisher) : option OutboxPublisher :=
  if (waiting p =? 0)%nat || negb (idle p) then None else
  Some (p <| waiting := 0%nat |> <| woken := (waiting p + woken p)%nat |>).

(** The return of the [Wait] of a waiter. *)
Definition Waited (p : OutboxPublisher) : option OutboxPublisher :=
  if (woken p =? 0)%nat then None else
  let p := p <| woken := pred (woken p) |> in
  Some (if idle p && (waiting p =? 0)%nat then p <| closing := S (closing p) |> else p <| panicked := true |>).

(** [p.broker.Close], and the return of [Stop]. *)
Definition Close (p : OutboxPublisher) : option OutboxPublisher :=
  if (closing p =? 0)%nat then None else Some (p <| closing := pred (closing p) |> <| closed := S (closed p) |>).

Definition Return (p : OutboxPublisher) : option OutboxPublisher :=
  if (returned p <? closed p)%nat then Some (p <| returned := S (returned p) |>) else None.

Inductive Event :=
  | EvStart
  | EvStop
  | EvWait
  | EvWake
  | EvWaited
  | EvClose
  | EvReturn
  | EvContext (n : nat)
  | EvWork (n : nat) (w : Work)
  | EvFinish (n : nat)
  | EvExit (n : nat).

(** A step of the loop [n]: a tick begins work, which ends; a loop whose context is
    cancelled may return where it selects, and so may it take a tick that is ready. *)
Definition stepLoop (n : nat) (f : Loop -> option (option Loop)) (p : OutboxPublisher) : option OutboxPublisher :=
  match loops p !! n with
  | None => None
  | Some l =>
      match f l with
      | None => None
      | Some None => Some (p <| loops := delete n (loops p) |>)
      | Some (Some l) => Some (p <| loops := <[n := l]> (loops p) |>)
      end
  end.

Definition step (e : Event) (p : OutboxPublisher) : option OutboxPublisher :=
  if panicked p then None else
  match e with
  | EvStart => Some (fst (Start p))
  | EvStop => Some (fst (Stop p))
  | EvWait => Wait p
  | EvWake => Wake p
  | EvWaited => Waited p
  | EvClose => Close p
  | EvReturn => Return p
  | EvContext n => Some (cancelLoop n p)
  | EvWork n w => stepLoop n (fun l => match work l with None => Some (Some (l <| work := Some w |>)) | Some _ => None end) p
  | EvFinish n => stepLoop n (fun l => match work l with Some _ => Some (Some (l <| work := None |>)) | None => None end) p
  | EvExit n => stepLoop n (fun l => match work l with
                                     | None => if cancelled l then Some None else None
                                     | Some _ => None
                                     end) p
  end.

Fixpoint run (es : list Event) (p : OutboxPublisher) : option OutboxPublisher :=
  match es with
  | [] => Some p
  | e :: es =>
      match step e p with
      | None => None
      | Some p => run es p
      end
  end.

Inductive reachable : OutboxPublisher -> Prop :=
  | reachable_new {R B} (repo : option R) (broker : option B) c p : NewOutboxPublisher repo broker c = Ok p -> reachable p
  | reachable_step e p q : reachable p -> step e p = Some q -> reachable q.

(** ** One loop *)

(** Only the loop of the last [Start] may be live, while the publisher runs, and no
    later identity is in use. *)
Record sound (p : OutboxPublisher) : Prop := {
  so_live n l : loops p !! n = Some l -> cancelled l = false -> running p = true /\ cancel p = Some n;
  so_fresh n : (started p <= n)%nat -> loops p !! n = None;
  so_returned : (returned p <= closed p)%nat
}.

Lemma new_sound {R B} (repo : option R) (broker : option B) c p : NewOutboxPublisher repo broker c = Ok p -> sound p.
Proof.
  unfold NewOutboxPublisher. destruct repo, broker, (ValidateConfig c); try done. intros [= <-].
  split; cbn; [|intros; by simplify_map_eq|done]. intros; by simplify_map_eq.
Qed.

(** The steps of a [Stop] leave the loops, and who may be live. *)
Record same_loops (p q : OutboxPublisher) : Prop := {
  sl_loops : loops q = loops p;
  sl_running : running q = running p;
  sl_cancel : cancel q = cancel p;
  sl_started : started q = started p;
  sl_returned : (returned p <= closed p)%nat -> (returned q <= closed q)%nat
}.

Lemma stop_steps e p q :
  step e p = Some q -> e = EvWait \/ e = EvWake \/ e = EvWaited \/ e = EvClose \/ e = EvReturn -> same_loops p q.
Proof.
  unfold step. destruct (panicked p); [done|]. intros E He.
  destruct_or! He; subst e; unfold Wait, Wake, Waited, Close, Return in E; repeat case_match; simplify_eq; split; cbn; try done; lia.
Qed.

Lemma same_loops_sound p q : sound p -> same_loops p q -> sound q.
Proof.
  intros [Hl Hf Hr] [E1 E2 E3 E4 E5]. split; [|by rewrite E4, E1|auto]. rewrite E1, E2, E3. exact Hl.
Qed.

Lemma cancelLoop_lookup n p m l :
  loops (cancelLoop n p) !! m = Some l -> cancelled l = false -> m <> n /\ loops p !! m = Some l.
Proof.
  unfold cancelLoop. cbn. destruct (decide (m = n)) as [-> |Hne]; [|rewrite lookup_alter_ne by done; done].
  rewrite lookup_alter_eq. destruct (loops p !! n); [|done]. by intros [= <-].
Qed.

Lemma cancelLoop_absent n p m : loops p !! m = None -> loops (cancelLoop n p) !! m = None.
Proof.
  unfold cancelLoop. cbn. intros H. destruct (decide (m = n)) as [-> |Hne]; [by rewrite lookup_alter_eq, H|by rewrite lookup_alter_ne].
Qed.

(** A loop that takes a step is as live as it was. *)
Lemma stepLoop_inv n f p q :
  stepLoop n f p = Some q -> (forall l l', f l = Some (Some l') -> cancelled l' = cancelled l) ->
  exists l, loops p !! n = Some l /\ running q = running p /\ cancel q = cancel p /\ started q = started p /\
    (returned q = returned p /\ closed q = closed p /\ closing q = closing p /\ woken q = woken p) /\
    ((f l = Some None /\ loops q = delete n (loops p)) \/
     exists l', f l = Some (Some l') /\ cancelled l' = cancelled l /\ loops q = <[n := l']> (loops p)).
Proof.
  unfold stepLoop. intros H Hf. destruct (loops p !! n) as [l|]; [|done]. exists l.
  destruct (f l) as [[l'|]|] eqn:E; [| |done]; injection H as <-; cbn; split_and!; try done; [right|by left].
  exists l'. split_and!; [done|by apply Hf|done].
Qed.

Lemma stepLoop_sound n f p q :
  sound p -> stepLoop n f p = Some q -> (forall l l', f l = Some (Some l') -> cancelled l' = cancelled l) -> sound q.
Proof.
  intros [Hl Hf Hret] H Hc. apply stepLoop_inv in H as (l & Hn & Hr & Hk & Hs & (Hret1 & Hret2 & _) & H); [|done].
  split; rewrite ?Hr, ?Hk, ?Hs, ?Hret1, ?Hret2; [..|done].
  - intros m k Hm. destruct H as [[_ E]|(l' & _ & He & E)]; rewrite E in Hm.
    + apply lookup_delete_Some in Hm as [_ Hm]. by apply Hl.
    + apply lookup_insert_Some in Hm as [[<- <-]|[_ Hm]]; [rewrite He; by apply Hl|by apply Hl].
  - intros m Hm. specialize (Hf m Hm). assert (m <> n) by congruence.
    destruct H as [[_ ->]|(l' & _ & _ & ->)]; [by rewrite lookup_delete_ne|by rewrite lookup_insert_ne].
Qed.

Lemma Start_sound p : sound p -> sound (fst (Start p)).
Proof.
  intros Hp. unfold Start. destruct (running p) eqn:Er; [done|]. destruct Hp as [Hl Hf Hr].
  destruct (_ && _); (split; cbn; [| |done]).
  - intros n l Hn Hc. by apply Hl in Hn as [? _]; [congruence|].
  - done.
  - intros n l Hn Hc. apply lookup_insert_Some in Hn as [[<- _]|[_ Hn]]; [done|]. by apply Hl in Hn as [? _]; [congruence|].
  - intros n Hn. rewrite lookup_insert_ne by lia. apply Hf. lia.
Qed.

Lemma Stop_sound p : sound p -> sound (fst (Stop p)).
Proof.
  intros Hp. unfold Stop. destruct (running p) eqn:Er; [|done]. cbn [negb fst]. destruct Hp as [Hl Hf Hr].
  destruct (cancel p) as [n|] eqn:Ec; (split; cbn; [| |done]).
  - intros m l Hm Hc. apply cancelLoop_lookup in Hm as [Hne Hm]; [|done]. apply Hl in Hm as [_ Hm]; [congruence|done].
  - intros m Hm. apply cancelLoop_absent. by apply Hf.
  - intros m l Hm Hc. apply Hl in Hm as [_ Hm]; [congruence|done].
  - done.
Qed.

Lemma cancelLoop_sound n p : sound p -> sound (cancelLoop n p).
Proof.
  intros [Hl Hf Hr]. split; [| |done].
  - intros m l Hm Hc. apply cancelLoop_lookup in Hm as [_ Hm]; [|done]. by apply Hl in Hm.
  - intros m Hm. by apply cancelLoop_absent, Hf.
Qed.

Lemma step_sound e p q : sound p -> step e p = Some q -> sound q.
Proof.
  intros Hp E. destruct e as [| | | | | | |n|n w|n|n];
    try (eapply same_loops_sound; [exact Hp|]; eapply stop_steps; [exact E|]; tauto);
    unfold step in E; destruct (panicked p); try done; try injection E as <-.
  - by apply Start_sound.
  - by apply Stop_sound.
  - by apply cancelLoop_sound.
  - eapply stepLoop_sound; [done|exact E|]. intros l l'. cbv beta. destruct (work l); [done|]. by intros [= <-].
  - eapply stepLoop_sound; [done|exact E|]. intros l l'. cbv beta. destruct (work l); [|done]. by intros [= <-].
  - eapply stepLoop_sound; [done|exact E|]. intros l l'. cbv beta. destruct (work l); [done|]. by destruct (cancelled l).
Qed.

Lemma publisher_sound p : reachable p -> sound p.
Proof. induction 1; [by eapply new_sound|by eapply step_sound]. Qed.

(** ** The end of the loops *)

Lemma run_app es fs p q r : run es p = Some q -> run fs q = Some r -> run (es ++ fs) p = Some r.
Proof.
  revert p. induction es as [|e es IH]; intros p; cbn [run app]; [by intros [= ->]|].
  destruct (step e p) as [p'|]; [|done]. apply IH.
Qed.

(** Where there is no loop, only [Start] makes one. *)
Lemma no_loops_stay es p q : loops p = ∅ -> EvStart ∉ es -> run es p = Some q -> loops q = ∅.
Proof.
  revert p. induction es as [|e es IH]; intros p Hp He; cbn [run]; [by intros [= <-]|].
  apply not_elem_of_cons in He as [He Hes]. destruct (step e p) as [p'|] eqn:E; [|done]. apply IH; [|done].
  destruct e as [| | | | | | |n|n w|n|n];
    try (rewrite <- Hp; apply sl_loops; eapply stop_steps; [exact E|]; tauto);
    unfold step in E; destruct (panicked p); try done; unfold stepLoop in E; rewrite ?Hp in E;
    rewrite ?lookup_empty in E; try done; injection E as <-.
  - unfold Stop. destruct (running p); [|done]. cbn. destruct (cancel p); [|done]. cbn. by rewrite Hp.
  - cbn. by rewrite Hp.
Qed.

(** The ends of loops, and the rest of the calls of [Stop]. *)
Definition ending (e : Event) : Prop :=
  match e with
  | EvFinish _ | EvExit _ | EvWait | EvWake | EvWaited | EvClose | EvReturn => True
  | _ => False
  end.

(** A cancelled loop can finish its work and return. *)
Lemma loop_ends n l p :
  panicked p = false -> loops p !! n = Some l -> cancelled l = true ->
  exists es, Forall ending es /\ run es p = Some (p <| loops := delete n (loops p) |>).
Proof.
  intros Hp Hn Hc. assert (forall q k, panicked q = false -> loops q !! n = Some k -> cancelled k = true -> work k = None ->
    step (EvExit n) q = Some (q <| loops := delete n (loops q) |>)) as Hexit.
  { intros q k Hpq Hq Hk Hw. unfold step, stepLoop. by rewrite Hpq, Hq, Hw, Hk. }
  destruct (work l) as [w|] eqn:Ew.
  - exists [EvFinish n; EvExit n]. split; [by repeat constructor|].
    assert (step (EvFinish n) p = Some (p <| loops := <[n := l <| work := None |>]> (loops p) |>)) as E.
    { unfold step, stepLoop. by rewrite Hp, Hn, Ew. }
    cbn [run]. rewrite E. rewrite (Hexit _ (l <| work := None |>)); [|done|cbn; by rewrite lookup_insert_eq|done|done].
    cbn. by rewrite delete_insert_eq.
  - exists [EvExit n]. split; [by repeat constructor|]. cbn [run]. by rewrite (Hexit p l).
Qed.

Lemma loops_end m p :
  panicked p = false -> loops p = m -> (forall n l, m !! n = Some l -> cancelled l = true) ->
  exists es, Forall ending es /\ run es p = Some (p <| loops := ∅ |>).
Proof.
  revert p. induction m as [|n l m Hn IH] using map_ind; intros p Hpp Hp Hc.
  - exists []. split; [constructor|]. cbn [run]. f_equal. destruct p. cbn in *. by subst.
  - destruct (loop_ends n l p) as (es & He & Hes); [done|by rewrite Hp, lookup_insert_eq|by apply (Hc n), lookup_insert_eq|].
    rewrite Hp, delete_insert_id in Hes by done. destruct (IH (p <| loops := m |>)) as (fs & Hf & Hfs); [done|done| |].
    + intros k x Hk. apply (Hc k). rewrite lookup_insert_ne; [done|]. intros <-. congruence.
    + exists (es ++ fs). split; [by apply Forall_app|]. exact (run_app es fs _ _ _ Hes Hfs).
Qed.

(** The calls of [Stop] before they close the broker, and what they still have to do. *)
Definition unclosed (p : OutboxPublisher) : nat := (stopping p + waiting p + woken p + closing p)%nat.

Definition remaining (p : OutboxPublisher) : nat :=
  (3 * stopping p + 4 * waiting p + 3 * woken p + 2 * closing p + (closed p - returned p))%nat.

(** Where there is no loop, a call of [Stop] that has not returned takes a step. *)
Lemma stop_goes_on p :
  panicked p = false -> loops p = ∅ -> (returned p <= closed p)%nat -> remaining p <> 0%nat ->
  exists e q, ending e /\ step e p = Some q /\ panicked q = false /\ loops q = ∅ /\ (returned q <= closed q)%nat /\
    (remaining q < remaining p)%nat /\ (closed q + unclosed q = closed p + unclosed p)%nat.
Proof.
  destruct p as [c ru ca lo st s w k g cl re pa]. cbn. intros -> -> Hr Hne.
  assert (idle (MkOutboxPublisher c ru ca ∅ st s w k g cl re false) = true) as Hi by reflexivity.
  unfold remaining, unclosed in *. cbn in Hne. cbn.
  destruct w as [|w]; [|exists EvWake, (MkOutboxPublisher c ru ca ∅ st s 0 (S w + k) g cl re false)].
  2: split_and!; try done; cbn; lia.
  destruct k as [|k]; [|exists EvWaited, (MkOutboxPublisher c ru ca ∅ st s 0 k (S g) cl re false)].
  2: split_and!; try done; cbn; lia.
  destruct s as [|s]; [|exists EvWait, (MkOutboxPublisher c ru ca ∅ st s 0 0 (S g) cl re false)].
  2: split_and!; try done; cbn; lia.
  destruct g as [|g]; [|exists EvClose, (MkOutboxPublisher c ru ca ∅ st 0 0 0 g (S cl) re false)].
  2: split_and!; try done; cbn; lia.
  exists EvReturn, (MkOutboxPublisher c ru ca ∅ st 0 0 0 0 cl (S re) false).
  assert ((re <? cl)%nat = true) as Hlt by (apply Nat.ltb_lt; cbn in Hne; lia).
  split_and!; try done; [|cbn in *; lia..]. unfold step, Return. cbn [panicked returned closed]. by rewrite Hlt.
Qed.

Lemma stops_return n p :
  (remaining p <= n)%nat -> panicked p = false -> loops p = ∅ -> (returned p <= closed p)%nat ->
  exists es q, Forall ending es /\ run es p = Some q /\ loops q = ∅ /\ unclosed q = 0%nat /\
    closed q = (closed p + unclosed p)%nat /\ returned q = closed q.
Proof.
  revert p. induction n as [|n IH]; intros p Hn Hp Hl Hr; (destruct (decide (remaining p = 0%nat)) as [Hz|Hz];
    [exists [], p; unfold remaining, unclosed in *; split_and!; (done || lia)|]); [lia|].
  destruct (stop_goes_on p Hp Hl Hr Hz) as (e & q & He & Hq & Hp' & Hl' & Hr' & Hlt & Hsum).
  destruct (IH q) as (es & q' & Hes & Hrun & Hl2 & Hu & Hc & Hret); [lia|done..|].
  exists (e :: es), q'. split_and!; try done; [by constructor|cbn [run]; by rewrite Hq|lia].
Qed.

(** Only the loop of the last [Start] may be live, while the publisher runs. *)
Definition one_live (p : OutboxPublisher) : Prop :=
  forall n l, loops p !! n = Some l -> cancelled l = false -> running p = true /\ cancel p = Some n.

(** Every loop can end its round and return, and then every call of [Stop] can close
    the broker and return. *)
Definition winds_down (p : OutboxPublisher) : Prop :=
  exists es q, Forall ending es /\ run es p = Some q /\ loops q = ∅ /\ unclosed q = 0%nat /\
    closed q = (closed p + unclosed p)%nat /\ returned q = closed q.

(** Once the [Wait] of a [Stop] has returned there is no loop before the next
    [Start]. *)
Definition quiet_after (p : OutboxPublisher) : Prop :=
  forall e q es r, step e p = Some q -> closing q = S (closing p) -> EvStart ∉ es -> run es q = Some r -> loops r = ∅.

Lemma idle_empty p : idle p = true -> loops p = ∅.
Proof. unfold idle. intros H%Nat.eqb_eq. by apply map_size_empty_inv. Qed.

(** [Wait] returns where the counter is zero. *)
Lemma wait_returns e p q : step e p = Some q -> closing q = S (closing p) -> loops q = ∅.
Proof.
  unfold step. destruct (panicked p); [done|]. intros E Hc. destruct e as [| | | | | | |n|n w|n|n].
  - injection E as <-. unfold Start in Hc. repeat case_match; cbn in Hc; lia.
  - injection E as <-. unfold Stop in Hc. repeat case_match; cbn in Hc; lia.
  - unfold Wait in E. destruct (_ =? _)%nat; [done|]. cbv zeta in E. destruct (idle _) eqn:Ei; injection E as <-; [|cbn in Hc; lia].
    by apply idle_empty in Ei.
  - unfold Wake in E. destruct (_ || _); [done|]. injection E as <-. cbn in Hc. lia.
  - unfold Waited in E. destruct (_ =? _)%nat; [done|]. cbv zeta in E. destruct (idle _ && _) eqn:Ei; injection E as <-; [|cbn in Hc; lia].
    apply andb_true_iff in Ei as [Ei _]. by apply idle_empty in Ei.
  - unfold Close in E. destruct (closing p =? 0)%nat; [done|]. injection E as <-. cbn in Hc. lia.
  - unfold Return in E. destruct (_ <? _)%nat; [|done]. injection E as <-. cbn in Hc. lia.
  - injection E as <-. cbn in Hc. lia.
  - unfold stepLoop in E. repeat case_match; simplify_eq; cbn in Hc; lia.
  - unfold stepLoop in E. repeat case_match; simplify_eq; cbn in Hc; lia.
  - unfold stepLoop in E. repeat case_match; simplify_eq; cbn in Hc; lia.
Qed.

(** C31: the loop of the publisher. In every state that Start and Stop can bring
    about, however their steps (the wait, the closing of the broker and the return
    of Stop each on its own) interleave with the rounds of the loops and the ends of
    their contexts: only the loop of the last Start is not cancelled, and none once
    Stop was called; then, unless the program panicked, every loop can end its round
    and return, and with them every Stop, each of which closes the broker; and once
    the wait of a Stop has returned there is no loop, and so no round, before the
    next Start. *)
Theorem stop_ends_publishing p :
  reachable p -> one_live p /\ (running p = false -> panicked p = false -> winds_down p) /\ quiet_after p.
Proof.
  intros [Hl _ Hret]%publisher_sound. split_and!; [exact Hl| |].
  - intros Hr Hp. destruct (loops_end (loops p) p Hp eq_refl) as (es & He & Hes).
    { intros n l Hn. destruct (cancelled l) eqn:E; [done|]. destruct (Hl n l Hn E). congruence. }
    destruct (stops_return (remaining (p <| loops := ∅ |>)) (p <| loops := ∅ |>)) as (fs & q & Hf & Hrun & Hq); [done..|].
    exists (es ++ fs), q. split_and!; [by apply Forall_app|exact (run_app es fs _ _ _ Hes Hrun)|apply Hq..].
  - intros e q es r E Hc He Hr. refine (no_loops_stay es q r _ He Hr). by eapply wait_returns.
Qed.

(** A live loop ends only by [Stop] or with its context, and [Stop] waits for it. *)
Definition live (n : nat) (p : OutboxPublisher) : Prop := exists l, loops p !! n = Some l /\ cancelled l = false.

Lemma stepLoop_live n m f p q :
  live n p -> stepLoop m f p = Some q -> (forall l l', f l = Some (Some l') -> cancelled l' = cancelled l) ->
  (forall l, f l = Some None -> cancelled l = true) -> live n q.
Proof.
  intros (l & Hn & Hc) H Hf He. apply stepLoop_inv in H as (k & Hk & _ & _ & _ & _ & H); [|done].
  destruct (decide (m = n)) as [-> |Hne]; destruct H as [[E Hq]|(k' & _ & Hk' & Hq)]; unfold live; rewrite Hq.
  - apply He in E. congruence.
  - exists k'. split; [apply lookup_insert_eq|congruence].
  - exists l. by rewrite lookup_delete_ne.
  - exists l. by rewrite lookup_insert_ne.
Qed.

Lemma live_stays e p q n :
  sound p -> live n p -> e <> EvStop -> e <> EvContext n -> step e p = Some q ->
  live n q /\ (closing p = 0%nat /\ woken p = 0%nat -> closing q = 0%nat /\ woken q = 0%nat).
Proof.
  intros Hp Hn H1 H2 E. assert (idle p = false) as Hi.
  { destruct Hn as (l & Hn & _). destruct (idle p) eqn:Ei; [|done]. apply idle_empty in Ei. by rewrite Ei in Hn. }
  unfold step in E. destruct (panicked p); [done|].
  destruct e as [| | | | | | |m|m w|m|m]; try done.
  - injection E as <-. pose proof Hn as (l & Hl & Hc). destruct (so_live _ Hp n l Hl Hc) as [Hr _].
    unfold Start. by rewrite Hr.
  - unfold Wait in E. destruct (_ =? _)%nat; [done|]. cbv zeta in E.
    change (idle (p <| stopping := _ |>)) with (idle p) in E. rewrite Hi in E. by injection E as <-.
  - unfold Wake in E. rewrite Hi, orb_true_r in E. done.
  - unfold Waited in E. destruct (woken p =? 0)%nat eqn:Ek; [done|]. apply Nat.eqb_neq in Ek. cbv zeta in E.
    change (idle (p <| woken := _ |>)) with (idle p) in E. rewrite Hi in E. injection E as <-. split; [exact Hn|]. by intros [_ ?].
  - unfold Close in E. destruct (closing p =? 0)%nat eqn:Eg; [done|]. apply Nat.eqb_neq in Eg. injection E as <-.
    split; [exact Hn|]. by intros [? _].
  - unfold Return in E. destruct (_ <? _)%nat; [|done]. by injection E as <-.
  - injection E as <-. destruct Hn as (l & Hn & Hc). split; [|done]. exists l. cbn. rewrite lookup_alter_ne by congruence. done.
  - split; [eapply stepLoop_live; [done|exact E|..]; intros l; cbv beta; destruct (work l); try done; by intros l' [= <-]|].
    apply stepLoop_inv in E as (l & _ & _ & _ & _ & (_ & _ & -> & ->) & _); [done|]. intros l1 l2. cbv beta. destruct (work l1); [done|]. by intros [= <-].
  - split; [eapply stepLoop_live; [done|exact E|..]; intros l; cbv beta; destruct (work l); try done; by intros l' [= <-]|].
    apply stepLoop_inv in E as (l & _ & _ & _ & _ & (_ & _ & -> & ->) & _); [done|]. intros l1 l2. cbv beta. destruct (work l1); [|done]. by intros [= <-].
  - split; [eapply stepLoop_live; [done|exact E|..]; intros l; cbv beta; destruct (work l), (cancelled l); done|].
    apply stepLoop_inv in E as (l & _ & _ & _ & _ & (_ & _ & -> & ->) & _); [done|]. intros l1 l2. cbv beta. destruct (work l1), (cancelled l1); done.
Qed.

Lemma live_loop_blocks es p q n :
  sound p -> live n p -> closing p = 0%nat /\ woken p = 0%nat -> EvStop ∉ es -> EvContext n ∉ es -> run es p = Some q ->
  closing q = 0%nat.
Proof.
  revert p. induction es as [|e es IH]; intros p Hp Hn Hz; cbn [run].
  - intros _ _ [= <-]. apply Hz.
  - intros [He1 Hes1]%not_elem_of_cons [He2 Hes2]%not_elem_of_cons. destruct (step e p) as [p'|] eqn:E; [|done].
    destruct (live_stays e p p' n Hp Hn) as [Hn' Hz']; [congruence..|done|].
    apply IH; [by eapply step_sound|done|auto|done|done].
Qed.

(** ** Runs *)

Definition ex_publisher : OutboxPublisher := MkOutboxPublisher ex_config false None ∅ 0 0 0 0 0 0 0 false.

Lemma ex_publisher_new : NewOutboxPublisher (Some tt) (Some tt) ex_config = Ok ex_publisher.
Proof. vm_compute. reflexivity. Qed.

Lemma reachable_run es p q : reachable p -> run es p = Some q -> reachable q.
Proof.
  revert p. induction es as [|e es IH]; intros p Hp; cbn [run]; [by intros [= <-]|].
  destruct (step e p) as [p'|] eqn:E; [|done]. apply IH. by eapply reachable_step.
Qed.

Lemma ex_publisher_reachable es q : run es ex_publisher = Some q -> reachable q.
Proof. apply reachable_run. exact (reachable_new (Some tt) (Some tt) ex_config ex_publisher ex_publisher_new). Qed.

(** A loop that is in a round when [Stop] is called. *)
Definition ex_stopping := Eval vm_compute in default ex_publisher (run [EvStart; EvWork 0 Publishing; EvStop] ex_publisher).

Lemma ex_stopping_run : run [EvStart; EvWork 0 Publishing; EvStop] ex_publisher = Some ex_stopping.
Proof. vm_compute. reflexivity. Qed.

Lemma stop_ends_publishing_witness : one_live ex_stopping /\ winds_down ex_stopping /\ quiet_after ex_stopping.
Proof.
  destruct (stop_ends_publishing ex_stopping (ex_publisher_reachable _ _ ex_stopping_run)) as (H1 & H2 & H3).
  split; [exact H1|]. split; [exact (H2 eq_refl eq_refl)|exact H3].
Defined.

(** A [Start] between [Stop] and the end of its wait: [Stop] now waits for the new
    loop, which nobody cancels. *)
Definition ex_late := Eval vm_compute in
  default ex_publisher (run [EvStart; EvWork 0 Publishing; EvStop; EvStart; EvFinish 0; EvExit 0] ex_publisher).

Example stop_waits_for_a_later_start :
  run [EvStart; EvWork 0 Publishing; EvStop; EvStart; EvFinish 0; EvExit 0] ex_publisher = Some ex_late /\
  stopping ex_late = 1%nat /\
  forall es q, EvStop ∉ es -> EvContext 1 ∉ es -> run es ex_late = Some q -> closing q = 0%nat.
Proof.
  assert (run [EvStart; EvWork 0 Publishing; EvStop; EvStart; EvFinish 0; EvExit 0] ex_publisher = Some ex_late) as E
    by (vm_compute; reflexivity).
  split; [exact E|]. split; [reflexivity|]. intros es q. apply live_loop_blocks.
  - exact (publisher_sound _ (ex_publisher_reachable _ _ E)).
  - exists (MkLoop false None). split; vm_compute; reflexivity.
  - split; reflexivity.
Qed.

(** A [Start] after the wait: [Stop] closes the broker under the new loop, and
    returns while it runs. *)
Example start_before_the_close :
  run [EvStart; EvStop; EvExit 0; EvWait; EvStart; EvClose; EvReturn] ex_publisher =
    Some (MkOutboxPublisher ex_config true (Some 1%nat) {[1%nat := MkLoop false None]} 2 0 0 0 0 1 1 false).
Proof. vm_compute. reflexivity. Qed.

(** A [Start] between the waking of a [Stop] and the return of its wait: the program
    panics. *)
Example start_before_the_wait_returns :
  panicked <$> run [EvStart; EvStop; EvWait; EvExit 0; EvWake; EvStart; EvWaited] ex_publisher = Some true.
Proof. vm_compute. reflexivity. Qed.

(** The context of the caller ends: the loop returns, and [Start] is still refused. *)
Example ended_context_still_runs :
  run [EvStart; EvContext 0; EvExit 0] ex_publisher =
    Some (MkOutboxPublisher ex_config true (Some 0%nat) ∅ 1 0 0 0 0 0 0 false) /\
  snd (Start (MkOutboxPublisher ex_config true (Some 0%nat) ∅ 1 0 0 0 0 0 0 false)) = Err ErrOutboxPublisherAlreadyRunning.
Proof. split; vm_compute; reflexivity. Qed.

End publisher.
