(* ===== verification/Policy.v ===== *)
(** * Verification policies ([policy/])

    Immutable policy versions and their hash ([version.go]), signatures and the
    trust store ([signature.go]), activation ([lifecycle.go]), the registry of
    activated versions ([registry.go]) and the admission path ([admission.go]).

    [ed25519.Verify] is a parameter. A pointer that the code compares with nil
    is an [option]. Errors are identified as [errors.Is] identifies them. *)

From Stdlib Require Import Ascii String.
From S2P Require Import Prelude GoTime GoString Uuid GoCrypto GoJson GoJsonStruct GoTimeFormat.

Module policy.

Inductive Error :=
  | ErrPolicyIDRequired
  | ErrVersionRequired
  | ErrSchemaVersionRequired
  | ErrEffectiveFromRequired
  | ErrInvalidEffectivePeriod
  | ErrRequiredRulesMissing
  | ErrDuplicateRequiredRule
  | ErrInvalidDocument
  | ErrNonCanonicalDocument
  | ErrHashMismatch
  | ErrSignatureRequired
  | ErrSignerIDRequired
  | ErrKeyIDRequired
  | ErrAlgorithmRequired
  | ErrSignedAtRequired
  | ErrVerificationTimeRequired
  | ErrVerificationKeyAbsent
  | ErrUnsupportedAlgorithm
  | ErrInvalidSignature
  | ErrKeyNotYetValid
  | ErrKeyExpired
  | ErrKeyRevoked
  | ErrVerificationKeyConflict
  | ErrApproverRequired
  | ErrApprovedAtRequired
  | ErrActivationTimeRequired
  | ErrApprovalIdentityMismatch
  | ErrApprovalAfterActivation
  | ErrInvalidLifecycleChange
  | ErrVersionConflict
  | ErrEffectiveOverlap
  | ErrPolicyNotFound
  | ErrAmbiguousPolicy
  | ErrTrustStoreRequired
  | ErrPolicyRegistryRequired
  | ErrDocumentValidatorRequired
  | ErrVerificationAfterActivation
  | ErrDocumentRejected.

#[global] Instance Error_eq_dec : EqDecision Error.
Proof. solve_decision. Defined.

(** ** Data *)

Record Input := MkInput {
  InputPolicyID : string;
  InputVersion : string;
  InputSchemaVersion : string;
  InputEffectiveFrom : Time;
  InputEffectiveUntil : option Time;
  InputRequiredRuleIDs : list string;
  InputDocument : bytes
}.

Record Snapshot := MkSnapshot {
  PolicyID : string;
  VersionName : string;
  SchemaVersion : string;
  EffectiveFrom : Time;
  EffectiveUntil : option Time;
  RequiredRuleIDs : list string;
  Document : bytes;
  Hash : string
}.

#[global] Instance Snapshot_eta : Eta Snapshot :=
  fun s => MkSnapshot (PolicyID s) (VersionName s) (SchemaVersion s) (EffectiveFrom s)
    (EffectiveUntil s) (RequiredRuleIDs s) (Document s) (Hash s).

#[global] Instance Snapshot_eq_dec : EqDecision Snapshot.
Proof. solve_decision. Defined.

(** [*Version]: a value of this type holds an immutable snapshot. *)
Record Version := MkVersion { versionSnapshot : Snapshot }.

Definition copyTime (value : option Time) : option Time := UTC <$> value.

Arguments copyTime : simpl never.

Definition copySnapshot (s : Snapshot) : Snapshot := s <| EffectiveUntil := copyTime (EffectiveUntil s) |>.

(** [(v *Version) Snapshot()] *)
Definition VersionSnapshot (v : Version) : Snapshot := copySnapshot (versionSnapshot v).

(** The loop over [RequiredRuleIDs]: the trimmed IDs, with those [seen]. *)
Fixpoint normalizeRules (seen : gset string) (ids : list string) : outcome Error (list string) :=
  match ids with
  | [] => Ok []
  | ruleID :: rest =>
      let ruleID := TrimSpace ruleID in
      if ruleID == "" then Err ErrRequiredRulesMissing else
      if bool_decide (ruleID ∈ seen) then Err ErrDuplicateRequiredRule else
      let! out := normalizeRules ({[ruleID]} ∪ seen) rest in
      Ok (ruleID :: out)
  end.

Definition normalizeAndValidate (s : Snapshot) : outcome Error Snapshot :=
  let s := s <| PolicyID := TrimSpace (PolicyID s) |> <| VersionName := TrimSpace (VersionName s) |>
             <| SchemaVersion := TrimSpace (SchemaVersion s) |>
             <| EffectiveFrom := UTC (EffectiveFrom s) |>
             <| EffectiveUntil := copyTime (EffectiveUntil s) |> in
  if PolicyID s == "" then Err ErrPolicyIDRequired else
  if VersionName s == "" then Err ErrVersionRequired else
  if SchemaVersion s == "" then Err ErrSchemaVersionRequired else
  if IsZero (EffectiveFrom s) then Err ErrEffectiveFromRequired else
  if match EffectiveUntil s with
     | None => false
     | Some until => negb (After until (EffectiveFrom s))
     end
  then Err ErrInvalidEffectivePeriod else
  if RequiredRuleIDs s == [] then Err ErrRequiredRulesMissing else
  let! ids := normalizeRules ∅ (RequiredRuleIDs s) in
  Ok (s <| RequiredRuleIDs := ids |>).

Definition effectiveAt (s : Snapshot) (at_ : Time) : bool :=
  let at_ := UTC at_ in
  negb (IsZero at_) && negb (Before at_ (EffectiveFrom s)) &&
  match EffectiveUntil s with
  | None => true
  | Some until => Before at_ until
  end.

Definition IsEffectiveAt (v : Version) (at_ : Time) : bool :=
  if IsZero at_ then false else
  let at_ := UTC at_ in
  negb (Before at_ (EffectiveFrom (versionSnapshot v))) &&
  match EffectiveUntil (versionSnapshot v) with
  | None => true
  | Some until => Before at_ until
  end.

Definition effectivePeriodsOverlap (left right : Snapshot) : bool :=
  match EffectiveUntil left with None => true | Some until => Before (EffectiveFrom right) until end &&
  match EffectiveUntil right with None => true | Some until => Before (EffectiveFrom left) until end.

(** *** Signatures *)

Definition AlgorithmEd25519 : string := "ED25519".

Record Signature := MkSignature {
  SignerID : string;
  KeyID : string;
  Algorithm : string;
  SignedAt : Time;
  Value : string
}.

#[global] Instance Signature_eta : Eta Signature :=
  fun s => MkSignature (SignerID s) (KeyID s) (Algorithm s) (SignedAt s) (Value s).

Record VerificationKey := MkVerificationKey {
  KeySignerID : string;
  KeyKeyID : string;
  KeyAlgorithm : string;
  PublicKey : bytes;
  ValidFrom : Time;
  ValidUntil : option Time;
  RevokedAt : option Time
}.

#[global] Instance VerificationKey_eta : Eta VerificationKey :=
  fun k => MkVerificationKey (KeySignerID k) (KeyKeyID k) (KeyAlgorithm k) (PublicKey k)
    (ValidFrom k) (ValidUntil k) (RevokedAt k).

Record VerifiedVersion := MkVerifiedVersion {
  verifiedVersion : option Version;
  verifiedSignature : Signature
}.

(** [TrustStore]: the interface the verifier reads keys through. *)
Class TrustStore (T : Type) := {
  ResolveVerificationKey : string -> string -> T -> outcome Error VerificationKey
}.

(** *** The memory trust store *)

Abbreviation MemoryTrustStore := (gmap string VerificationKey).

Definition keyIdentity (signerID keyID : string) : string :=
  signerID ++ String zero (keyID).

Definition sameOptionalTime (left right : option Time) : bool :=
  match left, right with
  | None, None => true
  | Some l, Some r => TimeEqual l r
  | _, _ => false
  end.

Definition sameVerificationKey (l r : VerificationKey) : bool :=
  (KeySignerID l == KeySignerID r) && (KeyKeyID l == KeyKeyID r) && (KeyAlgorithm l == KeyAlgorithm r) &&
  (PublicKey l == PublicKey r) && TimeEqual (ValidFrom l) (ValidFrom r) &&
  sameOptionalTime (ValidUntil l) (ValidUntil r) && sameOptionalTime (RevokedAt l) (RevokedAt r).

Definition AddKey (key : VerificationKey) : action MemoryTrustStore Error unit := fun s =>
  let key := key <| KeySignerID := TrimSpace (KeySignerID key) |>
                 <| KeyKeyID := TrimSpace (KeyKeyID key) |>
                 <| KeyAlgorithm := TrimSpace (KeyAlgorithm key) |> in
  if (KeySignerID key == "") || (KeyKeyID key == "") || (KeyAlgorithm key == "") ||
     (PublicKey key == [])
  then (s, Err ErrVerificationKeyAbsent) else
  let identity := keyIdentity (KeySignerID key) (KeyKeyID key) in
  match s !! identity with
  | Some existing =>
      if sameVerificationKey existing key then (s, Ok tt) else (s, Err ErrVerificationKeyConflict)
  | None => (<[identity := key]> s, Ok tt)
  end.

Definition NewMemoryTrustStore (keys : list VerificationKey) : outcome Error MemoryTrustStore :=
  match afor AddKey keys ∅ with
  | (s, Ok _) => Ok s
  | (_, Err err) => Err err
  end.

Definition Revoke (signerID keyID : string) (revokedAt : Time) : action MemoryTrustStore Error unit :=
  fun s =>
  if IsZero revokedAt then (s, Err ErrVerificationKeyAbsent) else
  let identity := keyIdentity (TrimSpace signerID) (TrimSpace keyID) in
  match s !! identity with
  | None => (s, Err ErrVerificationKeyAbsent)
  | Some key =>
      let revokedAt := UTC revokedAt in
      match RevokedAt key with
      | Some previous =>
          if TimeEqual previous revokedAt then (s, Ok tt) else (s, Err ErrVerificationKeyConflict)
      | None => (<[identity := key <| RevokedAt := Some revokedAt |>]> s, Ok tt)
      end
  end.

#[global] Instance MemoryTrustStore_store : TrustStore MemoryTrustStore := {
  ResolveVerificationKey signerID keyID s :=
    match s !! keyIdentity signerID keyID with
    | Some key => Ok key
    | None => Err ErrVerificationKeyAbsent
    end
}.

(** *** Activation *)

Record ApprovalRecord := MkApprovalRecord {
  ApprovalPolicyID : string;
  ApprovalVersion : string;
  ApprovalPolicyHash : string;
  ApprovedBy : string;
  ApprovedAt : Time
}.

#[global] Instance ApprovalRecord_eta : Eta ApprovalRecord :=
  fun a => MkApprovalRecord (ApprovalPolicyID a) (ApprovalVersion a) (ApprovalPolicyHash a)
    (ApprovedBy a) (ApprovedAt a).

Record ActivatedVersion := MkActivatedVersion {
  verified : VerifiedVersion;
  approval : ApprovalRecord;
  activated : Time
}.

Definition Activate (v : option VerifiedVersion) (approval : ApprovalRecord) (activatedAt : Time)
    : outcome Error ActivatedVersion :=
  match v with
  | None => Err ErrPolicyNotFound
  | Some v =>
      match verifiedVersion v with
      | None => Err ErrPolicyNotFound
      | Some version =>
          let approval := approval <| ApprovalPolicyID := TrimSpace (ApprovalPolicyID approval) |>
                                   <| ApprovalVersion := TrimSpace (ApprovalVersion approval) |>
                                   <| ApprovalPolicyHash := TrimSpace (ApprovalPolicyHash approval) |>
                                   <| ApprovedBy := TrimSpace (ApprovedBy approval) |>
                                   <| ApprovedAt := UTC (ApprovedAt approval) |> in
          let activatedAt := UTC activatedAt in
          let snapshot := VersionSnapshot version in
          if ApprovedBy approval == "" then Err ErrApproverRequired else
          if IsZero (ApprovedAt approval) then Err ErrApprovedAtRequired else
          if IsZero activatedAt then Err ErrActivationTimeRequired else
          if (ApprovalPolicyID approval != PolicyID snapshot) ||
             (ApprovalVersion approval != VersionName snapshot) ||
             (ApprovalPolicyHash approval != Hash snapshot)
          then Err ErrApprovalIdentityMismatch else
          if After (ApprovedAt approval) activatedAt then Err ErrApprovalAfterActivation else
          Ok (MkActivatedVersion v approval activatedAt)
      end
  end.

(** ** The registry *)

Abbreviation LifecycleStatus := string.

Definition LifecycleActive : LifecycleStatus := "ACTIVE".
Definition LifecycleSuspended : LifecycleStatus := "SUSPENDED".
Definition LifecycleRetired : LifecycleStatus := "RETIRED".

Record registryEntry := MkRegistryEntry {
  snapshot : Snapshot;
  status : LifecycleStatus;
  statusAt : Time
}.

#[global] Instance registryEntry_eta : Eta registryEntry :=
  fun e => MkRegistryEntry (snapshot e) (status e) (statusAt e).

Abbreviation Registry := (gmap string (gmap string registryEntry)).

Definition NewRegistry : Registry := ∅.

(** [r.versions[policyID]]: a missing policy reads as the nil map. *)
Definition byVersion (policyID : string) (r : Registry) : gmap string registryEntry :=
  default ∅ (r !! policyID).

Definition AddVersion (activatedVersion : option ActivatedVersion) : action Registry Error unit := fun r =>
  match activatedVersion with
  | None => (r, Err ErrPolicyNotFound)
  | Some a =>
      match verifiedVersion (verified a) with
      | None => (r, Err ErrPolicyNotFound)
      | Some version =>
          let s := VersionSnapshot version in
          let versions := byVersion (PolicyID s) r in
          let r := <[PolicyID s := versions]> r in
          match versions !! VersionName s with
          | Some existing =>
              if Hash (snapshot existing) == Hash s then (r, Ok tt) else (r, Err ErrVersionConflict)
          | None =>
              if existsb (fun '(_, existing) => effectivePeriodsOverlap (snapshot existing) s)
                   (map_to_list versions)
              then (r, Err ErrEffectiveOverlap) else
              let entry := MkRegistryEntry (copySnapshot s) LifecycleActive (activated a) in
              (<[PolicyID s := <[VersionName s := entry]> versions]> r, Ok tt)
          end
      end
  end.

Definition transition (policyID version : string) (target : LifecycleStatus) (at_ : Time)
    : action Registry Error unit := fun r =>
  if IsZero at_ then (r, Err ErrInvalidLifecycleChange) else
  match byVersion policyID r !! version with
  | None => (r, Err ErrInvalidLifecycleChange)
  | Some entry =>
      if Before (UTC at_) (statusAt entry) then (r, Err ErrInvalidLifecycleChange) else
      let valid := ((status entry == LifecycleActive) &&
                    ((target == LifecycleSuspended) || (target == LifecycleRetired))) ||
                   ((status entry == LifecycleSuspended) && (target == LifecycleRetired)) in
      if negb valid then (r, Err ErrInvalidLifecycleChange) else
      let entry := entry <| status := target |> <| statusAt := UTC at_ |> in
      (<[policyID := <[version := entry]> (byVersion policyID r)]> r, Ok tt)
  end.

Definition Suspend (policyID version : string) (at_ : Time) : action Registry Error unit :=
  transition policyID version LifecycleSuspended at_.

Definition Retire (policyID version : string) (at_ : Time) : action Registry Error unit :=
  transition policyID version LifecycleRetired at_.

(** The versions [Resolve] matches. *)
Definition matches (policyID : string) (at_ : Time) (r : Registry) : list registryEntry :=
  filter (fun e => (status e == LifecycleActive) && negb (Before at_ (statusAt e)) &&
                   effectiveAt (snapshot e) at_ = true)
    (snd <$> map_to_list (byVersion policyID r)).

(** ** Operations that use the encoders *)

Definition canonicalJSON (payload : bytes) : outcome Error bytes :=
  match json.Decode payload with
  | None => Err ErrInvalidDocument
  | Some (value, rest) =>
      if negb (json.AtEOF rest) then Err ErrInvalidDocument else Ok (json.Marshal value)
  end.

(** [json.Marshal] of the envelope that is hashed. Both callers have made its
    times UTC. *)
Definition policyEnvelope (s : Snapshot) : option bytes :=
  let until :=
    match EffectiveUntil s with
    | None => Some []
    | Some until => (fun t => [field "effective_until" t]) <$> MarshalTime 0 until
    end in
  match MarshalTime 0 (EffectiveFrom s), until, MarshalRaw (Document s) with
  | Some from, Some until, Some document =>
      Some (object
        ([field "policy_id" (quoteString (PolicyID s)); field "version" (quoteString (VersionName s));
          field "schema_version" (quoteString (SchemaVersion s)); field "effective_from" from] ++ until ++
         [field "required_rule_ids" (MarshalStrings (RequiredRuleIDs s)); field "document" document]))
  | _, _, _ => None
  end.

(** The error of [json.Marshal] is dropped: the payload is then nil. *)
Definition calculateHash (s : Snapshot) : string :=
  let payload := default [] (policyEnvelope s) in
  "sha256:" ++ string_of (hex_encode (sha256 payload)).

Definition NewVersion (input : Input) : outcome Error Version :=
  let! document := canonicalJSON (InputDocument input) in
  let s := MkSnapshot (TrimSpace (InputPolicyID input)) (TrimSpace (InputVersion input))
             (TrimSpace (InputSchemaVersion input)) (UTC (InputEffectiveFrom input))
             (copyTime (InputEffectiveUntil input)) (InputRequiredRuleIDs input) document "" in
  let! s := normalizeAndValidate s in
  Ok (MkVersion (s <| Hash := calculateHash s |>)).

Definition Rehydrate (s : Snapshot) : outcome Error Version :=
  let copy := copySnapshot s in
  let! copy := normalizeAndValidate copy in
  let! canonical := canonicalJSON (Document copy) in
  if canonical != Document copy then Err ErrNonCanonicalDocument else
  if Hash copy != calculateHash copy then Err ErrHashMismatch else
  Ok (MkVersion copy).

(** The normalization that [SigningPayload] and [Verify] both start with. *)
Definition normalizeSignature (s : Signature) : Signature :=
  MkSignature (TrimSpace (SignerID s)) (TrimSpace (KeyID s)) (TrimSpace (Algorithm s)) (UTC (SignedAt s)) (Value s).

Definition SigningPayload (version : Version) (s : Signature) : option bytes :=
  let s := normalizeSignature s in
  match MarshalTime 0 (SignedAt s) with
  | None => None
  | Some signedAt =>
      Some (sha256 (object
        [field "domain" (quoteString "cargoos:policy-signature:v1");
         field "policy_hash" (quoteString (Hash (VersionSnapshot version)));
         field "signer_id" (quoteString (SignerID s)); field "key_id" (quoteString (KeyID s));
         field "algorithm" (quoteString (Algorithm s)); field "signed_at" signedAt]))
  end.

Section signatures.
(** [ed25519.Verify] *)
Variable ed25519_Verify : bytes -> bytes -> bytes -> bool.

(** What is checked before the key is asked for. *)
Definition checkSignature (version : option Version) (s : Signature) (verifiedAt : Time) : outcome Error Version :=
  match version with
  | None => Err ErrPolicyNotFound
  | Some version =>
      if SignerID s == "" then Err ErrSignerIDRequired else
      if KeyID s == "" then Err ErrKeyIDRequired else
      if Algorithm s == "" then Err ErrAlgorithmRequired else
      if IsZero (SignedAt s) then Err ErrSignedAtRequired else
      if Value s == "" then Err ErrSignatureRequired else
      if IsZero verifiedAt then Err ErrVerificationTimeRequired else
      Ok version
  end.

(** What is checked with the key. *)
Definition verifyWithKey (version : Version) (s : Signature) (verifiedAt : Time) (key : VerificationKey)
    : outcome Error VerifiedVersion :=
  let expired (t : Time) :=
    match ValidUntil key with None => false | Some until => negb (Before t (UTC until)) end in
  let revoked (t : Time) :=
    match RevokedAt key with None => false | Some at_ => negb (Before t (UTC at_)) end in
  if (KeySignerID key != SignerID s) || (KeyKeyID key != KeyID s)
  then Err ErrVerificationKeyAbsent else
  if (KeyAlgorithm key != Algorithm s) || (Algorithm s != AlgorithmEd25519)
  then Err ErrUnsupportedAlgorithm else
  if negb (IsZero (ValidFrom key)) && Before (SignedAt s) (UTC (ValidFrom key))
  then Err ErrKeyNotYetValid else
  if expired (SignedAt s) then Err ErrKeyExpired else
  if revoked (SignedAt s) then Err ErrKeyRevoked else
  if expired verifiedAt then Err ErrKeyExpired else
  if revoked verifiedAt then Err ErrKeyRevoked else
  match base64_Decode (Value s) with
  | None => Err ErrInvalidSignature
  | Some value =>
      if (length value != 64%nat) || (length (PublicKey key) != 32%nat)
      then Err ErrInvalidSignature else
      let payload := default [] (SigningPayload version s) in
      if negb (ed25519_Verify (PublicKey key) payload value) then Err ErrInvalidSignature else
      Ok (MkVerifiedVersion (Some version) s)
  end.

(** [Verifier.Verify]; asking for the key may act on what keeps it. *)
Definition Verify {C E} (lift : Error -> E) (resolve : string -> string -> action C E VerificationKey)
    (version : option Version) (s : Signature) (verifiedAt : Time) : action C E VerifiedVersion :=
  let s := normalizeSignature s in
  let verifiedAt := UTC verifiedAt in
  do! version <- (fun c => (c, omap_err lift (checkSignature version s verifiedAt)));
  do! key <- resolve (SignerID s) (KeyID s);
  fun c => (c, omap_err lift (verifyWithKey version s verifiedAt key)).

Definition Resolve (policyID : string) (at_ : Time) (r : Registry) : outcome Error Version :=
  match matches policyID at_ r with
  | [] => Err ErrPolicyNotFound
  | [e] => Rehydrate (copySnapshot (snapshot e))
  | _ => Err ErrAmbiguousPolicy
  end.

Definition FindVersion (policyID version hash : string) (r : Registry) : outcome Error Version :=
  match byVersion policyID r !! version with
  | None => Err ErrPolicyNotFound
  | Some e =>
      if Hash (snapshot e) == hash then Rehydrate (copySnapshot (snapshot e))
      else Err ErrPolicyNotFound
  end.

(** ** Admission *)

(** The verifier, the document validator and the registry of a service, with what
    they act on; [lift] is how an error of this package comes back. *)
Record AdmissionService (C E : Type) := MkAdmissionService {
  lift_error : Error -> E;
  verifier : option Version -> Signature -> Time -> action C E VerifiedVersion;
  validator : Version -> option E;
  registry : option ActivatedVersion -> action C E unit
}.
#[global] Arguments MkAdmissionService {C E}.
#[global] Arguments lift_error {C E}.
#[global] Arguments verifier {C E}.
#[global] Arguments validator {C E}.
#[global] Arguments registry {C E}.

Definition NewVerifier {TS} (trustStore : option TS) : outcome Error TS :=
  match trustStore with
  | None => Err ErrTrustStoreRequired
  | Some store => Ok store
  end.

Definition NewAdmissionService {C E} (lift : Error -> E)
    (verifier : option (option Version -> Signature -> Time -> action C E VerifiedVersion))
    (validator : option (Version -> option E)) (registry : option (option ActivatedVersion -> action C E unit))
    : outcome Error (AdmissionService C E) :=
  match verifier with
  | None => Err ErrTrustStoreRequired
  | Some verifier =>
      match validator with
      | None => Err ErrDocumentValidatorRequired
      | Some validator =>
          match registry with
          | None => Err ErrPolicyRegistryRequired
          | Some registry => Ok (MkAdmissionService lift verifier validator registry)
          end
      end
  end.

Definition Admit {C E} (service : AdmissionService C E) (version : option Version) (s : Signature)
    (approval : ApprovalRecord) (verifiedAt activatedAt : Time) : action C E ActivatedVersion :=
  let verifiedAt := UTC verifiedAt in
  let activatedAt := UTC activatedAt in
  if negb (IsZero verifiedAt) && negb (IsZero activatedAt) && After verifiedAt activatedAt
  then fun c => (c, Err (lift_error service ErrVerificationAfterActivation)) else
  do! verified <- verifier service version s verifiedAt;
  match option_bind _ _ (validator service) (verifiedVersion verified) with
  | Some err => fun c => (c, Err err)
  | None =>
      do! activated <- (fun c => (c, omap_err (lift_error service) (Activate (Some verified) approval activatedAt)));
      do! _ <- registry service (Some activated);
      aret activated
  end.

(** Keys and versions in memory. *)
Definition memoryService `{!TrustStore T} (store : T) (validate : Version -> option Error)
    : AdmissionService Registry Error :=
  MkAdmissionService id (Verify id (fun signerID keyID r => (r, ResolveVerificationKey signerID keyID store)))
    validate AddVersion.

End signatures.

End policy.
