(* ===== verification/PolicyRegistry.v ===== *)
(** * Properties of policy versions, their admission and the registry

    Versions survive a rehydration, the registry never holds two versions of a
    policy effective at one time, a closed version stays closed, a stored
    version stays readable, and an admitted version was verified. *)

From Stdlib Require Import Ascii String.
From S2P Require Import Prelude GoTime GoString Uuid GoCrypto GoJson GoJsonText Policy.
Import policy.

(** ** Normal snapshots *)

Lemma copyTime_idemp o : copyTime (copyTime o) = copyTime o.
Proof. by destruct o. Qed.

Lemma copySnapshot_idemp s : copySnapshot (copySnapshot s) = copySnapshot s.
Proof. unfold copySnapshot. cbn. by rewrite copyTime_idemp. Qed.

(** Distinct trimmed rule IDs, none of them seen. *)
Lemma normalizeRules_fixed ids : forall seen out,
  normalizeRules seen ids = Ok out -> normalizeRules seen out = Ok out.
Proof.
  induction ids as [|id ids IH]; intros seen out; cbn [normalizeRules]; [by intros [= <-]|].
  destruct (TrimSpace id == "") eqn:H1; [done|].
  destruct (bool_decide (_ ∈ seen)) eqn:H2; [done|].
  intros (l & Hl & [= <-])%obind_ok. cbn [normalizeRules]. rewrite TrimSpace_idemp, H1, H2.
  by rewrite (IH _ _ Hl).
Qed.

Lemma normalizeRules_nonempty seen ids out :
  normalizeRules seen ids = Ok out -> ids <> [] -> out <> [].
Proof.
  destruct ids as [|id ids]; [done|]. cbn [normalizeRules]. destruct (TrimSpace id == ""); [done|].
  destruct (bool_decide (_ ∈ seen)); [done|]. by intros (l & _ & [= <-])%obind_ok.
Qed.

(** What [normalizeAndValidate] guarantees of its result. *)
Lemma normalizeAndValidate_ok s s' :
  normalizeAndValidate s = Ok s' ->
  normalizeAndValidate s' = Ok s' /\ copySnapshot s' = s' /\ Document s' = Document s /\
  Hash s' = Hash s /\
  forall until, EffectiveUntil s' = Some until -> instant (EffectiveFrom s') < instant until.
Proof.
  unfold normalizeAndValidate. cbn.
  destruct (TrimSpace (PolicyID s) == "") eqn:H1; [done|].
  destruct (TrimSpace (VersionName s) == "") eqn:H2; [done|].
  destruct (TrimSpace (SchemaVersion s) == "") eqn:H3; [done|].
  destruct (IsZero (UTC (EffectiveFrom s))) eqn:H4; [done|].
  destruct (match copyTime _ with Some _ => _ | None => _ end) eqn:H5; [done|].
  destruct (RequiredRuleIDs s == []) eqn:H6; [done|]. apply bool_decide_eq_false_1 in H6.
  intros (ids & Hids & [= <-])%obind_ok. cbn.
  rewrite !TrimSpace_idemp, H1, H2, H3, copyTime_idemp, UTC_idemp, H4, H5.
  rewrite bool_decide_eq_false_2 by by eapply normalizeRules_nonempty.
  rewrite (normalizeRules_fixed _ _ _ Hids). cbn.
  split_and!; try done; [by unfold copySnapshot; cbn; rewrite copyTime_idemp|].
  intros t Hu. rewrite Hu in H5. by apply negb_false_iff, Z.ltb_lt in H5.
Qed.

(** The hash plays no part in the validation. *)
Lemma normalizeAndValidate_hash s h s' :
  normalizeAndValidate s = Ok s' -> normalizeAndValidate (s <| Hash := h |>) = Ok (s' <| Hash := h |>).
Proof.
  unfold normalizeAndValidate. cbn.
  destruct (TrimSpace (PolicyID s) == ""); [done|]. destruct (TrimSpace (VersionName s) == ""); [done|].
  destruct (TrimSpace (SchemaVersion s) == ""); [done|]. destruct (IsZero _); [done|].
  destruct (match copyTime _ with Some _ => _ | None => _ end); [done|].
  destruct (RequiredRuleIDs s == []); [done|]. intros (ids & -> & [= <-])%obind_ok. done.
Qed.

(** A version whose snapshot rehydrates to it. *)
Definition valid_version (v : Version) : Prop := Rehydrate (versionSnapshot v) = Ok v.

Lemma canonicalJSON_canonical d c : canonicalJSON d = Ok c <-> json.canonical d = Some c.
Proof.
  unfold canonicalJSON, json.canonical, json.decodeOne. destruct (json.Decode d) as [[value rest]|]; [|done].
  destruct (json.AtEOF rest); cbn; [|done]. split; intros [= <-]; done.
Qed.

Lemma canonicalJSON_stable d c : canonicalJSON d = Ok c -> canonicalJSON c = Ok c.
Proof. rewrite !canonicalJSON_canonical. apply canonical_idempotent. Qed.

Lemma calculateHash_ignores_hash s h : calculateHash (s <| Hash := h |>) = calculateHash s.
Proof. reflexivity. Qed.

Lemma Rehydrate_valid s v :
  Rehydrate s = Ok v ->
  valid_version v /\ copySnapshot (versionSnapshot v) = versionSnapshot v /\
  Hash (versionSnapshot v) = calculateHash (versionSnapshot v) /\
  forall until, EffectiveUntil (versionSnapshot v) = Some until ->
    instant (EffectiveFrom (versionSnapshot v)) < instant until.
Proof.
  unfold valid_version, Rehydrate. intros (n & Hn & H)%obind_ok.
  apply normalizeAndValidate_ok in Hn as (Hn & Hc & _ & _ & Hu).
  apply obind_ok in H as (c & Hcan & H).
  destruct (c != Document n) eqn:H1; [done|]. destruct (Hash n != _) eqn:H2; [done|].
  injection H as <-. cbn [versionSnapshot]. rewrite Hc, Hn. cbn [obind]. rewrite Hcan. cbn [obind].
  rewrite H1, H2. apply negb_false_iff, bool_decide_eq_true_1 in H2. done.
Qed.

(** A valid version reads back through its own snapshot. *)
Lemma valid_version_snapshot v :
  valid_version v -> VersionSnapshot v = versionSnapshot v /\ Rehydrate (VersionSnapshot v) = Ok v.
Proof.
  intros Hv. destruct (Rehydrate_valid _ _ Hv) as (_ & Hc & _).
  unfold VersionSnapshot. by rewrite Hc.
Qed.

(** A version that NewVersion accepts rehydrates from its own snapshot to
    itself, and its hash is that of its content. *)
Theorem version_round_trip input v :
  NewVersion input = Ok v ->
  Rehydrate (VersionSnapshot v) = Ok v /\
  Hash (VersionSnapshot v) = calculateHash (VersionSnapshot v).
Proof.
  intros H. unfold NewVersion in H. apply obind_ok in H as (doc & Hdoc & H).
  apply obind_ok in H as (n & Hn & H).
  apply normalizeAndValidate_ok in Hn as (Hn & Hc & Hd & _ & _). cbn in Hd.
  set (h := calculateHash n) in H.
  assert (versionSnapshot v = n <| Hash := h |>) as Hv by by injection H as <-.
  assert (copySnapshot (n <| Hash := h |>) = n <| Hash := h |>) as Hcs.
  { unfold copySnapshot in *. apply (f_equal EffectiveUntil) in Hc. cbn in *. by rewrite Hc. }
  unfold VersionSnapshot. rewrite Hv, Hcs. split; [|by rewrite calculateHash_ignores_hash].
  unfold Rehydrate. rewrite Hcs, (normalizeAndValidate_hash _ h _ Hn). cbn [obind].
  change (Document (n <| Hash := h |>)) with (Document n). rewrite Hd.
  rewrite (canonicalJSON_stable _ _ Hdoc). cbn [obind].
  rewrite (bool_decide_eq_true_2 (doc = doc)) by done. cbn [negb].
  rewrite calculateHash_ignores_hash. change (Hash (n <| Hash := h |>)) with h.
  rewrite bool_decide_eq_true_2 by done. cbn [negb]. rewrite <- Hv. by destruct v.
Qed.

(** ** The registry *)

Lemma byVersion_insert pid pid' m (r : Registry) :
  byVersion pid (<[pid' := m]> r) = if decide (pid = pid') then m else byVersion pid r.
Proof.
  unfold byVersion. case_decide as H; [subst; by rewrite lookup_insert_eq|by rewrite lookup_insert_ne].
Qed.

Lemma byVersion_reinsert pid pid' (r : Registry) :
  byVersion pid (<[pid' := byVersion pid' r]> r) = byVersion pid r.
Proof. rewrite byVersion_insert. by case_decide as H; subst. Qed.

(** The mutating operations, as data. *)
Inductive Command :=
  | CAdd (a : ActivatedVersion)
  | CSuspend (policyID version : string) (at_ : Time)
  | CRetire (policyID version : string) (at_ : Time).

Definition exec (c : Command) : action Registry Error unit :=
  match c with
  | CAdd a => AddVersion (Some a)
  | CSuspend pid v at_ => Suspend pid v at_
  | CRetire pid v at_ => Retire pid v at_
  end.

Definition run (cs : list Command) (r : Registry) : Registry :=
  fold_left (fun r c => fst (exec c r)) cs r.

(** Versions come from [NewVersion] and [Rehydrate]. *)
Definition command_ok (c : Command) : Prop :=
  match c with
  | CAdd a => forall v, verifiedVersion (verified a) = Some v -> valid_version v
  | _ => True
  end.

Record registry_ok (r : Registry) : Prop := {
  rg_policy : forall pid name e, byVersion pid r !! name = Some e -> PolicyID (snapshot e) = pid;
  rg_name : forall pid name e, byVersion pid r !! name = Some e -> VersionName (snapshot e) = name;
  rg_valid : forall pid name e,
    byVersion pid r !! name = Some e -> valid_version (MkVersion (snapshot e));
  rg_disjoint : forall pid n1 n2 e1 e2,
    byVersion pid r !! n1 = Some e1 -> byVersion pid r !! n2 = Some e2 -> n1 <> n2 ->
    effectivePeriodsOverlap (snapshot e1) (snapshot e2) = false
}.

(** How an entry may evolve. *)
Definition evolves (e e' : registryEntry) : Prop :=
  snapshot e' = snapshot e /\
  (status e = LifecycleActive \/ status e' <> LifecycleActive).

Definition keeps (r r' : Registry) : Prop :=
  forall pid name e, byVersion pid r !! name = Some e ->
    exists e', byVersion pid r' !! name = Some e' /\ evolves e e'.

Lemma keeps_refl r : keeps r r.
Proof.
  intros pid name e He. exists e. split; [done|]. split; [done|].
  destruct (decide (status e = LifecycleActive)); auto.
Qed.

Lemma keeps_trans r1 r2 r3 : keeps r1 r2 -> keeps r2 r3 -> keeps r1 r3.
Proof.
  intros H1 H2 pid name e He. destruct (H1 _ _ _ He) as (e2 & He2 & S2 & A2).
  destruct (H2 _ _ _ He2) as (e3 & He3 & S3 & A3). exists e3. split; [done|]. split; [congruence|].
  destruct A2; [by left|]. destruct A3; [done|by right].
Qed.

Lemma overlap_sym s t : effectivePeriodsOverlap s t = effectivePeriodsOverlap t s.
Proof. unfold effectivePeriodsOverlap. apply andb_comm. Qed.

Lemma AddVersion_cases a r r' res :
  AddVersion (Some a) r = (r', res) ->
  (forall pid, byVersion pid r' = byVersion pid r) \/
  exists v, verifiedVersion (verified a) = Some v /\ res = Ok tt /\
    let s := VersionSnapshot v in
    byVersion (PolicyID s) r !! VersionName s = None /\
    (forall name e, byVersion (PolicyID s) r !! name = Some e ->
       effectivePeriodsOverlap (snapshot e) s = false) /\
    forall pid, byVersion pid r' =
      if decide (pid = PolicyID s)
      then <[VersionName s := MkRegistryEntry (copySnapshot s) LifecycleActive (activated a)]>
             (byVersion pid r)
      else byVersion pid r.
Proof.
  unfold AddVersion. destruct (verifiedVersion (verified a)) as [v|]; [|intros [= <- <-]; by left].
  set (s := VersionSnapshot v).
  destruct (byVersion (PolicyID s) r !! VersionName s) as [old|] eqn:Hold.
  { destruct (Hash (snapshot old) == Hash s); intros [= <- <-]; left; intros pid;
      apply byVersion_reinsert. }
  destruct (existsb _ _) eqn:Hx; intros [= <- <-]; [left; intros pid; apply byVersion_reinsert|].
  right. exists v. split_and!; [done..| |].
  - intros name e He. destruct (effectivePeriodsOverlap (snapshot e) s) eqn:Ho; [|done].
    assert (existsb (fun '(_, existing) => effectivePeriodsOverlap (snapshot existing) s)
      (map_to_list (byVersion (PolicyID s) r)) = true); [|congruence].
    apply existsb_exists. exists (name, e). split; [|done].
    by apply list_elem_of_In, elem_of_map_to_list.
  - intros pid. rewrite !byVersion_insert. change (VersionSnapshot v) with s.
    change (PolicyID (versionSnapshot v)) with (PolicyID s).
    change (VersionName (versionSnapshot v)) with (VersionName s).
    case_decide as Hp; [by rewrite Hp|done].
Qed.

Lemma AddVersion_ok a r :
  command_ok (CAdd a) -> registry_ok r ->
  registry_ok (fst (AddVersion (Some a) r)) /\ keeps r (fst (AddVersion (Some a) r)).
Proof.
  intros Ha Hr. destruct (AddVersion (Some a) r) as [r' res] eqn:H. cbn [fst].
  destruct (AddVersion_cases _ _ _ _ H) as [Hsame|(v & Hv & _ & Hnone & Hdis & Hins)].
  { split; [|intros pid name e He; rewrite Hsame; by apply keeps_refl].
    destruct Hr as [R1 R2 R3 R4].
    split; intros *; rewrite ?Hsame; [apply R1|apply R2|apply R3|apply R4]. }
  pose proof (Ha v Hv) as Hval. destruct (valid_version_snapshot v Hval) as [Hs _].
  destruct (Rehydrate_valid _ _ Hval) as (_ & Hcopy & _).
  rewrite Hs in Hnone, Hdis, Hins. rewrite Hcopy in Hins. set (s := versionSnapshot v) in *.
  assert (forall pid name e, byVersion pid r' !! name = Some e ->
    (pid = PolicyID s /\ name = VersionName s /\ snapshot e = s) \/
    (byVersion pid r !! name = Some e /\ (pid = PolicyID s -> name <> VersionName s))) as Hlook.
  { intros pid name e. rewrite Hins. case_decide as Hp; [|by right].
    intros [[<- <-]|[Hne He]]%lookup_insert_Some; [by left|right; by split]. }
  destruct Hr as [R1 R2 R3 R4]. split; [split|].
  - intros pid name e [(-> & _ & ->)|[He _]]%Hlook; [done|by eapply R1].
  - intros pid name e [(_ & -> & ->)|[He _]]%Hlook; [done|by eapply R2].
  - intros pid name e [(_ & _ & ->)|[He _]]%Hlook; [by destruct v|by eapply R3].
  - intros pid n1 n2 e1 e2 [(-> & -> & ->)|[He1 Hn1]]%Hlook [(Hp & -> & ->)|[He2 Hn2]]%Hlook Hne.
    + done.
    + rewrite overlap_sym. by eapply Hdis.
    + subst pid. by eapply Hdis.
    + by eapply R4.
  - intros pid name e He. destruct (decide (pid = PolicyID s /\ name = VersionName s)) as [[-> ->]|Hne].
    + congruence.
    + exists e. split.
      * rewrite Hins. case_decide; [|done]. rewrite lookup_insert_ne; [done|]. intros Heq. apply Hne. by split.
      * destruct (decide (status e = LifecycleActive)); split; auto.
Qed.

Lemma transition_cases pid name target at_ r r' res :
  transition pid name target at_ r = (r', res) ->
  (r' = r /\ exists err, res = Err err) \/
  exists e, byVersion pid r !! name = Some e /\ res = Ok tt /\
    (target = LifecycleSuspended \/ target = LifecycleRetired) /\
    r' = <[pid := <[name := e <| status := target |> <| statusAt := UTC at_ |>]> (byVersion pid r)]> r.
Proof.
  unfold transition. destruct (IsZero at_); [intros [= <- <-]; eauto|].
  destruct (byVersion pid r !! name) as [e|] eqn:He; [|intros [= <- <-]; eauto].
  destruct (Before _ _); [intros [= <- <-]; eauto|].
  destruct (negb _) eqn:Hv; intros [= <- <-]; [eauto|]. right. exists e. split_and!; try done.
  apply negb_false_iff in Hv. rewrite orb_true_iff, !andb_true_iff, orb_true_iff, !bool_decide_eq_true in Hv.
  tauto.
Qed.

Lemma transition_ok pid name target at_ r :
  registry_ok r -> registry_ok (fst (transition pid name target at_ r)) /\
                   keeps r (fst (transition pid name target at_ r)).
Proof.
  intros Hr. destruct (transition pid name target at_ r) as [r' res] eqn:H. cbn [fst].
  destruct (transition_cases _ _ _ _ _ _ _ H) as [[-> _]|(e0 & He0 & _ & Ht & ->)];
    [split; [done|apply keeps_refl]|].
  set (e0' := e0 <| status := target |> <| statusAt := UTC at_ |>).
  assert (forall pid' name' e, byVersion pid' (<[pid := <[name := e0']> (byVersion pid r)]> r) !! name' = Some e ->
    exists e1, byVersion pid' r !! name' = Some e1 /\ snapshot e = snapshot e1) as Hlook.
  { intros pid' name' e. rewrite byVersion_insert. case_decide as Hp; [|by eauto]. subst pid'.
    intros [[<- <-]|[_ He]]%lookup_insert_Some; eauto. }
  destruct Hr as [R1 R2 R3 R4]. split; [split|].
  - intros pid' name' e (e1 & He1 & ->)%Hlook. by eapply R1.
  - intros pid' name' e (e1 & He1 & ->)%Hlook. by eapply R2.
  - intros pid' name' e (e1 & He1 & ->)%Hlook. by eapply R3.
  - intros pid' n1 n2 x1 x2 (e1 & He1 & ->)%Hlook (e2 & He2 & ->)%Hlook. by eapply R4.
  - intros pid' name' e He. rewrite byVersion_insert. case_decide as Hp; [subst pid'|by apply keeps_refl].
    destruct (decide (name' = name)) as [->|Hn].
    + rewrite He0 in He. injection He as <-. exists e0'. rewrite lookup_insert_eq. split; [done|].
      split; [done|]. right. cbn. by destruct Ht as [-> | ->].
    + rewrite lookup_insert_ne by done. by apply keeps_refl.
Qed.

Lemma registry_exec_ok c r :
  command_ok c -> registry_ok r -> registry_ok (fst (exec c r)) /\ keeps r (fst (exec c r)).
Proof. destruct c; [apply AddVersion_ok|intros _; apply transition_ok|intros _; apply transition_ok]. Qed.

Lemma registry_run_ok cs r :
  Forall command_ok cs -> registry_ok r -> registry_ok (run cs r) /\ keeps r (run cs r).
Proof.
  revert r. induction cs as [|c cs IH]; intros r Hcs Hr; [split; [done|apply keeps_refl]|].
  apply Forall_cons in Hcs as [Hc Hcs]. destruct (registry_exec_ok c r Hc Hr) as [H1 H2].
  destruct (IH (fst (exec c r)) Hcs H1) as [H3 H4]. split; [exact H3|by eapply keeps_trans].
Qed.

Lemma NewRegistry_ok : registry_ok NewRegistry.
Proof. split; intros *; unfold byVersion, NewRegistry; rewrite lookup_empty; cbn; by rewrite lookup_empty. Qed.

Lemma registry_reachable_ok cs : Forall command_ok cs -> registry_ok (run cs NewRegistry).
Proof. intros H. apply registry_run_ok; [done|apply NewRegistry_ok]. Qed.

(** An active entry in its period. *)
Definition in_force (at_ : Time) (e : registryEntry) : bool :=
  (status e == LifecycleActive) && negb (Before at_ (statusAt e)) && effectiveAt (snapshot e) at_.

Lemma effective_overlap s t at_ :
  effectiveAt s at_ = true -> effectiveAt t at_ = true -> effectivePeriodsOverlap s t = true.
Proof.
  unfold effectiveAt, effectivePeriodsOverlap. rewrite !andb_true_iff, !negb_true_iff.
  intros [[_ H1] H2] [[_ H3] H4]. unfold Before in *. split.
  - destruct (EffectiveUntil s); [|done]. lia.
  - destruct (EffectiveUntil t); [|done]. lia.
Qed.

Lemma matches_elem pid at_ r e :
  e ∈ matches pid at_ r <-> in_force at_ e = true /\ exists name, byVersion pid r !! name = Some e.
Proof.
  unfold matches, in_force. rewrite list_elem_of_filter, list_elem_of_fmap. split.
  - intros [Hf ([name e'] & -> & Hin%elem_of_map_to_list)]. split; [done|by exists name].
  - intros [Hf [name Hin]]. split; [done|]. exists (name, e). split; [done|].
    by apply elem_of_map_to_list.
Qed.

(** At most one entry of a policy is in force. *)
Lemma matches_unique pid at_ r :
  registry_ok r -> matches pid at_ r = [] \/ exists e, matches pid at_ r = [e].
Proof.
  intros Hr. destruct (matches pid at_ r) as [|e1 [|e2 l]] eqn:Hm; [by left|right; by exists e1|].
  exfalso. assert (NoDup (fst <$> map_to_list (byVersion pid r))) as Hnd by apply NoDup_fst_map_to_list.
  assert (e1 :: e2 :: l `sublist_of` snd <$> map_to_list (byVersion pid r)) as Hsub.
  { rewrite <- Hm. apply sublist_filter. }
  assert (forall e, e ∈ e1 :: e2 :: l -> in_force at_ e = true /\
    exists name, byVersion pid r !! name = Some e) as Hall.
  { intros e He. rewrite <- Hm in He. by apply matches_elem. }
  assert (e1 <> e2) as Hne.
  { assert (NoDup (VersionName ∘ snapshot <$> (snd <$> map_to_list (byVersion pid r)))) as Hnd'.
    { rewrite <- list_fmap_compose. erewrite list_fmap_ext; [exact Hnd|].
      intros i [name e] Hi%list_elem_of_lookup_2%elem_of_map_to_list. cbn. by eapply rg_name. }
    eapply sublist_NoDup in Hnd'; [|by apply sublist_fmap].
    cbn in Hnd'. apply NoDup_cons in Hnd' as [Hn _]. intros ->. apply Hn. left. }
  destruct (Hall e1 ltac:(left)) as [F1 [n1 L1]].
  destruct (Hall e2 ltac:(right; left)) as [F2 [n2 L2]].
  unfold in_force in F1, F2. apply andb_true_iff in F1 as [_ F1], F2 as [_ F2].
  pose proof (effective_overlap _ _ _ F1 F2) as Ho.
  destruct (decide (n1 = n2)) as [->|Hn]; [congruence|].
  by rewrite (rg_disjoint r Hr pid n1 n2 e1 e2 L1 L2 Hn) in Ho.
Qed.

Lemma Rehydrate_entry pid name e r :
  registry_ok r -> byVersion pid r !! name = Some e ->
  Rehydrate (copySnapshot (snapshot e)) = Ok (MkVersion (snapshot e)).
Proof.
  intros Hr He. pose proof (rg_valid r Hr pid name e He) as Hv.
  by destruct (valid_version_snapshot _ Hv) as [_ H].
Qed.

(** Resolution is a partial function: on every registry the operations can
    build from valid versions, Resolve is never ambiguous, and it yields exactly the
    version whose entry is active, was so already at the time asked for, and whose
    effective period covers that time. *)
Theorem resolve_spec cs pid at_ v :
  Forall command_ok cs ->
  let r := run cs NewRegistry in
  Resolve pid at_ r <> Err ErrAmbiguousPolicy /\
  (Resolve pid at_ r = Ok v <->
   exists name e, byVersion pid r !! name = Some e /\ in_force at_ e = true /\
     v = MkVersion (snapshot e)).
Proof.
  intros Hcs r. pose proof (registry_reachable_ok cs Hcs) as Hr. fold r in Hr.
  assert (forall e, e ∈ matches pid at_ r -> exists name, byVersion pid r !! name = Some e) as Hin
    by (intros e [_ He]%matches_elem; exact He).
  unfold Resolve. destruct (matches_unique pid at_ r Hr) as [Hm|[e Hm]]; rewrite Hm in *.
  - split; [done|]. split; [done|]. intros (name & e & He & Hf & _).
    assert (e ∈ matches pid at_ r) as Hx by (apply matches_elem; eauto).
    rewrite Hm in Hx. by apply elem_of_nil in Hx.
  - destruct (Hin e ltac:(left)) as [name He]. rewrite (Rehydrate_entry _ _ _ _ Hr He).
    split; [done|]. split.
    + intros [= <-]. exists name, e. split_and!; [done| |done].
      assert (e ∈ matches pid at_ r) as Hx by (rewrite Hm; left). by apply matches_elem in Hx as [? _].
    + intros (name' & e' & He' & Hf & ->).
      assert (e' ∈ matches pid at_ r) as Hx by (apply matches_elem; eauto).
      rewrite Hm in Hx. by apply list_elem_of_singleton in Hx as ->.
Qed.

(** Once a version is suspended or retired, no sequence of registry operations
    makes Resolve yield it again, at any time. *)
Theorem closed_version_stays_closed cs cs' pid name target at_ r at2 v :
  Forall command_ok cs -> Forall command_ok cs' ->
  target = LifecycleSuspended \/ target = LifecycleRetired ->
  transition pid name target at_ (run cs NewRegistry) = (r, Ok tt) ->
  Resolve pid at2 (run cs' r) = Ok v -> VersionName (versionSnapshot v) <> name.
Proof.
  intros Hcs Hcs' Htgt Ht Hres. pose proof (registry_reachable_ok cs Hcs) as Hr.
  destruct (transition_cases _ _ _ _ _ _ _ Ht) as [[_ [err ?]]|(e & He & _ & _ & Heq)]; [done|].
  pose proof (proj1 (transition_ok pid name target at_ _ Hr)) as Hr1. rewrite Ht in Hr1. cbn in Hr1.
  destruct (registry_run_ok cs' r Hcs' Hr1) as [Hr2 Hk].
  destruct (Hk pid name (e <| status := target |> <| statusAt := UTC at_ |>)) as (e2 & He2 & _ & Hst).
  { rewrite Heq, byVersion_insert, decide_True, lookup_insert_eq by done. done. }
  cbn in Hst. assert (status e2 <> LifecycleActive) as Hna.
  { destruct Hst as [->|]; [by destruct Htgt|done]. }
  unfold Resolve in Hres. destruct (matches_unique pid at2 (run cs' r) Hr2) as [Hm|[x Hm]];
    rewrite Hm in Hres; [done|].
  assert (x ∈ matches pid at2 (run cs' r)) as Hx by (rewrite Hm; left).
  apply matches_elem in Hx as [Hf [n Hn]]. rewrite (Rehydrate_entry _ _ _ _ Hr2 Hn) in Hres.
  injection Hres as <-. cbn. rewrite (rg_name _ Hr2 _ _ _ Hn). intros ->.
  rewrite He2 in Hn. injection Hn as <-. unfold in_force in Hf.
  by rewrite bool_decide_eq_false_2 in Hf.
Qed.

(** Stored versions. *)
Theorem stored_version_stays_readable cs cs' pid name e :
  Forall command_ok cs -> Forall command_ok cs' ->
  byVersion pid (run cs NewRegistry) !! name = Some e ->
  FindVersion pid name (Hash (snapshot e)) (run cs' (run cs NewRegistry)) =
    Ok (MkVersion (snapshot e)).
Proof.
  intros Hcs Hcs' He. destruct (registry_run_ok cs' _ Hcs' (registry_reachable_ok cs Hcs)) as [Hr Hk].
  destruct (Hk _ _ _ He) as (e' & He' & Hs & _). unfold FindVersion. rewrite He', Hs.
  rewrite bool_decide_eq_true_2 by done. rewrite <- Hs. by eapply Rehydrate_entry.
Qed.
