(* ===== verification/PolicyAdmission.v ===== *)
(** * Hashes and admission of policies

    The hashed envelope determines every field of a valid version, so two versions
    with one hash are the same version, or exhibit a SHA-256 collision; except
    where the envelope does not encode. [AdmissionService.Admit]
    ([policy/admission.go]): what holds of a policy that reaches the registry, and
    the witnesses of the policy theorems. *)

From Stdlib Require Import Ascii String.
From S2P Require Import Prelude GoTime GoString Uuid GoCrypto GoJson GoJsonText GoJsonStruct GoTimeFormat.
From S2P Require Import Policy PolicyRegistry.
Import policy.

(** Snapshots whose text JSON carries unchanged. *)
Record utf8_snapshot (s : Snapshot) : Prop := {
  us_policy : utf8 (PolicyID s);
  us_version : utf8 (VersionName s);
  us_schema : utf8 (SchemaVersion s);
  us_rules : Forall utf8 (RequiredRuleIDs s)
}.

(** What the envelope of a valid version holds. *)
Record normal_snapshot (s : Snapshot) : Prop := {
  ns_from : UTC (EffectiveFrom s) = EffectiveFrom s;
  ns_until : copyTime (EffectiveUntil s) = EffectiveUntil s;
  ns_document : json.canonical (Document s) = Some (Document s)
}.

(** The fields before and after the optional one. *)
Definition envelope_head (s : Snapshot) (from : bytes) : list bytes :=
  [field "policy_id" (quoteString (PolicyID s)); field "version" (quoteString (VersionName s));
   field "schema_version" (quoteString (SchemaVersion s)); field "effective_from" from].

Lemma utf8_ascii s : forallb (fun c => (json.code c <? 128)%N) (bytes_of s) = true -> utf8 s.
Proof. apply ascii_utf8. Qed.

(** Peel one field off two encodings. *)
Lemma peel_string n s t x y :
  utf8 n -> utf8 s -> utf8 t ->
  field n (quoteString s) ++ ascii_of_N 44 :: x = field n (quoteString t) ++ ascii_of_N 44 :: y ->
  s = t /\ x = y.
Proof.
  intros Hn Hs Ht H. apply field_app_inj in H as [_ H]; [|done..].
  apply quoteString_app_inj in H as [-> H]; [|done..]. split; [done|by injection H].
Qed.

Lemma peel_time n t u b c x y :
  utf8 n -> MarshalTime 0 t = Some b -> MarshalTime 0 u = Some c ->
  field n b ++ ascii_of_N 44 :: x = field n c ++ ascii_of_N 44 :: y -> instant t = instant u /\ x = y.
Proof.
  intros Hn Hb Hc H. apply field_app_inj in H as [_ H]; [|done..].
  destruct (MarshalTime_app_inj _ _ _ _ _ _ Hb Hc H) as [-> Hx]. split; [done|by injection Hx].
Qed.

Lemma UTC_instant_eq t u : UTC t = t -> UTC u = u -> instant t = instant u -> t = u.
Proof. intros <- <- H. unfold UTC in *. cbn in *. by rewrite H. Qed.

Ltac ascii := apply utf8_ascii; reflexivity.

Lemma envelope_tail_inj rules1 rules2 d1 d2 :
  Forall utf8 rules1 -> Forall utf8 rules2 ->
  json.canonical d1 = Some d1 -> json.canonical d2 = Some d2 ->
  field "required_rule_ids" (MarshalStrings rules1) ++ ascii_of_N 44 ::
    json.separated [field "document" d1] ++ [ascii_of_N 125] =
  field "required_rule_ids" (MarshalStrings rules2) ++ ascii_of_N 44 ::
    json.separated [field "document" d2] ++ [ascii_of_N 125] ->
  rules1 = rules2 /\ d1 = d2.
Proof.
  intros H1 H2 Hd1 Hd2 H. apply field_app_inj in H as [_ H]; [|ascii..].
  apply MarshalStrings_app_inj in H as [-> H]; [|done..]. split; [done|].
  apply (f_equal tail) in H. cbn [tail] in H. unfold json.separated in H. cbn [flat_map] in H.
  rewrite !app_nil_r in H. apply field_app_inj in H as [_ H]; [|ascii..].
  destruct (canonical_wf _ _ Hd1) as (v1 & Hv1 & ->). destruct (canonical_wf _ _ Hd2) as (v2 & Hv2 & ->).
  destruct (Marshal_app_inj v1 v2 [ascii_of_N 125] [ascii_of_N 125] Hv1 Hv2 eq_refl eq_refl H) as [-> _]. reflexivity.
Qed.

(** The members after a known one, associated to the right. *)
Ltac flatten H := rewrite ?separated_cons in H; repeat (rewrite <- app_assoc in H; cbn [app] in H).

Lemma envelope_head_inj s1 s2 b1 b2 g1 g2 l1 l2 :
  utf8_snapshot s1 -> utf8_snapshot s2 ->
  MarshalTime 0 (EffectiveFrom s1) = Some b1 -> MarshalTime 0 (EffectiveFrom s2) = Some b2 ->
  object (envelope_head s1 b1 ++ g1 :: l1) = object (envelope_head s2 b2 ++ g2 :: l2) ->
  PolicyID s1 = PolicyID s2 /\ VersionName s1 = VersionName s2 /\ SchemaVersion s1 = SchemaVersion s2 /\
  instant (EffectiveFrom s1) = instant (EffectiveFrom s2) /\
  json.separated (g1 :: l1) ++ [ascii_of_N 125] = json.separated (g2 :: l2) ++ [ascii_of_N 125].
Proof.
  intros [Hp1 Hv1 Hs1 _] [Hp2 Hv2 Hs2 _] Hb1 Hb2 H. unfold envelope_head in H. cbn [app] in H.
  rewrite !object_cons in H. apply (f_equal tail) in H. cbn [tail] in H. flatten H.
  apply peel_string in H as [E1 H]; [|ascii|exact Hp1|exact Hp2].
  apply peel_string in H as [E2 H]; [|ascii|exact Hv1|exact Hv2].
  apply peel_string in H as [E3 H]; [|ascii|exact Hs1|exact Hs2].
  destruct (peel_time "effective_from" _ _ _ _ _ _ ltac:(ascii) Hb1 Hb2 H) as [E4 H'].
  split_and!; assumption.
Qed.

Lemma policyEnvelope_shape s b :
  policyEnvelope s = Some b -> json.canonical (Document s) = Some (Document s) ->
  exists from l, MarshalTime 0 (EffectiveFrom s) = Some from /\
    b = object (envelope_head s from ++ l ++
      [field "required_rule_ids" (MarshalStrings (RequiredRuleIDs s)); field "document" (Document s)]) /\
    match EffectiveUntil s with
    | None => l = []
    | Some u => exists c, MarshalTime 0 u = Some c /\ l = [field "effective_until" c]
    end.
Proof.
  unfold policyEnvelope. intros H Hd. rewrite MarshalRaw_canonical in H by exact Hd.
  destruct (MarshalTime 0 (EffectiveFrom s)) as [from|]; [|discriminate].
  destruct (EffectiveUntil s) as [u|].
  - destruct (MarshalTime 0 u) as [c|]; [|discriminate]. injection H as <-.
    exists from, [field "effective_until" c]. split_and!; [reflexivity..|]. exists c. split; reflexivity.
  - injection H as <-. exists from, []. split_and!; reflexivity.
Qed.

Lemma policyEnvelope_inj s1 s2 b :
  utf8_snapshot s1 -> utf8_snapshot s2 -> normal_snapshot s1 -> normal_snapshot s2 ->
  policyEnvelope s1 = Some b -> policyEnvelope s2 = Some b ->
  s1 <| Hash := "" |> = s2 <| Hash := "" |>.
Proof.
  intros Hu1 Hu2 [Hf1 Ht1 Hd1] [Hf2 Ht2 Hd2] E1 E2.
  destruct (policyEnvelope_shape _ _ E1 Hd1) as (b1 & l1 & Hb1 & -> & H1).
  destruct (policyEnvelope_shape _ _ E2 Hd2) as (b2 & l2 & Hb2 & E & H2). clear E1 E2.
  pose proof (us_rules _ Hu1) as Hr1. pose proof (us_rules _ Hu2) as Hr2.
  enough (EffectiveUntil s1 = EffectiveUntil s2 /\ PolicyID s1 = PolicyID s2 /\
    VersionName s1 = VersionName s2 /\ SchemaVersion s1 = SchemaVersion s2 /\
    EffectiveFrom s1 = EffectiveFrom s2 /\ RequiredRuleIDs s1 = RequiredRuleIDs s2 /\
    Document s1 = Document s2) as Hall.
  { clear -Hall. destruct s1, s2. cbn in *. destruct Hall as (-> & -> & -> & -> & -> & -> & ->). reflexivity. }
  destruct (EffectiveUntil s1) as [u1|] eqn:Eu1, (EffectiveUntil s2) as [u2|] eqn:Eu2.
  - destruct H1 as (c1 & Hc1 & ->), H2 as (c2 & Hc2 & ->). cbn [app] in E.
    destruct (envelope_head_inj _ _ _ _ _ _ _ _ Hu1 Hu2 Hb1 Hb2 E) as (-> & -> & -> & Hi & E').
    flatten E'.
    destruct (peel_time "effective_until" _ _ _ _ _ _ ltac:(ascii) Hc1 Hc2 E') as [Hi' E''].
    flatten E''.
    apply envelope_tail_inj in E'' as [-> ->]; [|assumption..].
    injection Ht1 as Ht1. injection Ht2 as Ht2.
    rewrite (UTC_instant_eq u1 u2), (UTC_instant_eq _ _ Hf1 Hf2 Hi) by assumption. split_and!; reflexivity.
  - exfalso. destruct H1 as (c1 & Hc1 & ->). subst l2. cbn [app] in E.
    destruct (envelope_head_inj _ _ _ _ _ _ _ _ Hu1 Hu2 Hb1 Hb2 E) as (_ & _ & _ & _ & E').
    flatten E'. apply field_app_inj in E' as [E' _]; [discriminate|ascii..].
  - exfalso. destruct H2 as (c2 & Hc2 & ->). subst l1. cbn [app] in E.
    destruct (envelope_head_inj _ _ _ _ _ _ _ _ Hu1 Hu2 Hb1 Hb2 E) as (_ & _ & _ & _ & E').
    flatten E'. apply field_app_inj in E' as [E' _]; [discriminate|ascii..].
  - subst l1 l2. cbn [app] in E.
    destruct (envelope_head_inj _ _ _ _ _ _ _ _ Hu1 Hu2 Hb1 Hb2 E) as (-> & -> & -> & Hi & E').
    flatten E'.
    apply envelope_tail_inj in E' as [-> ->]; [|assumption..].
    rewrite (UTC_instant_eq _ _ Hf1 Hf2 Hi). split_and!; reflexivity.
Qed.

(** ** The hash *)

Lemma normal_from s n : normalizeAndValidate s = Ok n -> UTC (EffectiveFrom n) = EffectiveFrom n.
Proof.
  unfold normalizeAndValidate. cbn.
  destruct (TrimSpace (PolicyID s) == ""); [done|]. destruct (TrimSpace (VersionName s) == ""); [done|].
  destruct (TrimSpace (SchemaVersion s) == ""); [done|]. destruct (IsZero _); [done|].
  destruct (match copyTime _ with Some _ => _ | None => _ end); [done|].
  destruct (RequiredRuleIDs s == []); [done|]. by intros (ids & _ & [= <-])%obind_ok.
Qed.

Lemma normal_until s n : normalizeAndValidate s = Ok n -> copyTime (EffectiveUntil n) = EffectiveUntil n.
Proof.
  intros (_ & H & _)%normalizeAndValidate_ok. unfold copySnapshot in H.
  by apply (f_equal EffectiveUntil) in H.
Qed.

Lemma valid_version_normal v : valid_version v -> normal_snapshot (versionSnapshot v).
Proof.
  intros Hv. unfold valid_version, Rehydrate in Hv.
  apply obind_ok in Hv as (n & Hn & Hv). apply obind_ok in Hv as (c & Hc & Hv).
  destruct (c != Document n) eqn:E; [discriminate|].
  destruct (Hash n != _); [discriminate|]. injection Hv as Hv.
  apply negb_false_iff, bool_decide_eq_true_1 in E. subst c. rewrite <- Hv. cbn [versionSnapshot].
  apply canonicalJSON_canonical in Hc. split; [|by eapply normal_until|exact Hc].
  by eapply normal_from.
Qed.

Lemma prefixed_hex_inj a b :
  ("sha256:" ++ string_of (hex_encode a))%string = ("sha256:" ++ string_of (hex_encode b))%string -> a = b.
Proof.
  intros H. assert (string_of (hex_encode a) = string_of (hex_encode b)) as H' by by injection H.
  apply (f_equal bytes_of) in H'. rewrite !bytes_of_string_of in H'.
  apply (f_equal hex_decode) in H'. rewrite !hex_decode_encode in H'. by injection H'.
Qed.

(** The hash of a policy binds its content: two valid versions of UTF-8 text
    whose envelopes encode and that have one hash are the same version, or their
    envelopes are a SHA-256 collision. *)
Theorem policy_hash_binds_content v1 v2 b1 b2 :
  valid_version v1 -> valid_version v2 ->
  utf8_snapshot (versionSnapshot v1) -> utf8_snapshot (versionSnapshot v2) ->
  policyEnvelope (versionSnapshot v1) = Some b1 -> policyEnvelope (versionSnapshot v2) = Some b2 ->
  Hash (versionSnapshot v1) = Hash (versionSnapshot v2) ->
  v1 = v2 \/ Collision b1 b2.
Proof.
  intros Hv1 Hv2 Hu1 Hu2 E1 E2 Hh.
  destruct (Rehydrate_valid _ _ Hv1) as (_ & _ & Hh1 & _).
  destruct (Rehydrate_valid _ _ Hv2) as (_ & _ & Hh2 & _).
  assert (Hs : sha256 b1 = sha256 b2).
  { rewrite Hh1, Hh2 in Hh. unfold calculateHash in Hh. rewrite E1, E2 in Hh.
    by apply prefixed_hex_inj in Hh. }
  destruct (decide (b1 = b2)) as [->|Hne]; [left|by right].
  pose proof (policyEnvelope_inj _ _ _ Hu1 Hu2 (valid_version_normal _ Hv1) (valid_version_normal _ Hv2) E1 E2) as H.
  destruct v1 as [[]], v2 as [[]]. cbn in *. injection H as -> -> -> -> -> -> ->. by rewrite Hh.
Qed.

(** From year 10000 on the envelope does not encode: the hash of such a
    version is that of no content at all. *)
Theorem far_future_hash s : 9999 < Year 0 (EffectiveFrom s) -> calculateHash s = ("sha256:" ++ string_of (hex_encode (sha256 [])))%string.
Proof.
  intros H. unfold calculateHash, policyEnvelope, MarshalTime.
  rewrite (proj2 (Z.ltb_lt 9999 _)) by exact H. by rewrite orb_true_r.
Qed.

Section verification.
Context (ed25519_Verify : bytes -> bytes -> bytes -> bool).

(** The payload only depends on the normalized signature. *)
Lemma SigningPayload_normalized v s : SigningPayload v (normalizeSignature s) = SigningPayload v s.
Proof.
  assert (normalizeSignature (normalizeSignature s) = normalizeSignature s) as E.
  { unfold normalizeSignature. cbn [SignerID KeyID Algorithm SignedAt Value]. by rewrite !TrimSpace_idemp. }
  unfold SigningPayload. by rewrite E.
Qed.

(** A key usable at an instant. *)
Definition key_live (key : VerificationKey) (t : Time) : Prop :=
  (forall until, ValidUntil key = Some until -> instant t < instant until) /\
  (forall at_, RevokedAt key = Some at_ -> instant t < instant at_).

(** A version whose signature this key verifies. *)
Definition authentic (key : VerificationKey) (v : Version) (s : Signature) (verifiedAt : Time) : Prop :=
  KeySignerID key = TrimSpace (SignerID s) /\ KeyKeyID key = TrimSpace (KeyID s) /\
  KeyAlgorithm key = AlgorithmEd25519 /\
  (instant (ValidFrom key) = 0 \/ instant (ValidFrom key) <= instant (SignedAt s)) /\
  key_live key (SignedAt s) /\ key_live key verifiedAt /\
  exists value, base64_Decode (Value s) = Some value /\ length value = 64%nat /\
    ed25519_Verify (PublicKey key) (default [] (SigningPayload v s)) value = true.

Lemma key_live_checks key t :
  match ValidUntil key with None => false | Some until => negb (Before t (UTC until)) end = false ->
  match RevokedAt key with None => false | Some at_ => negb (Before t (UTC at_)) end = false ->
  key_live key t.
Proof.
  intros H1 H2. split; intros x Hx.
  - rewrite Hx in H1. by apply negb_false_iff, Z.ltb_lt in H1.
  - rewrite Hx in H2. by apply negb_false_iff, Z.ltb_lt in H2.
Qed.

Lemma checkSignature_ok version s verifiedAt v :
  checkSignature version s verifiedAt = Ok v -> version = Some v /\ instant verifiedAt <> 0.
Proof.
  unfold checkSignature. destruct version as [w|]; [|done].
  destruct (SignerID s == ""); [done|]. destruct (KeyID s == ""); [done|]. destruct (Algorithm s == ""); [done|].
  destruct (IsZero (SignedAt s)); [done|]. destruct (Value s == ""); [done|].
  destruct (IsZero verifiedAt) eqn:Hz; [done|]. intros [= <-]. split; [done|]. by apply Z.eqb_neq in Hz.
Qed.

Lemma verifyWithKey_ok v s verifiedAt key vv :
  verifyWithKey ed25519_Verify v (normalizeSignature s) (UTC verifiedAt) key = Ok vv ->
  verifiedVersion vv = Some v /\ verifiedSignature vv = normalizeSignature s /\ authentic key v s verifiedAt.
Proof.
  unfold verifyWithKey. set (s' := normalizeSignature s).
  destruct (_ || (KeyKeyID key != KeyID s')) eqn:H1; [done|].
  destruct (_ || (Algorithm s' != AlgorithmEd25519)) eqn:H2; [done|].
  destruct (negb (IsZero (ValidFrom key)) && _) eqn:H3; [done|].
  destruct (match ValidUntil key with None => _ | Some until => negb (Before (SignedAt s') _) end) eqn:H4; [done|].
  destruct (match RevokedAt key with None => _ | Some at_ => negb (Before (SignedAt s') _) end) eqn:H5; [done|].
  destruct (match ValidUntil key with None => _ | Some until => negb (Before (UTC verifiedAt) _) end) eqn:H6; [done|].
  destruct (match RevokedAt key with None => _ | Some at_ => negb (Before (UTC verifiedAt) _) end) eqn:H7; [done|].
  destruct (base64_Decode (Value s')) as [value|] eqn:Hb; [|done].
  destruct (_ || (length (PublicKey key) != 32%nat)) eqn:H8; [done|].
  destruct (negb (ed25519_Verify _ _ _)) eqn:H9; [done|]. intros [= <-]. split_and!; [done..|].
  apply orb_false_iff in H1 as [H1a H1b], H2 as [H2a H2b], H8 as [H8 _].
  apply negb_false_iff, bool_decide_eq_true_1 in H1a, H1b, H2a, H2b, H8.
  split_and!; try done; [congruence|..].
  - apply andb_false_iff in H3 as [H3|H3];
      [left; by apply negb_false_iff, Z.eqb_eq in H3|right; by apply Z.ltb_ge in H3].
  - by apply (key_live_checks key (SignedAt s')).
  - by apply (key_live_checks key (UTC verifiedAt)).
  - exists value. split_and!; [done..|]. apply negb_false_iff in H9.
    rewrite <- H9, <- (SigningPayload_normalized v s). reflexivity.
Qed.

(** A verifier only asks for the key. *)
Lemma Verify_cases {C E} (lift : Error -> E) resolve version s verifiedAt (c c' : C) r :
  Verify ed25519_Verify lift resolve version s verifiedAt c = (c', r) ->
  c' = c \/ c' = (resolve (TrimSpace (SignerID s)) (TrimSpace (KeyID s)) c).1.
Proof.
  unfold Verify, abind. destruct (checkSignature _ _ _) as [v|err]; [cbn|intros [= <- _]; by left].
  destruct (resolve _ _ c) as [c1 [key|err]]; intros [= <- _]; by right.
Qed.

Lemma Verify_ok {C E} (lift : Error -> E) resolve version s verifiedAt (c c' : C) vv :
  Verify ed25519_Verify lift resolve version s verifiedAt c = (c', Ok vv) ->
  exists v key, version = Some v /\ verifiedVersion vv = Some v /\ verifiedSignature vv = normalizeSignature s /\
    resolve (TrimSpace (SignerID s)) (TrimSpace (KeyID s)) c = (c', Ok key) /\
    authentic key v s verifiedAt /\ instant verifiedAt <> 0.
Proof.
  unfold Verify, abind. destruct (checkSignature _ _ _) as [v|err] eqn:Hc; [|done]. cbn [omap_err].
  change (SignerID (normalizeSignature s)) with (TrimSpace (SignerID s)).
  change (KeyID (normalizeSignature s)) with (TrimSpace (KeyID s)).
  destruct (resolve _ _ c) as [c1 [key|err]]; [|done]. intros [= <- H].
  destruct (verifyWithKey _ _ _ _ _) as [vv'|] eqn:Hk; [|done]. injection H as ->.
  apply checkSignature_ok in Hc as [-> Hz]. apply verifyWithKey_ok in Hk as (Hv & Hs & Hk). eauto 10.
Qed.

Lemma Activate_ok vv v approval at_ a :
  verifiedVersion vv = Some v -> Activate (Some vv) approval at_ = Ok a ->
  verified a = vv /\ TrimSpace (ApprovalPolicyHash approval) = Hash (VersionSnapshot v) /\
  TrimSpace (ApprovedBy approval) <> "" /\ instant (ApprovedAt approval) <= instant at_ /\
  instant at_ <> 0.
Proof.
  unfold Activate. intros ->. cbn -[VersionSnapshot].
  destruct (TrimSpace (ApprovedBy approval) == "") eqn:H1; [done|]. destruct (IsZero _); [done|].
  destruct (IsZero (UTC at_)) eqn:H2; [done|]. destruct (_ || _) eqn:H3; [done|].
  destruct (After _ _) eqn:H4; [done|]. intros [= <-].
  apply orb_false_iff in H3 as [_ H3]. apply negb_false_iff, bool_decide_eq_true_1 in H3.
  apply bool_decide_eq_false_1 in H1. apply Z.eqb_neq in H2. apply Z.ltb_ge in H4.
  split_and!; done.
Qed.

(** The steps of an admission: it stops at the verifier, or before the registry, or
    with the answer of the registry to a version that passed every check. *)
Lemma Admit_cases {C E} (service : AdmissionService C E) version s approval verifiedAt activatedAt c c' res :
  Admit service version s approval verifiedAt activatedAt c = (c', res) ->
  ((exists err, res = Err err) /\ (c' = c \/ c' = (verifier service version s (UTC verifiedAt) c).1)) \/
  exists c1 vv a done_, verifier service version s (UTC verifiedAt) c = (c1, Ok vv) /\
    option_bind _ _ (validator service) (verifiedVersion vv) = None /\
    Activate (Some vv) approval (UTC activatedAt) = Ok a /\
    (instant verifiedAt <> 0 -> instant activatedAt <> 0 -> instant verifiedAt <= instant activatedAt) /\
    registry service (Some a) c1 = (c', done_) /\ res = obind done_ (fun _ => Ok a).
Proof.
  unfold Admit, abind, aret. destruct (negb _ && _ && _) eqn:Ho; [intros [= <- <-]; eauto 6|].
  destruct (verifier _ _ _ _ c) as [c1 [vv|err]] eqn:Ev; [|intros [= <- <-]; eauto 6]. cbn [fst].
  destruct (option_bind _ _ _ _) eqn:Hv; [intros [= <- <-]; eauto 6|].
  destruct (Activate _ _ _) as [a|err] eqn:Ha; [|intros [= <- <-]; cbn; eauto 6]. cbn [omap_err].
  assert (instant verifiedAt <> 0 -> instant activatedAt <> 0 -> instant verifiedAt <= instant activatedAt) as Hle.
  { intros H1 H2. unfold IsZero in Ho. cbn in Ho.
    rewrite (proj2 (Z.eqb_neq _ _) H1), (proj2 (Z.eqb_neq _ _) H2) in Ho. by apply Z.ltb_ge in Ho. }
  destruct (registry _ _ c1) as [c2 r2] eqn:Hr. intros H. right. exists c1, vv, a, r2. destruct r2 as [[]|err]; by injection H as <- <-.
Qed.

End verification.

Section admission.
Context {T : Type} `{!TrustStore T} (store : T).
Context (ed25519_Verify : bytes -> bytes -> bytes -> bool) (validate : Version -> option Error).

Lemma AddVersion_present a v r r' :
  verifiedVersion (verified a) = Some v -> AddVersion (Some a) r = (r', Ok tt) ->
  exists e, byVersion (PolicyID (VersionSnapshot v)) r' !! VersionName (VersionSnapshot v) = Some e /\
    Hash (snapshot e) = Hash (VersionSnapshot v).
Proof.
  unfold AddVersion. intros ->. set (s := VersionSnapshot v).
  destruct (byVersion (PolicyID s) r !! VersionName s) as [old|] eqn:Hold.
  - destruct (Hash (snapshot old) == Hash s) eqn:Hh; [|done]. intros [= <-].
    exists old. rewrite byVersion_reinsert. split; [done|]. by apply bool_decide_eq_true_1 in Hh.
  - destruct (existsb _ _); [done|]. intros [= <-]. eexists.
    rewrite byVersion_insert, decide_True by done. rewrite lookup_insert_eq. done.
Qed.

(** Admission fails closed: a refused version changes no policy of the
    registry, and an admitted one carries a signature that verified under a trusted
    key live at the verification time, passed the document validator, was approved
    by its hash no later than its activation, and is stored with that hash. *)
Theorem admission_fails_closed version s approval verifiedAt activatedAt r r' res :
  Admit (memoryService ed25519_Verify store validate) version s approval verifiedAt activatedAt r = (r', res) ->
  match res with
  | Err _ => forall pid, byVersion pid r' = byVersion pid r
  | Ok a =>
      exists v key, version = Some v /\ verifiedVersion (verified a) = Some v /\
        ResolveVerificationKey (TrimSpace (SignerID s)) (TrimSpace (KeyID s)) store = Ok key /\
        authentic ed25519_Verify key v s verifiedAt /\ validate v = None /\
        TrimSpace (ApprovalPolicyHash approval) = Hash (VersionSnapshot v) /\
        instant (ApprovedAt approval) <= instant activatedAt /\
        instant verifiedAt <= instant activatedAt /\
        exists e, byVersion (PolicyID (VersionSnapshot v)) r' !! VersionName (VersionSnapshot v) =
            Some e /\ Hash (snapshot e) = Hash (VersionSnapshot v)
  end.
Proof.
  intros [[[err ->] Hc]|(r1 & vv & a & r2 & Hv & Hval & Ha & Ho & Hadd & ->)]%Admit_cases.
  - destruct Hc as [->|Hc]; [done|]. cbn [verifier memoryService] in Hc.
    destruct (Verify _ _ _ _ _ _ r) as [r1 res] eqn:Hv. cbn [fst] in Hc. subst r1.
    by destruct (Verify_cases _ _ _ _ _ _ _ _ _ Hv) as [->| ->].
  - cbn [verifier memoryService validator registry] in *.
    apply Verify_ok in Hv as (v & key & -> & Hvv & _ & Hk & Hauth & Hz). injection Hk as -> Hk.
    rewrite Hvv in Hval. apply (Activate_ok _ v) in Ha as (Hav & Hh & _ & Hat & Hz2); [|done].
    destruct r2 as [[]|err]; cbn [obind]; [|by destruct (AddVersion_cases _ _ _ _ Hadd) as [H|(? & _ & ? & _)]].
    exists v, key. rewrite Hav. split_and!; try done; [by apply Ho|]. eapply (AddVersion_present a); [by rewrite Hav|exact Hadd].
Qed.
End admission.

(** ** Witnesses

    Signature verification accepts every signature over a digest. *)

Definition ex_ed25519 (key payload value : bytes) : bool := length payload == 32%nat.

(** Base64 of 64 zero bytes. *)
Definition ex_value : string := string_of (replicate 86 (ascii_of_N 65) ++ bytes_of "==").

Definition ex_input (version : string) (from : Z) (until : option Z) : Input :=
  MkInput "RELEASE" version "1" (utc_seconds from) (utc_seconds <$> until) ["RULE-1"] (bytes_of "{}").

Definition ex_version (version : string) (from : Z) (until : option Z) : Version :=
  match NewVersion (ex_input version from until) with
  | Ok v => v
  | Err _ => MkVersion (MkSnapshot "" "" "" ZeroTime None [] [] "")
  end.

Definition ex_v1 : Version := Eval vm_compute in ex_version "1.0" 100 (Some 200).
Definition ex_v2 : Version := Eval vm_compute in ex_version "2.0" 200 None.

Definition ex_activated (v : Version) : ActivatedVersion :=
  MkActivatedVersion (MkVerifiedVersion (Some v) (MkSignature "s" "k" AlgorithmEd25519 (utc_seconds 90) ex_value))
    (MkApprovalRecord "RELEASE" (VersionName (versionSnapshot v)) (Hash (versionSnapshot v)) "board" (utc_seconds 95))
    (utc_seconds 99).

Definition ex_adds : list Command := [CAdd (ex_activated ex_v1); CAdd (ex_activated ex_v2)].

Lemma ex_v1_valid : valid_version ex_v1.
Proof. vm_compute. reflexivity. Qed.

Lemma ex_v2_valid : valid_version ex_v2.
Proof. vm_compute. reflexivity. Qed.

Lemma ex_adds_ok : Forall command_ok ex_adds.
Proof.
  constructor; [|constructor; [|constructor]]; intros v [= <-]; [apply ex_v1_valid|apply ex_v2_valid].
Qed.

Lemma version_round_trip_witness : Rehydrate (VersionSnapshot ex_v1) = Ok ex_v1.
Proof.
  apply (version_round_trip (ex_input "1.0" 100 (Some 200)) ex_v1). vm_compute. reflexivity.
Defined.

Lemma resolve_spec_witness :
  Resolve "RELEASE" (utc_seconds 200)
    (run ex_adds NewRegistry) = Ok ex_v2.
Proof.
  apply (resolve_spec ex_adds "RELEASE" (utc_seconds 200)
           ex_v2 ex_adds_ok).
  exists "2.0", (MkRegistryEntry (versionSnapshot ex_v2) LifecycleActive (utc_seconds 99)).
  split; [vm_compute; reflexivity|]. split; vm_compute; reflexivity.
Defined.

Definition ex_retired : Registry :=
  fst (transition "RELEASE" "1.0" LifecycleRetired (utc_seconds 120) (run ex_adds NewRegistry)).

Lemma closed_version_stays_closed_witness :
  VersionName (versionSnapshot ex_v2) <> "1.0".
Proof.
  apply (closed_version_stays_closed ex_adds
           [CSuspend "RELEASE" "1.0" (utc_seconds 150)] "RELEASE" "1.0" LifecycleRetired
           (utc_seconds 120) ex_retired (utc_seconds 250)).
  - exact ex_adds_ok.
  - repeat constructor.
  - right. reflexivity.
  - vm_compute. reflexivity.
  - vm_compute. reflexivity.
Defined.

Lemma stored_version_stays_readable_witness :
  FindVersion "RELEASE" "1.0" (Hash (versionSnapshot ex_v1))
    (run [CRetire "RELEASE" "1.0" (utc_seconds 120)] (run ex_adds NewRegistry)) = Ok ex_v1.
Proof.
  apply (stored_version_stays_readable ex_adds
           [CRetire "RELEASE" "1.0" (utc_seconds 120)] "RELEASE" "1.0"
           (MkRegistryEntry (versionSnapshot ex_v1) LifecycleActive (utc_seconds 99))).
  - exact ex_adds_ok.
  - repeat constructor.
  - vm_compute. reflexivity.
Defined.

Definition ex_key : VerificationKey :=
  MkVerificationKey "s" "k" AlgorithmEd25519 (replicate 32 zero) (utc_seconds 10) None None.

Definition ex_store : MemoryTrustStore :=
  match NewMemoryTrustStore [ex_key] with Ok s => s | Err _ => ∅ end.

Definition ex_admit :=
  Admit (memoryService ex_ed25519 ex_store (fun _ => None)) (Some ex_v1)
    (MkSignature " s" "k " AlgorithmEd25519 (utc_seconds 90) ex_value)
    (MkApprovalRecord "RELEASE" "1.0" (Hash (versionSnapshot ex_v1)) "board" (utc_seconds 95))
    (utc_seconds 96) (utc_seconds 99) NewRegistry.

Lemma admission_fails_closed_witness :
  exists v key, Some ex_v1 = Some v /\ ResolveVerificationKey "s" "k" ex_store = Ok key /\
    authentic ex_ed25519 key v
      (MkSignature " s" "k " AlgorithmEd25519 (utc_seconds 90) ex_value) (utc_seconds 96).
Proof.
  assert (exists a, ex_admit = (fst ex_admit, Ok a)) as [a Ha] by (eexists; vm_compute; reflexivity).
  destruct (admission_fails_closed ex_store ex_ed25519 (fun _ => None)
    (Some ex_v1) (MkSignature " s" "k " AlgorithmEd25519 (utc_seconds 90) ex_value)
    (MkApprovalRecord "RELEASE" "1.0" (Hash (versionSnapshot ex_v1)) "board" (utc_seconds 95))
    (utc_seconds 96) (utc_seconds 99) NewRegistry (fst ex_admit) (Ok a) Ha)
    as (v & key & Hv & _ & Hk & Hauth & _).
  exists v, key. split_and!; [exact Hv|exact Hk|exact Hauth].
Defined.

Definition ex_envelope : bytes := Eval vm_compute in default [] (policyEnvelope (versionSnapshot ex_v1)).

Lemma ex_v1_utf8 : utf8_snapshot (versionSnapshot ex_v1).
Proof. split; [apply utf8_ascii; reflexivity..|]. constructor; [apply utf8_ascii; reflexivity|constructor]. Qed.

Lemma policy_hash_binds_content_witness : ex_v1 = ex_v1 \/ Collision ex_envelope ex_envelope.
Proof.
  apply (policy_hash_binds_content ex_v1 ex_v1 ex_envelope ex_envelope ex_v1_valid ex_v1_valid ex_v1_utf8 ex_v1_utf8).
  - vm_compute. reflexivity.
  - vm_compute. reflexivity.
  - reflexivity.
Defined.

(** A version effective from the year 10000 on. *)
Definition ex_far : Snapshot :=
  MkSnapshot "RELEASE" "3.0" "1" (utc_seconds 315537897600) None ["RULE-1"] (bytes_of "{}") "".

Lemma far_future_hash_witness : calculateHash ex_far = ("sha256:" ++ string_of (hex_encode (sha256 [])))%string.
Proof. apply far_future_hash. vm_compute. reflexivity. Defined.
