(* ===== verification/Pds.v ===== *)
(** * The evaluation service ([pds/])

    The store interface, the memory store ([memory_store.go]), the service
    ([service.go], [policy_resolution.go]) and expiration ([timeout.go]).

    An operation of the service reads the store and writes it back in two
    calls; other clients may run in between. The [World] an operation runs in
    says what the clock and the random reader yield and what the other clients
    do to the store before each of its calls. The execution of rules and the
    qualification of evidence under a policy are in PdsRules.v. *)

From Stdlib Require Import Ascii String.
From S2P Require Import Prelude GoTime GoString Uuid GoCrypto Evidence Evaluation Outbox Policy.

Module pds.

Inductive Error :=
  | ErrEvaluationNotFound
  | ErrConcurrentModification
  | ErrTimeoutPolicyInvalid
  | ErrEvaluationNotTimedOut
  | ErrPolicyResolverRequired
  | ErrPolicyRulePlanMismatch
  | ErrPolicyResolutionInvalid
  | ErrEvaluationServiceRequired
  | ErrEvidenceReaderRequired
  | ErrRuleOperatorRequired
  | ErrRuleResolverRequired
  | ErrDuplicateRuleOperator
  | ErrRuleOperatorMissing
  | ErrResolvedRuleMismatch
  | ErrEvidenceBindingMissing
  | ErrPolicyBindingMissing
  | ErrEvidenceNotQualified
  | ErrBoundEvidenceMismatch
  | ErrRuleExecutionFailed
  | ErrPartialRuleOutcomes
  | ErrPolicyVersionReaderRequired
  | ErrPolicyRuleCompilerRequired
  | ErrPolicyRuleReferenceInvalid
  | ErrQualificationCompilerRequired
  | ErrEvidenceQualificationRequired
  | ErrPolicyQualificationBindingInvalid
  | EvaluationError (err : evaluation.Error)
  | OutboxError (err : outbox.Error)
  | PolicyError (err : policy.Error)
  | EvidenceError (err : evidence.Error)
  | CompilerError (message : string).

#[global] Instance Error_eq_dec : EqDecision Error.
Proof. solve_decision. Defined.

(** [AggregateStore] *)
Class AggregateStore (S : Type) := {
  SaveEvaluation :
    evaluation.EvaluationSnapshot -> Z -> list outbox.OutboxRecord -> action S Error unit;
  FindEvaluation : UUID -> S -> outcome Error (option evaluation.EvaluationAggregate)
}.

(** ** The memory store *)

Record MemoryStore := MkMemoryStore {
  snapshots : gmap UUID evaluation.EvaluationSnapshot;
  outboxRecords : list outbox.OutboxRecord
}.

Definition NewMemoryStore : MemoryStore := MkMemoryStore ∅ [].

Definition MemorySave (s : evaluation.EvaluationSnapshot) (expectedVersion : Z)
    (records : list outbox.OutboxRecord) : action MemoryStore Error unit := fun m =>
  let current := snapshots m !! evaluation.SnapEvaluationID s in
  if (expectedVersion =? 0) && match current with Some _ => true | None => false end
  then (m, Err ErrConcurrentModification) else
  if (0 <? expectedVersion) &&
     match current with
     | None => true
     | Some c => negb (evaluation.SnapVersion c =? expectedVersion)
     end
  then (m, Err ErrConcurrentModification) else
  match evaluation.RehydrateEvaluation s with
  | Err err => (m, Err (EvaluationError err))
  | Ok aggregate =>
      (MkMemoryStore (<[evaluation.SnapEvaluationID s := evaluation.Snapshot aggregate]> (snapshots m))
         (outboxRecords m ++ records), Ok tt)
  end.

Definition MemoryFind (id : UUID) (m : MemoryStore)
    : outcome Error (option evaluation.EvaluationAggregate) :=
  match snapshots m !! id with
  | None => Err ErrEvaluationNotFound
  | Some s =>
      match evaluation.RehydrateEvaluation s with
      | Err err => Err (EvaluationError err)
      | Ok aggregate => Ok (Some aggregate)
      end
  end.

#[global] Instance MemoryStore_store : AggregateStore MemoryStore := {
  SaveEvaluation := MemorySave;
  FindEvaluation := MemoryFind
}.

(** ** Timeout policies *)

Record TimeoutPolicy := MkTimeoutPolicy {
  CreatedTimeout : Duration;
  RunningTimeout : Duration
}.

Definition ValidateTimeoutPolicy (p : TimeoutPolicy) : option Error :=
  if (CreatedTimeout p <? 0) || (RunningTimeout p <? 0) ||
     ((CreatedTimeout p =? 0) && (RunningTimeout p =? 0))
  then Some ErrTimeoutPolicyInvalid else None.

Definition deadline (p : TimeoutPolicy) (s : evaluation.EvaluationSnapshot) : outcome Error Time :=
  match ValidateTimeoutPolicy p with
  | Some err => Err err
  | None =>
      if evaluation.SnapState s == evaluation.StateCreated then
        if CreatedTimeout p =? 0 then Err ErrTimeoutPolicyInvalid
        else Ok (Add (evaluation.SnapCreatedAt s) (CreatedTimeout p))
      else if evaluation.SnapState s == evaluation.StateRunning then
        match evaluation.SnapStartedAt s with
        | None => Err ErrTimeoutPolicyInvalid
        | Some started =>
            if RunningTimeout p =? 0 then Err ErrTimeoutPolicyInvalid
            else Ok (Add started (RunningTimeout p))
        end
      else Err (EvaluationError evaluation.ErrInvalidStateTransition)
  end.

(** ** The service *)

(** The environment of one operation: the successive readings of the clock and
    of the random reader, and what other clients do to the store before the
    operation's successive store calls. *)
Record World (S : Type) := MkWorld {
  clock : nat -> Time;
  random : nat -> bytes;
  interfere : nat -> S -> S
}.

Arguments clock {S} w.
Arguments random {S} w.
Arguments interfere {S} w.

(** [PolicyResolver]: [None] is a nil version without an error. *)
Definition PolicyResolver : Type := string -> Time -> outcome policy.Error (option policy.Version).

Definition sameRulePlan (left right : list string) : bool := left == right.

Section service.
Context {S : Type} `{!AggregateStore S}.
Variable json_Marshal : evaluation.DomainEvent -> option bytes.

Definition failure {A} (err : Error) : action S Error A := fun s => (s, Err err).

(** [find], the [i]-th store call of the operation. *)
Definition find (w : World S) (i : nat) (id : UUID) : action S Error evaluation.EvaluationAggregate :=
  fun s =>
  let s := interfere w i s in
  match FindEvaluation id s with
  | Err err => (s, Err err)
  | Ok None => (s, Err ErrEvaluationNotFound)
  | Ok (Some aggregate) => (s, Ok aggregate)
  end.

(** [save], the [i]-th store call, with the [t]-th reading of the clock. *)
Definition save (w : World S) (i t : nat) (aggregate : evaluation.EvaluationAggregate)
    (expectedVersion : Z) : action S Error unit := fun s =>
  match outbox.BuildOutboxRecords json_Marshal (fun k => random w (1 + k)%nat) (UTC (clock w t)) aggregate with
  | Err err => (s, Err (OutboxError err))
  | Ok records => SaveEvaluation (evaluation.Snapshot aggregate) expectedVersion records (interfere w i s)
  end.

Definition Snapshot (w : World S) (i : nat) (id : UUID) : action S Error evaluation.EvaluationSnapshot :=
  do! aggregate <- find w i id;
  aret (evaluation.Snapshot aggregate).

(** Run a method of the aggregate; its error is the operation's. *)
Definition mutate {A} (m : evaluation.method) (aggregate : evaluation.EvaluationAggregate)
    (k : evaluation.EvaluationAggregate -> action S Error A) : action S Error A :=
  match m aggregate with
  | (_, Err err) => failure (EvaluationError err)
  | (aggregate, Ok _) => k aggregate
  end.

(** The save that ends an operation, which then returns its snapshot. *)
Definition saveAndReturn (w : World S) (i t : nat) (aggregate : evaluation.EvaluationAggregate)
    (expectedVersion : Z) : action S Error evaluation.EvaluationSnapshot :=
  do! done <- save w i t aggregate expectedVersion;
  aret (evaluation.Snapshot aggregate).

Definition Create (w : World S) (sessionID : UUID) (requiredRules : list string)
    : action S Error evaluation.EvaluationSnapshot :=
  let at_ := UTC (clock w 0) in
  match evaluation.NewEvaluation (NewUUID (random w 0)) sessionID at_ with
  | Err err => failure (EvaluationError err)
  | Ok aggregate =>
      mutate (afor (fun ruleID => evaluation.RegisterRequiredRuleAt ruleID at_) requiredRules) aggregate
        (fun aggregate => saveAndReturn w 0 1 aggregate 0)
  end.

Definition Start (w : World S) (id : UUID) : action S Error evaluation.EvaluationSnapshot :=
  do! aggregate <- find w 0 id;
  let current := evaluation.Snapshot aggregate in
  if evaluation.SnapState current == evaluation.StateRunning then aret current else
  let expectedVersion := evaluation.version aggregate in
  mutate (evaluation.Start (UTC (clock w 0))) aggregate (fun aggregate s =>
    match save w 1 1 aggregate expectedVersion s with
    | (s, Ok _) => (s, Ok (evaluation.Snapshot aggregate))
    | (s, Err err) =>
        if err == ErrConcurrentModification then
          match Snapshot w 2 id s with
          | (s, Ok latest) =>
              if evaluation.SnapState latest == evaluation.StateRunning then (s, Ok latest)
              else (s, Err err)
          | (s, Err _) => (s, Err err)
          end
        else (s, Err err)
    end).

Definition RecordOutcome (w : World S) (id : UUID) (o : evaluation.RuleOutcome)
    : action S Error evaluation.EvaluationSnapshot :=
  do! aggregate <- find w 0 id;
  let expectedVersion := evaluation.version aggregate in
  let '(o, t) :=
    if IsZero (evaluation.EvaluatedAt o)
    then (o <| evaluation.EvaluatedAt := UTC (clock w 0) |>, 1%nat) else (o, 0%nat) in
  mutate (evaluation.RecordRuleOutcome o) aggregate (fun aggregate =>
    saveAndReturn w 1 t aggregate expectedVersion).

Definition qualificationReasons (reasons : list evidence.QualificationReason) : list string :=
  evidence.Code <$> reasons.

(** The binding of a qualification result. *)
Definition qualificationBinding (result : evidence.SessionQualificationResult)
    : evaluation.EvidenceSetBinding :=
  evaluation.MkEvidenceSetBinding (evidence.ResultSessionID result) (evidence.SessionStatus result)
    (evidence.SessionPolicyVersion result) (evidence.SessionEvaluatedAt result)
    (qualificationReasons (evidence.SessionReasons result))
    ((fun qualified => evaluation.MkEvidenceReference (evidence.ResultEvidenceID qualified)
        (evidence.Status qualified) (qualificationReasons (evidence.Reasons qualified)))
       <$> evidence.SessionEvidence result).

Definition BindEvidenceQualification (w : World S) (id : UUID)
    (result : evidence.SessionQualificationResult) : action S Error evaluation.EvaluationSnapshot :=
  do! aggregate <- find w 0 id;
  let expectedVersion := evaluation.version aggregate in
  mutate (evaluation.BindEvidenceSet (qualificationBinding result)) aggregate (fun aggregate =>
    saveAndReturn w 1 0 aggregate expectedVersion).

Definition BindVerificationPolicy (w : World S) (id : UUID) (binding : evaluation.PolicyBinding)
    : action S Error evaluation.EvaluationSnapshot :=
  do! aggregate <- find w 0 id;
  let expectedVersion := evaluation.version aggregate in
  mutate (evaluation.BindVerificationPolicy binding) aggregate (fun aggregate =>
    saveAndReturn w 1 0 aggregate expectedVersion).

Definition Complete (w : World S) (id : UUID) : action S Error evaluation.DecisionTrace :=
  do! aggregate <- find w 0 id;
  let current := evaluation.Snapshot aggregate in
  if evaluation.SnapState current == evaluation.StateCompleted
  then aret (evaluation.decisionTrace aggregate) else
  let expectedVersion := evaluation.version aggregate in
  match evaluation.DeriveResult aggregate with
  | Err err => failure (EvaluationError err)
  | Ok (result, reasons) =>
      mutate (evaluation.CompleteAt result reasons (UTC (clock w 0))) aggregate (fun aggregate s =>
        match save w 1 1 aggregate expectedVersion s with
        | (s, Ok _) => (s, Ok (evaluation.decisionTrace aggregate))
        | (s, Err err) =>
            if err == ErrConcurrentModification then
              match find w 2 id s with
              | (s, Ok latest) =>
                  if evaluation.SnapState (evaluation.Snapshot latest) == evaluation.StateCompleted
                  then (s, Ok (evaluation.decisionTrace latest)) else (s, Err err)
              | (s, Err _) => (s, Err err)
              end
            else (s, Err err)
        end)
  end.

Definition Trace (w : World S) (id : UUID) : action S Error evaluation.DecisionTrace :=
  do! aggregate <- find w 0 id;
  aret (evaluation.decisionTrace aggregate).

Definition ExpireTimedOut (w : World S) (id : UUID) (p : TimeoutPolicy)
    : action S Error evaluation.EvaluationSnapshot :=
  do! aggregate <- find w 0 id;
  let current := evaluation.Snapshot aggregate in
  if evaluation.SnapState current == evaluation.StateExpired then aret current else
  match deadline p current with
  | Err err => failure err
  | Ok deadline =>
      let now := UTC (clock w 0) in
      if Before now deadline then failure ErrEvaluationNotTimedOut else
      let expectedVersion := evaluation.version aggregate in
      mutate (evaluation.Expire now) aggregate (fun aggregate s =>
        match save w 1 1 aggregate expectedVersion s with
        | (s, Ok _) => (s, Ok (evaluation.Snapshot aggregate))
        | (s, Err err) =>
            if err == ErrConcurrentModification then
              match Snapshot w 2 id s with
              | (s, Ok latest) =>
                  if evaluation.SnapState latest == evaluation.StateExpired then (s, Ok latest)
                  else (s, Err err)
              | (s, Err _) => (s, Err err)
              end
            else (s, Err err)
        end)
  end.

(** [resolver] is [None] for a nil interface value. *)
Definition CreateForPolicy (w : World S) (sessionID : UUID) (policyID : string)
    (resolver : option PolicyResolver) : action S Error evaluation.EvaluationSnapshot :=
  match resolver with
  | None => failure ErrPolicyResolverRequired
  | Some resolve =>
      let at_ := UTC (clock w 0) in
      match resolve policyID at_ with
      | Err err => failure (PolicyError err)
      | Ok None => failure ErrPolicyResolutionInvalid
      | Ok (Some resolved) =>
          let p := policy.VersionSnapshot resolved in
          match evaluation.NewEvaluation (NewUUID (random w 0)) sessionID at_ with
          | Err err => failure (EvaluationError err)
          | Ok aggregate =>
              mutate (afor (fun ruleID => evaluation.RegisterRequiredRuleAt ruleID at_)
                        (policy.RequiredRuleIDs p)) aggregate (fun aggregate =>
              mutate (evaluation.BindVerificationPolicy
                        (evaluation.MkPolicyBinding (policy.PolicyID p) (policy.VersionName p)
                           (policy.Hash p) at_)) aggregate (fun aggregate =>
              saveAndReturn w 0 1 aggregate 0))
          end
      end
  end.

(** A nil version reads as the zero snapshot here. *)
Definition ResolveAndBindPolicy (w : World S) (id : UUID) (policyID : string)
    (resolver : option PolicyResolver) : action S Error evaluation.EvaluationSnapshot :=
  match resolver with
  | None => failure ErrPolicyResolverRequired
  | Some resolve =>
      do! aggregate <- find w 0 id;
      let expectedVersion := evaluation.version aggregate in
      let current := evaluation.Snapshot aggregate in
      match resolve policyID (evaluation.SnapCreatedAt current) with
      | Err err => failure (PolicyError err)
      | Ok resolved =>
          let p := match resolved with
                   | Some v => policy.VersionSnapshot v
                   | None => policy.MkSnapshot "" "" "" ZeroTime None [] [] ""
                   end in
          if negb (sameRulePlan (evaluation.SnapRequiredRuleIDs current) (policy.RequiredRuleIDs p))
          then failure ErrPolicyRulePlanMismatch else
          mutate (evaluation.BindVerificationPolicy
                    (evaluation.MkPolicyBinding (policy.PolicyID p) (policy.VersionName p)
                       (policy.Hash p) (UTC (clock w 0)))) aggregate (fun aggregate =>
            saveAndReturn w 1 1 aggregate expectedVersion)
      end
  end.
End service.

End pds.
