(* ===== verification/PdsRules.v ===== *)
(** * Rules and qualification in the evaluation service ([pds/])

    The execution of rules ([rule_execution.go]), the resolver that compiles
    them from the bound policy ([policy_rule_resolver.go]), and the
    qualification of evidence under it ([policy_evidence_qualification.go]).

    The readers, resolvers and compilers are functions: in one operation a
    resolver is asked once per rule and a reader once per object, so that a
    function of the question also describes one whose answers change over
    time. *)

From Stdlib Require Import Ascii String.
From S2P Require Import Prelude GoTime GoString Uuid GoCrypto Evidence Evaluation Outbox Policy Pds.
Import pds.

Module rules.

(** [EvidenceReader] *)
Definition EvidenceReader : Type := UUID -> outcome evidence.Error evidence.Snapshot.

Record RuleInput := MkRuleInput {
  EvaluationID : UUID;
  SessionID : UUID;
  InputPolicyID : string;
  InputPolicyVersion : string;
  InputPolicyHash : string;
  Evidence : list evidence.Snapshot
}.

Record RuleDecision := MkRuleDecision {
  Status : evaluation.RuleOutcomeStatus;
  ReasonCodes : list evaluation.ReasonCode
}.

#[global] Instance RuleDecision_eq_dec : EqDecision RuleDecision.
Proof. solve_decision. Defined.

(** [RuleOperator]: deterministic and free of side effects. [None] is an
    error, of which only its text is kept. *)
Record RuleOperator := MkRuleOperator {
  RuleID : string;
  Evaluate : RuleInput -> option RuleDecision
}.

Record PolicyRuleReference := MkPolicyRuleReference {
  PolicyID : string;
  PolicyVersion : string;
  PolicyHash : string;
  ReferenceRuleID : string
}.

(** [RuleOperatorResolver]: [None] is a nil operator without an error. *)
Definition RuleOperatorResolver : Type := PolicyRuleReference -> outcome Error (option RuleOperator).

(** ** The static resolver *)

Definition staticRuleOperatorResolver (operators : gmap string RuleOperator) : RuleOperatorResolver :=
  fun reference =>
  match operators !! ReferenceRuleID reference with
  | None => Err ErrRuleOperatorMissing
  | Some operator => Ok (Some operator)
  end.

(** The loop of [NewRuleExecutionService]. *)
Fixpoint registerOperators (registered : gmap string RuleOperator) (operators : list (option RuleOperator))
    : outcome Error (gmap string RuleOperator) :=
  match operators with
  | [] => Ok registered
  | None :: _ => Err ErrRuleOperatorRequired
  | Some operator :: operators =>
      let id := TrimSpace (RuleID operator) in
      if id == "" then Err ErrRuleOperatorRequired else
      match registered !! id with
      | Some _ => Err ErrDuplicateRuleOperator
      | None => registerOperators (<[id := operator]> registered) operators
      end
  end.

(** The evidence and the resolver a service works with; its evaluation service
    is the store its operations run on. *)
Record RuleExecutionService := MkRuleExecutionService {
  reader : EvidenceReader;
  resolver : RuleOperatorResolver
}.

(** [evaluations] tells whether the evaluation service is not nil. *)
Definition NewRuleExecutionServiceWithResolver (evaluations : bool) (reader : option EvidenceReader)
    (resolver : option RuleOperatorResolver) : outcome Error RuleExecutionService :=
  if negb evaluations then Err ErrEvaluationServiceRequired else
  match reader with
  | None => Err ErrEvidenceReaderRequired
  | Some reader =>
      match resolver with
      | None => Err ErrRuleResolverRequired
      | Some resolver => Ok (MkRuleExecutionService reader resolver)
      end
  end.

Definition NewRuleExecutionService (evaluations : bool) (reader : option EvidenceReader)
    (operators : list (option RuleOperator)) : outcome Error RuleExecutionService :=
  if negb evaluations then Err ErrEvaluationServiceRequired else
  match reader with
  | None => Err ErrEvidenceReaderRequired
  | Some _ =>
      let! registered := registerOperators ∅ operators in
      NewRuleExecutionServiceWithResolver evaluations reader (Some (staticRuleOperatorResolver registered))
  end.

(** ** Execution *)

(** The bindings execution requires. *)
Definition requiredBindings (s : evaluation.EvaluationSnapshot)
    : outcome Error (evaluation.EvidenceSetBinding * evaluation.PolicyBinding) :=
  match evaluation.SnapEvidenceBinding s with
  | None => Err ErrEvidenceBindingMissing
  | Some binding =>
      if evaluation.BoundStatus binding != evaluation.EvidenceQualified then Err ErrEvidenceNotQualified else
      match evaluation.SnapPolicyBinding s with
      | None => Err ErrPolicyBindingMissing
      | Some policy => Ok (binding, policy)
      end
  end.

Definition ruleReference (policy : evaluation.PolicyBinding) (ruleID : string) : PolicyRuleReference :=
  MkPolicyRuleReference (evaluation.PolicyID policy) (evaluation.PolicyBindingVersion policy)
    (evaluation.Hash policy) ruleID.

Fixpoint resolveOperators (resolver : RuleOperatorResolver) (policy : evaluation.PolicyBinding)
    (ruleIDs : list string) (resolved : gmap string RuleOperator)
    : outcome Error (gmap string RuleOperator) :=
  match ruleIDs with
  | [] => Ok resolved
  | ruleID :: ruleIDs =>
      let! operator := resolver (ruleReference policy ruleID) in
      match operator with
      | None => Err ErrResolvedRuleMismatch
      | Some operator =>
          if TrimSpace (RuleID operator) != ruleID then Err ErrResolvedRuleMismatch else
          resolveOperators resolver policy ruleIDs (<[ruleID := operator]> resolved)
      end
  end.

(** The bound evidence, read and verified. *)
Fixpoint readEvidence (reader : EvidenceReader) (sessionID : UUID)
    (references : list evaluation.EvidenceReference) : outcome Error (list evidence.Snapshot) :=
  match references with
  | [] => Ok []
  | reference :: references =>
      if evaluation.RefStatus reference != evaluation.EvidenceQualified then Err ErrEvidenceNotQualified else
      let! stored := omap_err EvidenceError (reader (evaluation.EvidenceID reference)) in
      if (evidence.EvidenceID stored != evaluation.EvidenceID reference) ||
         (evidence.SessionID stored != sessionID)
      then Err ErrBoundEvidenceMismatch else
      let! object := omap_err EvidenceError (evidence.Rehydrate stored) in
      let! qualified := readEvidence reader sessionID references in
      Ok (evidence.ObjectSnapshot object :: qualified)
  end.

Fixpoint copyEvidenceSnapshots (source : list evidence.Snapshot) : outcome Error (list evidence.Snapshot) :=
  match source with
  | [] => Ok []
  | snapshot :: source =>
      let! object := omap_err EvidenceError (evidence.Rehydrate snapshot) in
      let! result := copyEvidenceSnapshots source in
      Ok (evidence.ObjectSnapshot object :: result)
  end.

Definition ruleInput (evaluationID sessionID : UUID) (policy : evaluation.PolicyBinding)
    (l : list evidence.Snapshot) : RuleInput :=
  MkRuleInput evaluationID sessionID (evaluation.PolicyID policy)
    (evaluation.PolicyBindingVersion policy) (evaluation.Hash policy) l.

(** Every rule has been resolved: the lookup does not fail. *)
Fixpoint evaluateRules (operators : gmap string RuleOperator) (evaluationID sessionID : UUID)
    (policy : evaluation.PolicyBinding) (qualified : list evidence.Snapshot) (evaluatedAt : Time)
    (ruleIDs : list string) : outcome Error (list evaluation.RuleOutcome) :=
  match ruleIDs with
  | [] => Ok []
  | ruleID :: ruleIDs =>
      let! operatorEvidence := copyEvidenceSnapshots qualified in
      match operators !! ruleID with
      | None => Err ErrRuleOperatorMissing
      | Some operator =>
          match Evaluate operator (ruleInput evaluationID sessionID policy operatorEvidence) with
          | None => Err ErrRuleExecutionFailed
          | Some decision =>
              let! outcomes := evaluateRules operators evaluationID sessionID policy qualified
                                 evaluatedAt ruleIDs in
              Ok (evaluation.MkRuleOutcome ruleID (Status decision) (ReasonCodes decision) evaluatedAt
                    :: outcomes)
          end
      end
  end.

(** The outcomes of the rules of a snapshot, without side effects. *)
Definition runRules (svc : RuleExecutionService) (evaluationID : UUID)
    (s : evaluation.EvaluationSnapshot) (binding : evaluation.EvidenceSetBinding)
    (policy : evaluation.PolicyBinding) (evaluatedAt : Time) : outcome Error (list evaluation.RuleOutcome) :=
  let! operators := resolveOperators (resolver svc) policy (evaluation.SnapRequiredRuleIDs s) ∅ in
  let! qualified := readEvidence (reader svc) (evaluation.SnapSessionID s) (evaluation.Evidence binding) in
  evaluateRules operators evaluationID (evaluation.SnapSessionID s) policy qualified evaluatedAt
    (evaluation.SnapRequiredRuleIDs s).

Section execution.
Context {S : Type} `{!AggregateStore S}.
Variable json_Marshal : evaluation.DomainEvent -> option bytes.

Definition Execute (svc : RuleExecutionService) (w : World S) (evaluationID : UUID)
    : action S Error evaluation.EvaluationSnapshot :=
  do! aggregate <- find w 0 evaluationID;
  let expectedVersion := evaluation.version aggregate in
  let snapshot := evaluation.Snapshot aggregate in
  match requiredBindings snapshot with
  | Err err => failure err
  | Ok (binding, policy) =>
      if evaluation.SnapRuleOutcomes snapshot != [] then
        if evaluation.MissingRequiredRuleIDs aggregate == [] then aret snapshot
        else failure ErrPartialRuleOutcomes
      else
        let evaluatedAt := UTC (clock w 0) in
        match runRules svc evaluationID snapshot binding policy evaluatedAt with
        | Err err => failure err
        | Ok outcomes =>
            mutate (evaluation.RecordRuleOutcomeBatch outcomes evaluatedAt) aggregate (fun aggregate =>
              saveAndReturn json_Marshal w 1 1 aggregate expectedVersion)
        end
  end.
End execution.

(** ** Rules compiled from the bound policy *)

(** [policy.VersionReader]: [None] is a nil version without an error. *)
Definition VersionReader : Type := string -> string -> string -> outcome policy.Error (option policy.Version).

(** The memory registry as a reader. *)
Definition registryReader (r : policy.Registry) : VersionReader := fun policyID version hash =>
  let! v := policy.FindVersion policyID version hash r in Ok (Some v).

(** [PolicyRuleCompiler]: an error is known by its text. *)
Definition PolicyRuleCompiler : Type := policy.Version -> string -> outcome string (option RuleOperator).

(** Whether a version is the one that was asked for. *)
Definition identifies (v : policy.Version) (policyID version hash : string) : bool :=
  let s := policy.VersionSnapshot v in
  (policy.PolicyID s == policyID) && (policy.VersionName s == version) && (policy.Hash s == hash).

(** [PolicyDocumentRuleResolver.ResolveRuleOperator]; a nil resolver has no
    reader. *)
Definition ResolveRuleOperator (reader : option VersionReader) (compiler : option PolicyRuleCompiler)
    : RuleOperatorResolver := fun reference =>
  match reader with
  | None => Err ErrPolicyVersionReaderRequired
  | Some FindVersion =>
  match compiler with
  | None => Err ErrPolicyRuleCompilerRequired
  | Some CompileRule =>
      let policyID := TrimSpace (PolicyID reference) in
      let policyVersion := TrimSpace (PolicyVersion reference) in
      let policyHash := TrimSpace (PolicyHash reference) in
      let ruleID := TrimSpace (ReferenceRuleID reference) in
      if (policyID == "") || (policyVersion == "") || (policyHash == "") || (ruleID == "")
      then Err ErrPolicyRuleReferenceInvalid else
      let! version := omap_err PolicyError (FindVersion policyID policyVersion policyHash) in
      match version with
      | None => Err (PolicyError policy.ErrPolicyNotFound)
      | Some version =>
          if negb (identifies version policyID policyVersion policyHash)
          then Err ErrPolicyRuleReferenceInvalid else
          let! operator := omap_err CompilerError (CompileRule version ruleID) in
          match operator with
          | None => Err ErrResolvedRuleMismatch
          | Some operator =>
              if TrimSpace (RuleID operator) != ruleID then Err ErrResolvedRuleMismatch
              else Ok (Some operator)
          end
      end
  end
  end.

Definition NewPolicyDocumentRuleResolver (reader : option VersionReader) (compiler : option PolicyRuleCompiler)
    : outcome Error RuleOperatorResolver :=
  match reader with
  | None => Err ErrPolicyVersionReaderRequired
  | Some _ =>
      match compiler with
      | None => Err ErrPolicyRuleCompilerRequired
      | Some _ => Ok (ResolveRuleOperator reader compiler)
      end
  end.

(** ** Qualification under the bound policy *)

(** [PolicyQualificationCompiler] *)
Definition PolicyQualificationCompiler : Type :=
  policy.Version -> outcome string evidence.QualificationPolicy.

(** The environment of the operation [w], from its [n]-th store call on. *)
Definition later {S} (n : nat) (w : World S) : World S :=
  MkWorld S (clock w) (random w) (fun i => interfere w (n + i)%nat).

(** [err] is one after which another client may have bound the evidence. *)
Definition lostRace (err : Error) : bool :=
  (err == EvaluationError evaluation.ErrEvidenceAlreadyBound) || (err == ErrConcurrentModification).

Section qualification.
Context {S R : Type} `{!AggregateStore S, !evidence.Repository R}.
Variable json_Marshal : evaluation.DomainEvent -> option bytes.
(** How Go visits the maps of a policy, and those of the qualification. *)
Variable range : evidence.Range.
Variable groupRange : evidence.Groups -> list (list evidence.observation).

(** The qualification of the session of [s] under its bound policy. *)
Definition qualifySession (reader : VersionReader) (compiler : PolicyQualificationCompiler)
    (s : evaluation.EvaluationSnapshot) (repository : R) (evaluatedAt : Time)
    : outcome Error evidence.SessionQualificationResult :=
  match evaluation.SnapPolicyBinding s with
  | None => Err ErrPolicyBindingMissing
  | Some binding =>
      let policyID := evaluation.PolicyID binding in
      let version := evaluation.PolicyBindingVersion binding in
      let hash := evaluation.Hash binding in
      let! found := omap_err PolicyError (reader policyID version hash) in
      match found with
      | None => Err (PolicyError policy.ErrPolicyNotFound)
      | Some v =>
          if negb (identifies v policyID version hash) then Err ErrPolicyQualificationBindingInvalid else
          let! qualificationPolicy := omap_err CompilerError (compiler v) in
          let! qualifier := omap_err EvidenceError (evidence.NewQualifier range qualificationPolicy) in
          omap_err EvidenceError (evidence.QualifySession groupRange (evaluation.SnapSessionID s)
            (Some qualifier) evaluatedAt repository)
      end
  end.

(** [QualifyAndBind] of a service that has all its parts. [repository] and
    [evaluatedAt] are what the evidence service reads. *)
Definition qualifyAndBind (reader : VersionReader) (compiler : PolicyQualificationCompiler)
    (repository : R) (evaluatedAt : Time) (w : World S) (evaluationID : UUID)
    : action S Error evaluation.EvaluationSnapshot :=
  do! snapshot <- Snapshot w 0 evaluationID;
  match evaluation.SnapEvidenceBinding snapshot with
  | Some _ => aret snapshot
  | None =>
      match qualifySession reader compiler snapshot repository evaluatedAt with
      | Err err => failure err
      | Ok result => fun s =>
          match BindEvidenceQualification json_Marshal (later 1 w) evaluationID result s with
          | (s, Ok bound) => (s, Ok bound)
          | (s, Err err) =>
              if lostRace err then
                match Snapshot w 3 evaluationID s with
                | (s, Ok latest) =>
                    if match evaluation.SnapEvidenceBinding latest with Some _ => true | None => false end
                    then (s, Ok latest) else (s, Err err)
                | (s, Err _) => (s, Err err)
                end
              else (s, Err err)
          end
      end
  end.

(** The service, whose parts may be absent. *)
Record PolicyEvidenceQualificationService := MkQualificationService {
  evaluations : bool;
  evidenceRepository : option R;
  versionReader : option VersionReader;
  qualificationCompiler : option PolicyQualificationCompiler
}.

Definition NewPolicyEvidenceQualificationService (evaluations : bool) (repository : option R)
    (reader : option VersionReader) (compiler : option PolicyQualificationCompiler)
    : outcome Error PolicyEvidenceQualificationService :=
  if negb evaluations then Err ErrEvaluationServiceRequired else
  match repository, reader, compiler with
  | None, _, _ => Err ErrEvidenceQualificationRequired
  | _, None, _ => Err ErrPolicyVersionReaderRequired
  | _, _, None => Err ErrQualificationCompilerRequired
  | _, _, _ => Ok (MkQualificationService evaluations repository reader compiler)
  end.

Definition QualifyAndBind (svc : PolicyEvidenceQualificationService) (evaluatedAt : Time) (w : World S)
    (evaluationID : UUID) : action S Error evaluation.EvaluationSnapshot :=
  if negb (evaluations svc) then failure ErrEvaluationServiceRequired else
  match evidenceRepository svc, versionReader svc, qualificationCompiler svc with
  | None, _, _ => failure ErrEvidenceQualificationRequired
  | _, None, _ => failure ErrPolicyVersionReaderRequired
  | _, _, None => failure ErrQualificationCompilerRequired
  | Some repository, Some reader, Some compiler =>
      qualifyAndBind reader compiler repository evaluatedAt w evaluationID
  end.
End qualification.

End rules.
