(* ===== verification/PdsService.v ===== *)
(** * The evaluation service under interference

    The invariant of the memory store, what other clients may do to it, and what
    one save does. Every operation keeps the invariant and changes the store only
    as [evolves] allows; a successful update takes effect atomically at one of its
    store calls; exact retries return the original result. *)

From Stdlib Require Import Ascii String.
From S2P Require Import Prelude GoTime GoString Uuid GoCrypto Evidence Evaluation EvaluationLifecycle EvaluationRules.
From S2P Require Import EvaluationReach EvaluationPersistence Outbox Policy Pds PdsRules.
Import pds.

(** ** The invariant *)

(** An aggregate as the store yields it. *)
Record loaded (e : evaluation.EvaluationAggregate) : Prop := {
  ld_inv : inv e;
  ld_version : evaluation.version e <> 0;
  ld_events : evaluation.domainEvents e = []
}.

Definition holds (m : MemoryStore) (e : evaluation.EvaluationAggregate) : Prop :=
  loaded e /\ snapshots m !! evaluation.id_ e = Some (evaluation.Snapshot e).

(** The versions the outbox carries for an evaluation, in order. *)
Definition log (id : UUID) (records : list outbox.OutboxRecord) : list Z :=
  outbox.AggregateVersion <$> filter (fun r => outbox.AggregateID r = id) records.

Definition storedVersion (id : UUID) (m : MemoryStore) : Z :=
  match snapshots m !! id with
  | Some s => evaluation.SnapVersion s
  | None => 0
  end.

(** Every snapshot is that of an aggregate that satisfies the invariant, and
    the outbox holds one record for each of its versions, in order. *)
Record store_ok (m : MemoryStore) : Prop := {
  so_snapshots : forall id s, snapshots m !! id = Some s ->
    exists e, loaded e /\ s = evaluation.Snapshot e /\ evaluation.id_ e = id;
  so_log : forall id, log id (outboxRecords m) = seqZ 1 (storedVersion id m)
}.

(** What the service never takes back: the identity of an evaluation, its
    required rules, its outcomes and its bindings. *)
Record extends (s s' : evaluation.EvaluationSnapshot) : Prop := {
  ex_session : evaluation.SnapSessionID s' = evaluation.SnapSessionID s;
  ex_created : evaluation.SnapCreatedAt s' = evaluation.SnapCreatedAt s;
  ex_rules : evaluation.SnapRequiredRuleIDs s `prefix_of` evaluation.SnapRequiredRuleIDs s';
  ex_outcomes : evaluation.SnapRuleOutcomes s `prefix_of` evaluation.SnapRuleOutcomes s';
  ex_evidence : forall b, evaluation.SnapEvidenceBinding s = Some b -> evaluation.SnapEvidenceBinding s' = Some b;
  ex_policy : forall b, evaluation.SnapPolicyBinding s = Some b -> evaluation.SnapPolicyBinding s' = Some b
}.

(** A snapshot is replaced by one of a later version that its state may reach
    and that extends it. *)
Definition succeeds (s s' : evaluation.EvaluationSnapshot) : Prop :=
  s' = s \/
  evaluation.SnapVersion s < evaluation.SnapVersion s' /\
  evaluation.IsTerminal (evaluation.SnapState s) = false /\
  rtc transition (evaluation.SnapState s) (evaluation.SnapState s') /\
  extends s s'.

(** What any client does to the store: both what the service guarantees and
    what it relies on. *)
Record evolves (m m' : MemoryStore) : Prop := {
  ev_ok : store_ok m';
  ev_outbox : outboxRecords m `prefix_of` outboxRecords m';
  ev_snapshots : forall id s, snapshots m !! id = Some s ->
    exists s', snapshots m' !! id = Some s' /\ succeeds s s'
}.

Lemma extends_trans s1 s2 s3 : extends s1 s2 -> extends s2 s3 -> extends s1 s3.
Proof. intros [? ? ? ? E P] [? ? ? ? E' P']. split; [congruence|congruence|by etrans|by etrans|eauto..]. Qed.

Lemma succeeds_trans s1 s2 s3 : succeeds s1 s2 -> succeeds s2 s3 -> succeeds s1 s3.
Proof.
  intros [->|(Hv & Ht & Hs & He)] [->|(Hv' & Ht' & Hs' & He')]; try (by left); right;
    split_and!; try done; [lia|by etrans|by eapply extends_trans].
Qed.

Lemma succeeds_extends s s' : succeeds s s' -> extends s s'.
Proof. intros [->|(_ & _ & _ & He)]; [by split|done]. Qed.

Lemma evolves_refl m : store_ok m -> evolves m m.
Proof. intros H. split; [done..|]. intros id s Hs. exists s. split; [done|by left]. Qed.

Lemma evolves_trans m1 m2 m3 : evolves m1 m2 -> evolves m2 m3 -> evolves m1 m3.
Proof.
  intros [O1 P1 S1] [O2 P2 S2]. split; [done|by etrans|].
  intros id s (s' & Hs' & H1)%S1. destruct (S2 _ _ Hs') as (s'' & Hs'' & H2).
  exists s''. split; [done|]. by eapply succeeds_trans.
Qed.

Lemma empty_store_ok : store_ok NewMemoryStore.
Proof.
  split.
  - intros id s. cbn. by rewrite lookup_empty.
  - intros id. unfold storedVersion. cbn. by rewrite lookup_empty.
Qed.

Create HintDb pds.
#[export] Hint Resolve evolves_refl ev_ok empty_store_ok : pds.

(** ** Loading *)

Lemma loaded_clear e : loaded e -> evaluation.ClearDomainEvents e = e.
Proof. intros [_ _ He]. destruct e. cbn in He. by subst. Qed.

Lemma Rehydrate_loaded e :
  loaded e -> evaluation.RehydrateEvaluation (evaluation.Snapshot e) = Ok e.
Proof.
  intros He. rewrite RehydrateEvaluation_Snapshot by apply He. by rewrite loaded_clear.
Qed.

Lemma MemoryFind_spec id m :
  store_ok m ->
  (snapshots m !! id = None /\ MemoryFind id m = Err ErrEvaluationNotFound) \/
  exists e, holds m e /\ evaluation.id_ e = id /\ MemoryFind id m = Ok (Some e).
Proof.
  intros Hm. unfold MemoryFind. destruct (snapshots m !! id) as [s|] eqn:Hs; [|by left].
  right. destruct (so_snapshots m Hm id s Hs) as (e & He & -> & <-).
  exists e. by rewrite Rehydrate_loaded.
Qed.

Lemma holds_unique m e e' :
  holds m e -> snapshots m !! evaluation.id_ e = Some (evaluation.Snapshot e') -> loaded e' -> e' = e.
Proof.
  intros [He Hs] Hs' He'. rewrite Hs in Hs'. apply (inj Some) in Hs'.
  assert (Ok e = Ok e' :> outcome evaluation.Error _) as [=]; [|done].
  rewrite <- (Rehydrate_loaded e), <- (Rehydrate_loaded e') by done. congruence.
Qed.

(** ** Updates *)

(** What an update of the service does to an aggregate: nothing, or one event
    with the next version. *)
Record advances (e e' : evaluation.EvaluationAggregate) : Prop := {
  ad_step : step e e';
  ad_rules : evaluation.requiredRuleIDs e `prefix_of` evaluation.requiredRuleIDs e';
  ad_outcomes : evaluation.ruleOutcomes e `prefix_of` evaluation.ruleOutcomes e';
  ad_next : e' = e \/
    evaluation.version e' = u64_succ (evaluation.version e) /\
    exists ev, evaluation.domainEvents e' = evaluation.domainEvents e ++ [ev]
}.

(** The methods the service calls. *)
Definition service_command (c : evaluation.Command) : bool :=
  match c with
  | evaluation.CStart _ | evaluation.CComplete _ _ _ | evaluation.CExpire _
  | evaluation.CBindPolicy _ | evaluation.CRegister _ _ | evaluation.CRecord _
  | evaluation.CBindEvidence _ | evaluation.CRecordBatch _ _ => true
  | _ => false
  end.

(** The branches of a method of the service that succeed. *)
Ltac method_succeeds H :=
  cbn [evaluation.exec] in H;
  unfold evaluation.Start, evaluation.CompleteAt, evaluation.Expire,
    evaluation.BindVerificationPolicy, evaluation.RegisterRequiredRuleAt, evaluation.BindEvidenceSet,
    evaluation.RecordRuleOutcomeBatch,
    evaluation.RecordRuleOutcome, evaluation.fail, evaluation.update, evaluation.done_, aret in H;
  repeat match type of H with
    | context [match ?x with _ => _ end] => destruct x; try discriminate H
    end; injection H as <-.

Lemma exec_advances c e e' :
  service_command c = true -> inv e -> evaluation.exec c e = (e', Ok tt) -> advances e e'.
Proof.
  intros Hc Hi He.
  assert (bstep true e (fst (evaluation.exec c e))) as [H1 H2 H3].
  { apply exec_bstep; [|done]. by destruct c. }
  rewrite He in H1, H2, H3. split; [by split; [| |apply H3]|..];
    destruct c; try discriminate Hc; method_succeeds He;
    first [by left|right; split; [done|by eexists]|reflexivity|by apply prefix_app_r].
Qed.

Definition event_version (ev : evaluation.DomainEvent) : Z := evaluation.Version (evaluation.Metadata ev).
Definition event_owner (ev : evaluation.DomainEvent) : UUID := evaluation.EvaluationID (evaluation.Metadata ev).

(** The events of an aggregate that has not been saved continue its version. *)
Definition pending (v : Z) (e : evaluation.EvaluationAggregate) : Prop :=
  event_version <$> evaluation.domainEvents e =
    seqZ (v + 1) (evaluation.version e - v) /\
  v <= evaluation.version e /\
  Forall (fun ev => event_owner ev = evaluation.id_ e)
    (evaluation.domainEvents e).

Lemma u64_succ_nowrap v : is_u64 v -> u64_succ v <> 0 -> u64_succ v = v + 1.
Proof.
  unfold u64_succ, u64, is_u64, u64_modulus. intros Hv Hs.
  destruct (decide (v + 1 = 2 ^ 64)) as [Heq|Hne]; [by rewrite Heq in Hs|].
  apply Z.mod_small. lia.
Qed.

Lemma advances_pending v e e' :
  inv e -> pending v e -> advances e e' -> evaluation.version e' <> 0 -> pending v e'.
Proof.
  intros Hi (Hp & Hv & Hid) [[_ F (evs & Hevs & Hver & Hids)] _ _ [->|[Hn [ev Hev]]]] Hz; [done|].
  rewrite Hevs in Hev. apply app_inv_head in Hev as ->.
  assert (evaluation.version e' = evaluation.version e + 1) as Hs.
  { rewrite Hn in *. by apply u64_succ_nowrap; [apply Hi|]. }
  apply Forall_singleton in Hids as [Hidv _].
  assert (event_version ev = evaluation.version e') as Hev.
  { cbn [versions_ok] in Hver. destruct Hver as [H1 H2]. unfold event_version. by rewrite H1, H2. }
  unfold pending. rewrite Hevs, fmap_app, Hp, (f_id _ _ F). cbn [fmap list_fmap]. rewrite Hev.
  split_and!; [|lia|].
  - replace (evaluation.version e' - v) with ((evaluation.version e - v) + 1) by lia.
    rewrite seqZ_app by lia. f_equal. rewrite seqZ_cons, seqZ_nil by lia. f_equal. lia.
  - apply Forall_app. split; [done|]. by constructor.
Qed.

Lemma loaded_pending e : loaded e -> pending (evaluation.version e) e.
Proof.
  intros [_ _ He]. unfold pending. rewrite He, Z.sub_diag, seqZ_nil by lia. split_and!; [done|lia|constructor].
Qed.

Lemma advances_clear e e' :
  loaded e -> advances e e' -> evaluation.version e' <> 0 -> loaded (evaluation.ClearDomainEvents e').
Proof.
  intros He [[Hi _ _] _ _ _] Hv. by split; [apply ClearDomainEvents_keeps| |].
Qed.

(** ** Outbox records *)

Lemma buildRecords_spec marshal events : forall random createdAt records,
  outbox.buildRecords marshal random events createdAt = Ok records ->
  outbox.AggregateVersion <$> records =
    event_version <$> events /\
  outbox.AggregateID <$> records =
    event_owner <$> events.
Proof.
  induction events as [|ev events IH]; intros random createdAt records H; cbn [outbox.buildRecords] in H.
  { by injection H as <-. }
  apply obind_ok in H as (r & Hr & H). apply obind_ok in H as (rs & Hrs & H). injection H as <-.
  destruct (IH _ _ _ Hrs) as [IHv IHi]. rewrite !fmap_cons, IHv, IHi.
  unfold outbox.NewOutboxRecord in Hr.
  repeat match type of Hr with
    | context [match ?x with _ => _ end] => destruct x; try discriminate Hr
    end.
  injection Hr as <-. done.
Qed.

Lemma log_app id l k : log id (l ++ k) = log id l ++ log id k.
Proof. unfold log. by rewrite filter_app, fmap_app. Qed.

Lemma log_all id l : Forall (fun r => outbox.AggregateID r = id) l -> log id l = outbox.AggregateVersion <$> l.
Proof. intros H. unfold log. by rewrite filter_all. Qed.

Lemma log_none id id' l :
  Forall (fun r => outbox.AggregateID r = id') l -> id <> id' -> log id l = [].
Proof.
  intros H Hne. unfold log. induction H as [|r l Hr _ IH]; [done|].
  rewrite filter_cons_False by congruence. done.
Qed.

Lemma records_of_pending marshal random createdAt e records v :
  outbox.BuildOutboxRecords marshal random createdAt e = Ok records -> pending v e ->
  Forall (fun r => outbox.AggregateID r = evaluation.id_ e) records /\
  log (evaluation.id_ e) records = seqZ (v + 1) (evaluation.version e - v).
Proof.
  intros H (Hp & _ & Hid). apply buildRecords_spec in H as [Hv Hi].
  assert (Forall (fun r => outbox.AggregateID r = evaluation.id_ e) records) as Hall.
  { assert (Forall (fun i => i = evaluation.id_ e) (outbox.AggregateID <$> records)) as H%Forall_fmap;
      [|exact H].
    rewrite Hi. by apply Forall_fmap. }
  split; [done|]. by rewrite log_all, Hv.
Qed.

(** ** Saving *)

Definition stored_with (m : MemoryStore) (e : evaluation.EvaluationAggregate)
    (records : list outbox.OutboxRecord) : MemoryStore :=
  MkMemoryStore (<[evaluation.id_ e := evaluation.Snapshot e]> (snapshots m)) (outboxRecords m ++ records).

Lemma storedVersion_range id m : store_ok m -> 0 <= storedVersion id m.
Proof.
  intros Hm. unfold storedVersion. destruct (snapshots m !! id) as [s|] eqn:Hs; [|done].
  destruct (so_snapshots m Hm id s Hs) as (e & [Hi _ _] & -> & _). cbn.
  pose proof (i_version e Hi) as Hv. unfold is_u64 in Hv. lia.
Qed.

(** A save of pending events keeps the invariant. *)
Lemma stored_with_ok m e records marshal random createdAt :
  store_ok m -> loaded (evaluation.ClearDomainEvents e) ->
  outbox.BuildOutboxRecords marshal random createdAt e = Ok records ->
  pending (storedVersion (evaluation.id_ e) m) e -> store_ok (stored_with m e records).
Proof.
  intros Hm He Hr Hp. destruct (records_of_pending _ _ _ _ _ _ Hr Hp) as [Hids Hlog].
  pose proof (storedVersion_range (evaluation.id_ e) m Hm) as H0. destruct Hp as (_ & Hv & _).
  split; cbn [stored_with snapshots outboxRecords].
  - intros id s [[<- <-]|[Hne Hs]]%lookup_insert_Some; [|by apply (so_snapshots m Hm)].
    by exists (evaluation.ClearDomainEvents e).
  - intros id. rewrite log_app, (so_log m Hm). unfold storedVersion at 2, stored_with. cbn [snapshots].
    destruct (decide (id = evaluation.id_ e)) as [->|Hne].
    + rewrite lookup_insert_eq, Hlog. cbn [evaluation.Snapshot evaluation.SnapVersion].
      rewrite (Z.add_comm _ 1), <- seqZ_app by lia. f_equal. lia.
    + rewrite (log_none _ _ _ Hids Hne), app_nil_r, lookup_insert_ne by done. done.
Qed.

Lemma stored_with_evolves m e records :
  store_ok (stored_with m e records) ->
  (forall s, snapshots m !! evaluation.id_ e = Some s -> succeeds s (evaluation.Snapshot e)) ->
  evolves m (stored_with m e records).
Proof.
  intros Hok Hs. split; [done|by apply prefix_app_r|].
  intros id s Hid. cbn [stored_with snapshots]. destruct (decide (id = evaluation.id_ e)) as [->|Hne].
  - rewrite lookup_insert_eq. eauto.
  - rewrite lookup_insert_ne by done. exists s. split; [done|by left].
Qed.

Lemma advances_succeeds e e' :
  inv e -> advances e e' -> evaluation.version e' <> 0 ->
  succeeds (evaluation.Snapshot e) (evaluation.Snapshot e').
Proof.
  intros Hi [[_ F _] Hrules Hout [->|[Hn _]]] Hz; [by left|]. right.
  assert (evaluation.version e' = evaluation.version e + 1) as Hs.
  { rewrite Hn in *. by apply u64_succ_nowrap; [apply Hi|]. }
  cbn. split_and!; [lia| |apply F|by split; try apply F].
  destruct (evaluation.IsTerminal (evaluation.state e)) eqn:Ht; [|done].
  pose proof (f_terminal _ _ F Ht) as Hd. unfold decision in Hd.
  assert (evaluation.version e' = evaluation.version e) by congruence. lia.
Qed.

Lemma holds_storedVersion m e : holds m e -> storedVersion (evaluation.id_ e) m = evaluation.version e.
Proof. intros [_ Hs]. unfold storedVersion. by rewrite Hs. Qed.

(** The outcome of saving an update of an aggregate that was read before other
    clients ran: refused without effect, or committed on what was read. *)
Lemma MemorySave_update m0 m e e' marshal random createdAt records m' r :
  store_ok m -> holds m0 e -> evolves m0 m -> advances e e' ->
  outbox.BuildOutboxRecords marshal random createdAt e' = Ok records ->
  MemorySave (evaluation.Snapshot e') (evaluation.version e) records m = (m', r) ->
  m' = m /\ (exists err, r = Err err) \/
  r = Ok tt /\ holds m e /\ loaded (evaluation.ClearDomainEvents e') /\
  m' = stored_with m e' records /\ evolves m m'.
Proof.
  intros Hm [He Hs0] Hev Ha Hr H. pose proof He as [Hi Hv _].
  pose proof (i_version e Hi) as Hvr. unfold is_u64 in Hvr.
  destruct (ev_snapshots _ _ Hev _ _ Hs0) as (s & Hs & Hsucc).
  assert (evaluation.id_ e' = evaluation.id_ e) as Hid by apply (f_id _ _ (st_frame _ _ (ad_step _ _ Ha))).
  unfold MemorySave in H. cbn [evaluation.Snapshot evaluation.SnapEvaluationID] in H.
  rewrite Hid, Hs, (proj2 (Z.eqb_neq _ _) Hv), (proj2 (Z.ltb_lt 0 (evaluation.version e))) in H by lia. cbn [andb] in H.
  destruct (evaluation.SnapVersion s =? evaluation.version e) eqn:Hc; cbn [negb] in H;
    [|injection H as <- <-; left; eauto].
  apply Z.eqb_eq in Hc.
  assert (s = evaluation.Snapshot e) as -> by (destruct Hsucc as [->|[Hlt _]]; [done|cbn in Hlt; lia]).
  fold (evaluation.Snapshot e') in H.
  destruct (decide (evaluation.version e' = 0)) as [Hz|Hz].
  { destruct (RehydrateEvaluation_unversioned e' Hz) as [err Herr]. rewrite Herr in H.
    injection H as <- <-. left. eauto. }
  rewrite RehydrateEvaluation_Snapshot in H by (done || apply Ha). injection H as Hm' <-.
  assert (m' = stored_with m e' records) as -> by (rewrite <- Hm'; unfold stored_with; by rewrite Hid).
  assert (holds m e) as Hh by done. right.
  assert (store_ok (stored_with m e' records)) as Hok.
  { eapply stored_with_ok; [done|by eapply advances_clear|exact Hr|].
    rewrite Hid, holds_storedVersion by done. eapply advances_pending; [exact Hi| |done..].
    by apply loaded_pending. }
  split; [done|]. split; [done|]. split; [by eapply advances_clear|]. split; [done|].
  apply stored_with_evolves; [done|]. rewrite Hid, Hs. intros s [= <-]. by apply advances_succeeds.
Qed.

(** A creation is refused without effect, or commits under a fresh identity. *)
Lemma MemorySave_create m e marshal random createdAt records m' r :
  store_ok m -> inv e -> pending 0 e ->
  outbox.BuildOutboxRecords marshal random createdAt e = Ok records ->
  MemorySave (evaluation.Snapshot e) 0 records m = (m', r) ->
  m' = m /\ (exists err, r = Err err) \/
  r = Ok tt /\ snapshots m !! evaluation.id_ e = None /\ loaded (evaluation.ClearDomainEvents e) /\
  m' = stored_with m e records /\ evolves m m'.
Proof.
  intros Hm Hi Hp Hr H. unfold MemorySave in H.
  cbn [evaluation.Snapshot evaluation.SnapEvaluationID Z.eqb Z.ltb Z.compare andb] in H.
  destruct (snapshots m !! evaluation.id_ e) as [s|] eqn:Hs.
  { injection H as <- <-. left. eauto. }
  fold (evaluation.Snapshot e) in H. destruct (decide (evaluation.version e = 0)) as [Hz|Hz].
  { destruct (RehydrateEvaluation_unversioned e Hz) as [err Herr]. rewrite Herr in H.
    injection H as <- <-. left. eauto. }
  rewrite RehydrateEvaluation_Snapshot in H by done. injection H as Hm' <-.
  assert (m' = stored_with m e records) as -> by done. right.
  assert (loaded (evaluation.ClearDomainEvents e)) as He by (by split; [apply ClearDomainEvents_keeps| |]).
  assert (store_ok (stored_with m e records)) as Hok.
  { eapply stored_with_ok; [done..|]. unfold storedVersion. by rewrite Hs. }
  split_and!; [done..|]. apply stored_with_evolves; [done|]. by rewrite Hs.
Qed.

(** ** New aggregates *)

Lemma NewEvaluation_pending id session at_ e :
  evaluation.NewEvaluation id session at_ = Ok e ->
  inv e /\ pending 0 e /\ evaluation.version e = 1.
Proof.
  intros H. split; [by eapply NewEvaluation_inv|]. unfold evaluation.NewEvaluation in H. go_cases.
  split; [|done]. split_and!; [done..|]. by constructor.
Qed.

(** Advance an aggregate whose version stays below the wrap-around. *)
Lemma advances_new c e e' :
  service_command c = true -> evaluation.exec c e = (e', Ok tt) ->
  inv e -> pending 0 e -> 0 < evaluation.version e < u64_modulus - 1 ->
  inv e' /\ pending 0 e' /\ 0 < evaluation.version e' <= evaluation.version e + 1.
Proof.
  intros Hc He Hi Hp Hv. pose proof (exec_advances c e e' Hc Hi He) as Ha.
  assert (u64_succ (evaluation.version e) = evaluation.version e + 1) as Hs
    by (unfold u64_succ, u64; apply Z.mod_small; lia).
  assert (0 < evaluation.version e' <= evaluation.version e + 1) as Hv'.
  { destruct (ad_next _ _ Ha) as [->|[-> _]]; lia. }
  split_and!; [apply Ha| |lia..]. eapply advances_pending; [exact Hi|done..|lia].
Qed.

Lemma register_all at_ rules : forall e e',
  afor (fun id => evaluation.RegisterRequiredRuleAt id at_) rules e = (e', Ok tt) ->
  inv e -> pending 0 e -> 0 < evaluation.version e ->
  evaluation.version e + Z.of_nat (length rules) < u64_modulus ->
  inv e' /\ pending 0 e' /\ 0 < evaluation.version e' <= evaluation.version e + Z.of_nat (length rules).
Proof.
  induction rules as [|id rules IH]; intros e e' H Hi Hp H0 Hl; cbn [afor length] in H, Hl.
  { injection H as <-. split_and!; [done..|lia]. }
  unfold abind in H.
  destruct (evaluation.RegisterRequiredRuleAt id at_ e) as [e1 [[]|err]] eqn:H1; [|done].
  destruct (advances_new (evaluation.CRegister id at_) e e1) as (Hi1 & Hp1 & Hv1); [done..|lia|].
  destruct (IH e1 e') as (Hi' & Hp' & Hv'); [done..|lia|lia|]. split_and!; [done..|lia|].
  cbn [length]. lia.
Qed.

Abbreviation MemoryWorld := (World MemoryStore).

(** The other clients keep the invariant. *)
Definition good_world (w : MemoryWorld) : Prop :=
  forall i m, store_ok m -> evolves m (interfere w i m).

(** Nobody else runs. *)
Definition quiet (w : MemoryWorld) : Prop := forall i m, interfere w i m = m.

Lemma quiet_good w : quiet w -> good_world w.
Proof. intros Hq i m Hm. rewrite Hq. by apply evolves_refl. Qed.

(** The store as the operation's successive store calls find it, when the
    operation itself has not changed it. *)
Fixpoint observed (w : MemoryWorld) (n : nat) (m : MemoryStore) : MemoryStore :=
  match n with
  | O => interfere w 0 m
  | S k => interfere w n (observed w k m)
  end.

Lemma observed_evolves w n m : good_world w -> store_ok m -> evolves m (observed w n m).
Proof.
  intros Hw Hm. induction n as [|n IH]; [by apply Hw|]. cbn [observed].
  eapply evolves_trans; [exact IH|]. apply Hw, IH.
Qed.

(** ** The updates *)

Inductive Update :=
  | UStart
  | URecord (o : evaluation.RuleOutcome)
  | UBind (b : evaluation.PolicyBinding)
  | UBindEvidence (result : evidence.SessionQualificationResult)
  | UExecute (svc : rules.RuleExecutionService)
  | UComplete
  | UExpire (p : TimeoutPolicy).

Definition Result : Type := evaluation.EvaluationSnapshot + evaluation.DecisionTrace.

(** What an update answers about the aggregate it leaves. *)
Definition answer (u : Update) (e : evaluation.EvaluationAggregate) : Result :=
  match u with
  | UComplete => inr (evaluation.decisionTrace e)
  | _ => inl (evaluation.Snapshot e)
  end.

(** Nothing is left to do: the early return of an update. *)
Definition settled (u : Update) (e : evaluation.EvaluationAggregate) : bool :=
  match u with
  | UStart => evaluation.state e == evaluation.StateRunning
  | UComplete => evaluation.state e == evaluation.StateCompleted
  | UExpire _ => evaluation.state e == evaluation.StateExpired
  | UExecute _ =>
      is_ok (rules.requiredBindings (evaluation.Snapshot e)) &&
      (evaluation.ruleOutcomes e != []) && (evaluation.MissingRequiredRuleIDs e == [])
  | URecord _ | UBind _ | UBindEvidence _ => false
  end.

(** The update of one aggregate, run alone, at time [now]. *)
Definition apply (u : Update) (now : Time) (e : evaluation.EvaluationAggregate)
    : outcome Error evaluation.EvaluationAggregate :=
  let ran (m : evaluation.method) :=
    match m e with
    | (e', Ok _) => Ok e'
    | (_, Err err) => Err (EvaluationError err)
    end in
  match u with
  | UStart => ran (evaluation.Start (UTC now))
  | URecord o =>
      ran (evaluation.RecordRuleOutcome
             (if IsZero (evaluation.EvaluatedAt o) then o <| evaluation.EvaluatedAt := UTC now |> else o))
  | UBind b => ran (evaluation.BindVerificationPolicy b)
  | UBindEvidence result => ran (evaluation.BindEvidenceSet (qualificationBinding result))
  | UExecute svc =>
      let! bound := rules.requiredBindings (evaluation.Snapshot e) in
      if evaluation.ruleOutcomes e != [] then Err ErrPartialRuleOutcomes else
      let! outcomes := rules.runRules svc (evaluation.id_ e) (evaluation.Snapshot e) bound.1 bound.2 (UTC now) in
      ran (evaluation.RecordRuleOutcomeBatch outcomes (UTC now))
  | UComplete =>
      let! d := omap_err EvaluationError (evaluation.DeriveResult e) in
      ran (evaluation.CompleteAt d.1 d.2 (UTC now))
  | UExpire p =>
      let! limit := deadline p (evaluation.Snapshot e) in
      if Before (UTC now) limit then Err ErrEvaluationNotTimedOut else
      ran (evaluation.Expire (UTC now))
  end.

Section service.
Context (marshal : evaluation.DomainEvent -> option bytes).

Definition as_snapshot (a : action MemoryStore Error evaluation.EvaluationSnapshot)
    : action MemoryStore Error Result := do! s <- a; aret (inl s).

Definition perform (u : Update) (w : MemoryWorld) (id : UUID) : action MemoryStore Error Result :=
  match u with
  | UStart => as_snapshot (Start marshal w id)
  | URecord o => as_snapshot (RecordOutcome marshal w id o)
  | UBind b => as_snapshot (BindVerificationPolicy marshal w id b)
  | UBindEvidence result => as_snapshot (BindEvidenceQualification marshal w id result)
  | UExecute svc => as_snapshot (rules.Execute marshal svc w id)
  | UComplete => do! t <- Complete marshal w id; aret (inr t)
  | UExpire p => as_snapshot (ExpireTimedOut marshal w id p)
  end.

(** The update as one atomic step of the store. *)
Inductive atomic_step (u : Update) (w : MemoryWorld) (id : UUID) (m m' : MemoryStore) : Result -> Prop :=
  | atomic_read e :
      holds m e -> evaluation.id_ e = id -> settled u e = true -> m' = m ->
      atomic_step u w id m m' (answer u e)
  | atomic_write e e' records t :
      holds m e -> evaluation.id_ e = id -> settled u e = false ->
      apply u (clock w 0) e = Ok e' ->
      outbox.BuildOutboxRecords marshal (fun k => random w (1 + k)%nat) (UTC (clock w t)) e' = Ok records ->
      loaded (evaluation.ClearDomainEvents e') ->
      m' = stored_with m e' records -> evolves m m' ->
      atomic_step u w id m m' (answer u e').

Lemma apply_advances u now e e' : inv e -> apply u now e = Ok e' -> advances e e'.
Proof.
  intros Hi. assert (forall c, service_command c = true ->
    match evaluation.exec c e with
    | (e', Ok _) => Ok e'
    | (_, Err err) => Err (EvaluationError err)
    end = Ok e' -> advances e e') as Hc.
  { intros c Hs Hc. destruct (evaluation.exec c e) as [e1 [[]|]] eqn:He; [|done].
    injection Hc as ->. by apply (exec_advances c). }
  destruct u as [|o|b|result|svc| |p]; cbn [apply].
  - by apply (Hc (evaluation.CStart (UTC now))).
  - by apply (Hc (evaluation.CRecord _)).
  - by apply (Hc (evaluation.CBindPolicy b)).
  - by apply (Hc (evaluation.CBindEvidence _)).
  - destruct (rules.requiredBindings _) as [[b p]|]; [|done]. cbn [obind].
    destruct (evaluation.ruleOutcomes e != []); [done|]. destruct (rules.runRules _ _ _ _ _ _) as [os|]; [|done].
    by apply (Hc (evaluation.CRecordBatch os (UTC now))).
  - destruct (evaluation.DeriveResult e) as [[r codes]|]; [|done].
    by apply (Hc (evaluation.CComplete r codes (UTC now))).
  - destruct (deadline p _) as [limit|]; [|done]. cbn [obind].
    destruct (Before _ limit); [done|]. by apply (Hc (evaluation.CExpire (UTC now))).
Qed.

(** ** The store calls *)

Lemma find_spec w i id m m' r :
  store_ok (interfere w i m) -> find w i id m = (m', r) ->
  m' = interfere w i m /\
  forall e, r = Ok e -> holds m' e /\ evaluation.id_ e = id.
Proof.
  intros Hm H. unfold find in H. cbn [FindEvaluation MemoryStore_store] in H.
  destruct (MemoryFind_spec id (interfere w i m) Hm) as [[_ Hf]|(e & He & Hid & Hf)];
    rewrite Hf in H; injection H as <- <-; (split; [done|]); [done|].
  by intros e' [= <-].
Qed.

(** The save of an update. *)
Lemma save_spec w t m0 e e' m' r :
  good_world w -> store_ok m0 -> holds m0 e -> advances e e' ->
  save marshal w 1 t e' (evaluation.version e) m0 = (m', r) ->
  (exists err, r = Err (OutboxError err)) /\ m' = m0 \/
  (exists err, r = Err err) /\ m' = interfere w 1 m0 \/
  r = Ok tt /\ exists records,
    outbox.BuildOutboxRecords marshal (fun k => random w (1 + k)%nat) (UTC (clock w t)) e' = Ok records /\
    holds (interfere w 1 m0) e /\ loaded (evaluation.ClearDomainEvents e') /\
    m' = stored_with (interfere w 1 m0) e' records /\ evolves (interfere w 1 m0) m'.
Proof.
  intros Hw Hm Hh Ha H. unfold save in H.
  destruct (outbox.BuildOutboxRecords _ _ _ _) as [records|err] eqn:Hb;
    [|injection H as <- <-; left; split; [by eexists|done]].
  right. pose proof (Hw 1%nat m0 Hm) as He.
  destruct (MemorySave_update m0 _ e e' _ _ _ _ _ _ (ev_ok _ _ He) Hh He Ha Hb H)
    as [[-> [err ->]]|(-> & Hc & Hl & -> & Hs)]; [left; eauto|].
  right. split; [done|]. by exists records.
Qed.

(** What an update does: an atomic step at one of its store calls, or
    nothing. *)
Definition outcome_ok (u : Update) (w : MemoryWorld) (id : UUID) (m : MemoryStore)
    (x : MemoryStore * outcome Error Result) : Prop :=
  exists k, (k <= 2)%nat /\
  match x with
  | (m', Ok out) => atomic_step u w id (observed w k m) m' out
  | (m', Err _) => m' = observed w k m
  end.

Lemma outcome_read u w id m k e m' :
  (k <= 2)%nat -> m' = observed w k m -> holds m' e -> evaluation.id_ e = id ->
  settled u e = true -> outcome_ok u w id m (m', Ok (answer u e)).
Proof. intros Hk -> ? ? ?. exists k. split; [done|]. by eapply atomic_read. Qed.

Lemma outcome_none u w id m k m' err :
  (k <= 2)%nat -> m' = observed w k m -> outcome_ok u w id m (m', Err err).
Proof. intros Hk ->. by exists k. Qed.

(** A save and the look at the store that follows a conflict. *)
Lemma save_outcome u w id m e e' t m1 r :
  good_world w -> store_ok m -> holds (observed w 0 m) e -> evaluation.id_ e = id ->
  settled u e = false -> apply u (clock w 0) e = Ok e' ->
  save marshal w 1 t e' (evaluation.version e) (observed w 0 m) = (m1, r) ->
  match r with
  | Ok _ => outcome_ok u w id m (m1, Ok (answer u e'))
  | Err err =>
      outcome_ok u w id m (m1, Err err) /\
      (err = ErrConcurrentModification ->
       forall m2 r2, find w 2 id m1 = (m2, r2) ->
       outcome_ok u w id m (m2, Err err) /\
       forall latest, r2 = Ok latest -> settled u latest = true ->
         outcome_ok u w id m (m2, Ok (answer u latest)))
  end.
Proof.
  intros Hw Hm Hh Hid Hse Ha H.
  pose proof (observed_evolves w 0 m Hw Hm) as Hm0. pose proof (observed_evolves w 2 m Hw Hm) as Hm2.
  destruct (save_spec w t _ e e' m1 r Hw (ev_ok _ _ Hm0) Hh) as
    [[[err ->] ->]|[[[err ->] ->]|(-> & records & Hb & Hc & Hl & -> & Hs)]]; [|done|..].
  - eapply apply_advances; [apply Hh|done].
  - split; [by eapply outcome_none with (k := 0%nat); [lia|]|done].
  - split; [by eapply outcome_none with (k := 1%nat); [lia|]|].
    intros -> m2 r2 Hf. apply find_spec in Hf as [-> Hf]; [|apply Hm2].
    split; [by eapply outcome_none with (k := 2%nat); [lia|]|].
    intros latest Hr Hset. destruct (Hf latest Hr) as [Hl2 Hid2].
    by eapply outcome_read with (k := 2%nat); [lia|..].
  - exists 1%nat. split; [lia|]. by eapply atomic_write.
Qed.

(** ** Each update *)

(** Read the aggregate, or give up. *)
Lemma find_outcome u w id m (k : evaluation.EvaluationAggregate -> action MemoryStore Error Result) :
  good_world w -> store_ok m ->
  (forall e, holds (observed w 0 m) e -> evaluation.id_ e = id ->
    outcome_ok u w id m (k e (observed w 0 m))) ->
  outcome_ok u w id m (abind (find w 0 id) k m).
Proof.
  intros Hw Hm Hk. unfold abind. destruct (find w 0 id m) as [m0 r] eqn:Hf.
  apply find_spec in Hf as [-> He]; [|apply Hw, Hm].
  destruct r as [e|err]; [|by apply outcome_none with (k := 0%nat); [lia|]].
  destruct (He e eq_refl) as [Hh Hid]. by apply Hk.
Qed.

Lemma abind_assoc {A B C} (a : action MemoryStore Error A) (f : A -> action MemoryStore Error B)
    (g : B -> action MemoryStore Error C) m :
  abind (abind a f) g m = abind a (fun x => abind (f x) g) m.
Proof. unfold abind. by destruct (a m) as [m' [x|err]]. Qed.

(** Nothing was written before the save. *)
Ltac gives_up := by apply outcome_none with (k := 0%nat); [lia|].

(** The tail of [Start] and [ExpireTimedOut]: save, or look again after a
    conflict. *)
Lemma snapshot_outcome u target w id m e e' :
  (forall x, answer u x = inl (evaluation.Snapshot x)) ->
  (forall x, settled u x = (evaluation.state x == target)) ->
  good_world w -> store_ok m -> holds (observed w 0 m) e -> evaluation.id_ e = id ->
  settled u e = false -> apply u (clock w 0) e = Ok e' ->
  outcome_ok u w id m (as_snapshot (fun s =>
    match save marshal w 1 1 e' (evaluation.version e) s with
    | (s, Ok _) => (s, Ok (evaluation.Snapshot e'))
    | (s, Err err) =>
        if err == ErrConcurrentModification then
          match Snapshot w 2 id s with
          | (s, Ok latest) =>
              if evaluation.SnapState latest == target then (s, Ok latest) else (s, Err err)
          | (s, Err _) => (s, Err err)
          end
        else (s, Err err)
    end) (observed w 0 m)).
Proof.
  intros Ha Hset Hw Hm Hh Hid Hse Hap. unfold as_snapshot, abind.
  destruct (save _ _ _ _ _ _ _) as [m1 r] eqn:Hs.
  pose proof (save_outcome u w id m e e' 1 m1 r Hw Hm Hh Hid Hse Hap Hs) as Hout.
  destruct r as [[]|err]; [by rewrite Ha in Hout|]. destruct Hout as [Hno Hretry].
  destruct (err == ErrConcurrentModification) eqn:Hc; [|exact Hno].
  apply bool_decide_eq_true in Hc. unfold Snapshot, abind.
  specialize (Hretry Hc _ _ (surjective_pairing (find w 2 id m1))) as [H1 H2].
  destruct (find w 2 id m1) as [m2 [latest|]]; [|exact H1]. cbn [aret evaluation.Snapshot evaluation.SnapState].
  destruct (evaluation.state latest == target) eqn:Ht; [|exact H1].
  specialize (H2 latest eq_refl). rewrite Ha, Hset in H2. by apply H2.
Qed.

Lemma start_outcome w id m :
  good_world w -> store_ok m -> outcome_ok UStart w id m (perform UStart w id m).
Proof.
  intros Hw Hm. unfold perform, as_snapshot, Start. rewrite abind_assoc.
  apply find_outcome; [done..|]. intros e Hh Hid.
  cbn [evaluation.Snapshot evaluation.SnapState].
  destruct (evaluation.state e == evaluation.StateRunning) eqn:Hst.
  { by apply (outcome_read UStart w id m 0 e); [lia|..]. }
  unfold mutate. destruct (evaluation.Start (UTC (clock w 0)) e) as [e' [[]|err]] eqn:He; [|gives_up].
  apply (snapshot_outcome UStart evaluation.StateRunning); try done. cbn [apply]. by rewrite He.
Qed.

Lemma expire_outcome p w id m :
  good_world w -> store_ok m -> outcome_ok (UExpire p) w id m (perform (UExpire p) w id m).
Proof.
  intros Hw Hm. unfold perform, as_snapshot, ExpireTimedOut. rewrite abind_assoc.
  apply find_outcome; [done..|]. intros e Hh Hid.
  cbn [evaluation.SnapState evaluation.Snapshot]. fold (evaluation.Snapshot e).
  destruct (evaluation.state e == evaluation.StateExpired) eqn:Hst.
  { by apply (outcome_read (UExpire p) w id m 0 e); [lia|..]. }
  destruct (deadline p (evaluation.Snapshot e)) as [limit|err] eqn:Hd; [|gives_up].
  destruct (Before (UTC (clock w 0)) limit) eqn:Hb; [gives_up|].
  unfold mutate. destruct (evaluation.Expire (UTC (clock w 0)) e) as [e' [[]|err]] eqn:He; [|gives_up].
  apply (snapshot_outcome (UExpire p) evaluation.StateExpired); try done.
  cbn [apply]. rewrite Hd. cbn [obind]. by rewrite Hb, He.
Qed.

Lemma complete_outcome w id m :
  good_world w -> store_ok m -> outcome_ok UComplete w id m (perform UComplete w id m).
Proof.
  intros Hw Hm. unfold perform, Complete. rewrite abind_assoc.
  apply find_outcome; [done..|]. intros e Hh Hid.
  cbn [evaluation.SnapState evaluation.Snapshot].
  destruct (evaluation.state e == evaluation.StateCompleted) eqn:Hst.
  { by apply (outcome_read UComplete w id m 0 e); [lia|..]. }
  destruct (evaluation.DeriveResult e) as [[result reasons]|err] eqn:Hd; [|gives_up].
  unfold mutate. destruct (evaluation.CompleteAt _ _ _ e) as [e' [[]|err]] eqn:He; [|gives_up].
  unfold abind. destruct (save _ _ _ _ _ _ _) as [m1 r] eqn:Hs.
  assert (apply UComplete (clock w 0) e = Ok e') as Hap
    by (cbn [apply]; rewrite Hd; cbn [omap_err obind fst snd]; by rewrite He).
  pose proof (save_outcome UComplete w id m e e' 1 m1 r Hw Hm Hh Hid Hst Hap Hs) as Hout.
  destruct r as [[]|err]; [done|]. destruct Hout as [Hno Hretry].
  destruct (err == ErrConcurrentModification) eqn:Hc; [|exact Hno].
  apply bool_decide_eq_true in Hc.
  specialize (Hretry Hc _ _ (surjective_pairing (find w 2 id m1))) as [H1 H2].
  destruct (find w 2 id m1) as [m2 [latest|]]; [|exact H1]. cbn [evaluation.Snapshot evaluation.SnapState].
  destruct (evaluation.state latest == evaluation.StateCompleted) eqn:Ht; [|exact H1].
  by apply (H2 latest).
Qed.

(** The tail of the updates without a retry. *)
Lemma saveAndReturn_outcome u t w id m e e' :
  (forall x, answer u x = inl (evaluation.Snapshot x)) ->
  good_world w -> store_ok m -> holds (observed w 0 m) e -> evaluation.id_ e = id ->
  settled u e = false -> apply u (clock w 0) e = Ok e' ->
  outcome_ok u w id m
    (as_snapshot (saveAndReturn marshal w 1 t e' (evaluation.version e)) (observed w 0 m)).
Proof.
  intros Ha Hw Hm Hh Hid Hse Hap. unfold as_snapshot, saveAndReturn, abind.
  destruct (save _ _ _ _ _ _ _) as [m1 r] eqn:Hs.
  pose proof (save_outcome u w id m e e' t m1 r Hw Hm Hh Hid Hse Hap Hs) as Hout.
  destruct r as [[]|err]; [by rewrite Ha in Hout|by destruct Hout].
Qed.

Lemma record_outcome o w id m :
  good_world w -> store_ok m -> outcome_ok (URecord o) w id m (perform (URecord o) w id m).
Proof.
  intros Hw Hm. unfold perform, as_snapshot, RecordOutcome. rewrite abind_assoc.
  apply find_outcome; [done..|]. intros e Hh Hid. unfold mutate.
  destruct (IsZero (evaluation.EvaluatedAt o)) eqn:Hz;
    destruct (evaluation.RecordRuleOutcome _ e) as [e' [[]|err]] eqn:He; try gives_up;
    apply (saveAndReturn_outcome (URecord o)); try done; cbn [apply]; by rewrite Hz, He.
Qed.

Lemma bind_outcome b w id m :
  good_world w -> store_ok m -> outcome_ok (UBind b) w id m (perform (UBind b) w id m).
Proof.
  intros Hw Hm. unfold perform, as_snapshot, BindVerificationPolicy. rewrite abind_assoc.
  apply find_outcome; [done..|]. intros e Hh Hid. unfold mutate.
  destruct (evaluation.BindVerificationPolicy b e) as [e' [[]|err]] eqn:He; [|gives_up].
  apply (saveAndReturn_outcome (UBind b)); try done. cbn [apply]. by rewrite He.
Qed.

Lemma bind_evidence_outcome result w id m :
  good_world w -> store_ok m ->
  outcome_ok (UBindEvidence result) w id m (perform (UBindEvidence result) w id m).
Proof.
  intros Hw Hm. unfold perform, as_snapshot, BindEvidenceQualification. rewrite abind_assoc.
  apply find_outcome; [done..|]. intros e Hh Hid. unfold mutate.
  destruct (evaluation.BindEvidenceSet _ e) as [e' [[]|err]] eqn:He; [|gives_up].
  apply (saveAndReturn_outcome (UBindEvidence result)); try done. cbn [apply]. by rewrite He.
Qed.

Lemma execute_outcome svc w id m :
  good_world w -> store_ok m -> outcome_ok (UExecute svc) w id m (perform (UExecute svc) w id m).
Proof.
  intros Hw Hm. unfold perform, as_snapshot, rules.Execute. rewrite abind_assoc.
  apply find_outcome; [done..|]. intros e Hh Hid.
  destruct (rules.requiredBindings (evaluation.Snapshot e)) as [[b p]|err] eqn:Hb; [|gives_up].
  change (evaluation.SnapRuleOutcomes (evaluation.Snapshot e)) with (evaluation.ruleOutcomes e).
  destruct (evaluation.ruleOutcomes e != []) eqn:Ho.
  { destruct (evaluation.MissingRequiredRuleIDs e == []) eqn:Hn; [|gives_up].
    apply (outcome_read (UExecute svc) w id m 0 e); [lia|done..|]. cbn [settled]. by rewrite Hb, Ho, Hn. }
  destruct (rules.runRules _ _ _ _ _ _) as [os|err] eqn:Hr; [|gives_up]. unfold mutate.
  destruct (evaluation.RecordRuleOutcomeBatch _ _ e) as [e' [[]|err]] eqn:He; [|gives_up].
  apply (saveAndReturn_outcome (UExecute svc)); try done.
  - cbn [settled]. by rewrite Hb, Ho.
  - cbn [apply]. rewrite Hb. cbn [obind fst snd]. rewrite Ho, Hid, Hr. cbn [obind]. by rewrite He.
Qed.

Lemma perform_outcome u w id m :
  good_world w -> store_ok m -> outcome_ok u w id m (perform u w id m).
Proof.
  destruct u; auto using start_outcome, record_outcome, bind_outcome, bind_evidence_outcome,
    execute_outcome, complete_outcome, expire_outcome.
Qed.

(** ** Every operation *)

(** The memory repository of evidence. *)
Context (zone_offset : positive -> Z -> Z) (range : evidence.Range).
Context (groupRange : evidence.Groups -> list (list evidence.observation)).

#[local] Instance repository : evidence.Repository evidence.MemoryRepository :=
  evidence.MemoryRepository_repository zone_offset.

Inductive Request :=
  | RCreate (sessionID : UUID) (requiredRules : list string)
  | RCreateForPolicy (sessionID : UUID) (policyID : string) (resolver : option PolicyResolver)
  | RUpdate (u : Update) (id : UUID)
  | RResolveAndBind (id : UUID) (policyID : string) (resolver : option PolicyResolver)
  | RQualifyAndBind (svc : rules.PolicyEvidenceQualificationService (R := evidence.MemoryRepository))
      (evaluatedAt : Time) (id : UUID)
  | RSnapshot (id : UUID)
  | RTrace (id : UUID).

Definition serve (r : Request) (w : MemoryWorld) : action MemoryStore Error Result :=
  match r with
  | RCreate session rules => as_snapshot (Create marshal w session rules)
  | RCreateForPolicy session policyID resolver =>
      as_snapshot (CreateForPolicy marshal w session policyID resolver)
  | RUpdate u id => perform u w id
  | RResolveAndBind id policyID resolver =>
      as_snapshot (ResolveAndBindPolicy marshal w id policyID resolver)
  | RQualifyAndBind svc evaluatedAt id =>
      as_snapshot (rules.QualifyAndBind marshal range groupRange svc evaluatedAt w id)
  | RSnapshot id => as_snapshot (Snapshot w 0 id)
  | RTrace id => do! t <- Trace w id; aret (inr t)
  end.

(** A Go slice is shorter than 2^63. *)
Definition request_ok (r : Request) : Prop :=
  match r with
  | RCreate _ rules => Z.of_nat (length rules) <= i64_max
  | RCreateForPolicy _ _ (Some resolve) => forall policyID at_ v,
      resolve policyID at_ = Ok (Some v) ->
      Z.of_nat (length (policy.RequiredRuleIDs (policy.VersionSnapshot v))) <= i64_max
  | _ => True
  end.

Lemma outcome_evolves u w id m x :
  good_world w -> store_ok m -> outcome_ok u w id m x -> evolves m (fst x).
Proof.
  intros Hw Hm (k & _ & H). destruct x as [m' [out|err]]; cbn [fst].
  - eapply evolves_trans; [by apply (observed_evolves w k)|].
    destruct H as [e _ _ _ ->|e e' records t _ _ _ _ _ _ _ He]; [|done].
    by apply evolves_refl, observed_evolves.
  - subst m'. by apply observed_evolves.
Qed.

Lemma perform_evolves u w id m :
  good_world w -> store_ok m -> evolves m (fst (perform u w id m)).
Proof. intros Hw Hm. eapply outcome_evolves; [done..|]. by apply perform_outcome. Qed.

(** Reading the aggregate first. *)
Lemma find_evolves {A} w id m (k : evaluation.EvaluationAggregate -> action MemoryStore Error A) :
  good_world w -> store_ok m ->
  (forall e, holds (observed w 0 m) e -> evaluation.id_ e = id ->
    evolves m (fst (k e (observed w 0 m)))) ->
  evolves m (fst (abind (find w 0 id) k m)).
Proof.
  intros Hw Hm Hk. unfold abind. destruct (find w 0 id m) as [m0 r] eqn:Hf.
  apply find_spec in Hf as [-> He]; [|apply Hw, Hm].
  destruct r as [e|err]; [|by apply Hw]. destruct (He e eq_refl) as [Hh Hid]. by apply Hk.
Qed.

(** The save that ends a creation. *)
Lemma create_save w m e :
  good_world w -> store_ok m -> inv e -> pending 0 e ->
  evolves m (fst (saveAndReturn marshal w 0 1 e 0 m)) /\
  forall m' s, saveAndReturn marshal w 0 1 e 0 m = (m', Ok s) ->
    s = evaluation.Snapshot e /\ snapshots (observed w 0 m) !! evaluation.id_ e = None /\
    snapshots m' !! evaluation.id_ e = Some s.
Proof.
  intros Hw Hm Hi Hp. unfold saveAndReturn, abind, save.
  destruct (outbox.BuildOutboxRecords _ _ _ e) as [records|err] eqn:Hb;
    [|by split; [apply evolves_refl|]].
  pose proof (Hw 0%nat m Hm) as Hm0. cbn [SaveEvaluation MemoryStore_store].
  destruct (MemorySave _ _ _ _) as [m' r] eqn:Hs.
  destruct (MemorySave_create _ e _ _ _ _ _ _ (ev_ok _ _ Hm0) Hi Hp Hb Hs)
    as [[-> [err ->]]|(-> & Hn & Hl & -> & He)]; cbn [fst aret]; [by split|].
  split; [by eapply evolves_trans|]. intros m' s [= <- <-].
  split_and!; [done..|]. cbn [stored_with snapshots]. by rewrite lookup_insert_eq.
Qed.

Lemma as_snapshot_fst a m : fst (as_snapshot a m) = fst (a m).
Proof. unfold as_snapshot, abind. by destruct (a m) as [m' [s|err]]. Qed.

(** A new aggregate with its required rules. *)
Lemma new_with_rules id session at_ rules e e' :
  evaluation.NewEvaluation id session at_ = Ok e ->
  afor (fun ruleID => evaluation.RegisterRequiredRuleAt ruleID at_) rules e = (e', Ok tt) ->
  Z.of_nat (length rules) <= i64_max ->
  inv e' /\ pending 0 e' /\ 0 < evaluation.version e' < u64_modulus - 1.
Proof.
  intros (Hi & Hp & Hv)%NewEvaluation_pending Hr Hl. unfold i64_max in Hl.
  destruct (register_all at_ rules e e' Hr Hi Hp) as (Hi' & Hp' & Hv'); unfold u64_modulus; [lia..|].
  split_and!; [done..|lia|lia].
Qed.

Lemma create_evolves w session rules m :
  good_world w -> store_ok m -> Z.of_nat (length rules) <= i64_max ->
  evolves m (fst (Create marshal w session rules m)).
Proof.
  intros Hw Hm Hl. unfold Create.
  destruct (evaluation.NewEvaluation _ _ _) as [e|err] eqn:He; [|by apply evolves_refl].
  unfold mutate. destruct (afor _ rules e) as [e' [[]|err]] eqn:Hr; [|by apply evolves_refl].
  destruct (new_with_rules _ _ _ _ _ _ He Hr Hl) as (Hi & Hp & _). by apply create_save.
Qed.

Lemma create_for_policy_evolves w session policyID resolver m :
  good_world w -> store_ok m -> request_ok (RCreateForPolicy session policyID resolver) ->
  evolves m (fst (CreateForPolicy marshal w session policyID resolver m)).
Proof.
  intros Hw Hm Hl. unfold CreateForPolicy. destruct resolver as [resolve|]; [|by apply evolves_refl].
  destruct (resolve policyID _) as [[v|]|err] eqn:Hv; [|by apply evolves_refl..].
  destruct (evaluation.NewEvaluation _ _ _) as [e|err] eqn:He; [|by apply evolves_refl].
  unfold mutate. destruct (afor _ _ e) as [e1 [[]|err]] eqn:Hr; [|by apply evolves_refl].
  destruct (new_with_rules _ _ _ _ _ _ He Hr (Hl _ _ _ Hv)) as (Hi & Hp & Hver).
  destruct (evaluation.BindVerificationPolicy _ e1) as [e2 [[]|err]] eqn:Hb; [|by apply evolves_refl].
  destruct (advances_new (evaluation.CBindPolicy _) e1 e2 eq_refl Hb Hi Hp Hver) as (Hi2 & Hp2 & _).
  by apply create_save.
Qed.

Lemma resolve_and_bind_evolves w id policyID resolver m :
  good_world w -> store_ok m -> evolves m (fst (ResolveAndBindPolicy marshal w id policyID resolver m)).
Proof.
  intros Hw Hm. unfold ResolveAndBindPolicy. destruct resolver as [resolve|]; [|by apply evolves_refl].
  apply find_evolves; [done..|]. intros e Hh Hid.
  destruct (resolve policyID _) as [resolved|err]; [|by apply Hw].
  destruct (negb _); [by apply Hw|]. unfold mutate.
  destruct (evaluation.BindVerificationPolicy ?[b] e) as [e' [[]|err]] eqn:Hb; [|by apply Hw].
  rewrite <- as_snapshot_fst. eapply outcome_evolves; [done..|].
  eapply (saveAndReturn_outcome (UBind _)); [done..|]. cbn [apply]. by rewrite Hb.
Qed.

Lemma good_later n w : good_world w -> good_world (rules.later n w).
Proof. intros Hw i m Hm. by apply Hw. Qed.

Lemma snapshot_evolves w i id m m' r :
  good_world w -> store_ok m -> Snapshot w i id m = (m', r) -> evolves m m'.
Proof.
  intros Hw Hm. unfold Snapshot, abind. destruct (find w i id m) as [m0 [e|err]] eqn:Hf;
    intros [= <- _]; apply find_spec in Hf as [-> _]; apply Hw, Hm.
Qed.

Lemma bind_evidence_evolves w id result m m' r :
  good_world w -> store_ok m -> BindEvidenceQualification marshal w id result m = (m', r) -> evolves m m'.
Proof.
  intros Hw Hm H. pose proof (perform_evolves (UBindEvidence result) w id m Hw Hm) as He.
  cbn [perform] in He. by rewrite as_snapshot_fst, H in He.
Qed.

Lemma qualify_and_bind_evolves svc evaluatedAt w id m :
  good_world w -> store_ok m ->
  evolves m (fst (rules.QualifyAndBind marshal range groupRange svc evaluatedAt w id m)).
Proof.
  intros Hw Hm. unfold rules.QualifyAndBind. destruct (negb _); [by apply evolves_refl|].
  destruct (rules.evidenceRepository svc), (rules.versionReader svc), (rules.qualificationCompiler svc);
    try by apply evolves_refl.
  unfold rules.qualifyAndBind, abind. destruct (Snapshot w 0 id m) as [m0 r] eqn:H0.
  apply snapshot_evolves in H0; [|done..]. destruct r as [s|err]; [|done].
  destruct (evaluation.SnapEvidenceBinding s); [done|].
  destruct (rules.qualifySession _ _ _ _ _ _ _) as [result|err]; [|done].
  destruct (BindEvidenceQualification _ _ _ _ m0) as [m1 r] eqn:H1.
  apply bind_evidence_evolves in H1; [|by apply good_later|by eapply ev_ok].
  assert (evolves m m1) as Hm1 by by eapply evolves_trans.
  destruct r as [bound|err]; [done|]. destruct (rules.lostRace err); [|done].
  destruct (Snapshot w 3 id m1) as [m2 r] eqn:H2. apply snapshot_evolves in H2; [|done|by eapply ev_ok].
  assert (evolves m m2) by by eapply evolves_trans.
  destruct r as [latest|]; [|done]. by destruct (evaluation.SnapEvidenceBinding latest).
Qed.

Lemma serve_evolves r w m :
  good_world w -> request_ok r -> store_ok m -> evolves m (fst (serve r w m)).
Proof.
  intros Hw Hr Hm.
  destruct r as [session rules|session policyID resolver|u id|id policyID resolver|svc evaluatedAt id|id|id];
    cbn [serve]; rewrite ?as_snapshot_fst.
  - by apply create_evolves.
  - by apply create_for_policy_evolves.
  - by apply perform_evolves.
  - by apply resolve_and_bind_evolves.
  - by apply qualify_and_bind_evolves.
  - apply find_evolves; [done..|]. intros e _ _. by apply Hw.
  - unfold Trace. rewrite abind_assoc. apply find_evolves; [done..|]. intros e _ _. by apply Hw.
Qed.
End service.
