(* ===== verification/PdsProperties.v ===== *)
(** * Properties of the evaluation service

    What clients of the service may rely on, whatever other clients do between
    its store calls. *)

From Stdlib Require Import Ascii String.
From S2P Require Import Prelude GoTime GoString Uuid GoCrypto Evidence Evaluation EvaluationLifecycle.
From S2P Require Import EvaluationLifecycle EvaluationRules EvaluationReach EvaluationPersistence.
From S2P Require Import Outbox Policy PolicyRegistry Pds PdsRules PdsService.
Import pds.

(** ** Updates that are already done *)

Lemma find_quiet w i m e :
  quiet w -> holds m e -> find w i (evaluation.id_ e) m = (m, Ok e).
Proof.
  intros Hq [He Hs]. unfold find. rewrite Hq. cbn [FindEvaluation MemoryStore_store].
  unfold MemoryFind. by rewrite Hs, Rehydrate_loaded.
Qed.

Lemma perform_settled marshal u w m e :
  quiet w -> holds m e -> settled u e = true ->
  perform marshal u w (evaluation.id_ e) m = (m, Ok (answer u e)).
Proof.
  intros Hq Hh Hs. destruct u as [|o|b|result|svc| |p]; try discriminate Hs; cbn [settled] in Hs;
    unfold perform, as_snapshot, Start, Complete, ExpireTimedOut, rules.Execute; rewrite abind_assoc;
    unfold abind at 1; rewrite find_quiet by done.
  2: { destruct (rules.requiredBindings _) as [[b p]|err]; [|done]. cbn [is_ok andb] in Hs.
       apply andb_prop in Hs as [Ho Hn].
       change (evaluation.SnapRuleOutcomes _) with (evaluation.ruleOutcomes e). by rewrite Ho, Hn. }
  all: cbn [evaluation.SnapState evaluation.Snapshot]; by rewrite Hs.
Qed.

(** Take the branch of a method that succeeded. *)
Ltac succeeded H :=
  unfold evaluation.Start, evaluation.CompleteAt, evaluation.Expire, evaluation.fail,
    evaluation.update in H;
  repeat match type of H with
    | context [match ?x with _ => _ end] =>
        lazymatch x with
        | context [match _ with _ => _ end] => fail
        | _ => destruct x; try discriminate H
        end
    end;
  injection H as <-.

(** An update of the lifecycle that succeeds leaves nothing to do. *)
Definition lifecycle_update (u : Update) : bool :=
  match u with
  | URecord _ | UBind _ | UBindEvidence _ | UExecute _ => false
  | _ => true
  end.

Lemma apply_settles u now e e' :
  lifecycle_update u = true -> apply u now e = Ok e' -> settled u e' = true.
Proof.
  intros Hl Ha. destruct u as [|o|b|result|svc| |p]; try discriminate Hl; cbn [apply] in Ha.
  - by succeeded Ha.
  - destruct (evaluation.DeriveResult e) as [[r codes]|]; [|done]. cbn [omap_err obind] in Ha.
    by succeeded Ha.
  - destruct (deadline p _) as [limit|]; [|done]. cbn [obind] in Ha.
    destruct (Before _ limit); [done|].
    by succeeded Ha.
Qed.

(** The aggregate a successful lifecycle update leaves in the store. *)
Lemma atomic_step_settles marshal u w id m m' out :
  lifecycle_update u = true -> atomic_step marshal u w id m m' out ->
  exists e, holds m' e /\ evaluation.id_ e = id /\ settled u e = true /\ out = answer u e.
Proof.
  intros Hl [e Hh Hid Hs ->|e e' records t Hh Hid Hs Ha Hb Hld -> Hev].
  - by exists e.
  - exists (evaluation.ClearDomainEvents e').
    assert (evaluation.id_ e' = evaluation.id_ e) as Hi
      by apply (f_id _ _ (st_frame _ _ (ad_step _ _ (apply_advances u _ e e' (ld_inv _ (proj1 Hh)) Ha)))).
    split_and!; [|by rewrite <- Hid|by apply (apply_settles u (clock w 0) e e' Hl) in Ha; destruct u
      |by destruct u].
    split; [done|]. cbn [stored_with snapshots]. by rewrite lookup_insert_eq.
Qed.

(** What the update of [ExpireTimedOut] does. *)
Lemma expire_facts p now e e' :
  apply (UExpire p) now e = Ok e' ->
  exists limit, deadline p (evaluation.Snapshot e) = Ok limit /\ instant limit <= instant now /\
    evaluation.expiredAt e' = Some (UTC now) /\
    evaluation.result e' = evaluation.ResultSystemException /\
    evaluation.reasonCodes e' = [evaluation.ReasonCodeEvaluationTimeout] /\
    evaluation.version e' = u64_succ (evaluation.version e).
Proof.
  intros Ha. cbn [apply] in Ha. destruct (deadline p _) as [limit|]; [|done]. cbn [obind] in Ha.
  destruct (Before (UTC now) limit) eqn:Hb; [done|]. exists limit. unfold Before in Hb. cbn in Hb.
  succeeded Ha. cbn. split_and!; [done|lia|done..].
Qed.

(** ** Uncontended updates *)

Lemma MemorySave_quiet m e e' records :
  holds m e -> advances e e' -> evaluation.version e' <> 0 ->
  MemorySave (evaluation.Snapshot e') (evaluation.version e) records m =
  (stored_with m e' records, Ok tt).
Proof.
  intros [[Hi Hv _] Hs] Ha Hv'. pose proof (i_version e Hi) as Hr. unfold is_u64 in Hr.
  assert (evaluation.id_ e' = evaluation.id_ e) as Hid by apply (f_id _ _ (st_frame _ _ (ad_step _ _ Ha))).
  unfold MemorySave. cbn [evaluation.Snapshot evaluation.SnapEvaluationID].
  rewrite Hid, Hs, (proj2 (Z.eqb_neq _ _) Hv), (proj2 (Z.ltb_lt 0 _)) by lia.
  cbn [andb evaluation.Snapshot evaluation.SnapVersion]. rewrite Z.eqb_refl. cbn [negb].
  fold (evaluation.Snapshot e'). rewrite RehydrateEvaluation_Snapshot by (done || apply Ha).
  unfold stored_with. by rewrite Hid.
Qed.

Lemma save_quiet marshal w t m e e' records :
  quiet w -> holds m e -> advances e e' -> evaluation.version e' <> 0 ->
  outbox.BuildOutboxRecords marshal (fun k => random w (1 + k)%nat) (UTC (clock w t)) e' = Ok records ->
  save marshal w 1 t e' (evaluation.version e) m = (stored_with m e' records, Ok tt).
Proof.
  intros Hq Hh Ha Hv Hb. unfold save. rewrite Hb, Hq. by apply MemorySave_quiet.
Qed.

(** The method run behind an update that applies. *)
Lemma ran_ok (m : evaluation.method) e e' :
  match m e with
  | (e', Ok _) => Ok e'
  | (_, Err err) => Err (EvaluationError err)
  end = Ok e' :> outcome Error _ -> m e = (e', Ok tt).
Proof. destruct (m e) as [e1 [[]|err]]; [|done]. by intros [= ->]. Qed.

Section properties.
Context (marshal : evaluation.DomainEvent -> option bytes).

(** C2: the store of the evaluation service. Along every sequence of requests, each
    run against interfering clients that keep the same contract, every stored
    snapshot belongs to a valid aggregate, the outbox holds one record for each
    version of each evaluation in order, the outbox only grows, and a snapshot is
    only replaced by one of a later version whose state is reachable, never once it
    is terminal. *)
Theorem service_keeps_store zone_offset range groupRange rs m :
  store_ok m -> Forall (fun rw => request_ok rw.1 /\ good_world rw.2) rs ->
  evolves m (fold_left (fun m rw => fst (serve marshal zone_offset range groupRange rw.1 rw.2 m)) rs m).
Proof.
  intros Hm Hrs. revert m Hm. induction Hrs as [|[r w] rs [Hr Hw] _ IH]; intros m Hm; cbn [fold_left].
  - by apply evolves_refl.
  - pose proof (serve_evolves marshal zone_offset range groupRange r w m Hw Hr Hm) as He.
    eapply evolves_trans; [exact He|]. apply IH, He.
Qed.

(** C1: linearizability of the evaluation service. Whatever other clients do between
    its store calls, an update (start, record, bind a policy or evidence, execute
    the rules, complete, expire) that succeeds takes effect as one atomic step of
    the store at one of its three calls: it either finds its work already done, or
    commits exactly the update of the snapshot that the store still holds, together
    with the outbox records of its events. An update that fails writes nothing. *)
Theorem updates_are_linearizable u w id m :
  good_world w -> store_ok m ->
  exists k, (k <= 2)%nat /\
  match perform marshal u w id m with
  | (m', Ok out) => atomic_step marshal u w id (observed w k m) m' out
  | (m', Err _) => m' = observed w k m
  end.
Proof. intros Hw Hm. by apply perform_outcome. Qed.

(** Exact retries of the lifecycle updates: once a start, completion or
    expiration has succeeded, repeating it while nobody else runs returns the very
    same answer and leaves the store, outbox included, as it is. *)
Theorem retry_returns_the_original u w w2 id m m' out :
  good_world w -> store_ok m -> lifecycle_update u = true -> quiet w2 ->
  perform marshal u w id m = (m', Ok out) ->
  perform marshal u w2 id m' = (m', Ok out).
Proof.
  intros Hw Hm Hl Hq H. pose proof (perform_outcome marshal u w id m Hw Hm) as (k & _ & Ho).
  rewrite H in Ho. destruct (atomic_step_settles _ _ _ _ _ _ _ Hl Ho) as (e & Hh & <- & Hs & ->).
  by apply perform_settled.
Qed.

(** An evaluation expires only after its deadline: when ExpireTimedOut
    succeeds, the evaluation is stored EXPIRED, and either it was already so when
    read, or the clock had reached the deadline the policy gives for the snapshot
    that was replaced, and the new snapshot is one version later with the timeout
    result, reason and time. *)
Theorem expiry_needs_the_deadline p w id m m' out :
  good_world w -> store_ok m ->
  perform marshal (UExpire p) w id m = (m', Ok out) ->
  exists s, out = inl s /\ snapshots m' !! id = Some s /\
    evaluation.SnapState s = evaluation.StateExpired /\
    exists k, (k <= 2)%nat /\
    (m' = observed w k m \/
     exists s0 limit, snapshots (observed w k m) !! id = Some s0 /\ deadline p s0 = Ok limit /\
       instant limit <= instant (clock w 0) /\
       evaluation.SnapExpiredAt s = Some (UTC (clock w 0)) /\
       evaluation.SnapResult s = evaluation.ResultSystemException /\
       evaluation.SnapReasonCodes s = [evaluation.ReasonCodeEvaluationTimeout] /\
       evaluation.SnapVersion s = u64_succ (evaluation.SnapVersion s0)).
Proof.
  intros Hw Hm H. pose proof (perform_outcome marshal (UExpire p) w id m Hw Hm) as (k & Hk & Ho).
  rewrite H in Ho. pose proof (atomic_step_settles marshal (UExpire p) _ _ _ _ _ eq_refl Ho) as (x & [_ Hx] & <- & Hs & ->).
  exists (evaluation.Snapshot x). cbn [settled] in Hs. apply bool_decide_eq_true in Hs.
  split_and!; [done..|]. exists k. split; [done|].
  remember (answer (UExpire p) x) as out' eqn:Hout.
  destruct Ho as [e _ _ _ Hm'|e e' records t [_ Hh] Hid _ Ha _ _ _ _]; [by left|right].
  apply (inj inl) in Hout. rewrite <- Hout, <- Hid.
  destruct (expire_facts p _ e e' Ha) as (limit & Hd & Hl & Hf). by exists (evaluation.Snapshot e), limit.
Qed.

Lemma update_uncontended u w m e e' :
  quiet w -> holds m e -> settled u e = false -> apply u (clock w 0) e = Ok e' ->
  evaluation.version e + 1 < u64_modulus ->
  (forall t, exists records, outbox.BuildOutboxRecords marshal (fun k => random w (1 + k)%nat)
     (UTC (clock w t)) e' = Ok records) ->
  exists records, perform marshal u w (evaluation.id_ e) m =
    (stored_with m e' records, Ok (answer u e')).
Proof.
  intros Hq Hh Hs Ha Hv Hb. pose proof Hh as [[Hi Hv0 _] _].
  pose proof (i_version e Hi) as Hr. unfold is_u64 in Hr.
  pose proof (apply_advances u _ e e' Hi Ha) as Had.
  assert (evaluation.version e' <> 0) as Hv'.
  { destruct (ad_next _ _ Had) as [->|[-> _]]; [done|]. unfold u64_succ, u64.
    rewrite Z.mod_small; lia. }
  assert (forall t, exists records,
    save marshal w 1 t e' (evaluation.version e) m = (stored_with m e' records, Ok tt)) as Hsave.
  { intros t. destruct (Hb t) as [records Ht]. exists records. by apply save_quiet. }
  destruct u as [|o|b|result|svc| |p]; cbn [settled apply] in Hs, Ha;
    unfold perform, as_snapshot, Start, RecordOutcome, BindVerificationPolicy, Complete,
      BindEvidenceQualification, rules.Execute, ExpireTimedOut; rewrite abind_assoc; unfold abind at 1; rewrite find_quiet by done;
    cbn [evaluation.SnapState evaluation.Snapshot]; fold (evaluation.Snapshot e);
    rewrite ?Hs; unfold mutate, saveAndReturn, abind.
  - apply ran_ok in Ha as ->. destruct (Hsave 1%nat) as [records ->]. by exists records.
  - destruct (IsZero (evaluation.EvaluatedAt o)); apply ran_ok in Ha as ->;
      [destruct (Hsave 1%nat) as [records ->]|destruct (Hsave 0%nat) as [records ->]]; by exists records.
  - apply ran_ok in Ha as ->. destruct (Hsave 0%nat) as [records ->]. by exists records.
  - apply ran_ok in Ha as ->. destruct (Hsave 0%nat) as [records ->]. by exists records.
  - destruct (rules.requiredBindings _) as [[b p]|err]; [|done]. cbn [obind fst snd] in Ha.
    change (evaluation.SnapRuleOutcomes _) with (evaluation.ruleOutcomes e).
    destruct (evaluation.ruleOutcomes e != []); [done|].
    destruct (rules.runRules _ _ _ _ _ _) as [os|err]; [|done]. cbn [obind] in Ha.
    apply ran_ok in Ha as ->. destruct (Hsave 1%nat) as [records ->]. by exists records.
  - destruct (evaluation.DeriveResult e) as [[r codes]|]; [|done]. cbn [omap_err obind fst snd] in Ha.
    apply ran_ok in Ha as ->. destruct (Hsave 1%nat) as [records ->]. by exists records.
  - destruct (deadline p _) as [limit|]; [|done]. cbn [obind] in Ha.
    destruct (Before _ limit); [done|]. apply ran_ok in Ha as ->.
    destruct (Hsave 1%nat) as [records ->]. by exists records.
Qed.
(** An update that applies to the stored aggregate succeeds when nobody
    interferes, the version does not wrap around and the events can be encoded: it
    stores the updated snapshot with its outbox records and answers with it. *)
Theorem uncontended_update_succeeds u w m e e' :
  quiet w -> holds m e -> settled u e = false -> apply u (clock w 0) e = Ok e' ->
  evaluation.version e + 1 < u64_modulus ->
  (forall t, exists records, outbox.BuildOutboxRecords marshal (fun k => random w (1 + k)%nat)
     (UTC (clock w t)) e' = Ok records) ->
  exists records, perform marshal u w (evaluation.id_ e) m =
    (stored_with m e' records, Ok (answer u e')).
Proof. apply update_uncontended. Qed.
End properties.

(** ** Creation for a policy *)

Lemma normalizeRules_facts ids : forall seen,
  policy.normalizeRules seen ids = Ok ids -> Forall trimmed ids /\ NoDup ids /\ forall id, id ∈ ids -> id ∉ seen.
Proof.
  induction ids as [|id ids IH]; intros seen; cbn [policy.normalizeRules].
  { intros _. split_and!; [constructor..|by intros id Hid%elem_of_nil]. }
  destruct (TrimSpace id == "") eqn:H1; [done|]. destruct (bool_decide (_ ∈ seen)) eqn:H2; [done|].
  apply bool_decide_eq_false_1 in H1, H2. intros (l & Hl & Heq)%obind_ok. injection Heq as Ht ->.
  rewrite Ht in *. destruct (IH _ Hl) as (Hf & Hn & Hs). split_and!.
  - by constructor.
  - constructor; [|done]. intros Hid. apply (Hs id Hid). set_solver.
  - intros x [->|Hx]%elem_of_cons; [done|]. specialize (Hs x Hx). set_solver.
Qed.

Lemma normalized_rules s :
  policy.normalizeAndValidate s = Ok s ->
  policy.normalizeRules ∅ (policy.RequiredRuleIDs s) = Ok (policy.RequiredRuleIDs s).
Proof.
  unfold policy.normalizeAndValidate. cbn.
  destruct (TrimSpace (policy.PolicyID s) == ""); [done|].
  destruct (TrimSpace (policy.VersionName s) == ""); [done|].
  destruct (TrimSpace (policy.SchemaVersion s) == ""); [done|]. destruct (IsZero _); [done|].
  destruct (match policy.copyTime _ with Some _ => _ | None => _ end); [done|].
  destruct (policy.RequiredRuleIDs s == []); [done|]. intros (ids & Hids & H)%obind_ok.
  rewrite Hids. injection H as H. apply (f_equal policy.RequiredRuleIDs) in H. cbn in H. by rewrite H.
Qed.

(** Registering new rules appends them. *)
Lemma register_appends at_ rules : forall e e',
  afor (fun id => evaluation.RegisterRequiredRuleAt id at_) rules e = (e', Ok tt) ->
  Forall trimmed rules -> NoDup (evaluation.requiredRuleIDs e ++ rules) ->
  evaluation.requiredRuleIDs e' = evaluation.requiredRuleIDs e ++ rules /\
  evaluation.id_ e' = evaluation.id_ e /\ evaluation.sessionID e' = evaluation.sessionID e /\
  evaluation.state e' = evaluation.state e /\ evaluation.policyBinding e' = evaluation.policyBinding e.
Proof.
  induction rules as [|id rules IH]; intros e e' H Ht Hn; cbn [afor] in H.
  { injection H as <-. by rewrite app_nil_r. }
  apply Forall_cons in Ht as [[Hid Hne] Ht]. unfold abind in H.
  destruct (evaluation.RegisterRequiredRuleAt id at_ e) as [e1 [[]|err]] eqn:H1; [|done].
  assert (existsb (fun x => x == id) (evaluation.requiredRuleIDs e) = false) as Hx.
  { apply not_true_iff_false. intros (x & Hx & ->%bool_decide_eq_true)%existsb_exists.
    apply list_elem_of_In in Hx. apply NoDup_app in Hn as (_ & Hn & _). apply (Hn id Hx). left. }
  unfold evaluation.RegisterRequiredRuleAt in H1. rewrite Hid, Hx in H1.
  destruct (evaluation.IsTerminal _); [done|]. destruct (IsZero _ || _); [done|].
  rewrite bool_decide_eq_false_2 in H1 by done. injection H1 as <-.
  destruct (IH _ _ H Ht) as (H1 & H2 & H3 & H4 & H5); cbn in *.
  { by rewrite <- app_assoc. }
  by rewrite H1, <- app_assoc.
Qed.

Section creation.
Context (marshal : evaluation.DomainEvent -> option bytes).

(** An evaluation created for a policy requires exactly the rules of the policy
    version in force at its creation, in their order, and is bound to that version's
    identity and hash; it is stored in state CREATED under an identity that was
    free. *)
Theorem policy_evaluation_runs_the_policy resolve w session policyID m m' s :
  good_world w -> store_ok m ->
  (forall at_ v, resolve policyID at_ = Ok (Some v) ->
     policy.normalizeAndValidate (policy.versionSnapshot v) = Ok (policy.versionSnapshot v) /\
     Z.of_nat (length (policy.RequiredRuleIDs (policy.versionSnapshot v))) <= i64_max) ->
  CreateForPolicy marshal w session policyID (Some resolve) m = (m', Ok s) ->
  exists v, resolve policyID (UTC (clock w 0)) = Ok (Some v) /\
    let p := policy.VersionSnapshot v in
    evaluation.SnapRequiredRuleIDs s = policy.RequiredRuleIDs p /\
    (exists b, evaluation.SnapPolicyBinding s = Some b /\
       evaluation.PolicyID b = TrimSpace (policy.PolicyID p) /\
       evaluation.PolicyBindingVersion b = TrimSpace (policy.VersionName p) /\
       evaluation.Hash b = TrimSpace (policy.Hash p) /\
       evaluation.policyHashPattern (evaluation.Hash b) = true /\
       evaluation.BoundAt b = UTC (clock w 0)) /\
    evaluation.SnapState s = evaluation.StateCreated /\ evaluation.SnapSessionID s = session /\
    snapshots (observed w 0 m) !! evaluation.SnapEvaluationID s = None /\
    snapshots m' !! evaluation.SnapEvaluationID s = Some s.
Proof.
  intros Hw Hm Hv H. unfold CreateForPolicy in H.
  destruct (resolve policyID (UTC (clock w 0))) as [[v|]|err] eqn:Hr; [|done..].
  destruct (Hv _ _ Hr) as [Hnorm Hlen]. exists v. split; [done|].
  destruct (evaluation.NewEvaluation _ _ _) as [e|err] eqn:He; [|done]. unfold mutate in H.
  destruct (afor _ _ e) as [e1 [[]|err]] eqn:Ha; [|done].
  destruct (new_with_rules _ _ _ _ _ _ He Ha Hlen) as (Hi & Hp & Hver).
  destruct (evaluation.BindVerificationPolicy _ e1) as [e2 [[]|err]] eqn:Hb; [|done].
  destruct (advances_new (evaluation.CBindPolicy _) e1 e2 eq_refl Hb Hi Hp Hver) as (Hi2 & Hp2 & _).
  destruct (create_save marshal w m e2 Hw Hm Hi2 Hp2) as [_ Hs].
  destruct (Hs m' s H) as (-> & Hnone & Hsome).
  assert (evaluation.requiredRuleIDs e = [] /\ evaluation.sessionID e = session /\
    evaluation.state e = evaluation.StateCreated /\ evaluation.policyBinding e = None) as (E1 & E2 & E3 & E4).
  { unfold evaluation.NewEvaluation in He. go_cases. done. }
  assert (policy.normalizeRules ∅ (policy.RequiredRuleIDs (policy.versionSnapshot v)) =
    Ok (policy.RequiredRuleIDs (policy.versionSnapshot v))) as Hrules.
  { by apply normalized_rules. }
  destruct (normalizeRules_facts _ _ Hrules) as (Ht & Hnd & _).
  destruct (register_appends _ _ _ _ Ha Ht) as (F1 & F2 & F3 & F4 & F5); [by rewrite E1|].
  rewrite E1 in F1. rewrite E4 in F5. cbn [app] in F1.
  unfold evaluation.BindVerificationPolicy in Hb. rewrite F5 in Hb.
  destruct (evaluation.IsTerminal _); [done|]. destruct (_ != []); [done|].
  destruct (evaluation.normalizePolicyBinding _) as [b|] eqn:Hbind; [|done].
  destruct (Before _ _); [done|]. injection Hb as <-. cbn.
  split; [done|]. split; [|split_and!; [by rewrite F4|by rewrite F3|exact Hnone|exact Hsome]].
  exists b. split; [done|]. unfold evaluation.normalizePolicyBinding in Hbind. cbn in Hbind.
  destruct (_ || _) eqn:Hor in Hbind; [done|]. injection Hbind as <-. cbn.
  rewrite !orb_false_iff, negb_false_iff in Hor. by destruct Hor as ((? & ?) & ?).
Qed.
End creation.
