(* ===== verification/PdsExamples.v ===== *)
(** * Runs of the evaluation service

    Concrete clients, alone and interleaved, at which the properties of the
    service apply. *)

From Stdlib Require Import Ascii String.
From S2P Require Import Prelude GoTime GoString Uuid GoCrypto EvidenceStore Evaluation EvaluationLifecycle.
From S2P Require Import EvaluationLifecycle EvaluationRules EvaluationReach EvaluationPersistence.
From S2P Require Import Outbox Policy PolicyRegistry PolicyAdmission.
From S2P Require Import Pds PdsService PdsProperties.
Import pds.

(** A client that starts at second [t] and whose random reader yields bytes
    [c]. *)
Definition ex_world (t : Z) (c : ascii) (env : nat -> MemoryStore -> MemoryStore) : MemoryWorld :=
  MkWorld _ (fun n => utc_seconds (t + Z.of_nat n)) (fun n => replicate 16 c) env.

Definition ex_alone (t : Z) (c : ascii) : MemoryWorld := ex_world t c (fun _ m => m).

Lemma ex_alone_quiet t c : quiet (ex_alone t c).
Proof. done. Qed.

Lemma ex_alone_good t c : good_world (ex_alone t c).
Proof. apply quiet_good, ex_alone_quiet. Qed.

#[local] Hint Resolve ex_alone_quiet ex_alone_good empty_store_ok : core.

Abbreviation ex_serve := (serve outbox.ex_marshal ex_zone ex_range ex_groups).
Abbreviation ex_perform := (perform outbox.ex_marshal).

Definition ex_id : UUID := NewUUID (replicate 16 "a"%char).
Definition ex_session : UUID := ex_uuid "s".

Definition ex_create : Request := RCreate ex_session ["RULE-1"].

Lemma ex_create_ok : request_ok ex_create.
Proof. vm_compute. congruence. Qed.

Definition ex_store1 : MemoryStore := fst (ex_serve ex_create (ex_alone 100 "a") NewMemoryStore).

Lemma ex_store1_ok : store_ok ex_store1.
Proof. apply (ev_ok NewMemoryStore). apply serve_evolves; auto using ex_create_ok. Qed.

Definition ex_store2 : MemoryStore := fst (ex_perform UStart (ex_alone 110 "b") ex_id ex_store1).

Lemma ex_store2_ok : store_ok ex_store2.
Proof.
  unfold ex_store2. apply (ev_ok ex_store1).
  apply perform_evolves; [apply ex_alone_good|apply ex_store1_ok].
Qed.

(** Another client starts the evaluation between the read and the save of the
    first one. *)
Definition ex_contended : MemoryWorld :=
  ex_world 110 "b" (fun i m =>
    if (i =? 1)%nat then fst (ex_perform UStart (ex_alone 105 "c") ex_id m) else m).

Lemma ex_contended_good : good_world ex_contended.
Proof.
  intros i m Hm. cbn [interfere ex_contended ex_world]. destruct (i =? 1)%nat; [|by apply evolves_refl].
  by apply perform_evolves.
Qed.

(** What is stored of the example evaluation. *)
Definition ex_stored (m : MemoryStore) : option (evaluation.EvaluationState * Z) :=
  (fun s => (evaluation.SnapState s, evaluation.SnapVersion s)) <$> snapshots m !! ex_id.

Definition ex_clients : list (Request * MemoryWorld) :=
  [(ex_create, ex_alone 100 "a"); (RUpdate UStart ex_id, ex_contended);
   (RUpdate (URecord (evaluation.MkRuleOutcome "RULE-1" evaluation.RuleOutcomePass [] ZeroTime)) ex_id,
     ex_alone 120 "d");
   (RUpdate UComplete ex_id, ex_alone 130 "e")].

Definition ex_final : MemoryStore :=
  fold_left (fun m rw => fst (ex_serve rw.1 rw.2 m)) ex_clients NewMemoryStore.

Lemma service_keeps_store_witness :
  ex_stored ex_final = Some (evaluation.StateCompleted, 5) /\
  log ex_id (outboxRecords ex_final) = [1; 2; 3; 4; 5] /\
  evolves NewMemoryStore ex_final.
Proof.
  split_and!; [vm_compute; reflexivity|vm_compute; reflexivity|].
  apply (service_keeps_store outbox.ex_marshal ex_zone ex_range ex_groups ex_clients NewMemoryStore empty_store_ok).
  repeat apply Forall_cons_2; [..|by apply Forall_nil_2]; split; cbn [fst snd];
    first [exact ex_create_ok|exact I|apply ex_contended_good|apply ex_alone_good].
Defined.

(** The first client reads version 2, loses the race, and answers with what the
    other client stored. *)
Lemma updates_are_linearizable_witness :
  ex_stored (fst (ex_perform UStart ex_contended ex_id ex_store1)) = Some (evaluation.StateRunning, 3) /\
  exists k, (k <= 2)%nat /\
  match ex_perform UStart ex_contended ex_id ex_store1 with
  | (m', Ok out) => atomic_step outbox.ex_marshal UStart ex_contended ex_id
      (observed ex_contended k ex_store1) m' out
  | (m', Err _) => m' = observed ex_contended k ex_store1
  end.
Proof.
  split; [vm_compute; reflexivity|].
  exact (updates_are_linearizable outbox.ex_marshal UStart ex_contended ex_id ex_store1
           ex_contended_good ex_store1_ok).
Defined.

Definition ex_ok (r : outcome Error Result) : Result :=
  match r with
  | Ok out => out
  | Err _ => inl (evaluation.Snapshot ex_empty)
  end.

Definition ex_started : Result := ex_ok (snd (ex_perform UStart ex_contended ex_id ex_store1)).

Lemma retry_returns_the_original_witness :
  ex_perform UStart (ex_alone 200 "z") ex_id (fst (ex_perform UStart ex_contended ex_id ex_store1)) =
  (fst (ex_perform UStart ex_contended ex_id ex_store1), Ok ex_started).
Proof.
  apply (retry_returns_the_original outbox.ex_marshal UStart ex_contended (ex_alone 200 "z") ex_id
           ex_store1 _ _ ex_contended_good ex_store1_ok eq_refl (ex_alone_quiet _ _)).
  vm_compute. reflexivity.
Defined.

Definition ex_timeouts : TimeoutPolicy := MkTimeoutPolicy (60 * Second) (30 * Second).

Definition ex_expired : MemoryStore * outcome Error Result :=
  ex_perform (UExpire ex_timeouts) (ex_alone 140 "x") ex_id ex_store2.

Lemma expiry_needs_the_deadline_witness :
  snd (ex_perform (UExpire ex_timeouts) (ex_alone 139 "x") ex_id ex_store2) = Err ErrEvaluationNotTimedOut /\
  exists s, snapshots (fst ex_expired) !! ex_id = Some s /\
    evaluation.SnapState s = evaluation.StateExpired.
Proof.
  split; [vm_compute; reflexivity|].
  destruct (expiry_needs_the_deadline outbox.ex_marshal ex_timeouts (ex_alone 140 "x") ex_id ex_store2
    (fst ex_expired) (ex_ok (snd ex_expired)) (ex_alone_good _ _) ex_store2_ok) as (s & _ & Hs & Hst & _).
  - vm_compute. reflexivity.
  - exact (ex_intro _ s (conj Hs Hst)).
Defined.

(** The aggregate that the created evaluation reads back as. *)
Definition ex_loaded : evaluation.EvaluationAggregate :=
  match MemoryFind ex_id ex_store1 with
  | Ok (Some e) => e
  | _ => ex_empty
  end.

Lemma ex_loaded_holds : holds ex_store1 ex_loaded.
Proof.
  destruct (MemoryFind_spec ex_id ex_store1 ex_store1_ok) as [[Hn _]|(e & Hh & _ & He)].
  - vm_compute in Hn. discriminate Hn.
  - unfold ex_loaded. rewrite He. exact Hh.
Qed.

Definition ex_running_loaded : evaluation.EvaluationAggregate :=
  fst (evaluation.Start (utc_seconds 110) ex_loaded).

Lemma uncontended_update_succeeds_witness :
  evaluation.version ex_loaded = 2 /\
  exists records, ex_perform UStart (ex_alone 110 "b") (evaluation.id_ ex_loaded) ex_store1 =
    (stored_with ex_store1 ex_running_loaded records, Ok (answer UStart ex_running_loaded)).
Proof.
  split; [vm_compute; reflexivity|].
  apply (uncontended_update_succeeds outbox.ex_marshal UStart (ex_alone 110 "b") ex_store1 ex_loaded
           ex_running_loaded (ex_alone_quiet _ _) ex_loaded_holds); try (vm_compute; reflexivity).
  intros t. eexists. cbv [outbox.BuildOutboxRecords].
  assert (evaluation.domainEvents ex_running_loaded =
    [evaluation.EvaluationStartedEvent ex_id ex_session (utc_seconds 110) 3]) as -> by (vm_compute; reflexivity).
  cbn [outbox.buildRecords obind]. unfold outbox.NewOutboxRecord.
  replace (IsZero _) with false; [vm_compute; reflexivity|].
  symmetry. apply Z.eqb_neq. cbn. unfold Second. lia.
Defined.

(** The resolver that always answers the example policy version. *)
Definition ex_resolver : PolicyResolver := fun _ _ => Ok (Some ex_v1).

Abbreviation ex_for_policy :=
  (CreateForPolicy outbox.ex_marshal (ex_alone 150 "p") ex_session "RELEASE" (Some ex_resolver) NewMemoryStore).

Definition ex_policy_snapshot : evaluation.EvaluationSnapshot :=
  match snd ex_for_policy with
  | Ok s => s
  | Err _ => evaluation.Snapshot ex_empty
  end.

Lemma policy_evaluation_runs_the_policy_witness :
  snd ex_for_policy = Ok ex_policy_snapshot /\
  exists v, ex_resolver "RELEASE" (utc_seconds 150) = Ok (Some v) /\
    evaluation.SnapRequiredRuleIDs ex_policy_snapshot = policy.RequiredRuleIDs (policy.VersionSnapshot v).
Proof.
  assert (ex_for_policy = (fst ex_for_policy, Ok ex_policy_snapshot)) as H by (vm_compute; reflexivity).
  split; [exact (f_equal snd H)|].
  destruct (policy_evaluation_runs_the_policy outbox.ex_marshal ex_resolver (ex_alone 150 "p") ex_session
    "RELEASE" NewMemoryStore (fst ex_for_policy) ex_policy_snapshot (ex_alone_good _ _) empty_store_ok)
    as (v & Hv & Hr & _); [| exact H|].
  - intros at_ v [= <-]. split; [vm_compute; reflexivity|]. vm_compute. congruence.
  - exact (ex_intro _ v (conj Hv Hr)).
Defined.
