(* ===== verification/PdsExecution.v ===== *)
(** * Rule execution and evidence qualification of the evaluation service

    What a batch of rule outcomes stands for: the decisions of the operators of
    the bound policy on the bound evidence. *)

From Stdlib Require Import Ascii String.
From S2P Require Import Prelude GoTime GoString Uuid GoCrypto Evidence EvidenceObjects EvidenceSets EvidenceStore.
From S2P Require Import Evaluation EvaluationLifecycle EvaluationRules EvaluationReach.
From S2P Require Import EvaluationPersistence Outbox Policy PolicyRegistry.
From S2P Require Import Pds PdsRules PdsService PdsProperties.
Import pds.

(** ** What runs *)

(** An object of the bound evidence: qualified, read under its own identity,
    of the session, and intact. *)
Definition bound_object (svc : rules.RuleExecutionService) (sessionID : UUID)
    (reference : evaluation.EvidenceReference) (s : evidence.Snapshot) : Prop :=
  evaluation.RefStatus reference = evaluation.EvidenceQualified /\
  rules.reader svc (evaluation.EvidenceID reference) = Ok s /\
  evidence.EvidenceID s = evaluation.EvidenceID reference /\ evidence.SessionID s = sessionID /\
  verified s.

(** The decision of the operator of a rule. *)
Definition decided (svc : rules.RuleExecutionService) (policy : evaluation.PolicyBinding)
    (input : rules.RuleInput) (ruleID : string) (d : rules.RuleDecision) : Prop :=
  exists operator,
    rules.resolver svc (rules.ruleReference policy ruleID) = Ok (Some operator) /\
    TrimSpace (rules.RuleID operator) = ruleID /\ rules.Evaluate operator input = Some d.

Definition decision_outcome (now : Time) (ruleID : string) (d : rules.RuleDecision) : evaluation.RuleOutcome :=
  evaluation.MkRuleOutcome ruleID (rules.Status d) (rules.ReasonCodes d) now.

Lemma omap_err_ok {E F A} (f : E -> F) (r : outcome E A) a : omap_err f r = Ok a <-> r = Ok a.
Proof. destruct r; split; by intros [= ->]. Qed.

Lemma readEvidence_spec svc sessionID refs : forall l,
  rules.readEvidence (rules.reader svc) sessionID refs = Ok l <->
  Forall2 (bound_object svc sessionID) refs l.
Proof.
  induction refs as [|ref refs IH]; intros l; cbn [rules.readEvidence].
  { split; [by intros [= <-]|by intros ->%Forall2_nil_inv_l]. }
  split.
  - case_bool_decide as Hq; [|done]. cbn [negb]. intros (s & Hs%omap_err_ok & H)%obind_ok.
    case_bool_decide as Hid; [|done]. case_bool_decide as Hsession; [|done]. cbn [negb orb] in H.
    apply obind_ok in H as (o & Ho%omap_err_ok & H). apply obind_ok in H as (l' & Hl & [= <-]).
    apply rehydrated in Ho as [Hv <-]. rewrite ObjectSnapshot_eq.
    apply Forall2_cons. split; [done|]. by apply IH.
  - intros (s & l' & (Hq & Hr & Hid & Hs & Hv) & Hl & ->)%Forall2_cons_inv_l.
    rewrite bool_decide_eq_true_2 by done. cbn [negb]. rewrite Hr. cbn [omap_err obind].
    rewrite !bool_decide_eq_true_2 by done. cbn [negb orb].
    rewrite (proj2 (rehydrated s (evidence.MkObject s)) (conj Hv eq_refl)). cbn [omap_err obind].
    apply IH in Hl as ->. cbn [obind]. by rewrite ObjectSnapshot_eq.
Qed.

Lemma copyEvidenceSnapshots_verified l : Forall verified l -> rules.copyEvidenceSnapshots l = Ok l.
Proof.
  induction 1 as [|s l Hs _ IH]; [done|]. cbn [rules.copyEvidenceSnapshots].
  rewrite (proj2 (rehydrated s (evidence.MkObject s)) (conj Hs eq_refl)). cbn [omap_err obind].
  rewrite IH. cbn [obind]. by rewrite ObjectSnapshot_eq.
Qed.

(** An operator that the resolver gives for a rule. *)
Definition resolves (svc : rules.RuleExecutionService) (policy : evaluation.PolicyBinding)
    (ruleID : string) (operator : rules.RuleOperator) : Prop :=
  rules.resolver svc (rules.ruleReference policy ruleID) = Ok (Some operator) /\
  TrimSpace (rules.RuleID operator) = ruleID.

Lemma resolveOperators_spec svc policy ids : forall m m',
  rules.resolveOperators (rules.resolver svc) policy ids m = Ok m' ->
  map_Forall (resolves svc policy) m -> map_Forall (resolves svc policy) m'.
Proof.
  induction ids as [|id ids IH]; intros m m'; cbn [rules.resolveOperators]; [by intros [= <-]|].
  intros (op & Hop & H)%obind_ok Hm. destruct op as [op|]; [|done].
  case_bool_decide as Hid; [|done]. eapply IH; [exact H|]. by apply map_Forall_insert_2.
Qed.

Lemma resolveOperators_total svc policy ids : forall m,
  Forall (fun id => exists operator, resolves svc policy id operator) ids ->
  exists m', rules.resolveOperators (rules.resolver svc) policy ids m = Ok m' /\
    forall id, is_Some (m !! id) \/ id ∈ ids -> is_Some (m' !! id).
Proof.
  induction ids as [|id ids IH]; intros m H; cbn [rules.resolveOperators].
  { exists m. split; [done|]. by intros id [Hm|Hid%elem_of_nil]. }
  apply Forall_cons in H as [(op & Hop & Hid) H]. rewrite Hop. cbn [obind].
  rewrite bool_decide_eq_true_2 by done. destruct (IH (<[id:=op]> m) H) as (m' & Hm' & Hin).
  exists m'. split; [exact Hm'|]. intros x [Hx|[->|Hx]%elem_of_cons]; apply Hin; [|left|by right].
  - left. destruct (decide (x = id)) as [->|Hne]; [by rewrite lookup_insert_eq|by rewrite lookup_insert_ne].
  - by rewrite lookup_insert_eq.
Qed.

Lemma evaluateRules_ok svc operators id session policy l now ids : forall os,
  map_Forall (resolves svc policy) operators -> Forall verified l ->
  rules.evaluateRules operators id session policy l now ids = Ok os ->
  exists ds, Forall2 (decided svc policy (rules.ruleInput id session policy l)) ids ds /\
    os = zip_with (decision_outcome now) ids ds.
Proof.
  intros os Hm Hl. revert os. induction ids as [|r ids IH]; intros os; cbn [rules.evaluateRules].
  { intros [= <-]. by exists []. }
  rewrite copyEvidenceSnapshots_verified by done. cbn [obind].
  destruct (operators !! r) as [op|] eqn:Hop; [|done]. destruct (Hm _ _ Hop) as [Hres Hid].
  destruct (rules.Evaluate op _) as [d|] eqn:Hd; [|done].
  intros (os' & Hos & [= <-])%obind_ok. destruct (IH _ Hos) as (ds & Hds & ->).
  exists (d :: ds). split; [|done]. apply Forall2_cons. split; [by exists op|done].
Qed.

Lemma evaluateRules_total svc operators id session policy l now ids ds :
  map_Forall (resolves svc policy) operators -> Forall verified l ->
  (forall r, r ∈ ids -> is_Some (operators !! r)) ->
  Forall2 (decided svc policy (rules.ruleInput id session policy l)) ids ds ->
  rules.evaluateRules operators id session policy l now ids = Ok (zip_with (decision_outcome now) ids ds).
Proof.
  intros Hm Hl Hin Hds. induction Hds as [|r d ids ds (op & Hop & _ & Hd) _ IH]; [done|].
  cbn [rules.evaluateRules zip_with]. rewrite copyEvidenceSnapshots_verified by done. cbn [obind].
  destruct (Hin r) as [op' Hop']; [left|]. rewrite Hop'. destruct (Hm _ _ Hop') as [Hr _].
  rewrite Hop in Hr. injection Hr as <-. rewrite Hd, IH; [done|]. intros x Hx. apply Hin. by right.
Qed.

Lemma bound_objects_verified svc sessionID refs l :
  Forall2 (bound_object svc sessionID) refs l -> Forall verified l.
Proof. induction 1 as [|ref s refs l Hs _ IH]; constructor; [apply Hs|done]. Qed.

Lemma runRules_decisions svc id s binding policy now os :
  rules.runRules svc id s binding policy now = Ok os <->
  exists l ds, Forall2 (bound_object svc (evaluation.SnapSessionID s)) (evaluation.Evidence binding) l /\
    Forall2 (decided svc policy (rules.ruleInput id (evaluation.SnapSessionID s) policy l))
      (evaluation.SnapRequiredRuleIDs s) ds /\
    os = zip_with (decision_outcome now) (evaluation.SnapRequiredRuleIDs s) ds.
Proof.
  unfold rules.runRules. split.
  - intros (ops & Hops & H)%obind_ok. apply obind_ok in H as (l & Hl & H).
    apply readEvidence_spec in Hl. exists l.
    apply (evaluateRules_ok svc) in H as (ds & Hds & ->); [by exists ds| |by eapply bound_objects_verified].
    eapply resolveOperators_spec; [exact Hops|apply map_Forall_empty].
  - intros (l & ds & Hl & Hds & ->).
    destruct (resolveOperators_total svc policy (evaluation.SnapRequiredRuleIDs s) ∅) as (ops & Hops & Hin).
    { apply Forall_forall. intros r [i Hr]%list_elem_of_lookup_1.
      destruct (Forall2_lookup_l _ _ _ _ _ Hds Hr) as (d & _ & op & Hop & Hid & _). by exists op. }
    rewrite Hops. cbn [obind]. rewrite (proj2 (readEvidence_spec _ _ _ _) Hl). cbn [obind].
    eapply evaluateRules_total; [|by eapply bound_objects_verified| |done].
    + eapply resolveOperators_spec; [exact Hops|apply map_Forall_empty].
    + intros r Hr. apply Hin. by right.
Qed.

(** ** What is recorded *)

Lemma alreadyRecorded_fresh e o : evaluation.ruleOutcomes e = [] -> evaluation.alreadyRecorded o e = false.
Proof.
  intros He. unfold evaluation.alreadyRecorded.
  destruct (evaluation.RuleOutcomeByID _ e) as [x|] eqn:Hx; [|done].
  apply RuleOutcomeByID_some in Hx as [Hx _]. rewrite He in Hx. by apply elem_of_nil in Hx.
Qed.

(** A batch recorded on an evaluation without outcomes. *)
Lemma RecordRuleOutcomeBatch_fresh os at_ e e' :
  evaluation.ruleOutcomes e = [] -> evaluation.RecordRuleOutcomeBatch os at_ e = (e', Ok tt) ->
  evaluation.Snapshot e' = evaluation.Snapshot (e <| evaluation.ruleOutcomes := evaluation.ruleOutcomes e' |>
                                                 <| evaluation.version := evaluation.version e' |>) /\
  evaluation.state e = evaluation.StateRunning /\
  StronglySorted evaluation.outcome_le (evaluation.ruleOutcomes e') /\
  (forall x, x ∈ os -> exists o, o ∈ evaluation.ruleOutcomes e' /\ evaluation.normalizeRuleOutcome x = Ok o) /\
  forall o, o ∈ evaluation.ruleOutcomes e' -> exists x, x ∈ os /\ evaluation.normalizeRuleOutcome x = Ok o.
Proof.
  intros He H. unfold evaluation.RecordRuleOutcomeBatch in H.
  destruct (evaluation.state e != _) eqn:Hst; [done|]. apply neq_running_false in Hst.
  destruct (os == []) eqn:Hos.
  { apply bool_decide_eq_true in Hos as ->. injection H as <-.
    rewrite He. split_and!; [destruct e; cbn in He; by subst|done|constructor|..].
    - by intros x Hx%elem_of_nil.
    - by intros o Ho%elem_of_nil. }
  destruct (IsZero at_); [done|]. destruct (evaluation.beforeStart _ e); [done|].
  destruct (evaluation.validateRuleOutcomeBatch os e) as [out|err] eqn:Hout; [|done].
  rewrite filter_all in H by (apply Forall_forall; intros o _; by apply alreadyRecorded_fresh).
  assert (evaluation.ruleOutcomes e' = out /\
    evaluation.Snapshot e' = evaluation.Snapshot (e <| evaluation.ruleOutcomes := out |>
                                                    <| evaluation.version := evaluation.version e' |>)) as [Hr Hs].
  { destruct (out == []) eqn:Hn; injection H as <-; [apply bool_decide_eq_true in Hn as ->|];
      (split; [cbn; by rewrite He|]); [destruct e; cbn in He; by subst|cbn; by rewrite He]. }
  rewrite Hr, Hs. split_and!; [done|done|by eapply validateRuleOutcomeBatch_sorted|..].
  - intros x Hx. destruct (validateRuleOutcomeBatch_total _ _ _ x Hout Hx) as [o Ho].
    exists o. split; [|done]. apply (validateRuleOutcomeBatch_elem _ _ _ o Hout). by exists x.
  - intros o. by apply (validateRuleOutcomeBatch_elem os e).
Qed.

#[global] Instance EvaluationSnapshot_eta : Eta evaluation.EvaluationSnapshot := fun s =>
  evaluation.MkEvaluationSnapshot (evaluation.SnapEvaluationID s) (evaluation.SnapSessionID s)
    (evaluation.SnapState s) (evaluation.SnapResult s) (evaluation.SnapReasonCodes s)
    (evaluation.SnapCreatedAt s) (evaluation.SnapStartedAt s) (evaluation.SnapCompletedAt s)
    (evaluation.SnapCancelledAt s) (evaluation.SnapExpiredAt s) (evaluation.SnapCancellationReason s)
    (evaluation.SnapVersion s) (evaluation.SnapRequiredRuleIDs s) (evaluation.SnapRuleOutcomes s)
    (evaluation.SnapCheckpoints s) (evaluation.SnapHistory s) (evaluation.SnapEvidenceBinding s)
    (evaluation.SnapPolicyBinding s).

(** The outcomes of [s] are the decisions on the bound evidence of [s0], which
    had none. *)
Record executed (svc : rules.RuleExecutionService) (now : Time)
    (s0 s : evaluation.EvaluationSnapshot) : Prop := {
  ex_fresh : evaluation.SnapRuleOutcomes s0 = [];
  ex_running : evaluation.SnapState s0 = evaluation.StateRunning;
  ex_only : s = s0 <| evaluation.SnapRuleOutcomes := evaluation.SnapRuleOutcomes s |>
                   <| evaluation.SnapVersion := evaluation.SnapVersion s |>;
  ex_decisions : exists binding policy l ds,
    rules.requiredBindings s0 = Ok (binding, policy) /\
    Forall2 (bound_object svc (evaluation.SnapSessionID s0)) (evaluation.Evidence binding) l /\
    Forall2 (decided svc policy (rules.ruleInput (evaluation.SnapEvaluationID s0)
      (evaluation.SnapSessionID s0) policy l)) (evaluation.SnapRequiredRuleIDs s0) ds /\
    StronglySorted evaluation.outcome_le (evaluation.SnapRuleOutcomes s) /\
    (forall ruleID d, (ruleID, d) ∈ zip (evaluation.SnapRequiredRuleIDs s0) ds ->
      exists o, o ∈ evaluation.SnapRuleOutcomes s /\
        evaluation.normalizeRuleOutcome (decision_outcome now ruleID d) = Ok o) /\
    forall o, o ∈ evaluation.SnapRuleOutcomes s ->
      exists ruleID d, (ruleID, d) ∈ zip (evaluation.SnapRequiredRuleIDs s0) ds /\
        evaluation.normalizeRuleOutcome (decision_outcome now ruleID d) = Ok o
}.

Lemma execute_facts svc now e e' :
  apply (UExecute svc) now e = Ok e' ->
  executed svc (UTC now) (evaluation.Snapshot e) (evaluation.Snapshot e').
Proof.
  cbn [apply]. intros ([binding policy] & Hb & H)%obind_ok.
  destruct (evaluation.ruleOutcomes e != []) eqn:Ho; [done|].
  apply negb_false_iff, bool_decide_eq_true in Ho.
  apply obind_ok in H as (os & Hr & H). apply ran_ok in H.
  apply runRules_decisions in Hr as (l & ds & Hl & Hds & ->).
  apply RecordRuleOutcomeBatch_fresh in H as (Hs & Hst & Hsort & Hall & Hin); [|done].
  split; [exact Ho|exact Hst|rewrite Hs; by destruct e|].
  exists binding, policy, l, ds. split_and!; [done..| |].
  - intros r d (i & r' & d' & [= <- <-] & Hr & Hd)%elem_of_lookup_zip_with.
    apply Hall, elem_of_lookup_zip_with. by exists i, r, d.
  - intros o (x & (i & r & d & -> & Hr & Hd)%elem_of_lookup_zip_with & Hx)%Hin. exists r, d. split; [|done].
    apply elem_of_lookup_zip_with. by exists i, r, d.
Qed.

(** An execution gives every required rule an outcome of its own. *)
Lemma executed_complete svc now e e' :
  inv e -> apply (UExecute svc) now e = Ok e' ->
  forall id, id ∈ evaluation.requiredRuleIDs e' -> exists o, o ∈ evaluation.ruleOutcomes e' /\ evaluation.RuleID o = id.
Proof.
  intros Hi [_ _ Honly (b & p & l & ds & _ & _ & Hds & _ & Hall & _)]%execute_facts id Hid.
  apply (f_equal evaluation.SnapRequiredRuleIDs) in Honly. cbn in Honly, Hds, Hall. rewrite Honly in Hid.
  apply list_elem_of_lookup_1 in Hid as [i Hid]. destruct (Forall2_lookup_l _ _ _ _ _ Hds Hid) as (d & Hd & _).
  destruct (Hall id d) as (o & Ho & Hn); [apply elem_of_lookup_zip_with; by exists i, id, d|].
  exists o. split; [done|]. apply normalizeRuleOutcome_ok in Hn as (codes & _ & _ & _ & _ & _ & ->). cbn.
  pose proof (i_required e Hi) as Ht. rewrite Forall_forall in Ht. apply Ht. by eapply list_elem_of_lookup_2.
Qed.

Lemma missing_none e :
  (forall id, id ∈ evaluation.requiredRuleIDs e ->
     exists o, o ∈ evaluation.ruleOutcomes e /\ evaluation.RuleID o = id) ->
  evaluation.MissingRequiredRuleIDs e = [].
Proof.
  intros H. unfold evaluation.MissingRequiredRuleIDs. apply elem_of_nil_inv.
  intros id [Hn Hid]%list_elem_of_filter. destruct (H id Hid) as (o & Ho & <-). apply Hn, elem_of_list_to_set.
  apply list_elem_of_fmap. by exists o.
Qed.

(** ** Reading rules from the bound policy *)

(** A rule operator comes from the exact version that is asked for. *)
Record compiled (reader : rules.VersionReader) (compiler : rules.PolicyRuleCompiler)
    (reference : rules.PolicyRuleReference) (operator : rules.RuleOperator) : Prop := {
  co_fields : TrimSpace (rules.PolicyID reference) <> "" /\ TrimSpace (rules.PolicyVersion reference) <> "" /\
    TrimSpace (rules.PolicyHash reference) <> "" /\ TrimSpace (rules.ReferenceRuleID reference) <> "";
  co_version : exists v,
    reader (TrimSpace (rules.PolicyID reference)) (TrimSpace (rules.PolicyVersion reference))
      (TrimSpace (rules.PolicyHash reference)) = Ok (Some v) /\
    policy.PolicyID (policy.VersionSnapshot v) = TrimSpace (rules.PolicyID reference) /\
    policy.VersionName (policy.VersionSnapshot v) = TrimSpace (rules.PolicyVersion reference) /\
    policy.Hash (policy.VersionSnapshot v) = TrimSpace (rules.PolicyHash reference) /\
    compiler v (TrimSpace (rules.ReferenceRuleID reference)) = Ok (Some operator);
  co_rule : TrimSpace (rules.RuleID operator) = TrimSpace (rules.ReferenceRuleID reference)
}.

Lemma identifies_true v policyID version hash :
  rules.identifies v policyID version hash = true <->
  policy.PolicyID (policy.VersionSnapshot v) = policyID /\
  policy.VersionName (policy.VersionSnapshot v) = version /\ policy.Hash (policy.VersionSnapshot v) = hash.
Proof.
  unfold rules.identifies. rewrite !andb_true_iff, !bool_decide_eq_true. tauto.
Qed.

Lemma document_resolver_iff reader compiler reference operator :
  rules.ResolveRuleOperator (Some reader) (Some compiler) reference = Ok (Some operator) <->
  compiled reader compiler reference operator.
Proof.
  unfold rules.ResolveRuleOperator. split.
  - destruct (_ || _) eqn:Hb; [done|]. rewrite !orb_false_iff, !bool_decide_eq_false in Hb.
    intros (found & Hf%omap_err_ok & H)%obind_ok. destruct found as [v|]; [|done].
    destruct (rules.identifies _ _ _ _) eqn:Hv; [|done]. apply identifies_true in Hv as (H1 & H2 & H3).
    apply obind_ok in H as (op & Hop%omap_err_ok & H). destruct op as [op|]; [|done].
    case_bool_decide as Hid; [|done]. injection H as <-.
    split; [tauto| |done]. by exists v.
  - intros [(F1 & F2 & F3 & F4) (v & Hr & H1 & H2 & H3 & Hc) Hid].
    rewrite !bool_decide_eq_false_2 by done. cbn [orb]. rewrite Hr. cbn [omap_err obind].
    rewrite (proj2 (identifies_true v _ _ _)) by done. cbn [negb]. rewrite Hc. cbn [omap_err obind].
    by rewrite bool_decide_eq_true_2.
Qed.

(** The rules of a document resolver come from the exact policy version that
    is referred to: it yields an operator exactly when the reader has a version of
    that identity, name and hash from which the compiler compiles that rule under
    that rule's identity. *)
Theorem document_rules_are_of_the_version reader compiler reference operator :
  rules.ResolveRuleOperator (Some reader) (Some compiler) reference = Ok (Some operator) <->
  compiled reader compiler reference operator.
Proof. apply document_resolver_iff. Qed.

Section properties.
Context (marshal : evaluation.DomainEvent -> option bytes).

(** C36: a rule execution that succeeds is justified: it returns what is stored, an
    evaluation whose required rules all have outcomes; either another execution had
    recorded them, or the outcomes recorded are exactly the decisions of the
    resolved operators, one per required rule, on the bound evidence, which was
    qualified, read under its own identity, of the session, and intact, and nothing
    else of the evaluation changed but its version. *)
Theorem execution_is_justified svc w id m m' out :
  good_world w -> store_ok m -> perform marshal (UExecute svc) w id m = (m', Ok out) ->
  exists s, out = inl s /\ snapshots m' !! id = Some s /\
    (forall r, r ∈ evaluation.SnapRequiredRuleIDs s ->
       exists o, o ∈ evaluation.SnapRuleOutcomes s /\ evaluation.RuleID o = r) /\
    exists k, (k <= 2)%nat /\
    ((m' = observed w k m /\ evaluation.SnapRuleOutcomes s <> []) \/
     exists s0, snapshots (observed w k m) !! id = Some s0 /\ executed svc (UTC (clock w 0)) s0 s).
Proof.
  intros Hw Hm H. pose proof (perform_outcome marshal (UExecute svc) w id m Hw Hm) as (k & Hk & Ho).
  rewrite H in Ho. remember (UExecute svc) as u eqn:Hu.
  destruct Ho as [e [_ Hh] Hid Hset Hm'|e e' records t [Hl Hh] Hid Hset Ha _ _ Hm' _]; subst u.
  - exists (evaluation.Snapshot e). rewrite Hm', <- Hid. cbn [settled] in Hset.
    apply andb_prop in Hset as [Hset Hmiss]. apply andb_prop in Hset as [_ Hne].
    split_and!; [done|exact Hh|exact (missing_nil e Hmiss)|].
    exists k. split; [done|left]. split; [done|]. by apply negb_true_iff, bool_decide_eq_false in Hne.
  - exists (evaluation.Snapshot e'). pose proof (ld_inv _ Hl) as Hi.
    assert (evaluation.id_ e' = evaluation.id_ e) as Hid'
      by apply (f_id _ _ (st_frame _ _ (ad_step _ _ (apply_advances _ _ e e' Hi Ha)))).
    split_and!; [done| |by eapply executed_complete|].
    + rewrite Hm', <- Hid, <- Hid'. cbn. by rewrite lookup_insert_eq.
    + exists k. split; [done|right]. exists (evaluation.Snapshot e). rewrite <- Hid. split; [done|].
      by apply execute_facts.
Qed.

(** Rules are decided once: after an execution that recorded outcomes, no later
    one, by whatever operators, decides anything again: it returns the recorded
    snapshot and leaves the store as it is. *)
Theorem executed_once svc svc' w w' id m m' s :
  good_world w -> store_ok m -> quiet w' ->
  perform marshal (UExecute svc) w id m = (m', Ok (inl s)) -> evaluation.SnapRuleOutcomes s <> [] ->
  perform marshal (UExecute svc') w' id m' = (m', Ok (inl s)).
Proof.
  intros Hw Hm Hq H Hne. pose proof (perform_outcome marshal (UExecute svc) w id m Hw Hm) as (k & Hk & Ho).
  rewrite H in Ho. remember (inl s) as out eqn:Hout. remember (UExecute svc) as u eqn:Hu.
  destruct Ho as [e Hh Hid Hset Hm'|e e' records t [Hl Hh] Hid Hset Ha _ Hl' Hm' _]; subst u;
    injection Hout as <-; rewrite <- Hid.
  - rewrite Hm'. by apply (perform_settled marshal (UExecute svc')).
  - pose proof (ld_inv _ Hl) as Hi.
    assert (evaluation.id_ e' = evaluation.id_ e) as Hid'
      by apply (f_id _ _ (st_frame _ _ (ad_step _ _ (apply_advances _ _ e e' Hi Ha)))).
    rewrite <- Hid'. apply (perform_settled marshal (UExecute svc') w' m' (evaluation.ClearDomainEvents e') Hq).
    + split; [done|]. rewrite Hm'. cbn. by rewrite lookup_insert_eq.
    + pose proof (executed_complete svc _ _ _ Hi Ha) as Hc. apply execute_facts in Ha as [_ _ Honly Hd].
      destruct Hd as (b & p & l & ds & Hb & _). cbn [settled].
      assert (rules.requiredBindings (evaluation.Snapshot (evaluation.ClearDomainEvents e')) = Ok (b, p)) as ->.
      { change (rules.requiredBindings (evaluation.Snapshot e') = Ok (b, p)). by rewrite Honly. }
      cbn [is_ok andb]. rewrite bool_decide_eq_false_2 by exact Hne. cbn [negb andb].
      apply bool_decide_eq_true_2. by apply missing_none.
Qed.
End properties.

(** ** Qualification under the bound policy *)

Section qualification.
Context (marshal : evaluation.DomainEvent -> option bytes).
Context {R : Type} {repo : evidence.Repository R}.
Context (range : evidence.Range) (groupRange : evidence.Groups -> list (list evidence.observation)).

(** What other clients, and nobody else, make of a store. *)
Definition interfered (w : MemoryWorld) : relation MemoryStore := rtc (fun m m' => exists i, m' = interfere w i m).

Lemma interfered_evolves w m m' : good_world w -> interfered w m m' -> store_ok m -> evolves m m'.
Proof.
  intros Hw. induction 1 as [m|m m1 m' [i ->] _ IH]; intros Hm; [by apply evolves_refl|].
  pose proof (Hw i m Hm) as He. eapply evolves_trans; [exact He|]. apply IH, He.
Qed.

Lemma interfered_one w i m m' : interfered w m m' -> interfered w m (interfere w i m').
Proof. intros H. eapply rtc_r; [exact H|]. by exists i. Qed.

Lemma observed_interfered n w k m m' : interfered w m m' -> interfered w m (observed (rules.later n w) k m').
Proof. intros H. induction k as [|k IH]; cbn; by apply interfered_one. Qed.

(** The evidence of the session qualifies as [result] under the version that
    the policy binding names. *)
Definition qualified_under (svc : rules.PolicyEvidenceQualificationService (R := R)) (sessionID : UUID)
    (policy : evaluation.PolicyBinding) (evaluatedAt : Time)
    (result : evidence.SessionQualificationResult) : Prop :=
  exists reader compiler repository v qualificationPolicy qualifier,
    rules.versionReader svc = Some reader /\ rules.qualificationCompiler svc = Some compiler /\
    rules.evidenceRepository svc = Some repository /\
    reader (evaluation.PolicyID policy) (evaluation.PolicyBindingVersion policy) (evaluation.Hash policy) =
      Ok (Some v) /\
    policy.PolicyID (policy.VersionSnapshot v) = evaluation.PolicyID policy /\
    policy.VersionName (policy.VersionSnapshot v) = evaluation.PolicyBindingVersion policy /\
    policy.Hash (policy.VersionSnapshot v) = evaluation.Hash policy /\
    compiler v = Ok qualificationPolicy /\ evidence.NewQualifier range qualificationPolicy = Ok qualifier /\
    evidence.QualifySession groupRange sessionID (Some qualifier) evaluatedAt repository = Ok result.

Lemma qualifySession_ok svc reader compiler repository s evaluatedAt result :
  rules.versionReader svc = Some reader -> rules.qualificationCompiler svc = Some compiler ->
  rules.evidenceRepository svc = Some repository ->
  rules.qualifySession range groupRange reader compiler s repository evaluatedAt = Ok result ->
  exists policy, evaluation.SnapPolicyBinding s = Some policy /\
    qualified_under svc (evaluation.SnapSessionID s) policy evaluatedAt result.
Proof.
  intros Hr Hc Hrepo. unfold rules.qualifySession.
  destruct (evaluation.SnapPolicyBinding s) as [p|]; [|done].
  intros (found & Hf%omap_err_ok & H)%obind_ok. destruct found as [v|]; [|done].
  destruct (rules.identifies _ _ _ _) eqn:Hv; [|done]. apply identifies_true in Hv as (H1 & H2 & H3).
  apply obind_ok in H as (qp & Hqp%omap_err_ok & H). apply obind_ok in H as (q & Hq%omap_err_ok & H).
  apply omap_err_ok in H. exists p. split; [done|]. by exists reader, compiler, repository, v, qp, q.
Qed.

(** A binding that is recorded: it was there, or it is the normalized one. *)
Lemma BindEvidenceSet_ok b e e' :
  evaluation.BindEvidenceSet b e = (e', Ok tt) ->
  e' = e /\ is_Some (evaluation.evidenceBinding e) \/
  evaluation.evidenceBinding e = None /\
  exists n, evaluation.normalizeEvidenceBinding b = Ok n /\ evaluation.evidenceBinding e' = Some n.
Proof.
  unfold evaluation.BindEvidenceSet. destruct (evaluation.IsTerminal _); [done|].
  destruct (_ != []); [done|]. destruct (evaluation.normalizeEvidenceBinding b) as [n|]; [|done].
  destruct (_ != _); [done|]. destruct (evaluation.evidenceBinding e).
  - destruct (evaluation.evidenceBindingsEqual _ _); [|done]. intros [= <-]. left. by eexists.
  - intros [= <-]. right. split; [done|]. by exists n.
Qed.

Lemma Snapshot_holds w i id m m' s :
  store_ok (interfere w i m) -> Snapshot w i id m = (m', Ok s) ->
  m' = interfere w i m /\ exists e, holds m' e /\ evaluation.id_ e = id /\ s = evaluation.Snapshot e.
Proof.
  intros Hm. unfold Snapshot, abind. destruct (find w i id m) as [m0 [e|err]] eqn:Hf; [|done].
  intros [= <- <-]. apply find_spec in Hf as [-> He]; [|done]. destruct (He e eq_refl) as [Hh Hid].
  split; [done|]. by exists e.
Qed.

(** What a later store has of an evaluation extends what was stored. *)
Lemma evolves_extends m m' id s s' :
  evolves m m' -> snapshots m !! id = Some s -> snapshots m' !! id = Some s' -> extends s s'.
Proof.
  intros Hev Hs Hs'. destruct (ev_snapshots _ _ Hev _ _ Hs) as (s1 & Hs1 & Hx).
  rewrite Hs' in Hs1. injection Hs1 as <-. by apply succeeds_extends.
Qed.

Lemma bound_by_step result w id m m' s :
  atomic_step marshal (UBindEvidence result) w id m m' (inl s) ->
  snapshots m' !! id = Some s /\
  exists s0 binding, snapshots m !! id = Some s0 /\ extends s0 s /\
    evaluation.SnapEvidenceBinding s = Some binding /\
    (evaluation.SnapEvidenceBinding s0 = Some binding \/
     evaluation.SnapEvidenceBinding s0 = None /\
     evaluation.normalizeEvidenceBinding (qualificationBinding result) = Ok binding).
Proof.
  intros Ho. remember (inl s) as out eqn:Hout. remember (UBindEvidence result) as u eqn:Hu.
  destruct Ho as [e _ _ Hset _|e e' records t [Hl Hh] Hid _ Ha _ Hl' Hm' _]; subst u; [done|].
  injection Hout as <-. pose proof (ld_inv _ Hl) as Hi. pose proof (apply_advances _ _ e e' Hi Ha) as Had.
  assert (evaluation.id_ e' = evaluation.id_ e) as Hid' by apply (f_id _ _ (st_frame _ _ (ad_step _ _ Had))).
  split; [rewrite Hm', <- Hid, <- Hid'; cbn; by rewrite lookup_insert_eq|].
  apply ran_ok, BindEvidenceSet_ok in Ha. exists (evaluation.Snapshot e). rewrite <- Hid.
  pose proof (advances_succeeds e e' Hi Had (ld_version _ Hl')) as He%succeeds_extends.
  destruct Ha as [[-> [b Hb]]|(Hn & b & Hb & He')]; exists b; split_and!; try done; [by left|by right].
Qed.

(** C38: a qualification that succeeds returns what is stored, with its evidence
    bound: by another client, before, or as the result of qualifying the session
    under the exact policy version the evaluation is bound to. *)
Theorem qualification_is_of_the_bound_policy svc evaluatedAt w id m m' s :
  good_world w -> store_ok m ->
  rules.QualifyAndBind marshal range groupRange svc evaluatedAt w id m = (m', Ok s) ->
  snapshots m' !! id = Some s /\
  exists binding m0 s0, evaluation.SnapEvidenceBinding s = Some binding /\
    interfered w m m0 /\ snapshots m0 !! id = Some s0 /\
    (evaluation.SnapEvidenceBinding s0 = Some binding \/
     evaluation.SnapEvidenceBinding s0 = None /\
     exists policy result, evaluation.SnapPolicyBinding s = Some policy /\
       qualified_under svc (evaluation.SnapSessionID s) policy evaluatedAt result /\
       evaluation.normalizeEvidenceBinding (qualificationBinding result) = Ok binding).
Proof.
  intros Hw Hm. unfold rules.QualifyAndBind. destruct (negb _); [done|].
  destruct (rules.evidenceRepository svc) as [repository|] eqn:Hrepo; [|done].
  destruct (rules.versionReader svc) as [reader|] eqn:Hreader; [|done].
  destruct (rules.qualificationCompiler svc) as [compiler|] eqn:Hcompiler; [|done].
  unfold rules.qualifyAndBind, abind. destruct (Snapshot w 0 id m) as [m0 [s0|err]] eqn:H0; [|done].
  pose proof (Hw 0%nat m Hm) as Hm0.
  apply Snapshot_holds in H0 as [-> (e0 & [Hl0 Hs0] & Hid0 & ->)]; [|apply Hm0].
  assert (interfered w m (interfere w 0 m)) as Hi0 by (apply interfered_one, rtc_refl).
  destruct (evaluation.SnapEvidenceBinding (evaluation.Snapshot e0)) as [b0|] eqn:Hb0.
  { intros [= <- <-]. rewrite <- Hid0. split; [done|]. exists b0, (interfere w 0 m), (evaluation.Snapshot e0). auto. }
  destruct (rules.qualifySession _ _ _ _ _ _ _) as [result|err] eqn:Hq; [|done].
  apply (qualifySession_ok svc) in Hq as (p & Hp & Hqualified); [|done..].
  assert (good_world (rules.later 1 w)) as Hw1 by by apply good_later.
  destruct (BindEvidenceQualification _ _ _ _ _) as [m1 r] eqn:Hbind.
  pose proof (perform_outcome marshal (UBindEvidence result) (rules.later 1 w) id _ Hw1 (ev_ok _ _ Hm0)) as (k & _ & Ho).
  cbn [perform] in Ho. unfold as_snapshot, abind in Ho. rewrite Hbind in Ho.
  pose proof (observed_interfered 1 w k m _ Hi0) as Hik. set (mk := observed _ k _) in *.
  pose proof (interfered_evolves w m mk Hw Hik Hm) as Hmk.
  pose proof (observed_evolves _ k _ Hw1 (ev_ok _ _ Hm0) : evolves (interfere w 0 m) mk) as Hm01.
  destruct r as [bound|err].
  - intros [= <- <-]. apply bound_by_step in Ho as (Hs & s1 & b & Hs1 & He & Hb & Hcase). split; [done|].
    exists b, mk, s1. split_and!; [done..|]. destruct Hcase as [Hc|[Hn Hc]]; [by left|right].
    split; [done|]. exists p, result. rewrite <- Hid0 in Hs1.
    pose proof (extends_trans _ _ _ (evolves_extends _ _ _ _ _ Hm01 Hs0 Hs1) He) as Hex.
    split_and!; [by apply (ex_policy _ _ Hex)|by rewrite (ex_session _ _ Hex)|done].
  - destruct (rules.lostRace err); [|done]. rewrite Ho.
    destruct (Snapshot w 3 id mk) as [m3 [latest|]] eqn:H3; [|done].
    apply Snapshot_holds in H3 as [-> (e3 & [_ Hs3] & Hid3 & ->)]; [|by apply Hw, Hmk].
    destruct (evaluation.SnapEvidenceBinding (evaluation.Snapshot e3)) as [b3|] eqn:Hb3; [|done].
    intros [= <- <-]. rewrite <- Hid3. split; [done|].
    exists b3, (interfere w 3 mk), (evaluation.Snapshot e3). split_and!; [done| |done|by left].
    by apply interfered_one.
Qed.
End qualification.
