(* ===== verification/RuleOperators.v ===== *)
(** * Rule operators ([ruleoperator/])

    The operators that decide a rule on the evidence of an evaluation:
    existence ([existence.go]), range and tolerance ([numeric.go]), match
    ([match.go]) and sequence ([sequence.go]), with the selectors they share
    ([selector.go]). *)

From Stdlib Require Import Ascii String QArith.
From S2P Require Import Prelude GoTime GoString Uuid GoJson GoParse Evidence Evaluation PdsRules.
Open Scope Z_scope.

Module ruleoperator.

Inductive Error :=
  | ErrRuleIDRequired
  | ErrEvidenceTypeRequired
  | ErrInvalidJSONPointer
  | ErrInvalidExpectedValue
  | ErrInvalidNumericValue
  | ErrInvalidRange
  | ErrInvalidTolerance
  | ErrMinimumCountRequired
  | ErrSequenceStepsRequired
  | ErrInvalidSequenceWindow
  | ErrUnsupportedPolicySchema
  | ErrInvalidPolicyDocument
  | ErrPolicyRuleNotFound
  | ErrDuplicatePolicyRule
  | ErrUnsupportedOperator
  | ErrRuleOutsideQualificationScope.

#[global] Instance Error_eq_dec : EqDecision Error.
Proof. solve_decision. Defined.

Abbreviation ReasonCode := evaluation.ReasonCode.
Definition reasonEvidenceNotFound : ReasonCode := "EVIDENCE_NOT_FOUND".
Definition reasonEvidenceAmbiguous : ReasonCode := "EVIDENCE_AMBIGUOUS".
Definition reasonFieldNotFound : ReasonCode := "FIELD_NOT_FOUND".
Definition reasonInvalidValue : ReasonCode := "INVALID_VALUE".
Definition reasonMatchMismatch : ReasonCode := "MATCH_MISMATCH".
Definition reasonOutsideRange : ReasonCode := "VALUE_OUT_OF_RANGE".
Definition reasonOutsideTolerance : ReasonCode := "VALUE_OUTSIDE_TOLERANCE".
Definition reasonEvidenceCountBelowMinimum : ReasonCode := "EVIDENCE_COUNT_BELOW_MINIMUM".
Definition reasonSequenceIncomplete : ReasonCode := "SEQUENCE_INCOMPLETE".
Definition reasonSequenceOrderInvalid : ReasonCode := "SEQUENCE_ORDER_INVALID".
Definition reasonSequenceValueMismatch : ReasonCode := "SEQUENCE_VALUE_MISMATCH".
Definition reasonSequenceGapExceeded : ReasonCode := "SEQUENCE_GAP_EXCEEDED".
Definition reasonSequenceDurationExceeded : ReasonCode := "SEQUENCE_DURATION_EXCEEDED".

Definition inconclusive (reason : ReasonCode) : rules.RuleDecision :=
  rules.MkRuleDecision evaluation.RuleOutcomeInconclusive [reason].
Definition fail (reason : ReasonCode) : rules.RuleDecision :=
  rules.MkRuleDecision evaluation.RuleOutcomeFail [reason].
Definition pass : rules.RuleDecision := rules.MkRuleDecision evaluation.RuleOutcomePass [].

(** ** Selectors *)

Record Selector := MkSelector {
  EvidenceType : evidence.Type_;
  SourceID : string;
  JSONPointer : string
}.

#[global] Instance Selector_eq_dec : EqDecision Selector.
Proof. solve_decision. Defined.

(** Every [~] of a token is followed by [0] or [1]. *)
Fixpoint escapesValid (token : bytes) : bool :=
  match token with
  | [] => true
  | c :: token =>
      if byte_is 126 c then
        match token with
        | d :: token => (byte_is 48 d || byte_is 49 d) && escapesValid token
        | [] => false
        end
      else escapesValid token
  end.

Definition pointerTokens (pointer : string) : list bytes := split_byte 47 (trim_prefix 47 (bytes_of pointer)).

Definition hasSlash (pointer : string) : bool :=
  match bytes_of pointer with
  | c :: _ => byte_is 47 c
  | [] => false
  end.

Definition normalizeSelector (s : Selector) : outcome Error Selector :=
  let s := MkSelector (EvidenceType s) (TrimSpace (SourceID s)) (TrimSpace (JSONPointer s)) in
  if TrimSpace (EvidenceType s) == "" then Err ErrEvidenceTypeRequired else
  if (JSONPointer s != "") && negb (hasSlash (JSONPointer s)) then Err ErrInvalidJSONPointer else
  if negb (forallb escapesValid (pointerTokens (JSONPointer s))) then Err ErrInvalidJSONPointer else
  Ok s.

Definition normalizeRuleID (ruleID : string) : outcome Error string :=
  let ruleID := TrimSpace ruleID in
  if ruleID == "" then Err ErrRuleIDRequired else Ok ruleID.

(** The test of [selectorMatches], which the code writes out three times. *)
Definition selectorMatches (s : evidence.Snapshot) (selector : Selector) : bool :=
  (evidence.EvidenceType s == EvidenceType selector) &&
  ((SourceID selector == "") || (evidence.SourceID s == SourceID selector)).

Definition decodeJSON (raw : bytes) : option json.Json := json.decodeOne raw.

(** [~1] stands for a slash and [~0] for a tilde. *)
Definition unescapeToken (encoded : bytes) : bytes :=
  replace_pair 126 48 126 (replace_pair 126 49 47 encoded).

Definition child (value : json.Json) (token : bytes) : option json.Json :=
  match value with
  | json.JObject members => snd <$> List.find (fun '(k, _) => k == token) members
  | json.JArray elements =>
      match Atoi token with
      | None => None
      | Some i => if (i <? 0) || (Z.of_nat (length elements) <=? i) then None else elements !! Z.to_nat i
      end
  | _ => None
  end.

(** The descent along the tokens of a pointer. *)
Fixpoint descend (value : json.Json) (tokens : list bytes) : option json.Json :=
  match tokens with
  | [] => Some value
  | encoded :: tokens =>
      match child value (unescapeToken encoded) with
      | None => None
      | Some value => descend value tokens
      end
  end.

(** A value, or the reason why there is none. *)
Definition valueAtSnapshot (s : evidence.Snapshot) (pointer : string) : outcome ReasonCode json.Json :=
  match decodeJSON (evidence.Payload s) with
  | None => Err reasonInvalidValue
  | Some value =>
      if pointer == "" then Ok value else
      match descend value (pointerTokens pointer) with
      | None => Err reasonFieldNotFound
      | Some value => Ok value
      end
  end.

(** The selected value, or the decision when it is unavailable. *)
Definition selectValue (input : rules.RuleInput) (selector : Selector) : outcome rules.RuleDecision json.Json :=
  match List.filter (fun s => selectorMatches s selector) (rules.Evidence input) with
  | [] => Err (inconclusive reasonEvidenceNotFound)
  | [s] => omap_err inconclusive (valueAtSnapshot s (JSONPointer selector))
  | _ => Err (inconclusive reasonEvidenceAmbiguous)
  end.

(** An operator that never reports an error. *)
Definition operator (ruleID : string) (Evaluate : rules.RuleInput -> rules.RuleDecision) : rules.RuleOperator :=
  rules.MkRuleOperator ruleID (fun input => Some (Evaluate input)).

(** ** Existence *)

Record ExistenceOperator := MkExistence {
  existenceRuleID : string;
  evidenceType : evidence.Type_;
  sourceID : string;
  minimumCount : Z
}.

Definition NewExistenceOperator (ruleID : string) (evidenceType : evidence.Type_) (sourceID : string)
    (minimumCount : Z) : outcome Error ExistenceOperator :=
  let! ruleID := normalizeRuleID ruleID in
  let! selector := normalizeSelector (MkSelector evidenceType sourceID "") in
  if minimumCount =? 0 then Err ErrMinimumCountRequired else
  Ok (MkExistence ruleID (EvidenceType selector) (SourceID selector) minimumCount).

Definition existenceSelector (o : ExistenceOperator) : Selector := MkSelector (evidenceType o) (sourceID o) "".

Definition ExistenceEvaluate (o : ExistenceOperator) (input : rules.RuleInput) : rules.RuleDecision :=
  let count := fold_left (fun count s => if selectorMatches s (existenceSelector o) then u32_succ count else count)
                 (rules.Evidence input) 0 in
  if count <? minimumCount o then fail reasonEvidenceCountBelowMinimum else pass.

(** ** Range and tolerance *)

Definition decimal (value : string) : outcome Error Rat :=
  match decodeJSON (bytes_of (TrimSpace value)) with
  | Some (json.JNumber literal) =>
      match SetString literal with
      | Some r => Ok r
      | None => Err ErrInvalidNumericValue
      end
  | _ => Err ErrInvalidNumericValue
  end.

Definition numericValue (value : json.Json) : outcome Error Rat :=
  match value with
  | json.JNumber literal => decimal (string_of literal)
  | _ => Err ErrInvalidNumericValue
  end.

Record RangeOperator := MkRange {
  rangeRuleID : string;
  rangeSelector : Selector;
  minimum : Rat;
  maximum : Rat
}.

Definition NewRangeOperator (ruleID : string) (selector : Selector) (minimum maximum : string)
    : outcome Error RangeOperator :=
  let! ruleID := normalizeRuleID ruleID in
  let! selector := normalizeSelector selector in
  let! min := decimal minimum in
  let! max := decimal maximum in
  if bool_decide (Cmp min max = Gt) then Err ErrInvalidRange else
  Ok (MkRange ruleID selector min max).

Definition RangeEvaluate (o : RangeOperator) (input : rules.RuleInput) : rules.RuleDecision :=
  match selectValue input (rangeSelector o) with
  | Err unavailable => unavailable
  | Ok value =>
      match numericValue value with
      | Err _ => inconclusive reasonInvalidValue
      | Ok actual =>
          if bool_decide (Cmp actual (minimum o) = Lt) || bool_decide (Cmp actual (maximum o) = Gt)
          then fail reasonOutsideRange else pass
      end
  end.

Record ToleranceOperator := MkTolerance {
  toleranceRuleID : string;
  toleranceSelector : Selector;
  expectedValue : Rat;
  tolerance : Rat
}.

Definition NewToleranceOperator (ruleID : string) (selector : Selector) (expected tolerance : string)
    : outcome Error ToleranceOperator :=
  let! ruleID := normalizeRuleID ruleID in
  let! selector := normalizeSelector selector in
  let! target := decimal expected in
  let! delta := decimal tolerance in
  if Sign delta <? 0 then Err ErrInvalidTolerance else
  Ok (MkTolerance ruleID selector target delta).

Definition ToleranceEvaluate (o : ToleranceOperator) (input : rules.RuleInput) : rules.RuleDecision :=
  match selectValue input (toleranceSelector o) with
  | Err unavailable => unavailable
  | Ok value =>
      match numericValue value with
      | Err _ => inconclusive reasonInvalidValue
      | Ok actual =>
          let difference := (actual - expectedValue o)%Q in
          let difference := if Sign difference <? 0 then (- difference)%Q else difference in
          if bool_decide (Cmp difference (tolerance o) = Gt) then fail reasonOutsideTolerance else pass
      end
  end.

(** ** Match *)

Record MatchOperator := MkMatch {
  matchRuleID : string;
  matchSelector : Selector;
  expected : bytes
}.

(** A value that was decoded always encodes. *)
Definition NewMatchOperator (ruleID : string) (selector : Selector) (expected : bytes)
    : outcome Error MatchOperator :=
  let! ruleID := normalizeRuleID ruleID in
  let! selector := normalizeSelector selector in
  match decodeJSON expected with
  | None => Err ErrInvalidExpectedValue
  | Some value => Ok (MkMatch ruleID selector (json.Marshal value))
  end.

Definition MatchEvaluate (o : MatchOperator) (input : rules.RuleInput) : rules.RuleDecision :=
  match selectValue input (matchSelector o) with
  | Err unavailable => unavailable
  | Ok value => if json.Marshal value != expected o then fail reasonMatchMismatch else pass
  end.

(** ** Sequence *)

Record SequenceStep := MkSequenceStep {
  StepSelector : Selector;
  StepExpected : bytes
}.

Record SequenceOperator := MkSequence {
  sequenceRuleID : string;
  steps : list SequenceStep;
  maxGap : Duration;
  maxDuration : Duration
}.

(** The loop over the steps: their selectors normalized and their values
    canonical. *)
Fixpoint normalizeSteps (l : list SequenceStep) : outcome Error (list SequenceStep) :=
  match l with
  | [] => Ok []
  | step :: l =>
      let! selector := normalizeSelector (StepSelector step) in
      match decodeJSON (StepExpected step) with
      | None => Err ErrInvalidExpectedValue
      | Some value =>
          let! normalized := normalizeSteps l in
          Ok (MkSequenceStep selector (json.Marshal value) :: normalized)
      end
  end.

Definition NewSequenceOperator (ruleID : string) (steps : list SequenceStep) (maxGap maxDuration : Duration)
    : outcome Error SequenceOperator :=
  let! ruleID := normalizeRuleID ruleID in
  if (length steps <? 2)%nat then Err ErrSequenceStepsRequired else
  if (maxGap <? 0) || (maxDuration <? 0) then Err ErrInvalidSequenceWindow else
  let! normalized := normalizeSteps steps in
  Ok (MkSequence ruleID normalized maxGap maxDuration).

(** [sort.SliceStable] by the instant of observation, then the text of the
    identity: the order in which a repository lists evidence. *)
Definition orderEvidence (l : list evidence.Snapshot) : list evidence.Snapshot :=
  stable_sort evidence.snapshotLe l.

(** [None] for -1. *)
Definition nextMatchingEvidence (ordered : list evidence.Snapshot) (selector : Selector) (start : nat)
    : option nat :=
  (fun found => (start + fst found)%nat) <$>
    list_find (fun s => selectorMatches s selector = true) (drop start ordered).

(** What the loop remembers after its first step: the index and the time of the
    previous step, and the time of the first one. *)
Record progress := MkProgress {
  previousIndex : nat;
  firstAt : Time;
  previousAt : Time
}.

Definition startFrom (p : option progress) : nat :=
  match p with
  | None => 0
  | Some p => S (previousIndex p)
  end.

Fixpoint sequenceLoop (o : SequenceOperator) (ordered : list evidence.Snapshot) (p : option progress)
    (l : list SequenceStep) : rules.RuleDecision :=
  match l with
  | [] => pass
  | step :: l =>
      match nextMatchingEvidence ordered (StepSelector step) (startFrom p) with
      | None =>
          match nextMatchingEvidence ordered (StepSelector step) 0 with
          | Some _ => fail reasonSequenceOrderInvalid
          | None => inconclusive reasonSequenceIncomplete
          end
      | Some index =>
          match ordered !! index with
          | None => inconclusive reasonSequenceIncomplete
          | Some s =>
              match valueAtSnapshot s (JSONPointer (StepSelector step)) with
              | Err reason => inconclusive reason
              | Ok value =>
                  if json.Marshal value != StepExpected step then fail reasonSequenceValueMismatch else
                  let observedAt := UTC (evidence.ObservedAt s) in
                  if match p with
                     | None => false
                     | Some p => (0 <? maxGap o) && (maxGap o <? Sub observedAt (previousAt p))
                     end
                  then fail reasonSequenceGapExceeded else
                  let first := match p with None => observedAt | Some p => firstAt p end in
                  if (0 <? maxDuration o) && (maxDuration o <? Sub observedAt first)
                  then fail reasonSequenceDurationExceeded else
                  sequenceLoop o ordered (Some (MkProgress index first observedAt)) l
              end
          end
      end
  end.

Definition SequenceEvaluate (o : SequenceOperator) (input : rules.RuleInput) : rules.RuleDecision :=
  sequenceLoop o (orderEvidence (rules.Evidence input)) None (steps o).

End ruleoperator.
