(* ===== verification/RuleDecisions.v ===== *)
(** * What the rule operators decide

    Selectors follow JSON pointers; a match is equality of JSON values, a range
    and a tolerance are inequalities of rationals; no decision depends on the
    order of the evidence, and no operator passes without evidence. *)

From Stdlib Require Import Ascii String QArith Qabs.
From S2P Require Import Prelude GoTime GoString Uuid GoJson GoJsonText GoParse.
From S2P Require Import Evidence EvidenceObjects EvidenceSets EvidenceStore Evaluation EvaluationLifecycle.
From S2P Require Import Pds PdsRules PdsService PdsExecution RuleOperators.
Import ruleoperator.
Open Scope Z_scope.

(** ** JSON pointers *)

(** The token of a key. *)
Definition escapeToken (key : bytes) : bytes :=
  flat_map (fun c => if byte_is 126 c then [ascii_of_N 126; ascii_of_N 48]
                     else if byte_is 47 c then [ascii_of_N 126; ascii_of_N 49] else [c]) key.

(** The pointer of a path of keys. *)
Definition pointerOf (path : list bytes) : string :=
  string_of (flat_map (fun key => ascii_of_N 47 :: escapeToken key) path).

(** The value at a path of keys. *)
Fixpoint valueAt (value : json.Json) (path : list bytes) : option json.Json :=
  match path with
  | [] => Some value
  | key :: path =>
      match child value key with
      | None => None
      | Some value => valueAt value path
      end
  end.

Lemma byte_is_true n c : byte_is n c = true -> c = ascii_of_N n.
Proof. unfold byte_is. intros H%N.eqb_eq. by rewrite <- H, ascii_N_embedding. Qed.

Lemma split_byte_app n a b :
  forallb (fun c => negb (byte_is n c)) a = true -> (n < 256)%N ->
  split_byte n (a ++ ascii_of_N n :: b) = a :: split_byte n b.
Proof.
  intros Ha Hn. induction a as [|c a IH]; cbn [app split_byte].
  - unfold byte_is. by rewrite N_ascii_embedding, N.eqb_refl.
  - cbn [forallb] in Ha. apply andb_prop in Ha as [Hc%negb_true_iff Ha]. rewrite Hc, IH; done.
Qed.

Lemma split_byte_none n a : forallb (fun c => negb (byte_is n c)) a = true -> split_byte n a = [a].
Proof.
  induction a as [|c a IH]; cbn [split_byte forallb]; [done|].
  intros [Hc%negb_true_iff Ha]%andb_prop. by rewrite Hc, IH.
Qed.

Lemma escapeToken_no_slash key : forallb (fun c => negb (byte_is 47 c)) (escapeToken key) = true.
Proof.
  induction key as [|c key IH]; [done|]. cbn [escapeToken flat_map]. rewrite forallb_app.
  apply andb_true_intro. split; [|exact IH].
  destruct (byte_is 126 c) eqn:H1; [done|]. destruct (byte_is 47 c) eqn:H2; [done|]. cbn. by rewrite H2.
Qed.

Lemma escapesValid_escapeToken key : escapesValid (escapeToken key) = true.
Proof.
  induction key as [|c key IH]; [done|]. unfold escapeToken. cbn [flat_map]. fold (escapeToken key).
  destruct (byte_is 126 c) eqn:H1; [exact IH|]. destruct (byte_is 47 c) eqn:H2; [exact IH|].
  cbn [app escapesValid]. by rewrite H1.
Qed.

(** The tildes that [~1] leaves behind when it is replaced first. *)
Definition tildesOnly (key : bytes) : bytes :=
  flat_map (fun c => if byte_is 126 c then [ascii_of_N 126; ascii_of_N 48] else [c]) key.

Lemma replace_slashes key : replace_pair 126 49 47 (escapeToken key) = tildesOnly key.
Proof.
  induction key as [|c key IH]; [done|]. unfold escapeToken, tildesOnly. cbn [flat_map].
  fold (escapeToken key) (tildesOnly key).
  destruct (byte_is 126 c) eqn:H1.
  - cbn [app]. rewrite <- IH. remember (escapeToken key) as t. cbn [replace_pair].
    change (byte_is 126 (ascii_of_N 126) && byte_is 49 (ascii_of_N 48)) with false.
    destruct t as [|d t]; [done|]. change (byte_is 126 (ascii_of_N 48)) with false. done.
  - destruct (byte_is 47 c) eqn:H2.
    + apply byte_is_true in H2 as ->. cbn [app]. rewrite <- IH. done.
    + cbn [app]. rewrite <- IH. cbn [replace_pair]. rewrite H1. by destruct (escapeToken key).
Qed.

Lemma replace_tildes key : replace_pair 126 48 126 (tildesOnly key) = key.
Proof.
  induction key as [|c key IH]; [done|]. unfold tildesOnly. cbn [flat_map]. fold (tildesOnly key).
  destruct (byte_is 126 c) eqn:H1.
  - apply byte_is_true in H1 as ->. cbn [app]. rewrite <- IH at 2. done.
  - cbn [app replace_pair]. rewrite H1. rewrite <- IH at 2. by destruct (tildesOnly key).
Qed.

Lemma unescape_escape key : unescapeToken (escapeToken key) = key.
Proof. unfold unescapeToken. by rewrite replace_slashes, replace_tildes. Qed.

Lemma pointer_tokens key path : pointerTokens (pointerOf (key :: path)) = escapeToken <$> key :: path.
Proof.
  unfold pointerTokens, pointerOf. rewrite bytes_of_string_of. cbn [flat_map app trim_prefix].
  change (byte_is 47 (ascii_of_N 47)) with true. cbn [app]. revert key.
  induction path as [|key' path IH]; intros key; cbn [flat_map].
  - rewrite app_nil_r. by rewrite split_byte_none by apply escapeToken_no_slash.
  - cbn [app]. rewrite split_byte_app by (apply escapeToken_no_slash || done). by rewrite IH.
Qed.

Lemma descend_path value path : descend value (escapeToken <$> path) = valueAt value path.
Proof.
  revert value. induction path as [|key path IH]; intros value; [done|].
  cbn [fmap list_fmap descend valueAt]. rewrite unescape_escape. by destruct (child value key).
Qed.

Lemma pointerOf_empty path : pointerOf path = "" <-> path = [].
Proof. destruct path as [|key path]; [done|]. by unfold pointerOf, string_of. Qed.

(** Every field of a payload can be selected: the pointer written for a path
    of keys, with the tildes and slashes of the keys escaped, is accepted and
    selects exactly the value at that path, if there is one. *)
Theorem pointer_selects_path ty source path s :
  TrimSpace ty <> "" -> TrimSpace (pointerOf path) = pointerOf path ->
  is_Some (decodeJSON (evidence.Payload s)) ->
  normalizeSelector (MkSelector ty source (pointerOf path)) =
    Ok (MkSelector ty (TrimSpace source) (pointerOf path)) /\
  exists payload, decodeJSON (evidence.Payload s) = Some payload /\
    valueAtSnapshot s (pointerOf path) =
      match valueAt payload path with
      | Some value => Ok value
      | None => Err reasonFieldNotFound
      end.
Proof.
  intros Hty Htrim [payload Hp]. split.
  - unfold normalizeSelector. cbn [EvidenceType SourceID JSONPointer]. rewrite Htrim.
    rewrite bool_decide_eq_false_2 by done. destruct path as [|key path]; [done|].
    rewrite pointer_tokens. replace (hasSlash (pointerOf (key :: path))) with true
      by (unfold hasSlash, pointerOf; by rewrite bytes_of_string_of).
    cbn [negb]. rewrite andb_false_r. replace (forallb _ _) with true; [done|].
    symmetry. apply forallb_forall. intros t [k [-> _]]%list_elem_of_In%list_elem_of_fmap.
    apply escapesValid_escapeToken.
  - exists payload. split; [done|]. unfold valueAtSnapshot. rewrite Hp.
    destruct path as [|key path]; [done|].
    rewrite bool_decide_eq_false_2 by (by rewrite pointerOf_empty).
    rewrite pointer_tokens, descend_path. by destruct (valueAt payload (key :: path)).
Qed.

(** ** Values inside values *)

Lemma json_nested_ind (P : json.Json -> Prop) :
  P json.JNull -> (forall b, P (json.JBool b)) -> (forall n, P (json.JNumber n)) ->
  (forall s, P (json.JString s)) -> (forall l, Forall P l -> P (json.JArray l)) ->
  (forall m, Forall P (map snd m) -> P (json.JObject m)) -> forall v, P v.
Proof.
  intros H1 H2 H3 H4 H5 H6. fix IH 1. intros [|b|n|s|l|m]; [done..| |].
  - apply H5. induction l as [|v l IHl]; constructor; [apply IH|exact IHl].
  - apply H6. induction m as [|[k v] m IHm]; constructor; [apply IH|exact IHm].
Qed.

Lemma wf_array_inv d l : wf d (json.JArray l) -> (0 < d)%N /\ forall v, v ∈ l -> wf (d - 1) v.
Proof. inversion 1 as [| | | |d' l' Hd Hl|]; subst. split; [done|]. by apply Forall_forall. Qed.

Lemma wf_object_inv d m : wf d (json.JObject m) -> (0 < d)%N /\ forall v, v ∈ map snd m -> wf (d - 1) v.
Proof. inversion 1 as [| | | | |d' m' Hd _ _ Hm]; subst. split; [done|]. by apply Forall_forall. Qed.

Lemma wf_mono v : forall d d', (d <= d')%N -> wf d v -> wf d' v.
Proof.
  induction v as [|b|n|s|l Hl|m Hm] using json_nested_ind; intros d d' Hd H.
  - constructor.
  - constructor.
  - inversion H; subst. by constructor.
  - inversion H; subst. by constructor.
  - apply wf_array_inv in H as [H0 H]. constructor; [lia|]. apply Forall_forall. intros x Hx.
    rewrite Forall_forall in Hl. apply (Hl x Hx (d - 1)%N); [lia|by apply H].
  - pose proof (wf_object_inv _ _ H) as [H0 Hv]. inversion H as [| | | | |d0 m0 _ Hs Hu _]; subst.
    constructor; [lia|done|done|]. apply Forall_forall. intros x Hx.
    rewrite Forall_forall in Hm. apply (Hm x Hx (d - 1)%N); [lia|by apply Hv].
Qed.

Lemma child_wf d v key w : wf d v -> child v key = Some w -> wf d w.
Proof.
  intros Hv Hc. destruct v as [|b|n|s|l|m]; try done; cbn [child] in Hc.
  - apply wf_array_inv in Hv as [H0 Hv]. destruct (Atoi key) as [i|]; [|done]. destruct (_ || _); [done|].
    apply list_elem_of_lookup_2 in Hc. eapply wf_mono with (d := (d - 1)%N); [lia|]. by apply Hv.
  - apply wf_object_inv in Hv as [H0 Hv].
    apply fmap_Some in Hc as ([k w'] & Hf & ->). apply find_some in Hf as [Hin _].
    eapply wf_mono with (d := (d - 1)%N); [lia|]. apply Hv.
    apply (in_map snd) in Hin. by apply list_elem_of_In.
Qed.

Lemma descend_wf d tokens : forall v w, wf d v -> descend v tokens = Some w -> wf d w.
Proof.
  induction tokens as [|t tokens IH]; intros v w Hv; cbn [descend]; [by intros [= <-]|].
  destruct (child v (unescapeToken t)) as [x|] eqn:Hc; [|done]. apply IH. by eapply child_wf.
Qed.

Lemma valueAtSnapshot_wf s pointer v : valueAtSnapshot s pointer = Ok v -> wf json.maxNestingDepth v.
Proof.
  unfold valueAtSnapshot. destruct (decodeJSON _) as [p|] eqn:Hp; [|done]. apply decodeOne_wf in Hp.
  destruct (_ == _); [by intros [= <-]|]. destruct (descend p _) as [w|] eqn:Hd; [|done].
  intros [= <-]. by eapply descend_wf.
Qed.

(** ** One selected observation *)

(** The only observation that matches, and the value it has. *)
Definition selects (input : rules.RuleInput) (selector : Selector) (value : json.Json) : Prop :=
  exists s, List.filter (fun s => selectorMatches s selector) (rules.Evidence input) = [s] /\
    valueAtSnapshot s (JSONPointer selector) = Ok value.

(** The decisions that no value causes. *)
Definition unavailable (d : rules.RuleDecision) : Prop :=
  exists reason, d = inconclusive reason /\
    reason ∈ [reasonEvidenceNotFound; reasonEvidenceAmbiguous; reasonFieldNotFound; reasonInvalidValue].

Lemma valueAtSnapshot_reason s pointer reason :
  valueAtSnapshot s pointer = Err reason -> reason = reasonInvalidValue \/ reason = reasonFieldNotFound.
Proof.
  unfold valueAtSnapshot. destruct (decodeJSON _); [|intros [= <-]; auto]. destruct (_ == _); [done|].
  destruct (descend _ _); [done|]. intros [= <-]. auto.
Qed.

Lemma selectValue_spec input selector :
  match selectValue input selector with
  | Ok value => selects input selector value
  | Err d => unavailable d /\ forall value, ~ selects input selector value
  end.
Proof.
  unfold selectValue, selects. destruct (List.filter _ _) as [|s [|s' l]].
  - split; [|by intros v (? & ? & _)]. eexists. split; [done|set_solver].
  - destruct (valueAtSnapshot s _) as [v|reason] eqn:Hv; cbn [omap_err]; [by exists s|].
    split; [|intros v (x & [= <-] & Hx); congruence]. exists reason. split; [done|].
    destruct (valueAtSnapshot_reason _ _ _ Hv) as [->| ->]; set_solver.
  - split; [|by intros v (? & ? & _)]. eexists. split; [done|set_solver].
Qed.

Lemma selects_unique input selector v w : selects input selector v -> selects input selector w -> v = w.
Proof. intros (s & Hs & Hv) (s' & Hs' & Hw). rewrite Hs in Hs'. injection Hs' as <-. congruence. Qed.

(** ** What each operator decides *)

(** A match is equality of JSON values, whatever the order and the spelling of
    the text: it passes exactly when the selected value is the expected one, and
    fails exactly when it is another. *)
Theorem match_is_equality ruleID selector text o input :
  NewMatchOperator ruleID selector text = Ok o ->
  exists value, decodeJSON text = Some value /\
  (MatchEvaluate o input = pass <-> selects input (matchSelector o) value) /\
  (MatchEvaluate o input = fail reasonMatchMismatch <->
   exists other, selects input (matchSelector o) other /\ other <> value).
Proof.
  unfold NewMatchOperator. intros (id & _ & H)%obind_ok. apply obind_ok in H as (sel & _ & H).
  destruct (decodeJSON text) as [value|] eqn:Hv; [|done]. injection H as <-. cbn [matchSelector].
  exists value. split; [done|]. unfold MatchEvaluate. cbn [matchSelector expected].
  pose proof (selectValue_spec input sel) as Hs. destruct (selectValue input sel) as [actual|d] eqn:Ha.
  - assert (json.Marshal actual = json.Marshal value <-> actual = value) as Heq.
    { split; [|by intros ->]. destruct Hs as (s & _ & Hw%valueAtSnapshot_wf).
      apply decodeOne_wf in Hv. by apply Marshal_inj. }
    destruct (decide (json.Marshal actual = json.Marshal value)) as [E|E]; rewrite Heq in E.
    + rewrite bool_decide_eq_true_2 by tauto. subst. split; [done|]. split; [done|].
      intros (other & Ho & Hne). destruct Hne. by eapply selects_unique.
    + rewrite bool_decide_eq_false_2 by tauto. cbn [negb]. split; [|split; [|done]].
      * split; [done|]. intros Hs'. destruct E. by eapply selects_unique.
      * intros _. by exists actual.
  - destruct Hs as [(reason & -> & _) Hn]. split; split; try done.
    + intros Hs. by apply Hn in Hs.
    + intros (other & Hs & _). by apply Hn in Hs.
Qed.

(** The number that is selected. *)
Definition selects_number (input : rules.RuleInput) (selector : Selector) (q : Rat) : Prop :=
  exists value, selects input selector value /\ numericValue value = Ok q.

Lemma selects_number_unique input selector p q :
  selects_number input selector p -> selects_number input selector q -> p = q.
Proof. intros (v & Hv & Hp) (w & Hw & Hq). rewrite (selects_unique _ _ _ _ Hv Hw) in Hp. congruence. Qed.

(** A decision by a test of the selected number. *)
Lemma numeric_decision input selector (bad : Rat -> bool) reason d :
  d = match selectValue input selector with
      | Err unavailable => unavailable
      | Ok value =>
          match numericValue value with
          | Err _ => inconclusive reasonInvalidValue
          | Ok actual => if bad actual then fail reason else pass
          end
      end ->
  (d = pass <-> exists q, selects_number input selector q /\ bad q = false) /\
  (d = fail reason <-> exists q, selects_number input selector q /\ bad q = true) /\
  (d = pass \/ d = fail reason \/ unavailable d).
Proof.
  intros Hd. pose proof (selectValue_spec input selector) as Hs.
  destruct (selectValue input selector) as [value|d'] eqn:Ha.
  - destruct (numericValue value) as [actual|err] eqn:Hn.
    + assert (selects_number input selector actual) as Hsel by (by exists value).
      assert (forall b, (exists q, selects_number input selector q /\ bad q = b) <-> bad actual = b) as Hb.
      { intros b. split; [intros (q & Hq & <-); by rewrite (selects_number_unique _ _ _ _ Hsel Hq)|eauto]. }
      rewrite !Hb. subst d. destruct (bad actual); (split_and!; [by split..|auto]).
    + assert (forall q, ~ selects_number input selector q) as Hno.
      { intros q (v & Hv & Hq). rewrite (selects_unique _ _ _ _ Hv Hs) in Hq. congruence. }
      subst d. split_and!; [split; [done|intros (q & Hq & _); by apply Hno in Hq]..|].
      right; right. exists reasonInvalidValue. split; [done|set_solver].
  - destruct Hs as [Hu Hno]. assert (forall q, ~ selects_number input selector q) as Hno'.
    { intros q (v & Hv & _). by apply Hno in Hv. }
    pose proof Hu as (reason' & E & _). subst d d'.
    split_and!; [split; [done|intros (q & Hq & _); by apply Hno' in Hq]..|auto].
Qed.

Lemma Cmp_Gt p q : bool_decide (Cmp p q = Gt) = false <-> (p <= q)%Q.
Proof. rewrite bool_decide_eq_false. symmetry. apply Qle_alt. Qed.

Lemma Cmp_Lt p q : bool_decide (Cmp p q = Lt) = false <-> (q <= p)%Q.
Proof. rewrite bool_decide_eq_false. unfold Cmp. rewrite <- Qlt_alt. split; [apply Qnot_lt_le|apply Qle_not_lt]. Qed.

(** A range passes exactly when one observation is selected whose value is a
    number between the bounds, as exact rationals, and fails exactly when that
    number is outside them. *)
Theorem range_is_an_interval o input :
  (RangeEvaluate o input = pass <->
   exists q, selects_number input (rangeSelector o) q /\ (minimum o <= q)%Q /\ (q <= maximum o)%Q) /\
  (RangeEvaluate o input = fail reasonOutsideRange <->
   exists q, selects_number input (rangeSelector o) q /\ ~ ((minimum o <= q)%Q /\ (q <= maximum o)%Q)).
Proof.
  destruct (numeric_decision input (rangeSelector o)
    (fun q => bool_decide (Cmp q (minimum o) = Lt) || bool_decide (Cmp q (maximum o) = Gt))
    reasonOutsideRange (RangeEvaluate o input) eq_refl) as (Hp & Hf & _).
  assert (forall q, bool_decide (Cmp q (minimum o) = Lt) || bool_decide (Cmp q (maximum o) = Gt) = false <->
    (minimum o <= q)%Q /\ (q <= maximum o)%Q) as Hb by (intros q; by rewrite orb_false_iff, Cmp_Lt, Cmp_Gt).
  split; [rewrite Hp; by setoid_rewrite Hb|rewrite Hf]. setoid_rewrite <- Hb. by setoid_rewrite not_false_iff_true.
Qed.

Lemma absolute_difference a e :
  (if Sign (a - e) <? 0 then - (a - e) else a - e)%Q = Qabs (a - e).
Proof. unfold Sign, Qabs. destruct (a - e)%Q as [[|n|n] d]; done. Qed.

(** A tolerance passes exactly when one observation is selected whose value is
    a number that differs from the expected one by at most the tolerance, and
    fails exactly when it differs by more. *)
Theorem tolerance_is_a_distance o input :
  (ToleranceEvaluate o input = pass <->
   exists q, selects_number input (toleranceSelector o) q /\ (Qabs (q - expectedValue o) <= tolerance o)%Q) /\
  (ToleranceEvaluate o input = fail reasonOutsideTolerance <->
   exists q, selects_number input (toleranceSelector o) q /\ ~ (Qabs (q - expectedValue o) <= tolerance o)%Q).
Proof.
  destruct (numeric_decision input (toleranceSelector o)
    (fun q => bool_decide (Cmp (Qabs (q - expectedValue o)) (tolerance o) = Gt))
    reasonOutsideTolerance (ToleranceEvaluate o input)) as (Hp & Hf & _).
  { unfold ToleranceEvaluate. destruct (selectValue _ _); [|done]. destruct (numericValue _); [|done].
    by rewrite absolute_difference. }
  split; [rewrite Hp; by setoid_rewrite Cmp_Gt|rewrite Hf].
  setoid_rewrite <- Cmp_Gt. by setoid_rewrite not_false_iff_true.
Qed.

Lemma count_loop (p : evidence.Snapshot -> bool) l : forall c, 0 <= c -> c + Z.of_nat (length l) < u32_modulus ->
  fold_left (fun count s => if p s then u32_succ count else count) l c =
  c + Z.of_nat (length (List.filter p l)).
Proof.
  induction l as [|s l IH]; intros c Hc Hl; [cbn; lia|]. cbn [fold_left List.filter length] in *.
  destruct (p s); [|rewrite IH by lia; done].
  rewrite IH; unfold u32_succ, u32; rewrite Z.mod_small; cbn [length]; lia.
Qed.

(** Existence passes exactly when at least the minimum number of observations
    match, as long as there are fewer than 2^32 of them: the counter of the code
    is 32 bits wide. *)
Theorem existence_counts o input :
  Z.of_nat (length (rules.Evidence input)) < u32_modulus ->
  ExistenceEvaluate o input =
    if minimumCount o <=?
       Z.of_nat (length (List.filter (fun s => selectorMatches s (existenceSelector o)) (rules.Evidence input)))
    then pass else fail reasonEvidenceCountBelowMinimum.
Proof.
  intros Hl. unfold ExistenceEvaluate. rewrite count_loop by lia. rewrite Z.add_0_l.
  destruct (_ <=? _) eqn:E1; destruct (_ <? _) eqn:E2; try done; lia.
Qed.

(** ** The order of the evidence *)

(** The operators of the package. *)
Inductive Operator :=
  | Existence (o : ExistenceOperator)
  | Range (o : RangeOperator)
  | Tolerance (o : ToleranceOperator)
  | Match (o : MatchOperator)
  | Sequence (o : SequenceOperator).

Definition evaluate (o : Operator) : rules.RuleInput -> rules.RuleDecision :=
  match o with
  | Existence o => ExistenceEvaluate o
  | Range o => RangeEvaluate o
  | Tolerance o => ToleranceEvaluate o
  | Match o => MatchEvaluate o
  | Sequence o => SequenceEvaluate o
  end.

Definition with_evidence (input : rules.RuleInput) (l : list evidence.Snapshot) : rules.RuleInput :=
  rules.MkRuleInput (rules.EvaluationID input) (rules.SessionID input) (rules.InputPolicyID input)
    (rules.InputPolicyVersion input) (rules.InputPolicyHash input) l.

Lemma filter_permutation {A} (p : A -> bool) l k : l ≡ₚ k -> List.filter p l ≡ₚ List.filter p k.
Proof.
  induction 1 as [|x l k _ IH|x y l|l k j _ IH1 _ IH2]; cbn [List.filter]; [done|..].
  - destruct (p x); [by constructor|done].
  - destruct (p x), (p y); [by constructor|done..].
  - by etrans.
Qed.

Lemma selectValue_permutation input selector k :
  rules.Evidence input ≡ₚ k -> selectValue (with_evidence input k) selector = selectValue input selector.
Proof.
  intros H%(filter_permutation (fun s => selectorMatches s selector)). unfold selectValue. cbn [with_evidence rules.Evidence].
  destruct (List.filter _ (rules.Evidence input)) as [|s [|s' l]].
  - by apply Permutation_nil_l in H as <-.
  - by apply Permutation_singleton_l in H as <-.
  - destruct (List.filter _ k) as [|t [|t' k']]; [|apply Permutation_length in H; cbn in H; lia|done].
    by apply Permutation_nil_r in H.
Qed.

Lemma count_permutation (p : evidence.Snapshot -> bool) l k : l ≡ₚ k -> forall c,
  fold_left (fun count s => if p s then u32_succ count else count) l c =
  fold_left (fun count s => if p s then u32_succ count else count) k c.
Proof.
  induction 1 as [|x l k _ IH|x y l|l k j _ IH1 _ IH2]; intros c; cbn [fold_left]; [done|..].
  - apply IH.
  - by destruct (p x), (p y).
  - by rewrite IH1.
Qed.

Lemma orderEvidence_permutation l k :
  l ≡ₚ k -> NoDup (evidence.EvidenceID <$> l) -> Forall (fun s => is_uuid (evidence.EvidenceID s)) l ->
  orderEvidence l = orderEvidence k.
Proof.
  intros Hp Hn Hu. unfold orderEvidence. apply (Sorted_unique_strong evidence.snapshotLe).
  - intros a b. rewrite !stable_sort_perm, <- Hp. intros Ha Hb H1 H2. rewrite Forall_forall in Hu.
    pose proof (snapshotLe_antisym a b (Hu a Ha) (Hu b Hb) H1 H2) as E.
    apply list_elem_of_lookup_1 in Ha as [i Hi], Hb as [j Hj].
    assert (i = j) as ->; [|congruence]. apply (NoDup_lookup _ i j (evidence.EvidenceID a) Hn);
      rewrite list_lookup_fmap; [by rewrite Hi|by rewrite Hj; cbn; rewrite E].
  - apply StronglySorted_Sorted, stable_sort_stably; apply _.
  - apply StronglySorted_Sorted, stable_sort_stably; apply _.
  - by rewrite !stable_sort_perm.
Qed.

(** No decision depends on the order in which the evidence is presented, as
    long as every object has an identity of its own. *)
Theorem decisions_ignore_order o input k :
  rules.Evidence input ≡ₚ k -> NoDup (evidence.EvidenceID <$> rules.Evidence input) ->
  Forall (fun s => is_uuid (evidence.EvidenceID s)) (rules.Evidence input) ->
  evaluate o (with_evidence input k) = evaluate o input.
Proof.
  intros Hp Hn Hu. destruct o as [o|o|o|o|o]; cbn [evaluate].
  - unfold ExistenceEvaluate. cbn [with_evidence rules.Evidence]. by rewrite (count_permutation _ _ _ Hp).
  - unfold RangeEvaluate. by rewrite selectValue_permutation.
  - unfold ToleranceEvaluate. by rewrite selectValue_permutation.
  - unfold MatchEvaluate. by rewrite selectValue_permutation.
  - unfold SequenceEvaluate. cbn [with_evidence rules.Evidence]. by rewrite (orderEvidence_permutation _ k Hp).
Qed.

(** ** Sequences *)

Definition misses (step : SequenceStep) (s : evidence.Snapshot) : Prop :=
  selectorMatches s (StepSelector step) = false.

(** The observations that a sequence takes: for each step the first one after
    the previous step's that matches. *)
Inductive takes : list evidence.Snapshot -> list SequenceStep -> list evidence.Snapshot -> Prop :=
  | takes_nil l : takes l [] []
  | takes_cons skipped s rest step l obs :
      Forall (misses step) skipped -> selectorMatches s (StepSelector step) = true -> takes rest l obs ->
      takes (skipped ++ s :: rest) (step :: l) (s :: obs).

Definition has_expected (step : SequenceStep) (s : evidence.Snapshot) : Prop :=
  exists value, valueAtSnapshot s (JSONPointer (StepSelector step)) = Ok value /\
    json.Marshal value = StepExpected step.

(** [b] is observed within the window [limit] after [a]; zero is no limit. *)
Definition within (limit : Duration) (a b : Time) : Prop := 0 < limit -> Sub b a <= limit.

(** The times of the observations that follow [p]. *)
Fixpoint times_ok (o : SequenceOperator) (p : option progress) (obs : list evidence.Snapshot) : Prop :=
  match obs with
  | [] => True
  | s :: obs =>
      let t := UTC (evidence.ObservedAt s) in
      let first := match p with None => t | Some p => firstAt p end in
      match p with None => True | Some p => within (maxGap o) (previousAt p) t end /\
      within (maxDuration o) first t /\ times_ok o (Some (MkProgress 0 first t)) obs
  end.

Lemma within_test limit a b : (0 <? limit) && (limit <? Sub b a) = false <-> within limit a b.
Proof. unfold within. destruct (0 <? limit) eqn:E; cbn [andb]; split; intros; lia. Qed.

Lemma times_ok_index o p p' obs :
  (match p, p' with
   | None, None => True
   | Some p, Some p' => firstAt p = firstAt p' /\ previousAt p = previousAt p'
   | _, _ => False
   end) -> times_ok o p obs <-> times_ok o p' obs.
Proof. destruct p as [p|], p' as [p'|]; try done. intros [H1 H2]. destruct obs; [done|]. cbn. by rewrite H1, H2. Qed.

Lemma next_spec ordered step n :
  match nextMatchingEvidence ordered (StepSelector step) n with
  | Some i => exists skipped s, drop n ordered = skipped ++ s :: drop (S i) ordered /\
      Forall (misses step) skipped /\ selectorMatches s (StepSelector step) = true /\ ordered !! i = Some s
  | None => Forall (misses step) (drop n ordered)
  end.
Proof.
  unfold nextMatchingEvidence. destruct (list_find _ (drop n ordered)) as [[i s]|] eqn:H; cbn.
  - apply list_find_Some in H as (Hi & Hm & Hf). exists (take i (drop n ordered)), s. split_and!; [| |done|].
    + rewrite <- Nat.add_succ_r, <- drop_drop. rewrite <- (take_drop i (drop n ordered)) at 1. f_equal.
      by apply drop_S.
    + apply Forall_forall. intros x [j Hj]%list_elem_of_lookup_1. apply lookup_take_Some in Hj as [Hj Hlt].
      apply not_true_iff_false. by eapply Hf.
    + by rewrite lookup_drop in Hi.
  - apply list_find_None in H. eapply Forall_impl; [exact H|]. intros s Hs. by apply not_true_iff_false.
Qed.

Lemma first_unique step a s r a' s' r' :
  a ++ s :: r = a' ++ s' :: r' -> Forall (misses step) a -> Forall (misses step) a' ->
  selectorMatches s (StepSelector step) = true -> selectorMatches s' (StepSelector step) = true ->
  s = s' /\ r = r'.
Proof.
  revert a'. induction a as [|x a IH]; intros [|x' a'] H Ha Ha' Hs Hs'; cbn in H; injection H as -> H.
  - done.
  - apply Forall_cons in Ha' as [Hx _]. unfold misses in Hx. congruence.
  - apply Forall_cons in Ha as [Hx _]. unfold misses in Hx. congruence.
  - apply Forall_cons in Ha as [_ Ha], Ha' as [_ Ha']. by apply (IH a').
Qed.

Lemma sequenceLoop_spec o ordered l : forall p,
  sequenceLoop o ordered p l = pass <->
  exists obs, takes (drop (startFrom p) ordered) l obs /\ Forall2 has_expected l obs /\ times_ok o p obs.
Proof.
  induction l as [|step l IH]; intros p; cbn [sequenceLoop].
  { split; [|done]. intros _. exists []. split_and!; constructor. }
  pose proof (next_spec ordered step (startFrom p)) as Hn.
  destruct (nextMatchingEvidence ordered _ (startFrom p)) as [i|].
  - destruct Hn as (skipped & s & Hd & Hsk & Hm & Hi). rewrite Hi, Hd. split.
    + destruct (valueAtSnapshot s _) as [v|] eqn:Hv; [|done]. case_bool_decide as Hx; [|done]. cbn [negb].
      destruct (match p with None => false | Some _ => _ end) eqn:Hg; [done|].
      destruct (_ && _) eqn:Hdur; [done|]. apply within_test in Hdur.
      intros (obs & Ht & Hexp & Htimes)%IH. exists (s :: obs). split_and!.
      * by constructor.
      * constructor; [by exists v|done].
      * cbn [times_ok]. split_and!; [|done|by eapply times_ok_index; [|exact Htimes]].
        destruct p as [p|]; [by apply within_test|done].
    + intros (obs & Ht & Hexp & Htimes). remember (skipped ++ _) as whole eqn:Hw.
      inversion Ht as [|sk s' rest step' l' obs' Hsk' Hm' Ht' H1 H2 H3]; subst step' l' obs.
      rewrite <- H1 in Hw. destruct (first_unique step _ _ _ _ _ _ Hw Hsk' Hsk Hm' Hm) as [-> ->].
      apply Forall2_cons in Hexp as [(v & -> & Hv) Hexp]. rewrite bool_decide_eq_true_2 by done. cbn [negb].
      destruct Htimes as (Hg & Hdur & Htimes).
      replace (match p with None => false | Some _ => _ end) with false
        by (destruct p; [symmetry; by apply within_test|done]).
      rewrite (proj2 (within_test _ _ _) Hdur). apply IH. exists obs'. split_and!; [done..|].
      by eapply times_ok_index; [|exact Htimes].
  - split.
    + by destruct (nextMatchingEvidence ordered _ 0).
    + intros (obs & Ht & _). inversion Ht as [|sk s' rest step' l' obs' Hsk' Hm' Ht' H1 H2 H3].
      rewrite <- H1 in Hn. apply Forall_app in Hn as [_ [Hx _]%Forall_cons]. unfold misses in Hx. congruence.
Qed.

(** The order of the observations: by time, and by the text of the identity
    where the times are the same. *)
Definition earlier (s t : evidence.Snapshot) : Prop :=
  instant (evidence.ObservedAt s) < instant (evidence.ObservedAt t) \/
  instant (evidence.ObservedAt s) = instant (evidence.ObservedAt t) /\
  String.le (UuidString (evidence.EvidenceID s)) (UuidString (evidence.EvidenceID t)).

#[global] Instance earlier_dec : RelDecision earlier.
Proof. intros s t. unfold earlier. apply _. Defined.

#[global] Instance earlier_trans : Transitive earlier.
Proof. intros s t u H1 H2. apply snapshotLe_spec. etrans; by apply snapshotLe_spec. Qed.

#[global] Instance earlier_total : Total earlier.
Proof. intros s t. destruct (total evidence.snapshotLe s t); [left|right]; by apply snapshotLe_spec. Qed.

Lemma orderEvidence_stable l : stably_sorted earlier l (orderEvidence l).
Proof. eapply (stably_sorted_ext evidence.snapshotLe); [apply snapshotLe_spec|]. apply stable_sort_stably; apply _. Qed.

(** C40: a sequence passes exactly when the observations it takes, one for each step
    and each the first match after the one before, from the evidence stably sorted
    by time and then by ID, have the expected values, follow each other within the
    maximal gap and lie within the maximal duration of the first. *)
Theorem sequence_takes_its_steps o input :
  SequenceEvaluate o input = pass <->
  exists ordered obs, stably_sorted earlier (rules.Evidence input) ordered /\ takes ordered (steps o) obs /\
    Forall2 has_expected (steps o) obs /\ times_ok o None obs.
Proof.
  unfold SequenceEvaluate. rewrite sequenceLoop_spec. pose proof (orderEvidence_stable (rules.Evidence input)) as Hst.
  split; [intros (obs & H); by exists (orderEvidence (rules.Evidence input)), obs|].
  intros (ordered & obs & Ho & H). exists obs. by rewrite (stably_sorted_unique earlier _ _ _ Hst Ho).
Qed.

(** ** Decisions that can be recorded *)

(** The decisions the package can take. *)
Inductive takable : rules.RuleDecision -> Prop :=
  | takable_pass : takable pass
  | takable_fail reason : is_code reason -> takable (fail reason)
  | takable_inconclusive reason : is_code reason -> takable (inconclusive reason).

Ltac takable := first [apply takable_pass|apply takable_fail; done|apply takable_inconclusive; done].

Lemma unavailable_takable d : unavailable d -> takable d.
Proof.
  intros (reason & -> & Hr). rewrite !elem_of_cons in Hr. destruct_or! Hr; subst; [takable..|].
  by apply elem_of_nil in Hr.
Qed.

Lemma selectValue_takable input selector d : selectValue input selector = Err d -> takable d.
Proof.
  pose proof (selectValue_spec input selector) as H. intros E. rewrite E in H. apply unavailable_takable, H.
Qed.

Lemma sequenceLoop_takable o ordered l : forall p, takable (sequenceLoop o ordered p l).
Proof.
  induction l as [|step l IH]; intros p; cbn [sequenceLoop]; [takable|].
  destruct (nextMatchingEvidence ordered _ (startFrom p)) as [i|];
    [|destruct (nextMatchingEvidence ordered _ 0); takable].
  destruct (ordered !! i) as [s|]; [|takable].
  destruct (valueAtSnapshot s _) as [v|reason] eqn:Hv.
  - destruct (_ != _); [takable|]. destruct (match p with None => _ | Some _ => _ end); [takable|].
    destruct (_ && _); [takable|apply IH].
  - destruct (valueAtSnapshot_reason _ _ _ Hv) as [->| ->]; takable.
Qed.

Lemma evaluate_takable op input : takable (evaluate op input).
Proof.
  destruct op as [o|o|o|o|o]; cbn [evaluate];
    unfold ExistenceEvaluate, RangeEvaluate, ToleranceEvaluate, MatchEvaluate;
    [| | | |apply sequenceLoop_takable];
    try (destruct (selectValue input _) as [v|d] eqn:Hs; [|by eapply selectValue_takable]);
    try (destruct (numericValue v); [|takable]); cbv zeta;
    match goal with |- takable (if ?b then _ else _) => destruct b; takable end.
Qed.

Lemma decision_normal op input ruleID now :
  trimmed ruleID -> instant now <> 0 -> location now = UTCLoc ->
  evaluation.normalizeRuleOutcome (decision_outcome now ruleID (evaluate op input)) =
    Ok (decision_outcome now ruleID (evaluate op input)).
Proof.
  intros [Hid Hne] Ht Hloc. apply normalizeRuleOutcome_ok.
  assert (forall reason, is_code reason -> evaluation.normalizeReasonCodes [reason] = Ok [reason]) as Hcodes.
  { intros reason Hr. unfold evaluation.normalizeReasonCodes. cbn [evaluation.normalizeReasonCodes_loop].
    by rewrite NewReasonCode_fixed. }
  apply UTC_fixed in Hloc. destruct (evaluate_takable op input) as [|reason Hr|reason Hr];
    cbn [decision_outcome evaluation.RuleID evaluation.Status evaluation.ReasonCodes evaluation.EvaluatedAt
      pass fail inconclusive rules.Status rules.ReasonCodes].
  - exists []. split_and!; cbn; by rewrite ?Hid, ?Hloc.
  - exists [reason]. split_and!; [by apply Hcodes|..]; cbn; by rewrite ?Hid, ?Hloc.
  - exists [reason]. split_and!; [by apply Hcodes|..]; cbn; by rewrite ?Hid, ?Hloc.
Qed.

(** The aggregate accepts every decision an operator can take: the outcome of
    a rule, decided at a time in UTC, is its own normal form. *)
Theorem decisions_are_recordable op input ruleID now :
  trimmed ruleID -> instant now <> 0 -> location now = UTCLoc ->
  evaluation.normalizeRuleOutcome (decision_outcome now ruleID (evaluate op input)) =
    Ok (decision_outcome now ruleID (evaluate op input)).
Proof. apply decision_normal. Qed.

(** An operator that the constructors return. *)
Inductive constructed : Operator -> Prop :=
  | new_existence ruleID ty source count o :
      is_u32 count -> NewExistenceOperator ruleID ty source count = Ok o -> constructed (Existence o)
  | new_range ruleID selector min max o :
      NewRangeOperator ruleID selector min max = Ok o -> constructed (Range o)
  | new_tolerance ruleID selector target delta o :
      NewToleranceOperator ruleID selector target delta = Ok o -> constructed (Tolerance o)
  | new_match ruleID selector text o :
      NewMatchOperator ruleID selector text = Ok o -> constructed (Match o)
  | new_sequence ruleID l gap window o :
      NewSequenceOperator ruleID l gap window = Ok o -> constructed (Sequence o).

Lemma selectValue_nothing input selector :
  selectValue (with_evidence input []) selector = Err (inconclusive reasonEvidenceNotFound).
Proof. done. Qed.

Lemma normalizeSteps_length l out : normalizeSteps l = Ok out -> length out = length l.
Proof.
  revert out. induction l as [|step l IH]; intros out; cbn [normalizeSteps]; [by intros [= <-]|].
  intros (sel & _ & H)%obind_ok. destruct (decodeJSON _); [|done].
  apply obind_ok in H as (out' & Hout & [= <-]). cbn. by rewrite (IH _ Hout).
Qed.

(** Without evidence nothing passes: an operator that its constructor
    accepted never passes on an empty set of evidence. *)
Theorem nothing_passes_without_evidence op input :
  constructed op -> evaluate op (with_evidence input []) <> pass.
Proof.
  intros [ruleID ty source count o Hc H|ruleID sel min max o _|ruleID sel t d o _|ruleID sel text o _
    |ruleID l gap window o H]; cbn [evaluate].
  - unfold NewExistenceOperator in H. apply obind_ok in H as (id & _ & H). apply obind_ok in H as (s & _ & H).
    destruct (count =? 0) eqn:E; [done|]. injection H as <-. unfold ExistenceEvaluate, is_u32 in *.
    cbn [with_evidence rules.Evidence fold_left minimumCount]. destruct (0 <? count) eqn:E'; [done|lia].
  - unfold RangeEvaluate. by rewrite selectValue_nothing.
  - unfold ToleranceEvaluate. by rewrite selectValue_nothing.
  - unfold MatchEvaluate. by rewrite selectValue_nothing.
  - unfold NewSequenceOperator in H. apply obind_ok in H as (id & _ & H).
    destruct (length l <? 2)%nat eqn:E; [done|]. destruct (_ || _); [done|].
    apply obind_ok in H as (out & Hout%normalizeSteps_length & [= <-]).
    unfold SequenceEvaluate. cbn [steps]. destruct out as [|step out]; [cbn in Hout; lia|].
    cbn [with_evidence rules.Evidence]. done.
Qed.
