(* ===== verification/PolicyCompiler.v ===== *)
(** * The policy document compiler ([ruleoperator/policy_compiler.go])

    A policy document of schema [policy.document.v1] is decoded strictly and
    compiled into a qualification policy and into rule operators. *)

From Stdlib Require Import Ascii String QArith.
From S2P Require Import Prelude GoTime GoString GoJson GoParse GoFloat GoJsonDecode.
From S2P Require Import Evidence Policy PdsRules RuleOperators.
Import ruleoperator.
Open Scope Z_scope.

Module compiler.

Definition PolicyDocumentSchemaV1 : string := "policy.document.v1".

(** ** The document *)

Record evidenceQualificationV1 := MkQualification {
  qVersion : string;
  qTrustedSources : Slice string;
  qAllowedTypes : Slice evidence.Type_;
  qAllowedAcquisitionMethods : Slice string;
  qMaxAge : option string;
  qFutureTolerance : option string;
  qRequireConfidence : bool;
  qMinimumConfidence : option float64;
  qRequiredProvenance : Slice string;
  qRequiredPayloadFields : Slice string
}.

Record selectorV1 := MkSelectorV1 {
  sEvidenceType : evidence.Type_;
  sSourceID : string;
  sJSONPointer : string
}.

Record sequenceStepV1 := MkStepV1 {
  stSelector : selectorV1;
  stExpected : bytes
}.

Record policyRuleV1 := MkRule {
  RuleID : string;
  OperatorName : string;
  RuleSelector : option selectorV1;
  Expected : bytes;
  Minimum : option string;
  Maximum : option string;
  ToleranceText : option string;
  RuleEvidenceType : option evidence.Type_;
  RuleSourceID : option string;
  MinimumCount : option Z;
  Steps : Slice sequenceStepV1;
  MaxGap : option string;
  MaxDuration : option string
}.

Record policyDocumentV1 := MkDocument {
  EvidenceQualification : option evidenceQualificationV1;
  Rules : Slice policyRuleV1
}.

#[global] Instance evidenceQualificationV1_eta : Eta evidenceQualificationV1 := fun q =>
  MkQualification (qVersion q) (qTrustedSources q) (qAllowedTypes q) (qAllowedAcquisitionMethods q)
    (qMaxAge q) (qFutureTolerance q) (qRequireConfidence q) (qMinimumConfidence q)
    (qRequiredProvenance q) (qRequiredPayloadFields q).
#[global] Instance selectorV1_eta : Eta selectorV1 := fun s =>
  MkSelectorV1 (sEvidenceType s) (sSourceID s) (sJSONPointer s).
#[global] Instance sequenceStepV1_eta : Eta sequenceStepV1 := fun s => MkStepV1 (stSelector s) (stExpected s).
#[global] Instance policyRuleV1_eta : Eta policyRuleV1 := fun r =>
  MkRule (RuleID r) (OperatorName r) (RuleSelector r) (Expected r) (Minimum r) (Maximum r)
    (ToleranceText r) (RuleEvidenceType r) (RuleSourceID r) (MinimumCount r) (Steps r) (MaxGap r)
    (MaxDuration r).
#[global] Instance policyDocumentV1_eta : Eta policyDocumentV1 := fun d =>
  MkDocument (EvidenceQualification d) (Rules d).

(** The zero values. *)
Definition zeroQualification : evidenceQualificationV1 :=
  MkQualification "" nil_slice nil_slice nil_slice None None false None nil_slice nil_slice.
Definition zeroSelector : selectorV1 := MkSelectorV1 "" "" "".
Definition zeroStep : sequenceStepV1 := MkStepV1 zeroSelector [].
Definition zeroRule : policyRuleV1 :=
  MkRule "" "" None [] None None None None None None nil_slice None None.

(** ** Decoding *)

Definition decode_strings : decoder (Slice string) := decode_slice "" decode_string.
Definition decode_text : decoder (option string) := decode_pointer "" decode_string.

Definition decode_qualification : decoder evidenceQualificationV1 := decode_struct
  [("version", into qVersion (fun a q => q <| qVersion := a |>) decode_string);
   ("trusted_sources", into qTrustedSources (fun a q => q <| qTrustedSources := a |>) decode_strings);
   ("allowed_types", into qAllowedTypes (fun a q => q <| qAllowedTypes := a |>) decode_strings);
   ("allowed_acquisition_methods",
     into qAllowedAcquisitionMethods (fun a q => q <| qAllowedAcquisitionMethods := a |>) decode_strings);
   ("max_age", into qMaxAge (fun a q => q <| qMaxAge := a |>) decode_text);
   ("future_tolerance", into qFutureTolerance (fun a q => q <| qFutureTolerance := a |>) decode_text);
   ("require_confidence", into qRequireConfidence (fun a q => q <| qRequireConfidence := a |>) decode_bool);
   ("minimum_confidence", into qMinimumConfidence (fun a q => q <| qMinimumConfidence := a |>)
     (decode_pointer f_zero decode_float));
   ("required_provenance", into qRequiredProvenance (fun a q => q <| qRequiredProvenance := a |>) decode_strings);
   ("required_payload_fields",
     into qRequiredPayloadFields (fun a q => q <| qRequiredPayloadFields := a |>) decode_strings)].

Definition decode_selector : decoder selectorV1 := decode_struct
  [("evidence_type", into sEvidenceType (fun a s => s <| sEvidenceType := a |>) decode_string);
   ("source_id", into sSourceID (fun a s => s <| sSourceID := a |>) decode_string);
   ("json_pointer", into sJSONPointer (fun a s => s <| sJSONPointer := a |>) decode_string)].

Definition decode_step : decoder sequenceStepV1 := decode_struct
  [("selector", into stSelector (fun a s => s <| stSelector := a |>) decode_selector);
   ("expected", into stExpected (fun a s => s <| stExpected := a |>) decode_raw)].

Definition decode_rule : decoder policyRuleV1 := decode_struct
  [("rule_id", into RuleID (fun a r => r <| RuleID := a |>) decode_string);
   ("operator", into OperatorName (fun a r => r <| OperatorName := a |>) decode_string);
   ("selector", into RuleSelector (fun a r => r <| RuleSelector := a |>)
     (decode_pointer zeroSelector decode_selector));
   ("expected", into Expected (fun a r => r <| Expected := a |>) decode_raw);
   ("minimum", into Minimum (fun a r => r <| Minimum := a |>) decode_text);
   ("maximum", into Maximum (fun a r => r <| Maximum := a |>) decode_text);
   ("tolerance", into ToleranceText (fun a r => r <| ToleranceText := a |>) decode_text);
   ("evidence_type", into RuleEvidenceType (fun a r => r <| RuleEvidenceType := a |>) decode_text);
   ("source_id", into RuleSourceID (fun a r => r <| RuleSourceID := a |>) decode_text);
   ("minimum_count", into MinimumCount (fun a r => r <| MinimumCount := a |>)
     (decode_pointer 0 decode_uint32));
   ("steps", into Steps (fun a r => r <| Steps := a |>) (decode_slice zeroStep decode_step));
   ("max_gap", into MaxGap (fun a r => r <| MaxGap := a |>) decode_text);
   ("max_duration", into MaxDuration (fun a r => r <| MaxDuration := a |>) decode_text)].

Definition decode_document : decoder policyDocumentV1 := decode_struct
  [("evidence_qualification", into EvidenceQualification (fun a d => d <| EvidenceQualification := a |>)
     (decode_pointer zeroQualification decode_qualification));
   ("rules", into Rules (fun a d => d <| Rules := a |>) (decode_slice zeroRule decode_rule))].

(** [decodeStrict] of a canonical payload. *)
Definition decodeStrict {T} (dec : decoder T) (payload : bytes) (t : T) : option T :=
  match json.decodeOne payload with
  | Some v => dec v t
  | None => None
  end.

Definition decodePolicyDocument (version : option policy.Version) : outcome Error policyDocumentV1 :=
  match version with
  | None => Err ErrInvalidPolicyDocument
  | Some version =>
      let s := policy.VersionSnapshot version in
      if policy.SchemaVersion s != PolicyDocumentSchemaV1 then Err ErrUnsupportedPolicySchema else
      match decodeStrict decode_document (policy.Document s) (MkDocument None nil_slice) with
      | None => Err ErrInvalidPolicyDocument
      | Some document => Ok document
      end
  end.

(** ** Qualification policies *)

Definition duration (value : option string) : outcome Error Duration :=
  match value with
  | None => Ok 0
  | Some text =>
      if TrimSpace text == "" then Ok 0 else
      match ParseDuration text with
      | Some d => if d <? 0 then Err ErrInvalidPolicyDocument else Ok d
      | None => Err ErrInvalidPolicyDocument
      end
  end.

(** The loop of [stringSet]; [allowedTypes] is filled by the same steps. *)
Fixpoint stringSet_loop (result : gmap string bool) (values : list string)
    : outcome Error (gmap string bool) :=
  match values with
  | [] => Ok result
  | value :: values =>
      let value := TrimSpace value in
      if (value == "") || default false (result !! value) then Err ErrInvalidPolicyDocument
      else stringSet_loop (<[value := true]> result) values
  end.

Definition stringSet (values : list string) : outcome Error (gmap string bool) := stringSet_loop ∅ values.

Fixpoint stringList_loop (set : gmap string bool) (values : list string) : list string :=
  match values with
  | [] => []
  | value :: values =>
      let value := TrimSpace value in
      if default false (set !! value) then value :: stringList_loop (delete value set) values
      else stringList_loop set values
  end.

Definition stringList (values : list string) : outcome Error (list string) :=
  let! set := stringSet values in
  Ok (stringList_loop set values).

Section compiler.
(** How Go visits the maps of a qualification policy. *)
Variable range : evidence.Range.

Definition CompileQualificationPolicy (version : option policy.Version)
    : outcome Error evidence.QualificationPolicy :=
  match decodePolicyDocument version with
  | Err _ | Ok (MkDocument None _) => Err ErrInvalidPolicyDocument
  | Ok (MkDocument (Some input) _) =>
      let! maxAge := duration (qMaxAge input) in
      let! futureTolerance := duration (qFutureTolerance input) in
      let! trustedSources := stringSet (items (qTrustedSources input)) in
      let! acquisitionMethods := stringSet (items (qAllowedAcquisitionMethods input)) in
      let! requiredProvenance := stringList (items (qRequiredProvenance input)) in
      let! requiredPayloadFields := stringList (items (qRequiredPayloadFields input)) in
      let! allowedTypes := stringSet (items (qAllowedTypes input)) in
      let compiled := evidence.MkPolicy (TrimSpace (qVersion input)) trustedSources allowedTypes
                        acquisitionMethods maxAge futureTolerance (qRequireConfidence input)
                        (qMinimumConfidence input) requiredProvenance requiredPayloadFields in
      match evidence.NewQualifier range compiled with
      | Err _ => Err ErrInvalidPolicyDocument
      | Ok _ => Ok compiled
      end
  end.

(** ** Rules *)

Definition selector (value : selectorV1) : Selector :=
  MkSelector (sEvidenceType value) (sSourceID value) (sJSONPointer value).

Definition present {A} (x : option A) : bool := match x with Some _ => true | None => false end.

Definition hasNumericFieldsExceptMinimumCount (rule : policyRuleV1) : bool :=
  present (Minimum rule) || present (Maximum rule) || present (ToleranceText rule).

Definition hasNumericFields (rule : policyRuleV1) : bool :=
  hasNumericFieldsExceptMinimumCount rule || present (MinimumCount rule).

Definition hasSequenceFields (rule : policyRuleV1) : bool :=
  (items (Steps rule) != []) || present (MaxGap rule) || present (MaxDuration rule).

(** The steps of a sequence; each must have an expected value. *)
Fixpoint compileSteps (l : list sequenceStepV1) : outcome Error (list SequenceStep) :=
  match l with
  | [] => Ok []
  | step :: l =>
      if stExpected step == [] then Err ErrInvalidPolicyDocument else
      let! steps := compileSteps l in
      Ok (MkSequenceStep (selector (stSelector step)) (stExpected step) :: steps)
  end.

Definition compileMatch (rule : policyRuleV1) : outcome Error rules.RuleOperator :=
  match RuleSelector rule with
  | None => Err ErrInvalidPolicyDocument
  | Some sel =>
      if (Expected rule == []) || hasNumericFields rule || present (RuleEvidenceType rule) ||
         present (RuleSourceID rule) || hasSequenceFields rule
      then Err ErrInvalidPolicyDocument else
      let! o := NewMatchOperator (RuleID rule) (selector sel) (Expected rule) in
      Ok (operator (matchRuleID o) (MatchEvaluate o))
  end.

Definition compileRange (rule : policyRuleV1) : outcome Error rules.RuleOperator :=
  match RuleSelector rule, Minimum rule, Maximum rule with
  | Some sel, Some min, Some max =>
      if (Expected rule != []) || present (ToleranceText rule) || present (RuleEvidenceType rule) ||
         present (RuleSourceID rule) || present (MinimumCount rule) || hasSequenceFields rule
      then Err ErrInvalidPolicyDocument else
      let! o := NewRangeOperator (RuleID rule) (selector sel) min max in
      Ok (operator (rangeRuleID o) (RangeEvaluate o))
  | _, _, _ => Err ErrInvalidPolicyDocument
  end.

Definition compileTolerance (rule : policyRuleV1) : outcome Error rules.RuleOperator :=
  match RuleSelector rule, ToleranceText rule with
  | Some sel, Some tolerance =>
      if (Expected rule == []) || present (Minimum rule) || present (Maximum rule) ||
         present (RuleEvidenceType rule) || present (RuleSourceID rule) || present (MinimumCount rule) ||
         hasSequenceFields rule
      then Err ErrInvalidPolicyDocument else
      match UnmarshalNumber (Expected rule) with
      | None => Err ErrInvalidPolicyDocument
      | Some expected =>
          let! o := NewToleranceOperator (RuleID rule) (selector sel) expected tolerance in
          Ok (operator (toleranceRuleID o) (ToleranceEvaluate o))
      end
  | _, _ => Err ErrInvalidPolicyDocument
  end.

Definition compileExistence (rule : policyRuleV1) : outcome Error rules.RuleOperator :=
  match RuleEvidenceType rule, MinimumCount rule with
  | Some evidenceType, Some count =>
      if present (RuleSelector rule) || (Expected rule != []) || hasNumericFieldsExceptMinimumCount rule ||
         hasSequenceFields rule
      then Err ErrInvalidPolicyDocument else
      let! o := NewExistenceOperator (RuleID rule) evidenceType (default "" (RuleSourceID rule)) count in
      Ok (operator (existenceRuleID o) (ExistenceEvaluate o))
  | _, _ => Err ErrInvalidPolicyDocument
  end.

Definition compileSequence (rule : policyRuleV1) : outcome Error rules.RuleOperator :=
  if (length (items (Steps rule)) <? 2)%nat || present (RuleSelector rule) || (Expected rule != []) ||
     hasNumericFields rule || present (RuleEvidenceType rule) || present (RuleSourceID rule)
  then Err ErrInvalidPolicyDocument else
  let! steps := compileSteps (items (Steps rule)) in
  let! maxGap := duration (MaxGap rule) in
  let! maxDuration := duration (MaxDuration rule) in
  let! o := NewSequenceOperator (RuleID rule) steps maxGap maxDuration in
  Ok (operator (sequenceRuleID o) (SequenceEvaluate o)).

Definition operatorName (rule : policyRuleV1) : string := ToUpper (TrimSpace (OperatorName rule)).

Definition compilePolicyRule (rule : policyRuleV1) : outcome Error rules.RuleOperator :=
  let rule := rule <| RuleID := TrimSpace (RuleID rule) |> in
  if operatorName rule == "MATCH" then compileMatch rule
  else if operatorName rule == "RANGE" then compileRange rule
  else if operatorName rule == "TOLERANCE" then compileTolerance rule
  else if operatorName rule == "EXISTENCE" then compileExistence rule
  else if operatorName rule == "SEQUENCE" then compileSequence rule
  else Err ErrUnsupportedOperator.

(** The loop of [CompileRule]: the rule of that identity, after all the
    identities have been looked at. *)
Fixpoint selectRule (ruleID : string) (seen : gset string) (selected : option policyRuleV1)
    (l : list policyRuleV1) : outcome Error (option policyRuleV1) :=
  match l with
  | [] => Ok selected
  | rule :: l =>
      let id := TrimSpace (RuleID rule) in
      if id == "" then Err ErrInvalidPolicyDocument else
      if bool_decide (id ∈ seen) then Err ErrDuplicatePolicyRule else
      selectRule ruleID ({[id]} ∪ seen) (if id == ruleID then Some rule else selected) l
  end.

Definition CompileRule (version : option policy.Version) (ruleID : string)
    : outcome Error rules.RuleOperator :=
  let! document := decodePolicyDocument version in
  let ruleID := TrimSpace ruleID in
  if ruleID == "" then Err ErrRuleIDRequired else
  if items (Rules document) == [] then Err ErrInvalidPolicyDocument else
  let! selected := selectRule ruleID ∅ None (items (Rules document)) in
  match selected with
  | None => Err ErrPolicyRuleNotFound
  | Some rule => compilePolicyRule rule
  end.

(** ** Validation *)

Definition validateEvidenceQualificationScope (evidenceType : evidence.Type_) (sourceID : string)
    (q : evidence.QualificationPolicy) : option Error :=
  let evidenceType := TrimSpace evidenceType in
  let sourceID := TrimSpace sourceID in
  if (evidence.AllowedTypes q != ∅) && negb (default false (evidence.AllowedTypes q !! evidenceType))
  then Some ErrRuleOutsideQualificationScope else
  if (sourceID != "") && (evidence.TrustedSources q != ∅) &&
     negb (default false (evidence.TrustedSources q !! sourceID))
  then Some ErrRuleOutsideQualificationScope else
  None.

Definition validateSelectorQualificationScope (s : selectorV1) (q : evidence.QualificationPolicy)
    : option Error :=
  validateEvidenceQualificationScope (sEvidenceType s) (sSourceID s) q.

Fixpoint validateSteps (l : list sequenceStepV1) (q : evidence.QualificationPolicy) : option Error :=
  match l with
  | [] => None
  | step :: l =>
      match validateSelectorQualificationScope (stSelector step) q with
      | Some err => Some err
      | None => validateSteps l q
      end
  end.

(** The scope of one rule. *)
Definition validateScope (rule : policyRuleV1) (q : evidence.QualificationPolicy) : option Error :=
  if (operatorName rule == "MATCH") || (operatorName rule == "RANGE") || (operatorName rule == "TOLERANCE") then
    match RuleSelector rule with
    | None => Some ErrInvalidPolicyDocument
    | Some s => validateSelectorQualificationScope s q
    end
  else if operatorName rule == "EXISTENCE" then
    match RuleEvidenceType rule with
    | None => Some ErrInvalidPolicyDocument
    | Some ty => validateEvidenceQualificationScope ty (default "" (RuleSourceID rule)) q
    end
  else if operatorName rule == "SEQUENCE" then validateSteps (items (Steps rule)) q
  else Some ErrUnsupportedOperator.

(** The first rule of that identity is validated. *)
Definition validateRuleQualificationScope (l : list policyRuleV1) (ruleID : string)
    (q : evidence.QualificationPolicy) : option Error :=
  match List.find (fun rule => TrimSpace (RuleID rule) == ruleID) l with
  | None => Some ErrPolicyRuleNotFound
  | Some rule => validateScope rule q
  end.

(** The loop over the required rules. *)
Fixpoint validateRules (version : policy.Version) (document : policyDocumentV1)
    (q : evidence.QualificationPolicy) (ruleIDs : list string) : option Error :=
  match ruleIDs with
  | [] => None
  | ruleID :: ruleIDs =>
      match CompileRule (Some version) ruleID with
      | Err err => Some err
      | Ok _ =>
          match validateRuleQualificationScope (items (Rules document)) ruleID q with
          | Some err => Some err
          | None => validateRules version document q ruleIDs
          end
      end
  end.

Definition ValidatePolicyDocument (version : option policy.Version) : option Error :=
  match version with
  | None => Some ErrInvalidPolicyDocument
  | Some v =>
      match CompileQualificationPolicy version with
      | Err err => Some err
      | Ok q =>
          match decodePolicyDocument version with
          | Err err => Some err
          | Ok document => validateRules v document q (policy.RequiredRuleIDs (policy.VersionSnapshot v))
          end
      end
  end.

(** ** The interfaces the compiler implements *)

(** The text of an error. *)
Definition message (err : Error) : string :=
  match err with
  | ErrRuleIDRequired => "ruleoperator: rule ID is required"
  | ErrEvidenceTypeRequired => "ruleoperator: evidence type is required"
  | ErrInvalidJSONPointer => "ruleoperator: invalid JSON pointer"
  | ErrInvalidExpectedValue => "ruleoperator: expected value must be one JSON value"
  | ErrInvalidNumericValue => "ruleoperator: invalid decimal value"
  | ErrInvalidRange => "ruleoperator: minimum exceeds maximum"
  | ErrInvalidTolerance => "ruleoperator: tolerance must not be negative"
  | ErrMinimumCountRequired => "ruleoperator: minimum evidence count must be greater than zero"
  | ErrSequenceStepsRequired => "ruleoperator: sequence requires at least two steps"
  | ErrInvalidSequenceWindow => "ruleoperator: sequence windows must not be negative"
  | ErrUnsupportedPolicySchema => "ruleoperator: unsupported policy document schema"
  | ErrInvalidPolicyDocument => "ruleoperator: invalid policy document"
  | ErrPolicyRuleNotFound => "ruleoperator: policy rule not found"
  | ErrDuplicatePolicyRule => "ruleoperator: duplicate policy rule"
  | ErrUnsupportedOperator => "ruleoperator: unsupported operator"
  | ErrRuleOutsideQualificationScope => "ruleoperator: rule evidence is outside qualification scope"
  end.

Definition ruleCompiler : rules.PolicyRuleCompiler := fun version ruleID =>
  omap_err message (let! op := CompileRule (Some version) ruleID in Ok (Some op)).

Definition qualificationCompiler : rules.PolicyQualificationCompiler := fun version =>
  omap_err message (CompileQualificationPolicy (Some version)).

Definition documentValidator (version : policy.Version) : option policy.Error :=
  match ValidatePolicyDocument (Some version) with
  | None => None
  | Some _ => Some policy.ErrDocumentRejected
  end.
End compiler.

End compiler.
