(* ===== verification/PolicyCompilation.v ===== *)
(** * What a compiled policy document guarantees

    A rule compiles into one of the operators of the package, under its own
    identity; a document that validates compiles every required rule, within the
    scope of its qualification policy. *)

From Stdlib Require Import Ascii String QArith.
From S2P Require Import Prelude GoTime GoString Uuid GoJson GoParse GoFloat GoJsonDecode.
From S2P Require Import Evidence EvidenceObjects EvidenceSets Evaluation EvaluationLifecycle.
From S2P Require Import Policy PolicyRegistry.
From S2P Require Import Pds PdsRules PdsExecution RuleOperators RuleDecisions PolicyCompiler.
Import ruleoperator compiler.
Open Scope Z_scope.

(** ** Decoded rules *)

(** What decoding into a variable retains. *)
Definition retains {T} (P : T -> Prop) (dec : decoder T) : Prop :=
  forall v t t', P t -> dec v t = Some t' -> P t'.

Lemma field_of_in {T} (fields : list (string * decoder T)) key dec :
  field_of fields key = Some dec -> exists name, (name, dec) ∈ fields.
Proof.
  unfold field_of. intros ([name dec'] & Hf & ->)%fmap_Some. apply find_some in Hf as [Hin _].
  exists name. by apply list_elem_of_In.
Qed.

Lemma decode_struct_retains {T} (P : T -> Prop) fields :
  Forall (fun f => retains P (snd f)) fields -> retains P (decode_struct fields).
Proof.
  intros Hf v t t' Ht. destruct v as [| | | | |members]; try done; cbn [decode_struct]; [by intros [= <-]|].
  revert t Ht. induction members as [|[key v] members IH]; intros t Ht; cbn [decode_members]; [by intros [= <-]|].
  destruct (field_of fields key) as [dec|] eqn:Hd; [|done]. apply field_of_in in Hd as [name Hd].
  destruct (dec v t) as [t1|] eqn:H1; [|done]. apply IH. rewrite Forall_forall in Hf. by eapply (Hf _ Hd).
Qed.

Lemma into_retains {T A} (P : T -> Prop) (Q : A -> Prop) get set dec :
  (forall t, P t -> Q (get t)) -> (forall a t, Q a -> P t -> P (set a t)) -> retains Q dec ->
  retains P (into get set dec).
Proof.
  intros Hg Hs Hd v t t' Ht. unfold into. destruct (dec v (get t)) as [a|] eqn:Ha; [|done].
  intros [= <-]. apply Hs; [|done]. by eapply Hd; [apply Hg|].
Qed.

Lemma decode_slice_retains {A} (P : A -> Prop) zero dec :
  P zero -> retains P dec -> retains (fun s => Forall P (items s) /\ Forall P (spare s)) (decode_slice zero dec).
Proof.
  intros Hz Hd v s s' [Hi Hsp]. destruct v as [| | | |l|]; try done; cbn [decode_slice]; [by intros [= <-]|].
  destruct l as [|v l]; [by intros [= <-]|].
  assert (Forall P (items s ++ spare s)) as Ha by by apply Forall_app.
  destruct (decode_elements zero dec (v :: l) _) as [r|] eqn:Hr; [|done]. intros [= <-]. cbn [items spare].
  split; [|by apply Forall_drop]. revert Hr Ha. generalize (v :: l) (items s ++ spare s). clear - Hz Hd.
  intros l. revert r. induction l as [|v l IH]; intros r array; cbn [decode_elements]; [by intros [= <-]|].
  destruct (dec v _) as [a|] eqn:Hv; [|done]. destruct (decode_elements _ _ l _) as [r'|] eqn:Hr; [|done].
  intros [= <-] Ha. constructor.
  - eapply Hd; [|exact Hv]. by destruct Ha.
  - eapply IH; [exact Hr|]. by destruct Ha.
Qed.

(** A minimum count has 32 bits. *)
Definition rule_ok (r : policyRuleV1) : Prop := forall n, MinimumCount r = Some n -> is_u32 n.

Lemma digits_value_nonneg b : forallb is_digit b = true -> 0 <= digits_value b.
Proof.
  unfold digits_value. assert (forall n, 0 <= n -> forallb is_digit b = true ->
    0 <= fold_left (fun n c => n * 10 + (Z.of_N (json.code c) - 48)) b n) as H; [|by intros Hb; apply H].
  induction b as [|c b IH]; intros n Hn Hb; cbn [fold_left]; [done|].
  cbn [forallb] in Hb. apply andb_prop in Hb as [Hc Hb]. apply IH; [|done].
  unfold is_digit, byte_in, json.code in *. lia.
Qed.

Lemma decode_count_range v old n :
  (forall n, old = Some n -> is_u32 n) -> decode_pointer 0 decode_uint32 v old = Some (Some n) -> is_u32 n.
Proof.
  intros Hold. destruct v as [| |literal| | |]; try done. unfold decode_pointer, decode_uint32, ParseUint.
  destruct (_ || _) eqn:E1; [done|]. destruct (_ <? u64_modulus); [|done].
  destruct (_ <? u32_modulus) eqn:E2; [|done]. intros [= <-].
  apply orb_false_iff in E1 as [_ E1%negb_false_iff]. apply digits_value_nonneg in E1. unfold is_u32. lia.
Qed.

Lemma decode_rule_retains : retains rule_ok decode_rule.
Proof.
  apply decode_struct_retains.
  repeat apply Forall_cons_2; [..|by apply Forall_nil_2]; cbn [snd];
    try (eapply (into_retains _ (fun _ => True)); [done|by intros a r _ Hr|done]).
  apply (into_retains _ (fun count => forall n, count = Some n -> is_u32 n)); [by intros r Hr|by intros a r Ha _|].
  intros v old [n|] Hold H k; [intros [= <-]; by eapply decode_count_range|done].
Qed.

Lemma decoded_rules version document :
  decodePolicyDocument version = Ok document -> Forall rule_ok (items (Rules document)).
Proof.
  unfold decodePolicyDocument. destruct version as [v|]; [|done]. destruct (_ != _); [done|].
  unfold decodeStrict. destruct (json.decodeOne _) as [x|]; [|done].
  destruct (decode_document x _) as [d|] eqn:Hd; [|done]. intros [= <-].
  assert (retains (fun d => Forall rule_ok (items (Rules d)) /\ Forall rule_ok (spare (Rules d))) decode_document) as Hk.
  { apply decode_struct_retains. repeat apply Forall_cons_2; [..|by apply Forall_nil_2]; cbn [snd].
    - by eapply (into_retains _ (fun _ => True)).
    - eapply (into_retains _ (fun s => Forall rule_ok (items s) /\ Forall rule_ok (spare s))); [done|done|].
      apply decode_slice_retains; [done|apply decode_rule_retains]. }
  eapply Hk; [|exact Hd]. split; constructor.
Qed.

(** ** Compiled rules *)

(** An operator of the package that decides the rule [ruleID]. *)
Definition decides (ruleID : string) (op : rules.RuleOperator) : Prop :=
  exists o, constructed o /\ op = operator ruleID (evaluate o).

Lemma normalizeRuleID_ok id id' : normalizeRuleID id = Ok id' -> id' = TrimSpace id.
Proof. unfold normalizeRuleID. by destruct (_ == _); intros [= <-]. Qed.

(** The rule identity of what a constructor returns. *)
Ltac rule_identity H :=
  let id := fresh "id" in let Hid := fresh "Hid" in
  apply obind_ok in H as (id & Hid%normalizeRuleID_ok & H);
  repeat match type of H with
    | obind _ _ = Ok _ => let x := fresh "x" in let Hx := fresh "Hx" in apply obind_ok in H as (x & Hx & H)
    | context [match ?x with _ => _ end] => destruct x; try discriminate H
    end;
  injection H as <-; exact Hid.

Lemma match_identity ruleID sel text o : NewMatchOperator ruleID sel text = Ok o -> matchRuleID o = TrimSpace ruleID.
Proof. unfold NewMatchOperator. intros H. rule_identity H. Qed.

Lemma range_identity ruleID sel a b o : NewRangeOperator ruleID sel a b = Ok o -> rangeRuleID o = TrimSpace ruleID.
Proof. unfold NewRangeOperator. intros H. rule_identity H. Qed.

Lemma tolerance_identity ruleID sel a b o :
  NewToleranceOperator ruleID sel a b = Ok o -> toleranceRuleID o = TrimSpace ruleID.
Proof. unfold NewToleranceOperator. intros H. rule_identity H. Qed.

Lemma existence_identity ruleID ty source n o :
  NewExistenceOperator ruleID ty source n = Ok o -> existenceRuleID o = TrimSpace ruleID.
Proof. unfold NewExistenceOperator. intros H. rule_identity H. Qed.

Lemma sequence_identity ruleID l a b o :
  NewSequenceOperator ruleID l a b = Ok o -> sequenceRuleID o = TrimSpace ruleID.
Proof. unfold NewSequenceOperator. intros H. rule_identity H. Qed.

(** ** The evidence a rule looks at *)

(** The types and sources that an operator selects. *)
Definition selected (s : Selector) : evidence.Type_ * string := (EvidenceType s, SourceID s).

Definition operator_scope (o : Operator) : list (evidence.Type_ * string) :=
  match o with
  | Existence o => [selected (existenceSelector o)]
  | Range o => [selected (rangeSelector o)]
  | Tolerance o => [selected (toleranceSelector o)]
  | Match o => [selected (matchSelector o)]
  | Sequence o => (fun step => selected (StepSelector step)) <$> steps o
  end.

Lemma normalizeSelector_selected s s' :
  normalizeSelector s = Ok s' -> selected s' = (EvidenceType s, TrimSpace (SourceID s)).
Proof.
  unfold normalizeSelector. destruct (_ == _); [done|]. destruct (_ && _); [done|].
  destruct (negb _); [done|]. by intros [= <-].
Qed.

(** What the qualification policy admits: a type that it lists where it lists any,
    and of a source that is named, one that it trusts where it names any. *)
Definition in_scope (q : evidence.QualificationPolicy) (x : evidence.Type_ * string) : Prop :=
  (evidence.AllowedTypes q = ∅ \/ evidence.AllowedTypes q !! TrimSpace x.1 = Some true) /\
  (TrimSpace x.2 = "" \/ evidence.TrustedSources q = ∅ \/ evidence.TrustedSources q !! TrimSpace x.2 = Some true).

Lemma listed_default (o : option bool) : default false o = true <-> o = Some true.
Proof. destruct o as [[]|]; cbn; split; congruence. Qed.

Lemma in_scope_iff q ty source : validateEvidenceQualificationScope ty source q = None <-> in_scope q (ty, source).
Proof.
  unfold in_scope, validateEvidenceQualificationScope. cbn [fst snd]. rewrite <- !listed_default.
  repeat case_bool_decide; cbn [negb andb]; repeat destruct (default false _); cbn [negb]; naive_solver.
Qed.

Lemma in_scope_selected q s s' :
  normalizeSelector s = Ok s' -> validateEvidenceQualificationScope (EvidenceType s) (SourceID s) q = None ->
  in_scope q (selected s').
Proof.
  intros ->%normalizeSelector_selected Hv. apply in_scope_iff. rewrite <- Hv.
  unfold validateEvidenceQualificationScope. by rewrite TrimSpace_idemp.
Qed.

(** What the constructors keep of the selectors. *)
Ltac constructor_scope H :=
  unfold NewMatchOperator, NewRangeOperator, NewToleranceOperator, NewExistenceOperator,
    NewSequenceOperator in H;
  repeat match type of H with
    | obind _ _ = Ok _ => let x := fresh "x" in let Hx := fresh "Hx" in apply obind_ok in H as (x & Hx & H)
    | context [match ?x with _ => _ end] => destruct x; try discriminate H
    end;
  injection H as <-.

(** The selector that a constructor keeps. *)
Ltac constructor_selects H :=
  constructor_scope H;
  match goal with Hs : normalizeSelector _ = Ok _ |- _ =>
    exact (f_equal (fun x => [x]) (normalizeSelector_selected _ _ Hs))
  end.

Lemma normalizeSteps_scope q l : forall l' out,
  compileSteps l = Ok l' -> normalizeSteps l' = Ok out -> validateSteps l q = None ->
  Forall (fun step => in_scope q (selected (StepSelector step))) out.
Proof.
  induction l as [|step l IH]; intros l' out; cbn [compileSteps validateSteps]; [by intros [= <-] [= <-]|].
  destruct (stExpected step == []); [done|]. intros (l1 & Hl1 & [= <-])%obind_ok. cbn [normalizeSteps StepSelector].
  intros (s & Hs & H)%obind_ok. destruct (decodeJSON _); [|done]. apply obind_ok in H as (out1 & Hout & [= <-]).
  destruct (validateSelectorQualificationScope _ q) eqn:Hv; [done|]. intros Hrest. constructor; [|by eapply IH].
  by eapply in_scope_selected; [exact Hs|].
Qed.

(** The evidence that a rule of the document names: its type, and its source or
    none. *)
Definition names_selector (s : selectorV1) : evidence.Type_ * string := (sEvidenceType s, TrimSpace (sSourceID s)).

Definition names_evidence (rule : policyRuleV1) : list (evidence.Type_ * string) :=
  match RuleSelector rule, RuleEvidenceType rule with
  | Some s, _ => [names_selector s]
  | None, Some ty => [(ty, TrimSpace (default "" (RuleSourceID rule)))]
  | None, None => (fun step => names_selector (stSelector step)) <$> items (Steps rule)
  end.

Lemma compiled_selector s s' : normalizeSelector (selector s) = Ok s' -> selected s' = names_selector s.
Proof. by intros ->%normalizeSelector_selected. Qed.

Lemma normalizeSteps_selected l : forall l' out,
  compileSteps l = Ok l' -> normalizeSteps l' = Ok out ->
  (fun step => selected (StepSelector step)) <$> out = (fun step => names_selector (stSelector step)) <$> l.
Proof.
  induction l as [|step l IH]; intros l' out; cbn [compileSteps]; [by intros [= <-] [= <-]|].
  destruct (stExpected step == []); [done|]. intros (l1 & Hl1 & [= <-])%obind_ok. cbn [normalizeSteps StepSelector].
  intros (s & Hs & H)%obind_ok. destruct (decodeJSON _); [|done]. apply obind_ok in H as (out1 & Hout & [= <-]).
  rewrite !fmap_cons. cbn [StepSelector]. by rewrite (compiled_selector _ _ Hs), (IH _ _ Hl1 Hout).
Qed.

Lemma present_none {A} (x : option A) : present x = false -> x = None.
Proof. by destruct x. Qed.

(** ** Compiling a rule *)

Lemma compilePolicyRule_operator rule op :
  rule_ok rule -> compilePolicyRule rule = Ok op ->
  exists o, constructed o /\ op = operator (TrimSpace (RuleID rule)) (evaluate o) /\
    operator_scope o = names_evidence rule /\
    forall q, validateScope rule q = None -> Forall (in_scope q) (operator_scope o).
Proof.
  intros Hrule. unfold compilePolicyRule. set (r := rule <| RuleID := _ |>).
  assert (TrimSpace (RuleID r) = TrimSpace (RuleID rule)) as Hid by apply TrimSpace_idemp.
  rewrite <- Hid. assert (rule_ok r) as Hr by exact Hrule.
  change (validateScope rule) with (validateScope r). change (names_evidence rule) with (names_evidence r). clearbody r. clear Hid Hrule rule.
  unfold compileMatch, compileRange, compileTolerance, compileExistence, compileSequence, validateScope, names_evidence.
  intros H. destruct (operatorName r == "MATCH"); cbn [orb]; [|destruct (operatorName r == "RANGE"); cbn [orb];
    [|destruct (operatorName r == "TOLERANCE"); [|destruct (operatorName r == "EXISTENCE");
    [|destruct (operatorName r == "SEQUENCE"); [|done]]]]].
  - destruct (RuleSelector r) as [s|]; [|done]. destruct (_ || _); [done|]. apply obind_ok in H as (o & Ho & [= <-]).
    exists (Match o). split_and!; [by eapply new_match|by rewrite <- (match_identity _ _ _ _ Ho)|constructor_selects Ho|].
    intros q Hq. constructor_scope Ho. apply Forall_singleton. by eapply in_scope_selected.
  - destruct (RuleSelector r) as [s|]; [|done]. destruct (Minimum r) as [a|]; [|done].
    destruct (Maximum r) as [b|]; [|done]. destruct (_ || _); [done|]. apply obind_ok in H as (o & Ho & [= <-]).
    exists (Range o). split_and!; [by eapply new_range|by rewrite <- (range_identity _ _ _ _ _ Ho)|constructor_selects Ho|].
    intros q Hq. constructor_scope Ho. apply Forall_singleton. by eapply in_scope_selected.
  - destruct (RuleSelector r) as [s|]; [|done]. destruct (ToleranceText r) as [t|]; [|done].
    destruct (_ || _); [done|]. destruct (UnmarshalNumber _) as [x|]; [|done].
    apply obind_ok in H as (o & Ho & [= <-]).
    exists (Tolerance o). split_and!; [by eapply new_tolerance|by rewrite <- (tolerance_identity _ _ _ _ _ Ho)|constructor_selects Ho|].
    intros q Hq. constructor_scope Ho. apply Forall_singleton. by eapply in_scope_selected.
  - destruct (RuleEvidenceType r) as [ty|]; [|done]. destruct (MinimumCount r) as [n|] eqn:Hn; [|done].
    destruct (_ || _) eqn:Hg; [done|]. rewrite !orb_false_iff in Hg. destruct Hg as [[[->%present_none _] _] _].
    apply obind_ok in H as (o & Ho & [= <-]). exists (Existence o).
    split_and!; [by eapply new_existence; [apply Hr|]|by rewrite <- (existence_identity _ _ _ _ _ Ho)|constructor_selects Ho|].
    intros q Hq. constructor_scope Ho. apply Forall_singleton.
    match goal with H : normalizeSelector _ = Ok _ |- _ => by apply (in_scope_selected q _ _ H) end.
  - destruct (_ || _) eqn:Hg; [done|]. rewrite !orb_false_iff in Hg. destruct Hg as [[[[[_ ->%present_none] _] _] ->%present_none] _].
    apply obind_ok in H as (l & Hl & H). apply obind_ok in H as (gap & _ & H).
    apply obind_ok in H as (window & _ & H). apply obind_ok in H as (o & Ho & [= <-]). exists (Sequence o).
    split_and!; [by eapply new_sequence|by rewrite <- (sequence_identity _ _ _ _ _ Ho)| |].
    { constructor_scope Ho. cbn [operator_scope steps]. by eapply normalizeSteps_selected. }
    intros q Hq. constructor_scope Ho. cbn [operator_scope steps]. apply Forall_fmap. by eapply normalizeSteps_scope.
Qed.

Lemma compilePolicyRule_ok rule op :
  rule_ok rule -> compilePolicyRule rule = Ok op -> decides (TrimSpace (RuleID rule)) op.
Proof. intros Hr (o & Hc & Ho & _)%compilePolicyRule_operator; [|done]. by exists o. Qed.

(** The rules of a document whose identities are distinct. *)
Definition identities (l : list policyRuleV1) : list string := (fun r => TrimSpace (RuleID r)) <$> l.

Lemma selectRule_spec ruleID l : forall seen selected out,
  selectRule ruleID seen selected l = Ok out ->
  NoDup (identities l) /\ (forall id, id ∈ identities l -> id ∉ seen /\ id <> "") /\
  out = match List.find (fun r => TrimSpace (RuleID r) == ruleID) l with
        | Some rule => Some rule
        | None => selected
        end.
Proof.
  induction l as [|r l IH]; intros seen selected out; cbn [selectRule].
  { intros [= <-]. split_and!; [constructor|by intros id Hid%elem_of_nil|done]. }
  destruct (TrimSpace (RuleID r) == "") eqn:H1; [done|]. apply bool_decide_eq_false in H1.
  case_bool_decide as H2; [done|]. intros (Hn & Hs & ->)%IH.
  unfold identities in *. rewrite fmap_cons. split_and!.
  - constructor; [|done]. intros Hin. destruct (Hs _ Hin) as [Hx _]. set_solver.
  - intros id [->|Hid]%elem_of_cons; [done|]. destruct (Hs _ Hid) as [Hx Hy]. split; [set_solver|done].
  - cbn [List.find]. destruct (TrimSpace (RuleID r) == ruleID) eqn:H3; [|done].
    apply bool_decide_eq_true in H3 as <-. destruct (List.find _ l) as [r'|] eqn:Hf; [|done].
    apply find_some in Hf as [Hin Heq%bool_decide_eq_true]. exfalso.
    destruct (Hs (TrimSpace (RuleID r))) as [Hx _]; [|set_solver].
    rewrite <- Heq. apply list_elem_of_fmap. exists r'. split; [done|]. by apply list_elem_of_In.
Qed.

Lemma CompileRule_ok version ruleID op :
  CompileRule version ruleID = Ok op ->
  exists document rule, decodePolicyDocument version = Ok document /\
    List.find (fun r => TrimSpace (RuleID r) == TrimSpace ruleID) (items (Rules document)) = Some rule /\
    NoDup (identities (items (Rules document))) /\ rule_ok rule /\ compilePolicyRule rule = Ok op.
Proof.
  unfold CompileRule. intros (document & Hd & H)%obind_ok. destruct (TrimSpace ruleID == ""); [done|].
  destruct (_ == []); [done|]. apply obind_ok in H as (selected & Hs & H).
  apply selectRule_spec in Hs as (Hn & _ & Hf). destruct (List.find _ _) as [rule|] eqn:Hfind; subst; [|done].
  pose proof (decoded_rules _ _ Hd) as Hok. rewrite Forall_forall in Hok.
  exists document, rule. split_and!; try done. apply Hok. apply find_some in Hfind as [Hin _]. by apply list_elem_of_In.
Qed.

(** What a compiled rule is: an operator of the package, accepted by its own
    constructor, under the identity that was asked for, compiled from the only
    rule of the document that has this identity. *)
Theorem compiled_rule_is_the_documents version ruleID op :
  CompileRule version ruleID = Ok op ->
  decides (TrimSpace ruleID) op /\
  exists document rule, decodePolicyDocument version = Ok document /\ rule ∈ items (Rules document) /\
    TrimSpace (RuleID rule) = TrimSpace ruleID /\ NoDup (identities (items (Rules document))) /\
    compilePolicyRule rule = Ok op.
Proof.
  intros (document & rule & Hd & Hfind & Hn & Hok & H)%CompileRule_ok.
  apply find_some in Hfind as [Hin%list_elem_of_In Hid%bool_decide_eq_true].
  split; [|by exists document, rule]. rewrite <- Hid. by apply compilePolicyRule_ok.
Qed.

(** ** Validated documents *)

Lemma validateRules_none v document q ids :
  validateRules v document q ids = None -> forall id, id ∈ ids ->
  (exists op, CompileRule (Some v) id = Ok op) /\
  validateRuleQualificationScope (items (Rules document)) id q = None.
Proof.
  induction ids as [|id ids IH]; cbn [validateRules]; [by intros _ id Hid%elem_of_nil|].
  destruct (CompileRule (Some v) id) as [op|] eqn:Hop; [|done].
  destruct (validateRuleQualificationScope _ id q) eqn:Hs; [done|]. intros H x [->|Hx]%elem_of_cons; [eauto|].
  by apply IH.
Qed.

Lemma NewQualifier_range range range' q qualifier :
  evidence.NewQualifier range q = Ok qualifier -> exists qualifier', evidence.NewQualifier range' q = Ok qualifier'.
Proof.
  unfold evidence.NewQualifier. destruct (_ == ""); [done|]. destruct (_ <? 0); [done|].
  destruct (_ <? 0); [done|]. destruct (match evidence.MinimumConfidence q with Some _ => _ | None => _ end); [done|].
  intros _. by eexists.
Qed.

Lemma CompileQualificationPolicy_ok range version q :
  CompileQualificationPolicy range version = Ok q -> exists qualifier, evidence.NewQualifier range q = Ok qualifier.
Proof.
  unfold CompileQualificationPolicy. destruct (decodePolicyDocument version) as [[[input|] rs]|]; [|done..].
  intros H. repeat match type of H with obind _ _ = Ok _ => apply obind_ok in H as (? & _ & H) end.
  destruct (evidence.NewQualifier range _) as [qualifier|] eqn:Hq; [|done]. injection H as <-. by exists qualifier.
Qed.

(** A set that a document lists, without the white space around its members. *)
Definition listed (values : list string) (set : gmap string bool) : Prop :=
  forall x, set !! x = if decide (x ∈ TrimSpace <$> values) then Some true else None.

Lemma stringSet_listed values set : stringSet values = Ok set -> listed values set.
Proof.
  unfold stringSet, listed. intros H x.
  assert (forall values result set, stringSet_loop result values = Ok set ->
    set !! x = if decide (x ∈ TrimSpace <$> values) then Some true else result !! x) as Hl; [|by rewrite (Hl _ _ _ H)].
  clear. induction values as [|value values IH]; intros result set; cbn [stringSet_loop]; [by intros [= <-]|].
  cbv zeta. destruct (_ || _); [done|]. intros ->%IH. rewrite fmap_cons.
  destruct (decide (x ∈ TrimSpace <$> values)) as [Hin|Hn].
  - rewrite decide_True; [done|]. by apply elem_of_cons; right.
  - destruct (decide (x = TrimSpace value)) as [->|Hx].
    + rewrite lookup_insert_eq, decide_True; [done|]. by left.
    + rewrite lookup_insert_ne, decide_False; [done| |done]. by intros [?|?]%elem_of_cons.
Qed.

(** What the qualification policy takes from its document. *)
Definition qualifies (document : policyDocumentV1) (q : evidence.QualificationPolicy) : Prop :=
  exists input, EvidenceQualification document = Some input /\
    listed (items (qTrustedSources input)) (evidence.TrustedSources q) /\
    listed (items (qAllowedTypes input)) (evidence.AllowedTypes q) /\
    listed (items (qAllowedAcquisitionMethods input)) (evidence.AllowedAcquisitionMethods q).

Lemma CompileQualificationPolicy_document range version document q :
  decodePolicyDocument version = Ok document -> CompileQualificationPolicy range version = Ok q -> qualifies document q.
Proof.
  unfold CompileQualificationPolicy. intros ->. destruct document as [[input|] rs]; [|done]. intros H.
  apply obind_ok in H as (? & _ & H). apply obind_ok in H as (? & _ & H).
  apply obind_ok in H as (ts & Hts & H). apply obind_ok in H as (am & Ham & H).
  apply obind_ok in H as (? & _ & H). apply obind_ok in H as (? & _ & H). apply obind_ok in H as (al & Hal & H).
  destruct (evidence.NewQualifier _ _); [|done]. injection H as <-. exists input. cbn.
  split_and!; [done|by apply stringSet_listed..].
Qed.

(** A policy whose document validates can be executed: its qualification policy
    is that of the document and builds a qualifier, and each of its required rules
    is in the document and compiles into an operator that looks for the evidence
    the rule names, all of which the qualification admits. *)
Record executable (range : evidence.Range) (v : policy.Version) (document : policyDocumentV1)
    (q : evidence.QualificationPolicy) : Prop := {
  exe_document : decodePolicyDocument (Some v) = Ok document /\ qualifies document q;
  exe_policy : CompileQualificationPolicy range (Some v) = Ok q;
  exe_qualifier : forall range', exists qualifier, evidence.NewQualifier range' q = Ok qualifier;
  exe_rules : forall ruleID, ruleID ∈ policy.RequiredRuleIDs (policy.VersionSnapshot v) ->
    TrimSpace ruleID = ruleID /\
    exists o rule, constructed o /\ CompileRule (Some v) ruleID = Ok (operator ruleID (evaluate o)) /\
      rule ∈ items (Rules document) /\ TrimSpace (RuleID rule) = ruleID /\
      operator_scope o = names_evidence rule /\ Forall (in_scope q) (names_evidence rule)
}.

Lemma validated_executable range v :
  ValidatePolicyDocument range (Some v) = None -> exists document q, executable range v document q.
Proof.
  unfold ValidatePolicyDocument. destruct (CompileQualificationPolicy range (Some v)) as [q|] eqn:Hq; [|done].
  destruct (decodePolicyDocument (Some v)) as [document|] eqn:Hd; [|done]. intros Hv. exists document, q.
  split; [by split; [|by eapply CompileQualificationPolicy_document]|done|..].
  - destruct (CompileQualificationPolicy_ok _ _ _ Hq) as [qualifier Hn]. intros range'. by eapply NewQualifier_range.
  - intros ruleID Hin. destruct (validateRules_none _ _ _ _ Hv _ Hin) as [[op Hop] Hs].
    pose proof Hop as (document' & rule & Hd' & Hfind & _ & Hok & Hc)%CompileRule_ok.
    rewrite Hd in Hd'. injection Hd' as <-. unfold validateRuleQualificationScope in Hs.
    destruct (List.find (fun r => TrimSpace (RuleID r) == ruleID) _) as [rule'|] eqn:Hfind'; [|done].
    assert (TrimSpace ruleID = ruleID) as Ht.
    { apply find_some in Hfind' as [_ <-%bool_decide_eq_true]. apply TrimSpace_idemp. }
    rewrite Ht in Hfind. rewrite Hfind in Hfind'. injection Hfind' as <-. split; [done|].
    apply compilePolicyRule_operator in Hc as (o & Ho & -> & Hnames & Hscope); [|done].
    apply find_some in Hfind as [Hr Hid%bool_decide_eq_true]. rewrite Hid in Hop.
    exists o, rule. rewrite <- Hnames. split_and!; [done|done|by apply list_elem_of_In|done|done|by apply Hscope].
Qed.


(** ** Types with white space around them *)

Lemma verified_type_trimmed s : verified s -> TrimSpace (evidence.EvidenceType s) = evidence.EvidenceType s.
Proof.
  intros [Hv _ _ _]. apply validateSnapshot_type in Hv. unfold evidence.typePattern in Hv.
  by apply TrimSpace_code, (match_code_chars 0 63).
Qed.

(** The validation of a document trims the types of its rules, but the operators
    compare them as they are written: a padded type is in scope and selects
    nothing. *)
Theorem padded_type_is_in_scope_but_selects_nothing q ty source pointer s :
  TrimSpace ty <> ty -> verified s ->
  validateEvidenceQualificationScope ty source q = validateEvidenceQualificationScope (TrimSpace ty) source q /\
  selectorMatches s (MkSelector ty source pointer) = false.
Proof.
  intros Hty Hs%verified_type_trimmed. split.
  - unfold validateEvidenceQualificationScope. by rewrite TrimSpace_idemp.
  - unfold selectorMatches. cbn [EvidenceType]. rewrite bool_decide_eq_false_2; [done|]. congruence.
Qed.
