(* ===== verification/PolicyExamples.v ===== *)
(** * A policy document on concrete inputs

    One document with a rule of each kind, compiled, and the decisions of its
    operators on the evidence of one pallet. *)

From Stdlib Require Import Ascii String QArith Qabs.
From S2P Require Import Prelude GoTime GoString Uuid GoJson GoParse GoFloat GoJsonDecode.
From S2P Require Import Evidence EvidenceObjects EvidenceSets EvidenceStore.
From S2P Require Import Evaluation EvaluationLifecycle Policy PolicyRegistry PolicyAdmission.
From S2P Require Import Pds PdsRules PdsExecution RuleOperators RuleDecisions PolicyCompiler PolicyCompilation.
Import ruleoperator compiler.
Open Scope Z_scope.

(** ** The document *)

Definition ex_selector : string := "'selector':{'evidence_type':'POSITION','source_id':' CAM-1','json_pointer':".

Definition ex_document : bytes := json.text
  ("{'evidence_qualification':{'version':'q1','trusted_sources':['CAM-1'],'allowed_types':['POSITION'],"
   ++ "'max_age':'1h30m','minimum_confidence':0.25,'required_payload_fields':['z']},'rules':["
   ++ "{'rule_id':'MATCH-Z','operator':'match'," ++ ex_selector ++ "'/z'},'expected':3},"
   ++ "{'rule_id':'RANGE-X','operator':'RANGE'," ++ ex_selector ++ "'/x'},'minimum':'1','maximum':'1.5e0'},"
   ++ "{'rule_id':'NEAR-X','operator':'TOLERANCE'," ++ ex_selector ++ "'/x'},'expected':1.45,'tolerance':'0.1'},"
   ++ "{'rule_id':'SEEN','operator':'EXISTENCE','evidence_type':'POSITION','minimum_count':1},"
   ++ "{'rule_id':'ORDER','OPERATOR':'SEQUENCE','max_gap':'1m','steps':["
   ++ "{" ++ ex_selector ++ "'/z'},'expected':3},{" ++ ex_selector ++ "'/x'},'expected':1.50}]}]}").

Definition ex_rules : list string := ["MATCH-Z"; "RANGE-X"; "NEAR-X"; "SEEN"].

Definition ex_policy_input (rules : list string) (document : bytes) : policy.Input :=
  policy.MkInput "RELEASE" "3.0" "policy.document.v1" (utc_seconds 100) None rules document.

Definition ex_new_version (rules : list string) (document : bytes) : policy.Version :=
  match policy.NewVersion (ex_policy_input rules document) with
  | Ok v => v
  | Err _ => ex_v1
  end.

Definition ex_v3 := Eval vm_compute in ex_new_version ex_rules ex_document.
Definition ex_ordered := Eval vm_compute in ex_new_version ["ORDER"] ex_document.

(** The compiled operator of a rule. *)
Definition ex_op (ruleID : string) : rules.RuleOperator :=
  match CompileRule (Some ex_v3) ruleID with
  | Ok op => op
  | Err _ => rules.MkRuleOperator "" (fun _ => None)
  end.

Definition ex_rule_input (l : list evidence.Snapshot) : rules.RuleInput :=
  rules.MkRuleInput (uuid_of 50) (uuid_of 200) "RELEASE" "3.0" "" l.

(** A match, a range and a sequence decided on the reports: [ex_s1] at 900
    seconds has x 1.50 and z 3, [ex_s3] repeats it at 950 seconds. *)
Example ex_decisions :
  rules.Evaluate (ex_op "MATCH-Z") (ex_rule_input [ex_s1]) = Some pass /\
  rules.Evaluate (ex_op "RANGE-X") (ex_rule_input [ex_s1]) = Some pass /\
  rules.Evaluate (ex_op "NEAR-X") (ex_rule_input [ex_s1]) = Some pass /\
  rules.Evaluate (ex_op "NEAR-X") (ex_rule_input [ex_s2]) = Some (fail reasonOutsideTolerance) /\
  rules.Evaluate (ex_op "SEEN") (ex_rule_input []) = Some (fail reasonEvidenceCountBelowMinimum) /\
  rules.Evaluate (ex_op "RANGE-X") (ex_rule_input [ex_s1; ex_s3]) = Some (inconclusive reasonEvidenceAmbiguous) /\
  rules.Evaluate (ex_op "ORDER") (ex_rule_input [ex_s3; ex_s1]) = Some pass /\
  rules.Evaluate (ex_op "ORDER") (ex_rule_input [ex_s1]) = Some (fail reasonSequenceOrderInvalid).
Proof. split_and!; vm_compute; reflexivity. Qed.

Example ex_validates : ValidatePolicyDocument ex_range (Some ex_v3) = None.
Proof. vm_compute. reflexivity. Qed.

(** ** Witnesses *)

Lemma compiled_rule_is_the_documents_witness : decides "RANGE-X" (ex_op " RANGE-X ").
Proof.
  apply (compiled_rule_is_the_documents (Some ex_v3) " RANGE-X " (ex_op " RANGE-X ")).
  unfold ex_op. destruct (CompileRule (Some ex_v3) " RANGE-X ") as [op|err] eqn:E; [reflexivity|].
  exfalso. assert (is_ok (CompileRule (Some ex_v3) " RANGE-X ") = true) as H by (vm_compute; reflexivity).
  rewrite E in H. discriminate H.
Defined.


Lemma pointer_selects_path_witness :
  normalizeSelector (MkSelector "POSITION" " CAM-1" (pointerOf [bytes_of "x"])) =
    Ok (MkSelector "POSITION" "CAM-1" "/x") /\
  exists payload, decodeJSON (evidence.Payload ex_s1) = Some payload /\
    valueAtSnapshot ex_s1 (pointerOf [bytes_of "x"]) =
      match valueAt payload [bytes_of "x"] with
      | Some value => Ok value
      | None => Err reasonFieldNotFound
      end.
Proof.
  apply (pointer_selects_path "POSITION" " CAM-1" [bytes_of "x"] ex_s1).
  - vm_compute. discriminate.
  - vm_compute. reflexivity.
  - vm_compute. eexists. reflexivity.
Defined.

Definition ex_match : MatchOperator := MkMatch "R" (MkSelector "POSITION" "" "/z") (bytes_of "3").

Lemma match_is_equality_witness :
  exists value, decodeJSON (bytes_of " 3 ") = Some value /\
  (MatchEvaluate ex_match (ex_rule_input [ex_s1]) = pass <-> selects (ex_rule_input [ex_s1]) (matchSelector ex_match) value).
Proof.
  destruct (match_is_equality "R" (MkSelector "POSITION" "" "/z") (bytes_of " 3 ") ex_match (ex_rule_input [ex_s1]))
    as (value & Hv & Hp & _); [vm_compute; reflexivity|]. exact (ex_intro _ value (conj Hv Hp)).
Defined.

Definition ex_existence : ExistenceOperator := MkExistence "R" "POSITION" "" 2.

Lemma existence_counts_witness :
  ExistenceEvaluate ex_existence (ex_rule_input [ex_s1; ex_s2]) = pass.
Proof.
  pose proof (existence_counts ex_existence (ex_rule_input [ex_s1; ex_s2])) as H.
  cbn [rules.Evidence ex_rule_input length] in H. rewrite H by (unfold u32_modulus; lia). vm_compute. reflexivity.
Defined.

Lemma decisions_ignore_order_witness :
  evaluate (Existence ex_existence) (with_evidence (ex_rule_input [ex_s1; ex_s2]) [ex_s2; ex_s1]) =
  evaluate (Existence ex_existence) (ex_rule_input [ex_s1; ex_s2]).
Proof.
  apply (decisions_ignore_order (Existence ex_existence) (ex_rule_input [ex_s1; ex_s2]) [ex_s2; ex_s1]).
  - apply perm_swap.
  - refine (bool_decide_eq_true_1 _ _). vm_compute. reflexivity.
  - repeat apply Forall_cons_2; (reflexivity || apply Forall_nil_2).
Defined.

Lemma decisions_are_recordable_witness :
  evaluation.normalizeRuleOutcome (decision_outcome (utc_seconds 5) "R" (evaluate (Match ex_match) (ex_rule_input [ex_s1]))) =
  Ok (decision_outcome (utc_seconds 5) "R" (evaluate (Match ex_match) (ex_rule_input [ex_s1]))).
Proof.
  apply (decisions_are_recordable (Match ex_match) (ex_rule_input [ex_s1]) "R" (utc_seconds 5)).
  - split; [vm_compute; reflexivity|discriminate].
  - discriminate.
  - reflexivity.
Defined.

Lemma nothing_passes_without_evidence_witness :
  evaluate (Match ex_match) (with_evidence (ex_rule_input [ex_s1]) []) <> pass.
Proof.
  apply (nothing_passes_without_evidence (Match ex_match) (ex_rule_input [ex_s1])).
  apply (new_match "R" (MkSelector "POSITION" "" "/z") (bytes_of "3")). vm_compute. reflexivity.
Defined.
