(* ===== verification/PdsPolicyExecution.v ===== *)
(** * Evaluations under an admitted policy

    The evaluation service, the policy registry, the document compiler and the
    evidence together: an evaluation bound to a policy whose document validates
    can always be executed on its bound evidence. *)

From Stdlib Require Import Ascii String QArith.
From S2P Require Import Prelude GoTime GoString Uuid GoCrypto Evidence EvidenceObjects.
From S2P Require Import Evaluation EvaluationLifecycle EvaluationRules EvaluationReach.
From S2P Require Import EvaluationPersistence Outbox Policy PolicyRegistry.
From S2P Require Import Pds PdsRules PdsService PdsProperties PdsExecution.
From S2P Require Import RuleOperators RuleDecisions PolicyCompiler PolicyCompilation.
Import pds ruleoperator.
Open Scope Z_scope.

(** ** Recording a batch of fresh outcomes *)

(** Nothing stands against recording an outcome. *)
Definition recordable (e : evaluation.EvaluationAggregate) (o : evaluation.RuleOutcome) : Prop :=
  evaluation.normalizeRuleOutcome o = Ok o /\ evaluation.beforeStart (evaluation.EvaluatedAt o) e = false /\
  evaluation.RuleID o ∈ evaluation.requiredRuleIDs e.

Lemma recordable_required e o : recordable e o -> evaluation.notRequired (evaluation.RuleID o) e = false.
Proof.
  intros (Hn & _ & Hin). pose proof (outcome_normal_facts o Hn) as [Hid _ _ _ _ _ _].
  unfold evaluation.notRequired, evaluation.IsRuleRequired. rewrite Hid.
  replace (existsb _ _) with true; [by rewrite andb_false_r|]. symmetry. apply existsb_exists.
  exists (evaluation.RuleID o). split; [by apply list_elem_of_In|by apply bool_decide_eq_true_2].
Qed.

Lemma validate_fresh e os : evaluation.ruleOutcomes e = [] -> forall seen,
  Forall (recordable e) os -> NoDup (evaluation.RuleID <$> os) ->
  (forall o, o ∈ os -> seen !! evaluation.RuleID o = None) ->
  evaluation.validateRuleOutcomeBatch_loop e seen os = Ok os.
Proof.
  intros He. induction os as [|o os IH]; intros seen Hr Hn Hs; cbn [evaluation.validateRuleOutcomeBatch_loop]; [done|].
  apply Forall_cons in Hr as [Ho Hr]. pose proof (recordable_required _ _ Ho) as Hreq.
  destruct Ho as (Hnorm & Hstart & Hin). rewrite Hnorm. cbn [obind]. rewrite Hstart, Hreq, (Hs o) by left.
  destruct (evaluation.RuleOutcomeByID _ e) as [x|] eqn:Hx.
  { apply RuleOutcomeByID_some in Hx as [Hx _]. rewrite He in Hx. by apply elem_of_nil in Hx. }
  rewrite fmap_cons, NoDup_cons in Hn. destruct Hn as [Hno Hn]. rewrite IH; [done|done|done|].
  intros o' Ho'. rewrite lookup_insert_ne; [apply Hs; by right|]. intros E. apply Hno. rewrite E.
  apply list_elem_of_fmap. by exists o'.
Qed.

(** The event of a recorded batch. *)
Definition batch_event (e : evaluation.EvaluationAggregate) (os : list evaluation.RuleOutcome) (at_ : Time) :=
  evaluation.RuleOutcomeBatchRecordedEvent (evaluation.id_ e) (evaluation.sessionID e) os at_
    (u64_succ (evaluation.version e)).

Lemma record_fresh e os at_ :
  evaluation.state e = evaluation.StateRunning -> evaluation.ruleOutcomes e = [] -> instant at_ <> 0 ->
  evaluation.beforeStart (UTC at_) e = false -> Forall (recordable e) os -> NoDup (evaluation.RuleID <$> os) ->
  exists e' out, evaluation.RecordRuleOutcomeBatch os at_ e = (e', Ok tt) /\
    (evaluation.domainEvents e' = evaluation.domainEvents e \/
     evaluation.domainEvents e' = evaluation.domainEvents e ++ [batch_event e out (UTC at_)]).
Proof.
  intros Hst He Ht Hstart Hr Hn. unfold evaluation.RecordRuleOutcomeBatch.
  rewrite bool_decide_eq_true_2 by done. cbn [negb]. destruct (os == []); [by eexists _, []; auto|].
  unfold IsZero. rewrite (proj2 (Z.eqb_neq _ _) Ht), Hstart.
  unfold evaluation.validateRuleOutcomeBatch. rewrite (validate_fresh e os He ∅ Hr Hn) by (intros; apply lookup_empty).
  cbn [obind]. destruct (_ == []); [by eexists _, []; auto|]. eexists _, _. split; [done|by right].
Qed.

(** ** Execution under a policy *)

Section execution.
Context (marshal : evaluation.DomainEvent -> option bytes) (range : evidence.Range).
Context (registry : policy.Registry) (reader : rules.EvidenceReader).

(** The service that runs the rules of the registry's documents. *)
Definition policy_service : rules.RuleExecutionService :=
  rules.MkRuleExecutionService reader
    (rules.ResolveRuleOperator (Some (rules.registryReader registry)) (Some compiler.ruleCompiler)).

(** An evaluation bound to a version of the registry, whose rules it runs. *)
Record bound_to (e : evaluation.EvaluationAggregate) (p : evaluation.PolicyBinding) (v : policy.Version) : Prop := {
  bt_found : policy.FindVersion (evaluation.PolicyID p) (evaluation.PolicyBindingVersion p) (evaluation.Hash p)
               registry = Ok v;
  bt_identity : policy.PolicyID (policy.VersionSnapshot v) = evaluation.PolicyID p /\
    policy.VersionName (policy.VersionSnapshot v) = evaluation.PolicyBindingVersion p /\
    policy.Hash (policy.VersionSnapshot v) = evaluation.Hash p;
  bt_rules : evaluation.requiredRuleIDs e = policy.RequiredRuleIDs (policy.VersionSnapshot v)
}.

Lemma policyHash_trimmed h : evaluation.policyHashPattern h = true -> h <> "".
Proof. by intros H ->. Qed.

(** Every rule of the policy is resolved and decided, whatever the evidence. *)
Lemma bound_rules_decide e p v document q input :
  inv e -> evaluation.policyBinding e = Some p -> bound_to e p v -> executable range v document q ->
  forall ruleID, ruleID ∈ evaluation.requiredRuleIDs e ->
  exists o, constructed o /\ compiler.CompileRule (Some v) ruleID = Ok (operator ruleID (evaluate o)) /\
    decided policy_service p input ruleID (evaluate o input) /\ Forall (in_scope q) (operator_scope o).
Proof.
  intros Hi Hp [Hf (H1 & H2 & H3) Hr] [_ _ _ Hrules] ruleID Hin.
  destruct (i_policy e Hi p Hp) as [Hnorm _]. unfold normal, evaluation.normalizePolicyBinding in Hnorm. cbn in Hnorm.
  destruct (TrimSpace (evaluation.PolicyID p) == "") eqn:E1; [done|].
  destruct (TrimSpace (evaluation.PolicyBindingVersion p) == "") eqn:E2; [done|]. cbn [orb] in Hnorm.
  destruct (evaluation.policyHashPattern (TrimSpace (evaluation.Hash p))) eqn:E3; [|done].
  destruct (IsZero (UTC (evaluation.BoundAt p))); [done|]. cbn in Hnorm. injection Hnorm as Hnorm.
  pose proof (f_equal evaluation.PolicyID Hnorm) as T1. pose proof (f_equal evaluation.PolicyBindingVersion Hnorm) as T2.
  pose proof (f_equal evaluation.Hash Hnorm) as T3. cbn in T1, T2, T3. apply bool_decide_eq_false in E1, E2.
  apply policyHash_trimmed in E3. rewrite Hr in Hin. destruct (Hrules ruleID Hin) as (Ht & o & rule & Ho & Hc & _ & _ & Hn & Hscope). rewrite <- Hn in Hscope.
  pose proof (i_required e Hi) as Htrim. rewrite Hr, Forall_forall in Htrim. destruct (Htrim _ Hin) as [_ Hne].
  exists o. split_and!; [done|done| |done]. exists (operator ruleID (evaluate o)). split_and!; [|done|done].
  cbn [rules.resolver policy_service]. apply document_resolver_iff. split.
  - cbn. by rewrite T1, T2, T3, Ht, <- T1, <- T2, <- T3.
  - cbn. rewrite T1, T2, T3, Ht. exists v. unfold rules.registryReader, compiler.ruleCompiler. rewrite Hf, Hc. done.
  - cbn. by rewrite Ht.
Qed.

(** The outcomes of the rules, as the operators decide them. *)
Definition operator_decision (v : policy.Version) (p : evaluation.PolicyBinding) (q : evidence.QualificationPolicy)
    (input : rules.RuleInput) (ruleID : string) (d : rules.RuleDecision) : Prop :=
  exists o, constructed o /\ Forall (in_scope q) (operator_scope o) /\ d = evaluate o input /\
    compiler.CompileRule (Some v) ruleID = Ok (operator ruleID (evaluate o)) /\
    decided policy_service p input ruleID d.

Lemma Forall2_choice {A B} (R : A -> B -> Prop) l :
  (forall x, x ∈ l -> exists y, R x y) -> exists k, Forall2 R l k.
Proof.
  induction l as [|x l IH]; intros H; [by exists []|].
  destruct (H x) as [y Hy]; [left|]. destruct IH as [k Hk]; [intros z Hz; apply H; by right|].
  exists (y :: k). by constructor.
Qed.

Lemma outcomes_recordable e v p q input now ids ds :
  inv e -> instant now <> 0 -> location now = UTCLoc -> evaluation.beforeStart now e = false ->
  (forall id, id ∈ ids -> id ∈ evaluation.requiredRuleIDs e) ->
  Forall2 (operator_decision v p q input) ids ds ->
  Forall (recordable e) (zip_with (decision_outcome now) ids ds) /\
  evaluation.RuleID <$> zip_with (decision_outcome now) ids ds = ids.
Proof.
  intros Hi Ht Hloc Hstart Hin Hds. pose proof (i_required e Hi) as Htrim. rewrite Forall_forall in Htrim.
  induction Hds as [|id d ids ds (o & _ & _ & -> & _) _ IH]; [done|]. destruct IH as [IH1 IH2].
  { intros x Hx. apply Hin. by right. }
  cbn [zip_with]. rewrite fmap_cons, IH2. split; [|done]. constructor; [|done].
  assert (id ∈ evaluation.requiredRuleIDs e) as Hid by (apply Hin; left).
  split_and!; [|done|done]. apply decision_normal; [by apply Htrim|done|done].
Qed.

(** The records of a batch can be built when its event can be encoded. *)
Lemma batch_records e e' out w t :
  inv e' -> evaluation.version e' = u64_succ (evaluation.version e) -> evaluation.version e' <> 0 ->
  evaluation.id_ e' = evaluation.id_ e -> evaluation.sessionID e' = evaluation.sessionID e ->
  evaluation.domainEvents e' = [batch_event e out (UTC (clock w 0))] ->
  instant (clock w 0) <> 0 -> instant (clock w t) <> 0 ->
  is_Some (marshal (batch_event e out (UTC (clock w 0)))) ->
  exists records, outbox.BuildOutboxRecords marshal (fun k => random (S := MemoryStore) w (1 + k)%nat)
    (UTC (clock w t)) e' = Ok records.
Proof.
  intros Hi Hv Hv0 Hid Hs He H0 Ht [payload Hp]. unfold outbox.BuildOutboxRecords. rewrite He.
  cbn [outbox.buildRecords]. unfold outbox.NewOutboxRecord, IsZero. cbn [instant UTC].
  rewrite (proj2 (Z.eqb_neq _ _) Ht). cbn [batch_event evaluation.Metadata evaluation.EventType
    evaluation.EvaluationID evaluation.SessionID evaluation.Version evaluation.OccurredAt].
  rewrite !bool_decide_eq_false_2; [|rewrite <- Hs; apply Hi|rewrite <- Hid; apply Hi|done].
  rewrite <- Hv, (proj2 (Z.eqb_neq _ _) Hv0). cbn [orb instant UTC]. rewrite (proj2 (Z.eqb_neq _ _) H0), Hv.
  rewrite Hp. by eexists.
Qed.

Lemma required_policy s binding p :
  rules.requiredBindings s = Ok (binding, p) ->
  evaluation.SnapEvidenceBinding s = Some binding /\ evaluation.SnapPolicyBinding s = Some p.
Proof.
  unfold rules.requiredBindings. destruct (evaluation.SnapEvidenceBinding s) as [b|]; [|done].
  destruct (_ != _); [done|]. destruct (evaluation.SnapPolicyBinding s) as [p'|]; [|done]. by intros [= -> ->].
Qed.

(** The execution of one aggregate under its policy. *)
Lemma policy_execution e now binding p v document q l :
  inv e -> evaluation.state e = evaluation.StateRunning -> evaluation.ruleOutcomes e = [] ->
  rules.requiredBindings (evaluation.Snapshot e) = Ok (binding, p) -> bound_to e p v -> executable range v document q ->
  Forall2 (bound_object policy_service (evaluation.sessionID e)) (evaluation.Evidence binding) l ->
  evaluation.beforeStart now e = false -> instant now <> 0 ->
  exists e' out ds, apply (UExecute policy_service) now e = Ok e' /\
    (evaluation.domainEvents e' = evaluation.domainEvents e \/
     evaluation.domainEvents e' = evaluation.domainEvents e ++ [batch_event e out (UTC now)]) /\
    Forall2 (operator_decision v p q (rules.ruleInput (evaluation.id_ e) (evaluation.sessionID e) p l))
      (evaluation.requiredRuleIDs e) ds /\
    forall ruleID d, (ruleID, d) ∈ zip (evaluation.requiredRuleIDs e) ds ->
      decision_outcome (UTC now) ruleID d ∈ evaluation.ruleOutcomes e'.
Proof.
  intros Hi Hst Hout Hb Hbound Hexe Hl Hstart Ht. pose proof (required_policy _ _ _ Hb) as [_ Hp].
  set (input := rules.ruleInput (evaluation.id_ e) (evaluation.sessionID e) p l).
  destruct (Forall2_choice (operator_decision v p q input) (evaluation.requiredRuleIDs e)) as [ds Hds].
  { intros ruleID Hin. destruct (bound_rules_decide e p v document q input Hi Hp Hbound Hexe ruleID Hin) as (o & Ho & Hc & Hd & Hs).
    exists (evaluate o input). by exists o. }
  destruct (outcomes_recordable e v p q input (UTC now) _ ds Hi Ht (location_UTC now) Hstart (fun _ H => H) Hds)
    as [Hrec Hids].
  set (os := zip_with _ _ _) in *.
  assert (rules.runRules policy_service (evaluation.id_ e) (evaluation.Snapshot e) binding p (UTC now) = Ok os) as Hrun.
  { apply runRules_decisions. exists l, ds. split_and!; [exact Hl| |done].
    eapply Forall2_impl; [exact Hds|]. intros id d (o & _ & _ & _ & _ & Hd). exact Hd. }
  destruct (record_fresh e os (UTC now) Hst Hout Ht Hstart Hrec) as (e' & out & He' & Hev).
  { rewrite Hids. apply (i_required_nodup e Hi). }
  exists e', out, ds. split_and!; [|exact Hev|exact Hds|].
  - cbn [apply]. rewrite Hb. cbn [obind fst snd]. rewrite bool_decide_eq_true_2 by done. cbn [negb].
    rewrite Hrun. cbn [obind]. by rewrite He'.
  - intros ruleID d (i & r' & d' & [= <- <-] & Hr & Hd)%elem_of_lookup_zip_with.
    apply (RecordRuleOutcomeBatch_fresh os) in He' as (_ & _ & _ & Hall & _); [|done].
    assert (decision_outcome (UTC now) ruleID d ∈ os) as Hin
      by (apply elem_of_lookup_zip_with; by exists i, ruleID, d).
    destruct (Hall _ Hin) as (x & Hx & Hn). rewrite Forall_forall in Hrec.
    destruct (Hrec _ Hin) as [Hn' _]. rewrite Hn in Hn'. by injection Hn' as ->.
Qed.

(** C37: an evaluation under an admitted policy can be executed: when it runs, has
    no outcomes, is bound to qualified evidence that the reader yields intact and to
    a version of the registry whose document validates and whose rules it requires,
    an execution that nobody interferes with succeeds, and records for every
    required rule exactly the decision of an operator that the document compiles to,
    on the bound evidence. *)
Theorem admitted_policy_executes w m e binding p v l :
  quiet w -> holds m e -> evaluation.state e = evaluation.StateRunning -> evaluation.ruleOutcomes e = [] ->
  rules.requiredBindings (evaluation.Snapshot e) = Ok (binding, p) ->
  bound_to e p v -> compiler.ValidatePolicyDocument range (Some v) = None ->
  Forall2 (bound_object policy_service (evaluation.sessionID e)) (evaluation.Evidence binding) l ->
  evaluation.beforeStart (clock w 0) e = false ->
  (forall t, instant (clock w t) <> 0) -> evaluation.version e + 1 < u64_modulus ->
  (forall out, is_Some (marshal (batch_event e out (UTC (clock w 0))))) ->
  exists e' records,
    perform marshal (UExecute policy_service) w (evaluation.id_ e) m =
      (stored_with m e' records, Ok (inl (evaluation.Snapshot e'))) /\
    forall ruleID, ruleID ∈ evaluation.requiredRuleIDs e -> exists q o,
      compiler.CompileQualificationPolicy range (Some v) = Ok q /\ Forall (in_scope q) (operator_scope o) /\
      compiler.CompileRule (Some v) ruleID = Ok (operator ruleID (evaluate o)) /\ constructed o /\
      decision_outcome (UTC (clock w 0)) ruleID
        (evaluate o (rules.ruleInput (evaluation.id_ e) (evaluation.sessionID e) p l)) ∈ evaluation.ruleOutcomes e'.
Proof.
  intros Hq Hh Hst Hout Hb Hbound Hval Hl Hstart Ht Hver Hm. pose proof Hh as [[Hi Hv0 Hev0] _].
  destruct (validated_executable _ _ Hval) as (document & q & Hexe).
  destruct (policy_execution e (clock w 0) binding p v document q l) as (e' & out & ds & Ha & Hev & Hds & Hin); [done..|apply Ht|].
  pose proof (apply_advances _ _ _ _ Hi Ha) as Had. pose proof (i_version e Hi) as Hvr. unfold is_u64 in Hvr.
  destruct (update_uncontended marshal (UExecute policy_service) w m e e') as [records Hrun]; try done.
  - cbn [settled]. rewrite Hb, Hout. done.
  - intros t. destruct Hev as [Hev|Hev]; rewrite Hev0 in Hev; [unfold outbox.BuildOutboxRecords; rewrite Hev; by eexists|].
    destruct Had as [[Hi' F _] _ _ Hnext]. destruct Hnext as [->|[Hnext _]]; [by rewrite Hev0 in Hev|].
    apply (batch_records e e' out);
      [exact Hi'|exact Hnext| |apply (f_id _ _ F)|apply (f_session _ _ F)|exact Hev|apply Ht|apply Ht|apply Hm].
    rewrite Hnext. unfold u64_succ, u64. rewrite Z.mod_small; lia.
  - exists e', records. split; [exact Hrun|]. intros ruleID [i Hid]%list_elem_of_lookup_1.
    destruct (Forall2_lookup_l _ _ _ _ _ Hds Hid) as (d & Hd & o & Ho & Hs & -> & Hc & _).
    exists q, o. split_and!; [apply Hexe|done..|]. apply Hin, elem_of_lookup_zip_with. by eexists i, ruleID, _.
Qed.
End execution.
