(* ===== verification/PdsPolicyExamples.v ===== *)
(** * An evaluation under a policy, from end to end

    The policy of PolicyExamples.v is in the registry; an evaluation is created
    for it, its evidence is qualified and bound, it starts, its rules are executed
    and it completes. *)

From Stdlib Require Import Ascii String QArith.
From S2P Require Import Prelude GoTime GoString Uuid GoCrypto Evidence EvidenceObjects EvidenceStore.
From S2P Require Import Evaluation EvaluationLifecycle EvaluationRules EvaluationReach.
From S2P Require Import EvaluationPersistence Outbox Policy PolicyRegistry PolicyAdmission.
From S2P Require Import Pds PdsRules PdsService PdsProperties PdsExamples PdsExecution.
From S2P Require Import RuleOperators RuleDecisions PolicyCompiler PolicyCompilation PolicyExamples PdsPolicyExecution.
Import pds.
Open Scope Z_scope.

Definition ex_registry := Eval vm_compute in run [CAdd (ex_activated ex_v3)] policy.NewRegistry.

(** The evidence repository holds the first report. *)
Definition ex_repository : evidence.MemoryRepository := {[uuid_of 1 := ex_s1]}.

Definition ex_reader : rules.EvidenceReader := fun id =>
  @evidence.Find _ (evidence.MemoryRepository_repository ex_zone) id ex_repository.

Definition ex_service : rules.RuleExecutionService := policy_service ex_registry ex_reader.

Definition ex_qualification : rules.PolicyEvidenceQualificationService :=
  rules.MkQualificationService true (Some ex_repository) (Some (rules.registryReader ex_registry))
    (Some (compiler.qualificationCompiler ex_range)).

Definition ex_resolve : PolicyResolver := fun policyID at_ =>
  let! v := policy.Resolve policyID at_ ex_registry in Ok (Some v).

(** ** The run

    Every step is a store and an answer. *)

Definition ex_bound_id : UUID := NewUUID (replicate 16 "q"%char).

Definition ex_qualify (w : MemoryWorld) (m : MemoryStore) :=
  @rules.QualifyAndBind _ _ _ (evidence.MemoryRepository_repository ex_zone) outbox.ex_marshal ex_range ex_groups
    ex_qualification (utc_seconds 1010) w ex_bound_id m.

Abbreviation ex_create_for_policy :=
  (CreateForPolicy outbox.ex_marshal (ex_alone 1000 "q") (uuid_of 200) "RELEASE" (Some ex_resolve) NewMemoryStore).

Definition ex_created := Eval vm_compute in ex_create_for_policy.

Definition ex_qualified := Eval vm_compute in ex_qualify (ex_alone 1010 "r") (fst ex_created).

Definition ex_started := Eval vm_compute in ex_perform UStart (ex_alone 1020 "s") ex_bound_id (fst ex_qualified).

Definition ex_executed := Eval vm_compute in
  ex_perform (UExecute ex_service) (ex_alone 1030 "t") ex_bound_id (fst ex_started).

Definition ex_completed := Eval vm_compute in
  ex_perform UComplete (ex_alone 1040 "u") ex_bound_id (fst ex_executed).

(** What is stored of the evaluation. *)
Definition ex_state (m : MemoryStore) : option (string * string * Z * list (string * string)) :=
  (fun s => (evaluation.SnapState s, evaluation.SnapResult s, evaluation.SnapVersion s,
             (fun o => (evaluation.RuleID o, evaluation.Status o)) <$> evaluation.SnapRuleOutcomes s))
    <$> snapshots m !! ex_bound_id.

Example ex_policy_run :
  ex_state (fst ex_started) = Some (evaluation.StateRunning, evaluation.ResultUnknown, 8, []) /\
  ex_state (fst ex_completed) =
    Some (evaluation.StateCompleted, evaluation.ResultVerified, 10,
          [("MATCH-Z", evaluation.RuleOutcomePass); ("NEAR-X", evaluation.RuleOutcomePass);
           ("RANGE-X", evaluation.RuleOutcomePass); ("SEEN", evaluation.RuleOutcomePass)]).
Proof. split; vm_compute; reflexivity. Qed.

Lemma ex_create_run : ex_create_for_policy = ex_created.
Proof. vm_compute. reflexivity. Qed.

Lemma ex_qualify_run : ex_qualify (ex_alone 1010 "r") (fst ex_created) = ex_qualified.
Proof. vm_compute. reflexivity. Qed.

Lemma ex_start_run : ex_perform UStart (ex_alone 1020 "s") ex_bound_id (fst ex_qualified) = ex_started.
Proof. vm_compute. reflexivity. Qed.

Lemma ex_execute_run :
  ex_perform (UExecute ex_service) (ex_alone 1030 "t") ex_bound_id (fst ex_started) = ex_executed.
Proof. vm_compute. reflexivity. Qed.

Lemma ex_complete_run :
  ex_perform UComplete (ex_alone 1040 "u") ex_bound_id (fst ex_executed) = ex_completed.
Proof. vm_compute. reflexivity. Qed.

(** ** The stores of the run *)

Lemma ex_registry_ok : registry_ok ex_registry.
Proof.
  assert (ex_registry = run [CAdd (ex_activated ex_v3)] policy.NewRegistry) as -> by (vm_compute; reflexivity).
  apply registry_reachable_ok, Forall_cons_2; [|apply Forall_nil_2].
  intros v Hv. assert (Some ex_v3 = Some v) as [= <-] by exact Hv. vm_compute. reflexivity.
Qed.

(** The versions of the registry have few rules. *)
Definition few_rules (v : policy.Version) : Prop :=
  Z.of_nat (length (policy.RequiredRuleIDs (policy.VersionSnapshot v))) <= 4.

Lemma ex_registry_few policyID name entry :
  policy.byVersion policyID ex_registry !! name = Some entry -> few_rules (policy.MkVersion (policy.snapshot entry)).
Proof.
  assert (map_Forall (fun _ m => map_Forall (fun _ entry => few_rules (policy.MkVersion (policy.snapshot entry))) m)
            ex_registry) as H by (refine (bool_decide_eq_true_1 _ _); vm_compute; reflexivity).
  unfold policy.byVersion. destruct (ex_registry !! policyID) as [m|] eqn:Hm; [exact (H policyID m Hm name entry)|].
  cbn [default]. by rewrite lookup_empty.
Qed.

Lemma ex_resolve_few policyID at_ v : ex_resolve policyID at_ = Ok (Some v) -> few_rules v.
Proof.
  unfold ex_resolve. intros (v' & Hv & [= <-])%obind_ok. unfold policy.Resolve in Hv.
  destruct (policy.matches policyID at_ ex_registry) as [|entry [|]] eqn:Hm; [done| |done].
  assert (entry ∈ policy.matches policyID at_ ex_registry) as Hin by (rewrite Hm; left).
  apply matches_elem in Hin as (_ & name & Hin).
  rewrite (Rehydrate_entry _ _ _ _ ex_registry_ok Hin) in Hv. injection Hv as <-. by eapply ex_registry_few.
Qed.

Lemma ex_created_ok : store_ok (fst ex_created).
Proof.
  rewrite <- ex_create_run.
  refine (ev_ok NewMemoryStore _ (create_for_policy_evolves _ _ _ _ _ _ (ex_alone_good _ _) empty_store_ok _)).
  intros policyID at_ v Hv%ex_resolve_few. unfold few_rules in Hv. unfold i64_max. lia.
Qed.

Lemma ex_qualified_ok : store_ok (fst ex_qualified).
Proof.
  rewrite <- ex_qualify_run.
  exact (ev_ok _ _ (qualify_and_bind_evolves _ _ _ _ _ _ _ _ _ (ex_alone_good _ _) ex_created_ok)).
Qed.

Lemma ex_started_ok : store_ok (fst ex_started).
Proof. rewrite <- ex_start_run. exact (ev_ok _ _ (perform_evolves _ _ _ _ _ (ex_alone_good _ _) ex_qualified_ok)). Qed.

(** ** Witnesses *)

Definition ex_executed_snapshot := Eval vm_compute in
  match snd ex_executed with
  | Ok (inl s) => s
  | _ => evaluation.Snapshot ex_empty
  end.

Lemma ex_executed_eq : ex_executed = (fst ex_executed, Ok (inl ex_executed_snapshot)).
Proof. reflexivity. Qed.

Lemma execution_is_justified_witness :
  exists s, snapshots (fst ex_executed) !! ex_bound_id = Some s /\
    (forall r, r ∈ evaluation.SnapRequiredRuleIDs s ->
       exists o, o ∈ evaluation.SnapRuleOutcomes s /\ evaluation.RuleID o = r).
Proof.
  pose proof ex_execute_run as H. rewrite ex_executed_eq in H.
  destruct (execution_is_justified outbox.ex_marshal ex_service (ex_alone 1030 "t") ex_bound_id (fst ex_started)
    (fst ex_executed) (inl ex_executed_snapshot) (ex_alone_good _ _) ex_started_ok H) as (s & _ & Hs & Hr & _).
  exact (ex_intro _ s (conj Hs Hr)).
Defined.

Lemma executed_once_witness :
  ex_perform (UExecute ex_service) (ex_alone 2000 "v") ex_bound_id (fst ex_executed) =
  (fst ex_executed, Ok (inl ex_executed_snapshot)).
Proof.
  pose proof ex_execute_run as H. rewrite ex_executed_eq in H.
  refine (executed_once outbox.ex_marshal ex_service ex_service (ex_alone 1030 "t") (ex_alone 2000 "v")
            ex_bound_id (fst ex_started) (fst ex_executed) ex_executed_snapshot (ex_alone_good _ _) ex_started_ok
            (ex_alone_quiet _ _) H _).
  refine (bool_decide_eq_false_1 _ _). vm_compute. reflexivity.
Defined.

Definition ex_bound_snapshot := Eval vm_compute in
  match snd ex_qualified with
  | Ok s => s
  | Err _ => evaluation.Snapshot ex_empty
  end.

Lemma ex_qualified_eq : ex_qualified = (fst ex_qualified, Ok ex_bound_snapshot).
Proof. reflexivity. Qed.

Lemma qualification_is_of_the_bound_policy_witness :
  snapshots (fst ex_qualified) !! ex_bound_id = Some ex_bound_snapshot /\
  is_Some (evaluation.SnapEvidenceBinding ex_bound_snapshot).
Proof.
  pose proof ex_qualify_run as H. rewrite ex_qualified_eq in H.
  destruct (@qualification_is_of_the_bound_policy outbox.ex_marshal evidence.MemoryRepository
    (evidence.MemoryRepository_repository ex_zone) ex_range ex_groups ex_qualification
    (utc_seconds 1010) (ex_alone 1010 "r") ex_bound_id (fst ex_created) (fst ex_qualified) ex_bound_snapshot
    (ex_alone_good _ _) ex_created_ok H) as (Hs & binding & _ & _ & Hb & _).
  exact (conj Hs (ex_intro _ binding Hb)).
Defined.

(** The running evaluation, as it is read back. *)
Definition ex_ready := Eval vm_compute in
  match MemoryFind ex_bound_id (fst ex_started) with
  | Ok (Some e) => e
  | _ => ex_empty
  end.

Lemma ex_ready_found : MemoryFind ex_bound_id (fst ex_started) = Ok (Some ex_ready).
Proof. vm_compute. reflexivity. Qed.

Lemma ex_ready_holds : holds (fst ex_started) ex_ready.
Proof.
  destruct (MemoryFind_spec ex_bound_id (fst ex_started) ex_started_ok) as [[_ Hn]|(e & Hh & _ & He)].
  - rewrite ex_ready_found in Hn. discriminate Hn.
  - rewrite ex_ready_found in He. injection He as <-. exact Hh.
Qed.

Definition ex_bindings := Eval vm_compute in
  match rules.requiredBindings (evaluation.Snapshot ex_ready) with
  | Ok b => b
  | Err _ => (evaluation.MkEvidenceSetBinding [] "" "" ZeroTime [] [], evaluation.MkPolicyBinding "" "" "" ZeroTime)
  end.

Lemma ex_ready_bindings :
  rules.requiredBindings (evaluation.Snapshot ex_ready) = Ok (fst ex_bindings, snd ex_bindings).
Proof. vm_compute. reflexivity. Qed.

Lemma ex_ready_bound : bound_to ex_registry ex_ready (snd ex_bindings) ex_v3.
Proof. split; [|split_and!|]; vm_compute; reflexivity. Qed.

Lemma ex_ready_evidence :
  Forall2 (bound_object ex_service (evaluation.sessionID ex_ready)) (evaluation.Evidence (fst ex_bindings)) [ex_s1].
Proof.
  apply Forall2_cons_2; [|apply Forall2_nil_2].
  split_and!; [vm_compute; reflexivity..|exact ex_verified_1].
Qed.

Lemma admitted_policy_executes_witness :
  exists e' records,
    ex_perform (UExecute ex_service) (ex_alone 1030 "t") (evaluation.id_ ex_ready) (fst ex_started) =
      (stored_with (fst ex_started) e' records, Ok (inl (evaluation.Snapshot e'))) /\
    forall ruleID, ruleID ∈ evaluation.requiredRuleIDs ex_ready -> exists o,
      compiler.CompileRule (Some ex_v3) ruleID = Ok (ruleoperator.operator ruleID (evaluate o)).
Proof.
  destruct (admitted_policy_executes outbox.ex_marshal ex_range ex_registry ex_reader (ex_alone 1030 "t")
    (fst ex_started) ex_ready (fst ex_bindings) (snd ex_bindings) ex_v3 [ex_s1] (ex_alone_quiet _ _) ex_ready_holds)
    as (e' & records & Hrun & Hrules).
  - vm_compute. reflexivity.
  - vm_compute. reflexivity.
  - exact ex_ready_bindings.
  - exact ex_ready_bound.
  - exact ex_validates.
  - exact ex_ready_evidence.
  - vm_compute. reflexivity.
  - intros t H. cbn in H. unfold Second in H. lia.
  - vm_compute. reflexivity.
  - intros out. eexists. reflexivity.
  - exists e', records. split; [exact Hrun|]. intros ruleID Hin.
    destruct (Hrules ruleID Hin) as (_ & o & _ & _ & Ho & _). exact (ex_intro _ o Ho).
Defined.
