(* ===== verification/Bundle.v ===== *)
(** * Evidence bundles ([evidencebundle/])

    A bundle packs a final decision for somebody who does not trust the system:
    the decision trace, the policy and every evidence object as JSON payloads,
    with a manifest of their digests whose own digest is the bundle root
    ([bundle.go], [policy_snapshot.go], [audit.go]).

    The objects of a manifest are a slice that may be nil, which JSON writes as
    [null]. The other slices are lists; where they are empty they are written as
    nil, which is how the copies that the packages make leave them. Copies of
    payloads are the payloads. *)

From Stdlib Require Import Ascii String.
From S2P Require Import Prelude GoTime GoString Uuid GoCrypto GoJson GoJsonStruct GoTimeFormat GoParse GoFloat.
From S2P Require Import GoJsonDecode GoUnmarshal GoJsonReads GoTimeParse GoFloatText.
From S2P Require Import Evaluation Evidence Policy PdsRules RuleOperators PolicyCompiler.

Module evidencebundle.

Inductive Error :=
  | ErrBundleIdentityRequired
  | ErrFinalDecisionRequired
  | ErrPolicyBindingRequired
  | ErrEvidenceBindingRequired
  | ErrEvidenceObjectMismatch
  | ErrObjectPathInvalid
  | ErrObjectDigestMismatch
  | ErrBundleRootMismatch
  | ErrPolicySnapshotRequired
  | ErrPolicySnapshotMismatch
  | ErrAuditRecordInvalid
  | ErrAuditRecordExists
  | ErrAuditRecordNotFound
  | ErrDecisionTraceRequired
  | ErrIndependentVerificationScope
  | ErrIndependentVerificationFailed
  | ErrRecalculatedOutcomeMismatch
  | ErrRecalculatedDecisionMismatch
  | ErrBundleSignatureRequired
  | ErrBundleSignerRequired
  | ErrBundleSigningTime
  | ErrBundleSignatureBinding
  | ErrBundleSignatureInvalid
  | ErrBundleTrustStore
  | ErrBundleTimestampRequired
  | ErrTimestampAuthority
  | ErrBundleTimestampTime
  | ErrBundleTimestampBinding
  | ErrBundleTimestampInvalid
  | ErrVerificationCertificateRequired
  | ErrVerificationCertificateBinding
  | ErrVerificationCertificateTime
  | ErrVerificationCertificateInvalid
  | EvidenceError (err : evidence.Error)
  | PolicyError (err : policy.Error)
  | CompilerError (err : ruleoperator.Error)
  | MarshalError
  | ErrArchiveInvalid
  | ErrArchiveEntryMismatch
  | ErrArchiveTooLarge
  | ZipError.

Definition ManifestSchemaVersion : string := "cargoos.evidence-bundle.manifest.v1".
Definition HashAlgorithm : string := "SHA-256".

(** [^sha256:[0-9a-f]{64}$] *)
Definition sha256Pattern (s : string) : bool :=
  let b := bytes_of s in
  (take 7 b == bytes_of "sha256:") && (length b == 71%nat) &&
  forallb (fun c => is_digit c || byte_in 97 102 c) (drop 7 b).

Record Object := MkObject {
  Path : string;
  MediaType : string;
  Payload : bytes
}.

#[global] Instance Object_eq_dec : EqDecision Object.
Proof. solve_decision. Defined.

Record ObjectDescriptor := MkObjectDescriptor {
  DescriptorPath : string;
  DescriptorMediaType : string;
  Size : Z;
  Digest : string
}.

#[global] Instance ObjectDescriptor_eq_dec : EqDecision ObjectDescriptor.
Proof. solve_decision. Defined.

Record PolicyReference := MkPolicyReference {
  PolicyID : string;
  PolicyVersion : string;
  PolicyHash : string
}.

#[global] Instance PolicyReference_eq_dec : EqDecision PolicyReference.
Proof. solve_decision. Defined.

Record Manifest := MkManifest {
  SchemaVersion : string;
  BundleID : UUID;
  EvaluationID : UUID;
  SessionID : UUID;
  GeneratedAt : Time;
  ManifestHashAlgorithm : string;
  ManifestPolicy : PolicyReference;
  ManifestObjects : option (list ObjectDescriptor);
  BundleRoot : string
}.

#[global] Instance Manifest_eta : Eta Manifest :=
  fun m => MkManifest (SchemaVersion m) (BundleID m) (EvaluationID m) (SessionID m) (GeneratedAt m)
             (ManifestHashAlgorithm m) (ManifestPolicy m) (ManifestObjects m) (BundleRoot m).

#[global] Instance Manifest_eq_dec : EqDecision Manifest.
Proof. solve_decision. Defined.

(** The elements of the objects of a manifest. *)
Definition descriptors (m : Manifest) : list ObjectDescriptor := default [] (ManifestObjects m).

Record Bundle := MkBundle {
  BundleManifest : Manifest;
  Objects : list Object
}.

Record BuildInput := MkBuildInput {
  InputBundleID : UUID;
  InputGeneratedAt : Time;
  InputTrace : evaluation.DecisionTrace;
  InputEvidence : list evidence.Snapshot
}.

(** What the program takes from its platform: the offsets of time zones and the
    zone of an offset, the order in which maps are visited, [sort.Slice] of
    objects by path, which need not be stable, and [ed25519.Verify]. *)
Class Platform := {
  zone_offset : positive -> Z -> Z;
  fixed_zone : Z -> Z -> positive;
  map_range : evidence.Range;
  sort_objects : list Object -> list Object;
  ed25519_Verify : bytes -> bytes -> bytes -> bool
}.

Definition path_le (o p : Object) : Prop := String.ltb (Path p) (Path o) = false.

Class PlatformLaws (P : Platform) : Prop := {
  sort_objects_perm l : sort_objects l ≡ₚ l;
  sort_objects_sorted l : Sorted path_le (sort_objects l)
}.

Section bundle.
Context {P : Platform}.

(** ** JSON *)

Definition MarshalUUID (id : UUID) : bytes := quoteString (UuidString id).

Definition MarshalInt (n : Z) : bytes := decimal 1 n.

Definition MarshalTimeIn (t : Time) : option bytes := evidence.MarshalTimeIn zone_offset t.

(** A pointer. *)
Definition MarshalPointer {A} (f : A -> option bytes) (o : option A) : option bytes :=
  match o with
  | None => Some (bytes_of "null")
  | Some a => f a
  end.

(** A slice. *)
Definition MarshalSlice {A} (f : A -> option bytes) (l : list A) : option bytes :=
  match l with
  | [] => Some (bytes_of "null")
  | _ => array <$> mapM f l
  end.

Definition MarshalString (s : string) : option bytes := Some (quoteString s).

Definition MarshalDescriptor (d : ObjectDescriptor) : bytes :=
  struct [("path", quoteString (DescriptorPath d)); ("media_type", quoteString (DescriptorMediaType d));
          ("size", MarshalInt (Size d)); ("digest", quoteString (Digest d))].

Definition MarshalReference (r : PolicyReference) : bytes :=
  struct [("policy_id", quoteString (PolicyID r)); ("version", quoteString (PolicyVersion r));
          ("hash", quoteString (PolicyHash r))].

Definition MarshalDescriptors (o : option (list ObjectDescriptor)) : bytes :=
  match o with
  | None => bytes_of "null"
  | Some l => array (MarshalDescriptor <$> l)
  end.

Definition MarshalManifest (m : Manifest) : option bytes :=
  match MarshalTimeIn (GeneratedAt m) with
  | Some generated =>
      Some (struct
        [("schema_version", quoteString (SchemaVersion m)); ("bundle_id", MarshalUUID (BundleID m));
         ("evaluation_id", MarshalUUID (EvaluationID m)); ("session_id", MarshalUUID (SessionID m));
         ("generated_at", generated); ("hash_algorithm", quoteString (ManifestHashAlgorithm m));
         ("policy", MarshalReference (ManifestPolicy m)); ("objects", MarshalDescriptors (ManifestObjects m));
         ("bundle_root", quoteString (BundleRoot m))])
  | None => None
  end.

Definition MarshalOutcome (o : evaluation.RuleOutcome) : option bytes :=
  match MarshalSlice MarshalString (evaluation.ReasonCodes o), MarshalTimeIn (evaluation.EvaluatedAt o) with
  | Some reasons, Some evaluated =>
      Some (struct [("RuleID", quoteString (evaluation.RuleID o)); ("Status", quoteString (evaluation.Status o));
                    ("ReasonCodes", reasons); ("EvaluatedAt", evaluated)])
  | _, _ => None
  end.

Definition MarshalEvidenceReference (r : evaluation.EvidenceReference) : option bytes :=
  match MarshalSlice MarshalString (evaluation.RefReasons r) with
  | Some reasons =>
      Some (struct [("EvidenceID", MarshalUUID (evaluation.EvidenceID r));
                    ("Status", quoteString (evaluation.RefStatus r)); ("Reasons", reasons)])
  | None => None
  end.

Definition MarshalEvidenceBinding (b : evaluation.EvidenceSetBinding) : option bytes :=
  match MarshalTimeIn (evaluation.QualifiedAt b), MarshalSlice MarshalString (evaluation.Reasons b),
        MarshalSlice MarshalEvidenceReference (evaluation.Evidence b) with
  | Some qualified, Some reasons, Some references =>
      Some (struct [("SessionID", MarshalUUID (evaluation.BoundSessionID b));
                    ("Status", quoteString (evaluation.BoundStatus b));
                    ("PolicyVersion", quoteString (evaluation.PolicyVersion b));
                    ("QualifiedAt", qualified); ("Reasons", reasons); ("Evidence", references)])
  | _, _, _ => None
  end.

Definition MarshalPolicyBinding (b : evaluation.PolicyBinding) : option bytes :=
  match MarshalTimeIn (evaluation.BoundAt b) with
  | Some bound =>
      Some (struct [("PolicyID", quoteString (evaluation.PolicyID b));
                    ("Version", quoteString (evaluation.PolicyBindingVersion b));
                    ("Hash", quoteString (evaluation.Hash b)); ("BoundAt", bound)])
  | None => None
  end.

Definition MarshalTrace (t : evaluation.DecisionTrace) : option bytes :=
  match MarshalSlice MarshalString (evaluation.TraceReasonCodes t),
        MarshalSlice MarshalString (evaluation.TraceRequiredRuleIDs t),
        MarshalSlice MarshalString (evaluation.TraceMissingRuleIDs t),
        MarshalSlice MarshalOutcome (evaluation.TraceRuleOutcomes t),
        MarshalTimeIn (evaluation.TraceCreatedAt t), MarshalPointer MarshalTimeIn (evaluation.TraceStartedAt t),
        MarshalPointer MarshalTimeIn (evaluation.TraceCompletedAt t),
        MarshalPointer MarshalTimeIn (evaluation.TraceExpiredAt t),
        MarshalPointer MarshalEvidenceBinding (evaluation.TraceEvidenceBinding t),
        MarshalPointer MarshalPolicyBinding (evaluation.TracePolicyBinding t) with
  | Some reasons, Some required, Some missing, Some outcomes, Some created, Some started, Some completed,
    Some expired, Some evidenceBinding, Some policyBinding =>
      Some (struct
        [("EvaluationID", MarshalUUID (evaluation.TraceEvaluationID t));
         ("SessionID", MarshalUUID (evaluation.TraceSessionID t)); ("Version", MarshalInt (evaluation.TraceVersion t));
         ("State", quoteString (evaluation.TraceState t)); ("Result", quoteString (evaluation.TraceResult t));
         ("ReasonCodes", reasons); ("RequiredRuleIDs", required); ("MissingRuleIDs", missing);
         ("RuleOutcomes", outcomes); ("CreatedAt", created); ("StartedAt", started); ("CompletedAt", completed);
         ("ExpiredAt", expired); ("EvidenceBinding", evidenceBinding); ("PolicyBinding", policyBinding)])
  | _, _, _, _, _, _, _, _, _, _ => None
  end.

(** The text of an evidence snapshot. *)
Definition MarshalEvidence (s : evidence.Snapshot) : option bytes :=
  match evidence.MarshalSnapshot zone_offset s with
  | None => None
  | Some parts =>
      match evidence.jsonConfidence parts with
      | None => Some (evidence.jsonBefore parts ++ byte_of 44 :: evidence.jsonAfter parts)
      | Some c =>
          match MarshalFloat c with
          | None => None
          | Some text =>
              Some (evidence.jsonBefore parts ++ byte_of 44 :: field "confidence" text ++
                    byte_of 44 :: evidence.jsonAfter parts)
          end
      end
  end.

(** ** Objects *)

Definition digest (payload : bytes) : string := "sha256:" ++ string_of (hex_encode (sha256 payload)).

Definition describe (o : Object) : ObjectDescriptor :=
  MkObjectDescriptor (Path o) (MediaType o) (Z.of_nat (length (Payload o))) (digest (Payload o)).

(** The error of [json.Marshal] is dropped: the payload is then nil. *)
Definition calculateRoot (m : Manifest) : string :=
  digest (default [] (MarshalManifest (m <| BundleRoot := "" |>))).

Fixpoint has_dots (b : bytes) : bool :=
  match b with
  | c :: ((d :: _) as b') => (byte_is 46 c && byte_is 46 d) || has_dots b'
  | _ => false
  end.

Definition validateObject (o : Object) : option Error :=
  let path := TrimSpace (Path o) in
  let b := bytes_of path in
  if (path == "") || (path != Path o) || match b with c :: _ => byte_is 47 c | [] => false end ||
     has_dots b || existsb (byte_is 92) b
  then Some ErrObjectPathInvalid else
  if (TrimSpace (MediaType o) == "") || (length (Payload o) == 0%nat) || negb (Valid (Payload o))
  then Some ErrObjectDigestMismatch else None.

(** The evidence by its identity. *)
Fixpoint indexEvidence (sessionID : UUID) (byID : gmap UUID evidence.Snapshot) (l : list evidence.Snapshot)
    : outcome Error (gmap UUID evidence.Snapshot) :=
  match l with
  | [] => Ok byID
  | s :: l =>
      let! object := omap_err EvidenceError (evidence.Rehydrate s) in
      let s := evidence.ObjectSnapshot object in
      if evidence.SessionID s != sessionID then Err ErrEvidenceObjectMismatch else
      if bool_decide (is_Some (byID !! evidence.EvidenceID s)) then Err ErrEvidenceObjectMismatch else
      indexEvidence sessionID (<[evidence.EvidenceID s := s]> byID) l
  end.

Definition evidencePath (id : UUID) : string := "evidence/" ++ UuidString id ++ ".json".

Definition jsonObject (path : string) (payload : bytes) : Object := MkObject path "application/json" payload.

Fixpoint evidenceObjects (byID : gmap UUID evidence.Snapshot) (references : list evaluation.EvidenceReference)
    : outcome Error (list Object) :=
  match references with
  | [] => Ok []
  | r :: references =>
      match byID !! evaluation.EvidenceID r with
      | None => Err ErrEvidenceObjectMismatch
      | Some s =>
          match MarshalEvidence s with
          | None => Err MarshalError
          | Some payload =>
              let! objects := evidenceObjects byID references in
              Ok (jsonObject (evidencePath (evaluation.EvidenceID r)) payload :: objects)
          end
      end
  end.

Fixpoint validateObjects (l : list Object) : option Error :=
  match l with
  | [] => None
  | o :: l =>
      match validateObject o with
      | Some err => Some err
      | None => validateObjects l
      end
  end.

Definition tracePath : string := "decision-trace.json".
Definition referencePath : string := "policy/reference.json".

(** [p] and [e] are the bindings of the trace. *)
Definition buildObjects (trace : evaluation.DecisionTrace) (e : evaluation.EvidenceSetBinding)
    (p : evaluation.PolicyBinding) (snapshots : list evidence.Snapshot) : outcome Error (list Object) :=
  let! byID := indexEvidence (evaluation.TraceSessionID trace) ∅ snapshots in
  if (size byID != length (evaluation.Evidence e))%go then Err ErrEvidenceObjectMismatch else
  match MarshalTrace trace with
  | None => Err MarshalError
  | Some tracePayload =>
      let policyPayload := MarshalReference (MkPolicyReference (evaluation.PolicyID p)
                             (evaluation.PolicyBindingVersion p) (evaluation.Hash p)) in
      let! objects := evidenceObjects byID (evaluation.Evidence e) in
      let objects := sort_objects (jsonObject tracePath tracePayload :: jsonObject referencePath policyPayload :: objects) in
      match validateObjects objects with
      | Some err => Err err
      | None => Ok objects
      end
  end.

(** ** Bundles *)

Definition finalizedAt (trace : evaluation.DecisionTrace) : option Time :=
  if evaluation.TraceState trace == evaluation.StateCompleted then evaluation.TraceCompletedAt trace
  else evaluation.TraceExpiredAt trace.

Definition Build (input : BuildInput) : outcome Error Bundle :=
  if (InputBundleID input == NilUUID) || IsZero (InputGeneratedAt input) then Err ErrBundleIdentityRequired else
  let trace := InputTrace input in
  if (evaluation.TraceEvaluationID trace == NilUUID) || (evaluation.TraceSessionID trace == NilUUID) ||
     ((evaluation.TraceState trace != evaluation.StateCompleted) && (evaluation.TraceState trace != evaluation.StateExpired))
  then Err ErrFinalDecisionRequired else
  match finalizedAt trace with
  | None => Err ErrFinalDecisionRequired
  | Some finalizedAt =>
  if Before (InputGeneratedAt input) finalizedAt then Err ErrFinalDecisionRequired else
  match evaluation.TracePolicyBinding trace with
  | None => Err ErrPolicyBindingRequired
  | Some p =>
  if (TrimSpace (evaluation.PolicyID p) == "") || (TrimSpace (evaluation.PolicyBindingVersion p) == "") ||
     negb (sha256Pattern (evaluation.Hash p))
  then Err ErrPolicyBindingRequired else
  match evaluation.TraceEvidenceBinding trace with
  | None => Err ErrEvidenceBindingRequired
  | Some e =>
  if evaluation.BoundSessionID e != evaluation.TraceSessionID trace then Err ErrEvidenceBindingRequired else
  let! objects := buildObjects trace e p (InputEvidence input) in
  let manifest :=
    MkManifest ManifestSchemaVersion (InputBundleID input) (evaluation.TraceEvaluationID trace)
      (evaluation.TraceSessionID trace) (UTC (InputGeneratedAt input)) HashAlgorithm
      (MkPolicyReference (evaluation.PolicyID p) (evaluation.PolicyBindingVersion p) (evaluation.Hash p))
      (Some (describe <$> objects)) "" in
  Ok (MkBundle (manifest <| BundleRoot := calculateRoot manifest |>) objects)
  end
  end
  end.

(** The loop of [Verify]. *)
Fixpoint verifyObjects (descriptors : list ObjectDescriptor) (objects : list Object) : option Error :=
  match descriptors, objects with
  | d :: descriptors, o :: objects =>
      match validateObject o with
      | Some err => Some err
      | None => if describe o != d then Some ErrObjectDigestMismatch else verifyObjects descriptors objects
      end
  | _, _ => None
  end.

Definition Verify (b : Bundle) : option Error :=
  let m := BundleManifest b in
  if (SchemaVersion m != ManifestSchemaVersion) || (BundleID m == NilUUID) || (EvaluationID m == NilUUID) ||
     (SessionID m == NilUUID) || IsZero (GeneratedAt m) || (ManifestHashAlgorithm m != HashAlgorithm)
  then Some ErrBundleIdentityRequired else
  if calculateRoot m != BundleRoot m then Some ErrBundleRootMismatch else
  let objects := sort_objects (Objects b) in
  if (length objects != length (descriptors m))%go then Some ErrObjectDigestMismatch else
  verifyObjects (descriptors m) objects.

Definition CanonicalManifest (m : Manifest) : outcome Error bytes :=
  if SchemaVersion m != ManifestSchemaVersion then Err ErrBundleIdentityRequired else
  match MarshalManifest m with
  | None => Err MarshalError
  | Some payload => Ok payload
  end.

(** ** Policy snapshots ([policy_snapshot.go]) *)

Definition PolicySnapshotPath : string := "policy/snapshot.json".

(** A [policy.Snapshot] as JSON holds it, with the array of its rules. *)
Record snapshotJSON := MkSnapshotJSON {
  jsonPolicyID : string;
  jsonVersion : string;
  jsonSchemaVersion : string;
  jsonEffectiveFrom : Time;
  jsonEffectiveUntil : option Time;
  jsonRequiredRuleIDs : option (Slice string);
  jsonDocument : bytes;
  jsonHash : string
}.

#[global] Instance snapshotJSON_eta : Eta snapshotJSON :=
  fun s => MkSnapshotJSON (jsonPolicyID s) (jsonVersion s) (jsonSchemaVersion s) (jsonEffectiveFrom s)
             (jsonEffectiveUntil s) (jsonRequiredRuleIDs s) (jsonDocument s) (jsonHash s).

Definition zeroSnapshotJSON : snapshotJSON := MkSnapshotJSON "" "" "" ZeroTime None None [] "".

(** A slice that may be nil. *)
Definition decode_nilable {A} (zero : A) (dec : unmarshal.decoder A) : unmarshal.decoder (option (Slice A)) :=
  unmarshal.decode_pointer nil_slice (unmarshal.decode_slice zero dec).

Definition snapshotFields : list (string * unmarshal.decoder snapshotJSON) :=
  [("policy_id", unmarshal.into jsonPolicyID (fset jsonPolicyID) unmarshal.decode_string);
   ("version", unmarshal.into jsonVersion (fset jsonVersion) unmarshal.decode_string);
   ("schema_version", unmarshal.into jsonSchemaVersion (fset jsonSchemaVersion) unmarshal.decode_string);
   ("effective_from", unmarshal.into jsonEffectiveFrom (fset jsonEffectiveFrom) (decode_time fixed_zone));
   ("effective_until", unmarshal.into jsonEffectiveUntil (fset jsonEffectiveUntil)
      (unmarshal.decode_pointer ZeroTime (decode_time fixed_zone)));
   ("required_rule_ids", unmarshal.into jsonRequiredRuleIDs (fset jsonRequiredRuleIDs)
      (decode_nilable "" unmarshal.decode_string));
   ("document", unmarshal.into jsonDocument (fset jsonDocument) unmarshal.decode_raw);
   ("hash", unmarshal.into jsonHash (fset jsonHash) unmarshal.decode_string)].

Definition decode_snapshot : unmarshal.decoder snapshotJSON := unmarshal.decode_struct snapshotFields.

Definition MarshalPolicySnapshot (s : snapshotJSON) : option bytes :=
  let until :=
    match jsonEffectiveUntil s with
    | None => Some []
    | Some t => (fun b => [("effective_until", b)]) <$> MarshalTimeIn t
    end in
  match MarshalTimeIn (jsonEffectiveFrom s), until, MarshalRaw (jsonDocument s) with
  | Some from, Some until, Some document =>
      Some (struct
        ([("policy_id", quoteString (jsonPolicyID s)); ("version", quoteString (jsonVersion s));
          ("schema_version", quoteString (jsonSchemaVersion s)); ("effective_from", from)] ++ until ++
         [("required_rule_ids",
             match jsonRequiredRuleIDs s with
             | None => bytes_of "null"
             | Some l => MarshalStrings (items l)
             end);
          ("document", document); ("hash", quoteString (jsonHash s))]))
  | _, _, _ => None
  end.

Definition toJSON (s : policy.Snapshot) : snapshotJSON :=
  MkSnapshotJSON (policy.PolicyID s) (policy.VersionName s) (policy.SchemaVersion s) (policy.EffectiveFrom s)
    (policy.EffectiveUntil s) (Some (MkSlice (policy.RequiredRuleIDs s) [])) (policy.Document s) (policy.Hash s).

Definition fromJSON (s : snapshotJSON) : policy.Snapshot :=
  policy.MkSnapshot (jsonPolicyID s) (jsonVersion s) (jsonSchemaVersion s) (jsonEffectiveFrom s)
    (jsonEffectiveUntil s) (items (default nil_slice (jsonRequiredRuleIDs s))) (jsonDocument s) (jsonHash s).

(** The snapshot has the identity of a reference. *)
Definition refersTo (s : policy.Snapshot) (policyID version hash : string) : bool :=
  (policy.PolicyID s == policyID) && (policy.VersionName s == version) && (policy.Hash s == hash).

Definition PolicySnapshot (b : Bundle) : outcome Error policy.Snapshot :=
  match Verify b with
  | Some err => Err err
  | None =>
      match List.filter (fun o => Path o == PolicySnapshotPath) (Objects b) with
      | [] => Err ErrPolicySnapshotRequired
      | _ :: _ :: _ => Err ErrPolicySnapshotMismatch
      | [o] =>
          match unmarshal.Unmarshal decode_snapshot (Payload o) zeroSnapshotJSON with
          | None => Err ErrPolicySnapshotMismatch
          | Some decoded =>
              if MarshalPolicySnapshot decoded != Some (Payload o) then Err ErrPolicySnapshotMismatch else
              let! version := omap_err PolicyError (policy.Rehydrate (fromJSON decoded)) in
              let s := policy.VersionSnapshot version in
              let reference := ManifestPolicy (BundleManifest b) in
              if negb (refersTo s (PolicyID reference) (PolicyVersion reference) (PolicyHash reference))
              then Err ErrPolicySnapshotMismatch else Ok s
          end
      end
  end.

(** The first object of the path is replaced. *)
Fixpoint replaceObject (path : string) (o : Object) (l : list Object) : option (list Object) :=
  match l with
  | [] => None
  | p :: l => if Path p == path then Some (o :: l) else (p ::.) <$> replaceObject path o l
  end.

Definition BuildWithPolicySnapshot (input : BuildInput) (s : policy.Snapshot) : outcome Error Bundle :=
  let! version := omap_err PolicyError (policy.Rehydrate s) in
  let s := policy.VersionSnapshot version in
  match evaluation.TracePolicyBinding (InputTrace input) with
  | None => Err ErrPolicySnapshotMismatch
  | Some p =>
      if negb (refersTo s (evaluation.PolicyID p) (evaluation.PolicyBindingVersion p) (evaluation.Hash p))
      then Err ErrPolicySnapshotMismatch else
      let! b := Build input in
      match MarshalPolicySnapshot (toJSON s) with
      | None => Err MarshalError
      | Some payload =>
          match replaceObject referencePath (jsonObject PolicySnapshotPath payload) (Objects b) with
          | None => Err ErrPolicySnapshotRequired
          | Some objects =>
              let objects := sort_objects objects in
              let manifest := (BundleManifest b) <| ManifestObjects := Some (describe <$> objects) |> in
              let b := MkBundle (manifest <| BundleRoot := calculateRoot manifest |>) objects in
              let! _ := PolicySnapshot b in
              Ok b
          end
      end
  end.

(** ** Audit records ([audit.go]) *)

Record AuditRecord := MkAuditRecord {
  RecordBundleID : UUID;
  RecordEvaluationID : UUID;
  RecordSessionID : UUID;
  RecordGeneratedAt : Time;
  RecordBundleRoot : bytes
}.

#[global] Instance AuditRecord_eq_dec : EqDecision AuditRecord.
Proof. solve_decision. Defined.

Definition NewAuditRecord (m : Manifest) : outcome Error AuditRecord :=
  if (BundleID m == NilUUID) || (EvaluationID m == NilUUID) || (SessionID m == NilUUID) || IsZero (GeneratedAt m) ||
     (SchemaVersion m != ManifestSchemaVersion) || (ManifestHashAlgorithm m != HashAlgorithm) ||
     (calculateRoot m != BundleRoot m)
  then Err ErrAuditRecordInvalid else
  let root := bytes_of (BundleRoot m) in
  if (length root != 71%nat)%go then Err ErrAuditRecordInvalid else
  match hex_decode (drop 7 root) with
  | None => Err ErrAuditRecordInvalid
  | Some decoded =>
      if (length decoded != 32%nat)%go || (decoded == ZeroRoot) then Err ErrAuditRecordInvalid else
      Ok (MkAuditRecord (BundleID m) (EvaluationID m) (SessionID m) (TruncateMicrosecond (UTC (GeneratedAt m))) decoded)
  end.

Definition ValidateAuditRecord (r : AuditRecord) : option Error :=
  if (RecordBundleID r == NilUUID) || (RecordEvaluationID r == NilUUID) || (RecordSessionID r == NilUUID) ||
     IsZero (RecordGeneratedAt r) || (RecordGeneratedAt r != TruncateMicrosecond (UTC (RecordGeneratedAt r))) ||
     (RecordBundleRoot r == ZeroRoot)
  then Some ErrAuditRecordInvalid else None.

End bundle.

End evidencebundle.
