(* ===== verification/BundleDecision.v ===== *)
(** * Independent verification of decisions ([evidencebundle/independent_verification.go])

    From the payloads of a bundle alone, the policy is compiled again, its rules
    are executed again on the embedded evidence, and the outcomes and the result
    are compared with the decision trace. *)

From Stdlib Require Import Ascii String.
From S2P Require Import Prelude GoTime GoString Uuid GoJson GoJsonDecode GoUnmarshal GoTimeParse.
From S2P Require Import Evaluation Evidence Policy PdsRules RuleOperators PolicyCompiler Bundle.
Import evidencebundle.

Module verification.

(** ** The trace and the evidence, decoded *)

(** The structs of a trace, with the arrays of their slices. *)
Record outcomeJSON := MkOutcomeJSON {
  jsonRuleID : string;
  jsonOutcomeStatus : string;
  jsonOutcomeReasons : Slice string;
  jsonEvaluatedAt : Time
}.

Record referenceJSON := MkReferenceJSON {
  jsonEvidenceID : UUID;
  jsonRefStatus : string;
  jsonRefReasons : Slice string
}.

Record bindingJSON := MkBindingJSON {
  jsonBoundSessionID : UUID;
  jsonBoundStatus : string;
  jsonBoundPolicyVersion : string;
  jsonQualifiedAt : Time;
  jsonReasons : Slice string;
  jsonEvidence : Slice referenceJSON
}.

Record traceJSON := MkTraceJSON {
  jsonEvaluationID : UUID;
  jsonSessionID : UUID;
  jsonTraceVersion : Z;
  jsonState : string;
  jsonResult : string;
  jsonReasonCodes : Slice string;
  jsonRequired : Slice string;
  jsonMissing : Slice string;
  jsonOutcomes : Slice outcomeJSON;
  jsonCreatedAt : Time;
  jsonStartedAt : option Time;
  jsonCompletedAt : option Time;
  jsonExpiredAt : option Time;
  jsonEvidenceBinding : option bindingJSON;
  jsonPolicyBinding : option evaluation.PolicyBinding
}.

#[global] Instance outcomeJSON_eta : Eta outcomeJSON :=
  fun o => MkOutcomeJSON (jsonRuleID o) (jsonOutcomeStatus o) (jsonOutcomeReasons o) (jsonEvaluatedAt o).

#[global] Instance referenceJSON_eta : Eta referenceJSON :=
  fun r => MkReferenceJSON (jsonEvidenceID r) (jsonRefStatus r) (jsonRefReasons r).

#[global] Instance bindingJSON_eta : Eta bindingJSON :=
  fun b => MkBindingJSON (jsonBoundSessionID b) (jsonBoundStatus b) (jsonBoundPolicyVersion b) (jsonQualifiedAt b)
             (jsonReasons b) (jsonEvidence b).

#[global] Instance traceJSON_eta : Eta traceJSON :=
  fun t => MkTraceJSON (jsonEvaluationID t) (jsonSessionID t) (jsonTraceVersion t) (jsonState t) (jsonResult t)
             (jsonReasonCodes t) (jsonRequired t) (jsonMissing t) (jsonOutcomes t) (jsonCreatedAt t) (jsonStartedAt t)
             (jsonCompletedAt t) (jsonExpiredAt t) (jsonEvidenceBinding t) (jsonPolicyBinding t).

#[global] Instance IntegrityMetadata_eta : Eta evidence.IntegrityMetadata :=
  fun i => evidence.MkIntegrity (evidence.Algorithm i) (evidence.PayloadDigest i) (evidence.SchemaVersion i)
             (evidence.RuntimeVersion i) (evidence.AcquisitionMethod i).

Definition zeroOutcome : outcomeJSON := MkOutcomeJSON "" "" nil_slice ZeroTime.
Definition zeroReference : referenceJSON := MkReferenceJSON NilUUID "" nil_slice.
Definition zeroBinding : bindingJSON := MkBindingJSON NilUUID "" "" ZeroTime nil_slice nil_slice.
Definition zeroPolicyBinding : evaluation.PolicyBinding := evaluation.MkPolicyBinding "" "" "" ZeroTime.
Definition zeroTrace : traceJSON :=
  MkTraceJSON NilUUID NilUUID 0 "" "" nil_slice nil_slice nil_slice nil_slice ZeroTime None None None None None.
Definition zeroEvidence : evidence.Snapshot :=
  evidence.MkSnapshot NilUUID NilUUID "" "" "" ZeroTime ZeroTime [] None ∅ (evidence.MkIntegrity "" "" "" "" "").

Definition toOutcome (o : outcomeJSON) : evaluation.RuleOutcome :=
  evaluation.MkRuleOutcome (jsonRuleID o) (jsonOutcomeStatus o) (items (jsonOutcomeReasons o)) (jsonEvaluatedAt o).

Definition toReference (r : referenceJSON) : evaluation.EvidenceReference :=
  evaluation.MkEvidenceReference (jsonEvidenceID r) (jsonRefStatus r) (items (jsonRefReasons r)).

Definition toBinding (b : bindingJSON) : evaluation.EvidenceSetBinding :=
  evaluation.MkEvidenceSetBinding (jsonBoundSessionID b) (jsonBoundStatus b) (jsonBoundPolicyVersion b)
    (jsonQualifiedAt b) (items (jsonReasons b)) (toReference <$> items (jsonEvidence b)).

Definition toTrace (t : traceJSON) : evaluation.DecisionTrace :=
  evaluation.MkDecisionTrace (jsonEvaluationID t) (jsonSessionID t) (jsonTraceVersion t) (jsonState t) (jsonResult t)
    (items (jsonReasonCodes t)) (items (jsonRequired t)) (items (jsonMissing t)) (toOutcome <$> items (jsonOutcomes t))
    (jsonCreatedAt t) (jsonStartedAt t) (jsonCompletedAt t) (jsonExpiredAt t) (toBinding <$> jsonEvidenceBinding t)
    (jsonPolicyBinding t).

Section verification.
Context {P : Platform}.

Abbreviation field_ name get dec := (name, unmarshal.into get (fset get) dec).
Abbreviation strings := (unmarshal.decode_slice EmptyString unmarshal.decode_string).
Abbreviation time := (decode_time fixed_zone).
Abbreviation time_pointer := (unmarshal.decode_pointer ZeroTime (decode_time fixed_zone)).

Definition decode_outcome : unmarshal.decoder outcomeJSON :=
  unmarshal.decode_struct
    [field_ "RuleID" jsonRuleID unmarshal.decode_string; field_ "Status" jsonOutcomeStatus unmarshal.decode_string;
     field_ "ReasonCodes" jsonOutcomeReasons strings; field_ "EvaluatedAt" jsonEvaluatedAt time].

Definition decode_reference : unmarshal.decoder referenceJSON :=
  unmarshal.decode_struct
    [field_ "EvidenceID" jsonEvidenceID unmarshal.decode_uuid; field_ "Status" jsonRefStatus unmarshal.decode_string;
     field_ "Reasons" jsonRefReasons strings].

Definition decode_binding : unmarshal.decoder bindingJSON :=
  unmarshal.decode_struct
    [field_ "SessionID" jsonBoundSessionID unmarshal.decode_uuid;
     field_ "Status" jsonBoundStatus unmarshal.decode_string;
     field_ "PolicyVersion" jsonBoundPolicyVersion unmarshal.decode_string; field_ "QualifiedAt" jsonQualifiedAt time;
     field_ "Reasons" jsonReasons strings;
     field_ "Evidence" jsonEvidence (unmarshal.decode_slice zeroReference decode_reference)].

Definition decode_policy_binding : unmarshal.decoder evaluation.PolicyBinding :=
  unmarshal.decode_struct
    [field_ "PolicyID" evaluation.PolicyID unmarshal.decode_string;
     field_ "Version" evaluation.PolicyBindingVersion unmarshal.decode_string;
     field_ "Hash" evaluation.Hash unmarshal.decode_string; field_ "BoundAt" evaluation.BoundAt time].

Definition decode_trace : unmarshal.decoder traceJSON :=
  unmarshal.decode_struct
    [field_ "EvaluationID" jsonEvaluationID unmarshal.decode_uuid; field_ "SessionID" jsonSessionID unmarshal.decode_uuid;
     field_ "Version" jsonTraceVersion unmarshal.decode_uint64; field_ "State" jsonState unmarshal.decode_string;
     field_ "Result" jsonResult unmarshal.decode_string; field_ "ReasonCodes" jsonReasonCodes strings;
     field_ "RequiredRuleIDs" jsonRequired strings; field_ "MissingRuleIDs" jsonMissing strings;
     field_ "RuleOutcomes" jsonOutcomes (unmarshal.decode_slice zeroOutcome decode_outcome);
     field_ "CreatedAt" jsonCreatedAt time; field_ "StartedAt" jsonStartedAt time_pointer;
     field_ "CompletedAt" jsonCompletedAt time_pointer; field_ "ExpiredAt" jsonExpiredAt time_pointer;
     field_ "EvidenceBinding" jsonEvidenceBinding (unmarshal.decode_pointer zeroBinding decode_binding);
     field_ "PolicyBinding" jsonPolicyBinding (unmarshal.decode_pointer zeroPolicyBinding decode_policy_binding)].

Definition decode_integrity : unmarshal.decoder evidence.IntegrityMetadata :=
  unmarshal.decode_struct
    [field_ "algorithm" evidence.Algorithm unmarshal.decode_string;
     field_ "payload_digest" evidence.PayloadDigest unmarshal.decode_string;
     field_ "schema_version" evidence.SchemaVersion unmarshal.decode_string;
     field_ "runtime_version" evidence.RuntimeVersion unmarshal.decode_string;
     field_ "acquisition_method" evidence.AcquisitionMethod unmarshal.decode_string].

Definition decode_evidence : unmarshal.decoder evidence.Snapshot :=
  unmarshal.decode_struct
    [field_ "evidence_id" evidence.EvidenceID unmarshal.decode_uuid;
     field_ "session_id" evidence.SessionID unmarshal.decode_uuid;
     field_ "source_id" evidence.SourceID unmarshal.decode_string;
     field_ "source_type" evidence.SourceType unmarshal.decode_string;
     field_ "evidence_type" evidence.EvidenceType unmarshal.decode_string;
     field_ "observed_at" evidence.ObservedAt time; field_ "received_at" evidence.ReceivedAt time;
     field_ "payload" evidence.Payload unmarshal.decode_raw;
     field_ "confidence" evidence.Confidence (unmarshal.decode_pointer GoFloat.f_zero unmarshal.decode_float);
     field_ "provenance" evidence.Provenance unmarshal.decode_string_map;
     field_ "integrity" evidence.Integrity decode_integrity].

(** The loop over the objects: the trace, once, and the evidence by identity. *)
Fixpoint readObjects (trace : option evaluation.DecisionTrace) (byID : gmap UUID evidence.Snapshot) (l : list Object)
    : outcome Error (option evaluation.DecisionTrace * gmap UUID evidence.Snapshot) :=
  match l with
  | [] => Ok (trace, byID)
  | o :: l =>
      if Path o == tracePath then
        match trace with
        | Some _ => Err ErrDecisionTraceRequired
        | None =>
            match unmarshal.Unmarshal decode_trace (Payload o) zeroTrace with
            | None => Err ErrDecisionTraceRequired
            | Some t => readObjects (Some (toTrace t)) byID l
            end
        end
      else if take 9 (bytes_of (Path o)) == bytes_of "evidence/" then
        match unmarshal.Unmarshal decode_evidence (Payload o) zeroEvidence with
        | None => Err ErrEvidenceObjectMismatch
        | Some s =>
            let! object := omap_err EvidenceError (evidence.Rehydrate s) in
            let s := evidence.ObjectSnapshot object in
            if bool_decide (is_Some (byID !! evidence.EvidenceID s)) then Err ErrEvidenceObjectMismatch else
            readObjects trace (<[evidence.EvidenceID s := s]> byID) l
        end
      else readObjects trace byID l
  end.

(** The evidence in the order of its references, each taken once. *)
Fixpoint orderReferences (sessionID : UUID) (byID : gmap UUID evidence.Snapshot)
    (references : list evaluation.EvidenceReference) : outcome Error (list evidence.Snapshot) :=
  match references with
  | [] => if size byID == 0%nat then Ok [] else Err ErrEvidenceObjectMismatch
  | r :: references =>
      if evaluation.RefStatus r != evaluation.EvidenceQualified then Err ErrIndependentVerificationScope else
      match byID !! evaluation.EvidenceID r with
      | None => Err ErrEvidenceObjectMismatch
      | Some s =>
          if evidence.SessionID s != sessionID then Err ErrEvidenceObjectMismatch else
          let! ordered := orderReferences sessionID (delete (evaluation.EvidenceID r) byID) references in
          Ok (s :: ordered)
      end
  end.

Definition verificationInputs (b : Bundle) : outcome Error (evaluation.DecisionTrace * list evidence.Snapshot) :=
  let! read := readObjects None ∅ (Objects b) in
  match read with
  | (Some trace, byID) =>
      match evaluation.TraceEvidenceBinding trace with
      | None => Err ErrDecisionTraceRequired
      | Some binding =>
          if (size byID != length (evaluation.Evidence binding))%go then Err ErrDecisionTraceRequired else
          let! ordered := orderReferences (evaluation.TraceSessionID trace) byID (evaluation.Evidence binding) in
          Ok (trace, ordered)
      end
  | (None, _) => Err ErrDecisionTraceRequired
  end.

(** ** Recalculation *)

Record RecalculatedOutcome := MkRecalculatedOutcome {
  RuleID : string;
  Status : evaluation.RuleOutcomeStatus;
  ReasonCodes : list evaluation.ReasonCode
}.

Record IndependentVerificationReport := MkReport {
  ReportBundleID : UUID;
  ReportEvaluationID : UUID;
  ReportPolicy : PolicyReference;
  StoredResult : evaluation.VerificationResult;
  RecalculatedResult : evaluation.VerificationResult;
  Outcomes : list RecalculatedOutcome;
  Verified : bool
}.

Definition updateVerificationResult (result : evaluation.VerificationResult) (status : evaluation.RuleOutcomeStatus)
    : evaluation.VerificationResult :=
  if status == evaluation.RuleOutcomeFail then evaluation.ResultRejected else
  if status == evaluation.RuleOutcomeInconclusive then
    if result != evaluation.ResultRejected then evaluation.ResultManualReview else result
  else if status == evaluation.RuleOutcomeWarning then
    if result == evaluation.ResultVerified then evaluation.ResultVerifiedWithException else result
  else result.

Fixpoint sameStrings (l r : list string) : bool :=
  match l, r with
  | [], [] => true
  | a :: l, b :: r => (a == b) && sameStrings l r
  | _, _ => false
  end.

Definition sameReasonCodes (l r : list evaluation.ReasonCode) : bool := sameStrings l r.

(** [copyEvidenceForVerification] hands every operator the same evidence. *)
Definition verificationInput (trace : evaluation.DecisionTrace) (s : policy.Snapshot)
    (snapshots : list evidence.Snapshot) : rules.RuleInput :=
  rules.MkRuleInput (evaluation.TraceEvaluationID trace) (evaluation.TraceSessionID trace) (policy.PolicyID s)
    (policy.VersionName s) (policy.Hash s) snapshots.

(** The loop over the required rules and the outcomes of the trace, of which
    there are as many. *)
Fixpoint recalculate (version : policy.Version) (input : rules.RuleInput) (ruleIDs : list string)
    (expected : list evaluation.RuleOutcome) (result : evaluation.VerificationResult)
    : outcome Error (list RecalculatedOutcome * evaluation.VerificationResult) :=
  match ruleIDs, expected with
  | ruleID :: ruleIDs, e :: expected =>
      if evaluation.RuleID e != ruleID then Err ErrIndependentVerificationFailed else
      let! operator := omap_err CompilerError (compiler.CompileRule (Some version) ruleID) in
      match rules.Evaluate operator input with
      | None => Err ErrIndependentVerificationFailed
      | Some decision =>
          let outcome := MkRecalculatedOutcome ruleID (rules.Status decision) (rules.ReasonCodes decision) in
          if (evaluation.Status e != Status outcome) ||
             negb (sameReasonCodes (evaluation.ReasonCodes e) (ReasonCodes outcome))
          then Err ErrRecalculatedOutcomeMismatch else
          let! rest := recalculate version input ruleIDs expected (updateVerificationResult result (Status outcome)) in
          Ok (outcome :: rest.1, rest.2)
      end
  | _, _ => Ok ([], result)
  end.

Definition VerifyDecision (b : Bundle) : outcome Error IndependentVerificationReport :=
  match Verify b with
  | Some err => Err err
  | None =>
      let! s := PolicySnapshot b in
      let! inputs := verificationInputs b in
      let '(trace, snapshots) := inputs in
      let m := BundleManifest b in
      if (evaluation.TraceState trace != evaluation.StateCompleted) ||
         (evaluation.TraceCompletedAt trace == None) || (evaluation.TraceRequiredRuleIDs trace == []) ||
         (evaluation.TraceMissingRuleIDs trace != []) ||
         (length (evaluation.TraceRuleOutcomes trace) != length (evaluation.TraceRequiredRuleIDs trace))%go
      then Err ErrIndependentVerificationScope else
      if (evaluation.TraceEvaluationID trace != EvaluationID m) || (evaluation.TraceSessionID trace != SessionID m) ||
         match evaluation.TracePolicyBinding trace with
         | None => true
         | Some p => negb (refersTo s (evaluation.PolicyID p) (evaluation.PolicyBindingVersion p) (evaluation.Hash p))
         end
      then Err ErrIndependentVerificationFailed else
      if negb (sameStrings (evaluation.TraceRequiredRuleIDs trace) (policy.RequiredRuleIDs s))
      then Err ErrIndependentVerificationFailed else
      let! version := omap_err PolicyError (policy.Rehydrate s) in
      match compiler.ValidatePolicyDocument map_range (Some version) with
      | Some err => Err (CompilerError err)
      | None =>
          let! r := recalculate version (verificationInput trace s snapshots) (evaluation.TraceRequiredRuleIDs trace)
                      (evaluation.TraceRuleOutcomes trace) evaluation.ResultVerified in
          let '(recalculated, result) := r in
          if result != evaluation.TraceResult trace then Err ErrRecalculatedDecisionMismatch else
          Ok (MkReport (BundleID m) (evaluation.TraceEvaluationID trace) (ManifestPolicy m) (evaluation.TraceResult trace)
                result recalculated true)
      end
  end.

End verification.

End verification.
