(* ===== verification/BundleSigning.v ===== *)
(** * Signatures, timestamps and certificates of bundles ([evidencebundle/])

    An external signer signs the manifest ([signature.go]), a timestamp
    authority the signature ([timestamp.go]), and a verifier, after it repeated
    the decision, a certificate ([verification_certificate.go]). Each is checked
    against a key of the trust store that was live. *)

From Stdlib Require Import Ascii String.
From S2P Require Import Prelude GoTime GoString Uuid GoCrypto GoJson GoJsonStruct GoJsonReads GoTimeFormat.
From S2P Require Import Evaluation Policy Bundle BundleDecision.
Import evidencebundle verification.

Module signing.

Definition SignatureAlgorithm : string := policy.AlgorithmEd25519.

(** ** Keys *)

(** The key of [signerID] and [keyID] was usable at the time a signature was
    made, in the order of the checks. The algorithm of the signature itself is
    a part of its binding, which is checked before. *)
Definition keyError (key : policy.VerificationKey) (signerID keyID : string) (at_ : Time) : option Error :=
  if (policy.KeySignerID key != signerID) || (policy.KeyKeyID key != keyID)
  then Some (PolicyError policy.ErrVerificationKeyAbsent) else
  if policy.KeyAlgorithm key != SignatureAlgorithm then Some (PolicyError policy.ErrUnsupportedAlgorithm) else
  if negb (IsZero (policy.ValidFrom key)) && Before at_ (UTC (policy.ValidFrom key))
  then Some (PolicyError policy.ErrKeyNotYetValid) else None.

(** [t != nil && !at.Before(t.UTC())] *)
Definition reached (limit : option Time) (at_ : Time) : bool :=
  match limit with
  | None => false
  | Some t => negb (Before at_ (UTC t))
  end.

(** The value is an Ed25519 signature of the payload under the key. *)
Definition signed {P : Platform} (key : policy.VerificationKey) (payload : bytes) (value : string) : bool :=
  match base64_Decode value with
  | None => false
  | Some value =>
      (length value == 64%nat) && (length (policy.PublicKey key) == 32%nat) &&
      ed25519_Verify (policy.PublicKey key) payload value
  end.

(** ** Signatures *)

Definition SignatureSchemaVersion : string := "cargoos.evidence-bundle.signature.v1".
Definition signatureDomain : string := "cargoos:evidence-bundle-signature:v1".

Record Signature := MkSignature {
  SignatureSchema : string;
  Algorithm : string;
  SignatureHashAlgorithm : string;
  KeyID : string;
  SignerID : string;
  SigningTime : Time;
  SignedManifestHash : string;
  BundleRootHash : string;
  Value : string
}.

#[global] Instance Signature_eq_dec : EqDecision Signature.
Proof. solve_decision. Defined.

Record VerifiedBundle := MkVerifiedBundle {
  verifiedBundle : Bundle;
  signature : Signature
}.

(** [copyBundle]: the copy of an empty slice is nil. *)
Definition copyBundle (b : Bundle) : Bundle :=
  let m := BundleManifest b in
  MkBundle (m <| ManifestObjects := match ManifestObjects m with Some [] => None | o => o end |>) (Objects b).

(** The methods of a verified bundle. *)
Definition VerifiedCopy (v : VerifiedBundle) : Bundle := copyBundle (verifiedBundle v).

Section signing.
Context {P : Platform}.

Definition NewSignature (b : Bundle) (signerID keyID : string) (signingTime : Time) : outcome Error Signature :=
  match Verify b with
  | Some err => Err err
  | None =>
      let signerID := TrimSpace signerID in
      let keyID := TrimSpace keyID in
      let signingTime := UTC signingTime in
      if (signerID == "") || (keyID == "") then Err ErrBundleSignerRequired else
      if IsZero signingTime || Before signingTime (GeneratedAt (BundleManifest b)) then Err ErrBundleSigningTime else
      let! manifestPayload := CanonicalManifest (BundleManifest b) in
      Ok (MkSignature SignatureSchemaVersion SignatureAlgorithm HashAlgorithm keyID signerID signingTime
            (digest manifestPayload) (BundleRoot (BundleManifest b)) "")
  end.

(** [s] is empty, or has white space around it. *)
Definition unnamed (s : string) : bool := (s == "") || (s != TrimSpace s).

Definition validateSignatureBinding (b : Bundle) (s : Signature) (requireValue : bool) : option Error :=
  match Verify b with
  | Some err => Some err
  | None =>
      if (SignatureSchema s != SignatureSchemaVersion) || (Algorithm s != SignatureAlgorithm) ||
         (SignatureHashAlgorithm s != HashAlgorithm)
      then Some ErrBundleSignatureBinding else
      if unnamed (SignerID s) || unnamed (KeyID s) then Some ErrBundleSignerRequired else
      if IsZero (SigningTime s) || Before (SigningTime s) (GeneratedAt (BundleManifest b))
      then Some ErrBundleSigningTime else
      match CanonicalManifest (BundleManifest b) with
      | Err err => Some err
      | Ok manifestPayload =>
          if (SignedManifestHash s != digest manifestPayload) || (BundleRootHash s != BundleRoot (BundleManifest b))
          then Some ErrBundleSignatureBinding else
          if requireValue && (Value s == "") then Some ErrBundleSignatureRequired else None
      end
  end.

(** The envelope that is signed. *)
Definition signatureEnvelope (s : Signature) : option bytes :=
  match MarshalTime 0 (UTC (SigningTime s)) with
  | None => None
  | Some signingTime =>
      Some (struct
        [("domain", quoteString signatureDomain); ("schema_version", quoteString (SignatureSchema s));
         ("signature_algorithm", quoteString (Algorithm s)); ("hash_algorithm", quoteString (SignatureHashAlgorithm s));
         ("key_id", quoteString (KeyID s)); ("signer_id", quoteString (SignerID s)); ("signing_time", signingTime);
         ("signed_manifest_hash", quoteString (SignedManifestHash s)); ("bundle_root_hash", quoteString (BundleRootHash s))])
  end.

Definition SigningPayload (b : Bundle) (s : Signature) : outcome Error bytes :=
  match validateSignatureBinding b s false with
  | Some err => Err err
  | None =>
      match signatureEnvelope s with
      | None => Err MarshalError
      | Some payload => Ok (sha256 payload)
      end
  end.

Definition VerifySignature `{!policy.TrustStore T} (b : Bundle) (s : Signature) (store : option T) (verifiedAt : Time)
    : outcome Error VerifiedBundle :=
  match store with
  | None => Err ErrBundleTrustStore
  | Some store =>
      let verifiedAt := UTC verifiedAt in
      if IsZero verifiedAt || Before verifiedAt (UTC (SigningTime s)) then Err ErrBundleSigningTime else
      match validateSignatureBinding b s true with
      | Some err => Err err
      | None =>
          let! key := omap_err PolicyError (policy.ResolveVerificationKey (SignerID s) (KeyID s) store) in
          match keyError key (SignerID s) (KeyID s) (SigningTime s) with
          | Some err => Err err
          | None =>
              if reached (policy.ValidUntil key) (SigningTime s) then Err (PolicyError policy.ErrKeyExpired) else
              if reached (policy.RevokedAt key) (SigningTime s) then Err (PolicyError policy.ErrKeyRevoked) else
              if reached (policy.ValidUntil key) verifiedAt then Err (PolicyError policy.ErrKeyExpired) else
              if reached (policy.RevokedAt key) verifiedAt then Err (PolicyError policy.ErrKeyRevoked) else
              match SigningPayload b s with
              | Err _ => Err ErrBundleSignatureInvalid
              | Ok payload =>
                  if negb (signed key payload (Value s)) then Err ErrBundleSignatureInvalid else
                  Ok (MkVerifiedBundle (copyBundle b) s)
              end
          end
      end
  end.

Definition MarshalSignature (s : Signature) : option bytes :=
  match MarshalTimeIn (SigningTime s) with
  | None => None
  | Some signingTime =>
      Some (struct
        [("schema_version", quoteString (SignatureSchema s)); ("signature_algorithm", quoteString (Algorithm s));
         ("hash_algorithm", quoteString (SignatureHashAlgorithm s)); ("key_id", quoteString (KeyID s));
         ("signer_id", quoteString (SignerID s)); ("signing_time", signingTime);
         ("signed_manifest_hash", quoteString (SignedManifestHash s));
         ("bundle_root_hash", quoteString (BundleRootHash s)); ("value", quoteString (Value s))])
  end.

Definition CanonicalSignature (s : Signature) : outcome Error bytes :=
  if SignatureSchema s != SignatureSchemaVersion then Err ErrBundleSignatureBinding else
  match MarshalSignature s with
  | None => Err MarshalError
  | Some payload => Ok payload
  end.

(** ** Timestamps *)

Definition TimestampSchemaVersion : string := "cargoos.evidence-bundle.timestamp.v1".
Definition timestampDomain : string := "cargoos:evidence-bundle-timestamp:v1".

Record TrustedTimestamp := MkTrustedTimestamp {
  TimestampSchema : string;
  TimestampSignatureAlgorithm : string;
  TimestampHashAlgorithm : string;
  AuthorityID : string;
  TimestampKeyID : string;
  SerialNumber : string;
  IssuedAt : Time;
  SignatureHash : string;
  TimestampRootHash : string;
  TimestampValue : string
}.

Record TimestampedBundle := MkTimestampedBundle {
  verified : VerifiedBundle;
  timestamp : TrustedTimestamp
}.

Definition NewTrustedTimestamp (v : option VerifiedBundle) (authorityID keyID serialNumber : string) (issuedAt : Time)
    : outcome Error TrustedTimestamp :=
  match v with
  | None => Err ErrBundleSignatureRequired
  | Some v =>
      let authorityID := TrimSpace authorityID in
      let keyID := TrimSpace keyID in
      let serialNumber := TrimSpace serialNumber in
      let issuedAt := UTC issuedAt in
      if (authorityID == "") || (keyID == "") || (serialNumber == "") then Err ErrTimestampAuthority else
      if IsZero issuedAt || Before issuedAt (UTC (SigningTime (signature v))) then Err ErrBundleTimestampTime else
      let! signaturePayload := CanonicalSignature (signature v) in
      Ok (MkTrustedTimestamp TimestampSchemaVersion SignatureAlgorithm HashAlgorithm authorityID keyID serialNumber
            issuedAt (digest signaturePayload) (BundleRoot (BundleManifest (verifiedBundle v))) "")
  end.

Definition validateTimestampBinding (t : TrustedTimestamp) (requireValue : bool) : option Error :=
  if (TimestampSchema t != TimestampSchemaVersion) || (TimestampSignatureAlgorithm t != SignatureAlgorithm) ||
     (TimestampHashAlgorithm t != HashAlgorithm)
  then Some ErrBundleTimestampBinding else
  if unnamed (AuthorityID t) || unnamed (TimestampKeyID t) || unnamed (SerialNumber t)
  then Some ErrTimestampAuthority else
  if IsZero (IssuedAt t) then Some ErrBundleTimestampTime else
  if (SignatureHash t == "") || (TimestampRootHash t == "") then Some ErrBundleTimestampBinding else
  if requireValue && (TimestampValue t == "") then Some ErrBundleTimestampRequired else None.

(** The fields of a timestamp, after the ones given. *)
Definition timestampFields (t : TrustedTimestamp) (issued : bytes) : list (string * bytes) :=
  [("schema_version", quoteString (TimestampSchema t));
   ("signature_algorithm", quoteString (TimestampSignatureAlgorithm t));
   ("hash_algorithm", quoteString (TimestampHashAlgorithm t)); ("authority_id", quoteString (AuthorityID t));
   ("key_id", quoteString (TimestampKeyID t)); ("serial_number", quoteString (SerialNumber t)); ("issued_at", issued);
   ("signature_hash", quoteString (SignatureHash t)); ("bundle_root_hash", quoteString (TimestampRootHash t))].

Definition timestampEnvelope (t : TrustedTimestamp) : option bytes :=
  (fun issued => struct (("domain", quoteString timestampDomain) :: timestampFields t issued)) <$>
  MarshalTime 0 (UTC (IssuedAt t)).

Definition TimestampSigningPayload (t : TrustedTimestamp) : outcome Error bytes :=
  match validateTimestampBinding t false with
  | Some err => Err err
  | None =>
      match timestampEnvelope t with
      | None => Err MarshalError
      | Some payload => Ok (sha256 payload)
      end
  end.

Definition MarshalTimestamp (t : TrustedTimestamp) : option bytes :=
  (fun issued => struct (timestampFields t issued ++ [("value", quoteString (TimestampValue t))])) <$>
  MarshalTimeIn (IssuedAt t).

Definition CanonicalTimestamp (t : TrustedTimestamp) : outcome Error bytes :=
  match validateTimestampBinding t true with
  | Some err => Err err
  | None =>
      match MarshalTimestamp t with
      | None => Err MarshalError
      | Some payload => Ok payload
      end
  end.

Definition VerifyTrustedTimestamp `{!policy.TrustStore T} (v : option VerifiedBundle) (t : TrustedTimestamp)
    (store : option T) (verifiedAt : Time) : outcome Error TimestampedBundle :=
  match v, store with
  | None, _ => Err ErrBundleSignatureRequired
  | _, None => Err ErrBundleTrustStore
  | Some v, Some store =>
      let verifiedAt := UTC verifiedAt in
      if IsZero verifiedAt || Before verifiedAt (UTC (IssuedAt t)) ||
         Before (IssuedAt t) (UTC (SigningTime (signature v)))
      then Err ErrBundleTimestampTime else
      match validateTimestampBinding t true with
      | Some err => Err err
      | None =>
          match CanonicalSignature (signature v) with
          | Err _ => Err ErrBundleTimestampBinding
          | Ok signaturePayload =>
              if (SignatureHash t != digest signaturePayload) ||
                 (TimestampRootHash t != BundleRoot (BundleManifest (verifiedBundle v)))
              then Err ErrBundleTimestampBinding else
              let! key := omap_err PolicyError (policy.ResolveVerificationKey (AuthorityID t) (TimestampKeyID t) store) in
              match keyError key (AuthorityID t) (TimestampKeyID t) (IssuedAt t) with
              | Some err => Err err
              | None =>
                  if reached (policy.ValidUntil key) (IssuedAt t) then Err (PolicyError policy.ErrKeyExpired) else
                  if reached (policy.RevokedAt key) (IssuedAt t) then Err (PolicyError policy.ErrKeyRevoked) else
                  match TimestampSigningPayload t with
                  | Err _ => Err ErrBundleTimestampInvalid
                  | Ok payload =>
                      if negb (signed key payload (TimestampValue t)) then Err ErrBundleTimestampInvalid else
                      Ok (MkTimestampedBundle (MkVerifiedBundle (VerifiedCopy v) (signature v)) t)
                  end
              end
          end
      end
  end.

(** ** Certificates *)

Definition VerificationCertificateSchema : string := "cargoos.evidence-bundle.verification-certificate.v1".
Definition verificationCertificateDomain : string := "cargoos:evidence-bundle-verification-certificate:v1".

Record VerificationCertificate := MkVerificationCertificate {
  CertificateSchema : string;
  CertificateID : UUID;
  CertificateBundleID : UUID;
  CertificateEvaluationID : UUID;
  CertificateRoot : string;
  CertificatePolicy : PolicyReference;
  CertificateStoredResult : evaluation.VerificationResult;
  CertificateRecalculatedResult : evaluation.VerificationResult;
  CertificateOutcomes : list RecalculatedOutcome;
  TimestampHash : string;
  TimestampIssuedAt : Time;
  VerifierID : string;
  CertificateKeyID : string;
  CertificateIssuedAt : Time;
  CertificateAlgorithm : string;
  CertificateHashAlgorithm : string;
  CertificateValue : string
}.

#[global] Instance VerificationCertificate_eta : Eta VerificationCertificate :=
  fun c => MkVerificationCertificate (CertificateSchema c) (CertificateID c) (CertificateBundleID c)
             (CertificateEvaluationID c) (CertificateRoot c) (CertificatePolicy c) (CertificateStoredResult c)
             (CertificateRecalculatedResult c) (CertificateOutcomes c) (TimestampHash c) (TimestampIssuedAt c)
             (VerifierID c) (CertificateKeyID c) (CertificateIssuedAt c) (CertificateAlgorithm c)
             (CertificateHashAlgorithm c) (CertificateValue c).

Definition NewVerificationCertificate (report : IndependentVerificationReport) (t : option TimestampedBundle)
    (certificateID : UUID) (verifierID keyID : string) (issuedAt : Time) : outcome Error VerificationCertificate :=
  match t with
  | None => Err ErrVerificationCertificateBinding
  | Some t =>
      if negb (Verified report) then Err ErrVerificationCertificateBinding else
      let verifierID := TrimSpace verifierID in
      let keyID := TrimSpace keyID in
      let issuedAt := UTC issuedAt in
      let m := BundleManifest (verifiedBundle (verified t)) in
      if (certificateID == NilUUID) || (verifierID == "") || (keyID == "") || (ReportBundleID report != BundleID m) ||
         (ReportEvaluationID report != EvaluationID m) || (ReportPolicy report != ManifestPolicy m) ||
         (StoredResult report != RecalculatedResult report)
      then Err ErrVerificationCertificateBinding else
      if IsZero issuedAt || Before issuedAt (UTC (IssuedAt (timestamp t))) then Err ErrVerificationCertificateTime else
      let! timestampPayload := CanonicalTimestamp (timestamp t) in
      Ok (MkVerificationCertificate VerificationCertificateSchema certificateID (ReportBundleID report)
            (ReportEvaluationID report) (BundleRoot m) (ReportPolicy report) (StoredResult report)
            (RecalculatedResult report) (Outcomes report) (digest timestampPayload) (UTC (IssuedAt (timestamp t)))
            verifierID keyID issuedAt SignatureAlgorithm HashAlgorithm "")
  end.

(** [reason_codes] is left out where there is none. *)
Definition MarshalRecalculated (o : RecalculatedOutcome) : bytes :=
  struct ([("rule_id", quoteString (RuleID o)); ("status", quoteString (Status o))] ++
          if ReasonCodes o == [] then [] else [("reason_codes", MarshalStrings (ReasonCodes o))]).

Definition MarshalCertificate (c : VerificationCertificate) : option bytes :=
  match MarshalTimeIn (TimestampIssuedAt c), MarshalTimeIn (CertificateIssuedAt c) with
  | Some timestampIssued, Some issued =>
      Some (struct
        [("schema_version", quoteString (CertificateSchema c)); ("certificate_id", MarshalUUID (CertificateID c));
         ("bundle_id", MarshalUUID (CertificateBundleID c)); ("evaluation_id", MarshalUUID (CertificateEvaluationID c));
         ("bundle_root", quoteString (CertificateRoot c)); ("policy", MarshalReference (CertificatePolicy c));
         ("stored_result", quoteString (CertificateStoredResult c));
         ("recalculated_result", quoteString (CertificateRecalculatedResult c));
         ("outcomes", array (MarshalRecalculated <$> CertificateOutcomes c));
         ("timestamp_hash", quoteString (TimestampHash c)); ("timestamp_issued_at", timestampIssued);
         ("verifier_id", quoteString (VerifierID c)); ("key_id", quoteString (CertificateKeyID c));
         ("issued_at", issued); ("signature_algorithm", quoteString (CertificateAlgorithm c));
         ("hash_algorithm", quoteString (CertificateHashAlgorithm c)); ("value", quoteString (CertificateValue c))])
  | _, _ => None
  end.

Definition outcomeInvalid (o : RecalculatedOutcome) : bool :=
  (TrimSpace (RuleID o) == "") || negb (evaluation.RuleOutcomeStatusIsValid (Status o)).

Definition validateVerificationCertificate (c : VerificationCertificate) (requireValue : bool) : option Error :=
  if (CertificateSchema c != VerificationCertificateSchema) || (CertificateID c == NilUUID) ||
     (CertificateBundleID c == NilUUID) || (CertificateEvaluationID c == NilUUID) ||
     negb (sha256Pattern (CertificateRoot c)) ||
     (PolicyID (CertificatePolicy c) == "") || (PolicyVersion (CertificatePolicy c) == "") ||
     negb (sha256Pattern (PolicyHash (CertificatePolicy c))) ||
     (CertificateStoredResult c != CertificateRecalculatedResult c) ||
     (CertificateStoredResult c == evaluation.ResultUnknown) ||
     (length (CertificateOutcomes c) == 0%nat) || negb (sha256Pattern (TimestampHash c)) ||
     IsZero (TimestampIssuedAt c) || unnamed (VerifierID c) || unnamed (CertificateKeyID c) ||
     IsZero (CertificateIssuedAt c) || Before (CertificateIssuedAt c) (TimestampIssuedAt c) ||
     (CertificateAlgorithm c != SignatureAlgorithm) || (CertificateHashAlgorithm c != HashAlgorithm)
  then Some ErrVerificationCertificateBinding else
  if existsb outcomeInvalid (CertificateOutcomes c) then Some ErrVerificationCertificateBinding else
  if requireValue && (CertificateValue c == "") then Some ErrVerificationCertificateRequired else None.

Definition certificateEnvelope (c : VerificationCertificate) : option bytes :=
  (fun b => struct [("domain", quoteString verificationCertificateDomain); ("certificate", b)]) <$>
  MarshalCertificate (c <| CertificateValue := "" |>).

Definition VerificationCertificateSigningPayload (c : VerificationCertificate) : outcome Error bytes :=
  match validateVerificationCertificate c false with
  | Some err => Err err
  | None =>
      match certificateEnvelope c with
      | None => Err MarshalError
      | Some payload => Ok (sha256 payload)
      end
  end.

Definition CanonicalVerificationCertificate (c : VerificationCertificate) : outcome Error bytes :=
  match validateVerificationCertificate c true with
  | Some err => Err err
  | None =>
      match MarshalCertificate c with
      | None => Err MarshalError
      | Some payload => Ok payload
      end
  end.

Fixpoint sameRecalculatedOutcomes (l r : list RecalculatedOutcome) : bool :=
  match l, r with
  | [], [] => true
  | a :: l, b :: r =>
      (RuleID a == RuleID b) && (Status a == Status b) && sameReasonCodes (ReasonCodes a) (ReasonCodes b) &&
      sameRecalculatedOutcomes l r
  | _, _ => false
  end.

(** The certificate is about the timestamped bundle. *)
Definition certificateBound (t : TimestampedBundle) (c : VerificationCertificate) : bool :=
  let m := BundleManifest (verifiedBundle (verified t)) in
  match CanonicalTimestamp (timestamp t) with
  | Err _ => false
  | Ok timestampPayload =>
      (CertificateBundleID c == BundleID m) && (CertificateEvaluationID c == EvaluationID m) &&
      (CertificateRoot c == BundleRoot m) && (CertificatePolicy c == ManifestPolicy m) &&
      (TimestampHash c == digest timestampPayload) && TimeEqual (TimestampIssuedAt c) (UTC (IssuedAt (timestamp t)))
  end.

(** The certificate reports what the verification yields. *)
Definition certificateRepeats (b : Bundle) (c : VerificationCertificate) : bool :=
  match VerifyDecision b with
  | Err _ => false
  | Ok report =>
      (StoredResult report == CertificateStoredResult c) &&
      (RecalculatedResult report == CertificateRecalculatedResult c) &&
      sameRecalculatedOutcomes (Outcomes report) (CertificateOutcomes c)
  end.

Definition VerifyVerificationCertificate `{!policy.TrustStore T} (t : option TimestampedBundle)
    (c : VerificationCertificate) (store : option T) (verifiedAt : Time) : outcome Error VerificationCertificate :=
  match t, store with
  | Some t, Some store =>
      let verifiedAt := UTC verifiedAt in
      if IsZero verifiedAt || Before verifiedAt (UTC (CertificateIssuedAt c)) ||
         Before (CertificateIssuedAt c) (UTC (IssuedAt (timestamp t)))
      then Err ErrVerificationCertificateTime else
      match validateVerificationCertificate c true with
      | Some err => Err err
      | None =>
          if negb (certificateBound t c) then Err ErrVerificationCertificateBinding else
          if negb (certificateRepeats (verifiedBundle (verified t)) c) then Err ErrVerificationCertificateBinding else
          let! key := omap_err PolicyError (policy.ResolveVerificationKey (VerifierID c) (CertificateKeyID c) store) in
          match keyError key (VerifierID c) (CertificateKeyID c) (CertificateIssuedAt c) with
          | Some err => Err err
          | None =>
              if reached (policy.ValidUntil key) (CertificateIssuedAt c) || reached (policy.ValidUntil key) verifiedAt
              then Err (PolicyError policy.ErrKeyExpired) else
              if reached (policy.RevokedAt key) (CertificateIssuedAt c) || reached (policy.RevokedAt key) verifiedAt
              then Err (PolicyError policy.ErrKeyRevoked) else
              match VerificationCertificateSigningPayload c with
              | Err _ => Err ErrVerificationCertificateInvalid
              | Ok payload =>
                  if negb (signed key payload (CertificateValue c)) then Err ErrVerificationCertificateInvalid
                  else Ok c
              end
          end
      end
  | _, _ => Err ErrVerificationCertificateRequired
  end.

End signing.

End signing.
