(* ===== verification/Archive.v ===== *)
(** * Portable archives ([evidencebundle/archive.go], [signed_archive.go],
    [timestamped_archive.go])

    A bundle travels as a zip file of stored entries, in the order of their paths:
    the manifest, the objects and, where there are, the signature and the timestamp.
    What is read back is verified like any bundle. *)

From Stdlib Require Import Ascii String.
From S2P Require Import Prelude GoTime GoString Uuid GoJson GoParse GoJsonDecode GoUnmarshal GoTimeFormat GoTimeParse GoZip Policy.
From S2P Require Import Bundle BundleSigning.
Import evidencebundle signing.

Module archives.

Definition ManifestEntryPath : string := "manifest.json".
Definition SignatureEntryPath : string := "signature.json".
Definition TimestampEntryPath : string := "timestamp.json".
Definition ObjectEntryPrefix : string := "objects/".
Definition MaxArchiveSize : Z := 64 * 2 ^ 20.
Definition MaxArchiveEntries : nat := 4096.

(** ** Paths *)

(** The elements of a path that [path.Clean] keeps; the last ones come first in
    [kept]. *)
Fixpoint clean_elements (rooted : bool) (kept l : list bytes) : list bytes :=
  match l with
  | [] => rev kept
  | c :: l =>
      if (c == []) || (c == bytes_of ".") then clean_elements rooted kept l
      else if c == bytes_of ".." then
        match kept with
        | top :: kept' =>
            if top == bytes_of ".." then clean_elements rooted (c :: kept) l else clean_elements rooted kept' l
        | [] => if rooted then clean_elements rooted [] l else clean_elements rooted [c] l
        end
      else clean_elements rooted (c :: kept) l
  end.

Fixpoint join_slash (l : list bytes) : bytes :=
  match l with
  | [] => []
  | [c] => c
  | c :: l => c ++ byte_of 47 :: join_slash l
  end.

(** [path.Clean] *)
Definition Clean (s : string) : string :=
  let b := bytes_of s in
  let rooted := match b with c :: _ => byte_is 47 c | [] => false end in
  let out := (if rooted then [byte_of 47] else []) ++ join_slash (clean_elements rooted [] (split_byte 47 b)) in
  if bool_decide (out = []) then "." else string_of out.

Definition validArchivePath (candidate : string) : bool :=
  (candidate != "") && (candidate == TrimSpace candidate) && negb (String.prefix "/" candidate) &&
  negb (existsb (byte_is 92) (bytes_of candidate)) && (Clean candidate == candidate) && (candidate != ".") &&
  negb (String.prefix "../" candidate).

Definition objectArchivePath (objectPath : string) : outcome Error string :=
  let candidate := (ObjectEntryPrefix ++ objectPath)%string in
  if negb (validArchivePath candidate) || negb (String.prefix ObjectEntryPrefix candidate)
  then Err ErrObjectPathInvalid else Ok candidate.

(** ** The JSON of an archive *)

#[global] Instance ObjectDescriptor_eta : Eta ObjectDescriptor :=
  fun d => MkObjectDescriptor (DescriptorPath d) (DescriptorMediaType d) (Size d) (Digest d).

#[global] Instance PolicyReference_eta : Eta PolicyReference :=
  fun r => MkPolicyReference (PolicyID r) (PolicyVersion r) (PolicyHash r).

#[global] Instance Signature_eta : Eta Signature :=
  fun s => MkSignature (SignatureSchema s) (Algorithm s) (SignatureHashAlgorithm s) (KeyID s) (SignerID s) (SigningTime s)
             (SignedManifestHash s) (BundleRootHash s) (Value s).

#[global] Instance TrustedTimestamp_eta : Eta TrustedTimestamp :=
  fun t => MkTrustedTimestamp (TimestampSchema t) (TimestampSignatureAlgorithm t) (TimestampHashAlgorithm t)
             (AuthorityID t) (TimestampKeyID t) (SerialNumber t) (IssuedAt t) (SignatureHash t) (TimestampRootHash t)
             (TimestampValue t).

(** A manifest while it is decoded, with the array of its objects. *)
Record manifestJSON := MkManifestJSON {
  jsonManifest : Manifest;
  jsonObjects : option (Slice ObjectDescriptor)
}.

#[global] Instance manifestJSON_eta : Eta manifestJSON :=
  fun m => MkManifestJSON (jsonManifest m) (jsonObjects m).

Definition zeroDescriptor : ObjectDescriptor := MkObjectDescriptor "" "" 0 "".
Definition zeroReference : PolicyReference := MkPolicyReference "" "" "".
Definition zeroManifest : manifestJSON :=
  MkManifestJSON (MkManifest "" NilUUID NilUUID NilUUID ZeroTime "" zeroReference None "") None.
Definition zeroSignature : Signature := MkSignature "" "" "" "" "" ZeroTime "" "" "".
Definition zeroTimestamp : TrustedTimestamp := MkTrustedTimestamp "" "" "" "" "" "" ZeroTime "" "" "".

Definition toManifest (m : manifestJSON) : Manifest := (jsonManifest m) <| ManifestObjects := items <$> jsonObjects m |>.

Definition decode_int64 : unmarshal.decoder Z := fun v old =>
  match v with
  | RNull => Some old
  | RNumber literal => Atoi literal
  | _ => None
  end.

(** A field of the manifest. *)
Definition in_manifest {A} (get : Manifest -> A) (set : A -> Manifest -> Manifest) (dec : unmarshal.decoder A)
    : unmarshal.decoder manifestJSON :=
  unmarshal.into (get ∘ jsonManifest) (fun a m => m <| jsonManifest := set a (jsonManifest m) |>) dec.

Definition decode_descriptor : unmarshal.decoder ObjectDescriptor :=
  unmarshal.decode_struct
    [("path", unmarshal.into DescriptorPath (fset DescriptorPath) unmarshal.decode_string);
     ("media_type", unmarshal.into DescriptorMediaType (fset DescriptorMediaType) unmarshal.decode_string);
     ("size", unmarshal.into Size (fset Size) decode_int64);
     ("digest", unmarshal.into Digest (fset Digest) unmarshal.decode_string)].

Definition decode_policy_reference : unmarshal.decoder PolicyReference :=
  unmarshal.decode_struct
    [("policy_id", unmarshal.into PolicyID (fset PolicyID) unmarshal.decode_string);
     ("version", unmarshal.into PolicyVersion (fset PolicyVersion) unmarshal.decode_string);
     ("hash", unmarshal.into PolicyHash (fset PolicyHash) unmarshal.decode_string)].

Section archives.
Context {P : Platform}.

Definition decode_manifest : unmarshal.decoder manifestJSON :=
  unmarshal.decode_struct
    [("schema_version", in_manifest SchemaVersion (fset SchemaVersion) unmarshal.decode_string);
     ("bundle_id", in_manifest BundleID (fset BundleID) unmarshal.decode_uuid);
     ("evaluation_id", in_manifest EvaluationID (fset EvaluationID) unmarshal.decode_uuid);
     ("session_id", in_manifest SessionID (fset SessionID) unmarshal.decode_uuid);
     ("generated_at", in_manifest GeneratedAt (fset GeneratedAt) (decode_time fixed_zone));
     ("hash_algorithm", in_manifest ManifestHashAlgorithm (fset ManifestHashAlgorithm) unmarshal.decode_string);
     ("policy", in_manifest ManifestPolicy (fset ManifestPolicy) decode_policy_reference);
     ("objects", unmarshal.into jsonObjects (fset jsonObjects) (decode_nilable zeroDescriptor decode_descriptor));
     ("bundle_root", in_manifest BundleRoot (fset BundleRoot) unmarshal.decode_string)].

Definition decode_signature : unmarshal.decoder Signature :=
  unmarshal.decode_struct
    [("schema_version", unmarshal.into SignatureSchema (fset SignatureSchema) unmarshal.decode_string);
     ("signature_algorithm", unmarshal.into Algorithm (fset Algorithm) unmarshal.decode_string);
     ("hash_algorithm", unmarshal.into SignatureHashAlgorithm (fset SignatureHashAlgorithm) unmarshal.decode_string);
     ("key_id", unmarshal.into KeyID (fset KeyID) unmarshal.decode_string);
     ("signer_id", unmarshal.into SignerID (fset SignerID) unmarshal.decode_string);
     ("signing_time", unmarshal.into SigningTime (fset SigningTime) (decode_time fixed_zone));
     ("signed_manifest_hash", unmarshal.into SignedManifestHash (fset SignedManifestHash) unmarshal.decode_string);
     ("bundle_root_hash", unmarshal.into BundleRootHash (fset BundleRootHash) unmarshal.decode_string);
     ("value", unmarshal.into Value (fset Value) unmarshal.decode_string)].

Definition decode_timestamp : unmarshal.decoder TrustedTimestamp :=
  unmarshal.decode_struct
    [("schema_version", unmarshal.into TimestampSchema (fset TimestampSchema) unmarshal.decode_string);
     ("signature_algorithm", unmarshal.into TimestampSignatureAlgorithm (fset TimestampSignatureAlgorithm) unmarshal.decode_string);
     ("hash_algorithm", unmarshal.into TimestampHashAlgorithm (fset TimestampHashAlgorithm) unmarshal.decode_string);
     ("authority_id", unmarshal.into AuthorityID (fset AuthorityID) unmarshal.decode_string);
     ("key_id", unmarshal.into TimestampKeyID (fset TimestampKeyID) unmarshal.decode_string);
     ("serial_number", unmarshal.into SerialNumber (fset SerialNumber) unmarshal.decode_string);
     ("issued_at", unmarshal.into IssuedAt (fset IssuedAt) (decode_time fixed_zone));
     ("signature_hash", unmarshal.into SignatureHash (fset SignatureHash) unmarshal.decode_string);
     ("bundle_root_hash", unmarshal.into TimestampRootHash (fset TimestampRootHash) unmarshal.decode_string);
     ("value", unmarshal.into TimestampValue (fset TimestampValue) unmarshal.decode_string)].

End archives.

(** ** Writing *)

(** What the archives take from the platform: [sort.Slice] of entries by path,
    which need not be stable, and the order in which a map of entries is visited. *)
Class ArchivePlatform := {
  sort_entries : list zip.Entry -> list zip.Entry;
  range_entries : gmap string bytes -> list (string * bytes)
}.

Definition entry_le (e f : zip.Entry) : Prop := String.ltb (zip.path f) (zip.path e) = false.

Class ArchiveLaws (A : ArchivePlatform) : Prop := {
  sort_entries_perm l : sort_entries l ≡ₚ l;
  sort_entries_sorted l : Sorted entry_le (sort_entries l);
  range_entries_perm m : range_entries m ≡ₚ map_to_list m
}.

(** The output of the writer and its buffer of 4096 bytes ([bufio]), by their
    sizes. *)
Record Buffered := MkBuffered {
  flushed : Z;
  buffered : Z
}.

Definition buffered_write (n : Z) (w : Buffered) : Buffered :=
  if n <=? 4096 - buffered w then MkBuffered (flushed w) (buffered w + n) else
  if buffered w =? 0 then MkBuffered (flushed w + n) 0 else
  let rest := n - (4096 - buffered w) in
  if rest <=? 4096 then MkBuffered (flushed w + 4096) rest else MkBuffered (flushed w + 4096 + rest) 0.

(** The loop of [writeArchive]: [open] tells whether there is an entry before, whose
    descriptor [CreateHeader] writes; it refuses a name that is too long. *)
Fixpoint writeEntries (w : Buffered) (open : bool) (l : list zip.Entry) : option Error :=
  match l with
  | [] => None
  | e :: l =>
      if MaxArchiveSize <? flushed w + Z.of_nat (length (zip.payload e)) then Some ErrArchiveTooLarge else
      let w := if open then buffered_write 16 w else w in
      let name := Z.of_nat (length (bytes_of (zip.path e))) in
      if zip.uint16max <? name then Some ZipError else
      let w := buffered_write 9 (buffered_write name (buffered_write 30 w)) in
      writeEntries (buffered_write (Z.of_nat (length (zip.payload e))) w) true l
  end.

Section writing.
Context {P : Platform} {A : ArchivePlatform}.

Definition writeArchive (entries : list zip.Entry) : outcome Error bytes :=
  if (length entries =? 0)%nat || (MaxArchiveEntries <? length entries)%nat then Err ErrArchiveTooLarge else
  let entries := sort_entries entries in
  match writeEntries (MkBuffered 0 0) false entries with
  | Some err => Err err
  | None =>
      let output := zip.archive entries in
      if MaxArchiveSize <? Z.of_nat (length output) then Err ErrArchiveTooLarge else Ok output
  end.

Fixpoint objectEntries (l : list Object) : outcome Error (list zip.Entry) :=
  match l with
  | [] => Ok []
  | o :: l =>
      let! entryPath := objectArchivePath (Path o) in
      let! entries := objectEntries l in
      Ok (zip.MkEntry entryPath (Payload o) :: entries)
  end.

Definition bundleArchiveEntries (b : Bundle) : outcome Error (list zip.Entry) :=
  match Verify b with
  | Some err => Err err
  | None =>
      let! manifestPayload := CanonicalManifest (BundleManifest b) in
      if (MaxArchiveEntries <? length (Objects b) + 1)%nat then Err ErrArchiveTooLarge else
      let! entries := objectEntries (Objects b) in
      Ok (zip.MkEntry ManifestEntryPath manifestPayload :: entries)
  end.

Definition ExportArchive (b : Bundle) : outcome Error bytes :=
  let! entries := bundleArchiveEntries b in
  writeArchive entries.

Definition ExportSignedArchive (v : option VerifiedBundle) : outcome Error bytes :=
  match v with
  | None => Err ErrBundleSignatureRequired
  | Some v =>
      let b := VerifiedCopy v in
      match validateSignatureBinding b (signature v) true with
      | Some err => Err err
      | None =>
          let! signaturePayload := CanonicalSignature (signature v) in
          let! entries := bundleArchiveEntries b in
          writeArchive (entries ++ [zip.MkEntry SignatureEntryPath signaturePayload])
      end
  end.

Definition ExportTimestampedArchive (t : option TimestampedBundle) : outcome Error bytes :=
  match t with
  | None => Err ErrBundleTimestampRequired
  | Some t =>
      let! entries := bundleArchiveEntries (verifiedBundle (verified t)) in
      let! signaturePayload := CanonicalSignature (signature (verified t)) in
      let! timestampPayload := CanonicalTimestamp (timestamp t) in
      writeArchive (entries ++ [zip.MkEntry SignatureEntryPath signaturePayload;
                                zip.MkEntry TimestampEntryPath timestampPayload])
  end.

(** ** Reading *)

(** The canonical payload is the one read. *)
Definition is_canonical (canonical : outcome Error bytes) (payload : bytes) : bool :=
  match canonical with
  | Ok b => b == payload
  | Err _ => false
  end.

Definition readArchiveEntry (payload : bytes) (file : zip.File) : outcome Error bytes :=
  match zip.readFile payload file with
  | None => Err ErrArchiveInvalid
  | Some entry =>
      let n := Z.of_nat (length entry) in
      if (MaxArchiveSize <? n) || (n != zip.UncompressedSize64 file) then Err ErrArchiveTooLarge else Ok entry
  end.

(** The loop of [readArchive]. *)
Fixpoint readEntries (payload : bytes) (total : Z) (entries : gmap string bytes) (files : list zip.File)
    : outcome Error (gmap string bytes) :=
  match files with
  | [] => Ok entries
  | file :: files =>
      if negb (validArchivePath (zip.Name file)) || zip.IsDir file || negb (zip.Method file =? 0) then Err ErrArchiveInvalid else
      if bool_decide (is_Some (entries !! zip.Name file)) then Err ErrArchiveInvalid else
      if (MaxArchiveSize <? zip.UncompressedSize64 file) || (MaxArchiveSize <? total + zip.UncompressedSize64 file)
      then Err ErrArchiveTooLarge else
      let! entry := readArchiveEntry payload file in
      readEntries payload (total + Z.of_nat (length entry)) (<[zip.Name file := entry]> entries) files
  end.

Definition readArchive (payload : bytes) : outcome Error (gmap string bytes) :=
  if (length payload =? 0)%nat then Err ErrArchiveInvalid else
  if MaxArchiveSize <? Z.of_nat (length payload) then Err ErrArchiveTooLarge else
  match zip.NewReader payload with
  | None => Err ErrArchiveInvalid
  | Some files =>
      if (length files =? 0)%nat || (MaxArchiveEntries <? length files)%nat then Err ErrArchiveInvalid else
      readEntries payload 0 ∅ files
  end.

(** The objects that the manifest describes, and the entries left. *)
Fixpoint takeObjects (entries : gmap string bytes) (l : list ObjectDescriptor) : outcome Error (list Object * gmap string bytes) :=
  match l with
  | [] => Ok ([], entries)
  | d :: l =>
      let! entryPath := objectArchivePath (DescriptorPath d) in
      match entries !! entryPath with
      | None => Err ErrArchiveEntryMismatch
      | Some payload =>
          let! taken := takeObjects (delete entryPath entries) l in
          Ok (MkObject (DescriptorPath d) (DescriptorMediaType d) payload :: taken.1, taken.2)
      end
  end.

Definition bundleFromArchiveEntries (entries : gmap string bytes) : outcome Error Bundle :=
  match entries !! ManifestEntryPath with
  | None => Err ErrArchiveInvalid
  | Some manifestPayload =>
      let entries := delete ManifestEntryPath entries in
      match unmarshal.Unmarshal decode_manifest manifestPayload zeroManifest with
      | None => Err ErrArchiveInvalid
      | Some decoded =>
          let manifest := toManifest decoded in
          if negb (is_canonical (CanonicalManifest manifest) manifestPayload) then Err ErrArchiveInvalid else
          if negb (size entries =? length (descriptors manifest))%nat then Err ErrArchiveEntryMismatch else
          let! taken := takeObjects entries (descriptors manifest) in
          if negb (size taken.2 =? 0)%nat then Err ErrArchiveEntryMismatch else
          let b := MkBundle manifest taken.1 in
          match Verify b with
          | Some err => Err err
          | None => Ok b
          end
      end
  end.

Definition ImportArchive (payload : bytes) : outcome Error Bundle :=
  let! entries := readArchive payload in
  bundleFromArchiveEntries entries.

Definition ImportSignedArchive `{!policy.TrustStore T} (payload : bytes) (store : option T) (verifiedAt : Time)
    : outcome Error VerifiedBundle :=
  let! entries := readArchive payload in
  match entries !! SignatureEntryPath with
  | None => Err ErrBundleSignatureRequired
  | Some signaturePayload =>
      match unmarshal.Unmarshal decode_signature signaturePayload zeroSignature with
      | None => Err ErrArchiveInvalid
      | Some s =>
          if negb (is_canonical (CanonicalSignature s) signaturePayload) then Err ErrArchiveInvalid else
          let! b := bundleFromArchiveEntries (delete SignatureEntryPath entries) in
          VerifySignature b s store verifiedAt
      end
  end.

Definition archivePayloadFromEntries (entries : gmap string bytes) : outcome Error bytes :=
  writeArchive ((fun kv => zip.MkEntry kv.1 kv.2) <$> range_entries entries).

Definition ImportTimestampedArchive `{!policy.TrustStore T} (payload : bytes) (bundleStore timestampStore : option T)
    (verifiedAt : Time) : outcome Error TimestampedBundle :=
  let! entries := readArchive payload in
  match entries !! TimestampEntryPath with
  | None => Err ErrBundleTimestampRequired
  | Some timestampPayload =>
      match unmarshal.Unmarshal decode_timestamp timestampPayload zeroTimestamp with
      | None => Err ErrArchiveInvalid
      | Some t =>
          if negb (is_canonical (CanonicalTimestamp t) timestampPayload) then Err ErrArchiveInvalid else
          let! signedPayload := archivePayloadFromEntries (delete TimestampEntryPath entries) in
          let! verified := ImportSignedArchive signedPayload bundleStore (IssuedAt t) in
          VerifyTrustedTimestamp (Some verified) t timestampStore verifiedAt
      end
  end.

End writing.

End archives.
