(* ===== verification/BundleProperties.v ===== *)
(** * Properties of evidence bundles

    What is built verifies, and the root of a verified bundle binds its content
    up to a SHA-256 collision. *)

From Stdlib Require Import Ascii String.
From S2P Require Import Prelude GoTime GoString Uuid GoCrypto GoJson GoJsonText GoJsonStruct GoTimeFormat.
From S2P Require Import GoUnmarshal GoJsonReads GoTimeParse Evaluation Evidence EvidenceObjects EvidenceSets Policy PolicyAdmission Bundle.
Import json evidencebundle.

(** ** Text that JSON carries unchanged *)

Lemma hex_encode_ascii l : Forall (fun c => (code c <? 128)%N = true) (hex_encode l).
Proof.
  eapply Forall_impl; [apply hex_encode_chars|]. intros c. cbn beta. unfold hex_char, plain_char, code. lia.
Qed.

Lemma Forall_utf8 b : Forall (fun c => (code c <? 128)%N = true) b -> utf8 (string_of b).
Proof.
  intros H. unfold utf8. rewrite bytes_of_string_of. apply ascii_utf8, forallb_forall.
  intros c Hc%list_elem_of_In. by apply (proj1 (Forall_forall _ _) H).
Qed.

Lemma UuidString_utf8 id : utf8 (UuidString id).
Proof.
  apply Forall_utf8. repeat rewrite ?Forall_app, ?Forall_cons. split_and!; auto using hex_encode_ascii.
Qed.

Lemma digest_text payload : digest payload = string_of (bytes_of "sha256:" ++ hex_encode (sha256 payload)).
Proof.
  apply bytes_of_eq. rewrite bytes_of_string_of. unfold digest. generalize (hex_encode (sha256 payload)). intros b.
  change (bytes_of ("sha256:" ++ string_of b)) with (bytes_of "sha256:" ++ bytes_of (string_of b)).
  by rewrite bytes_of_string_of.
Qed.

Lemma digest_utf8 payload : utf8 (digest payload).
Proof. rewrite digest_text. apply Forall_utf8, Forall_app. split; [by repeat constructor|apply hex_encode_ascii]. Qed.

Lemma bundle_digest_inj x y : digest x = digest y -> x = y \/ Collision x y.
Proof.
  intros H%prefixed_hex_inj. destruct (decide (x = y)); [by left|by right].
Qed.

Lemma UuidString_inj i j : is_uuid i -> is_uuid j -> UuidString i = UuidString j -> i = j.
Proof. intros Hi%Parse_UuidString Hj%Parse_UuidString H. rewrite H in Hi. congruence. Qed.

(** ** Sorting *)

Section properties.
Context {P : Platform} {L : PlatformLaws P}.

#[local] Instance path_le_trans : Transitive path_le.
Proof. unfold path_le. intros x y z. rewrite !ltb_false. by intros; etrans. Qed.

Lemma path_le_antisym o p : path_le o p -> path_le p o -> Path o = Path p.
Proof. unfold path_le. rewrite !ltb_false. intros. by apply (anti_symm String.le). Qed.

(** Objects that their paths name have one order. *)
Lemma sort_objects_fixed l :
  (forall o p, o ∈ l -> p ∈ l -> Path o = Path p -> o = p) -> Sorted path_le l -> sort_objects l = l.
Proof.
  intros Hl Hs. apply (Sorted_unique_strong path_le).
  - intros o p Ho Hp H1 H2. rewrite sort_objects_perm in Ho. by apply Hl, path_le_antisym.
  - apply sort_objects_sorted.
  - done.
  - apply sort_objects_perm.
Qed.

(** ** Verification *)

Lemma verifyObjects_iff ds os : length os = length ds ->
  verifyObjects ds os = None <-> describe <$> os = ds /\ Forall (fun o => validateObject o = None) os.
Proof.
  revert ds. induction os as [|o os IH]; intros [|d ds] Hl; try done. cbn [verifyObjects fmap list_fmap] in *.
  rewrite Forall_cons. destruct (validateObject o) eqn:E; [naive_solver|].
  destruct (describe o != d) eqn:Ed; [apply negb_true_iff, bool_decide_eq_false in Ed; naive_solver|].
  apply negb_false_iff, bool_decide_eq_true in Ed. rewrite IH by (injection Hl; lia). naive_solver.
Qed.

Lemma validateObjects_iff l : validateObjects l = None <-> Forall (fun o => validateObject o = None) l.
Proof.
  induction l as [|o l IH]; cbn [validateObjects]; [by split|]. rewrite Forall_cons, <- IH.
  destruct (validateObject o); naive_solver.
Qed.

Definition identified (m : Manifest) : Prop :=
  SchemaVersion m = ManifestSchemaVersion /\ BundleID m <> NilUUID /\ EvaluationID m <> NilUUID /\
  SessionID m <> NilUUID /\ IsZero (GeneratedAt m) = false /\ ManifestHashAlgorithm m = HashAlgorithm.

(** A bundle verifies exactly when its manifest is identified, its root is the
    digest of the manifest, and the manifest describes its objects, which are
    valid, in the order of their paths. *)
Lemma Verify_iff b :
  Verify b = None <->
  identified (BundleManifest b) /\ BundleRoot (BundleManifest b) = calculateRoot (BundleManifest b) /\
  descriptors (BundleManifest b) = describe <$> sort_objects (Objects b) /\
  Forall (fun o => validateObject o = None) (Objects b).
Proof.
  unfold Verify, identified. set (m := BundleManifest b).
  destruct (_ || _) eqn:E1; [split; [done|]|].
  { intros ((H1 & H2 & H3 & H4 & H5 & H6) & _). revert E1. rewrite H1, H5, H6.
    by rewrite !bool_decide_eq_true_2, !bool_decide_eq_false_2 by done. }
  go_bool. destruct (calculateRoot m != BundleRoot m) eqn:E2; [go_bool; naive_solver|]. go_bool.
  assert (Forall (fun o => validateObject o = None) (Objects b) <->
    Forall (fun o => validateObject o = None) (sort_objects (Objects b))) as -> by by rewrite sort_objects_perm.
  destruct (length (sort_objects (Objects b)) != _)%go eqn:E3.
  - go_bool. split; [done|]. intros (_ & _ & Hd & _). apply (f_equal length) in Hd. rewrite length_fmap in Hd. done.
  - go_bool. rewrite verifyObjects_iff by done. naive_solver.
Qed.

(** ** Building *)

(** The evidence that is packed: supplied, intact, of the session, by its
    identity. *)
Definition packed (sessionID : UUID) (supplied : list evidence.Snapshot) (byID : gmap UUID evidence.Snapshot) : Prop :=
  map_Forall (fun id s => s ∈ supplied /\ evidence.EvidenceID s = id /\ evidence.SessionID s = sessionID /\
                evidence.VerifySnapshot s = None) byID.

Lemma evidencePath_inj i j : is_uuid i -> is_uuid j -> evidencePath i = evidencePath j -> i = j.
Proof.
  intros Hi Hj H. apply UuidString_inj; [done..|]. unfold evidencePath in H.
  apply (f_equal bytes_of) in H. rewrite !bytes_of_app in H. apply app_inv_head in H.
  apply bytes_of_eq. by apply app_inv_tail in H.
Qed.

(** The object of a reference. *)
Definition packs (byID : gmap UUID evidence.Snapshot) (r : evaluation.EvidenceReference) (o : Object) : Prop :=
  exists s payload, byID !! evaluation.EvidenceID r = Some s /\ MarshalEvidence s = Some payload /\
    o = jsonObject (evidencePath (evaluation.EvidenceID r)) payload.

Lemma evidenceObjects_spec byID refs objects :
  evidenceObjects byID refs = Ok objects -> Forall2 (packs byID) refs objects.
Proof.
  revert objects. induction refs as [|r refs IH]; intros objects; cbn [evidenceObjects]; [intros [= <-]; constructor|].
  destruct (byID !! _) as [s|] eqn:Es; [|done]. destruct (MarshalEvidence s) as [payload|] eqn:Ep; [|done].
  intros (rest & Hr & [= <-])%obind_ok. constructor; [by exists s, payload|by apply IH].
Qed.

Lemma indexEvidence_packed sessionID supplied byID l byID' :
  packed sessionID supplied byID -> l ⊆ supplied -> indexEvidence sessionID byID l = Ok byID' ->
  packed sessionID supplied byID'.
Proof.
  revert byID. induction l as [|s l IH]; intros byID Hb Hl; cbn [indexEvidence]; [by intros [= <-]|].
  intros (o & Ho & H)%obind_ok. cbv zeta in H. destruct (_ != _) eqn:E1; [done|]. case_bool_decide as E2; [done|].
  destruct (evidence.Rehydrate s) as [o'|] eqn:Er; [|done]. injection Ho as <-.
  apply rehydrated in Er as [Hv Hs]. rewrite ObjectSnapshot_eq, Hs in *. go_bool.
  apply IH in H; [done| |set_solver]. apply map_Forall_insert_2; [|done].
  split_and!; [set_solver|done..|by apply VerifySnapshot_verified].
Qed.

(** The objects of a bundle, before they are sorted. *)
Record contents (trace : evaluation.DecisionTrace) (e : evaluation.EvidenceSetBinding) (p : evaluation.PolicyBinding)
    (supplied : list evidence.Snapshot) (objects : list Object) : Prop := {
  ct_objects : exists tracePayload byID evidenceObjects,
    MarshalTrace trace = Some tracePayload /\ packed (evaluation.TraceSessionID trace) supplied byID /\
    size byID = length (evaluation.Evidence e) /\ Forall2 (packs byID) (evaluation.Evidence e) evidenceObjects /\
    objects ≡ₚ jsonObject tracePath tracePayload ::
      jsonObject referencePath (MarshalReference (MkPolicyReference (evaluation.PolicyID p)
        (evaluation.PolicyBindingVersion p) (evaluation.Hash p))) :: evidenceObjects
}.

(** Every object is named by its path. *)
Lemma contents_named trace e p supplied objects :
  contents trace e p supplied objects -> Forall (fun r => is_uuid (evaluation.EvidenceID r)) (evaluation.Evidence e) ->
  forall x y, x ∈ objects -> y ∈ objects -> Path x = Path y -> x = y.
Proof.
  intros [(payload & byID & l & _ & _ & _ & Hl & Hperm)] Hid x y. rewrite Hperm, !elem_of_cons.
  assert (forall o, o ∈ l -> exists r s b, r ∈ evaluation.Evidence e /\ byID !! evaluation.EvidenceID r = Some s /\
    MarshalEvidence s = Some b /\ o = jsonObject (evidencePath (evaluation.EvidenceID r)) b) as Hev.
  { intros o Ho. apply list_elem_of_lookup_1 in Ho as [i Hi]. destruct (Forall2_lookup_r _ _ _ _ _ Hl Hi) as (r & Hr & s & b & ?).
    exists r, s, b. split; [by eapply list_elem_of_lookup_2|done]. }
  intros [->|[->|Hx]] [->|[->|Hy]]; try done;
    try (destruct (Hev _ Hx) as (r & s & b & Hr & Hs & Hb & ->)); try (destruct (Hev _ Hy) as (r' & s' & b' & Hr' & Hs' & Hb' & ->));
    try done.
  intros Hpath. cbn in Hpath. rewrite Forall_forall in Hid. apply evidencePath_inj in Hpath as Heq; [|by apply Hid..].
  rewrite Heq in *. congruence.
Qed.

Lemma buildObjects_ok trace e p supplied objects :
  buildObjects trace e p supplied = Ok objects ->
  contents trace e p supplied objects /\ Sorted path_le objects /\ Forall (fun o => validateObject o = None) objects.
Proof.
  unfold buildObjects. intros (byID & Hi & H)%obind_ok. destruct (size byID != _)%go eqn:Esz; [done|]. go_bool.
  destruct (MarshalTrace trace) as [payload|] eqn:Et; [|done]. apply obind_ok in H as (l & Hl & H). cbv zeta in H.
  destruct (validateObjects _) eqn:Ev; [done|]. injection H as <-. apply validateObjects_iff in Ev.
  split_and!; [|apply sort_objects_sorted|exact Ev].
  split. exists payload, byID, l. split_and!; [done| |done|by apply evidenceObjects_spec|apply sort_objects_perm].
  eapply indexEvidence_packed; [apply map_Forall_empty|done|exact Hi].
Qed.

(** C24: a bundle that is built verifies. It is of a decision that is completed or
    expired, generated no earlier than the time at which it was; it is identified by
    the decision and its policy, and holds exactly the trace of the decision, the
    reference of the policy and, for every reference of the evidence binding, the
    object it names: supplied, intact, and of the session. *)
Theorem built_bundle_verifies input b :
  Build input = Ok b ->
  (forall e, evaluation.TraceEvidenceBinding (InputTrace input) = Some e ->
     Forall (fun r => is_uuid (evaluation.EvidenceID r)) (evaluation.Evidence e)) ->
  let trace := InputTrace input in
  let m := BundleManifest b in
  Verify b = None /\
  exists e p at_, evaluation.TraceEvidenceBinding trace = Some e /\ evaluation.TracePolicyBinding trace = Some p /\
    (evaluation.TraceState trace = evaluation.StateCompleted /\ evaluation.TraceCompletedAt trace = Some at_ \/
     evaluation.TraceState trace = evaluation.StateExpired /\ evaluation.TraceExpiredAt trace = Some at_) /\
    instant at_ <= instant (GeneratedAt m) /\
    BundleID m = InputBundleID input /\ EvaluationID m = evaluation.TraceEvaluationID trace /\
    SessionID m = evaluation.TraceSessionID trace /\
    ManifestPolicy m = MkPolicyReference (evaluation.PolicyID p) (evaluation.PolicyBindingVersion p) (evaluation.Hash p) /\
    contents trace e p (InputEvidence input) (Objects b).
Proof.
  unfold Build. destruct (_ || _) eqn:E1; [done|]. cbv zeta. set (trace := InputTrace input).
  destruct (_ || _ && _) eqn:E2; [done|]. destruct (finalizedAt trace) as [at_|] eqn:Ef; [|done].
  destruct (Before _ _) eqn:Eb; [done|]. destruct (evaluation.TracePolicyBinding trace) as [p|] eqn:Ep; [|done].
  destruct (_ || negb (sha256Pattern _)) eqn:E3; [done|].
  destruct (evaluation.TraceEvidenceBinding trace) as [e|] eqn:Ee; [|done]. destruct (evaluation.BoundSessionID e != _) eqn:E4; [done|].
  intros (objects & Ho & [= <-])%obind_ok Hid. cbn [BundleManifest Objects].
  apply buildObjects_ok in Ho as (Hc & Hs & Hv). specialize (Hid e eq_refl).
  apply orb_false_iff in E1 as [Hbid Ht]. rewrite !orb_false_iff, andb_false_iff, !negb_false_iff in E2.
  destruct E2 as [[Heid Hsid] Hst]. rewrite bool_decide_eq_false in Hbid, Heid, Hsid. rewrite !bool_decide_eq_true in Hst.
  split.
  - apply Verify_iff. cbn [BundleManifest Objects]. split_and!; [|reflexivity| |exact Hv].
    + split_and!; done.
    + cbn. symmetry. f_equal. apply sort_objects_fixed; [by eapply contents_named|done].
  - exists e, p, at_. unfold Before in Eb. cbn. split_and!; try done; [|lia].
    unfold finalizedAt in Ef. destruct (bool_decide_reflect (evaluation.TraceState trace = evaluation.StateCompleted)).
    + by left.
    + right. by destruct Hst.
Qed.

(** ** What the root binds *)

(** Bundles whose text JSON carries unchanged. *)
Record portable (b : Bundle) : Prop := {
  pt_bundle : is_uuid (BundleID (BundleManifest b));
  pt_evaluation : is_uuid (EvaluationID (BundleManifest b));
  pt_session : is_uuid (SessionID (BundleManifest b));
  pt_time : location (GeneratedAt (BundleManifest b)) = UTCLoc;
  pt_policy : utf8 (PolicyID (ManifestPolicy (BundleManifest b))) /\
    utf8 (PolicyVersion (ManifestPolicy (BundleManifest b))) /\ utf8 (PolicyHash (ManifestPolicy (BundleManifest b)));
  pt_objects : Forall (fun o => utf8 (Path o) /\ utf8 (MediaType o)) (Objects b)
}.

Definition string_raw (s : string) : Raw := RString (quoteString s) (bytes_of s).

Lemma string_raw_inj s t : string_raw s = string_raw t -> s = t.
Proof. intros H. apply bytes_of_eq. by apply (f_equal (fun v => match v with RString _ b => b | _ => [] end)) in H. Qed.

(** What the parts of a manifest are read as. *)
Definition descriptor_raw (d : ObjectDescriptor) : Raw :=
  RObject (MarshalDescriptor d)
    (zip (bytes_of <$> ["path"; "media_type"; "size"; "digest"])
       [string_raw (DescriptorPath d); string_raw (DescriptorMediaType d); RNumber (MarshalInt (Size d));
        string_raw (Digest d)]).

Definition reference_raw (r : PolicyReference) : Raw :=
  RObject (MarshalReference r)
    (zip (bytes_of <$> ["policy_id"; "version"; "hash"])
       [string_raw (PolicyID r); string_raw (PolicyVersion r); string_raw (PolicyHash r)]).

Definition descriptors_raw (o : option (list ObjectDescriptor)) : Raw :=
  match o with
  | None => RNull
  | Some l => RArray (array (MarshalDescriptor <$> l)) (descriptor_raw <$> l)
  end.

Definition manifest_raw (m : Manifest) (p generated : bytes) : Raw :=
  RObject p
    (zip (bytes_of <$> ["schema_version"; "bundle_id"; "evaluation_id"; "session_id"; "generated_at"; "hash_algorithm";
                        "policy"; "objects"; "bundle_root"])
       [string_raw (SchemaVersion m); string_raw (UuidString (BundleID m)); string_raw (UuidString (EvaluationID m));
        string_raw (UuidString (SessionID m)); RString generated (RFC3339Nano 0 (GeneratedAt m));
        string_raw (ManifestHashAlgorithm m); reference_raw (ManifestPolicy m); descriptors_raw (ManifestObjects m);
        string_raw (BundleRoot m)]).

(** A struct reads when its fields do. *)
Ltac reads_fields Hd :=
  match goal with
  | |- reads ?d (struct ?fields) (RObject _ (zip _ ?vs)) => refine (reads_struct d fields vs Hd _)
  end;
  repeat (apply Forall2_cons; split; [split; [ascii|]|]); [..|apply Forall2_nil]; cbn [fst snd];
  eauto using reads_string, UuidString_utf8, reads_time.

Definition utf8_descriptor (d : ObjectDescriptor) : Prop :=
  utf8 (DescriptorPath d) /\ utf8 (DescriptorMediaType d) /\ utf8 (Digest d) /\ 0 <= Size d.

Lemma reads_descriptor d x : (0 < d)%N -> utf8_descriptor x -> reads d (MarshalDescriptor x) (descriptor_raw x).
Proof.
  intros Hd (H1 & H2 & H3 & H4). unfold descriptor_raw, MarshalDescriptor. reads_fields Hd.
  by apply reads_int.
Qed.

Lemma reads_reference d r : (0 < d)%N -> utf8 (PolicyID r) -> utf8 (PolicyVersion r) -> utf8 (PolicyHash r) ->
  reads d (MarshalReference r) (reference_raw r).
Proof. intros Hd H1 H2 H3. unfold reference_raw, MarshalReference. reads_fields Hd. Qed.

Lemma reads_descriptors d o : (1 < d)%N -> Forall utf8_descriptor (default [] o) ->
  reads d (MarshalDescriptors o) (descriptors_raw o).
Proof.
  intros Hd H. destruct o as [l|]; [|apply reads_null]. apply reads_array; [lia|].
  apply Forall2_fmap, Forall_Forall2_diag. eapply Forall_impl; [exact H|]. intros y Hy. apply reads_descriptor; [lia|done].
Qed.

Lemma reads_manifest m p :
  MarshalManifest m = Some p -> utf8 (SchemaVersion m) -> utf8 (ManifestHashAlgorithm m) -> utf8 (BundleRoot m) ->
  location (GeneratedAt m) = UTCLoc -> Forall utf8_descriptor (descriptors m) ->
  utf8 (PolicyID (ManifestPolicy m)) /\ utf8 (PolicyVersion (ManifestPolicy m)) /\ utf8 (PolicyHash (ManifestPolicy m)) ->
  exists generated, MarshalTime 0 (GeneratedAt m) = Some generated /\
    reads maxNestingDepth p (manifest_raw m p generated).
Proof.
  unfold MarshalManifest, MarshalTimeIn, evidence.MarshalTimeIn. intros H H1 H2 H3 Hloc H4 (H5 & H6 & H7). rewrite Hloc in H.
  destruct (MarshalTime 0 (GeneratedAt m)) as [generated|] eqn:Et; [|done].
  injection H as <-. exists generated. split; [done|]. unfold manifest_raw, MarshalUUID.
  assert (0 < maxNestingDepth)%N as Hd by done. reads_fields Hd.
  - by apply reads_reference.
  - by apply reads_descriptors.
Qed.

Lemma descriptor_raw_inj d e : utf8_descriptor d -> utf8_descriptor e -> descriptor_raw d = descriptor_raw e -> d = e.
Proof.
  intros (_ & _ & _ & Hd) (_ & _ & _ & He) [= _ _ H1 _ H2 H3 _ H4]. apply bytes_of_eq in H1, H2, H4.
  apply decimal_inj in H3; [|done..]. destruct d, e. cbn in *. by subst.
Qed.

Lemma reference_raw_inj r q : reference_raw r = reference_raw q -> r = q.
Proof. intros [= _ _ H1 _ H2 _ H3]. apply bytes_of_eq in H1, H2, H3. destruct r, q. cbn in *. by subst. Qed.

Lemma descriptors_raw_inj o q : Forall utf8_descriptor (default [] o) -> Forall utf8_descriptor (default [] q) ->
  descriptors_raw o = descriptors_raw q -> o = q.
Proof.
  intros Hl Hk. destruct o as [l|], q as [k|]; try done. cbn [from_option id] in *. intros H. f_equal.
  apply (f_equal (fun v => match v with RArray _ l => l | _ => [] end)) in H. cbn [descriptors_raw] in H. revert H. revert k Hk.
  induction Hl as [|d l' Hd Hl IH]; intros k Hk; destruct Hk as [|e k He Hk]; try done. cbn.
  intros [H1 H2]%cons_split. f_equal; [by apply descriptor_raw_inj|by apply IH].
Qed.

(** Objects with the same descriptions are the same, or two payloads collide. *)
Lemma described_same (l k : list Object) :
  describe <$> l = describe <$> k ->
  l = k \/ exists x y, x ∈ l /\ y ∈ k /\ Collision (Payload x) (Payload y).
Proof.
  revert k. induction l as [|o l IH]; intros [|q k]; try done; [by left|]. cbn. intros [H Hr]%cons_split.
  destruct (IH k Hr) as [->|(x & y & Hx & Hy & Hc)]; [|right; exists x, y; set_solver].
  pose proof (f_equal DescriptorPath H) as H1. pose proof (f_equal DescriptorMediaType H) as H2.
  pose proof (f_equal Digest H) as H3. cbn in H1, H2. change (digest (Payload o) = digest (Payload q)) in H3.
  apply bundle_digest_inj in H3 as [H3|Hc]; [left|right; exists o, q; set_solver].
  destruct o, q. cbn in *. by subst.
Qed.

Lemma described_utf8 b : Verify b = None -> portable b -> Forall utf8_descriptor (descriptors (BundleManifest b)).
Proof.
  intros (_ & _ & -> & _)%Verify_iff [_ _ _ _ _ H]. apply Forall_fmap. rewrite sort_objects_perm.
  eapply Forall_impl; [exact H|]. intros o [Hp Hm]. split_and!; [done|done|apply digest_utf8|cbn; lia].
Qed.

Lemma identified_text m : identified m -> utf8 (SchemaVersion m) /\ utf8 (ManifestHashAlgorithm m).
Proof. intros (-> & _ & _ & _ & _ & ->). split; ascii. Qed.

(** The manifests of two verified bundles that read the same are the same. *)
Lemma manifest_raw_inj b1 b2 p g1 g2 :
  Verify b1 = None -> Verify b2 = None -> portable b1 -> portable b2 ->
  let m1 := (BundleManifest b1) <| BundleRoot := "" |> in
  let m2 := (BundleManifest b2) <| BundleRoot := "" |> in
  manifest_raw m1 p g1 = manifest_raw m2 p g2 -> m1 = m2.
Proof.
  intros Hv1 Hv2 Hp1 Hp2 m1 m2 H. pose proof (described_utf8 b1 Hv1 Hp1) as Hd1. pose proof (described_utf8 b2 Hv2 Hp2) as Hd2.
  destruct Hp1 as [I1 J1 K1 T1 _ _], Hp2 as [I2 J2 K2 T2 _ _].
  unfold manifest_raw in H. apply (f_equal (fun v => match v with RObject _ l => snd <$> l | _ => [] end)) in H.
  cbn [fmap list_fmap zip zip_with snd] in H.
  repeat (let H' := fresh "E" in apply cons_split in H as [H' H]).
  apply string_raw_inj in E, E0, E1, E2, E4. injection E3 as _ E3. apply reference_raw_inj in E5.
  apply descriptors_raw_inj in E6; [|done..]. apply UuidString_inj in E0, E1, E2; [|done..].
  assert (GeneratedAt m1 = GeneratedAt m2) as E8.
  { apply RFC3339Nano_inj in E3. apply UTC_instant_eq; [by apply UTC_fixed..|done]. }
  subst m1 m2. destruct (BundleManifest b1), (BundleManifest b2). cbn in *. by subst.
Qed.

(** C23: the root of a verified bundle binds its content: two verified bundles with
    one root, whose text JSON carries unchanged and whose manifests encode, have the
    same manifest and the same objects, or exhibit a SHA-256 collision of their
    manifests or of two of their payloads. *)
Theorem bundle_root_binds_content b1 b2 p1 p2 :
  Verify b1 = None -> Verify b2 = None -> portable b1 -> portable b2 ->
  MarshalManifest ((BundleManifest b1) <| BundleRoot := "" |>) = Some p1 ->
  MarshalManifest ((BundleManifest b2) <| BundleRoot := "" |>) = Some p2 ->
  BundleRoot (BundleManifest b1) = BundleRoot (BundleManifest b2) ->
  (BundleManifest b1 = BundleManifest b2 /\ Objects b1 ≡ₚ Objects b2) \/
  Collision p1 p2 \/
  exists x y, x ∈ Objects b1 /\ y ∈ Objects b2 /\ Collision (Payload x) (Payload y).
Proof.
  intros Hv1 Hv2 Hp1 Hp2 E1 E2 Hroot.
  destruct (proj1 (Verify_iff b1) Hv1) as (Hi1 & Hr1 & Ho1 & _).
  destruct (proj1 (Verify_iff b2) Hv2) as (Hi2 & Hr2 & Ho2 & _).
  assert (p1 = p2 \/ Collision p1 p2) as [<-|Hc]; [|..|by right; left].
  { rewrite Hr1, Hr2 in Hroot. unfold calculateRoot in Hroot. rewrite E1, E2 in Hroot. by apply bundle_digest_inj. }
  destruct (identified_text _ Hi1) as [Ht1 Ha1], (identified_text _ Hi2) as [Ht2 Ha2].
  destruct (reads_manifest _ _ E1 Ht1 Ha1 ltac:(ascii) (pt_time _ Hp1) (described_utf8 b1 Hv1 Hp1) (pt_policy _ Hp1)) as (g1 & _ & R1).
  destruct (reads_manifest _ _ E2 Ht2 Ha2 ltac:(ascii) (pt_time _ Hp2) (described_utf8 b2 Hv2 Hp2) (pt_policy _ Hp2)) as (g2 & _ & R2).
  pose proof (manifest_raw_inj b1 b2 p1 g1 g2 Hv1 Hv2 Hp1 Hp2 (reads_det _ _ _ _ R1 R2)) as Hm. cbv zeta in Hm.
  assert (BundleManifest b1 = BundleManifest b2) as Hmm.
  { clear -Hm Hroot. destruct (BundleManifest b1), (BundleManifest b2). cbn in Hroot. subst. injection Hm; intros; by subst. }
  rewrite Hmm, Ho2 in Ho1. symmetry in Ho1. apply described_same in Ho1 as [Hs|(x & y & Hx & Hy & Hc)].
  - left. split; [done|]. by rewrite <- (sort_objects_perm (Objects b1)), Hs, sort_objects_perm.
  - right; right. exists x, y. by rewrite sort_objects_perm in Hx, Hy.
Qed.

(** Where the manifest does not encode, [calculateRoot] drops the error: every
    such manifest has the root of the empty payload. *)
Lemma far_future_root m :
  location (GeneratedAt m) = UTCLoc -> 9999 < Year 0 (GeneratedAt m) -> calculateRoot m = digest [].
Proof.
  intros Hl Hy. unfold calculateRoot, MarshalManifest, MarshalTimeIn, evidence.MarshalTimeIn. cbn [GeneratedAt].
  change (GeneratedAt (m <| BundleRoot := "" |>)) with (GeneratedAt m). rewrite Hl. unfold MarshalTime.
  by replace ((Year 0 (GeneratedAt m) <? 0) || (9999 <? Year 0 (GeneratedAt m)) || (86400 <=? Z.abs 0)) with true by lia.
Qed.

End properties.
