(* ===== verification/BundleVerified.v ===== *)
(** * What an independent verification and the signatures on a bundle establish *)

From Stdlib Require Import Ascii String.
From S2P Require Import Prelude GoTime GoString Uuid GoCrypto GoJson GoUnmarshal Evidence EvidenceObjects Evaluation.
From S2P Require Import EvaluationDecision Policy PolicyRegistry PdsRules RuleOperators PolicyCompiler Bundle.
From S2P Require Import BundleDecision BundleSigning BundleProperties.
Import evidencebundle verification.

(** An early return that was not taken. *)
Ltac not_taken H E :=
  match type of H with (if ?c then _ else _) = _ => destruct c eqn:E; [done|] end.

Section verified.
Context {P : Platform} {L : PlatformLaws P}.

(** ** The inputs *)

Definition is_evidence (o : Object) : Prop := take 9 (bytes_of (Path o)) = bytes_of "evidence/".

(** The payload of an object is the evidence [s], intact. *)
Definition holds_evidence (o : Object) (s : evidence.Snapshot) : Prop :=
  is_evidence o /\ unmarshal.Unmarshal decode_evidence (Payload o) zeroEvidence = Some s /\
  evidence.VerifySnapshot s = None.

Definition holds_trace (o : Object) (trace : evaluation.DecisionTrace) : Prop :=
  Path o = tracePath /\ exists t, unmarshal.Unmarshal decode_trace (Payload o) zeroTrace = Some t /\ trace = toTrace t.

(** What the loop over the objects has read. *)
Record read_from (l : list Object) (trace : option evaluation.DecisionTrace) (byID : gmap UUID evidence.Snapshot) : Prop := {
  rf_trace t : trace = Some t -> exists o, o ∈ l /\ holds_trace o t;
  rf_held id s : byID !! id = Some s -> evidence.EvidenceID s = id /\ exists o, o ∈ l /\ holds_evidence o s;
  rf_all o : o ∈ l -> is_evidence o -> exists s, holds_evidence o s /\ byID !! evidence.EvidenceID s = Some s
}.

Lemma readObjects_read seen trace byID l trace' byID' :
  read_from seen trace byID -> readObjects trace byID l = Ok (trace', byID') -> read_from (seen ++ l) trace' byID'.
Proof.
  revert seen trace byID. induction l as [|o l IH]; intros seen trace byID Hr; cbn [readObjects].
  { intros [= <- <-]. by rewrite app_nil_r. }
  replace (seen ++ o :: l) with ((seen ++ [o]) ++ l) by by rewrite <- app_assoc. destruct Hr as [Ht Hh Ha].
  destruct (Path o == tracePath) eqn:E1.
  { destruct trace; [done|]. destruct (unmarshal.Unmarshal _ _ _) as [t|] eqn:Eu; [|done]. go_bool. apply IH. split.
    - intros ? [= <-]. exists o. split; [set_solver|]. by split; [|exists t].
    - intros id s Hs. destruct (Hh id s Hs) as (? & q & ? & ?). split; [done|]. exists q. set_solver.
    - intros q [Hq|Hq%list_elem_of_singleton]%elem_of_app Hev; [by apply Ha|]. subst q. unfold is_evidence in Hev.
      by rewrite E1 in Hev. }
  destruct (take 9 _ == _) eqn:E2; go_bool.
  - destruct (unmarshal.Unmarshal _ _ _) as [s|] eqn:Eu; [|done]. intros (ob & Ho & H)%obind_ok. cbv zeta in H.
    destruct (evidence.Rehydrate s) as [o'|] eqn:Er; [|done]. injection Ho as <-.
    apply rehydrated in Er as [Hv%VerifySnapshot_verified Hs]. rewrite ObjectSnapshot_eq, Hs in H.
    case_bool_decide as Hdup; [done|]. revert H. apply IH. apply eq_None_not_Some in Hdup.
    assert (holds_evidence o s) as Hos by done. split.
    + intros t Hst. destruct (Ht t Hst) as (q & ? & ?). exists q. set_solver.
    + intros id s'. rewrite lookup_insert_Some. intros [[<- <-]|[Hne Hid]].
      * split; [done|]. exists o. set_solver.
      * destruct (Hh id s' Hid) as (? & q & ? & ?). split; [done|]. exists q. set_solver.
    + intros q [Hq|Hq%list_elem_of_singleton]%elem_of_app Hev.
      * destruct (Ha q Hq Hev) as (s' & Hs' & Hl). exists s'. split; [done|]. rewrite lookup_insert_ne; [done|]. intros He. rewrite <- He in Hl. exact (eq_None_ne_Some_1 _ _ Hdup Hl).
      * subst q. exists s. split; [done|]. apply lookup_insert_eq.
  - apply IH. split.
    + intros t Hst. destruct (Ht t Hst) as (q & ? & ?). exists q. set_solver.
    + intros id s Hs. destruct (Hh id s Hs) as (? & q & ? & ?). split; [done|]. exists q. set_solver.
    + intros q [Hq|Hq%list_elem_of_singleton]%elem_of_app Hev; [by apply Ha|]. by subst q.
Qed.

(** A reference and the evidence it names. *)
Definition referenced (sessionID : UUID) (byID : gmap UUID evidence.Snapshot) (r : evaluation.EvidenceReference)
    (s : evidence.Snapshot) : Prop :=
  evaluation.RefStatus r = evaluation.EvidenceQualified /\ byID !! evaluation.EvidenceID r = Some s /\
  evidence.SessionID s = sessionID.

Lemma orderReferences_ok sessionID byID refs l :
  orderReferences sessionID byID refs = Ok l ->
  Forall2 (referenced sessionID byID) refs l /\ (forall id, is_Some (byID !! id) -> id ∈ evaluation.EvidenceID <$> refs).
Proof.
  revert byID l. induction refs as [|r refs IH]; intros byID l; cbn [orderReferences].
  { case_bool_decide as Hsz; [|done]. intros [= <-]. split; [constructor|]. apply map_size_empty_inv in Hsz.
    intros id [s Hs]. by rewrite Hsz in Hs. }
  destruct (_ != _) eqn:E1; [done|]. destruct (byID !! evaluation.EvidenceID r) as [s|] eqn:Es; [|done].
  destruct (evidence.SessionID s != sessionID) eqn:E2; [done|]. go_bool.
  intros (rest & Hrest & [= <-])%obind_ok. apply IH in Hrest as [Hf Hall]. split.
  - constructor; [done|]. eapply Forall2_impl; [exact Hf|]. intros r' s' (H1 & H2 & H3).
    split_and!; [done| |done]. by apply lookup_delete_Some in H2 as [_ ?].
  - intros id [s' Hs']. cbn. destruct (decide (id = evaluation.EvidenceID r)) as [->|Hne]; [left|].
    right. apply Hall. rewrite lookup_delete_ne by done. eauto.
Qed.

(** ** The recalculation *)

Lemma sameStrings_eq l r : sameStrings l r = true <-> l = r.
Proof.
  revert r. induction l as [|a l IH]; intros [|b r]; cbn [sameStrings]; try done.
  rewrite andb_true_iff, bool_decide_eq_true, IH. split; [by intros [-> ->]|by intros [= -> ->]].
Qed.

(** An operator that the policy compiles to decides the outcome. *)
Definition decides (version : policy.Version) (input : rules.RuleInput) (ruleID : string)
    (o : evaluation.RuleOutcome) : Prop :=
  evaluation.RuleID o = ruleID /\ exists operator, compiler.CompileRule (Some version) ruleID = Ok operator /\
    rules.Evaluate operator input = Some (rules.MkRuleDecision (evaluation.Status o) (evaluation.ReasonCodes o)).

Definition as_recalculated (o : evaluation.RuleOutcome) : RecalculatedOutcome :=
  MkRecalculatedOutcome (evaluation.RuleID o) (evaluation.Status o) (evaluation.ReasonCodes o).

Lemma updateVerificationResult_worst m status : (m <= 3)%nat ->
  updateVerificationResult (result_of m) status = result_of (Nat.max m (severity status)).
Proof.
  intros Hm. unfold updateVerificationResult, severity.
  destruct (status == evaluation.RuleOutcomeFail), (status == evaluation.RuleOutcomeInconclusive),
    (status == evaluation.RuleOutcomeWarning); destruct m as [|[|[|[|]]]]; first [done|lia].
Qed.

Lemma recalculate_ok version input ids expected m outcomes result :
  (m <= 3)%nat -> length expected = length ids ->
  recalculate version input ids expected (result_of m) = Ok (outcomes, result) ->
  Forall2 (decides version input) ids expected /\ outcomes = as_recalculated <$> expected /\
  result = result_of (Nat.max m (worst expected)).
Proof.
  revert expected m outcomes. induction ids as [|id ids IH]; intros [|e expected] m outcomes Hm Hl; try done; cbn [recalculate].
  { intros [= <- <-]. rewrite Nat.max_0_r. by split_and!. }
  destruct (evaluation.RuleID e != id) eqn:E1; [done|]. go_bool. intros (op & Ho & H)%obind_ok.
  destruct (compiler.CompileRule _ _) as [op'|] eqn:Ec; [|done]. injection Ho as ->.
  destruct (rules.Evaluate op input) as [[status reasons]|] eqn:Ee; [|done]. cbn [Status rules.Status] in H.
  destruct (_ || _) eqn:E2; [done|]. apply orb_false_iff in E2 as [E2 E3]. apply negb_false_iff in E3.
  apply sameStrings_eq in E3. go_bool. cbn in E2, E3. subst status reasons id.
  apply obind_ok in H as ([outs r] & Hr & [= <- <-]). rewrite updateVerificationResult_worst in Hr by done.
  pose proof (severity_bound (evaluation.Status e)). apply IH in Hr as (Hf & -> & ->); [|lia|by injection Hl].
  split_and!; [|done|by rewrite worst_cons, Nat.max_assoc].
  constructor; [|done]. split; [done|]. by exists op.
Qed.

(** ** The policy *)

(** The bundle embeds the policy version, once, in its canonical text. *)
Definition embeds (b : Bundle) (version : policy.Version) : Prop :=
  exists o decoded, List.filter (fun o => Path o == PolicySnapshotPath) (Objects b) = [o] /\
    MarshalPolicySnapshot decoded = Some (Payload o) /\ policy.Rehydrate (fromJSON decoded) = Ok version.

Lemma PolicySnapshot_ok b s :
  PolicySnapshot b = Ok s ->
  exists version, embeds b version /\ valid_version version /\ s = policy.VersionSnapshot version /\
    ManifestPolicy (BundleManifest b) = MkPolicyReference (policy.PolicyID s) (policy.VersionName s) (policy.Hash s).
Proof.
  unfold PolicySnapshot. destruct (Verify b); [done|]. destruct (List.filter _ _) as [|o [|]] eqn:Ef; try done.
  destruct (unmarshal.Unmarshal _ _ _) as [decoded|]; [|done]. destruct (_ != _) eqn:Em; [done|]. go_bool.
  intros (version & Hv & H)%obind_ok. destruct (policy.Rehydrate _) as [v|] eqn:Er; [|done]. injection Hv as ->.
  cbv zeta in H. destruct (negb _) eqn:En; [done|]. injection H as <-. apply negb_false_iff in En.
  unfold refersTo in En. rewrite !andb_true_iff, !bool_decide_eq_true in En. destruct En as [[E1 E2] E3].
  exists version. split_and!; [by exists o, decoded|by apply Rehydrate_valid in Er as [? _]|done|].
  destruct (ManifestPolicy _). cbn in *. by subst.
Qed.

(** ** Verified decisions *)

(** Decision, evidence and policy of a bundle, of which the result was
    recalculated. *)
Record recalculated (b : Bundle) (trace : evaluation.DecisionTrace) (binding : evaluation.EvidenceSetBinding)
    (snapshots : list evidence.Snapshot) (version : policy.Version) : Prop := {
  rc_trace : exists o, o ∈ Objects b /\ holds_trace o trace;
  rc_state : evaluation.TraceState trace = evaluation.StateCompleted;
  rc_identity : evaluation.TraceEvaluationID trace = EvaluationID (BundleManifest b) /\
    evaluation.TraceSessionID trace = SessionID (BundleManifest b);
  rc_policy : embeds b version /\ valid_version version;
  rc_bound : exists p, evaluation.TracePolicyBinding trace = Some p /\
    ManifestPolicy (BundleManifest b) =
      MkPolicyReference (evaluation.PolicyID p) (evaluation.PolicyBindingVersion p) (evaluation.Hash p) /\
    refersTo (policy.VersionSnapshot version) (evaluation.PolicyID p) (evaluation.PolicyBindingVersion p)
      (evaluation.Hash p) = true;
  rc_document : compiler.ValidatePolicyDocument map_range (Some version) = None;
  rc_rules : evaluation.TraceRequiredRuleIDs trace = policy.RequiredRuleIDs (policy.VersionSnapshot version);
  rc_binding : evaluation.TraceEvidenceBinding trace = Some binding;
  rc_evidence : Forall2 (fun r s => evaluation.RefStatus r = evaluation.EvidenceQualified /\
      evidence.EvidenceID s = evaluation.EvidenceID r /\ evidence.SessionID s = evaluation.TraceSessionID trace /\
      exists o, o ∈ Objects b /\ holds_evidence o s) (evaluation.Evidence binding) snapshots;
  rc_complete : forall o, o ∈ Objects b -> is_evidence o -> exists s, holds_evidence o s /\ s ∈ snapshots;
  rc_outcomes : Forall2 (decides version (verificationInput trace (policy.VersionSnapshot version) snapshots))
    (evaluation.TraceRequiredRuleIDs trace) (evaluation.TraceRuleOutcomes trace);
  rc_result : evaluation.TraceResult trace = result_of (worst (evaluation.TraceRuleOutcomes trace))
}.

Lemma verificationInputs_ok b trace snapshots :
  verificationInputs b = Ok (trace, snapshots) ->
  (exists o, o ∈ Objects b /\ holds_trace o trace) /\
  exists binding, evaluation.TraceEvidenceBinding trace = Some binding /\
    Forall2 (fun r s => evaluation.RefStatus r = evaluation.EvidenceQualified /\
      evidence.EvidenceID s = evaluation.EvidenceID r /\ evidence.SessionID s = evaluation.TraceSessionID trace /\
      exists o, o ∈ Objects b /\ holds_evidence o s) (evaluation.Evidence binding) snapshots /\
    forall o, o ∈ Objects b -> is_evidence o -> exists s, holds_evidence o s /\ s ∈ snapshots.
Proof.
  unfold verificationInputs. intros ([[t|] byID] & Hr & H)%obind_ok; [|done].
  destruct (evaluation.TraceEvidenceBinding t) as [binding|] eqn:Eb; [|done]. destruct (_ != _)%go; [done|].
  apply obind_ok in H as (l & Hl & [= -> ->]). apply (readObjects_read []) in Hr as [Ht Hh Ha].
  2: { split; [done|intros ? ? ?; by simplify_map_eq|set_solver]. }
  cbn [app] in *. split; [by apply Ht|]. exists binding. apply orderReferences_ok in Hl as [Hf Hall]. split_and!; [done| |].
  - eapply Forall2_impl; [exact Hf|]. intros r s (H1 & H2 & H3). destruct (Hh _ _ H2) as (? & o & ? & ?).
    split_and!; [done..|]. by exists o.
  - intros o Ho Hev. destruct (Ha o Ho Hev) as (s & Hs & Hid). exists s. split; [done|].
    assert (evidence.EvidenceID s ∈ evaluation.EvidenceID <$> evaluation.Evidence binding) as (r & Hr & Hin)%list_elem_of_fmap.
    { apply Hall. eauto. }
    apply list_elem_of_lookup_1 in Hin as [i Hi]. destruct (Forall2_lookup_l _ _ _ _ _ Hf Hi) as (s' & Hs' & _ & Hid' & _).
    rewrite <- Hr, Hid in Hid'. injection Hid' as ->. by eapply list_elem_of_lookup_2.
Qed.

(** What [VerifyDecision] yields. *)
Lemma VerifyDecision_ok b report :
  VerifyDecision b = Ok report ->
  exists trace binding snapshots version, Verify b = None /\ recalculated b trace binding snapshots version /\
    report = MkReport (BundleID (BundleManifest b)) (EvaluationID (BundleManifest b)) (ManifestPolicy (BundleManifest b))
      (evaluation.TraceResult trace) (evaluation.TraceResult trace)
      (as_recalculated <$> evaluation.TraceRuleOutcomes trace) true.
Proof.
  unfold VerifyDecision. destruct (Verify b) eqn:Ev; [done|].
  intros (s & Hs & H)%obind_ok. apply obind_ok in H as ([trace snapshots] & Hi & H). cbv zeta in H.
  not_taken H E1. not_taken H E2. not_taken H E3. apply negb_false_iff, sameStrings_eq in E3.
  apply obind_ok in H as (version' & Hv' & H).
  destruct (compiler.ValidatePolicyDocument _ _) eqn:Ed; [done|].
  apply obind_ok in H as ([outcomes result] & Hr & H). destruct (result != _) eqn:Eres; [done|]. injection H as <-.
  rewrite !orb_false_iff, !negb_false_iff, !bool_decide_eq_true in E1. destruct E1 as ((((E1a & _) & _) & _) & E1e).
  rewrite !orb_false_iff, !negb_false_iff, !bool_decide_eq_true in E2. destruct E2 as ((E2a & E2b) & E2c).
  destruct (evaluation.TracePolicyBinding trace) as [p|] eqn:Ep; [|done]. apply negb_false_iff in E2c.
  destruct (PolicySnapshot_ok b s Hs) as (version & Hem & Hval & -> & Hman).
  rewrite (proj2 (valid_version_snapshot version Hval)) in Hv'. injection Hv' as <-.
  destruct (verificationInputs_ok b trace snapshots Hi) as (Ht & binding & Hb & Hf & Hall).
  apply (recalculate_ok _ _ _ _ 0) in Hr as (Hd & -> & ->); [|lia|done]. rewrite Nat.max_0_l in Eres. go_bool.
  exists trace, binding, snapshots, version. split; [done|]. split; [|by rewrite Nat.max_0_l, Eres, E2a].
  split; try done. exists p. split_and!; [done| |done]. rewrite Hman.
  unfold refersTo in E2c. rewrite !andb_true_iff, !bool_decide_eq_true in E2c. by destruct E2c as [[-> ->] ->].
Qed.

Lemma VerifyDecision_fields b report :
  VerifyDecision b = Ok report ->
  ReportBundleID report = BundleID (BundleManifest b) /\ ReportEvaluationID report = EvaluationID (BundleManifest b) /\
  ReportPolicy report = ManifestPolicy (BundleManifest b) /\ Verified report = true.
Proof. by intros (trace & binding & snapshots & version & _ & _ & ->)%VerifyDecision_ok. Qed.

(** C22: an independent verification that succeeds establishes the decision from the
    bundle alone: the bundle verifies; its trace is of the decision and the session
    it names, and completed; it embeds the bound policy version, whose hash is its
    content's; its evidence objects are exactly the qualified references of the
    trace, and each verifies; every required rule, compiled from the embedded policy
    and run on that evidence, decides what the trace records; and the recorded
    result is the one these outcomes call for. *)
Theorem verified_decision_is_recalculated b report :
  VerifyDecision b = Ok report ->
  exists trace binding snapshots version, Verify b = None /\ recalculated b trace binding snapshots version /\
    report = MkReport (BundleID (BundleManifest b)) (EvaluationID (BundleManifest b)) (ManifestPolicy (BundleManifest b))
      (evaluation.TraceResult trace) (evaluation.TraceResult trace)
      (as_recalculated <$> evaluation.TraceRuleOutcomes trace) true.
Proof. apply VerifyDecision_ok. Qed.

(** The outcomes of a verified decision are in the order of the required rules. *)
Lemma verified_in_policy_order b report trace snapshots :
  VerifyDecision b = Ok report -> verificationInputs b = Ok (trace, snapshots) ->
  evaluation.RuleID <$> evaluation.TraceRuleOutcomes trace = evaluation.TraceRequiredRuleIDs trace.
Proof.
  unfold VerifyDecision. destruct (Verify b) eqn:Ev; [done|]. intros (s & Hs & H)%obind_ok Hi. rewrite Hi in H. cbn [obind] in H.
  not_taken H E1. not_taken H E2. not_taken H E3. apply obind_ok in H as (version & _ & H).
  destruct (compiler.ValidatePolicyDocument _ _) eqn:Ed; [done|]. apply obind_ok in H as ([outcomes result] & Hr & _).
  rewrite !orb_false_iff, !negb_false_iff, !bool_decide_eq_true in E1. destruct E1 as (_ & E1e).
  apply (recalculate_ok _ _ _ _ 0) in Hr as (Hd & _); [|lia|done]. clear -Hd.
  induction Hd as [|id o ids l [<- _] _ IH]; [done|]. cbn. by rewrite IH.
Qed.

(** [RecordRuleOutcomeBatch] keeps the outcomes of a batch by rule ID: where the
    policy lists its rules in another order, the decision never verifies. *)
Lemma batch_order_never_verifies b trace snapshots :
  verificationInputs b = Ok (trace, snapshots) ->
  StronglySorted evaluation.outcome_le (evaluation.TraceRuleOutcomes trace) ->
  ~ StronglySorted String.le (evaluation.TraceRequiredRuleIDs trace) ->
  exists err, VerifyDecision b = Err err.
Proof.
  intros Hi Hs Hn. destruct (VerifyDecision b) as [report|err] eqn:E; [|by exists err]. destruct Hn.
  rewrite <- (verified_in_policy_order _ _ _ _ E Hi). clear -Hs.
  induction Hs as [|o l _ IH Ho]; cbn; constructor; [done|]. by rewrite Forall_fmap.
Qed.

End verified.

Import evidencebundle verification signing.

Section signed.
Context {P : Platform} {L : PlatformLaws P} {T : Type} {TS : policy.TrustStore T}.

(** The key is one of the signer, for Ed25519, and live at a time. *)
Record live (key : policy.VerificationKey) (signerID keyID : string) (at_ : Time) : Prop := {
  lv_signer : policy.KeySignerID key = signerID;
  lv_key : policy.KeyKeyID key = keyID;
  lv_algorithm : policy.KeyAlgorithm key = policy.AlgorithmEd25519;
  lv_from : IsZero (policy.ValidFrom key) = true \/ instant (policy.ValidFrom key) <= instant at_;
  lv_until t : policy.ValidUntil key = Some t -> instant at_ < instant t;
  lv_revoked t : policy.RevokedAt key = Some t -> instant at_ < instant t
}.

(** The payload carries an Ed25519 signature of a key that the store trusts and
    that was live when it was made. *)
Definition attested (store : T) (signerID keyID : string) (at_ : Time) (payload : bytes) (value : string) : Prop :=
  exists key v, policy.ResolveVerificationKey signerID keyID store = Ok key /\ live key signerID keyID at_ /\
    base64_Decode value = Some v /\ length v = 64%nat /\ length (policy.PublicKey key) = 32%nat /\
    ed25519_Verify (policy.PublicKey key) payload v = true.

Lemma reached_false limit at_ : reached limit at_ = false -> forall t, limit = Some t -> instant at_ < instant t.
Proof. unfold reached, Before. intros H t ->. cbn in H. lia. Qed.

Lemma keyError_live key signerID keyID at_ :
  keyError key signerID keyID at_ = None -> reached (policy.ValidUntil key) at_ = false ->
  reached (policy.RevokedAt key) at_ = false -> live key signerID keyID at_.
Proof.
  unfold keyError. intros H Hu Hr. not_taken H E1. not_taken H E2. not_taken H E3. go_bool. split; try done; [|by apply reached_false..].
  destruct E3 as [E3|E3]; [by left|right]. unfold Before in E3. cbn in E3. lia.
Qed.

Lemma signed_attested store key signerID keyID at_ payload value :
  policy.ResolveVerificationKey signerID keyID store = Ok key -> live key signerID keyID at_ ->
  signed key payload value = true -> attested store signerID keyID at_ payload value.
Proof.
  intros Hk Hl. unfold signed. destruct (base64_Decode value) as [v|] eqn:Ev; [|done].
  rewrite !andb_true_iff, !bool_decide_eq_true. intros [[H1 H2] H3]. by exists key, v.
Qed.

(** ** Signatures *)

(** The copy of a verified bundle that has objects is the bundle. *)
Lemma copyBundle_verified b : Verify b = None -> Objects b <> [] -> copyBundle b = b.
Proof.
  intros (_ & _ & Hd & _)%Verify_iff Hne. unfold copyBundle, descriptors in *. destruct b as [[] l]. cbn in *. f_equal.
  destruct ManifestObjects0 as [[|d ds]|]; try done. symmetry in Hd. apply fmap_nil_inv in Hd.
  pose proof (sort_objects_perm l) as Hp. rewrite Hd in Hp. by apply Permutation_nil in Hp.
Qed.

(** The signature names the manifest of the bundle. *)
Record binds_bundle (b : Bundle) (s : Signature) : Prop := {
  bb_verified : Verify b = None;
  bb_manifest : exists payload, CanonicalManifest (BundleManifest b) = Ok payload /\
    SignedManifestHash s = digest payload;
  bb_root : BundleRootHash s = BundleRoot (BundleManifest b);
  bb_time : instant (GeneratedAt (BundleManifest b)) <= instant (SigningTime s)
}.

Lemma validateSignatureBinding_ok b s v : validateSignatureBinding b s v = None -> binds_bundle b s.
Proof.
  unfold validateSignatureBinding. destruct (Verify b) eqn:Ev; [done|]. intros H. not_taken H E1. not_taken H E2.
  not_taken H Et. destruct (CanonicalManifest _) as [payload|] eqn:Ec; [|done]. not_taken H E.
  apply orb_false_iff in E as [E3 E4], Et as [_ Et]. apply negb_false_iff, bool_decide_eq_true in E3, E4.
  split; [done|by exists payload|done|]. unfold Before in Et. lia.
Qed.

Lemma SigningPayload_ok b s payload :
  SigningPayload b s = Ok payload -> exists e, signatureEnvelope s = Some e /\ payload = sha256 e.
Proof.
  unfold SigningPayload. destruct (validateSignatureBinding _ _ _); [done|].
  destruct (signatureEnvelope s) as [e|]; [|done]. intros [= <-]. by exists e.
Qed.

Lemma VerifySignature_ok b s store at_ v :
  VerifySignature b s (Some store) at_ = Ok v ->
  v = MkVerifiedBundle (copyBundle b) s /\ binds_bundle b s /\ instant (SigningTime s) <= instant at_ /\
  exists e, signatureEnvelope s = Some e /\ attested store (SignerID s) (KeyID s) (SigningTime s) (sha256 e) (Value s).
Proof.
  unfold VerifySignature. cbv zeta. intros H. not_taken H Et.
  destruct (validateSignatureBinding b s true) eqn:Eb; [done|]. apply obind_ok in H as (key & Hk & H).
  destruct (policy.ResolveVerificationKey _ _ _) as [key'|] eqn:Er; [|done]. injection Hk as ->.
  destruct (keyError key _ _ _) eqn:Ek; [done|]. not_taken H E1. not_taken H E2. not_taken H E3. not_taken H E4.
  destruct (SigningPayload b s) as [payload|] eqn:Ep; [|done].
  destruct (signed key payload (Value s)) eqn:Es; [|done]. injection H as <-.
  apply SigningPayload_ok in Ep as (e & He & ->). split_and!; [done|by eapply validateSignatureBinding_ok| |].
  - apply orb_false_iff in Et as [_ Et]. unfold Before in Et. cbn in Et. lia.
  - exists e. split; [done|]. eapply signed_attested; [done|by apply keyError_live|done].
Qed.

(** ** Timestamps *)

Definition binds_signature (v : VerifiedBundle) (t : TrustedTimestamp) : Prop :=
  (exists payload, CanonicalSignature (signature v) = Ok payload /\ SignatureHash t = digest payload) /\
  TimestampRootHash t = BundleRoot (BundleManifest (verifiedBundle v)) /\
  instant (SigningTime (signature v)) <= instant (IssuedAt t).

Lemma VerifyTrustedTimestamp_ok v t store at_ r :
  VerifyTrustedTimestamp (Some v) t (Some store) at_ = Ok r ->
  r = MkTimestampedBundle (MkVerifiedBundle (VerifiedCopy v) (signature v)) t /\ binds_signature v t /\ instant (IssuedAt t) <= instant at_ /\
  exists e, timestampEnvelope t = Some e /\
    attested store (AuthorityID t) (TimestampKeyID t) (IssuedAt t) (sha256 e) (TimestampValue t).
Proof.
  unfold VerifyTrustedTimestamp. cbv zeta. intros H. not_taken H Et.
  destruct (validateTimestampBinding t true) eqn:Eb; [done|].
  destruct (CanonicalSignature _) as [payload|] eqn:Ec; [|done]. not_taken H E.
  apply orb_false_iff in E as [E3 E4]. apply negb_false_iff, bool_decide_eq_true in E3, E4.
  apply obind_ok in H as (key & Hk & H). destruct (policy.ResolveVerificationKey _ _ _) as [key'|] eqn:Er; [|done]. injection Hk as ->.
  destruct (keyError key _ _ _) eqn:Ek; [done|]. not_taken H E1. not_taken H E2.
  unfold TimestampSigningPayload in H. destruct (validateTimestampBinding t false); [done|].
  destruct (timestampEnvelope t) as [e|]; [|done]. destruct (signed key _ _) eqn:Es; [|done]. injection H as <-.
  rewrite !orb_false_iff in Et. destruct Et as [[_ Et1] Et2]. unfold Before in Et1, Et2. cbn in Et1, Et2.
  split_and!; [done| |lia|].
  - split_and!; [by exists payload|done|lia].
  - exists e. split; [done|]. eapply signed_attested; [done|by apply keyError_live|done].
Qed.

(** ** Certificates *)

Lemma sameRecalculatedOutcomes_eq l r : sameRecalculatedOutcomes l r = true -> l = r.
Proof.
  revert r. induction l as [|a l IH]; intros [|b r]; cbn [sameRecalculatedOutcomes]; try done.
  rewrite !andb_true_iff, !bool_decide_eq_true. unfold sameReasonCodes. rewrite sameStrings_eq.
  intros [[[H1 H2] H3] H4%IH]. subst r. destruct a, b. cbn in *. by subst.
Qed.

(** The certificate is of the timestamped bundle, and states what an independent
    verification of it yields. *)
Record certifies (t : TimestampedBundle) (c : VerificationCertificate) : Prop := {
  cf_bundle : CertificateBundleID c = BundleID (BundleManifest (verifiedBundle (verified t)));
  cf_evaluation : CertificateEvaluationID c = EvaluationID (BundleManifest (verifiedBundle (verified t)));
  cf_root : CertificateRoot c = BundleRoot (BundleManifest (verifiedBundle (verified t)));
  cf_policy : CertificatePolicy c = ManifestPolicy (BundleManifest (verifiedBundle (verified t)));
  cf_timestamp : exists payload, CanonicalTimestamp (timestamp t) = Ok payload /\ TimestampHash c = digest payload;
  cf_issued : instant (TimestampIssuedAt c) = instant (IssuedAt (timestamp t));
  cf_report : VerifyDecision (verifiedBundle (verified t)) =
    Ok (MkReport (CertificateBundleID c) (CertificateEvaluationID c) (CertificatePolicy c) (CertificateStoredResult c)
          (CertificateRecalculatedResult c) (CertificateOutcomes c) true);
  cf_time : instant (IssuedAt (timestamp t)) <= instant (CertificateIssuedAt c)
}.

Lemma certificateBound_ok t c :
  certificateBound t c = true ->
  let m := BundleManifest (verifiedBundle (verified t)) in
  CertificateBundleID c = BundleID m /\ CertificateEvaluationID c = EvaluationID m /\ CertificateRoot c = BundleRoot m /\
  CertificatePolicy c = ManifestPolicy m /\
  (exists payload, CanonicalTimestamp (timestamp t) = Ok payload /\ TimestampHash c = digest payload) /\
  instant (TimestampIssuedAt c) = instant (IssuedAt (timestamp t)).
Proof.
  unfold certificateBound, TimeEqual. destruct (CanonicalTimestamp _) as [payload|]; [|done].
  rewrite !andb_true_iff, !bool_decide_eq_true, Z.eqb_eq. intros [[[[[H1 H2] H3] H4] H5] H6].
  split_and!; [done..|by exists payload|done].
Qed.

Lemma certificateRepeats_ok t c :
  certificateBound t c = true -> certificateRepeats (verifiedBundle (verified t)) c = true ->
  VerifyDecision (verifiedBundle (verified t)) =
    Ok (MkReport (CertificateBundleID c) (CertificateEvaluationID c) (CertificatePolicy c) (CertificateStoredResult c)
          (CertificateRecalculatedResult c) (CertificateOutcomes c) true).
Proof.
  intros (H1 & H2 & _ & H4 & _)%certificateBound_ok. unfold certificateRepeats.
  destruct (VerifyDecision _) as [report|] eqn:Er; [|done].
  apply VerifyDecision_fields in Er as (F1 & F2 & F3 & F4).
  rewrite !andb_true_iff, !bool_decide_eq_true. intros [[R1 R2] R3%sameRecalculatedOutcomes_eq].
  destruct report. cbn in *. congruence.
Qed.

Lemma VerifyVerificationCertificate_ok t c store at_ r :
  VerifyVerificationCertificate (Some t) c (Some store) at_ = Ok r ->
  r = c /\ certifies t c /\ instant (CertificateIssuedAt c) <= instant at_ /\
  exists e, certificateEnvelope c = Some e /\
    attested store (VerifierID c) (CertificateKeyID c) (CertificateIssuedAt c) (sha256 e) (CertificateValue c).
Proof.
  unfold VerifyVerificationCertificate. cbv zeta. intros H. not_taken H Et.
  destruct (validateVerificationCertificate c true) eqn:Eb; [done|]. destruct (certificateBound t c) eqn:Ec; [|done].
  destruct (certificateRepeats _ c) eqn:Ed; [|done]. cbn [negb] in H. apply obind_ok in H as (key & Hk & H).
  destruct (policy.ResolveVerificationKey _ _ _) as [key'|] eqn:Er; [|done]. injection Hk as ->.
  destruct (keyError key _ _ _) eqn:Ek; [done|]. not_taken H E1. not_taken H E2.
  unfold VerificationCertificateSigningPayload in H. destruct (validateVerificationCertificate c false); [done|].
  destruct (certificateEnvelope c) as [e|]; [|done]. destruct (signed key _ _) eqn:Es; [|done]. injection H as <-.
  rewrite !orb_false_iff in Et. destruct Et as [[_ Et1] Et2]. unfold Before in Et1, Et2. cbn in Et1, Et2.
  apply orb_false_iff in E1 as [E1 _], E2 as [E2 _]. split_and!; [done| |lia|].
  - pose proof (certificateBound_ok t c Ec) as (? & ? & ? & ? & ? & ?). split; [done..|by apply certificateRepeats_ok|lia].
  - exists e. split; [done|]. eapply signed_attested; [done|by apply keyError_live|done].
Qed.

End signed.
