(* ===== verification/HandoverProof.v ===== *)
(** * Portable proofs of handover ([responsibility/])

    A proof binds a transfer, its audit entry, the evidence bundle of the
    decision and the certificate of its verification under one root
    ([proof_binding.go]), which both participants sign ([proof_signature.go]);
    the whole is verified from its artifacts alone ([proof_verification.go]). *)

From Stdlib Require Import Ascii String.
From S2P Require Import Prelude GoTime GoString Uuid GoCrypto Responsibility AuditLedger Policy.
From S2P Require Import Bundle BundleDecision BundleSigning.
Import responsibility.

Module proof.

Inductive Error :=
  | ErrHandoverProofBindingInvalid
  | ErrHandoverSignerRole
  | ErrHandoverSignerIdentity
  | ErrHandoverSignatureTime
  | ErrHandoverSignatureValue
  | ErrHandoverTrustStore
  | ErrHandoverVerificationTime
  | PolicyError (err : policy.Error)
  | BundleError (err : evidencebundle.Error).

(** ** The binding *)

Definition handoverProofBindingDomain : string := "cargoos:handover-proof-binding:v1".

Record HandoverProofBinding := MkHandoverProofBinding {
  ProofID : UUID;
  ProofObjectID : PhysicalObjectID;
  ProofFromParticipantID : ParticipantID;
  ProofToParticipantID : ParticipantID;
  TransferVersion : Z;
  ProofTransferredAt : Time;
  TransferRoot : bytes;
  AuditSequence : Z;
  AuditPreviousRoot : bytes;
  AuditRoot : bytes;
  BundleID : UUID;
  EvaluationID : UUID;
  SessionID : UUID;
  BundleRoot : bytes;
  PolicyHash : string;
  CertificateID : UUID;
  CertificateRoot : bytes;
  CertificateIssuedAt : Time;
  Root : bytes
}.

#[global] Instance HandoverProofBinding_eta : Eta HandoverProofBinding :=
  fun b => MkHandoverProofBinding (ProofID b) (ProofObjectID b) (ProofFromParticipantID b) (ProofToParticipantID b)
             (TransferVersion b) (ProofTransferredAt b) (TransferRoot b) (AuditSequence b) (AuditPreviousRoot b)
             (AuditRoot b) (BundleID b) (EvaluationID b) (SessionID b) (BundleRoot b) (PolicyHash b) (CertificateID b)
             (CertificateRoot b) (CertificateIssuedAt b) (Root b).

Definition bindingPreimage (b : HandoverProofBinding) : bytes :=
  bytes_of handoverProofBindingDomain ++ ProofID b ++ length_prefixed (ProofObjectID b) ++
  length_prefixed (ProofFromParticipantID b) ++ length_prefixed (ProofToParticipantID b) ++
  be64 (TransferVersion b) ++ be64 (u64 (UnixMicro (ProofTransferredAt b))) ++ TransferRoot b ++
  be64 (AuditSequence b) ++ AuditPreviousRoot b ++ AuditRoot b ++ BundleID b ++ EvaluationID b ++ SessionID b ++
  BundleRoot b ++ length_prefixed (PolicyHash b) ++ CertificateID b ++ CertificateRoot b ++
  be64 (u64 (UnixMicro (CertificateIssuedAt b))).

Definition calculateHandoverProofBindingRoot (b : HandoverProofBinding) : bytes := sha256 (bindingPreimage b).

(** [t.UTC().Truncate(time.Microsecond)] *)
Definition micros (t : Time) : Time := TruncateMicrosecond (UTC t).

Section proof.
Context {P : evidencebundle.Platform}.

(** The audit entry records the transfer. *)
Definition entryRecords (entry : audit.Entry) (root : bytes) (event : TransferredEvent) : bool :=
  (audit.Validate entry == None) && (audit.Kind entry =? audit.RecordResponsibilityHandover) &&
  (audit.RecordRoot entry == root) && TimeEqual (audit.OccurredAt entry) (micros (TransferredAt event)).

(** The certificate is of the bundle, and issued after the transfer. *)
Definition certificateFits (c : signing.VerificationCertificate) (m : evidencebundle.Manifest) (event : TransferredEvent)
    : bool :=
  (signing.CertificateID c != NilUUID) && (signing.CertificateBundleID c == evidencebundle.BundleID m) &&
  (signing.CertificateEvaluationID c == evidencebundle.EvaluationID m) &&
  (signing.CertificateRoot c == evidencebundle.BundleRoot m) &&
  (signing.CertificatePolicy c == evidencebundle.ManifestPolicy m) && negb (IsZero (signing.CertificateIssuedAt c)) &&
  negb (Before (signing.CertificateIssuedAt c) (TransferredAt event)).

Definition NewHandoverProofBinding (proofID : UUID) (event : TransferredEvent) (entry : audit.Entry)
    (m : evidencebundle.Manifest) (c : signing.VerificationCertificate) : outcome Error HandoverProofBinding :=
  match TransferredEventRoot event with
  | Err _ => Err ErrHandoverProofBindingInvalid
  | Ok transferRoot =>
      if (proofID == NilUUID) || negb (entryRecords entry transferRoot event)
      then Err ErrHandoverProofBindingInvalid else
      match evidencebundle.NewAuditRecord m with
      | Err _ => Err ErrHandoverProofBindingInvalid
      | Ok record =>
          if negb (certificateFits c m event) then Err ErrHandoverProofBindingInvalid else
          match signing.CanonicalVerificationCertificate c with
          | Err _ => Err ErrHandoverProofBindingInvalid
          | Ok certificatePayload =>
              let binding :=
                MkHandoverProofBinding proofID (EventObjectID event) (FromParticipantID event) (ToParticipantID event)
                  (EventVersion event) (micros (TransferredAt event)) transferRoot (audit.Sequence entry)
                  (audit.PreviousRoot entry) (audit.Root entry) (evidencebundle.BundleID m)
                  (evidencebundle.EvaluationID m) (evidencebundle.SessionID m) (evidencebundle.RecordBundleRoot record)
                  (evidencebundle.PolicyHash (evidencebundle.ManifestPolicy m)) (signing.CertificateID c)
                  (sha256 certificatePayload) (micros (signing.CertificateIssuedAt c)) ZeroRoot in
              Ok (binding <| Root := calculateHandoverProofBindingRoot binding |>)
          end
      end
  end.

Definition Validate (b : HandoverProofBinding) : option Error :=
  if (ProofID b == NilUUID) || (validateObjectID (ProofObjectID b) != None) ||
     (validateParticipantID (ProofFromParticipantID b) != None) ||
     (validateParticipantID (ProofToParticipantID b) != None) ||
     (ProofFromParticipantID b == ProofToParticipantID b) || (TransferVersion b <? 2) ||
     IsZero (ProofTransferredAt b) || (ProofTransferredAt b != micros (ProofTransferredAt b)) ||
     (TransferRoot b == ZeroRoot) || (AuditSequence b =? 0) || (AuditRoot b == ZeroRoot) ||
     (BundleID b == NilUUID) || (EvaluationID b == NilUUID) || (SessionID b == NilUUID) || (BundleRoot b == ZeroRoot) ||
     (PolicyHash b == "") || (CertificateID b == NilUUID) || (CertificateRoot b == ZeroRoot) ||
     IsZero (CertificateIssuedAt b) || (CertificateIssuedAt b != micros (CertificateIssuedAt b)) ||
     Before (CertificateIssuedAt b) (ProofTransferredAt b) || (Root b == ZeroRoot) ||
     (Root b != calculateHandoverProofBindingRoot b)
  then Some ErrHandoverProofBindingInvalid else None.

(** ** Signatures of the participants *)

Definition HandoverProofSignatureSchema : string := "cargoos.handover-proof.signature.v1".
Definition handoverProofSignatureDomain : string := "cargoos:handover-proof-signature:v1".

Definition HandoverSignerOutgoing : string := "OUTGOING_PARTICIPANT".
Definition HandoverSignerIncoming : string := "INCOMING_PARTICIPANT".

Record HandoverProofSignature := MkHandoverProofSignature {
  SignatureSchema : string;
  Role : string;
  SignatureParticipantID : ParticipantID;
  SignerID : string;
  KeyID : string;
  SignedAt : Time;
  Algorithm : string;
  BindingRoot : bytes;
  Value : string
}.

Record SignedHandoverProof := MkSignedHandoverProof {
  Binding : HandoverProofBinding;
  Outgoing : HandoverProofSignature;
  Incoming : HandoverProofSignature
}.

Definition handoverSignerParticipant (b : HandoverProofBinding) (role : string) : outcome Error ParticipantID :=
  if role == HandoverSignerOutgoing then Ok (ProofFromParticipantID b) else
  if role == HandoverSignerIncoming then Ok (ProofToParticipantID b) else Err ErrHandoverSignerRole.

Definition NewHandoverProofSignature (b : HandoverProofBinding) (role signerID keyID : string) (signedAt : Time)
    : outcome Error HandoverProofSignature :=
  match Validate b with
  | Some err => Err err
  | None =>
      let! participantID := handoverSignerParticipant b role in
      let signerID := TrimSpace signerID in
      let keyID := TrimSpace keyID in
      let signedAt := micros signedAt in
      if (signerID == "") || (signerID != participantID) || (keyID == "") then Err ErrHandoverSignerIdentity else
      if IsZero signedAt || Before signedAt (CertificateIssuedAt b) then Err ErrHandoverSignatureTime else
      Ok (MkHandoverProofSignature HandoverProofSignatureSchema role participantID signerID keyID signedAt
            policy.AlgorithmEd25519 (Root b) "")
  end.

Definition validateHandoverProofSignature (s : HandoverProofSignature) (requireValue : bool) : option Error :=
  if (SignatureSchema s != HandoverProofSignatureSchema) ||
     ((Role s != HandoverSignerOutgoing) && (Role s != HandoverSignerIncoming))
  then Some ErrHandoverSignerRole else
  if (validateParticipantID (SignatureParticipantID s) != None) || signing.unnamed (SignerID s) ||
     (SignerID s != SignatureParticipantID s) || signing.unnamed (KeyID s)
  then Some ErrHandoverSignerIdentity else
  if IsZero (SignedAt s) || (SignedAt s != micros (SignedAt s)) then Some ErrHandoverSignatureTime else
  if (Algorithm s != policy.AlgorithmEd25519) || (BindingRoot s == ZeroRoot) then Some ErrHandoverSignatureValue else
  if requireValue && (Value s == "") then Some ErrHandoverSignatureValue else None.

Definition signaturePreimage (s : HandoverProofSignature) : bytes :=
  bytes_of handoverProofSignatureDomain ++ length_prefixed (SignatureSchema s) ++ length_prefixed (Role s) ++
  length_prefixed (SignatureParticipantID s) ++ length_prefixed (SignerID s) ++ length_prefixed (KeyID s) ++
  be64 (u64 (UnixMicro (SignedAt s))) ++ length_prefixed (Algorithm s) ++ BindingRoot s.

Definition HandoverProofSigningPayload (s : HandoverProofSignature) : outcome Error bytes :=
  match validateHandoverProofSignature s false with
  | Some err => Err err
  | None => Ok (sha256 (signaturePreimage s))
  end.

(** [keyError] of the package. *)
Definition keyError (key : policy.VerificationKey) (s : HandoverProofSignature) (verifiedAt : Time) : option Error :=
  if (policy.KeySignerID key != SignerID s) || (policy.KeyKeyID key != KeyID s)
  then Some (PolicyError policy.ErrVerificationKeyAbsent) else
  if (policy.KeyAlgorithm key != policy.AlgorithmEd25519) || (Algorithm s != policy.AlgorithmEd25519)
  then Some (PolicyError policy.ErrUnsupportedAlgorithm) else
  if negb (IsZero (policy.ValidFrom key)) && Before (SignedAt s) (UTC (policy.ValidFrom key))
  then Some (PolicyError policy.ErrKeyNotYetValid) else
  if signing.reached (policy.ValidUntil key) (SignedAt s) || signing.reached (policy.ValidUntil key) verifiedAt
  then Some (PolicyError policy.ErrKeyExpired) else
  if signing.reached (policy.RevokedAt key) (SignedAt s) || signing.reached (policy.RevokedAt key) verifiedAt
  then Some (PolicyError policy.ErrKeyRevoked) else None.

Definition verifyHandoverProofSignature `{!policy.TrustStore T} (b : HandoverProofBinding) (wantRole : string)
    (s : HandoverProofSignature) (store : T) (verifiedAt : Time) : option Error :=
  match validateHandoverProofSignature s true with
  | Some err => Some err
  | None =>
      match handoverSignerParticipant b wantRole with
      | Err _ => Some ErrHandoverSignerIdentity
      | Ok participantID =>
          if (Role s != wantRole) || (SignatureParticipantID s != participantID) || (SignerID s != participantID) ||
             (BindingRoot s != Root b) || Before (SignedAt s) (CertificateIssuedAt b)
          then Some ErrHandoverSignerIdentity else
          match policy.ResolveVerificationKey (SignerID s) (KeyID s) store with
          | Err err => Some (PolicyError err)
          | Ok key =>
              match keyError key s verifiedAt with
              | Some err => Some err
              | None =>
                  match HandoverProofSigningPayload s with
                  | Err _ => Some ErrHandoverSignatureValue
                  | Ok payload =>
                      if negb (signing.signed key payload (Value s)) then Some ErrHandoverSignatureValue else None
                  end
              end
          end
      end
  end.

Definition VerifyHandoverProofSignatures `{!policy.TrustStore T} (b : HandoverProofBinding)
    (outgoing incoming : HandoverProofSignature) (store : option T) (verifiedAt : Time)
    : outcome Error SignedHandoverProof :=
  match store with
  | None => Err ErrHandoverTrustStore
  | Some store =>
      match Validate b with
      | Some err => Err err
      | None =>
          let verifiedAt := UTC verifiedAt in
          if IsZero verifiedAt || Before verifiedAt (SignedAt outgoing) || Before verifiedAt (SignedAt incoming)
          then Err ErrHandoverSignatureTime else
          match verifyHandoverProofSignature b HandoverSignerOutgoing outgoing store verifiedAt with
          | Some err => Err err
          | None =>
              match verifyHandoverProofSignature b HandoverSignerIncoming incoming store verifiedAt with
              | Some err => Err err
              | None => Ok (MkSignedHandoverProof b outgoing incoming)
              end
          end
      end
  end.

(** ** The portable proof *)

Record PortableHandoverProof := MkPortableHandoverProof {
  PortableProofID : UUID;
  PortableTransfer : TransferredEvent;
  AuditEntry : audit.Entry;
  PortableBundle : evidencebundle.Bundle;
  BundleSignature : signing.Signature;
  Timestamp : signing.TrustedTimestamp;
  Certificate : signing.VerificationCertificate;
  OutgoingSignature : HandoverProofSignature;
  IncomingSignature : HandoverProofSignature
}.

Record VerifiedPortableHandoverProof := MkVerifiedPortableHandoverProof {
  Proof : SignedHandoverProof;
  VerifiedCertificate : signing.VerificationCertificate
}.

Definition VerifyPortableHandoverProof `{!policy.TrustStore T} (portable : PortableHandoverProof) (store : option T)
    (verifiedAt : Time) : outcome Error VerifiedPortableHandoverProof :=
  match store with
  | None => Err ErrHandoverTrustStore
  | Some _ =>
      let verifiedAt := UTC verifiedAt in
      if IsZero verifiedAt then Err ErrHandoverVerificationTime else
      let! verified := omap_err BundleError (signing.VerifySignature (PortableBundle portable) (BundleSignature portable)
                                               store verifiedAt) in
      let! timestamped := omap_err BundleError (signing.VerifyTrustedTimestamp (Some verified) (Timestamp portable)
                                                  store verifiedAt) in
      let! certificate := omap_err BundleError (signing.VerifyVerificationCertificate (Some timestamped)
                                                  (Certificate portable) store verifiedAt) in
      let! binding := NewHandoverProofBinding (PortableProofID portable) (PortableTransfer portable) (AuditEntry portable)
                        (evidencebundle.BundleManifest (PortableBundle portable)) certificate in
      let! signed := VerifyHandoverProofSignatures binding (OutgoingSignature portable) (IncomingSignature portable)
                       store verifiedAt in
      Ok (MkVerifiedPortableHandoverProof signed certificate)
  end.

End proof.

End proof.
