(* ===== verification/HandoverProperties.v ===== *)
(** * Properties of portable proofs of handover

    The root of a proof binds everything it names, and a proof that verifies
    establishes the handover, its decision and who attested them. *)

From Stdlib Require Import Ascii String.
From S2P Require Import Prelude GoTime GoString Uuid GoCrypto Responsibility AuditLedger Policy Evaluation EvaluationDecision.
From S2P Require Import Bundle BundleProperties BundleDecision BundleVerified BundleSigning HandoverProof.
Import responsibility proof.

(** ** What the root binds *)

(** The widths of the fields. *)
Record sized (b : HandoverProofBinding) : Prop := {
  sz_proof : is_uuid (ProofID b);
  sz_bundle : is_uuid (BundleID b);
  sz_evaluation : is_uuid (EvaluationID b);
  sz_session : is_uuid (SessionID b);
  sz_certificate : is_uuid (CertificateID b);
  sz_roots : Forall (fun r => length r = 32%nat)
    [TransferRoot b; AuditPreviousRoot b; AuditRoot b; BundleRoot b; CertificateRoot b];
  sz_strings : Forall go_string [ProofObjectID b; ProofFromParticipantID b; ProofToParticipantID b; PolicyHash b];
  sz_scalars : is_u64 (TransferVersion b) /\ is_u64 (AuditSequence b);
  sz_times : Forall (fun t => is_i64 ((instant t - unixEpochSeconds * Second) / Microsecond))
    [ProofTransferredAt b; CertificateIssuedAt b]
}.

Lemma app_uuid_inj (a b x y : bytes) : is_uuid a -> is_uuid b -> a ++ x = b ++ y -> a = b /\ x = y.
Proof. unfold is_uuid. intros Ha Hb. apply app_eq_length. congruence. Qed.

Lemma app_root_inj (a b x y : bytes) : length a = 32%nat -> length b = 32%nat -> a ++ x = b ++ y -> a = b /\ x = y.
Proof. intros Ha Hb. apply app_eq_length. congruence. Qed.

Lemma micros_eq t u :
  t = micros t -> u = micros u ->
  is_i64 ((instant t - unixEpochSeconds * Second) / Microsecond) ->
  is_i64 ((instant u - unixEpochSeconds * Second) / Microsecond) ->
  UnixMicro t = UnixMicro u -> t = u.
Proof.
  intros Ht Hu Rt Ru H.
  assert (forall t, t = micros t -> instant t mod Microsecond = 0 /\ location t = UTCLoc) as Hm.
  { clear. intros [i l] [= H1 H2]. cbn. split; [|by subst l]. unfold Microsecond in *. lia. }
  destruct (Hm t Ht) as [Ht1 Ht2], (Hm u Hu) as [Hu1 Hu2]. apply UnixMicro_inj in H; [|done..].
  destruct t, u. cbn in *. by subst.
Qed.

Lemma Validate_times b : Validate b = None ->
  ProofTransferredAt b = micros (ProofTransferredAt b) /\ CertificateIssuedAt b = micros (CertificateIssuedAt b) /\
  Root b = calculateHandoverProofBindingRoot b.
Proof.
  unfold Validate. intros H. not_taken H E. rewrite !orb_false_iff, !negb_false_iff, !bool_decide_eq_true in E.
  by destruct_and! E.
Qed.

Lemma bindingPreimage_inj b1 b2 :
  sized b1 -> sized b2 -> Validate b1 = None -> Validate b2 = None -> bindingPreimage b1 = bindingPreimage b2 ->
  b1 <| Root := ZeroRoot |> = b2 <| Root := ZeroRoot |>.
Proof.
  intros [P1 B1 E1 S1 C1 R1 N1 [V1 Q1] T1] [P2 B2 E2 S2 C2 R2 N2 [V2 Q2] T2] (M1 & M1' & _)%Validate_times (M2 & M2' & _)%Validate_times H.
  rewrite !Forall_cons in R1, R2. rewrite !Forall_cons in N1, N2. rewrite !Forall_cons in T1, T2. destruct_and! R1. destruct_and! R2. destruct_and! N1. destruct_and! N2.
  destruct T1 as (T1 & T1' & _), T2 as (T2 & T2' & _). unfold bindingPreimage in H. apply app_inv_head in H.
  apply app_uuid_inj in H as [F1 H]; [|done..]. apply length_prefixed_app_inj in H as [F2 H]; [|done..].
  apply length_prefixed_app_inj in H as [F3 H]; [|done..]. apply length_prefixed_app_inj in H as [F4 H]; [|done..].
  apply be64_app_inj in H as [F5 H]; [|done..]. apply be64_app_inj in H as [F6 H]; [|apply u64_range..].
  apply app_root_inj in H as [F7 H]; [|done..]. apply be64_app_inj in H as [F8 H]; [|done..].
  apply app_root_inj in H as [F9 H]; [|done..]. apply app_root_inj in H as [F10 H]; [|done..].
  apply app_uuid_inj in H as [F11 H]; [|done..]. apply app_uuid_inj in H as [F12 H]; [|done..].
  apply app_uuid_inj in H as [F13 H]; [|done..]. apply app_root_inj in H as [F14 H]; [|done..].
  apply length_prefixed_app_inj in H as [F15 H]; [|done..]. apply app_uuid_inj in H as [F16 H]; [|done..].
  apply app_root_inj in H as [F17 H]; [|done..]. apply be64_inj in H; [|apply u64_range..].
  apply u64_of_i64_inj in F6, H; [|apply i64_range..]. apply micros_eq in F6, H; [|done..].
  destruct b1, b2. cbn in *. by subst.
Qed.

Lemma roots_bind b1 b2 :
  sized b1 -> sized b2 -> Validate b1 = None -> Validate b2 = None -> Root b1 = Root b2 ->
  b1 = b2 \/ Collision (bindingPreimage b1) (bindingPreimage b2).
Proof.
  intros Z1 Z2 V1 V2 H. destruct (decide (bindingPreimage b1 = bindingPreimage b2)) as [E|E].
  - left. pose proof (bindingPreimage_inj b1 b2 Z1 Z2 V1 V2 E) as Hb. destruct b1, b2. cbn in *. injection Hb. intros. by subst.
  - right. split; [done|]. apply Validate_times in V1 as (_ & _ & V1), V2 as (_ & _ & V2).
    unfold calculateHandoverProofBindingRoot in V1, V2. congruence.
Qed.

(** The root of a proof binds everything it names: two valid bindings of the Go
    widths with one root are the same binding (transfer, audit position, bundle,
    policy and certificate), or their preimages are a SHA-256 collision. *)
Theorem proof_root_binds_content b1 b2 :
  sized b1 -> sized b2 -> Validate b1 = None -> Validate b2 = None -> Root b1 = Root b2 ->
  b1 = b2 \/ Collision (bindingPreimage b1) (bindingPreimage b2).
Proof. apply roots_bind. Qed.

(** ** What a verified proof establishes *)

Section portable.
Context {P : evidencebundle.Platform} {L : evidencebundle.PlatformLaws P} {T : Type} {TS : policy.TrustStore T}.

(** The text that a participant signs: its domain, who signs, in which role, when,
    with which key, and the root of the binding. *)
Definition signed_text (s : HandoverProofSignature) (root : bytes) : bytes :=
  bytes_of "cargoos:handover-proof-signature:v1" ++ length_prefixed (SignatureSchema s) ++ length_prefixed (Role s) ++
  length_prefixed (SignatureParticipantID s) ++ length_prefixed (SignerID s) ++ length_prefixed (KeyID s) ++
  be64 (u64 (UnixMicro (SignedAt s))) ++ length_prefixed policy.AlgorithmEd25519 ++ root.

(** A participant of the binding signed its root. *)
Record countersigned (store : T) (b : HandoverProofBinding) (role : string) (participant : ParticipantID)
    (s : HandoverProofSignature) (verifiedAt : Time) : Prop := {
  cs_role : Role s = role;
  cs_participant : SignatureParticipantID s = participant /\ SignerID s = participant;
  cs_schema : SignatureSchema s = HandoverProofSignatureSchema;
  cs_root : BindingRoot s = Root b;
  cs_times : instant (CertificateIssuedAt b) <= instant (SignedAt s) <= instant verifiedAt;
  cs_value : attested store participant (KeyID s) (SignedAt s) (sha256 (signed_text s (Root b))) (Value s)
}.

Lemma proof_keyError_live key s at_ :
  keyError key s at_ = None -> live key (SignerID s) (KeyID s) (SignedAt s).
Proof.
  unfold keyError. intros H. not_taken H E1. not_taken H E2. not_taken H E3. not_taken H E4. not_taken H E5.
  apply orb_false_iff in E4 as [E4 _], E5 as [E5 _]. go_bool. split; try done; [|by apply reached_false..].
  destruct E3 as [E3|E3]; [by left|right]. unfold Before in E3. cbn in E3. lia.
Qed.

Lemma validateHandoverProofSignature_text s :
  validateHandoverProofSignature s true = None ->
  SignatureSchema s = HandoverProofSignatureSchema /\ signaturePreimage s = signed_text s (BindingRoot s).
Proof.
  unfold validateHandoverProofSignature. intros H. not_taken H E1. not_taken H E2. not_taken H E3. not_taken H E4.
  apply orb_false_iff in E1 as [E1 _], E4 as [E4 _]. rewrite negb_false_iff, bool_decide_eq_true in E1, E4.
  unfold signaturePreimage, signed_text. by rewrite E4.
Qed.

Lemma verifyHandoverProofSignature_ok b role s store at_ :
  verifyHandoverProofSignature b role s store at_ = None -> instant (SignedAt s) <= instant at_ ->
  exists participant, handoverSignerParticipant b role = Ok participant /\ countersigned store b role participant s at_.
Proof.
  unfold verifyHandoverProofSignature. intros H Hle.
  destruct (validateHandoverProofSignature s true) eqn:Et; [done|]. apply validateHandoverProofSignature_text in Et as [Hschema Htext].
  destruct (handoverSignerParticipant b role) as [participant|]; [|done]. not_taken H E.
  destruct (policy.ResolveVerificationKey _ _ _) as [key|] eqn:Ek; [|done]. destruct (keyError key s at_) eqn:El; [done|].
  unfold HandoverProofSigningPayload in H. destruct (validateHandoverProofSignature s false); [done|].
  destruct (signing.signed _ _ _) eqn:Es; [|done]. exists participant. split; [done|].
  rewrite !orb_false_iff, !negb_false_iff, !bool_decide_eq_true in E. destruct E as ((((E1 & E2) & E3) & E4) & E5).
  unfold Before in E5. split; [done|done|done|done|lia|].
  rewrite <- E4, <- Htext, <- E3. apply proof_keyError_live in El.
  by eapply signed_attested.
Qed.

(** What the binding [b] says of the artifacts of a proof: the transfer, the entry of
    the audit that records it, the bundle of the decision and its certificate, each by
    its identity and its root. *)
Record names_artifacts (portable : PortableHandoverProof) (c : signing.VerificationCertificate)
    (b : HandoverProofBinding) : Prop := {
  na_proof : ProofID b = PortableProofID portable;
  na_transfer : ProofObjectID b = EventObjectID (PortableTransfer portable) /\
    ProofFromParticipantID b = FromParticipantID (PortableTransfer portable) /\
    ProofToParticipantID b = ToParticipantID (PortableTransfer portable) /\
    TransferVersion b = EventVersion (PortableTransfer portable) /\
    ProofTransferredAt b = TruncateMicrosecond (UTC (TransferredAt (PortableTransfer portable)));
  na_transfer_root : TransferRoot b = sha256 (transferPreimage (PortableTransfer portable));
  na_audit : AuditSequence b = audit.Sequence (AuditEntry portable) /\
    AuditPreviousRoot b = audit.PreviousRoot (AuditEntry portable) /\ AuditRoot b = audit.Root (AuditEntry portable);
  na_recorded : audit.Validate (AuditEntry portable) = None /\
    audit.Kind (AuditEntry portable) = audit.RecordResponsibilityHandover /\
    audit.RecordRoot (AuditEntry portable) = TransferRoot b /\
    instant (audit.OccurredAt (AuditEntry portable)) = instant (ProofTransferredAt b);
  na_bundle : let m := evidencebundle.BundleManifest (PortableBundle portable) in
    BundleID b = evidencebundle.BundleID m /\ EvaluationID b = evidencebundle.EvaluationID m /\
    SessionID b = evidencebundle.SessionID m /\
    evidencebundle.BundleRoot m = ("sha256:" ++ string_of (hex_encode (BundleRoot b)))%string /\
    PolicyHash b = evidencebundle.PolicyHash (evidencebundle.ManifestPolicy m);
  na_certificate : CertificateID b = signing.CertificateID c /\
    CertificateIssuedAt b = TruncateMicrosecond (UTC (signing.CertificateIssuedAt c)) /\
    exists payload, signing.MarshalCertificate c = Some payload /\ CertificateRoot b = sha256 payload;
  na_after : instant (TransferredAt (PortableTransfer portable)) <= instant (signing.CertificateIssuedAt c);
  na_root : Root b = sha256 (bindingPreimage b)
}.

(** Everything that a portable proof carries, verified. *)
Record established (store : T) (portable : PortableHandoverProof) (b : HandoverProofBinding) (verifiedAt : Time) : Prop := {
  es_transfer : TransferredEventRoot (PortableTransfer portable) = Ok (TransferRoot b);
  es_named : names_artifacts portable (Certificate portable) b;
  es_bundle : binds_bundle (PortableBundle portable) (BundleSignature portable) /\
    exists e, signing.signatureEnvelope (BundleSignature portable) = Some e /\
      attested store (signing.SignerID (BundleSignature portable)) (signing.KeyID (BundleSignature portable))
        (signing.SigningTime (BundleSignature portable)) (sha256 e) (signing.Value (BundleSignature portable));
  es_timestamp : binds_signature (signing.MkVerifiedBundle (PortableBundle portable) (BundleSignature portable))
      (Timestamp portable) /\
    exists e, signing.timestampEnvelope (Timestamp portable) = Some e /\
      attested store (signing.AuthorityID (Timestamp portable)) (signing.TimestampKeyID (Timestamp portable))
        (signing.IssuedAt (Timestamp portable)) (sha256 e) (signing.TimestampValue (Timestamp portable));
  es_certificate : certifies (signing.MkTimestampedBundle (signing.MkVerifiedBundle (PortableBundle portable)
      (BundleSignature portable)) (Timestamp portable)) (Certificate portable) /\
    exists e, signing.certificateEnvelope (Certificate portable) = Some e /\
      attested store (signing.VerifierID (Certificate portable)) (signing.CertificateKeyID (Certificate portable))
        (signing.CertificateIssuedAt (Certificate portable)) (sha256 e) (signing.CertificateValue (Certificate portable));
  es_decision : exists trace binding snapshots version,
    recalculated (PortableBundle portable) trace binding snapshots version /\
    signing.CertificateStoredResult (Certificate portable) = result_of (worst (evaluation.TraceRuleOutcomes trace));
  es_outgoing : countersigned store b HandoverSignerOutgoing (FromParticipantID (PortableTransfer portable))
    (OutgoingSignature portable) verifiedAt;
  es_incoming : countersigned store b HandoverSignerIncoming (ToParticipantID (PortableTransfer portable))
    (IncomingSignature portable) verifiedAt;
  es_binding : sized b -> forall b', sized b' -> Validate b' = None -> Root b' = Root b ->
    b' = b \/ Collision (bindingPreimage b') (bindingPreimage b)
}.

Lemma NewAuditRecord_ok m record :
  evidencebundle.NewAuditRecord m = Ok record ->
  evidencebundle.BundleRoot m = ("sha256:" ++ string_of (hex_encode (evidencebundle.RecordBundleRoot record)))%string.
Proof.
  unfold evidencebundle.NewAuditRecord. intros H. not_taken H E. cbv zeta in H. not_taken H E'.
  rewrite !orb_false_iff, !negb_false_iff, !bool_decide_eq_true in E. destruct E as [_ Hroot]. rewrite <- Hroot in H |- *.
  unfold evidencebundle.calculateRoot, evidencebundle.digest in *. set (payload := default [] _) in *.
  rewrite bytes_of_app, bytes_of_string_of, (drop_app_length' (bytes_of "sha256:")), hex_decode_encode in H by done.
  not_taken H E2. by injection H as <-.
Qed.

(** What the binding takes from its artifacts. *)
Lemma NewHandoverProofBinding_ok portable c b :
  NewHandoverProofBinding (PortableProofID portable) (PortableTransfer portable) (AuditEntry portable)
    (evidencebundle.BundleManifest (PortableBundle portable)) c = Ok b ->
  TransferredEventRoot (PortableTransfer portable) = Ok (TransferRoot b) /\ names_artifacts portable c b.
Proof.
  unfold NewHandoverProofBinding. destruct (TransferredEventRoot _) as [root|] eqn:Er; [|done].
  destruct (_ == NilUUID); [done|]. destruct (entryRecords _ root _) eqn:Ee; [|done]. cbn [orb negb].
  destruct (evidencebundle.NewAuditRecord _) as [record|] eqn:Ea; [|done].
  destruct (certificateFits _ _ _) eqn:Ef; [|done]. cbn [negb].
  destruct (signing.CanonicalVerificationCertificate c) as [payload|] eqn:Ec; [|done]. intros [= <-]. split; [done|].
  unfold entryRecords, TimeEqual in Ee. rewrite !andb_true_iff, !bool_decide_eq_true, !Z.eqb_eq in Ee.
  destruct Ee as [[[He1 He2] He3] He4]. apply NewAuditRecord_ok in Ea.
  unfold certificateFits, Before in Ef. rewrite !andb_true_iff in Ef. destruct Ef as [_ Ef]. apply negb_true_iff in Ef.
  unfold TransferredEventRoot in Er. destruct (validateTransferredEvent _); [done|]. injection Er as <-.
  unfold signing.CanonicalVerificationCertificate in Ec. destruct (signing.validateVerificationCertificate c true); [done|].
  destruct (signing.MarshalCertificate c) as [payload'|] eqn:Em; [|done]. injection Ec as ->.
  split; cbn; try done; [split_and!; try done..|lia]. by exists payload.
Qed.

(** C21: a portable proof that verifies establishes the handover from its artifacts
    alone: the binding names the transfer with its root, the audit entry that
    records it, the bundle with its decision, root and policy hash, and the
    certificate with its root and time, issued not before the transfer; the decision
    in the bundle was recalculated, and the certificate states its result; the
    manifest, its signature and the certificate are attested, one after the other,
    by trusted keys that were live; and both participants of the transfer signed the
    root of that binding, after the certificate was issued, a root that no other
    binding has unless there is a SHA-256 collision. *)
Theorem verified_proof_is_established portable (store : T) verifiedAt v :
  VerifyPortableHandoverProof portable (Some store) verifiedAt = Ok v ->
  exists b, Proof v = MkSignedHandoverProof b (OutgoingSignature portable) (IncomingSignature portable) /\
    VerifiedCertificate v = Certificate portable /\ Validate b = None /\ established store portable b verifiedAt.
Proof.
  unfold VerifyPortableHandoverProof. cbv zeta. intros H. not_taken H Ez.
  apply obind_ok in H as (vb & H1 & H). apply obind_ok in H as (ts & H2 & H). apply obind_ok in H as (c & H3 & H).
  apply obind_ok in H as (b & Hb & H). apply obind_ok in H as (s & Hs & [= <-]). cbn [Proof VerifiedCertificate].
  destruct (signing.VerifySignature _ _ _ _) as [vb'|] eqn:E1; [|done]. injection H1 as ->.
  destruct (signing.VerifyTrustedTimestamp _ _ _ _) as [ts'|] eqn:E2; [|done]. injection H2 as ->.
  destruct (signing.VerifyVerificationCertificate _ _ _ _) as [c'|] eqn:E3; [|done]. injection H3 as ->.
  apply VerifySignature_ok in E1 as (-> & Hbb & _ & Ha1). apply VerifyTrustedTimestamp_ok in E2 as (-> & Hbs & _ & Ha2).
  apply VerifyVerificationCertificate_ok in E3 as (-> & Hc & _ & Ha3). unfold signing.VerifiedCopy in Hc. cbn in Hc, Hbs.
  assert (signing.copyBundle (PortableBundle portable) = PortableBundle portable) as Hcopy.
  { apply copyBundle_verified; [by apply bb_verified in Hbb|]. intros Hnil.
    pose proof (cf_report _ _ Hc) as (? & ? & ? & ? & _ & [(o & Ho & _) _ _ _ _ _ _ _ _ _ _ _] & _)%VerifyDecision_ok.
    cbn in Ho. rewrite Hnil in Ho. by apply elem_of_nil in Ho. }
  rewrite !Hcopy in Hc. rewrite Hcopy in Hbs.
  unfold VerifyHandoverProofSignatures in Hs. destruct (Validate b) eqn:Ev; [done|]. not_taken Hs Et.
  destruct (verifyHandoverProofSignature b HandoverSignerOutgoing _ _ _) eqn:Eo; [done|].
  destruct (verifyHandoverProofSignature b HandoverSignerIncoming _ _ _) eqn:Ei; [done|]. injection Hs as <-.
  rewrite !orb_false_iff in Et. destruct Et as [[_ Et1] Et2]. unfold Before in Et1, Et2.
  destruct (NewHandoverProofBinding_ok _ _ _ Hb) as (Hr & Hn). pose proof (na_transfer _ _ _ Hn) as (_ & Hfrom & Hto & _).
  apply verifyHandoverProofSignature_ok in Eo as (? & [= <-] & Ho); [|cbn in *; lia].
  apply verifyHandoverProofSignature_ok in Ei as (? & [= <-] & Hi); [|cbn in *; lia].
  exists b. split_and!; [done..|]. rewrite Hfrom in Ho. rewrite Hto in Hi.
  pose proof (cf_report _ _ Hc) as (trace & binding & snapshots & version & _ & Hrc & [= _ _ _ Hres _ _])%VerifyDecision_ok.
  split; try done.
  - exists trace, binding, snapshots, version. split; [done|]. rewrite Hres. by apply rc_result in Hrc.
  - destruct Ho as [O1 O2 O3 O4 O5 O6]. by split.
  - destruct Hi as [I1 I2 I3 I4 I5 I6]. by split.
  - intros Hz b' Hz' Hv' Hroot. by apply roots_bind.
Qed.

End portable.
