(* ===== verification/BundleExamples.v ===== *)
(** * A bundle and a proof of handover on concrete inputs

    A decision of one rule on one report is packed, verified, signed, timestamped
    and certified, and a handover is proved with it. *)

From Stdlib Require Import Ascii String.
From S2P Require Import Prelude GoTime GoString Uuid GoCrypto GoJson GoJsonStruct GoTimeFormat Evaluation Evidence.
From S2P Require Import EvidenceObjects EvidenceSets EvidenceStore Policy PolicyRegistry PolicyAdmission PolicyCompiler PolicyExamples.
From S2P Require Import Responsibility AuditLedger Bundle BundleProperties BundleDecision BundleVerified BundleSigning.
From S2P Require Import BundleVerified HandoverProof HandoverProperties.
Import evidencebundle verification signing.

(** ** The platform *)

#[local] Instance path_le_dec o p : Decision (path_le o p).
Proof. unfold path_le. apply _. Defined.

(** [ed25519.Verify] accepts the values that repeat the payload. *)
#[local] Instance ex_platform : Platform := {|
  zone_offset := ex_zone;
  fixed_zone := fun _ _ => 1%positive;
  map_range := ex_range;
  sort_objects := merge_sort path_le;
  ed25519_Verify := fun _ payload value => bool_decide (value = payload ++ payload)
|}.

#[local] Instance ex_platform_laws : PlatformLaws ex_platform.
Proof.
  split; intros l; cbn [sort_objects ex_platform]; [apply merge_sort_Permutation|].
  apply Sorted_merge_sort. intros o p. unfold path_le. rewrite !ltb_false. apply (total String.le).
Qed.

(** ** The bundle *)

Definition ex_small_document : bytes := json.text
  ("{'evidence_qualification':{'version':'q1','trusted_sources':['CAM-1'],'allowed_types':['POSITION']},"
   ++ "'rules':[{'rule_id':'Z','operator':'MATCH','selector':{'evidence_type':'POSITION','source_id':'CAM-1',"
   ++ "'json_pointer':'/z'},'expected':3}]}").

Definition ex_small := Eval vm_compute in ex_new_version ["Z"] ex_small_document.

Definition ex_small_hash := Eval vm_compute in policy.Hash (policy.VersionSnapshot ex_small).

Definition ex_trace : evaluation.DecisionTrace :=
  evaluation.MkDecisionTrace (uuid_of 50) (uuid_of 200) 6 evaluation.StateCompleted evaluation.ResultVerified []
    ["Z"] [] [evaluation.MkRuleOutcome "Z" evaluation.RuleOutcomePass [] (utc_seconds 1030)] (utc_seconds 1000)
    (Some (utc_seconds 1020)) (Some (utc_seconds 1040)) None
    (Some (evaluation.MkEvidenceSetBinding (uuid_of 200) evaluation.EvidenceQualified "q1" (utc_seconds 1010) []
       [evaluation.MkEvidenceReference (uuid_of 1) evaluation.EvidenceQualified []]))
    (Some (evaluation.MkPolicyBinding "RELEASE" "3.0" ex_small_hash (utc_seconds 1000))).

Definition ex_build_input : BuildInput := MkBuildInput (uuid_of 70) (utc_seconds 1100) ex_trace [ex_s1].

(** The value of a call that succeeds. *)
Definition ex_get {E A} (zero : A) (r : outcome E A) : A :=
  match r with
  | Ok a => a
  | Err _ => zero
  end.

Definition ex_manifest : Manifest :=
  MkManifest "" NilUUID NilUUID NilUUID ZeroTime "" (MkPolicyReference "" "" "") None "".

Definition ex_bundle := Eval vm_compute in
  ex_get (MkBundle ex_manifest []) (BuildWithPolicySnapshot ex_build_input (policy.VersionSnapshot ex_small)).

Definition ex_plain := Eval vm_compute in ex_get (MkBundle ex_manifest []) (Build ex_build_input).

Lemma ex_verify : Verify ex_bundle = None.
Proof. vm_compute. reflexivity. Qed.

Definition ex_snapshot := Eval vm_compute in policy.VersionSnapshot ex_small.

Lemma ex_policy_snapshot : PolicySnapshot ex_bundle = Ok ex_snapshot.
Proof. unfold PolicySnapshot. rewrite ex_verify. vm_compute. reflexivity. Qed.

Definition ex_report : IndependentVerificationReport :=
  MkReport (uuid_of 70) (uuid_of 50) (ManifestPolicy (BundleManifest ex_bundle)) evaluation.ResultVerified
    evaluation.ResultVerified [MkRecalculatedOutcome "Z" evaluation.RuleOutcomePass []] true.

Lemma ex_verify_decision : VerifyDecision ex_bundle = Ok ex_report.
Proof. unfold VerifyDecision. rewrite ex_verify, ex_policy_snapshot. vm_compute. reflexivity. Qed.

Lemma built_bundle_verifies_witness : Verify ex_plain = None.
Proof.
  refine (proj1 (built_bundle_verifies (L := ex_platform_laws) ex_build_input ex_plain _ _)).
  - vm_compute. reflexivity.
  - intros e [= <-]. repeat constructor.
Defined.

Lemma ex_portable : portable ex_bundle.
Proof.
  split; try reflexivity.
  - split_and!; apply utf8_ascii; reflexivity.
  - repeat constructor; apply utf8_ascii; reflexivity.
Qed.

Lemma bundle_root_binds_content_witness :
  let p := MarshalManifest ((BundleManifest ex_bundle) <| BundleRoot := "" |>) in
  (BundleManifest ex_bundle = BundleManifest ex_bundle /\ Objects ex_bundle ≡ₚ Objects ex_bundle) \/
  Collision (default [] p) (default [] p) \/
  exists x y, x ∈ Objects ex_bundle /\ y ∈ Objects ex_bundle /\ Collision (Payload x) (Payload y).
Proof.
  refine (bundle_root_binds_content (L := ex_platform_laws) ex_bundle ex_bundle _ _ ex_verify ex_verify
            ex_portable ex_portable _ _ eq_refl); vm_compute; reflexivity.
Defined.

Lemma verified_decision_is_recalculated_witness :
  exists trace binding snapshots version, Verify ex_bundle = None /\ recalculated ex_bundle trace binding snapshots version /\
    ex_report = MkReport (BundleID (BundleManifest ex_bundle)) (EvaluationID (BundleManifest ex_bundle))
      (ManifestPolicy (BundleManifest ex_bundle)) (evaluation.TraceResult trace) (evaluation.TraceResult trace)
      (as_recalculated <$> evaluation.TraceRuleOutcomes trace) true.
Proof. exact (verified_decision_is_recalculated (L := ex_platform_laws) ex_bundle ex_report ex_verify_decision). Defined.

(** ** Attestations *)

Definition ex_digit (n : N) : ascii :=
  default zero (bytes_of "ABCDEFGHIJKLMNOPQRSTUVWXYZabcdefghijklmnopqrstuvwxyz0123456789+/" !! N.to_nat n).

(** [base64.StdEncoding.EncodeToString] *)
Fixpoint ex_base64 (b : bytes) : bytes :=
  match b with
  | x :: y :: z :: b =>
      let n := (N_of_ascii x * 65536 + N_of_ascii y * 256 + N_of_ascii z)%N in
      [ex_digit (n / 262144); ex_digit (n / 4096 mod 64); ex_digit (n / 64 mod 64); ex_digit (n mod 64)]%N ++ ex_base64 b
  | [x] => [ex_digit (N_of_ascii x / 4); ex_digit (N_of_ascii x mod 4 * 16)]%N ++ bytes_of "=="
  | _ => []
  end.

Definition ex_value {E} (payload : outcome E bytes) : string :=
  string_of_list_ascii (ex_base64 (ex_get [] payload ++ ex_get [] payload)).

Definition ex_key (signer : string) : policy.VerificationKey :=
  policy.MkVerificationKey signer "K" policy.AlgorithmEd25519 (replicate 32 one) ZeroTime None None.

Definition ex_store : policy.MemoryTrustStore :=
  ex_get ∅ (policy.NewMemoryTrustStore (ex_key <$> ["ORG"; "TSA"; "VERIFIER"; "P-1"; "P-2"])).

Definition ex_sign (b : Bundle) : Signature :=
  let s := ex_get (MkSignature "" "" "" "" "" ZeroTime "" "" "") (NewSignature b "ORG" "K" (utc_seconds 1110)) in
  MkSignature (SignatureSchema s) (Algorithm s) (SignatureHashAlgorithm s) (KeyID s) (SignerID s) (SigningTime s)
    (SignedManifestHash s) (BundleRootHash s) (ex_value (SigningPayload b s)).

Definition ex_signature := Eval vm_compute in ex_sign ex_bundle.

Definition ex_timestamping (v : VerifiedBundle) : TrustedTimestamp :=
  let t := ex_get (MkTrustedTimestamp "" "" "" "" "" "" ZeroTime "" "" "")
             (NewTrustedTimestamp (Some v) "TSA" "K" "17" (utc_seconds 1120)) in
  MkTrustedTimestamp (TimestampSchema t) (TimestampSignatureAlgorithm t) (TimestampHashAlgorithm t) (AuthorityID t)
    (TimestampKeyID t) (SerialNumber t) (IssuedAt t) (SignatureHash t) (TimestampRootHash t)
    (ex_value (TimestampSigningPayload t)).

Definition ex_timestamp := Eval vm_compute in ex_timestamping (MkVerifiedBundle ex_bundle ex_signature).

Definition ex_verified : VerifiedBundle := MkVerifiedBundle ex_bundle ex_signature.
Definition ex_timestamped : TimestampedBundle := MkTimestampedBundle ex_verified ex_timestamp.

Definition ex_certify (t : TimestampedBundle) : VerificationCertificate :=
  let zero := MkVerificationCertificate "" NilUUID NilUUID NilUUID "" (MkPolicyReference "" "" "") "" "" [] "" ZeroTime
                "" "" ZeroTime "" "" "" in
  let c := ex_get zero (NewVerificationCertificate ex_report (Some t) (uuid_of 80) "VERIFIER" "K" (utc_seconds 1130)) in
  c <| CertificateValue := ex_value (VerificationCertificateSigningPayload c) |>.

Definition ex_certificate := Eval vm_compute in ex_certify ex_timestamped.

Lemma ex_signature_binds value : validateSignatureBinding ex_bundle ex_signature value = None.
Proof. unfold validateSignatureBinding. rewrite ex_verify. destruct value; vm_compute; reflexivity. Qed.

Lemma ex_signature_verifies :
  VerifySignature ex_bundle ex_signature (Some ex_store) (utc_seconds 1200) = Ok ex_verified.
Proof.
  unfold VerifySignature, SigningPayload. rewrite !ex_signature_binds. vm_compute. reflexivity.
Qed.

Lemma ex_timestamp_verifies :
  VerifyTrustedTimestamp (Some ex_verified) ex_timestamp (Some ex_store) (utc_seconds 1200) = Ok ex_timestamped.
Proof. vm_compute. reflexivity. Qed.

Lemma ex_certificate_verifies :
  VerifyVerificationCertificate (Some ex_timestamped) ex_certificate (Some ex_store) (utc_seconds 1200) = Ok ex_certificate.
Proof.
  unfold VerifyVerificationCertificate, certificateRepeats.
  change (verifiedBundle (verified ex_timestamped)) with ex_bundle. rewrite ex_verify_decision. vm_compute. reflexivity.
Qed.

(** ** A proof of handover *)

Import responsibility.

Definition ex_transfer : TransferredEvent := MkTransferredEvent "OBJ-1" "P-1" "P-2" (utc_seconds 1050) 2.

Definition ex_entry := Eval vm_compute in
  ex_get (audit.MkEntry 0 0 [] [] ZeroTime [])
    (audit.NewEntry 1 audit.RecordResponsibilityHandover ZeroRoot (ex_get [] (TransferredEventRoot ex_transfer))
       (utc_seconds 1050)).

Definition ex_binding := Eval vm_compute in
  ex_get (proof.MkHandoverProofBinding [] "" "" "" 0 ZeroTime [] 0 [] [] [] [] [] [] "" [] [] ZeroTime [])
    (proof.NewHandoverProofBinding (uuid_of 90) ex_transfer ex_entry (BundleManifest ex_bundle) ex_certificate).

Lemma ex_binding_made :
  proof.NewHandoverProofBinding (uuid_of 90) ex_transfer ex_entry (BundleManifest ex_bundle) ex_certificate = Ok ex_binding.
Proof. vm_compute. reflexivity. Qed.

Lemma ex_binding_valid : proof.Validate ex_binding = None.
Proof. vm_compute. reflexivity. Qed.

Lemma ex_binding_sized : sized ex_binding.
Proof.
  split; [reflexivity..| | | |].
  - repeat (apply Forall_cons_2; [reflexivity|]). apply Forall_nil_2.
  - repeat (apply Forall_cons_2; [split; vm_compute; congruence|]). apply Forall_nil_2.
  - split; split; vm_compute; congruence.
  - repeat (apply Forall_cons_2; [split; vm_compute; congruence|]). apply Forall_nil_2.
Qed.

Definition ex_countersign (role signer : string) : proof.HandoverProofSignature :=
  let s := ex_get (proof.MkHandoverProofSignature "" "" "" "" "" ZeroTime "" [] "")
             (proof.NewHandoverProofSignature ex_binding role signer "K" (utc_seconds 1140)) in
  proof.MkHandoverProofSignature (proof.SignatureSchema s) (proof.Role s) (proof.SignatureParticipantID s)
    (proof.SignerID s) (proof.KeyID s) (proof.SignedAt s) (proof.Algorithm s) (proof.BindingRoot s)
    (ex_value (proof.HandoverProofSigningPayload s)).

Definition ex_outgoing := Eval vm_compute in ex_countersign proof.HandoverSignerOutgoing "P-1".
Definition ex_incoming := Eval vm_compute in ex_countersign proof.HandoverSignerIncoming "P-2".

Definition ex_portable_proof : proof.PortableHandoverProof :=
  proof.MkPortableHandoverProof (uuid_of 90) ex_transfer ex_entry ex_bundle ex_signature ex_timestamp ex_certificate
    ex_outgoing ex_incoming.

Definition ex_verified_proof : proof.VerifiedPortableHandoverProof :=
  proof.MkVerifiedPortableHandoverProof (proof.MkSignedHandoverProof ex_binding ex_outgoing ex_incoming) ex_certificate.

Lemma ex_countersigned :
  proof.VerifyHandoverProofSignatures ex_binding ex_outgoing ex_incoming (Some ex_store) (utc_seconds 1200) =
  Ok (proof.MkSignedHandoverProof ex_binding ex_outgoing ex_incoming).
Proof. unfold proof.VerifyHandoverProofSignatures. rewrite ex_binding_valid. vm_compute. reflexivity. Qed.

Lemma proof_root_binds_content_witness :
  ex_binding = ex_binding \/ Collision (proof.bindingPreimage ex_binding) (proof.bindingPreimage ex_binding).
Proof.
  exact (proof_root_binds_content ex_binding ex_binding ex_binding_sized ex_binding_sized ex_binding_valid
           ex_binding_valid eq_refl).
Defined.

Lemma ex_proof_verifies :
  proof.VerifyPortableHandoverProof ex_portable_proof (Some ex_store) (utc_seconds 1200) = Ok ex_verified_proof.
Proof.
  unfold proof.VerifyPortableHandoverProof, ex_portable_proof.
  cbn [proof.PortableBundle proof.BundleSignature proof.Timestamp proof.Certificate proof.PortableProofID
       proof.PortableTransfer proof.AuditEntry proof.OutgoingSignature proof.IncomingSignature].
  change (UTC (utc_seconds 1200)) with (utc_seconds 1200). change (IsZero (utc_seconds 1200)) with false.
  rewrite ex_signature_verifies. cbn [omap_err obind].
  rewrite ex_timestamp_verifies. cbn [omap_err obind].
  rewrite ex_certificate_verifies. cbn [omap_err obind].
  rewrite ex_binding_made. cbn [obind]. rewrite ex_countersigned. reflexivity.
Qed.

Lemma verified_proof_is_established_witness :
  exists b, proof.Proof ex_verified_proof = proof.MkSignedHandoverProof b ex_outgoing ex_incoming /\
    proof.VerifiedCertificate ex_verified_proof = ex_certificate /\ proof.Validate b = None /\
    established ex_store ex_portable_proof b (utc_seconds 1200).
Proof.
  exact (verified_proof_is_established ex_portable_proof ex_store (utc_seconds 1200) ex_verified_proof ex_proof_verifies).
Defined.
