(* ===== verification/Postgres.v ===== *)
(** * The PostgreSQL store ([persistence/postgres/store.go], [audit_repository.go])

    The tables of the migrations, each a map from its primary key, and the
    connection on which the repositories run their statements. A statement may be
    refused, or take effect while its answer is lost; a transaction that does not
    commit leaves no trace. What a statement does to the tables is read off its SQL
    text; a statement that would break a constraint fails. *)

From Stdlib Require Import Ascii String.
From S2P Require Import Prelude GoTime GoString Uuid GoCrypto Responsibility AuditLedger Evidence Evaluation Outbox Policy.
From S2P Require Import Estimator Bundle.

Module postgres.

Inductive Error :=
  | ErrDatabaseRequired
  | ErrDatabase
  | ErrEvaluationNotFound
  | ErrEvaluationConcurrentModification
  | ErrInvalidExpectedVersion
  | ErrInvalidOutboxRecord
  | ErrEvaluationAuditInvalid
  | ErrOutboxConcurrentModification
  | ErrInvalidUUID
  | ErrEncoding
  | ResponsibilityError (err : responsibility.Error)
  | AuditError (err : audit.Error)
  | EvaluationError (err : evaluation.Error)
  | OutboxError (err : outbox.Error)
  | PolicyError (err : policy.Error)
  | EvidenceError (err : evidence.Error)
  | EstimatorError (err : estimator.Error)
  | BundleError (err : evidencebundle.Error).

(** ** The tables *)

Record SnapshotRow := MkSnapshotRow {
  row_participant_id : string;
  row_version : Z;
  row_assigned_at : Time
}.

Record HandoverRow := MkHandoverRow {
  from_participant_id : string;
  to_participant_id : string;
  transferred_at : Time;
  delivery_status : string;
  published_at : option Time;
  attempts : Z;
  lock_owner : string;
  lock_until : option Time;
  handover_audit_sequence : Z
}.

#[global] Instance HandoverRow_eta : Eta HandoverRow :=
  fun r => MkHandoverRow (from_participant_id r) (to_participant_id r) (transferred_at r) (delivery_status r)
             (published_at r) (attempts r) (lock_owner r) (lock_until r) (handover_audit_sequence r).

Record EvaluationRow := MkEvaluationRow {
  evaluation_session_id : UUID;
  evaluation_state : string;
  evaluation_result : string;
  evaluation_version : Z;
  evaluation_snapshot : bytes;
  evaluation_created_at : Time
}.

Record BundleRow := MkBundleRow {
  bundle_evaluation_id : UUID;
  bundle_session_id : UUID;
  generated_at : Time;
  bundle_root : bytes;
  bundle_audit_sequence : Z
}.

Record KeyRow := MkKeyRow {
  algorithm : string;
  public_key : bytes;
  valid_from : Time;
  valid_until : option Time
}.

(** The five columns of the signature are null together. *)
Record PolicyRow := MkPolicyRow {
  schema_version : string;
  effective_from : Time;
  effective_until : option Time;
  policy_hash : string;
  policy_snapshot : bytes;
  signature : option policy.Signature
}.

Record LifecycleRow := MkLifecycleRow {
  lifecycle_policy_id : string;
  lifecycle_version : string;
  lifecycle_status : policy.LifecycleStatus;
  event_at : Time;
  approved_by : option string;
  approved_at : option Time
}.

Record EvidenceRow := MkEvidenceRow {
  evidence_session_id : UUID;
  evidence_source_id : string;
  evidence_source_type : string;
  evidence_type : string;
  evidence_observed_at : Time;
  evidence_received_at : Time;
  payload_digest : string;
  evidence_snapshot : bytes
}.

Record EstimatorRow := MkEstimatorRow {
  observation_id : UUID;
  observation_digest : bytes;
  profile_id : string;
  profile_version : string;
  calibration_version : string;
  estimator_observed_at : Time;
  completed_at : Time;
  estimator_result : bytes;
  estimator_audit_sequence : Z
}.

(** The events of the life of policies are in the order of their serial numbers,
    the last one first. *)
Record Database := MkDatabase {
  responsibility_snapshots : gmap string SnapshotRow;
  responsibility_handover_events : gmap (string * Z) HandoverRow;
  audit_ledger : audit.Ledger;
  evaluations : gmap UUID EvaluationRow;
  evaluation_audit_records : gmap (UUID * Z) Z;
  evaluation_outbox : gmap UUID outbox.OutboxRecord;
  evidence_bundle_audit_records : gmap UUID BundleRow;
  trusted_verification_keys : gmap (string * string) KeyRow;
  trust_key_revocations : gmap (string * string) Time;
  policy_versions : gmap (string * string) PolicyRow;
  policy_lifecycle_events : list LifecycleRow;
  evidence_objects : gmap UUID EvidenceRow;
  estimator_results : gmap (string * Z) EstimatorRow
}.

#[global] Instance Database_eta : Eta Database :=
  fun d => MkDatabase (responsibility_snapshots d) (responsibility_handover_events d) (audit_ledger d) (evaluations d)
             (evaluation_audit_records d) (evaluation_outbox d) (evidence_bundle_audit_records d)
             (trusted_verification_keys d) (trust_key_revocations d) (policy_versions d) (policy_lifecycle_events d)
             (evidence_objects d) (estimator_results d).

Definition EmptyDatabase : Database := MkDatabase ∅ ∅ [] ∅ ∅ ∅ ∅ ∅ ∅ ∅ [] ∅ ∅.

(** What the driver and the server decide: what a [TIMESTAMPTZ] column gives back
    for a time and a [JSONB] column for a text, the order of [TEXT] columns, and the
    order in which [RETURNING] lists its rows. *)
Class Driver := {
  column : Time -> Time;
  jsonb : bytes -> bytes;
  collate : string -> string -> bool;
  returning : forall A, list A -> list A
}.

(** Such columns hold microseconds. *)
Class DriverLaws (D : Driver) : Prop := {
  column_instant t : instant (column t) = instant (TruncateMicrosecond t);
  collate_total s t : collate s t || collate t s = true;
  collate_antisym s t : collate s t = true -> collate t s = true -> s = t;
  collate_trans s t u : collate s t = true -> collate t u = true -> collate s u = true;
  returning_perm A (l : list A) : returning A l ≡ₚ l
}.

(** ** The connection *)

(** What becomes of a statement that is sent. *)
Inductive Answer :=
  | Carried
  | Refused
  | Unanswered.

(** A connection to a database: the answers to the statements still to be sent (the
    statements after the last are carried), and the database; [failed] is the error
    of its driver. *)
Section wire.
Context {DB E : Type} (failed : E).

(** A statement; [None] where it breaks a constraint or a bound of its columns. *)
Definition sent {A} (f : DB -> option (DB * A)) : action (list Answer * DB) E A := fun '(wire, d) =>
  match wire, f d with
  | Refused :: wire, _ => ((wire, d), Err failed)
  | Unanswered :: wire, Some (d', _) => ((wire, d'), Err failed)
  | _, Some (d', a) => ((tail wire, d'), Ok a)
  | _, None => ((tail wire, d), Err failed)
  end.

(** [BeginTx], the body, and [Commit]; the deferred [Rollback] undoes what an
    error leaves. A serializable transaction, and one that holds the lock of what
    it reads, is one step of the database. *)
Definition committed {A} (body : action (list Answer * DB) E A) : action (list Answer * DB) E A := fun '(wire, d) =>
  match sent (fun d => Some (d, tt)) (wire, d) with
  | (c, Err err) => (c, Err err)
  | (c, Ok _) =>
      match body c with
      | ((wire, _), Err err) => ((wire, d), Err err)
      | ((wire, d'), Ok a) =>
          match wire with
          | Refused :: wire => ((wire, d), Err failed)
          | Unanswered :: wire => ((wire, d'), Err failed)
          | _ => ((tail wire, d'), Ok a)
          end
      end
  end.

Lemma sent_cases {A} (f : DB -> option (DB * A)) w d w' d' r :
  sent f (w, d) = ((w', d'), r) ->
  (exists a, r = Ok a /\ f d = Some (d', a)) \/ (r = Err failed /\ (d' = d \/ exists a, f d = Some (d', a))).
Proof. unfold sent. destruct w as [|[] w], (f d) as [[e a]|] eqn:E1; intros [= <- <- <-]; eauto. Qed.

Lemma committed_cases {A} (body : action (list Answer * DB) E A) w d w' d' r :
  committed body (w, d) = ((w', d'), r) ->
  (exists err, r = Err err /\ d' = d) \/
  (exists w1 w2 a, body (w1, d) = ((w2, d'), Ok a) /\ (r = Ok a \/ r = Err failed)).
Proof.
  unfold committed. destruct (sent _ (w, d)) as [[w1 d1] [[]|err]] eqn:Eq.
  - apply sent_cases in Eq as [(a & _ & [= ->])|([=] & _)]. destruct (body (w1, d1)) as [[w2 d2] [a'|err]] eqn:Eb.
    + destruct w2 as [|[] w2]; intros [= <- <- <-]; eauto 10.
    + intros [= <- <- <-]. eauto.
  - intros [= _ <- <-]. left. exists err. split; [done|]. by apply sent_cases in Eq as [(a & [=] & _)|(_ & [->|(a & [= ->])])].
Qed.

End wire.

(** The connection of the store. *)
Abbreviation Connection := (list Answer * Database)%type.

Abbreviation call := (action Connection Error).

(** [NewStore]; the methods are those of a store that has a database, where a nil
    one answers with [ErrDatabaseRequired]. *)
Definition NewStore (db : option Connection) : outcome Error Connection :=
  match db with
  | None => Err ErrDatabaseRequired
  | Some c => Ok c
  end.

Definition exec {A} (f : Database -> option (Database * A)) : call A := sent ErrDatabase f.

Definition query {A} (f : Database -> A) : call A := exec (fun d => Some (d, f d)).

(** An error of the program. *)
Definition fail {A} (err : Error) : call A := fun c => (c, Err err).

Definition lift {A} (r : outcome Error A) : call A := fun c => (c, r).

Definition transaction {A} (body : call A) : call A := committed ErrDatabase body.

(** A transaction whose body may return before [Commit]: [None] is rolled back. *)
Definition transaction_opt {A} (body : call (option A)) : call (option A) := fun '(wire, d) =>
  match query (fun _ => tt) (wire, d) with
  | (c, Err err) => (c, Err err)
  | (c, Ok _) =>
      match body c with
      | ((wire, _), Err err) => ((wire, d), Err err)
      | ((wire, _), Ok None) => ((wire, d), Ok None)
      | ((wire, d'), Ok (Some a)) =>
          match wire with
          | Refused :: wire => ((wire, d), Err ErrDatabase)
          | Unanswered :: wire => ((wire, d'), Err ErrDatabase)
          | _ => ((tail wire, d'), Ok (Some a))
          end
      end
  end.

(** A [BIGINT] parameter. *)
Definition bigint (n : Z) : bool := n <=? i64_max.

(** The largest [INTEGER]. *)
Definition i32_max : Z := 2 ^ 31 - 1.

(** [requireSingleOutboxUpdate] and its like. *)
Definition require_one (conflict : Error) (affected : Z) : call unit :=
  if affected =? 1 then aret tt else fail conflict.

(** ** The ledger *)

Definition lockAuditLedger : call unit := query (fun _ => tt).

Definition nextAuditEntryLocked (kind : Z) (recordRoot : bytes) (occurredAt : Time) : call audit.Entry :=
  do! entry <- query (fun d => audit.nextAuditEntryLocked kind recordRoot occurredAt (audit_ledger d));
  lift (omap_err AuditError entry).

Definition insertAuditEntry (e : audit.Entry) : call unit :=
  exec (fun d =>
    match audit.insertAuditEntry true e (audit_ledger d) with
    | Err _ => None
    | Ok l => if bigint (audit.Sequence e) then Some (d <| audit_ledger := l |>, tt) else None
    end).

Definition auditHeadLocked : call (outcome audit.Error (Z * bytes)) := query (fun d => audit.auditHeadLocked (audit_ledger d)).

(** The entry must follow the head of the ledger. *)
Definition AppendAuditEntry (entry : audit.Entry) : call unit :=
  match audit.Validate entry with
  | Some _ => fail (AuditError audit.ErrEntryNotCanonical)
  | None =>
      if i64_max <? audit.Sequence entry then fail (AuditError audit.ErrEntryNotCanonical) else
      transaction
        (do! _ <- lockAuditLedger;
         do! head <- auditHeadLocked;
         match head with
         | Err audit.ErrLedgerEmpty =>
             if negb (audit.Sequence entry =? 1) || (audit.PreviousRoot entry != ZeroRoot)
             then fail (AuditError audit.ErrLedgerConflict) else insertAuditEntry entry
         | Err err => fail (AuditError err)
         | Ok (sequence, root) =>
             if negb (audit.Sequence entry =? u64_succ sequence) || (audit.PreviousRoot entry != root)
             then fail (AuditError audit.ErrLedgerConflict) else insertAuditEntry entry
         end)
  end.

(** Lock, next entry, insert: how a transaction appends to the ledger. *)
Definition appendNext (kind : Z) (recordRoot : bytes) (occurredAt : Time) : call audit.Entry :=
  do! _ <- lockAuditLedger;
  do! entry <- nextAuditEntryLocked kind recordRoot occurredAt;
  do! _ <- insertAuditEntry entry;
  aret entry.

(** [LEFT JOIN audit_ledger al ON al.sequence = $1]: the kind and the root. *)
Definition ledgerRow (sequence : Z) (d : Database) : option audit.Entry :=
  List.find (fun e => audit.Sequence e =? sequence) (audit_ledger d).

(** The record is in the ledger, under its kind and root. *)
Definition audited (row : option audit.Entry) (kind : Z) (root : bytes) : bool :=
  match row with
  | None => false
  | Some e => (audit.Kind e =? kind) && (length (audit.RecordRoot e) == 32%nat) && (root == audit.RecordRoot e)
  end.

End postgres.
