(* ===== verification/PgResponsibility.v ===== *)
(** * Responsibility in PostgreSQL ([persistence/postgres/responsibility_*.go])

    The repository of assignments and transfers ([responsibility_repository.go],
    [responsibility_handover.go]) and the delivery of transfer events
    ([responsibility_outbox.go]). *)

From Stdlib Require Import Ascii String.
From S2P Require Import Prelude GoTime GoString Uuid GoCrypto Responsibility AuditLedger Postgres.
Import responsibility postgres.

Module handover.

Section handover.
Context {D : Driver}.

(** ** The repository *)

(** [responsibilityWriteResult] *)
Definition responsibilityWriteResult : Z -> call unit :=
  require_one (ResponsibilityError ErrConcurrentModification).

(** The row of a snapshot. *)
Definition snapshotRow (s : Snapshot) : SnapshotRow :=
  MkSnapshotRow (ResponsibleID s) (Version s) (column (AssignedAt s)).

(** [INSERT ... ON CONFLICT (object_id) DO NOTHING] *)
Definition insertSnapshot (n : Snapshot) (d : Database) : option (Database * Z) :=
  if negb (bigint (Version n)) then None else
  match responsibility_snapshots d !! ObjectID n with
  | Some _ => Some (d, 0)
  | None => Some (d <| responsibility_snapshots := <[ObjectID n := snapshotRow n]> (responsibility_snapshots d) |>, 1)
  end.

(** [UPDATE ... WHERE object_id = $1 AND version = $5 AND ... AND assigned_at < $4] *)
Definition updateSnapshot (n : Snapshot) (expectedVersion : Z) (fits : string -> bool) (d : Database)
    : option (Database * Z) :=
  if negb (bigint (Version n)) then None else
  match responsibility_snapshots d !! ObjectID n with
  | None => Some (d, 0)
  | Some row =>
      if (row_version row =? expectedVersion) && fits (row_participant_id row) &&
         Before (row_assigned_at row) (column (AssignedAt n))
      then Some (d <| responsibility_snapshots := <[ObjectID n := snapshotRow n]> (responsibility_snapshots d) |>, 1)
      else Some (d, 0)
  end.

Definition SaveResponsibility (s : Snapshot) (expectedVersion : Z) : call unit :=
  do! normalized <- lift (omap_err ResponsibilityError (normalizedSnapshot s expectedVersion));
  do! affected <- exec (if expectedVersion =? 0 then insertSnapshot normalized
                        else updateSnapshot normalized expectedVersion (fun p => p != ResponsibleID normalized));
  responsibilityWriteResult affected.

Definition FindResponsibility (oid : PhysicalObjectID) : call Aggregate :=
  match NewPhysicalObjectID oid with
  | Err _ => fail (ResponsibilityError ErrObjectIDRequired)
  | Ok validated =>
      if validated != oid then fail (ResponsibilityError ErrObjectIDRequired) else
      do! row <- query (fun d => responsibility_snapshots d !! oid);
      match row with
      | None => fail (ResponsibilityError ErrNotFound)
      | Some row =>
          lift (omap_err ResponsibilityError
                  (Rehydrate (MkSnapshot oid (row_participant_id row) (row_version row) (row_assigned_at row))))
      end
  end.

(** [INSERT INTO responsibility_handover_events]: [(object_id, version)] is the
    primary key and [audit_sequence] is unique. *)
Definition insertHandover (e : TransferredEvent) (sequence : Z) (d : Database) : option (Database * unit) :=
  let key := (EventObjectID e, EventVersion e) in
  let row := MkHandoverRow (FromParticipantID e) (ToParticipantID e) (column (UTC (TransferredAt e))) "PENDING" None 0 ""
               None sequence in
  if negb (bigint (EventVersion e)) ||
     existsb (fun kv => handover_audit_sequence kv.2 =? sequence) (map_to_list (responsibility_handover_events d))
  then None else
  match responsibility_handover_events d !! key with
  | Some _ => None
  | None => Some (d <| responsibility_handover_events := <[key := row]> (responsibility_handover_events d) |>, tt)
  end.

Definition CommitTransfer (s : Snapshot) (expectedVersion : Z) (e : TransferredEvent) : call unit :=
  do! normalized <- lift (omap_err ResponsibilityError (ValidateTransferCommit s expectedVersion e));
  do! recordRoot <- lift (omap_err ResponsibilityError (TransferredEventRoot e));
  transaction
    (do! affected <- exec (updateSnapshot normalized expectedVersion (fun p => p == FromParticipantID e));
     do! _ <- responsibilityWriteResult affected;
     do! entry <- appendNext audit.RecordResponsibilityHandover recordRoot (TransferredAt e);
     exec (insertHandover e (audit.Sequence entry))).

(** The event that a row holds. *)
Definition handoverEvent (oid : PhysicalObjectID) (v : Z) (row : HandoverRow) : TransferredEvent :=
  MkTransferredEvent oid (from_participant_id row) (to_participant_id row) (transferred_at row) v.

Definition FindTransfer (oid : PhysicalObjectID) (v : Z) : call TransferredEvent :=
  do! row <- exec (fun d =>
    if negb (bigint v) then None else
    Some (d, (fun row => (row, ledgerRow (handover_audit_sequence row) d)) <$> responsibility_handover_events d !! (oid, v)));
  match row with
  | None => fail (ResponsibilityError ErrTransferNotFound)
  | Some (row, entry) =>
      let event := handoverEvent oid v row in
      let event := event <| TransferredAt := UTC (TransferredAt event) |> in
      match TransferredEventRoot event with
      | Err _ => fail (ResponsibilityError ErrTransferAuditInvalid)
      | Ok wantRoot =>
          if negb (audited entry audit.RecordResponsibilityHandover wantRoot)
          then fail (ResponsibilityError ErrTransferAuditInvalid) else aret event
      end
  end.

(** ** Delivery of the events *)

Abbreviation keyed_row := ((string * Z) * HandoverRow)%type.

(** [ORDER BY transferred_at, object_id, version] *)
Definition ready_le (a b : keyed_row) : Prop :=
  Before (transferred_at a.2) (transferred_at b.2) = true \/
  instant (transferred_at a.2) = instant (transferred_at b.2) /\
  (a.1.1 <> b.1.1 /\ collate a.1.1 b.1.1 = true \/ a.1.1 = b.1.1 /\ a.1.2 <= b.1.2).

#[global] Instance ready_le_dec : RelDecision ready_le.
Proof. intros a b. unfold ready_le. apply _. Defined.

(** [delivery_status = 'PENDING' AND transferred_at <= $2
     AND (lock_until IS NULL OR lock_until <= $2)] *)
Definition readyAt (claimedAt : Time) (row : HandoverRow) : bool :=
  (delivery_status row == "PENDING") && negb (After (transferred_at row) claimedAt) &&
  match lock_until row with
  | None => true
  | Some until => negb (After until claimedAt)
  end.

(** The rows a claim takes: [locked] are those that other transactions lock, which
    [SKIP LOCKED] passes over. *)
Definition claimable (locked : string * Z -> bool) (limit : Z) (claimedAt : Time) (d : Database) : list keyed_row :=
  take (Z.to_nat limit)
    (merge_sort ready_le
       (List.filter (fun kv => negb (locked kv.1) && readyAt claimedAt kv.2)
          (map_to_list (responsibility_handover_events d)))).

Definition claimRow (workerID : string) (lockUntil : Time) (row : HandoverRow) : HandoverRow :=
  row <| lock_owner := workerID |> <| lock_until := Some lockUntil |> <| attempts := attempts row + 1 |>.

Definition claimRows (rows : list keyed_row) (workerID : string) (lockUntil : Time) (d : Database) : Database :=
  d <| responsibility_handover_events :=
         foldr (fun kv m => <[kv.1 := claimRow workerID lockUntil kv.2]> m) (responsibility_handover_events d) rows |>.

Definition claimed (workerID : string) (lockUntil : Time) (kv : keyed_row) : ClaimedTransfer :=
  MkClaimedTransfer (handoverEvent kv.1.1 kv.1.2 kv.2) (attempts kv.2 + 1) workerID lockUntil.

Definition ClaimResponsibilityTransfers (locked : string * Z -> bool) (claim : DeliveryClaim)
    : call (list ClaimedTransfer) :=
  match DeliveryClaim_Validate claim with
  | Some err => fail (ResponsibilityError err)
  | None =>
      let claimedAt := UTC (ClaimedAt claim) in
      let lockUntil := Add claimedAt (LockDuration claim) in
      let workerID := TrimSpace (WorkerID claim) in
      transaction
        (exec (fun d =>
           let rows := claimable locked (Limit claim) (column claimedAt) d in
           if existsb (fun kv => i32_max <=? attempts kv.2) rows then None else
           Some (claimRows rows workerID (column lockUntil) d,
                 returning _ (claimed workerID (column lockUntil) <$> rows))))
  end.

(** [requireResponsibilityDeliveryUpdate] *)
Definition requireResponsibilityDeliveryUpdate : Z -> call unit :=
  require_one (ResponsibilityError ErrDeliveryConflict).

Definition MarkResponsibilityTransferPublished (oid : PhysicalObjectID) (v : Z) (workerID : string) (publishedAt : Time)
    : call unit :=
  let workerID := TrimSpace workerID in
  if workerID == "" then fail (ResponsibilityError ErrWorkerIDRequired) else
  if IsZero publishedAt then fail (ResponsibilityError ErrPublicationTimeRequired) else
  let publishedAt := column (UTC publishedAt) in
  do! affected <- exec (fun d =>
    if negb (bigint v) then None else
    match responsibility_handover_events d !! (oid, v) with
    | None => Some (d, 0)
    | Some row =>
        if (delivery_status row == "PENDING") && (lock_owner row == workerID) &&
           negb (After (transferred_at row) publishedAt)
        then
          let row := row <| delivery_status := "PUBLISHED" |> <| published_at := Some publishedAt |>
                         <| lock_owner := "" |> <| lock_until := None |> in
          Some (d <| responsibility_handover_events := <[(oid, v) := row]> (responsibility_handover_events d) |>, 1)
        else Some (d, 0)
    end);
  requireResponsibilityDeliveryUpdate affected.

(** The lock of a row has expired. *)
Definition lockExpired (at_ : Time) (row : HandoverRow) : bool :=
  (delivery_status row == "PENDING") &&
  match lock_until row with
  | None => false
  | Some until => negb (After until at_)
  end.

Definition releaseRow (at_ : Time) (row : HandoverRow) : HandoverRow :=
  if lockExpired at_ row then row <| lock_owner := "" |> <| lock_until := None |> else row.

Definition ReleaseExpiredResponsibilityLocks (at_ : Time) : call Z :=
  if IsZero at_ then fail (ResponsibilityError ErrClaimTimeRequired) else
  let at_ := column (UTC at_) in
  exec (fun d =>
    let events := responsibility_handover_events d in
    Some (d <| responsibility_handover_events := releaseRow at_ <$> events |>,
          Z.of_nat (size (filter (fun kv => lockExpired at_ kv.2 = true) events)))).

End handover.

End handover.
