(* ===== verification/PgRecords.v ===== *)
(** * Keys and bundle records in PostgreSQL ([persistence/postgres/trust_store.go],
    [evidence_bundle_audit.go])

    The trust store, whose keys and revocations are only ever inserted, and the
    audit records of evidence bundles, each with an entry of the ledger. *)

From Stdlib Require Import Ascii String.
From S2P Require Import Prelude GoTime GoString Uuid GoCrypto AuditLedger Policy Bundle Postgres.
Import postgres.

Module records.

Section records.
Context {D : Driver}.

(** ** The trust store *)

(** [INSERT ... ON CONFLICT (signer_id, key_id) DO NOTHING]; a key whose columns
    hold an empty period breaks a constraint, which is tested before the conflict. *)
Definition insertKey (key : policy.VerificationKey) (d : Database) : option (Database * Z) :=
  let id := (policy.KeySignerID key, policy.KeyKeyID key) in
  let row := MkKeyRow (policy.KeyAlgorithm key) (policy.PublicKey key) (column (policy.ValidFrom key))
               (column <$> policy.ValidUntil key) in
  if match valid_until row with None => false | Some until => negb (After until (valid_from row)) end then None else
  match trusted_verification_keys d !! id with
  | Some _ => Some (d, 0)
  | None => Some (d <| trusted_verification_keys := <[id := row]> (trusted_verification_keys d) |>, 1)
  end.

(** The key of the joined row. *)
Definition storedKey (id : string * string) (d : Database) : option policy.VerificationKey :=
  match trusted_verification_keys d !! id with
  | None => None
  | Some row =>
      Some (policy.MkVerificationKey id.1 id.2 (algorithm row) (public_key row) (UTC (valid_from row))
              (UTC <$> valid_until row) (UTC <$> trust_key_revocations d !! id))
  end.

Definition ResolveVerificationKey (signerID keyID : string) : call policy.VerificationKey :=
  do! key <- query (storedKey (TrimSpace signerID, TrimSpace keyID));
  match key with
  | None => fail (PolicyError policy.ErrVerificationKeyAbsent)
  | Some key => aret key
  end.

Definition sameNullableTime (l r : option Time) : bool :=
  match l, r with
  | None, None => true
  | Some l, Some r => TimeEqual l r
  | _, _ => false
  end.

Definition sameStoredKey (l r : policy.VerificationKey) : bool :=
  (policy.KeySignerID l == policy.KeySignerID r) && (policy.KeyKeyID l == policy.KeyKeyID r) &&
  (policy.KeyAlgorithm l == policy.KeyAlgorithm r) && (policy.PublicKey l == policy.PublicKey r) &&
  TimeEqual (policy.ValidFrom l) (policy.ValidFrom r) && sameNullableTime (policy.ValidUntil l) (policy.ValidUntil r).

(** What other clients do between two statements of a method. *)
Definition meanwhile (others : Database -> Database) : call unit :=
  fun '(wire, d) => ((wire, others d), Ok tt).

Definition AddVerificationKey (others : Database -> Database) (key : policy.VerificationKey) : call unit :=
  let key := key <| policy.KeySignerID := TrimSpace (policy.KeySignerID key) |>
                 <| policy.KeyKeyID := TrimSpace (policy.KeyKeyID key) |>
                 <| policy.KeyAlgorithm := TrimSpace (policy.KeyAlgorithm key) |>
                 <| policy.ValidFrom := UTC (policy.ValidFrom key) |> in
  if (policy.KeySignerID key == "") || (policy.KeyKeyID key == "") || (policy.KeyAlgorithm key == "") ||
     (policy.PublicKey key == []) || IsZero (policy.ValidFrom key)
  then fail (PolicyError policy.ErrVerificationKeyAbsent) else
  if match policy.ValidUntil key with None => false | Some until => negb (After until (policy.ValidFrom key)) end
  then fail (PolicyError policy.ErrKeyExpired) else
  do! affected <- exec (insertKey key);
  if affected =? 1 then aret tt else
  do! _ <- meanwhile others;
  do! existing <- ResolveVerificationKey (policy.KeySignerID key) (policy.KeyKeyID key);
  if sameStoredKey existing key then aret tt else fail (PolicyError policy.ErrVerificationKeyConflict).

(** The key of a revocation exists, and was valid before ([cargoos_validate_key_revocation]). *)
Definition insertRevocation (id : string * string) (revokedAt : Time) (d : Database) : option (Database * Z) :=
  match trusted_verification_keys d !! id, trust_key_revocations d !! id with
  | None, _ => None
  | Some row, existing =>
      if Before (column revokedAt) (valid_from row) then None else
      match existing with
      | Some _ => Some (d, 0)
      | None => Some (d <| trust_key_revocations := <[id := column revokedAt]> (trust_key_revocations d) |>, 1)
      end
  end.

Definition RevokeVerificationKey (others others' : Database -> Database) (signerID keyID : string) (revokedAt : Time)
    : call unit :=
  if IsZero revokedAt then fail (PolicyError policy.ErrVerificationKeyAbsent) else
  do! key <- ResolveVerificationKey signerID keyID;
  let revokedAt := UTC revokedAt in
  if Before revokedAt (policy.ValidFrom key) then fail (PolicyError policy.ErrKeyNotYetValid) else
  do! _ <- meanwhile others;
  do! affected <- exec (insertRevocation (policy.KeySignerID key, policy.KeyKeyID key) revokedAt);
  if affected =? 1 then aret tt else
  do! _ <- meanwhile others';
  fun c =>
    match ResolveVerificationKey (policy.KeySignerID key) (policy.KeyKeyID key) c with
    | (c, Ok existing) =>
        match policy.RevokedAt existing with
        | Some at_ => if TimeEqual at_ revokedAt then (c, Ok tt) else (c, Err (PolicyError policy.ErrVerificationKeyConflict))
        | None => (c, Err (PolicyError policy.ErrVerificationKeyConflict))
        end
    | (c, Err _) => (c, Err (PolicyError policy.ErrVerificationKeyConflict))
    end.

(** ** Audit records of bundles *)

(** [bundle_root] and [audit_sequence] are unique. *)
Definition insertBundleRecord (r : evidencebundle.AuditRecord) (sequence : Z) (d : Database) : option (Database * Z) :=
  let rows := evidence_bundle_audit_records d in
  match rows !! evidencebundle.RecordBundleID r with
  | Some _ => Some (d, 0)
  | None =>
      if existsb (fun kv => (bundle_root kv.2 == evidencebundle.RecordBundleRoot r) ||
                            (bundle_audit_sequence kv.2 =? sequence)) (map_to_list rows)
      then None else
      let row := MkBundleRow (evidencebundle.RecordEvaluationID r) (evidencebundle.RecordSessionID r)
                   (column (evidencebundle.RecordGeneratedAt r)) (evidencebundle.RecordBundleRoot r) sequence in
      Some (d <| evidence_bundle_audit_records := <[evidencebundle.RecordBundleID r := row]> rows |>, 1)
  end.

Definition SaveEvidenceBundleAudit (r : evidencebundle.AuditRecord) : call unit :=
  match evidencebundle.ValidateAuditRecord r with
  | Some err => fail (BundleError err)
  | None =>
      transaction
        (do! entry <- appendNext audit.RecordEvidenceBundle (evidencebundle.RecordBundleRoot r)
                        (evidencebundle.RecordGeneratedAt r);
         do! affected <- exec (insertBundleRecord r (audit.Sequence entry));
         require_one (BundleError evidencebundle.ErrAuditRecordExists) affected)
  end.

Definition FindEvidenceBundleAudit (bundleID : UUID) : call evidencebundle.AuditRecord :=
  let invalid := fail (BundleError evidencebundle.ErrAuditRecordInvalid) in
  if bundleID == NilUUID then invalid else
  do! row <- query (fun d => (fun row => (row, ledgerRow (bundle_audit_sequence row) d)) <$>
                             evidence_bundle_audit_records d !! bundleID);
  match row with
  | None => fail (BundleError evidencebundle.ErrAuditRecordNotFound)
  | Some (_, None) => invalid
  | Some (row, Some entry) =>
      if (length (bundle_root row) != 32%nat) || (length (audit.RecordRoot entry) != 32%nat) ||
         negb (audit.Kind entry =? audit.RecordEvidenceBundle)
      then invalid else
      match Parse (UuidString bundleID), Parse (UuidString (bundle_evaluation_id row)),
            Parse (UuidString (bundle_session_id row)) with
      | Ok storedBundleID, Ok evaluationID, Ok sessionID =>
          let record := evidencebundle.MkAuditRecord storedBundleID evaluationID sessionID (UTC (generated_at row))
                          (bundle_root row) in
          if bundle_root row != audit.RecordRoot entry then invalid else
          match evidencebundle.ValidateAuditRecord record with
          | Some _ => invalid
          | None => if storedBundleID != bundleID then invalid else aret record
          end
      | _, _, _ => invalid
      end
  end.

End records.

End records.
