(* ===== verification/PgOutbox.v ===== *)
(** * The outbox in PostgreSQL ([persistence/postgres/outbox_repository.go])

    Records are claimed by a worker for a time, published or returned by their
    owner, and given free when the time is over. *)

From Stdlib Require Import Ascii String.
From S2P Require Import Prelude GoTime GoString Uuid GoCrypto GoJson GoUnmarshal Outbox Postgres.
Import outbox postgres.

Module outbox_repository.

(** [OutboxStatus.IsValid] *)
Definition StatusIsValid (s : OutboxStatus) : bool :=
  (s == OutboxStatusPending) || (s == OutboxStatusPublishing) || (s == OutboxStatusPublished) ||
  (s == OutboxStatusRetryScheduled) || (s == OutboxStatusDeadLettered).

Definition validateOutboxRecord (r : OutboxRecord) : option Error :=
  if (ID r == NilUUID) || (AggregateID r == NilUUID) || (RecordSessionID r == NilUUID) then Some ErrInvalidOutboxRecord else
  if (AggregateType r == "") || (AggregateVersion r =? 0) || (RecordEventType r == "") then Some ErrInvalidOutboxRecord else
  if negb (StatusIsValid (Status r)) || IsZero (RecordOccurredAt r) || IsZero (CreatedAt r) || negb (Valid (Payload r))
  then Some ErrInvalidOutboxRecord else None.

Section outbox_repository.
Context {D : Driver}.

(** ** Insertion *)

(** The row that is inserted: the columns left out have their defaults. *)
Definition insertedRow (r : OutboxRecord) : OutboxRecord :=
  MkOutboxRecord (ID r) (AggregateType r) (AggregateID r) (RecordSessionID r) (AggregateVersion r) (RecordEventType r)
    (jsonb (Payload r)) (Status r) (column (RecordOccurredAt r)) (column (CreatedAt r)) None None None None None
    (Attempts r) (MaxAttempts r) "" "" None.

Definition insertRow (r : OutboxRecord) (d : Database) : option (Database * unit) :=
  if negb (bigint (AggregateVersion r)) || (i32_max <? Attempts r) || (i32_max <? MaxAttempts r) || (MaxAttempts r <=? 0)
  then None else
  match evaluation_outbox d !! ID r with
  | Some _ => None
  | None => Some (d <| evaluation_outbox := <[ID r := insertedRow r]> (evaluation_outbox d) |>, tt)
  end.

(** [insertOutboxRecords] *)
Fixpoint insertOutboxRecords (records : list OutboxRecord) : call unit :=
  match records with
  | [] => aret tt
  | r :: records =>
      match validateOutboxRecord r with
      | Some err => fail err
      | None =>
          do! _ <- exec (insertRow r);
          insertOutboxRecords records
      end
  end.

(** [Insert], in a transaction of the caller. *)
Definition Insert (records : list OutboxRecord) : call unit := insertOutboxRecords records.

(** ** Reading a row *)

(** [nullTimePointer] *)
Definition nullTimePointer (t : option Time) : option Time := UTC <$> t.

(** [parseUUID] does what [uuid.Parse] does. *)
Definition parseUUID (value : string) : outcome Error UUID := omap_err (fun _ => ErrInvalidUUID) (Parse value).

Definition scanOutboxRecord (row : OutboxRecord) : outcome Error OutboxRecord :=
  let! id := parseUUID (UuidString (ID row)) in
  let! aggregateID := parseUUID (UuidString (AggregateID row)) in
  let! sessionID := parseUUID (UuidString (RecordSessionID row)) in
  let record :=
    MkOutboxRecord id (AggregateType row) aggregateID sessionID (AggregateVersion row) (RecordEventType row) (Payload row)
      (Status row) (RecordOccurredAt row) (CreatedAt row) (nullTimePointer (PublishingStartedAt row))
      (nullTimePointer (PublishedAt row)) (nullTimePointer (NextAttemptAt row)) (nullTimePointer (LastAttemptAt row))
      (nullTimePointer (DeadLetteredAt row)) (Attempts row) (MaxAttempts row) (LastError row) (LockOwner row)
      (nullTimePointer (LockUntil row)) in
  match validateOutboxRecord record with
  | Some err => Err err
  | None => Ok record
  end.

Fixpoint scanAll (rows : list OutboxRecord) : outcome Error (list OutboxRecord) :=
  match rows with
  | [] => Ok []
  | row :: rows =>
      let! record := scanOutboxRecord row in
      let! records := scanAll rows in
      Ok (record :: records)
  end.

(** ** Claims *)

(** [lock_until IS NULL OR lock_until <= $2] *)
Definition unlockedAt (at_ : Time) (until : option Time) : bool :=
  match until with
  | None => true
  | Some until => negb (After until at_)
  end.

(** [status = 'PENDING' OR (status = 'RETRY_SCHEDULED' AND next_attempt_at <= $2)]:
    the condition of [Ready]. *)
Definition claimReady (at_ : Time) (r : OutboxRecord) : bool := Ready at_ r && unlockedAt at_ (LockUntil r).

(** [ORDER BY occurred_at, event_id] *)
Definition occurred_le (a b : OutboxRecord) : Prop :=
  Before (RecordOccurredAt a) (RecordOccurredAt b) = true \/
  instant (RecordOccurredAt a) = instant (RecordOccurredAt b) /\
  String.le (string_of_list_ascii (ID a)) (string_of_list_ascii (ID b)).

#[global] Instance occurred_le_dec : RelDecision occurred_le.
Proof. intros a b. unfold occurred_le. apply _. Defined.

(** The rows a claim takes; [locked] are those that other transactions lock. *)
Definition claimable (locked : UUID -> bool) (limit : Z) (at_ : Time) (d : Database) : list OutboxRecord :=
  take (Z.to_nat limit)
    (merge_sort occurred_le
       (List.filter (fun r => negb (locked (ID r)) && claimReady at_ r) (snd <$> map_to_list (evaluation_outbox d)))).

Definition claimRow (workerID : string) (claimedAt lockUntil : Time) (r : OutboxRecord) : OutboxRecord :=
  r <| Status := OutboxStatusPublishing |> <| PublishingStartedAt := Some claimedAt |> <| LastAttemptAt := Some claimedAt |>
    <| Attempts := Attempts r + 1 |> <| LockOwner := workerID |> <| LockUntil := Some lockUntil |>.

Definition putRows (rows : list OutboxRecord) (d : Database) : Database :=
  d <| evaluation_outbox := foldr (fun r m => <[ID r := r]> m) (evaluation_outbox d) rows |>.

Definition ClaimReady (locked : UUID -> bool) (request : OutboxClaimRequest) : call (list OutboxRecord) :=
  match ValidateClaimRequest request with
  | Some err => fail (OutboxError err)
  | None =>
      let claimedAt := UTC (ClaimedAt request) in
      let lockUntil := Add claimedAt (ClaimLockDuration request) in
      transaction
        (do! rows <- exec (fun d =>
           let rows := claimable locked (Limit request) (column claimedAt) d in
           if existsb (fun r => i32_max <=? Attempts r) rows then None else
           let claimed := claimRow (TrimSpace (WorkerID request)) (column claimedAt) (column lockUntil) <$> rows in
           Some (putRows claimed d, returning _ claimed));
         lift (scanAll rows))
  end.

(** ** Results *)

(** [UPDATE ... WHERE event_id = $1 AND status = 'PUBLISHING' AND lock_owner = $2] *)
Definition updateOwned (id : UUID) (workerID : string) (f : OutboxRecord -> OutboxRecord) (d : Database)
    : option (Database * Z) :=
  match evaluation_outbox d !! id with
  | None => Some (d, 0)
  | Some r =>
      if (Status r == OutboxStatusPublishing) && (LockOwner r == workerID)
      then Some (d <| evaluation_outbox := <[id := f r]> (evaluation_outbox d) |>, 1)
      else Some (d, 0)
  end.

(** [requireSingleOutboxUpdate] *)
Definition requireSingleOutboxUpdate : Z -> call unit := require_one ErrOutboxConcurrentModification.

Definition MarkPublished (id : UUID) (workerID : string) (publishedAt : Time) : call unit :=
  if id == NilUUID then fail (OutboxError ErrOutboxRecordNotFound) else
  let workerID := TrimSpace workerID in
  if workerID == "" then fail (OutboxError ErrOutboxWorkerIDRequired) else
  if IsZero publishedAt then fail (OutboxError ErrOutboxPublishTimeRequired) else
  do! affected <- exec (updateOwned id workerID (fun r =>
    r <| Status := OutboxStatusPublished |> <| PublishedAt := Some (column (UTC publishedAt)) |>
      <| NextAttemptAt := None |> <| LastError := "" |> <| LockOwner := "" |> <| LockUntil := None |>));
  requireSingleOutboxUpdate affected.

Definition persistFailedRecord (r : OutboxRecord) (workerID : string) : call unit :=
  let workerID := TrimSpace workerID in
  if workerID == "" then fail (OutboxError ErrOutboxWorkerIDRequired) else
  do! affected <- exec (fun d =>
    if i32_max <? Attempts r then None else
    updateOwned (ID r) workerID (fun row =>
      row <| Status := Status r |> <| NextAttemptAt := column <$> NextAttemptAt r |>
          <| LastAttemptAt := column <$> LastAttemptAt r |> <| DeadLetteredAt := column <$> DeadLetteredAt r |>
          <| Attempts := Attempts r |> <| LastError := LastError r |> <| LockOwner := "" |> <| LockUntil := None |>) d);
  requireSingleOutboxUpdate affected.

Definition ScheduleRetry (r : OutboxRecord) (workerID : string) : call unit :=
  if (Status r != OutboxStatusRetryScheduled) || (bool_decide (NextAttemptAt r = None))
  then fail (OutboxError ErrOutboxInvalidRetrySchedule) else persistFailedRecord r workerID.

Definition MarkDeadLettered (r : OutboxRecord) (workerID : string) : call unit :=
  if (Status r != OutboxStatusDeadLettered) || (bool_decide (DeadLetteredAt r = None))
  then fail (OutboxError ErrOutboxAlreadyDeadLettered) else persistFailedRecord r workerID.

(** [status = 'PUBLISHING' AND lock_until <= $1] *)
Definition lockExpired (at_ : Time) (r : OutboxRecord) : bool :=
  (Status r == OutboxStatusPublishing) &&
  match LockUntil r with
  | None => false
  | Some until => negb (After until at_)
  end.

Definition releaseRow (at_ : Time) (r : OutboxRecord) : OutboxRecord :=
  if lockExpired at_ r
  then r <| Status := OutboxStatusRetryScheduled |> <| NextAttemptAt := Some at_ |> <| LockOwner := "" |> <| LockUntil := None |>
  else r.

Definition ReleaseExpiredLocks (at_ : Time) : call Z :=
  if IsZero at_ then fail (OutboxError ErrOutboxFailureTimeRequired) else
  let at_ := column (UTC at_) in
  exec (fun d =>
    let rows := evaluation_outbox d in
    Some (d <| evaluation_outbox := releaseRow at_ <$> rows |>,
          Z.of_nat (size (filter (fun kv => lockExpired at_ kv.2 = true) rows)))).

Definition FindByID (id : UUID) : call OutboxRecord :=
  if id == NilUUID then fail (OutboxError ErrOutboxRecordNotFound) else
  do! row <- query (fun d => evaluation_outbox d !! id);
  match row with
  | None => fail (OutboxError ErrOutboxRecordNotFound)
  | Some row => lift (scanOutboxRecord row)
  end.

End outbox_repository.

End outbox_repository.
