(* ===== verification/PgEvaluations.v ===== *)
(** * Evaluations in PostgreSQL ([persistence/postgres/store.go])

    A save writes the snapshot of an aggregate as JSON, an entry of the ledger with
    its hash, and the outbox records, in one transaction; a find checks the hash and
    decodes. *)

From Stdlib Require Import Ascii String.
From S2P Require Import Prelude GoTime GoString Uuid GoCrypto GoJson GoJsonStruct GoJsonDecode GoJsonReads GoUnmarshal GoTimeFormat GoTimeParse.
From S2P Require Import AuditLedger Evaluation Outbox Bundle BundleDecision Postgres PgOutbox.
Import evaluation evidencebundle verification postgres.

Module evaluations.

(** ** The snapshot as JSON *)

(** The structs of a snapshot, with the arrays of their slices. *)
Record checkpointJSON := MkCheckpointJSON {
  jsonCheckpointName : string;
  jsonCheckpointOutcomes : Slice outcomeJSON;
  jsonCheckpointVersion : Z;
  jsonCheckpointCreatedAt : Time
}.

Record historyJSON := MkHistoryJSON {
  jsonHistoryEvaluationID : UUID;
  jsonHistorySessionID : UUID;
  jsonHistoryVersion : Z;
  jsonHistoryState : string;
  jsonHistoryResult : string;
  jsonHistoryReasonCodes : Slice string;
  jsonHistoryRequired : Slice string;
  jsonHistoryOutcomes : Slice outcomeJSON;
  jsonRecordedAt : Time
}.

Record evaluationJSON := MkEvaluationJSON {
  jsonSnapEvaluationID : UUID;
  jsonSnapSessionID : UUID;
  jsonSnapState : string;
  jsonSnapResult : string;
  jsonSnapReasonCodes : Slice string;
  jsonSnapCreatedAt : Time;
  jsonSnapStartedAt : option Time;
  jsonSnapCompletedAt : option Time;
  jsonSnapCancelledAt : option Time;
  jsonSnapExpiredAt : option Time;
  jsonSnapCancellationReason : string;
  jsonSnapVersion : Z;
  jsonSnapRequired : Slice string;
  jsonSnapOutcomes : Slice outcomeJSON;
  jsonSnapCheckpoints : Slice checkpointJSON;
  jsonSnapHistory : Slice historyJSON;
  jsonSnapEvidenceBinding : option bindingJSON;
  jsonSnapPolicyBinding : option PolicyBinding
}.

#[global] Instance checkpointJSON_eta : Eta checkpointJSON :=
  fun c => MkCheckpointJSON (jsonCheckpointName c) (jsonCheckpointOutcomes c) (jsonCheckpointVersion c)
             (jsonCheckpointCreatedAt c).

#[global] Instance historyJSON_eta : Eta historyJSON :=
  fun h => MkHistoryJSON (jsonHistoryEvaluationID h) (jsonHistorySessionID h) (jsonHistoryVersion h) (jsonHistoryState h)
             (jsonHistoryResult h) (jsonHistoryReasonCodes h) (jsonHistoryRequired h) (jsonHistoryOutcomes h)
             (jsonRecordedAt h).

#[global] Instance evaluationJSON_eta : Eta evaluationJSON :=
  fun s => MkEvaluationJSON (jsonSnapEvaluationID s) (jsonSnapSessionID s) (jsonSnapState s) (jsonSnapResult s)
             (jsonSnapReasonCodes s) (jsonSnapCreatedAt s) (jsonSnapStartedAt s) (jsonSnapCompletedAt s)
             (jsonSnapCancelledAt s) (jsonSnapExpiredAt s) (jsonSnapCancellationReason s) (jsonSnapVersion s)
             (jsonSnapRequired s) (jsonSnapOutcomes s) (jsonSnapCheckpoints s) (jsonSnapHistory s)
             (jsonSnapEvidenceBinding s) (jsonSnapPolicyBinding s).

Definition zeroCheckpoint : checkpointJSON := MkCheckpointJSON "" nil_slice 0 ZeroTime.
Definition zeroHistory : historyJSON :=
  MkHistoryJSON NilUUID NilUUID 0 "" "" nil_slice nil_slice nil_slice ZeroTime.
Definition zeroEvaluation : evaluationJSON :=
  MkEvaluationJSON NilUUID NilUUID "" "" nil_slice ZeroTime None None None None "" 0 nil_slice nil_slice nil_slice nil_slice
    None None.

Definition toCheckpoint (c : checkpointJSON) : EvaluationCheckpoint :=
  MkEvaluationCheckpoint (jsonCheckpointName c) (toOutcome <$> items (jsonCheckpointOutcomes c)) (jsonCheckpointVersion c)
    (jsonCheckpointCreatedAt c).

Definition toHistory (h : historyJSON) : EvaluationHistoryEntry :=
  MkEvaluationHistoryEntry (jsonHistoryEvaluationID h) (jsonHistorySessionID h) (jsonHistoryVersion h) (jsonHistoryState h)
    (jsonHistoryResult h) (items (jsonHistoryReasonCodes h)) (items (jsonHistoryRequired h))
    (toOutcome <$> items (jsonHistoryOutcomes h)) (jsonRecordedAt h).

Definition toSnapshot (s : evaluationJSON) : EvaluationSnapshot :=
  MkEvaluationSnapshot (jsonSnapEvaluationID s) (jsonSnapSessionID s) (jsonSnapState s) (jsonSnapResult s)
    (items (jsonSnapReasonCodes s)) (jsonSnapCreatedAt s) (jsonSnapStartedAt s) (jsonSnapCompletedAt s)
    (jsonSnapCancelledAt s) (jsonSnapExpiredAt s) (jsonSnapCancellationReason s) (jsonSnapVersion s)
    (items (jsonSnapRequired s)) (toOutcome <$> items (jsonSnapOutcomes s)) (toCheckpoint <$> items (jsonSnapCheckpoints s))
    (toHistory <$> items (jsonSnapHistory s)) (toBinding <$> jsonSnapEvidenceBinding s) (jsonSnapPolicyBinding s).

Section evaluations.
Context {P : Platform} {D : Driver}.

Abbreviation field_ name get dec := (name, unmarshal.into get (fset get) dec).
Abbreviation strings := (unmarshal.decode_slice EmptyString unmarshal.decode_string).
Abbreviation time := (decode_time fixed_zone).
Abbreviation time_pointer := (unmarshal.decode_pointer ZeroTime (decode_time fixed_zone)).

Definition decode_checkpoint : unmarshal.decoder checkpointJSON :=
  unmarshal.decode_struct
    [field_ "Name" jsonCheckpointName unmarshal.decode_string;
     field_ "RuleOutcomes" jsonCheckpointOutcomes (unmarshal.decode_slice zeroOutcome decode_outcome);
     field_ "Version" jsonCheckpointVersion unmarshal.decode_uint64; field_ "CreatedAt" jsonCheckpointCreatedAt time].

Definition decode_history : unmarshal.decoder historyJSON :=
  unmarshal.decode_struct
    [field_ "EvaluationID" jsonHistoryEvaluationID unmarshal.decode_uuid;
     field_ "SessionID" jsonHistorySessionID unmarshal.decode_uuid;
     field_ "Version" jsonHistoryVersion unmarshal.decode_uint64;
     field_ "State" jsonHistoryState unmarshal.decode_string; field_ "Result" jsonHistoryResult unmarshal.decode_string;
     field_ "ReasonCodes" jsonHistoryReasonCodes strings; field_ "RequiredRuleIDs" jsonHistoryRequired strings;
     field_ "RuleOutcomes" jsonHistoryOutcomes (unmarshal.decode_slice zeroOutcome decode_outcome);
     field_ "RecordedAt" jsonRecordedAt time].

Definition decode_evaluation : unmarshal.decoder evaluationJSON :=
  unmarshal.decode_struct
    [field_ "EvaluationID" jsonSnapEvaluationID unmarshal.decode_uuid;
     field_ "SessionID" jsonSnapSessionID unmarshal.decode_uuid; field_ "State" jsonSnapState unmarshal.decode_string;
     field_ "Result" jsonSnapResult unmarshal.decode_string; field_ "ReasonCodes" jsonSnapReasonCodes strings;
     field_ "CreatedAt" jsonSnapCreatedAt time; field_ "StartedAt" jsonSnapStartedAt time_pointer;
     field_ "CompletedAt" jsonSnapCompletedAt time_pointer; field_ "CancelledAt" jsonSnapCancelledAt time_pointer;
     field_ "ExpiredAt" jsonSnapExpiredAt time_pointer;
     field_ "CancellationReason" jsonSnapCancellationReason unmarshal.decode_string;
     field_ "Version" jsonSnapVersion unmarshal.decode_uint64; field_ "RequiredRuleIDs" jsonSnapRequired strings;
     field_ "RuleOutcomes" jsonSnapOutcomes (unmarshal.decode_slice zeroOutcome decode_outcome);
     field_ "Checkpoints" jsonSnapCheckpoints (unmarshal.decode_slice zeroCheckpoint decode_checkpoint);
     field_ "History" jsonSnapHistory (unmarshal.decode_slice zeroHistory decode_history);
     field_ "EvidenceBinding" jsonSnapEvidenceBinding (unmarshal.decode_pointer zeroBinding decode_binding);
     field_ "PolicyBinding" jsonSnapPolicyBinding (unmarshal.decode_pointer zeroPolicyBinding decode_policy_binding)].

Definition MarshalCheckpoint (c : EvaluationCheckpoint) : option bytes :=
  match MarshalSlice MarshalOutcome (CheckpointOutcomes c), MarshalTimeIn (CheckpointCreatedAt c) with
  | Some outcomes, Some created =>
      Some (struct [("Name", quoteString (CheckpointName c)); ("RuleOutcomes", outcomes);
                    ("Version", MarshalInt (CheckpointVersion c)); ("CreatedAt", created)])
  | _, _ => None
  end.

Definition MarshalHistoryEntry (h : EvaluationHistoryEntry) : option bytes :=
  match MarshalSlice MarshalString (HistoryReasonCodes h), MarshalSlice MarshalString (HistoryRequiredRuleIDs h),
        MarshalSlice MarshalOutcome (HistoryRuleOutcomes h), MarshalTimeIn (HistoryRecordedAt h) with
  | Some reasons, Some required, Some outcomes, Some recorded =>
      Some (struct
        [("EvaluationID", MarshalUUID (HistoryEvaluationID h)); ("SessionID", MarshalUUID (HistorySessionID h));
         ("Version", MarshalInt (HistoryVersion h)); ("State", quoteString (HistoryState h));
         ("Result", quoteString (HistoryResult h)); ("ReasonCodes", reasons); ("RequiredRuleIDs", required);
         ("RuleOutcomes", outcomes); ("RecordedAt", recorded)])
  | _, _, _, _ => None
  end.

Definition MarshalEvaluation (s : EvaluationSnapshot) : option bytes :=
  match MarshalSlice MarshalString (SnapReasonCodes s), MarshalTimeIn (SnapCreatedAt s),
        MarshalPointer MarshalTimeIn (SnapStartedAt s), MarshalPointer MarshalTimeIn (SnapCompletedAt s),
        MarshalPointer MarshalTimeIn (SnapCancelledAt s), MarshalPointer MarshalTimeIn (SnapExpiredAt s),
        MarshalSlice MarshalString (SnapRequiredRuleIDs s), MarshalSlice MarshalOutcome (SnapRuleOutcomes s),
        MarshalSlice MarshalCheckpoint (SnapCheckpoints s), MarshalSlice MarshalHistoryEntry (SnapHistory s),
        MarshalPointer MarshalEvidenceBinding (SnapEvidenceBinding s),
        MarshalPointer MarshalPolicyBinding (SnapPolicyBinding s) with
  | Some reasons, Some created, Some started, Some completed, Some cancelled, Some expired, Some required, Some outcomes,
    Some checkpoints, Some history, Some evidenceBinding, Some policyBinding =>
      Some (struct
        [("EvaluationID", MarshalUUID (SnapEvaluationID s)); ("SessionID", MarshalUUID (SnapSessionID s));
         ("State", quoteString (SnapState s)); ("Result", quoteString (SnapResult s)); ("ReasonCodes", reasons);
         ("CreatedAt", created); ("StartedAt", started); ("CompletedAt", completed); ("CancelledAt", cancelled);
         ("ExpiredAt", expired); ("CancellationReason", quoteString (SnapCancellationReason s));
         ("Version", MarshalInt (SnapVersion s)); ("RequiredRuleIDs", required); ("RuleOutcomes", outcomes);
         ("Checkpoints", checkpoints); ("History", history); ("EvidenceBinding", evidenceBinding);
         ("PolicyBinding", policyBinding)])
  | _, _, _, _, _, _, _, _, _, _, _, _ => None
  end.

(** ** Encoding and decoding *)

(** The encoding error of [json.Marshal] is a [fmt.Errorf] of the package. *)
Definition encodeSnapshot (s : EvaluationSnapshot) : outcome Error bytes :=
  match RehydrateEvaluation s with
  | Err err => Err (EvaluationError err)
  | Ok _ =>
      match MarshalEvaluation s with
      | None => Err ErrEncoding
      | Some payload => Ok payload
      end
  end.

Definition decodeSnapshot (payload : bytes) : outcome Error EvaluationAggregate :=
  match unmarshal.Unmarshal decode_evaluation payload zeroEvaluation with
  | None => Err ErrEncoding
  | Some s => omap_err EvaluationError (RehydrateEvaluation (toSnapshot s))
  end.

(** ** The store *)

(** The pointers that are followed are set: [encodeSnapshot] has validated the
    snapshot. *)
Definition evaluationOccurredAt (s : EvaluationSnapshot) : Time :=
  if SnapState s == StateRunning then default ZeroTime (SnapStartedAt s) else
  if SnapState s == StateCompleted then default ZeroTime (SnapCompletedAt s) else
  if SnapState s == StateCancelled then default ZeroTime (SnapCancelledAt s) else
  if SnapState s == StateExpired then default ZeroTime (SnapExpiredAt s) else
  SnapCreatedAt s.

Definition evaluationRow (s : EvaluationSnapshot) (payload : bytes) (created : Time) : EvaluationRow :=
  MkEvaluationRow (SnapSessionID s) (SnapState s) (SnapResult s) (SnapVersion s) payload created.

(** [INSERT INTO evaluations]: [evaluation_id] is the primary key. *)
Definition insertEvaluation (s : EvaluationSnapshot) (payload : bytes) (d : Database) : option (Database * unit) :=
  if negb (bigint (SnapVersion s)) then None else
  match postgres.evaluations d !! SnapEvaluationID s with
  | Some _ => None
  | None =>
      let row := evaluationRow s payload (column (SnapCreatedAt s)) in
      Some (d <| postgres.evaluations := <[SnapEvaluationID s := row]> (postgres.evaluations d) |>, tt)
  end.

(** [UPDATE evaluations ... WHERE evaluation_id = $1 AND version = $7] *)
Definition updateEvaluation (s : EvaluationSnapshot) (expectedVersion : Z) (payload : bytes) (d : Database)
    : option (Database * Z) :=
  if negb (bigint (SnapVersion s)) then None else
  match postgres.evaluations d !! SnapEvaluationID s with
  | None => Some (d, 0)
  | Some row =>
      if evaluation_version row =? expectedVersion then
        let row := evaluationRow s payload (evaluation_created_at row) in
        Some (d <| postgres.evaluations := <[SnapEvaluationID s := row]> (postgres.evaluations d) |>, 1)
      else Some (d, 0)
  end.

Definition persistSnapshot (s : EvaluationSnapshot) (expectedVersion : Z) (payload : bytes) : call unit :=
  if expectedVersion =? 0 then exec (insertEvaluation s payload) else
  do! affected <- exec (updateEvaluation s expectedVersion payload);
  require_one ErrEvaluationConcurrentModification affected.

(** [INSERT INTO evaluation_audit_records]: [(evaluation_id, version)] is the
    primary key and [audit_sequence] is unique. *)
Definition bindAuditEntry (id : UUID) (version : Z) (sequence : Z) (d : Database) : option (Database * unit) :=
  let records := evaluation_audit_records d in
  if existsb (fun kv => kv.2 =? sequence) (map_to_list records) then None else
  match records !! (id, version) with
  | Some _ => None
  | None => Some (d <| evaluation_audit_records := <[(id, version) := sequence]> records |>, tt)
  end.

Definition SaveEvaluation (s : EvaluationSnapshot) (expectedVersion : Z) (records : list outbox.OutboxRecord) : call unit :=
  do! payload <- lift (encodeSnapshot s);
  if (0 <? expectedVersion) && (SnapVersion s <=? expectedVersion) then fail ErrInvalidExpectedVersion else
  transaction
    (do! _ <- persistSnapshot s expectedVersion payload;
     do! entry <- appendNext audit.RecordEvaluation (sha256 payload) (evaluationOccurredAt s);
     do! _ <- exec (bindAuditEntry (SnapEvaluationID s) (SnapVersion s) (audit.Sequence entry));
     outbox_repository.insertOutboxRecords records).

(** The row, joined with the entry of the ledger that is bound to its version. *)
Definition joinedEvaluation (id : UUID) (d : Database) : option (bytes * option audit.Entry) :=
  match postgres.evaluations d !! id with
  | None => None
  | Some row =>
      Some (evaluation_snapshot row,
            match evaluation_audit_records d !! (id, evaluation_version row) with
            | None => None
            | Some sequence => ledgerRow sequence d
            end)
  end.

Definition FindEvaluation (id : UUID) : call EvaluationAggregate :=
  if id == NilUUID then fail (EvaluationError ErrEvaluationIDRequired) else
  do! row <- query (joinedEvaluation id);
  match row with
  | None => fail ErrEvaluationNotFound
  | Some (payload, entry) =>
      if negb (audited entry audit.RecordEvaluation (sha256 payload)) then fail ErrEvaluationAuditInvalid else
      lift (decodeSnapshot payload)
  end.

End evaluations.

End evaluations.
