(* ===== verification/PgPolicies.v ===== *)
(** * Policies in PostgreSQL ([persistence/postgres/policy_repository.go])

    Versions, whose effective periods an exclusion constraint keeps apart, and the
    events of their lives, of which the last counts. *)

From Stdlib Require Import Ascii String.
From S2P Require Import Prelude GoTime GoString Uuid GoCrypto GoJson GoUnmarshal Policy Bundle Postgres.
Import postgres.

Module policies.

Section policies.
Context {P : evidencebundle.Platform} {D : Driver}.

(** ** The snapshot as JSON *)

Definition encodePolicySnapshot (s : policy.Snapshot) : outcome Error bytes :=
  match policy.Rehydrate s with
  | Err err => Err (PolicyError err)
  | Ok _ =>
      match evidencebundle.MarshalPolicySnapshot (evidencebundle.toJSON s) with
      | None => Err ErrEncoding
      | Some payload => Ok payload
      end
  end.

Definition decodePolicySnapshot (payload : bytes) : outcome Error policy.Version :=
  match unmarshal.Unmarshal evidencebundle.decode_snapshot payload evidencebundle.zeroSnapshotJSON with
  | None => Err ErrEncoding
  | Some s => omap_err PolicyError (policy.Rehydrate (evidencebundle.fromJSON s))
  end.

(** ** Adding a version *)

(** [tstzrange(effective_from, effective_until, '[)') WITH &&] *)
Definition overlaps (l r : PolicyRow) : bool :=
  match effective_until l with None => true | Some until => Before (effective_from r) until end &&
  match effective_until r with None => true | Some until => Before (effective_from l) until end.

(** [policy_versions_signature_complete] *)
Definition signatureComplete (s : policy.Signature) : bool :=
  (policy.SignerID s != "") && (policy.KeyID s != "") && (policy.Algorithm s != "") && (policy.Value s != "").

Definition versionRow (s : policy.Snapshot) (payload : bytes) (sg : policy.Signature) : PolicyRow :=
  MkPolicyRow (policy.SchemaVersion s) (column (policy.EffectiveFrom s)) (column <$> policy.EffectiveUntil s)
    (policy.Hash s) payload
    (Some (policy.MkSignature (policy.SignerID sg) (policy.KeyID sg) (policy.Algorithm sg)
             (column (policy.SignedAt sg)) (policy.Value sg))).

(** [INSERT INTO policy_versions]; [false] is the violation of the exclusion
    constraint ([isExclusionViolation]). *)
Definition insertVersion (s : policy.Snapshot) (payload : bytes) (sg : policy.Signature) (d : Database)
    : option (Database * bool) :=
  let row := versionRow s payload sg in
  if negb (signatureComplete sg) ||
     match effective_until row with None => false | Some until => negb (After until (effective_from row)) end
  then None else
  match policy_versions d !! (policy.PolicyID s, policy.VersionName s) with
  | Some _ => None
  | None =>
      if existsb (fun kv => (kv.1.1 == policy.PolicyID s) && overlaps kv.2 row) (map_to_list (policy_versions d))
      then Some (d, false) else
      Some (d <| policy_versions := <[(policy.PolicyID s, policy.VersionName s) := row]> (policy_versions d) |>, true)
  end.

(** The event is of this version. *)
Definition event_of_version (policyID version : string) (e : LifecycleRow) : bool :=
  (lifecycle_policy_id e == policyID) && (lifecycle_version e == version).

(** [INSERT INTO policy_lifecycle_events]: the version exists, has no event of this
    status, and an approval stands with an activation alone. *)
Definition insertEvent (e : LifecycleRow) (d : Database) : option (Database * unit) :=
  let approval :=
    if lifecycle_status e == policy.LifecycleActive then
      match approved_by e, approved_at e with
      | Some by_, Some at_ => (by_ != "") && negb (After at_ (event_at e))
      | _, _ => false
      end
    else match approved_by e, approved_at e with None, None => true | _, _ => false end in
  if negb approval ||
     existsb (fun x => event_of_version (lifecycle_policy_id e) (lifecycle_version e) x &&
                       (lifecycle_status x == lifecycle_status e)) (policy_lifecycle_events d)
  then None else
  match policy_versions d !! (lifecycle_policy_id e, lifecycle_version e) with
  | None => None
  | Some _ => Some (d <| policy_lifecycle_events := e :: policy_lifecycle_events d |>, tt)
  end.

(** [WHERE policy_id = $1 AND version = $2 AND status = 'ACTIVE'] *)
Definition activation (policyID version : string) (d : Database) : option LifecycleRow :=
  List.find (fun e => event_of_version policyID version e && (lifecycle_status e == policy.LifecycleActive))
    (policy_lifecycle_events d).

(** A column that is null cannot be scanned. *)
Definition insertActivation (s : policy.Snapshot) (approval : policy.ApprovalRecord) (activatedAt : Time) : call unit :=
  do! existing <- query (activation (policy.PolicyID s) (policy.VersionName s));
  match existing with
  | Some e =>
      match approved_by e, approved_at e with
      | Some existingApprovedBy, Some existingApprovedAt =>
          if TimeEqual (event_at e) activatedAt && (existingApprovedBy == policy.ApprovedBy approval) &&
             TimeEqual existingApprovedAt (policy.ApprovedAt approval)
          then aret tt else fail (PolicyError policy.ErrInvalidLifecycleChange)
      | _, _ => fail ErrDatabase
      end
  | None =>
      exec (insertEvent
        (MkLifecycleRow (policy.PolicyID s) (policy.VersionName s) policy.LifecycleActive (column activatedAt)
           (Some (policy.ApprovedBy approval)) (Some (column (policy.ApprovedAt approval)))))
  end.

(** The lock of the policy makes the transaction one step. *)
Definition Add (activated : option policy.ActivatedVersion) : call unit :=
  match activated with
  | None => fail (PolicyError policy.ErrPolicyNotFound)
  | Some a =>
      match policy.verifiedVersion (policy.verified a) with
      | None => fail (PolicyError policy.ErrPolicyNotFound)
      | Some version =>
          let s := policy.VersionSnapshot version in
          do! payload <- lift (encodePolicySnapshot s);
          transaction
            (do! _ <- query (fun _ => tt);
             do! existing <- query (fun d => policy_versions d !! (policy.PolicyID s, policy.VersionName s));
             do! _ <- match existing with
                      | Some row =>
                          if (policy_hash row == policy.Hash s) && bool_decide (is_Some (signature row)) then aret tt
                          else fail (PolicyError policy.ErrVersionConflict)
                      | None =>
                          do! inserted <- exec (insertVersion s payload (policy.verifiedSignature (policy.verified a)));
                          if inserted then aret tt else fail (PolicyError policy.ErrEffectiveOverlap)
                      end;
             insertActivation s (policy.approval a) (policy.activated a))
      end
  end.

(** ** Resolution *)

(** [ORDER BY event_at DESC, event_id DESC LIMIT 1] *)
Fixpoint latest (l : list LifecycleRow) : option LifecycleRow :=
  match l with
  | [] => None
  | e :: l =>
      match latest l with
      | Some older => if After (event_at older) (event_at e) then Some older else Some e
      | None => Some e
      end
  end.

Definition latestEvent (policyID version : string) (d : Database) : option LifecycleRow :=
  latest (List.filter (event_of_version policyID version) (policy_lifecycle_events d)).

Abbreviation keyed_version := ((string * string) * PolicyRow)%type.

(** The conditions of the [WHERE] clause. *)
Definition inForce (at_ : Time) (d : Database) (kv : keyed_version) : bool :=
  bool_decide (is_Some (signature kv.2)) &&
  match latestEvent kv.1.1 kv.1.2 d with
  | None => false
  | Some e => (lifecycle_status e == policy.LifecycleActive) && negb (After (event_at e) at_)
  end &&
  negb (After (effective_from kv.2) at_) &&
  match effective_until kv.2 with None => true | Some until => Before at_ until end.

(** [ORDER BY versions.effective_from, versions.version] *)
Definition effective_le (a b : keyed_version) : Prop :=
  Before (effective_from a.2) (effective_from b.2) = true \/
  instant (effective_from a.2) = instant (effective_from b.2) /\ collate a.1.2 b.1.2 = true.

#[global] Instance effective_le_dec : RelDecision effective_le.
Proof. intros a b. unfold effective_le. apply _. Defined.

Definition resolvable (policyID : string) (at_ : Time) (d : Database) : list keyed_version :=
  take 2
    (merge_sort effective_le
       (List.filter (fun kv => (kv.1.1 == policyID) && inForce at_ d kv) (map_to_list (policy_versions d)))).

Fixpoint decodeAll (rows : list bytes) : outcome Error (list policy.Version) :=
  match rows with
  | [] => Ok []
  | payload :: rows =>
      let! resolved := decodePolicySnapshot payload in
      let! versions := decodeAll rows in
      Ok (resolved :: versions)
  end.

Definition Resolve (policyID : string) (at_ : Time) : call policy.Version :=
  if (policyID == "") || IsZero at_ then fail (PolicyError policy.ErrPolicyNotFound) else
  do! rows <- query (fun d => policy_snapshot ∘ snd <$> resolvable policyID (column (UTC at_)) d);
  do! matches <- lift (decodeAll rows);
  match matches with
  | [] => fail (PolicyError policy.ErrPolicyNotFound)
  | [version] => aret version
  | _ => fail (PolicyError policy.ErrAmbiguousPolicy)
  end.

Definition FindVersion (policyID version hash : string) : call policy.Version :=
  do! row <- query (fun d =>
    match policy_versions d !! (policyID, version) with
    | None => None
    | Some row => if (policy_hash row == hash) && bool_decide (is_Some (signature row)) then Some (policy_snapshot row) else None
    end);
  match row with
  | None => fail (PolicyError policy.ErrPolicyNotFound)
  | Some payload => lift (decodePolicySnapshot payload)
  end.

(** ** The life of a version *)

Definition validTransition (current target : policy.LifecycleStatus) : bool :=
  (current == policy.LifecycleActive) && ((target == policy.LifecycleSuspended) || (target == policy.LifecycleRetired)) ||
  (current == policy.LifecycleSuspended) && (target == policy.LifecycleRetired).

(** An error of the query is answered like a version without events; a change that
    is already recorded returns before [Commit]. *)
Definition transitionPolicy (policyID version : string) (target : policy.LifecycleStatus) (at_ : Time) : call unit :=
  let invalid {A} : call A := fail (PolicyError policy.ErrInvalidLifecycleChange) in
  if (policyID == "") || (version == "") || IsZero at_ then invalid else
  let at_ := UTC at_ in
  do! _ <- transaction_opt
    (do! _ <- query (fun _ => tt);
     fun c =>
       match query (latestEvent policyID version) c with
       | (c, Err _) | (c, Ok None) => invalid c
       | (c, Ok (Some e)) =>
           if (lifecycle_status e == target) && TimeEqual (event_at e) at_ then aret None c else
           if negb (validTransition (lifecycle_status e) target) || Before at_ (event_at e) then invalid c else
           (do! _ <- exec (insertEvent (MkLifecycleRow policyID version target (column at_) None None)); aret (Some tt)) c
       end);
  aret tt.

Definition Suspend (policyID version : string) (at_ : Time) : call unit :=
  transitionPolicy policyID version policy.LifecycleSuspended at_.

Definition Retire (policyID version : string) (at_ : Time) : call unit :=
  transitionPolicy policyID version policy.LifecycleRetired at_.

End policies.

End policies.
