(* ===== verification/PgEvidence.v ===== *)
(** * Evidence and estimates in PostgreSQL ([persistence/postgres/])

    Evidence objects as JSONB, inserted once ([evidence_repository.go]), and the
    results of the estimator as JSON, each with an entry of the ledger
    ([estimator_repository.go]). *)

From Stdlib Require Import Ascii String.
From S2P Require Import Prelude GoTime GoString Uuid GoCrypto GoJson GoJsonStruct GoTimeFormat GoParse GoFloat.
From S2P Require Import GoJsonDecode GoUnmarshal GoJsonReads GoTimeParse GoFloatText Responsibility AuditLedger Spatial.
From S2P Require Import Estimator Evidence Bundle BundleDecision Postgres PgRecords.
Import postgres.

Module evidences.

Section evidences.
Context {P : evidencebundle.Platform} {D : Driver}.

Definition decodeEvidenceSnapshot (payload : bytes) : outcome Error evidence.Object :=
  match unmarshal.Unmarshal verification.decode_evidence payload verification.zeroEvidence with
  | None => Err ErrEncoding
  | Some s => omap_err EvidenceError (evidence.Rehydrate s)
  end.

Definition evidenceRow (s : evidence.Snapshot) (payload : bytes) : EvidenceRow :=
  MkEvidenceRow (evidence.SessionID s) (evidence.SourceID s) (evidence.SourceType s) (evidence.EvidenceType s)
    (column (evidence.ObservedAt s)) (column (evidence.ReceivedAt s)) (evidence.PayloadDigest (evidence.Integrity s))
    (jsonb payload).

(** [INSERT ... ON CONFLICT (evidence_id) DO NOTHING]; the constraint of the times is
    tested before the conflict. *)
Definition insertEvidence (s : evidence.Snapshot) (payload : bytes) (d : Database) : option (Database * Z) :=
  let row := evidenceRow s payload in
  if Before (evidence_received_at row) (evidence_observed_at row) then None else
  match evidence_objects d !! evidence.EvidenceID s with
  | Some _ => Some (d, 0)
  | None => Some (d <| evidence_objects := <[evidence.EvidenceID s := row]> (evidence_objects d) |>, 1)
  end.

Definition storedEvidence (id : UUID) (d : Database) : option bytes := evidence_snapshot <$> evidence_objects d !! id.

Definition SaveEvidence (others : Database -> Database) (s : evidence.Snapshot) : call unit :=
  do! object <- lift (omap_err EvidenceError (evidence.Rehydrate s));
  let normalized := evidence.ObjectSnapshot object in
  match evidencebundle.MarshalEvidence normalized with
  | None => fail ErrEncoding
  | Some payload =>
      do! affected <- exec (insertEvidence normalized payload);
      if affected =? 1 then aret tt else
      do! _ <- records.meanwhile others;
      do! existingPayload <- query (storedEvidence (evidence.EvidenceID normalized));
      match existingPayload with
      | None => fail ErrDatabase
      | Some existingPayload =>
          do! existing <- lift (decodeEvidenceSnapshot existingPayload);
          if evidence.SameSubmission evidencebundle.zone_offset (evidence.ObjectSnapshot existing) normalized
          then aret tt else fail (EvidenceError evidence.ErrConflict)
      end
  end.

Definition FindEvidence (id : UUID) : call evidence.Object :=
  if id == NilUUID then fail (EvidenceError evidence.ErrEvidenceIDRequired) else
  do! payload <- query (storedEvidence id);
  match payload with
  | None => fail (EvidenceError evidence.ErrNotFound)
  | Some payload => lift (decodeEvidenceSnapshot payload)
  end.

(** [ORDER BY observed_at, evidence_id] *)
Definition observed_le (a b : UUID * EvidenceRow) : Prop :=
  Before (evidence_observed_at a.2) (evidence_observed_at b.2) = true \/
  instant (evidence_observed_at a.2) = instant (evidence_observed_at b.2) /\
  String.le (string_of_list_ascii a.1) (string_of_list_ascii b.1).

#[global] Instance observed_le_dec : RelDecision observed_le.
Proof. intros a b. unfold observed_le. apply _. Defined.

Definition sessionRows (sessionID : UUID) (d : Database) : list (UUID * EvidenceRow) :=
  merge_sort observed_le
    (List.filter (fun kv => evidence_session_id kv.2 == sessionID) (map_to_list (evidence_objects d))).

Fixpoint decodeObjects (rows : list bytes) : outcome Error (list evidence.Object) :=
  match rows with
  | [] => Ok []
  | payload :: rows =>
      let! object := decodeEvidenceSnapshot payload in
      let! objects := decodeObjects rows in
      Ok (object :: objects)
  end.

Definition ListEvidenceBySession (sessionID : UUID) : call (list evidence.Object) :=
  if sessionID == NilUUID then fail (EvidenceError evidence.ErrSessionIDRequired) else
  do! rows <- query (fun d => evidence_snapshot ∘ snd <$> sessionRows sessionID d);
  lift (decodeObjects rows).

End evidences.

End evidences.

Module estimates.

(** ** Results as JSON *)

(** A [[32]byte]: an array of numbers. Elements after the last are skipped, and
    those that are missing are zero. *)
Definition decode_uint8 : unmarshal.decoder ascii := fun v old =>
  match v with
  | RNull => Some old
  | RNumber literal =>
      match ParseUint literal with
      | None => None
      | Some n => if n <? 256 then Some (byte_of (Z.to_N n)) else None
      end
  | _ => None
  end.

Definition decode_digest : unmarshal.decoder bytes := fun v old =>
  match v with
  | RNull => Some old
  | RArray _ l =>
      match unmarshal.decode_elements zero decode_uint8 (take 32 l) old with
      | None => None
      | Some r => Some (r ++ replicate (32 - length r) zero)
      end
  | _ => None
  end.

Definition decode_int32 : unmarshal.decoder Z := fun v old =>
  match v with
  | RNull => Some old
  | RNumber literal =>
      match Atoi literal with
      | None => None
      | Some n => if (- 2 ^ 31 <=? n) && (n <=? i32_max) then Some n else None
      end
  | _ => None
  end.

Definition decode_bool : unmarshal.decoder bool := fun v old =>
  match v with
  | RNull => Some old
  | RBool b => Some b
  | _ => None
  end.

#[global] Instance Vector3_eta : Eta spatial.Vector3 := fun v => spatial.MkVector3 (spatial.X v) (spatial.Y v) (spatial.Z_ v).

#[global] Instance Covariance3_eta : Eta spatial.Covariance3 :=
  fun c => spatial.MkCovariance3 (spatial.XX c) (spatial.XY c) (spatial.XZ c) (spatial.YY c) (spatial.YZ c) (spatial.ZZ c).

#[global] Instance Estimate_eta : Eta spatial.Estimate :=
  fun e => spatial.MkEstimate (spatial.Frame e) (spatial.Position e) (spatial.Floor e) (spatial.Covariance e)
             (spatial.Confidence e) (spatial.ObservedAt e) (spatial.ProfileID e) (spatial.ProfileVersion e)
             (spatial.CalibrationVersion e).

#[global] Instance Request_eta : Eta estimator.Request :=
  fun r => estimator.MkRequest (estimator.ObjectID r) (estimator.Sequence r) (estimator.ObservationID r)
             (estimator.ObservationDigest r) (estimator.ObservedAt r) (estimator.ReceivedAt r) (estimator.TargetFrame r)
             (estimator.ProfileID r) (estimator.ProfileVersion r) (estimator.CalibrationVersion r) (estimator.HasPrior r)
             (estimator.Prior r).

#[global] Instance ReplayMetadata_eta : Eta estimator.ReplayMetadata :=
  fun m => estimator.MkReplayMetadata (estimator.request m) (estimator.CompletedAt m).

#[global] Instance Result_eta : Eta estimator.Result :=
  fun r => estimator.MkResult (estimator.Estimate r) (estimator.Replay r).

Definition zeroResult : estimator.Result :=
  estimator.MkResult spatial.zeroEstimate
    (estimator.MkReplayMetadata
       (estimator.MkRequest "" 0 NilUUID estimator.ZeroDigest ZeroTime ZeroTime "" "" "" "" false spatial.zeroEstimate)
       ZeroTime).

Section estimates.
Context {P : evidencebundle.Platform} {D : Driver}.

Abbreviation field_ name get dec := (name, unmarshal.into get (fset get) dec).
Abbreviation time := (decode_time evidencebundle.fixed_zone).

Definition decode_vector : unmarshal.decoder spatial.Vector3 :=
  unmarshal.decode_struct
    [field_ "x" spatial.X unmarshal.decode_float; field_ "y" spatial.Y unmarshal.decode_float;
     field_ "z" spatial.Z_ unmarshal.decode_float].

Definition decode_covariance : unmarshal.decoder spatial.Covariance3 :=
  unmarshal.decode_struct
    [field_ "xx" spatial.XX unmarshal.decode_float; field_ "xy" spatial.XY unmarshal.decode_float;
     field_ "xz" spatial.XZ unmarshal.decode_float; field_ "yy" spatial.YY unmarshal.decode_float;
     field_ "yz" spatial.YZ unmarshal.decode_float; field_ "zz" spatial.ZZ unmarshal.decode_float].

Definition decode_estimate : unmarshal.decoder spatial.Estimate :=
  unmarshal.decode_struct
    [field_ "frame" spatial.Frame unmarshal.decode_string; field_ "position" spatial.Position decode_vector;
     field_ "floor" spatial.Floor decode_int32; field_ "covariance" spatial.Covariance decode_covariance;
     field_ "confidence" spatial.Confidence unmarshal.decode_float; field_ "observed_at" spatial.ObservedAt time;
     field_ "profile_id" spatial.ProfileID unmarshal.decode_string;
     field_ "profile_version" spatial.ProfileVersion unmarshal.decode_string;
     field_ "calibration_version" spatial.CalibrationVersion unmarshal.decode_string].

(** The metadata have the fields of the request beside their own. *)
Definition in_request {A} (get : estimator.Request -> A) (set : A -> estimator.Request -> estimator.Request)
    (dec : unmarshal.decoder A) : unmarshal.decoder estimator.ReplayMetadata :=
  unmarshal.into estimator.request (fset estimator.request) (unmarshal.into get set dec).

Abbreviation asked name get dec := (name, in_request get (fset get) dec).

Definition decode_replay : unmarshal.decoder estimator.ReplayMetadata :=
  unmarshal.decode_struct
    [asked "ObjectID" estimator.ObjectID unmarshal.decode_string; asked "Sequence" estimator.Sequence unmarshal.decode_uint64;
     asked "ObservationID" estimator.ObservationID unmarshal.decode_uuid;
     asked "ObservationDigest" estimator.ObservationDigest decode_digest; asked "ObservedAt" estimator.ObservedAt time;
     asked "ReceivedAt" estimator.ReceivedAt time; asked "TargetFrame" estimator.TargetFrame unmarshal.decode_string;
     asked "ProfileID" estimator.ProfileID unmarshal.decode_string;
     asked "ProfileVersion" estimator.ProfileVersion unmarshal.decode_string;
     asked "CalibrationVersion" estimator.CalibrationVersion unmarshal.decode_string;
     asked "HasPrior" estimator.HasPrior decode_bool; asked "Prior" estimator.Prior decode_estimate;
     field_ "CompletedAt" estimator.CompletedAt time].

Definition decode_result : unmarshal.decoder estimator.Result :=
  unmarshal.decode_struct
    [field_ "Estimate" estimator.Estimate decode_estimate; field_ "Replay" estimator.Replay decode_replay].

(** The fields whose encodings may fail, all or none. *)
Fixpoint fields (l : list (string * option bytes)) : option (list (string * bytes)) :=
  match l with
  | [] => Some []
  | (name, b) :: l =>
      match b, fields l with
      | Some b, Some l => Some ((name, b) :: l)
      | _, _ => None
      end
  end.

Definition MarshalFields (l : list (string * option bytes)) : option bytes := struct <$> fields l.

Definition MarshalVector (v : spatial.Vector3) : option bytes :=
  MarshalFields [("x", MarshalFloat (spatial.X v)); ("y", MarshalFloat (spatial.Y v)); ("z", MarshalFloat (spatial.Z_ v))].

Definition MarshalCovariance (c : spatial.Covariance3) : option bytes :=
  MarshalFields [("xx", MarshalFloat (spatial.XX c)); ("xy", MarshalFloat (spatial.XY c)); ("xz", MarshalFloat (spatial.XZ c));
                 ("yy", MarshalFloat (spatial.YY c)); ("yz", MarshalFloat (spatial.YZ c)); ("zz", MarshalFloat (spatial.ZZ c))].

Abbreviation text s := (Some (quoteString s)).

Definition MarshalEstimate (e : spatial.Estimate) : option bytes :=
  MarshalFields
    [("frame", text (spatial.Frame e)); ("position", MarshalVector (spatial.Position e));
     ("floor", Some (evidencebundle.MarshalInt (spatial.Floor e))); ("covariance", MarshalCovariance (spatial.Covariance e));
     ("confidence", MarshalFloat (spatial.Confidence e));
     ("observed_at", evidencebundle.MarshalTimeIn (spatial.ObservedAt e)); ("profile_id", text (spatial.ProfileID e));
     ("profile_version", text (spatial.ProfileVersion e)); ("calibration_version", text (spatial.CalibrationVersion e))].

Definition MarshalDigest (b : bytes) : bytes := array ((fun c => evidencebundle.MarshalInt (Z.of_N (json.code c))) <$> b).

Definition MarshalReplay (m : estimator.ReplayMetadata) : option bytes :=
  let r := estimator.request m in
  MarshalFields
    [("ObjectID", text (estimator.ObjectID r)); ("Sequence", Some (evidencebundle.MarshalInt (estimator.Sequence r)));
     ("ObservationID", Some (evidencebundle.MarshalUUID (estimator.ObservationID r)));
     ("ObservationDigest", Some (MarshalDigest (estimator.ObservationDigest r)));
     ("ObservedAt", evidencebundle.MarshalTimeIn (estimator.ObservedAt r));
     ("ReceivedAt", evidencebundle.MarshalTimeIn (estimator.ReceivedAt r)); ("TargetFrame", text (estimator.TargetFrame r));
     ("ProfileID", text (estimator.ProfileID r)); ("ProfileVersion", text (estimator.ProfileVersion r));
     ("CalibrationVersion", text (estimator.CalibrationVersion r));
     ("HasPrior", Some (bytes_of (if estimator.HasPrior r then "true" else "false")));
     ("Prior", MarshalEstimate (estimator.Prior r)); ("CompletedAt", evidencebundle.MarshalTimeIn (estimator.CompletedAt m))].

Definition MarshalResult (r : estimator.Result) : option bytes :=
  MarshalFields [("Estimate", MarshalEstimate (estimator.Estimate r)); ("Replay", MarshalReplay (estimator.Replay r))].

(** ** The store *)

(** [INSERT ... ON CONFLICT (object_id, sequence) DO NOTHING]: the observation and
    the place in the ledger are unique. *)
Definition insertResult (r : estimator.Result) (payload : bytes) (sequence : Z) (d : Database) : option (Database * Z) :=
  let q := estimator.request (estimator.Replay r) in
  let rows := estimator_results d in
  match rows !! (estimator.ObjectID q, estimator.Sequence q) with
  | Some _ => Some (d, 0)
  | None =>
      let row := MkEstimatorRow (estimator.ObservationID q) (estimator.ObservationDigest q) (estimator.ProfileID q)
                   (estimator.ProfileVersion q) (estimator.CalibrationVersion q) (column (estimator.ObservedAt q))
                   (column (estimator.CompletedAt (estimator.Replay r))) payload sequence in
      if Before (completed_at row) (estimator_observed_at row) ||
         existsb (fun kv => (observation_id kv.2 == observation_id row) || (estimator_audit_sequence kv.2 =? sequence))
           (map_to_list rows)
      then None else
      Some (d <| estimator_results := <[(estimator.ObjectID q, estimator.Sequence q) := row]> rows |>, 1)
  end.

Definition SaveEstimatorResult (r : estimator.Result) : call unit :=
  let invalid := fail (EstimatorError estimator.ErrResultInvalid) in
  match estimator.ValidateResult r with
  | Some _ => invalid
  | None =>
      if i64_max <? estimator.Sequence (estimator.request (estimator.Replay r)) then invalid else
      match MarshalResult r with
      | None => fail ErrEncoding
      | Some payload =>
          transaction
            (do! entry <- appendNext audit.RecordEstimator (sha256 payload) (estimator.CompletedAt (estimator.Replay r));
             do! affected <- exec (insertResult r payload (audit.Sequence entry));
             require_one (EstimatorError estimator.ErrResultAlreadyRecorded) affected)
      end
  end.

(** The result that is stored, decoded and checked against its place. *)
Definition readResult (oid : responsibility.PhysicalObjectID) (sequence : Z) (payload : bytes)
    : outcome Error estimator.Result :=
  match unmarshal.Unmarshal decode_result payload zeroResult with
  | None => Err ErrEncoding
  | Some result =>
      let q := estimator.request (estimator.Replay result) in
      match estimator.ValidateResult result with
      | Some _ => Err (EstimatorError estimator.ErrResultInvalid)
      | None =>
          if (estimator.ObjectID q != oid) || negb (estimator.Sequence q =? sequence)
          then Err (EstimatorError estimator.ErrResultInvalid) else Ok result
      end
  end.

Definition FindEstimatorResult (oid : responsibility.PhysicalObjectID) (sequence : Z) : call estimator.Result :=
  let invalid {A} : call A := fail (EstimatorError estimator.ErrResultInvalid) in
  match responsibility.NewPhysicalObjectID oid with
  | Err _ => invalid
  | Ok validated =>
      if (validated != oid) || (sequence =? 0) || (i64_max <? sequence) then invalid else
      do! row <- query (fun d => (fun row => (estimator_result row, ledgerRow (estimator_audit_sequence row) d)) <$>
                                 estimator_results d !! (oid, sequence));
      match row with
      | None => fail (EstimatorError estimator.ErrResultNotFound)
      | Some (payload, entry) =>
          if negb (audited entry audit.RecordEstimator (sha256 payload)) then invalid else
          lift (readResult oid sequence payload)
      end
  end.

End estimates.

End estimates.
