(* ===== verification/GoCodec.v ===== *)
(** * Encodings that decode

    [decodes d dec b old new]: the text [b], at [d] levels below the limit of
    nesting, is a value that [dec] decodes from [old] to [new]. Each encoder of
    the program is paired with the decoder of its struct. *)

From Stdlib Require Import Ascii String.
From S2P Require Import Prelude GoTime GoString Uuid GoParse GoJson GoJsonText GoJsonStruct GoJsonDecode GoUnmarshal.
From S2P Require Import GoJsonReads GoTimeFormat GoTimeParse Evidence Bundle BundleProperties PolicyAdmission.
Import json evidencebundle.

Definition decodes {T} (d : N) (dec : unmarshal.decoder T) (b : bytes) (old new : T) : Prop :=
  exists v, reads d b v /\ v <> RNull /\ dec v old = Some new.

(** The same, but for [null], which leaves a pointer or a slice as it was. *)
Definition decodes_nil {T} (d : N) (dec : unmarshal.decoder T) (b : bytes) (old new : T) : Prop :=
  exists v, reads d b v /\ dec v old = Some new.

Lemma decodes_any {T} d (dec : unmarshal.decoder T) b old new : decodes d dec b old new -> decodes_nil d dec b old new.
Proof. intros (v & H & _ & E). by exists v. Qed.

(** ** Scalars *)

Lemma decodes_string d s old : utf8 s -> decodes d unmarshal.decode_string (quoteString s) old s.
Proof.
  intros H. eexists. split_and!; [by apply reads_string|done|]. cbn. by rewrite string_of_bytes_of.
Qed.

Lemma decodes_uuid d id old : is_uuid id -> decodes d unmarshal.decode_uuid (MarshalUUID id) old id.
Proof.
  intros H. eexists. split_and!; [apply reads_string, UuidString_utf8|done|].
  unfold unmarshal.decode_uuid. by rewrite string_of_bytes_of, Parse_UuidString.
Qed.

Lemma decimal_ParseUint n : is_u64 n -> ParseUint (decimal 1 n) = Some n.
Proof.
  intros [Hn Hu]. unfold ParseUint, decimal. rewrite (proj2 (Z.ltb_ge n 0)) by lia.
  pose proof (decimal_width 1 n ltac:(lia) Hn) as Hw. pose proof (width_least (Z.to_nat (Z.log2 n)) 1 n) as Hl.
  set (k := width _ 1 n) in *.
  rewrite bool_decide_eq_false_2 by (intros E; apply (f_equal length) in E; rewrite pad_digits_length in E; cbn in E; lia).
  rewrite (proj2 (forallb_forall _ _)).
  2: { intros c Hc%list_elem_of_In. by apply (proj1 (Forall_forall _ _) (pad_digits_digits k n Hn)). }
  rewrite pad_digits_value, Z.mod_small by lia. cbn [orb negb]. by rewrite (proj2 (Z.ltb_lt _ _)).
Qed.

Lemma decodes_uint64 d n old : is_u64 n -> decodes d unmarshal.decode_uint64 (MarshalInt n) old n.
Proof. intros H. eexists. split_and!; [apply reads_int, H|done|]. by apply decimal_ParseUint. Qed.

Lemma decodes_time {P : Platform} d t b old :
  MarshalTimeIn t = Some b -> location t = UTCLoc -> decodes d (decode_time fixed_zone) b old t.
Proof.
  unfold MarshalTimeIn, evidence.MarshalTimeIn. intros H Hl. rewrite Hl in H.
  eexists. split_and!; [by apply reads_time|done|]. by eapply decode_time_marshalled.
Qed.

(** ** Composites *)

Lemma decodes_pointer {A B} d (to : A -> B) (zero : A) dec (f : B -> option bytes) o b :
  (forall x b, o = Some x -> f x = Some b -> exists a, to a = x /\ decodes d dec b zero a) ->
  MarshalPointer f o = Some b ->
  exists a, to <$> a = o /\ decodes_nil d (unmarshal.decode_pointer zero dec) b None a.
Proof.
  intros Hf. destruct o as [x|]; cbn; intros H.
  - destruct (Hf x b eq_refl H) as (a & <- & v & Hv & Hn & E). exists (Some a). split; [done|]. exists v. split; [done|].
    destruct v; cbn; try done; by rewrite E.
  - injection H as <-. exists None. split; [done|]. exists RNull. split; [apply reads_null|done].
Qed.

Lemma decodes_elements {A B} d (to : A -> B) (zero : A) dec (f : B -> option bytes) l bs :
  (forall x b, x ∈ l -> f x = Some b -> exists a, to a = x /\ decodes d dec b zero a) ->
  mapM f l = Some bs ->
  exists vs r, Forall2 (reads d) bs vs /\ to <$> r = l /\ unmarshal.decode_elements zero dec vs [] = Some r.
Proof.
  revert bs. induction l as [|x l IH]; intros bs Hf H.
  - injection H as <-. exists [], []. split_and!; [constructor|done..].
  - cbn in H. destruct (f x) as [b|] eqn:Ex; [|done]. destruct (mapM f l) as [bs'|] eqn:El; [|done]. injection H as <-.
    destruct (Hf x b) as (a & <- & v & Hv & _ & Ea); [left|done|].
    destruct (IH bs') as (vs & r & Hvs & <- & Er); [|done|].
    { intros y c Hy. apply Hf. by right. }
    exists (v :: vs), (a :: r). split_and!; [by constructor|done|]. cbn. by rewrite Ea, Er.
Qed.

Lemma decodes_slice {A B} d (to : A -> B) (zero : A) dec (f : B -> option bytes) l b :
  (0 < d)%N -> (forall x b, x ∈ l -> f x = Some b -> exists a, to a = x /\ decodes (d - 1) dec b zero a) ->
  MarshalSlice f l = Some b ->
  exists s, to <$> items s = l /\ decodes_nil d (unmarshal.decode_slice zero dec) b nil_slice s.
Proof.
  intros Hd Hf. destruct l as [|x l]; cbn [MarshalSlice].
  - intros [= <-]. exists nil_slice. split; [done|]. exists RNull. split; [apply reads_null|done].
  - destruct (mapM f (x :: l)) as [bs|] eqn:E; [|done]. intros [= <-].
    destruct (decodes_elements _ to zero dec f _ _ Hf E) as (vs & r & Hvs & Hr & Er).
    exists (MkSlice r []). split; [done|]. eexists. split; [by apply reads_array|].
    destruct vs as [|v vs]; [|cbn [unmarshal.decode_slice items spare nil_slice app]; rewrite Er; by rewrite drop_nil].
    destruct bs as [|c bs]; [|inversion Hvs]. cbn in E. destruct (f x); [|done]. by destruct (mapM f l).
Qed.

Lemma decodes_strings d l b :
  (0 < d)%N -> Forall utf8 l -> MarshalSlice MarshalString l = Some b ->
  exists s, items s = l /\ decodes_nil d (unmarshal.decode_slice EmptyString unmarshal.decode_string) b nil_slice s.
Proof.
  intros Hd Hl H. destruct (decodes_slice d id EmptyString unmarshal.decode_string MarshalString l b Hd) as (s & Hs & Hb).
  - intros x c Hx [= <-]. exists x. split; [done|]. apply decodes_string. by apply (proj1 (Forall_forall _ _) Hl).
  - done.
  - exists s. rewrite list_fmap_id in Hs. done.
Qed.

(** ** Structs *)

Inductive decodes_fields {T} (d : N) (fields : list (string * unmarshal.decoder T)) : list (string * bytes) -> T -> T -> Prop :=
  | decodes_done t : decodes_fields d fields [] t t
  | decodes_field n b enc dec t t' t'' :
      utf8 n -> unmarshal.field_of fields (bytes_of n) = Some dec -> decodes_nil d dec b t t' ->
      decodes_fields d fields enc t' t'' -> decodes_fields d fields ((n, b) :: enc) t t''.

Lemma decodes_into {T A} d (get : T -> A) set dec b t a :
  decodes_nil d dec b (get t) a -> decodes_nil d (unmarshal.into get set dec) b t (set a t).
Proof. intros (v & Hv & E). exists v. split; [done|]. unfold unmarshal.into. by rewrite E. Qed.

Lemma decodes_fields_members {T} d (fields : list (string * unmarshal.decoder T)) enc t t' :
  decodes_fields d fields enc t t' ->
  exists vs, Forall2 (fun f v => utf8 f.1 /\ reads d f.2 v) enc vs /\
    unmarshal.decode_members fields (zip (bytes_of ∘ fst <$> enc) vs) t = Some t'.
Proof.
  induction 1 as [t|n b enc dec t t' t'' Hn Hf (v & Hv & E) _ (vs & Hvs & Em)].
  - exists []. split; [constructor|done].
  - exists (v :: vs). split; [by constructor|]. change (zip _ _) with ((bytes_of n, v) :: zip (bytes_of ∘ fst <$> enc) vs).
    cbn [unmarshal.decode_members]. rewrite Hf, E. exact Em.
Qed.

Lemma decodes_struct {T} d (fields : list (string * unmarshal.decoder T)) enc t t' :
  (0 < d)%N -> decodes_fields (d - 1) fields enc t t' -> decodes d (unmarshal.decode_struct fields) (struct enc) t t'.
Proof.
  intros Hd (vs & Hvs & E)%decodes_fields_members. eexists. split_and!; [by apply reads_struct|done|exact E].
Qed.

(** The next field of a struct, whose name is the next of the decoder. *)
Ltac next_field :=
  eapply decodes_field; [apply utf8_ascii; reflexivity|reflexivity|apply decodes_into|].
