(* ===== verification/ArchiveProperties.v ===== *)
(** * What is imported is what was exported *)

From Stdlib Require Import Ascii String.
From S2P Require Import Prelude GoTime GoString Uuid GoCrypto GoJson GoParse GoJsonText GoJsonStruct GoJsonDecode GoUnmarshal.
From S2P Require Import GoJsonReads GoTimeFormat GoTimeParse GoZip Policy Bundle BundleSigning BundleProperties BundleVerified.
From S2P Require Import GoCodec PolicyRegistry BundleExamples EvidenceSets PolicyAdmission Archive.
Import evidencebundle signing archives.

(** ** Paths *)

Lemma split_byte_no n b : Forall (fun c => existsb (byte_is n) c = false) (split_byte n b).
Proof.
  induction b as [|c b IH]; cbn [split_byte]; [by repeat constructor|]. destruct (byte_is n c) eqn:E; [by constructor|].
  destruct (split_byte n b) as [|part parts]; [by repeat constructor; cbn; rewrite E|]. inversion IH; subst.
  constructor; [|done]. cbn [existsb]. by rewrite E.
Qed.

(** An element that is kept is not empty and has no slash. *)
Definition element (c : bytes) : Prop := c <> [] /\ existsb (byte_is 47) c = false.

Lemma clean_elements_kept rooted kept l :
  Forall element kept -> Forall (fun c => existsb (byte_is 47) c = false) l -> Forall element (clean_elements rooted kept l).
Proof.
  intros Hk Hl. revert kept Hk. induction Hl as [|c l Hc Hl IH]; intros kept Hk; cbn [clean_elements].
  { by apply List.Forall_rev. }
  destruct (_ || _) eqn:E; [by apply IH|]. apply orb_false_iff in E as [E _]. apply bool_decide_eq_false in E.
  assert (element c) as He by (by split).
  destruct (c == bytes_of ".."); [|apply IH; by apply List.Forall_cons].
  destruct Hk as [|top kept Ht Hk].
  - destruct rooted; apply IH; [done|by apply List.Forall_cons].
  - destruct (top == bytes_of ".."); apply IH; [by repeat apply List.Forall_cons|done].
Qed.

Lemma join_slash_last l c : Forall element l -> last (join_slash l) = Some c -> byte_is 47 c = false.
Proof.
  induction 1 as [|d l [Hd Hs] Hl IH]; [done|]. cbn [join_slash]. destruct l as [|e l].
  - intros Hc. apply not_true_is_false. intros Ht. apply not_true_iff_false in Hs. apply Hs. apply existsb_exists.
    exists c. split; [|done]. apply list_elem_of_In. rewrite last_lookup in Hc. by eapply list_elem_of_lookup_2.
  - rewrite last_app, last_cons. destruct (last (join_slash (e :: l))) as [x|] eqn:El; [done|].
    apply last_None in El. inversion Hl as [|? ? [He _] _]; subst. cbn [join_slash] in El.
    destruct l; [done|]. by apply app_eq_nil in El as [-> _].
Qed.

(** A valid path names no directory. *)
Lemma valid_no_dir p e offset : validArchivePath p = true -> zip.path e = p -> zip.IsDir (zip.file_of e offset) = false.
Proof.
  unfold validArchivePath. rewrite !andb_true_iff, !negb_true_iff. intros ((((((He & _) & Hr) & _) & Hc) & _) & _) Hp.
  unfold zip.IsDir. cbn [zip.CreatorVersion zip.ExternalAttrs zip.Name zip.file_of]. rewrite Hp.
  apply bool_decide_eq_true in Hc. apply bool_decide_eq_false in He. unfold Clean in Hc.
  assert (match bytes_of p with c :: _ => byte_is 47 c | [] => false end = false) as Hroot.
  { destruct p as [|c p]; [done|]. change (byte_is 47 c = false). destruct (byte_is 47 c) eqn:E; [|done].
    apply N.eqb_eq in E. assert (c = "/"%char) as -> by (rewrite <- (ascii_N_embedding c), E; reflexivity). by destruct p. }
  rewrite Hroot in Hc. cbn [app] in Hc. destruct (bool_decide _) eqn:En.
  { by rewrite <- Hc. }
  destruct (last (bytes_of p)) as [c|] eqn:El; [|done]. rewrite <- Hc, bytes_of_string_of in El.
  cbn [existsb]. rewrite (join_slash_last (clean_elements false [] (split_byte 47 (bytes_of p))) c); [done| |exact El]. apply clean_elements_kept; [done|apply split_byte_no].
Qed.

(** ** Writing *)

(** The entries by their paths. *)
Definition entry_map (l : list zip.Entry) : gmap string bytes := list_to_map ((fun e => (zip.path e, zip.payload e)) <$> l).

Lemma entry_paths (l : list zip.Entry) : ((fun e => (zip.path e, zip.payload e)) <$> l).*1 = zip.path <$> l.
Proof. by rewrite <- list_fmap_compose. Qed.

Lemma entry_map_perm l k : NoDup (zip.path <$> l) -> l ≡ₚ k -> entry_map l = entry_map k.
Proof. intros Hl Hp. apply list_to_map_proper; [by rewrite entry_paths|by rewrite Hp]. Qed.

Lemma writeEntries_names w open l :
  writeEntries w open l = None -> Forall (fun e => Z.of_nat (length (bytes_of (zip.path e))) < 2 ^ 16) l.
Proof.
  revert w open. induction l as [|e l IH]; intros w open H; [constructor|]. cbn [writeEntries] in H.
  destruct (MaxArchiveSize <? _); [done|]. cbv zeta in H. destruct (zip.uint16max <? _) eqn:E; [done|].
  constructor; [unfold zip.uint16max in E; lia|by eapply IH].
Qed.

Lemma locals_payload e l : e ∈ l -> (length (zip.payload e) <= length (zip.locals l))%nat.
Proof.
  induction 1 as [|e f l _ IH]; cbn [zip.locals]; rewrite length_app; [rewrite zip.local_length|]; lia.
Qed.

Section archives.
Context {P : Platform} {L : PlatformLaws P} {A : ArchivePlatform} {AL : ArchiveLaws A}.

(** What an archive that was written holds. *)
Record written (l : list zip.Entry) (p : bytes) : Prop := {
  wr_archive : p = zip.archive (sort_entries l);
  wr_fits : zip.archive_fits (sort_entries l);
  wr_size : Z.of_nat (length p) <= MaxArchiveSize;
  wr_entries : (0 < length l <= MaxArchiveEntries)%nat
}.

Lemma writeArchive_ok l p : writeArchive l = Ok p -> written l p.
Proof.
  unfold writeArchive. destruct (_ || _) eqn:E1; [done|]. cbv zeta. destruct (writeEntries _ _ _) eqn:E2; [done|].
  destruct (MaxArchiveSize <? _) eqn:E3; [done|]. intros [= <-]. apply orb_false_iff in E1 as [E1 E4].
  apply Nat.eqb_neq in E1. apply Nat.ltb_ge in E4. pose proof (sort_entries_perm l) as Hp. pose proof (Permutation_length Hp) as Hl.
  unfold MaxArchiveSize, MaxArchiveEntries in *. split; [done| |unfold MaxArchiveSize; lia|unfold MaxArchiveEntries; lia].
  split_and!; [| |lia|lia].
  - intros Hn. rewrite Hn in Hl. cbn in Hl. lia.
  - apply Forall_forall. intros e He. split; [by apply (proj1 (Forall_forall _ _) (writeEntries_names _ _ _ E2))|].
    apply locals_payload in He. rewrite zip.archive_length in E3. lia.
Qed.

(** ** Reading *)

Lemma readEntries_files p l offset total entries :
  map (zip.readFile p) (zip.files_of offset l) = map (fun e => Some (zip.payload e)) l ->
  Forall (fun e => validArchivePath (zip.path e) = true) l -> NoDup (zip.path <$> l) ->
  (forall e, e ∈ l -> entries !! zip.path e = None) ->
  0 <= total -> total + Z.of_nat (length (zip.locals l)) <= MaxArchiveSize ->
  readEntries p total entries (zip.files_of offset l) = Ok (entries ∪ entry_map l).
Proof.
  revert offset total entries. induction l as [|e l IH]; intros offset total entries Hr Hv Hd Hn Ht Hs.
  { unfold entry_map. cbn. by rewrite (right_id_L ∅ (∪)). }
  cbn [zip.files_of map zip.locals] in *. rewrite length_app, zip.local_length in Hs. apply cons_split in Hr as [Hr Hrs].
  inversion Hv as [|? ? Hve Hvl]; subst. apply NoDup_cons in Hd as [Hd Hdl]. cbn [readEntries].
  rewrite (valid_no_dir _ e offset Hve) by done. cbn [zip.Name zip.file_of zip.Method zip.UncompressedSize64]. rewrite Hve. cbn [negb orb Z.eqb].
  rewrite (bool_decide_eq_false_2 (is_Some (entries !! zip.path e))) by (rewrite Hn by left; by intros [? ?]).
  replace (_ || _) with false by lia. unfold readArchiveEntry. rewrite Hr. cbn [zip.UncompressedSize64 zip.file_of].
  replace (MaxArchiveSize <? Z.of_nat (length (zip.payload e))) with false by lia.
  rewrite bool_decide_eq_true_2 by done. cbn [negb orb obind]. rewrite IH; [| |done..| |lia|lia].
  - f_equal. unfold entry_map at 2. cbn [fmap list_fmap list_to_map foldr]. fold (entry_map l).
    cbn. by rewrite <- insert_union_r, insert_union_l by (apply Hn; left).
  - done.
  - intros f Hf. rewrite lookup_insert_ne; [apply Hn; by right|]. intros E. apply Hd. rewrite E. by apply list_elem_of_fmap_2.
Qed.

(** What was written is read back. *)
Lemma readArchive_written l p :
  written l p -> Forall (fun e => validArchivePath (zip.path e) = true) l -> NoDup (zip.path <$> l) ->
  readArchive p = Ok (entry_map l).
Proof.
  intros [-> Hf Hs Hn] Hv Hd. unfold readArchive.
  pose proof (sort_entries_perm l) as Hp. pose proof (zip.archive_length (sort_entries l)) as Hl.
  replace (_ =? 0)%nat with false by (symmetry; apply Nat.eqb_neq; lia). replace (MaxArchiveSize <? _) with false by lia.
  rewrite zip.NewReader_archive by done.
  assert (length (zip.files_of 0 (sort_entries l)) = length l) as Hlen by (by rewrite zip.files_of_length, Hp).
  rewrite Hlen. replace (_ || _) with false by (symmetry; apply orb_false_iff; rewrite Nat.eqb_neq, Nat.ltb_ge; lia).
  rewrite readEntries_files.
  - rewrite (left_id_L ∅ (∪)). f_equal. symmetry. by apply entry_map_perm.
  - by apply zip.readFile_archive.
  - by rewrite Hp.
  - by rewrite Hp.
  - intros e _. apply lookup_empty.
  - done.
  - lia.
Qed.

(** ** The JSON of an archive *)

Lemma decimal_Atoi n : 0 <= n < 2 ^ 63 -> Atoi (decimal 1 n) = Some n.
Proof.
  intros [Hn Hu]. unfold Atoi, decimal. rewrite (proj2 (Z.ltb_ge n 0)) by lia.
  pose proof (decimal_width 1 n ltac:(lia) Hn) as Hw. pose proof (width_least (Z.to_nat (Z.log2 n)) 1 n) as Hl.
  set (k := width _ 1 n) in *. pose proof (pad_digits_digits k n Hn) as Hd. pose proof (pad_digits_length k n) as Hk.
  pose proof (pad_digits_value k n) as Hv. rewrite Z.mod_small in Hv by lia. specialize (Hv Hn).
  destruct (pad_digits k n) as [|c b]; [cbn in Hk; lia|].
  assert (byte_is 45 c = false /\ byte_is 43 c = false) as [-> ->].
  { inversion Hd as [|? ? Hc _]; subst. clear -Hc. unfold is_digit, byte_in, byte_is in *. lia. }
  cbv beta iota zeta. rewrite bool_decide_eq_false_2 by done. rewrite (proj2 (forallb_forall _ _)).
  2: { intros x Hx%list_elem_of_In. by apply (proj1 (Forall_forall _ _) Hd). }
  cbn [orb negb]. change (GoParse.digits_value (c :: b)) with (digits_value (c :: b)). rewrite Hv. unfold i64_min, i64_max. by replace (_ && _) with true by lia.
Qed.

Lemma decodes_int64 d n old : 0 <= n < 2 ^ 63 -> decodes d decode_int64 (MarshalInt n) old n.
Proof. intros H. eexists. split_and!; [apply reads_int, H|done|]. by apply decimal_Atoi. Qed.

(** What JSON holds of a descriptor and a reference. *)
Definition plain_descriptor (x : ObjectDescriptor) : Prop := utf8_descriptor x /\ Size x < 2 ^ 63.

Definition plain_reference (r : PolicyReference) : Prop := utf8 (PolicyID r) /\ utf8 (PolicyVersion r) /\ utf8 (PolicyHash r).

Ltac scalar :=
  first [apply decodes_any, decodes_string; assumption | apply decodes_any, decodes_uuid; assumption
        |apply decodes_any, decodes_int64; split; assumption | apply decodes_any; eapply decodes_time; eassumption | eassumption].

Ltac fields := repeat (next_field; [scalar|]); apply decodes_done.

Lemma decodes_descriptor d x : (0 < d)%N -> plain_descriptor x -> decodes d decode_descriptor (MarshalDescriptor x) zeroDescriptor x.
Proof.
  intros Hd [(H1 & H2 & H3 & H4) H5]. destruct x. cbn in *. apply decodes_struct; [lia|fields].
Qed.

Lemma decodes_policy_reference d r :
  (0 < d)%N -> plain_reference r -> decodes d decode_policy_reference (MarshalReference r) zeroReference r.
Proof. intros Hd (H1 & H2 & H3). destruct r. cbn in *. apply decodes_struct; [lia|fields]. Qed.

Lemma decodes_descriptors d o :
  (1 < d)%N -> Forall plain_descriptor (default [] o) ->
  exists q, items <$> q = o /\ decodes_nil d (decode_nilable zeroDescriptor decode_descriptor) (MarshalDescriptors o) None q.
Proof.
  intros Hd H. destruct o as [l|]; [|exists None; split; [done|]; exists RNull; split; [apply reads_null|done]]. cbn [from_option id] in H.
  assert (mapM (fun x => Some (MarshalDescriptor x)) l = Some (MarshalDescriptor <$> l)) as Em.
  { apply mapM_Some. clear. induction l; by constructor. }
  destruct (decodes_elements (d - 1) id zeroDescriptor decode_descriptor (fun x => Some (MarshalDescriptor x)) l (MarshalDescriptor <$> l)) as (vs & r & Hvs & Hr & Er).
  { intros x b Hx [= <-]. exists x. split; [done|]. apply decodes_descriptor; [lia|]. by apply (proj1 (Forall_forall _ _) H). }
  { exact Em. }
  rewrite list_fmap_id in Hr. subst r. exists (Some (MkSlice l [])). split; [done|]. eexists. split; [apply reads_array; [lia|exact Hvs]|].
  unfold decode_nilable, unmarshal.decode_pointer. destruct vs as [|v vs].
  - apply Forall2_length in Hvs. destruct l; [done|]. by rewrite length_fmap in Hvs.
  - cbn [unmarshal.decode_slice default items spare nil_slice app from_option]. rewrite Er. by rewrite drop_nil.
Qed.

Record plain_manifest (m : Manifest) : Prop := {
  pm_text : utf8 (SchemaVersion m) /\ utf8 (ManifestHashAlgorithm m) /\ utf8 (BundleRoot m);
  pm_ids : is_uuid (BundleID m) /\ is_uuid (EvaluationID m) /\ is_uuid (SessionID m);
  pm_time : location (GeneratedAt m) = UTCLoc;
  pm_policy : plain_reference (ManifestPolicy m);
  pm_objects : Forall plain_descriptor (descriptors m)
}.

Lemma decodes_manifest d m b :
  (2 < d)%N -> plain_manifest m -> MarshalManifest m = Some b ->
  exists j, toManifest j = m /\ decodes d decode_manifest b zeroManifest j.
Proof.
  intros Hd [(T1 & T2 & T3) (I1 & I2 & I3) Ht Hp Ho]. unfold MarshalManifest.
  destruct (MarshalTimeIn (GeneratedAt m)) as [t|] eqn:Et; [|done]. intros [= <-].
  destruct (decodes_descriptors (d - 1) (ManifestObjects m)) as (q & Hq & Hb); [lia|done|].
  pose proof (decodes_any _ _ _ _ _ (decodes_policy_reference (d - 1) (ManifestPolicy m) ltac:(lia) Hp)) as Hr.
  eexists. split; [|apply decodes_struct; [lia|fields]]. destruct m. cbn in *. by subst.
Qed.

Record plain_signature (s : Signature) : Prop := {
  pg_text : utf8 (SignatureSchema s) /\ utf8 (Algorithm s) /\ utf8 (SignatureHashAlgorithm s) /\ utf8 (KeyID s) /\
    utf8 (SignerID s) /\ utf8 (SignedManifestHash s) /\ utf8 (BundleRootHash s) /\ utf8 (Value s);
  pg_time : location (SigningTime s) = UTCLoc
}.

Lemma decodes_signature d s b :
  (0 < d)%N -> plain_signature s -> MarshalSignature s = Some b -> decodes d decode_signature b zeroSignature s.
Proof.
  intros Hd [(T1 & T2 & T3 & T4 & T5 & T6 & T7 & T8) Ht]. unfold MarshalSignature.
  destruct (MarshalTimeIn (SigningTime s)) as [t|] eqn:Et; [|done]. intros [= <-]. destruct s. cbn in *.
  apply decodes_struct; [lia|fields].
Qed.

Record plain_timestamp (t : TrustedTimestamp) : Prop := {
  pt_text : utf8 (TimestampSchema t) /\ utf8 (TimestampSignatureAlgorithm t) /\ utf8 (TimestampHashAlgorithm t) /\
    utf8 (AuthorityID t) /\ utf8 (TimestampKeyID t) /\ utf8 (SerialNumber t) /\ utf8 (SignatureHash t) /\
    utf8 (TimestampRootHash t) /\ utf8 (TimestampValue t);
  pt_issued : location (IssuedAt t) = UTCLoc
}.

Lemma decodes_timestamp d t b :
  (0 < d)%N -> plain_timestamp t -> MarshalTimestamp t = Some b -> decodes d decode_timestamp b zeroTimestamp t.
Proof.
  intros Hd [(T1 & T2 & T3 & T4 & T5 & T6 & T7 & T8 & T9) Ht]. unfold MarshalTimestamp.
  destruct (MarshalTimeIn (IssuedAt t)) as [i|] eqn:Et; [|done]. intros [= <-]. destruct t. cbn in *.
  apply decodes_struct; [lia|fields].
Qed.

Lemma decodes_Unmarshal {T} (dec : unmarshal.decoder T) b old new :
  decodes json.maxNestingDepth dec b old new -> unmarshal.Unmarshal dec b old = Some new.
Proof. intros (v & Hv & _ & E). unfold unmarshal.Unmarshal. by rewrite (reads_tree _ _ Hv). Qed.

(** ** The entries of a bundle *)

Definition object_entry (o : Object) : zip.Entry := zip.MkEntry (ObjectEntryPrefix ++ Path o) (Payload o).

Lemma object_path_inj p q : (ObjectEntryPrefix ++ p)%string = (ObjectEntryPrefix ++ q)%string -> p = q.
Proof. by intros [=]. Qed.

Lemma objectArchivePath_ok p r : objectArchivePath p = Ok r -> r = (ObjectEntryPrefix ++ p)%string /\ validArchivePath r = true.
Proof.
  unfold objectArchivePath. cbv zeta. destruct (validArchivePath _) eqn:E; [|done]. cbn [negb orb].
  destruct (String.prefix _ _); [|done]. by intros [= <-].
Qed.

Lemma objectEntries_ok l entries :
  objectEntries l = Ok entries ->
  entries = object_entry <$> l /\ Forall (fun o => objectArchivePath (Path o) = Ok (ObjectEntryPrefix ++ Path o)%string) l.
Proof.
  revert entries. induction l as [|o l IH]; intros entries; cbn [objectEntries]; [by intros [= <-]|].
  intros (p & Hp & H)%obind_ok. apply obind_ok in H as (es & He & [= <-]). apply IH in He as [-> Hf].
  pose proof (objectArchivePath_ok _ _ Hp) as [-> _]. split; [done|by constructor].
Qed.

Lemma bundleArchiveEntries_ok b l :
  bundleArchiveEntries b = Ok l ->
  Verify b = None /\ Forall (fun o => objectArchivePath (Path o) = Ok (ObjectEntryPrefix ++ Path o)%string) (Objects b) /\
  exists payload, CanonicalManifest (BundleManifest b) = Ok payload /\
    l = zip.MkEntry ManifestEntryPath payload :: (object_entry <$> Objects b).
Proof.
  unfold bundleArchiveEntries. destruct (Verify b); [done|]. intros (payload & Hp & H)%obind_ok.
  destruct (_ <? _)%nat; [done|]. apply obind_ok in H as (es & He & [= <-]). apply objectEntries_ok in He as [-> Hf].
  split_and!; [done..|]. by exists payload.
Qed.

Lemma object_entries_valid l :
  Forall (fun o => objectArchivePath (Path o) = Ok (ObjectEntryPrefix ++ Path o)%string) l ->
  Forall (fun e => validArchivePath (zip.path e) = true) (object_entry <$> l).
Proof. intros H. apply Forall_fmap. eapply Forall_impl; [exact H|]. intros o Ho. by apply objectArchivePath_ok in Ho as [_ Ho]. Qed.

Lemma object_entries_distinct l : NoDup (Path <$> l) -> NoDup (zip.path <$> (object_entry <$> l)).
Proof.
  intros H. rewrite <- list_fmap_compose. change (zip.path ∘ object_entry) with ((fun p => ObjectEntryPrefix ++ p)%string ∘ Path).
  rewrite list_fmap_compose. apply NoDup_fmap_2; [|done]. intros p q. apply object_path_inj.
Qed.

Lemma entry_map_cons e l : entry_map (e :: l) = <[zip.path e := zip.payload e]> (entry_map l).
Proof. reflexivity. Qed.

Lemma entry_map_absent p l : p ∉ zip.path <$> l -> entry_map l !! p = None.
Proof. intros H. apply not_elem_of_list_to_map. by rewrite entry_paths. Qed.

Lemma entry_map_size l : NoDup (zip.path <$> l) -> size (entry_map l) = length l.
Proof. intros H. unfold entry_map. rewrite map_size_list_to_map; [by rewrite length_fmap|by rewrite entry_paths]. Qed.

Lemma takeObjects_all l :
  NoDup (Path <$> l) -> Forall (fun o => objectArchivePath (Path o) = Ok (ObjectEntryPrefix ++ Path o)%string) l ->
  takeObjects (entry_map (object_entry <$> l)) (describe <$> l) = Ok (l, ∅).
Proof.
  induction l as [|o l IH]; intros Hd Hf; [done|]. pose proof (object_entries_distinct _ Hd) as Hde.
  cbn [fmap list_fmap takeObjects] in *. inversion Hf as [|? ? Ho Hfl]; subst. apply NoDup_cons in Hd as [_ Hd], Hde as [Hn _].
  change (DescriptorPath (describe o)) with (Path o). rewrite Ho. cbn [obind]. rewrite entry_map_cons.
  change (zip.path (object_entry o)) with (ObjectEntryPrefix ++ Path o)%string in *. rewrite lookup_insert_eq.
  rewrite delete_insert_id by (by apply entry_map_absent). rewrite IH by done. by destruct o.
Qed.

(** ** The bundle of an archive *)

(** A bundle with its objects in the order of the archive. *)
Definition archived (b : Bundle) : Bundle := MkBundle (BundleManifest b) (sort_objects (Objects b)).

(** Objects that their paths tell apart, of sizes that an [int64] holds. *)
Record distinct_objects (b : Bundle) : Prop := {
  do_paths : NoDup (Path <$> Objects b);
  do_sizes : Forall (fun o => Z.of_nat (length (Payload o)) < 2 ^ 63) (Objects b)
}.

Lemma distinct_fixed (l : list Object) : NoDup (Path <$> l) -> forall o p, o ∈ l -> p ∈ l -> Path o = Path p -> o = p.
Proof.
  intros H o p [i Hi]%list_elem_of_lookup_1 [j Hj]%list_elem_of_lookup_1 E.
  assert (i = j) as <-; [|congruence].
  apply (NoDup_lookup _ i j (Path o) H); rewrite list_lookup_fmap; [by rewrite Hi|by rewrite Hj, E].
Qed.

Lemma archived_verifies b : NoDup (Path <$> Objects b) -> Verify b = None -> Verify (archived b) = None.
Proof.
  intros Hd (Hi & Hr & Ho & Hv)%Verify_iff. apply Verify_iff. cbn [BundleManifest Objects archived]. split_and!; try done.
  - rewrite Ho. f_equal. symmetry. apply sort_objects_fixed; [|apply sort_objects_sorted].
    apply distinct_fixed. by rewrite sort_objects_perm.
  - by rewrite sort_objects_perm.
Qed.

Lemma portable_manifest b : Verify b = None -> portable b -> distinct_objects b -> plain_manifest (BundleManifest b).
Proof.
  intros Hv Hp [_ Hs]. pose proof (described_utf8 b Hv Hp) as Hu. apply Verify_iff in Hv as (Hi & Hr & Ho & _).
  apply identified_text in Hi as [T1 T2]. destruct Hp as [I1 I2 I3 Ht Hq _]. split; try done.
  - split_and!; [done|done|]. rewrite Hr. apply digest_utf8.
  - rewrite Ho in *. apply Forall_forall. intros x Hx. split; [by apply (proj1 (Forall_forall _ _) Hu)|].
    apply list_elem_of_fmap in Hx as (o & -> & Hx). rewrite sort_objects_perm in Hx. by apply (proj1 (Forall_forall _ _) Hs).
Qed.

Lemma CanonicalManifest_ok m payload : CanonicalManifest m = Ok payload -> MarshalManifest m = Some payload.
Proof.
  unfold CanonicalManifest. destruct (_ != _); [done|]. destruct (MarshalManifest m); [|done]. by intros [= <-].
Qed.

Lemma is_canonical_same p : is_canonical (Ok p) p = true.
Proof. by apply bool_decide_eq_true. Qed.

(** The entries of a bundle are read as the bundle. *)
Lemma bundleFromArchiveEntries_entries b payload :
  Verify b = None -> portable b -> distinct_objects b ->
  Forall (fun o => objectArchivePath (Path o) = Ok (ObjectEntryPrefix ++ Path o)%string) (Objects b) ->
  CanonicalManifest (BundleManifest b) = Ok payload ->
  bundleFromArchiveEntries (entry_map (zip.MkEntry ManifestEntryPath payload :: (object_entry <$> Objects b))) = Ok (archived b).
Proof.
  intros Hv Hp Hd Hf Hc. pose proof (portable_manifest b Hv Hp Hd) as Hm. pose proof (CanonicalManifest_ok _ _ Hc) as Hmm.
  destruct (decodes_manifest json.maxNestingDepth _ _ eq_refl Hm Hmm) as (j & Hj & Hdec). destruct Hd as [Hd _].
  pose proof (sort_objects_perm (Objects b)) as Hperm. pose proof (archived_verifies b Hd Hv) as Hva.
  apply Verify_iff in Hv as (_ & _ & Ho & _).
  unfold bundleFromArchiveEntries. rewrite entry_map_cons. cbn [zip.path zip.payload]. rewrite lookup_insert_eq.
  rewrite delete_insert_id by (apply entry_map_absent; rewrite <- list_fmap_compose; by intros (o & [=] & _)%list_elem_of_fmap).
  rewrite (entry_map_perm (object_entry <$> Objects b) (object_entry <$> sort_objects (Objects b)))
    by (by apply object_entries_distinct || by rewrite Hperm).
  rewrite (decodes_Unmarshal _ _ _ _ Hdec), Hj, Hc, is_canonical_same. cbn [negb]. rewrite Ho.
  rewrite entry_map_size by (apply object_entries_distinct; by rewrite Hperm). rewrite !length_fmap, Nat.eqb_refl. cbn [negb].
  rewrite takeObjects_all by (by rewrite Hperm). cbn [obind fst snd]. rewrite map_size_empty. cbn [Nat.eqb negb].
  change (MkBundle (BundleManifest b) (sort_objects (Objects b))) with (archived b). by rewrite Hva.
Qed.

Lemma distinct_sizes b l p :
  NoDup (Path <$> Objects b) -> written l p -> (object_entry <$> Objects b) ⊆+ l -> distinct_objects b.
Proof.
  intros Hd [-> _ Hs _] Hl. split; [done|]. apply Forall_forall. intros o Ho.
  assert (object_entry o ∈ sort_entries l) as He%locals_payload.
  { rewrite sort_entries_perm. eapply elem_of_submseteq; [|exact Hl]. by apply list_elem_of_fmap_2. }
  rewrite zip.archive_length in Hs. unfold MaxArchiveSize in Hs. cbn [object_entry zip.payload] in He. lia.
Qed.

(** The entries of a bundle. *)
Definition bundle_entries (b : Bundle) (payload : bytes) : list zip.Entry :=
  zip.MkEntry ManifestEntryPath payload :: (object_entry <$> Objects b).

(** A bundle that [bundleArchiveEntries] packs. *)
Record packable (b : Bundle) (payload : bytes) : Prop := {
  pk_verified : Verify b = None;
  pk_portable : portable b;
  pk_paths : NoDup (Path <$> Objects b);
  pk_names : Forall (fun o => objectArchivePath (Path o) = Ok (ObjectEntryPrefix ++ Path o)%string) (Objects b);
  pk_manifest : CanonicalManifest (BundleManifest b) = Ok payload
}.

Lemma packed_entries b l :
  portable b -> NoDup (Path <$> Objects b) -> bundleArchiveEntries b = Ok l ->
  exists payload, packable b payload /\ l = bundle_entries b payload.
Proof. intros Hp Hd (Hv & Hf & payload & Hc & ->)%bundleArchiveEntries_ok. by exists payload. Qed.

(** Entries that are read back: of valid and distinct paths. *)
Definition readable (l : list zip.Entry) : Prop :=
  Forall (fun e => validArchivePath (zip.path e) = true) l /\ NoDup (zip.path <$> l).

Lemma bundle_entries_path b payload p : p ∈ zip.path <$> bundle_entries b payload -> p = ManifestEntryPath \/ String.prefix "objects/" p = true.
Proof.
  unfold bundle_entries. cbn [fmap list_fmap zip.path]. intros [->|H]%elem_of_cons; [by left|right].
  apply list_elem_of_fmap in H as (e & -> & H). apply list_elem_of_fmap in H as (o & -> & _). change (String.prefix "objects/" (ObjectEntryPrefix ++ Path o) = true). by destruct (Path o).
Qed.

Lemma bundle_entries_readable b payload extra :
  packable b payload -> Forall (fun e => zip.path e = SignatureEntryPath \/ zip.path e = TimestampEntryPath) extra ->
  NoDup (zip.path <$> extra) -> readable (bundle_entries b payload ++ extra).
Proof.
  intros [_ _ Hd Hf _] He Hn. split.
  - apply Forall_app. split; [constructor; [reflexivity|by apply object_entries_valid]|].
    eapply Forall_impl; [exact He|]. by intros e [-> | ->].
  - rewrite fmap_app. apply NoDup_app. split_and!; [| |done].
    + unfold bundle_entries. cbn [fmap list_fmap]. apply NoDup_cons. split; [|by apply object_entries_distinct].
      cbn [zip.path]. rewrite <- list_fmap_compose. by intros (o & [=] & _)%list_elem_of_fmap.
    + intros p H1%bundle_entries_path (e & -> & H2)%list_elem_of_fmap. apply (proj1 (Forall_forall _ _) He) in H2.
      destruct H1 as [E|E], H2 as [E2|E2]; rewrite E2 in E; done.
Qed.

Lemma bundle_entries_distinct b payload extra p :
  packable b payload -> written (bundle_entries b payload ++ extra) p -> distinct_objects b.
Proof.
  intros Hk Hw. eapply distinct_sizes; [apply Hk|exact Hw|]. unfold bundle_entries. cbn [app].
  apply submseteq_cons, submseteq_inserts_r. done.
Qed.

Lemma bundleFromArchiveEntries_packable b payload :
  packable b payload -> distinct_objects b -> bundleFromArchiveEntries (entry_map (bundle_entries b payload)) = Ok (archived b).
Proof. intros [] ?. by apply bundleFromArchiveEntries_entries. Qed.

(** C25: an archive brings back its bundle. Importing the bytes that were exported
    of a bundle whose text JSON carries unchanged and whose objects have distinct
    paths yields the same manifest and the same objects, in the order of their
    paths. The bytes are those of the zip file. *)
Theorem archive_round_trip b p :
  portable b -> NoDup (Path <$> Objects b) -> ExportArchive b = Ok p -> ImportArchive p = Ok (archived b).
Proof.
  intros Hp Hd (l & Hl & Hw%writeArchive_ok)%obind_ok. apply packed_entries in Hl as (payload & Hk & ->); [|done..].
  rewrite <- (app_nil_r (bundle_entries b payload)) in Hw.
  destruct (bundle_entries_readable b payload [] Hk) as [Hv Hn]; [constructor..|].
  unfold ImportArchive. rewrite (readArchive_written _ _ Hw Hv Hn). cbn [obind]. rewrite app_nil_r.
  apply bundleFromArchiveEntries_packable; [done|by eapply bundle_entries_distinct].
Qed.

(** ** Signed archives *)

Lemma entry_map_snoc l e : NoDup (zip.path <$> (l ++ [e])) -> entry_map (l ++ [e]) = <[zip.path e := zip.payload e]> (entry_map l).
Proof.
  intros H. rewrite (entry_map_perm (l ++ [e]) (e :: l)) by (exact H || (symmetry; apply Permutation_cons_append)). apply entry_map_cons.
Qed.

Lemma entry_map_last l e : NoDup (zip.path <$> (l ++ [e])) -> entry_map (l ++ [e]) !! zip.path e = Some (zip.payload e) /\
  delete (zip.path e) (entry_map (l ++ [e])) = entry_map l.
Proof.
  intros H. rewrite entry_map_snoc by done. split; [apply lookup_insert_eq|]. apply delete_insert_id, entry_map_absent.
  rewrite fmap_app in H. apply NoDup_app in H as (_ & H & _). intros Hin. by apply (H _ Hin), list_elem_of_singleton.
Qed.

Lemma CanonicalSignature_ok s b : CanonicalSignature s = Ok b -> MarshalSignature s = Some b.
Proof.
  unfold CanonicalSignature. destruct (_ != _); [done|]. destruct (MarshalSignature s); [|done]. by intros [= <-].
Qed.

Definition signature_entry (payload : bytes) : zip.Entry := zip.MkEntry SignatureEntryPath payload.
Definition timestamp_entry (payload : bytes) : zip.Entry := zip.MkEntry TimestampEntryPath payload.

(** The archive of a bundle and a signature is read as them. *)
Lemma ImportSignedArchive_written `{TS : !policy.TrustStore T} l b payload s sp p (store : option T) at_ :
  packable b payload -> plain_signature s -> CanonicalSignature s = Ok sp -> written l p ->
  l ≡ₚ bundle_entries b payload ++ [signature_entry sp] ->
  ImportSignedArchive p store at_ = VerifySignature (archived b) s store at_.
Proof.
  intros Hk Hs Hc Hw Hl. set (k := bundle_entries b payload ++ [signature_entry sp]) in *.
  assert (readable k) as [Hv Hn].
  { apply bundle_entries_readable; [done|constructor; [by left|done]|apply NoDup_singleton]. }
  assert (distinct_objects b) as Hd.
  { eapply distinct_sizes; [apply Hk|exact Hw|]. rewrite Hl. subst k. unfold bundle_entries. cbn [app].
    apply submseteq_cons, submseteq_inserts_r. done. }
  unfold ImportSignedArchive. rewrite (readArchive_written l p Hw) by by rewrite Hl. cbn [obind].
  rewrite (entry_map_perm l k) by (done || by rewrite Hl). destruct (entry_map_last _ _ Hn) as [El Ed].
  cbn [zip.path zip.payload signature_entry] in El, Ed. fold k in El, Ed. rewrite El, Ed.
  rewrite (decodes_Unmarshal decode_signature sp zeroSignature s)
    by (apply decodes_signature; [done|done|by apply CanonicalSignature_ok]).
  rewrite Hc, is_canonical_same. cbn [negb]. by rewrite bundleFromArchiveEntries_packable.
Qed.

(** Importing a signed archive is to verify the signature that was exported, of the
    bundle that was exported. *)
Lemma signed_archive_is_verified `{TS : !policy.TrustStore T} v p (store : option T) at_ :
  portable (VerifiedCopy v) -> NoDup (Path <$> Objects (VerifiedCopy v)) -> plain_signature (signature v) ->
  ExportSignedArchive (Some v) = Ok p ->
  ImportSignedArchive p store at_ = VerifySignature (archived (VerifiedCopy v)) (signature v) store at_.
Proof.
  intros Hp Hd Hs. unfold ExportSignedArchive. cbv zeta. destruct (validateSignatureBinding _ _ _); [done|].
  intros (sp & Hc & H)%obind_ok. apply obind_ok in H as (l & Hl & Hw%writeArchive_ok).
  apply packed_entries in Hl as (payload & Hk & ->); [|done..]. by eapply ImportSignedArchive_written.
Qed.

(** ** Timestamped archives *)

Definition entry_size (e : zip.Entry) : nat := 110 + 2 * length (bytes_of (zip.path e)) + length (zip.payload e).

Lemma archive_size l : length (zip.archive l) = (22 + sum_list_with entry_size l)%nat.
Proof.
  rewrite zip.archive_length.
  assert (forall offset, length (zip.locals l) + length (zip.directory offset l) = sum_list_with entry_size l)%nat as H; [|rewrite H; lia].
  induction l as [|e l IH]; intros offset; [done|]. cbn [zip.locals zip.directory sum_list_with].
  specialize (IH (offset + Z.of_nat (length (zip.local e)))). generalize dependent (zip.directory (offset + Z.of_nat (length (zip.local e))) l).
  intros d IH. rewrite !length_app, zip.local_length, zip.directoryHeader_length. unfold entry_size at 1. lia.
Qed.

(** What the writer was given: flushed or in its buffer. *)
Definition received (w : Buffered) : Z := flushed w + buffered w.

Lemma buffered_write_total n w :
  0 <= n -> 0 <= buffered w <= 4096 -> received (buffered_write n w) = received w + n /\ 0 <= buffered (buffered_write n w) <= 4096.
Proof.
  intros Hn Hb. unfold buffered_write, received.
  destruct (n <=? 4096 - buffered w) eqn:E1; [cbn; lia|]. destruct (buffered w =? 0) eqn:E2; [cbn; lia|]. cbv zeta.
  destruct (n - (4096 - buffered w) <=? 4096) eqn:E3; cbn; lia.
Qed.

Lemma writeEntries_fit w (open : bool) l :
  0 <= buffered w <= 4096 -> Forall (fun e => Z.of_nat (length (bytes_of (zip.path e))) < 2 ^ 16) l ->
  received w + (if open then 16 else 0) + Z.of_nat (length (zip.locals l)) <= MaxArchiveSize -> writeEntries w open l = None.
Proof.
  intros Hb Hf. revert w open Hb. induction Hf as [|e l He Hf IH]; intros w open Hb Hs; [done|].
  cbn [zip.locals] in Hs. rewrite length_app, zip.local_length in Hs. cbn [writeEntries].
  assert (flushed w <= received w) by (unfold received; lia). replace (MaxArchiveSize <? _) with false by (destruct open; lia). cbv zeta.
  replace (zip.uint16max <? _) with false by (unfold zip.uint16max; lia).
  set (w1 := if open then buffered_write 16 w else w).
  assert (received w1 = received w + (if open then 16 else 0) /\ 0 <= buffered w1 <= 4096) as [E1 B1].
  { destruct open; subst w1; [by apply buffered_write_total|split; [lia|done]]. }
  destruct (buffered_write_total 30 w1 ltac:(lia) B1) as [E2 B2].
  destruct (buffered_write_total (Z.of_nat (length (bytes_of (zip.path e)))) _ ltac:(lia) B2) as [E3 B3].
  destruct (buffered_write_total 9 _ ltac:(lia) B3) as [E4 B4].
  destruct (buffered_write_total (Z.of_nat (length (zip.payload e))) _ ltac:(lia) B4) as [E5 B5].
  apply IH; [exact B5|]. lia.
Qed.

(** Fewer entries are written where more were. *)
Lemma writeArchive_fewer l k p : written k p -> l ⊆+ k -> l <> [] -> exists q, writeArchive l = Ok q.
Proof.
  intros [-> (_ & Hf & _ & _) Hs Hn] Hl Hne. unfold writeArchive. pose proof (submseteq_length _ _ Hl) as Hlen.
  pose proof (sort_entries_perm l) as Hp. pose proof (sort_entries_perm k) as Hk.
  assert (length l <> 0)%nat by (by destruct l). rewrite (proj2 (orb_false_iff _ _)) by (rewrite Nat.eqb_neq, Nat.ltb_ge; lia). cbv zeta.
  assert (length (zip.archive (sort_entries l)) <= length (zip.archive (sort_entries k)))%nat as Hle.
  { rewrite !archive_size, Hp, Hk. apply submseteq_Permutation in Hl as [k' ->]. rewrite sum_list_with_app. lia. }
  rewrite writeEntries_fit.
  - replace (MaxArchiveSize <? _) with false by lia. by eexists.
  - cbn. lia.
  - rewrite Hp. apply Forall_forall. intros e He. apply (elem_of_submseteq _ _ _ He) in Hl. rewrite <- Hk in Hl.
    by apply (proj1 (Forall_forall _ _) Hf) in Hl as [? _].
  - pose proof (zip.archive_length (sort_entries l)). unfold received. cbn [flushed buffered]. lia.
Qed.

Lemma range_entry_map l :
  NoDup (zip.path <$> l) -> (fun kv => zip.MkEntry kv.1 kv.2) <$> range_entries (entry_map l) ≡ₚ l.
Proof.
  intros H. rewrite range_entries_perm. unfold entry_map. rewrite map_to_list_to_map by (by rewrite entry_paths).
  rewrite <- list_fmap_compose. clear. induction l as [|[] l IH]; [done|]. cbn. by rewrite IH.
Qed.

Lemma CanonicalTimestamp_ok t b : CanonicalTimestamp t = Ok b -> MarshalTimestamp t = Some b.
Proof.
  unfold CanonicalTimestamp. destruct (validateTimestampBinding _ _); [done|]. destruct (MarshalTimestamp t); [|done]. by intros [= <-].
Qed.

(** C26: importing the archive of a timestamped bundle is to verify its signature,
    at the time of the timestamp, on the bundle that was exported, and then its
    timestamp: with the same errors, and with the same verified bundle, its objects
    in the order of their paths. *)
Theorem timestamped_archive_is_verified `{TS : !policy.TrustStore T} t p (store timestampStore : option T) at_ :
  portable (verifiedBundle (verified t)) -> NoDup (Path <$> Objects (verifiedBundle (verified t))) ->
  plain_signature (signature (verified t)) -> plain_timestamp (timestamp t) ->
  ExportTimestampedArchive (Some t) = Ok p ->
  ImportTimestampedArchive p store timestampStore at_ =
    let! v := VerifySignature (archived (verifiedBundle (verified t))) (signature (verified t)) store (IssuedAt (timestamp t)) in
    VerifyTrustedTimestamp (Some v) (timestamp t) timestampStore at_.
Proof.
  intros Hp Hd Hs Ht. unfold ExportTimestampedArchive. intros (l & Hl & H)%obind_ok.
  apply obind_ok in H as (sp & Hsp & H). apply obind_ok in H as (tp & Htp & Hw%writeArchive_ok).
  apply packed_entries in Hl as (payload & Hk & ->); [|done..]. set (b := verifiedBundle (verified t)) in *.
  set (k := bundle_entries b payload ++ [signature_entry sp]).
  change (written (bundle_entries b payload ++ ([signature_entry sp] ++ [timestamp_entry tp])) p) in Hw.
  assert (readable (bundle_entries b payload ++ ([signature_entry sp] ++ [timestamp_entry tp]))) as [Hv Hn].
  { apply bundle_entries_readable; [done|constructor; [by left|constructor; [by right|done]]|].
    apply NoDup_cons. split; [by intros [=]%list_elem_of_singleton|apply NoDup_singleton]. }
  rewrite app_assoc in Hv, Hn, Hw. fold k in Hv, Hn, Hw. unfold ImportTimestampedArchive.
  rewrite (readArchive_written _ _ Hw Hv Hn). cbn [obind]. destruct (entry_map_last _ _ Hn) as [El Ed].
  cbn [zip.path zip.payload timestamp_entry] in El, Ed. rewrite El, Ed.
  rewrite (decodes_Unmarshal decode_timestamp tp zeroTimestamp (timestamp t))
    by (apply decodes_timestamp; [done|done|by apply CanonicalTimestamp_ok]).
  rewrite Htp, is_canonical_same. cbn [negb]. unfold archivePayloadFromEntries.
  assert (NoDup (zip.path <$> k)) as Hnk by (rewrite fmap_app in Hn; by apply NoDup_app in Hn as [? _]).
  pose proof (range_entry_map k Hnk) as Hr. set (r := _ <$> range_entries _) in *.
  destruct (writeArchive_fewer r (k ++ [timestamp_entry tp]) p Hw) as (q & Hq).
  { rewrite Hr. by apply submseteq_inserts_r. }
  { intros E. rewrite E in Hr. by apply Permutation_nil in Hr. }
  rewrite Hq. cbn [obind]. erewrite ImportSignedArchive_written; [reflexivity|exact Hk|done|exact Hsp|by apply writeArchive_ok|exact Hr].
Qed.

(** ** What an archive that is imported holds *)

(** The entries of the files, over those read before. *)
Definition file_entry (p : bytes) (files : list zip.File) (name : string) (content : bytes) : Prop :=
  exists f, f ∈ files /\ zip.Name f = name /\ zip.readFile p f = Some content.

Lemma readArchiveEntry_ok p f content : readArchiveEntry p f = Ok content -> zip.readFile p f = Some content.
Proof. unfold readArchiveEntry. destruct (zip.readFile p f); [|done]. destruct (_ || _); [done|]. by intros [= ->]. Qed.

Lemma readEntries_ok p total entries files m :
  readEntries p total entries files = Ok m ->
  NoDup (zip.Name <$> files) /\ (forall f, f ∈ files -> entries !! zip.Name f = None) /\
  forall name content, m !! name = Some content <-> entries !! name = Some content \/ file_entry p files name content.
Proof.
  revert total entries. induction files as [|f files IH]; intros total entries; cbn [readEntries].
  { intros [= ->]. split_and!; [constructor|set_solver|]. intros name content. split; [by left|]. intros [H|(f & H & _)]; [done|set_solver]. }
  destruct (_ || _); [done|]. destruct (bool_decide _) eqn:Ed; [done|]. destruct (_ || _); [done|].
  intros (c & Hc%readArchiveEntry_ok & H)%obind_ok. apply bool_decide_eq_false, eq_None_not_Some in Ed.
  apply IH in H as (Hn & Hf & Hm). split_and!.
  - cbn [fmap list_fmap]. apply NoDup_cons. split; [|done]. intros (g & Hg & Hin)%list_elem_of_fmap.
    apply Hf in Hin. rewrite <- Hg, lookup_insert_eq in Hin. done.
  - intros g [-> |Hg]%elem_of_cons; [done|]. apply Hf in Hg. by apply lookup_insert_None in Hg as [? _].
  - intros name content. rewrite Hm, lookup_insert_Some. split.
    + intros [[[<- <-]|[_ H]]|(g & Hg & Hgn & Hgc)]; [right; exists f; split_and!; [left|done..]|by left|].
      right. exists g. split_and!; [by right|done..].
    + intros [H|(g & [-> |Hg]%elem_of_cons & Hgn & Hgc)].
      * left; right. split; [|done]. intros E. rewrite E in Ed. congruence.
      * left; left. split; [done|congruence].
      * right. by exists g.
Qed.

Lemma takeObjects_ok entries ds l rest :
  takeObjects entries ds = Ok (l, rest) ->
  NoDup (Path <$> l) /\ Forall (fun o => rest !! (ObjectEntryPrefix ++ Path o)%string = None) l /\
  forall name content, entries !! name = Some content <->
    rest !! name = Some content \/ exists o, o ∈ l /\ name = (ObjectEntryPrefix ++ Path o)%string /\ content = Payload o.
Proof.
  revert entries l. induction ds as [|d ds IH]; intros entries l; cbn [takeObjects].
  { intros [= <- <-]. split_and!; [constructor..|]. intros name content. split; [by left|]. intros [H|(o & H & _)]; [done|set_solver]. }
  intros (path & Hp & H)%obind_ok. apply objectArchivePath_ok in Hp as [-> _]. set (path := (ObjectEntryPrefix ++ _)%string) in *.
  destruct (entries !! path) as [payload|] eqn:Ep; [|done].
  apply obind_ok in H as ([l' rest'] & Ht & [= <- <-]). apply IH in Ht as (Hn & Hr & He). cbn [fst snd].
  assert (rest' !! path = None /\ forall o, o ∈ l' -> Path o <> DescriptorPath d) as [Hpath Hd].
  { split.
    - destruct (rest' !! path) as [b|] eqn:E; [|done]. assert (delete path entries !! path = Some b) as Hx by (apply He; by left).
      by rewrite lookup_delete_eq in Hx.
    - intros o Ho E. assert (delete path entries !! path = Some (Payload o)) as Hx.
      { apply He. right. exists o. split_and!; [done| |done]. by rewrite E. }
      by rewrite lookup_delete_eq in Hx. }
  split_and!.
  - cbn [fmap list_fmap Path]. apply NoDup_cons. split; [|done]. intros (o & Ho & Hin)%list_elem_of_fmap. by apply (Hd o Hin).
  - by constructor.
  - intros name content. destruct (decide (name = path)) as [-> |Hne].
    + rewrite Ep. split.
      * intros [= <-]. right. eexists. split; [left|]. by split.
      * intros [H|(o & [-> |Ho]%elem_of_cons & E & ->)]; [congruence|done|]. apply object_path_inj in E. by destruct (Hd o Ho).
    + rewrite <- (lookup_delete_ne entries path) by done. rewrite He. split.
      * intros [H|(o & Ho & -> & ->)]; [by left|]. right. exists o. split_and!; [by right|done..].
      * intros [H|(o & [-> |Ho]%elem_of_cons & -> & ->)]; [by left|by destruct Hne|]. right. by exists o.
Qed.

(** The files of the zip have distinct names, and are the manifest, in its canonical
    text, and for every object a file with its payload. *)
Definition holds_exactly (p : bytes) (b : Bundle) : Prop :=
  exists files payload, zip.NewReader p = Some files /\ NoDup (zip.Name <$> files) /\
    CanonicalManifest (BundleManifest b) = Ok payload /\
    forall name content, file_entry p files name content <->
      (name = ManifestEntryPath /\ content = payload) \/
      exists o, o ∈ Objects b /\ name = (ObjectEntryPrefix ++ Path o)%string /\ content = Payload o.

(** C27: an archive that is imported, wherever it comes from, holds its bundle and
    nothing else. The bundle verifies, the paths of its objects are distinct, the
    names of the files of the zip are distinct, and the files are the manifest, in
    its canonical text, and one for every object, with its payload. *)
Theorem imported_archive_is_exact p b :
  ImportArchive p = Ok b ->
  Verify b = None /\ NoDup (Path <$> Objects b) /\ Z.of_nat (length p) <= MaxArchiveSize /\ holds_exactly p b.
Proof.
  unfold ImportArchive. intros (m & Hm & H)%obind_ok. unfold readArchive in Hm. destruct (_ =? 0)%nat; [done|].
  destruct (MaxArchiveSize <? _) eqn:Es; [done|]. destruct (zip.NewReader p) as [files|] eqn:Er; [|done].
  destruct (_ || _); [done|]. apply readEntries_ok in Hm as (Hn & _ & Hm).
  unfold bundleFromArchiveEntries in H. destruct (m !! ManifestEntryPath) as [payload|] eqn:Ep; [|done].
  destruct (unmarshal.Unmarshal _ _ _) as [decoded|]; [|done]. cbv zeta in H. set (manifest := toManifest decoded) in *.
  destruct (is_canonical _ payload) eqn:Ec; [|done]. cbn [negb] in H. destruct (negb _); [done|].
  apply obind_ok in H as ([l rest] & Ht & H). cbn [fst snd] in H. destruct (size rest =? 0)%nat eqn:Ez; [|done]. cbn [negb] in H.
  destruct (Verify _) eqn:Ev; [done|]. injection H as <-. apply Nat.eqb_eq, map_size_empty_inv in Ez as ->.
  apply takeObjects_ok in Ht as (Hd & _ & Ht). cbn [BundleManifest Objects]. split_and!; [done..|lia|].
  exists files, payload. cbn [BundleManifest Objects]. split_and!; [done..| |].
  - unfold is_canonical in Ec. destruct (CanonicalManifest manifest); [|done]. by apply bool_decide_eq_true in Ec as ->.
  - intros name content. assert (m !! name = Some content <-> file_entry p files name content) as <-.
    { rewrite Hm, lookup_empty. split; [by intros [|]|by right]. }
    destruct (decide (name = ManifestEntryPath)) as [-> |Hne].
    + rewrite Ep. split; [intros [= <-]; by left|]. by intros [[_ ->]|(o & _ & [=] & _)].
    + rewrite <- (lookup_delete_ne m ManifestEntryPath) by done. rewrite Ht, lookup_empty. split.
      * intros [|H]; [done|by right].
      * intros [[E _]|H]; [done|by right].
Qed.

End archives.

(** ** Archives of the bundle of the examples *)

#[local] Existing Instance ex_platform.

#[local] Instance entry_le_dec e f : Decision (entry_le e f).
Proof. unfold entry_le. apply _. Defined.

#[local] Instance ex_archives : ArchivePlatform := {|
  sort_entries := merge_sort entry_le;
  range_entries := fun m => map_to_list m
|}.

#[local] Instance ex_archive_laws : ArchiveLaws ex_archives.
Proof.
  split; intros l; cbn [sort_entries range_entries ex_archives]; [apply merge_sort_Permutation| |done].
  apply Sorted_merge_sort. intros e f. unfold entry_le. rewrite !ltb_false. apply (total String.le).
Qed.

Definition ex_payload := Eval vm_compute in ex_get [] (CanonicalManifest (BundleManifest ex_bundle)).
Definition ex_signature_payload := Eval vm_compute in ex_get [] (CanonicalSignature ex_signature).
Definition ex_timestamp_payload := Eval vm_compute in ex_get [] (CanonicalTimestamp ex_timestamp).

Definition ex_archive := Eval vm_compute in zip.archive (sort_entries (bundle_entries ex_bundle ex_payload)).

Definition ex_timestamped_archive := Eval vm_compute in
  zip.archive (sort_entries (bundle_entries ex_bundle ex_payload ++
    [signature_entry ex_signature_payload; timestamp_entry ex_timestamp_payload])).

Lemma ex_entries : bundleArchiveEntries ex_bundle = Ok (bundle_entries ex_bundle ex_payload).
Proof. unfold bundleArchiveEntries. rewrite ex_verify. vm_compute. reflexivity. Qed.

Lemma ex_exported : ExportArchive ex_bundle = Ok ex_archive.
Proof. unfold ExportArchive. rewrite ex_entries. vm_compute. reflexivity. Qed.

Lemma ex_imported : ImportArchive ex_archive = Ok ex_bundle.
Proof. vm_compute. reflexivity. Qed.

Lemma ex_timestamped_exported : ExportTimestampedArchive (Some ex_timestamped) = Ok ex_timestamped_archive.
Proof.
  unfold ExportTimestampedArchive. change (verifiedBundle (verified ex_timestamped)) with ex_bundle.
  rewrite ex_entries. vm_compute. reflexivity.
Qed.

Lemma ex_paths : NoDup (Path <$> Objects ex_bundle).
Proof. apply (bool_decide_eq_true_1 _). vm_compute. reflexivity. Qed.

Lemma ex_plain_signature : plain_signature ex_signature.
Proof. split; [|reflexivity]. split_and!; apply utf8_ascii; vm_compute; reflexivity. Qed.

Lemma ex_plain_timestamp : plain_timestamp ex_timestamp.
Proof. split; [|reflexivity]. split_and!; apply utf8_ascii; vm_compute; reflexivity. Qed.

Lemma archive_round_trip_witness : ImportArchive ex_archive = Ok (archived ex_bundle).
Proof.
  exact (archive_round_trip (L := ex_platform_laws) (AL := ex_archive_laws) ex_bundle ex_archive ex_portable ex_paths ex_exported).
Defined.

Lemma timestamped_archive_is_verified_witness :
  ImportTimestampedArchive ex_timestamped_archive (Some ex_store) (Some ex_store) (utc_seconds 1200) =
    let! v := VerifySignature (archived ex_bundle) ex_signature (Some ex_store) (IssuedAt ex_timestamp) in
    VerifyTrustedTimestamp (Some v) ex_timestamp (Some ex_store) (utc_seconds 1200).
Proof.
  exact (timestamped_archive_is_verified (L := ex_platform_laws) (AL := ex_archive_laws) ex_timestamped ex_timestamped_archive
           (Some ex_store) (Some ex_store) (utc_seconds 1200) ex_portable ex_paths ex_plain_signature ex_plain_timestamp
           ex_timestamped_exported).
Defined.

Lemma imported_archive_is_exact_witness :
  Verify ex_bundle = None /\ NoDup (Path <$> Objects ex_bundle) /\ Z.of_nat (length ex_archive) <= MaxArchiveSize /\
  holds_exactly ex_archive ex_bundle.
Proof. exact (imported_archive_is_exact (L := ex_platform_laws) ex_archive ex_bundle ex_imported). Defined.

(** Two objects of one path: [Verify] accepts the bundle, and its archive cannot be
    imported. *)
Definition ex_double : Bundle :=
  let objects := [jsonObject "a" (bytes_of "1"); jsonObject "a" (bytes_of "2")] in
  let m := (BundleManifest ex_bundle) <| ManifestObjects := Some (describe <$> objects) |> in
  MkBundle (m <| BundleRoot := calculateRoot m |>) objects.

Definition ex_double_archive := Eval vm_compute in ex_get [] (ExportArchive ex_double).

Example double_path_is_not_imported :
  Verify ex_double = None /\ ExportArchive ex_double = Ok ex_double_archive /\
  ImportArchive ex_double_archive = Err ErrArchiveInvalid.
Proof. split_and!; vm_compute; reflexivity. Qed.

(** A bundle without objects, its manifest with an empty array: it can be imported,
    but its copy has a manifest with [null], of another root. *)
Definition ex_empty : Bundle :=
  let m := (BundleManifest ex_bundle) <| ManifestObjects := Some [] |> in
  MkBundle (m <| BundleRoot := calculateRoot m |>) [].

Definition ex_empty_archive := Eval vm_compute in ex_get [] (ExportArchive ex_empty).

Example empty_copy_does_not_verify :
  Verify ex_empty = None /\ ImportArchive ex_empty_archive = Ok ex_empty /\
  Verify (copyBundle ex_empty) = Some ErrBundleRootMismatch.
Proof. split_and!; vm_compute; reflexivity. Qed.
