(* ===== verification/PgRoundTrip.v ===== *)
(** * Evaluations survive the store

    The JSON of a snapshot of plain data decodes to the snapshot, so an evaluation
    that was saved is found again. *)

From Stdlib Require Import Ascii String.
From S2P Require Import Prelude GoTime GoString Uuid GoCrypto GoJson GoJsonText GoJsonStruct GoJsonDecode GoJsonReads GoUnmarshal.
From S2P Require Import GoTimeFormat GoTimeParse GoCodec AuditLedger Evaluation Outbox PolicyAdmission Bundle BundleDecision.
From S2P Require Import Postgres PgOutbox PgEvaluations.
Import postgres evidencebundle verification evaluation.

(** ** Plain data: Go's identities and widths, UTF-8 text, times in UTC *)

Abbreviation utc t := (location t = UTCLoc).
Abbreviation utc_pointer o := (forall t, o = Some t -> utc t).

Record plain_outcome (o : RuleOutcome) : Prop := {
  po_text : utf8 (RuleID o) /\ utf8 (Status o);
  po_reasons : Forall utf8 (ReasonCodes o);
  po_time : utc (EvaluatedAt o)
}.

Record plain_reference (r : EvidenceReference) : Prop := {
  pr_id : is_uuid (EvidenceID r);
  pr_text : utf8 (RefStatus r);
  pr_reasons : Forall utf8 (RefReasons r)
}.

Record plain_binding (b : EvidenceSetBinding) : Prop := {
  pe_id : is_uuid (BoundSessionID b);
  pe_text : utf8 (BoundStatus b) /\ utf8 (PolicyVersion b);
  pe_time : utc (QualifiedAt b);
  pe_reasons : Forall utf8 (Reasons b);
  pe_evidence : Forall plain_reference (Evidence b)
}.

Record plain_policy (b : PolicyBinding) : Prop := {
  pp_text : utf8 (PolicyID b) /\ utf8 (PolicyBindingVersion b) /\ utf8 (Hash b);
  pp_time : utc (BoundAt b)
}.

Record plain_checkpoint (c : EvaluationCheckpoint) : Prop := {
  pc_name : utf8 (CheckpointName c);
  pc_version : is_u64 (CheckpointVersion c);
  pc_outcomes : Forall plain_outcome (CheckpointOutcomes c);
  pc_time : utc (CheckpointCreatedAt c)
}.

Record plain_history (h : EvaluationHistoryEntry) : Prop := {
  ph_ids : is_uuid (HistoryEvaluationID h) /\ is_uuid (HistorySessionID h);
  ph_version : is_u64 (HistoryVersion h);
  ph_text : utf8 (HistoryState h) /\ utf8 (HistoryResult h);
  ph_lists : Forall utf8 (HistoryReasonCodes h) /\ Forall utf8 (HistoryRequiredRuleIDs h);
  ph_outcomes : Forall plain_outcome (HistoryRuleOutcomes h);
  ph_time : utc (HistoryRecordedAt h)
}.

Record plain_snapshot (s : EvaluationSnapshot) : Prop := {
  ps_ids : is_uuid (SnapEvaluationID s) /\ is_uuid (SnapSessionID s);
  ps_version : is_u64 (SnapVersion s);
  ps_text : utf8 (SnapState s) /\ utf8 (SnapResult s) /\ utf8 (SnapCancellationReason s);
  ps_lists : Forall utf8 (SnapReasonCodes s) /\ Forall utf8 (SnapRequiredRuleIDs s);
  ps_created : utc (SnapCreatedAt s);
  ps_started : utc_pointer (SnapStartedAt s);
  ps_completed : utc_pointer (SnapCompletedAt s);
  ps_cancelled : utc_pointer (SnapCancelledAt s);
  ps_expired : utc_pointer (SnapExpiredAt s);
  ps_outcomes : Forall plain_outcome (SnapRuleOutcomes s);
  ps_checkpoints : Forall plain_checkpoint (SnapCheckpoints s);
  ps_history : Forall plain_history (SnapHistory s);
  ps_evidence : forall b, SnapEvidenceBinding s = Some b -> plain_binding b;
  ps_policy : forall b, SnapPolicyBinding s = Some b -> plain_policy b
}.

Section round_trip.
Context {P : Platform} {D : Driver}.

(** The encoder of a part, inverted; its fields, decoded one by one. *)
Ltac parts :=
  repeat match goal with
  | |- match ?x with Some _ => _ | None => None end = Some _ -> _ => destruct x eqn:?; [|done]
  end; intros [= <-].

Ltac scalar :=
  first [apply decodes_any, decodes_string; assumption | apply decodes_any, decodes_uuid; assumption
        |apply decodes_any, decodes_uint64; assumption | apply decodes_any; eapply decodes_time; eassumption | eassumption].

Ltac fields := repeat (next_field; [scalar|]); apply decodes_done.

Lemma decodes_outcome d o b :
  (2 < d)%N -> plain_outcome o -> MarshalOutcome o = Some b ->
  exists j, toOutcome j = o /\ decodes d decode_outcome b zeroOutcome j.
Proof.
  intros Hd [[T1 T2] R T]. unfold MarshalOutcome. parts.
  edestruct (decodes_strings (d - 1)) as (s & Hs & Hb); [lia|exact R|eassumption|].
  eexists. split; [|apply decodes_struct; [lia|fields]]. destruct o. cbn in *. by subst.
Qed.

Lemma decodes_reference d r b :
  (2 < d)%N -> plain_reference r -> MarshalEvidenceReference r = Some b ->
  exists j, toReference j = r /\ decodes d decode_reference b zeroReference j.
Proof.
  intros Hd [I T R]. unfold MarshalEvidenceReference. parts.
  edestruct (decodes_strings (d - 1)) as (s & Hs & Hb); [lia|exact R|eassumption|].
  eexists. split; [|apply decodes_struct; [lia|fields]]. destruct r. cbn in *. by subst.
Qed.

(** The elements of a slice decode where each does. *)
Lemma decodes_each {A B} d (plain : A -> Prop) (f : A -> option bytes) (to : B -> A) zero dec l b :
  (0 < d)%N ->
  (forall x c, plain x -> f x = Some c -> exists j, to j = x /\ decodes (d - 1) dec c zero j) ->
  Forall plain l -> MarshalSlice f l = Some b ->
  exists s, to <$> items s = l /\ decodes_nil d (unmarshal.decode_slice zero dec) b nil_slice s.
Proof.
  intros Hd Hf Hl H. eapply decodes_slice; [done| |exact H]. intros x c Hx. apply Hf. by apply (proj1 (Forall_forall _ _) Hl).
Qed.

Lemma decodes_binding d e b :
  (4 < d)%N -> plain_binding e -> MarshalEvidenceBinding e = Some b ->
  exists j, toBinding j = e /\ decodes d decode_binding b zeroBinding j.
Proof.
  intros Hd [I [T1 T2] T R E]. unfold MarshalEvidenceBinding. parts.
  edestruct (decodes_strings (d - 1)) as (s & Hs & Hb); [lia|exact R|eassumption|].
  edestruct (decodes_each (d - 1) plain_reference MarshalEvidenceReference toReference zeroReference decode_reference) as (k & Hk & Hc); [lia| |exact E|eassumption|].
  { intros x c. apply decodes_reference. lia. }
  eexists. split; [|apply decodes_struct; [lia|fields]]. destruct e. cbn in *. by subst.
Qed.

Lemma decodes_policy d p b :
  (1 < d)%N -> plain_policy p -> MarshalPolicyBinding p = Some b ->
  exists j, id j = p /\ decodes d decode_policy_binding b zeroPolicyBinding j.
Proof.
  intros Hd [(T1 & T2 & T3) T]. unfold MarshalPolicyBinding. parts.
  eexists. split; [|apply decodes_struct; [lia|fields]]. destruct p. by cbn.
Qed.

Lemma decodes_outcomes d l b :
  (4 < d)%N -> Forall plain_outcome l -> MarshalSlice MarshalOutcome l = Some b ->
  exists s, toOutcome <$> items s = l /\
    decodes_nil d (unmarshal.decode_slice zeroOutcome decode_outcome) b nil_slice s.
Proof. intros Hd. apply decodes_each; [lia|]. intros x c. apply decodes_outcome. lia. Qed.

Lemma decodes_checkpoint d c b :
  (6 < d)%N -> plain_checkpoint c -> evaluations.MarshalCheckpoint c = Some b ->
  exists j, evaluations.toCheckpoint j = c /\ decodes d evaluations.decode_checkpoint b evaluations.zeroCheckpoint j.
Proof.
  intros Hd [N V O T]. unfold evaluations.MarshalCheckpoint. parts.
  edestruct (decodes_outcomes (d - 1)) as (s & Hs & Hb); [lia|exact O|eassumption|].
  eexists. split; [|apply decodes_struct; [lia|fields]]. destruct c. cbn in *. by subst.
Qed.

Lemma decodes_history d h b :
  (6 < d)%N -> plain_history h -> evaluations.MarshalHistoryEntry h = Some b ->
  exists j, evaluations.toHistory j = h /\ decodes d evaluations.decode_history b evaluations.zeroHistory j.
Proof.
  intros Hd [[I1 I2] V [T1 T2] [L1 L2] O T]. unfold evaluations.MarshalHistoryEntry. parts.
  edestruct (decodes_strings (d - 1)) as (s & Hs & Hb); [lia|exact L1|eassumption|].
  edestruct (decodes_strings (d - 1)) as (q & Hq & Hr); [lia|exact L2|eassumption|].
  edestruct (decodes_outcomes (d - 1)) as (k & Hk & Hc); [lia|exact O|eassumption|].
  eexists. split; [|apply decodes_struct; [lia|fields]]. destruct h. cbn in *. by subst.
Qed.

Lemma decodes_times d o b :
  MarshalPointer MarshalTimeIn o = Some b -> utc_pointer o ->
  decodes_nil d (unmarshal.decode_pointer ZeroTime (decode_time fixed_zone)) b None o.
Proof.
  intros H Ho. edestruct (decodes_pointer d id ZeroTime (decode_time fixed_zone)) as (a & Ha & Hb); [|exact H|].
  - intros x c -> Hx. exists x. split; [done|]. eapply decodes_time; [exact Hx|]. by apply Ho.
  - rewrite option_fmap_id in Ha. by subst.
Qed.

Lemma decodes_evaluation d s b :
  (8 < d)%N -> plain_snapshot s -> evaluations.MarshalEvaluation s = Some b ->
  exists j, evaluations.toSnapshot j = s /\ decodes d evaluations.decode_evaluation b evaluations.zeroEvaluation j.
Proof.
  intros Hd [[I1 I2] V (T1 & T2 & T3) [L1 L2] T Ts Tc Tx Te O C H E Q]. unfold evaluations.MarshalEvaluation. parts.
  edestruct (decodes_strings (d - 1)) as (s1 & Hs1 & Hb1); [lia|exact L1|eassumption|].
  edestruct (decodes_strings (d - 1)) as (s2 & Hs2 & Hb2); [lia|exact L2|eassumption|].
  edestruct (decodes_outcomes (d - 1)) as (s3 & Hs3 & Hb3); [lia|exact O|eassumption|].
  edestruct (decodes_each (d - 1) plain_checkpoint evaluations.MarshalCheckpoint evaluations.toCheckpoint
    evaluations.zeroCheckpoint evaluations.decode_checkpoint) as (s4 & Hs4 & Hb4); [lia| |exact C|eassumption|].
  { intros x c. apply decodes_checkpoint. lia. }
  edestruct (decodes_each (d - 1) plain_history evaluations.MarshalHistoryEntry evaluations.toHistory
    evaluations.zeroHistory evaluations.decode_history) as (s5 & Hs5 & Hb5); [lia| |exact H|eassumption|].
  { intros x c. apply decodes_history. lia. }
  edestruct (decodes_pointer (d - 1) toBinding zeroBinding decode_binding MarshalEvidenceBinding) as (s6 & Hs6 & Hb6); [|eassumption|].
  { intros x c Hx. apply decodes_binding; [lia|]. by apply E. }
  edestruct (decodes_pointer (d - 1) id zeroPolicyBinding decode_policy_binding MarshalPolicyBinding) as (s7 & Hs7 & Hb7); [|eassumption|].
  { intros x c Hx. apply decodes_policy; [lia|]. by apply Q. }
  rewrite option_fmap_id in Hs7. 
  eexists. split; [|apply decodes_struct; [lia|repeat (next_field; [first [scalar|eapply decodes_times; eassumption]|]);
    apply decodes_done]].
  destruct s. cbn in *. by subst.
Qed.

(** The JSON of a plain snapshot decodes to the aggregate it stands for. *)
Lemma decode_encoded s payload :
  plain_snapshot s -> evaluations.encodeSnapshot s = Ok payload ->
  evaluations.decodeSnapshot payload = omap_err EvaluationError (RehydrateEvaluation s).
Proof.
  unfold evaluations.encodeSnapshot, evaluations.decodeSnapshot. intros Hp.
  destruct (RehydrateEvaluation s) as [e|] eqn:Er; [|done].
  destruct (evaluations.MarshalEvaluation s) as [b|] eqn:Eb; [|done]. intros [= <-].
  destruct (decodes_evaluation json.maxNestingDepth s b eq_refl Hp Eb) as (j & <- & v & Hv & _ & E).
  unfold unmarshal.Unmarshal. rewrite (reads_tree _ _ Hv), E. by rewrite Er.
Qed.

End round_trip.
