(* ===== verification/PgLedger.v ===== *)
(** * What the calls of the store do to the database

    A transaction leaves the database as it was, or takes it where its body does;
    an append keeps the ledger a chain, and the entries of other records where they
    were. An invariant that the insertions of the policy and evidence repositories
    keep is kept by their calls. *)

From Stdlib Require Import Ascii String.
From S2P Require Import Prelude GoTime GoString Uuid GoCrypto Responsibility AuditLedger Evidence Policy Bundle.
From S2P Require Import Postgres PgRecords PgPolicies PgEvidence.
Import postgres.

(** ** Statements and transactions *)

Lemma statement_cases {A} (f : Database -> option (Database * A)) w d w' d' r :
  exec f (w, d) = ((w', d'), r) ->
  (exists a, r = Ok a /\ f d = Some (d', a)) \/
  (r = Err ErrDatabase /\ (d' = d \/ exists a, f d = Some (d', a))).
Proof. apply sent_cases. Qed.

Lemma statement_ok {A} (f : Database -> option (Database * A)) w d w' d' a :
  exec f (w, d) = ((w', d'), Ok a) -> f d = Some (d', a).
Proof. intros [(b & [= <-] & H)|[[=] _]]%statement_cases. done. Qed.

Lemma query_cases {A} (f : Database -> A) w d w' d' r :
  query f (w, d) = ((w', d'), r) -> d' = d /\ (r = Ok (f d) \/ r = Err ErrDatabase).
Proof. intros [(a & -> & [= <- <-])|(-> & [->|(a & [= <- <-])])]%statement_cases; eauto. Qed.

Lemma query_carried {A} (f : Database -> A) d : query f ([], d) = (([], d), Ok (f d)).
Proof. done. Qed.

Lemma bind_ok {A B} (m : call A) (k : A -> call B) c c' b :
  abind m k c = (c', Ok b) -> exists a c1, m c = (c1, Ok a) /\ k a c1 = (c', Ok b).
Proof. unfold abind. destruct (m c) as [c1 [a|]] eqn:E; intros H; [|done]. eauto. Qed.

Lemma lift_ok {A} (r : outcome Error A) c c' a : lift r c = (c', Ok a) -> r = Ok a /\ c' = c.
Proof. intros [= <- ->]. done. Qed.

Lemma transaction_cases {A} (body : call A) w d w' d' r :
  transaction body (w, d) = ((w', d'), r) ->
  (exists err, r = Err err /\ d' = d) \/
  (exists w1 w2 a, body (w1, d) = ((w2, d'), Ok a) /\ (r = Ok a \/ r = Err ErrDatabase)).
Proof. apply committed_cases. Qed.

Lemma transaction_ok {A} (body : call A) w d w' d' a :
  transaction body (w, d) = ((w', d'), Ok a) -> exists w1 w2, body (w1, d) = ((w2, d'), Ok a).
Proof. intros [(err & [=] & _)|(w1 & w2 & b & H & [[= <-]|[=]])]%transaction_cases. eauto. Qed.

(** Where every statement is carried, a transaction is its body. *)
Lemma transaction_carried {A} (body : call A) d :
  transaction body ([], d) =
  match body ([], d) with
  | (([], d'), Ok a) => (([], d'), Ok a)
  | ((Carried :: w, d'), Ok a) => ((w, d'), Ok a)
  | ((Refused :: w, _), Ok _) => ((w, d), Err ErrDatabase)
  | ((Unanswered :: w, d'), Ok _) => ((w, d'), Err ErrDatabase)
  | ((w, _), Err err) => ((w, d), Err err)
  end.
Proof. unfold transaction, committed. cbn [sent tail]. destruct (body ([], d)) as [[[|[]] d'] [a|err]]; done. Qed.

(** ** Preservation *)

(** A call keeps a predicate of the database, whatever is answered. *)
Definition preserves {A} (I : Database -> Prop) (m : call A) : Prop :=
  forall w d w' d' r, I d -> m (w, d) = ((w', d'), r) -> I d'.

Lemma preserves_exec {A} (I : Database -> Prop) (f : Database -> option (Database * A)) :
  (forall d d' a, I d -> f d = Some (d', a) -> I d') -> preserves I (exec f).
Proof. intros Hf w d w' d' r Hd [(a & -> & H)|(-> & [->|(a & H)])]%statement_cases; eauto. Qed.

Lemma preserves_transaction {A} (I : Database -> Prop) (body : call A) :
  (forall w d w' d' a, I d -> body (w, d) = ((w', d'), Ok a) -> I d') -> preserves I (transaction body).
Proof. intros Hb w d w' d' r Hd [(err & -> & ->)|(w1 & w2 & a & H & _)]%transaction_cases; eauto. Qed.

Lemma transaction_opt_cases {A} (body : call (option A)) w d w' d' r :
  transaction_opt body (w, d) = ((w', d'), r) ->
  d' = d \/ exists w1 w2 a, body (w1, d) = ((w2, d'), Ok (Some a)).
Proof.
  unfold transaction_opt. destruct (query _ (w, d)) as [[w1 d1] [[]|err]] eqn:Eq.
  - apply query_cases in Eq as [-> _]. destruct (body (w1, d)) as [[w2 d2] [[a|]|err]] eqn:Eb.
    + destruct w2 as [|[] w2]; intros [= <- <- <-]; eauto 10.
    + intros [= <- <- <-]. eauto.
    + intros [= <- <- <-]. eauto.
  - apply query_cases in Eq as [-> _]. intros [= <- <- <-]. eauto.
Qed.

Lemma preserves_transaction_opt {A} (I : Database -> Prop) (body : call (option A)) :
  (forall w d w' d' a, I d -> body (w, d) = ((w', d'), Ok (Some a)) -> I d') -> preserves I (transaction_opt body).
Proof. intros Hb w d w' d' r Hd [->|(w1 & w2 & a & H)]%transaction_opt_cases; eauto. Qed.

Lemma preserves_bind {A B} (I : Database -> Prop) (m : call A) (k : A -> call B) :
  preserves I m -> (forall a, preserves I (k a)) -> preserves I (abind m k).
Proof.
  intros Hm Hk w d w' d' r Hd. unfold abind. destruct (m (w, d)) as [[w1 d1] [a|err]] eqn:E; intros H.
  - eapply Hk; [|exact H]. by eapply Hm.
  - injection H as <- <- <-. by eapply Hm.
Qed.

Lemma preserves_const {A} (I : Database -> Prop) (r : outcome Error A) : preserves I (fun c => (c, r)).
Proof. by intros w d w' d' s Hd [= <- <- <-]. Qed.

Lemma preserves_lift_bind {A B} (I : Database -> Prop) (r : outcome Error A) (k : A -> call B) :
  (forall a, r = Ok a -> preserves I (k a)) -> preserves I (abind (lift r) k).
Proof.
  intros Hk w d w' d' r' Hd H. unfold abind, lift in H. destruct r as [a|err]; [by eapply Hk|]. by injection H as <- <- <-.
Qed.

Create HintDb store.
#[export] Hint Resolve preserves_const : store.

Lemma preserves_ret {A} (I : Database -> Prop) (a : A) : preserves I (aret a).
Proof. apply preserves_const. Qed.

Lemma preserves_fail {A} (I : Database -> Prop) err : preserves I (fail (A := A) err).
Proof. apply preserves_const. Qed.

Lemma preserves_lift {A} (I : Database -> Prop) (r : outcome Error A) : preserves I (lift r).
Proof. apply preserves_const. Qed.

Lemma preserves_query {A} (I : Database -> Prop) (f : Database -> A) : preserves I (query f).
Proof. apply preserves_exec. intros d d' a Hd [= <- <-]. done. Qed.

Lemma preserves_one (I : Database -> Prop) err n : preserves I (require_one err n).
Proof. unfold require_one. destruct (n =? 1); apply preserves_const. Qed.

#[export] Hint Resolve preserves_ret preserves_fail preserves_lift preserves_query preserves_one : store.

(** ** The ledger *)

(** A time the ledger can hold. *)
Definition datable (t : Time) : Prop :=
  instant (TruncateMicrosecond t) <> 0 /\
  is_i64 ((instant (TruncateMicrosecond t) - unixEpochSeconds * Second) / Microsecond).

Lemma appendNext_ok kind root at_ w d w' d' e :
  appendNext kind root at_ (w, d) = ((w', d'), Ok e) ->
  audit.nextAuditEntryLocked kind root at_ (audit_ledger d) = Ok e /\ d' = d <| audit_ledger := e :: audit_ledger d |>.
Proof.
  unfold appendNext, lockAuditLedger, nextAuditEntryLocked. intros H.
  apply bind_ok in H as ([] & [w1 d1] & H1 & H). apply query_cases in H1 as [-> _].
  apply bind_ok in H as (e1 & [w2 d2] & H2 & H). apply bind_ok in H2 as (r & [w3 d3] & H2 & H3).
  apply query_cases in H2 as [-> [[= ->]|[=]]]. apply lift_ok in H3 as [H3 [= -> ->]].
  destruct (audit.nextAuditEntryLocked _ _ _ _) as [e2|] eqn:En; [|done]. injection H3 as ->.
  apply bind_ok in H as ([] & [w4 d4] & H4 & H). injection H as <- <- <-. split; [done|].
  unfold insertAuditEntry in H4. apply statement_ok in H4. unfold audit.insertAuditEntry in H4.
  destruct (_ || _); [done|]. by destruct (bigint _); simplify_eq.
Qed.

Lemma statement_err {A} (f : Database -> option (Database * A)) c c' err :
  exec f c = (c', Err err) -> err = ErrDatabase.
Proof. destruct c as [w d], c' as [w' d']. by intros [(? & [=] & _)|[[= ->] _]]%statement_cases. Qed.

Lemma bind_err {A B} (m : call A) (k : A -> call B) c c' err :
  abind m k c = (c', Err err) -> m c = (c', Err err) \/ exists a c1, m c = (c1, Ok a) /\ k a c1 = (c', Err err).
Proof. unfold abind. destruct (m c) as [c1 [a|err1]] eqn:E; intros H; [eauto 10|]. injection H as -> ->. by left. Qed.

(** An append fails for the database, or for the ledger. *)
Lemma appendNext_err kind root at_ c c' err :
  appendNext kind root at_ c = (c', Err err) -> err = ErrDatabase \/ exists cause, err = AuditError cause.
Proof.
  intros [H|([] & c1 & _ & H)]%bind_err; [left; by apply statement_err in H|].
  apply bind_err in H as [H|(e & c2 & _ & H)].
  - apply bind_err in H as [H|(r & c2 & _ & H)]; [left; by apply statement_err in H|].
    destruct r; [done|]. injection H as _ <-. eauto.
  - apply bind_err in H as [H|(? & ? & _ & [=])]. left. by apply statement_err in H.
Qed.

(** An error of a transaction is of the database, or of its body. *)
Lemma transaction_err {A} (body : call A) w d c err :
  transaction body (w, d) = (c, Err err) -> err = ErrDatabase \/ exists w1 c1, body (w1, d) = (c1, Err err).
Proof.
  unfold transaction, committed. change (sent ErrDatabase (fun d => Some (d, tt)) (w, d)) with (query (fun _ => tt) (w, d)).
  destruct (query _ (w, d)) as [[w1 d1] [[]|e]] eqn:Eq.
  - apply query_cases in Eq as [-> _]. destruct (body (w1, d)) as [[w2 d2] [a|e]] eqn:Eb; [|intros [= _ <-]; eauto].
    destruct w2 as [|[] w2]; intros [= _ <-]; by left.
  - intros [= _ <-]. left. by apply query_cases in Eq as [_ [[=]|[= ->]]].
Qed.

Lemma appendNext_carried kind root at_ d entry l :
  audit.nextAuditEntryLocked kind root at_ (audit_ledger d) = Ok entry ->
  audit.insertAuditEntry true entry (audit_ledger d) = Ok l -> audit.Sequence entry <= i64_max ->
  appendNext kind root at_ ([], d) = (([], d <| audit_ledger := l |>), Ok entry).
Proof.
  intros H1 H2 H3. unfold appendNext, lockAuditLedger, nextAuditEntryLocked, insertAuditEntry, abind, query, exec, sent, lift.
  cbn [tail]. rewrite H1. cbn [omap_err]. rewrite H2. unfold bigint. by rewrite (proj2 (Z.leb_le _ _) H3).
Qed.

Lemma next_is_new kind root at_ l e :
  audit.chained l -> audit.nextAuditEntryLocked kind root at_ l = Ok e ->
  Z.of_nat (length l) < i64_max /\
  audit.NewEntry (Z.of_nat (length l) + 1) kind (match l with [] => ZeroRoot | e :: _ => audit.Root e end) root at_ = Ok e.
Proof.
  intros Hl H. unfold audit.nextAuditEntryLocked in H. rewrite audit.chained_head in H by done.
  destruct l as [|x l]; [done|]. pose proof (audit.chained_sequence _ 0 _ Hl eq_refl) as Hs. rewrite Nat.sub_0_r in Hs.
  apply audit.chained_range in Hl as [Hu Hm]. destruct (i64_max <=? audit.Sequence x) eqn:E; [done|].
  rewrite audit.u64_succ_i64, Hs in H by done. split; [lia|done].
Qed.

(** The next entry continues the chain. *)
Lemma next_links kind root at_ l e :
  audit.chained l -> length root = 32%nat -> datable at_ -> audit.nextAuditEntryLocked kind root at_ l = Ok e ->
  audit.chained (e :: l) /\ audit.Kind e = kind /\ audit.RecordRoot e = root /\ audit.Sequence e = Z.of_nat (length l) + 1.
Proof.
  intros Hl Hr [Ht Hi] [Hmax H]%next_is_new; [|done]. pose proof (audit.NewEntry_canonical _ _ _ _ _ _ H Ht) as C.
  apply audit.NewEntry_ok in H as (Hk & Hs & Hg & Hz & _ & E). pose proof (audit.prev_root_length l Hl) as Hp.
  rewrite E. cbn [audit.Sequence audit.Kind audit.RecordRoot]. split_and!; try done. rewrite E in C. clear E.
  cbn [audit.chained]. split_and!; [done| |cbn [audit.Sequence]; lia| |done].
  - split; cbn [audit.Sequence audit.Kind audit.PreviousRoot audit.RecordRoot audit.OccurredAt]; try done; [|lia].
    split; [lia|]. unfold u64_modulus, i64_max in *. lia.
  - destruct l as [|x l]; [done|]. pose proof (audit.chained_sequence _ 0 _ Hl eq_refl) as Hx.
    rewrite Nat.sub_0_r in Hx. cbn [audit.links audit.Sequence audit.PreviousRoot]. by rewrite Hx.
Qed.

(** The entry of a sequence number, in a chain. *)
Definition entry_at (l : audit.Ledger) (sequence : Z) (e : audit.Entry) : Prop :=
  e ∈ l /\ audit.Sequence e = sequence.

Lemma entry_at_cons x l sequence e : entry_at l sequence e -> entry_at (x :: l) sequence e.
Proof. intros [H1 H2]. split; [by right|done]. Qed.

Lemma ledgerRow_entry d sequence e :
  audit.chained (audit_ledger d) -> entry_at (audit_ledger d) sequence e -> ledgerRow sequence d = Some e.
Proof.
  unfold ledgerRow, entry_at. generalize (audit_ledger d). intros l Hl [He Hs]. induction l as [|x l IH]; [by apply elem_of_nil in He|].
  cbn [List.find]. destruct (audit.Sequence x =? sequence) eqn:E.
  - f_equal. apply Z.eqb_eq in E. apply list_elem_of_lookup_1 in He as [i Hi].
    pose proof (audit.chained_sequence _ i _ Hl Hi) as H1. pose proof (audit.chained_sequence _ 0 _ Hl eq_refl) as H2.
    apply lookup_lt_Some in Hi as Hlt. assert (i = 0%nat) as -> by lia. by injection Hi.
  - apply elem_of_cons in He as [->|He]; [lia|]. apply IH; [by destruct Hl as (_ & _ & _ & _ & ?)|done].
Qed.

(** The entry that an append adds. *)
Lemma appendNext_spec kind root at_ w d w' d' e :
  audit.chained (audit_ledger d) -> length root = 32%nat -> datable at_ -> appendNext kind root at_ (w, d) = ((w', d'), Ok e) ->
  d' = d <| audit_ledger := e :: audit_ledger d |> /\ audit.chained (e :: audit_ledger d) /\
  audit.Kind e = kind /\ audit.RecordRoot e = root /\ entry_at (e :: audit_ledger d) (audit.Sequence e) e.
Proof.
  intros Hl Hr Ht [H ->]%appendNext_ok. destruct (next_links _ _ _ _ _ Hl Hr Ht H) as (Hc & Hk & Hroot & _).
  split_and!; try done. split; [by left|done].
Qed.

(** The append of an entry is that of the ledger, or nothing. *)
Lemma insertAuditEntry_ok e w d w' d' :
  insertAuditEntry e (w, d) = ((w', d'), Ok tt) ->
  audit.insertAuditEntry true e (audit_ledger d) = Ok (e :: audit_ledger d) /\ d' = d <| audit_ledger := e :: audit_ledger d |>.
Proof.
  unfold insertAuditEntry. intros H%statement_ok. unfold audit.insertAuditEntry in *.
  destruct (_ || _); [done|]. by destruct (bigint _); simplify_eq.
Qed.

Lemma AppendAuditEntry_step e w d w' d' r :
  AppendAuditEntry e (w, d) = ((w', d'), r) ->
  d' = d \/ audit.AppendAuditEntry true e (audit_ledger d) = (e :: audit_ledger d, Ok tt) /\
             d' = d <| audit_ledger := e :: audit_ledger d |>.
Proof.
  unfold AppendAuditEntry, audit.AppendAuditEntry. destruct (audit.Validate e); [intros [= _ <- _]; by left|].
  destruct (i64_max <? _); [intros [= _ <- _]; by left|].
  intros [(err & _ & ->)|(w1 & w2 & [] & H & _)]%transaction_cases; [by left|right].
  apply bind_ok in H as ([] & [w3 d3] & H1 & H). apply query_cases in H1 as [-> _].
  apply bind_ok in H as (head & [w4 d4] & H2 & H). apply query_cases in H2 as [-> [[= ->]|[=]]].
  destruct (audit.auditHeadLocked _) as [[sequence root]|[]]; try done; destruct (_ || _); try done;
    apply insertAuditEntry_ok in H as [-> ->]; done.
Qed.

Section frames.
Context {P : evidencebundle.Platform} {D : Driver}.
Variable I : Database -> Prop.

(** ** Policies *)

Section policies.
Hypothesis I_version : forall s payload sg d d' b,
  policies.encodePolicySnapshot s = Ok payload -> I d -> policies.insertVersion s payload sg d = Some (d', b) -> I d'.
Hypothesis I_activation : forall e d d',
  lifecycle_status e = policy.LifecycleActive -> instant (event_at e) mod Microsecond = 0 ->
  policies.activation (lifecycle_policy_id e) (lifecycle_version e) d = None ->
  I d -> policies.insertEvent e d = Some (d', tt) -> I d'.
Hypothesis I_transition : forall old e d d',
  policies.latestEvent (lifecycle_policy_id e) (lifecycle_version e) d = Some old ->
  policies.validTransition (lifecycle_status old) (lifecycle_status e) = true ->
  instant (event_at e) mod Microsecond = 0 ->
  (instant (event_at old) mod Microsecond = 0 -> instant (event_at old) <= instant (event_at e)) ->
  I d -> policies.insertEvent e d = Some (d', tt) -> I d'.
Context {L : DriverLaws D}.

Lemma whole_microseconds t : instant (column t) mod Microsecond = 0.
Proof. rewrite column_instant. unfold TruncateMicrosecond, Microsecond. cbn [instant]. lia. Qed.

Lemma insertActivation_keeps s approval at_ w d w' d' :
  I d -> policies.insertActivation s approval at_ (w, d) = ((w', d'), Ok tt) -> I d'.
Proof.
  intros Hd (existing & [w1 d1] & H1 & H)%bind_ok. apply query_cases in H1 as [-> [[= ->]|[=]]].
  destruct (policies.activation _ _ d) as [e|] eqn:Ea.
  - destruct (approved_by e), (approved_at e); try done. destruct (_ && _); [|done]. by injection H as _ <-.
  - apply statement_ok in H. eapply I_activation; [..|exact H]; try done. apply whole_microseconds.
Qed.

Lemma Add_keeps a : preserves I (policies.Add a).
Proof.
  unfold policies.Add. destruct a as [a|]; [|apply preserves_fail].
  destruct (policy.verifiedVersion (policy.verified a)) as [version|]; [|apply preserves_fail]. cbv zeta.
  apply preserves_lift_bind. intros payload Hp. apply preserves_transaction. intros w d w' d' [] Hd H.
  apply bind_ok in H as ([] & [w1 d1] & H1 & H). apply query_cases in H1 as [-> _].
  apply bind_ok in H as (existing & [w2 d2] & H2 & H). apply query_cases in H2 as [-> _].
  apply bind_ok in H as ([] & [w3 d3] & H3 & H). eapply insertActivation_keeps; [|exact H].
  destruct existing as [row|].
  - destruct (_ && _); [|done]. by injection H3 as _ <-.
  - apply bind_ok in H3 as (inserted & [w4 d4] & H4 & H3). apply statement_ok in H4.
    assert (I d4) by eauto. destruct inserted; [|done]. by injection H3 as _ <-.
Qed.

Lemma transitionPolicy_keeps pid version target at_ : preserves I (policies.transitionPolicy pid version target at_).
Proof.
  unfold policies.transitionPolicy. cbv zeta. destruct (_ || _ || _); [apply preserves_fail|].
  apply preserves_bind; [|intros ?; apply preserves_ret]. apply preserves_transaction_opt.
  intros w d w' d' [] Hd H. apply bind_ok in H as ([] & [w1 d1] & H1 & H). apply query_cases in H1 as [-> _].
  destruct (query _ (w1, d)) as [[w2 d2] [[e|]|]] eqn:E; [|done|done].
  apply query_cases in E as [-> [[= E]|[=]]]. destruct (_ && TimeEqual _ _); [done|].
  destruct (policies.validTransition _ _) eqn:Ev; [|done]. cbn [negb orb] in H.
  destruct (Before (UTC at_) (event_at e)) eqn:Eb; [done|]. apply bind_ok in H as ([] & [w3 d3] & H3 & H).
  apply statement_ok in H3. injection H as _ <-. eapply I_transition; [| | | |exact Hd|exact H3]; cbn.
  - by symmetry.
  - done.
  - apply whole_microseconds.
  - intros Hm. rewrite column_instant. unfold Before in Eb. unfold TruncateMicrosecond, Microsecond in *. cbn [instant UTC] in *. lia.
Qed.
End policies.

(** ** Evidence *)

Lemma SaveEvidence_keeps others s :
  (forall s payload d d' k, I d -> evidences.insertEvidence s payload d = Some (d', k) -> I d') ->
  (forall d, I d -> I (others d)) -> preserves I (evidences.SaveEvidence others s).
Proof.
  intros Hi Ho. apply preserves_lift_bind. intros object _. cbv zeta.
  destruct (evidencebundle.MarshalEvidence _) as [payload|]; [|apply preserves_fail].
  apply preserves_bind; [apply preserves_exec; eauto|]. intros k. destruct (k =? 1); [apply preserves_ret|].
  apply preserves_bind; [intros w d w' d' r Hd [= <- <- <-]; by apply Ho|]. intros _.
  apply preserves_bind; [apply preserves_query|]. intros [existing|]; [|apply preserves_fail].
  apply preserves_bind; [apply preserves_lift|]. intros e.
  destruct (evidence.SameSubmission _ _ _); [apply preserves_ret|apply preserves_fail].
Qed.

End frames.
