(* ===== verification/PgSound.v ===== *)
(** * The invariant of the PostgreSQL store

    In every database that the calls of the store can produce, whatever is answered
    to their statements, the ledger is a hash chain, and every evaluation, handover
    and bundle record stands in it under its own kind and root. *)

From Stdlib Require Import Ascii String.
From S2P Require Import Prelude GoTime GoString Uuid GoCrypto Responsibility AuditLedger Evaluation Outbox Policy Bundle.
From S2P Require Import Postgres PgResponsibility PgRecords PgOutbox PgEvaluations PgLedger.
From S2P Require Import Evidence Spatial Estimator PgPolicies PgEvidence PgLedger.
Import responsibility postgres.

Section sound.
Context {P : evidencebundle.Platform} {D : Driver} {L : DriverLaws D}.

(** A record with this kind and root is in the ledger, at this place. *)
Definition in_ledger (d : Database) (sequence kind : Z) (root : bytes) : Prop :=
  exists e, entry_at (audit_ledger d) sequence e /\ audit.Kind e = kind /\ audit.RecordRoot e = root.

(** What an assignment reads as. *)
Definition assignment_of (oid : string) (row : SnapshotRow) : Snapshot :=
  MkSnapshot oid (row_participant_id row) (row_version row) (UTC (row_assigned_at row)).

Definition assigned (oid : string) (row : SnapshotRow) : Prop :=
  valid_snapshot (assignment_of oid row) /\ row_version row <= i64_max /\ instant (row_assigned_at row) mod Microsecond = 0.

Definition event_of (k : string * Z) (row : HandoverRow) : TransferredEvent :=
  (handover.handoverEvent k.1 k.2 row) <| TransferredAt := UTC (transferred_at row) |>.

Definition handed_over (d : Database) (k : string * Z) (row : HandoverRow) : Prop :=
  valid_event (event_of k row) /\
  in_ledger d (handover_audit_sequence row) audit.RecordResponsibilityHandover (sha256 (transferPreimage (event_of k row))) /\
  exists current, responsibility_snapshots d !! k.1 = Some current /\ k.2 <= row_version current.

Definition evaluated (d : Database) (id : UUID) (row : EvaluationRow) : Prop :=
  exists sequence, evaluation_audit_records d !! (id, evaluation_version row) = Some sequence /\
    in_ledger d sequence audit.RecordEvaluation (sha256 (evaluation_snapshot row)).

Definition bundled (d : Database) (id : UUID) (row : BundleRow) : Prop :=
  Forall is_uuid [id; bundle_evaluation_id row; bundle_session_id row] /\
  evidencebundle.ValidateAuditRecord (evidencebundle.MkAuditRecord id (bundle_evaluation_id row) (bundle_session_id row)
    (UTC (generated_at row)) (bundle_root row)) = None /\
  length (bundle_root row) = 32%nat /\
  in_ledger d (bundle_audit_sequence row) audit.RecordEvidenceBundle (bundle_root row).

Definition estimated (d : Database) (k : string * Z) (row : EstimatorRow) : Prop :=
  NewPhysicalObjectID k.1 = Ok k.1 /\ k.2 <> 0 /\ k.2 <= i64_max /\
  in_ledger d (estimator_audit_sequence row) audit.RecordEstimator (sha256 (estimator_result row)).

Record sound (d : Database) : Prop := {
  sd_ledger : audit.chained (audit_ledger d);
  sd_assigned : map_Forall assigned (responsibility_snapshots d);
  sd_handover : map_Forall (handed_over d) (responsibility_handover_events d);
  sd_evaluation : map_Forall (evaluated d) (evaluations d);
  sd_bundle : map_Forall (bundled d) (evidence_bundle_audit_records d);
  sd_estimate : map_Forall (estimated d) (estimator_results d)
}.

(** ** Times *)

Lemma column_micro t : UnixMicro (column t) = UnixMicro t.
Proof.
  unfold UnixMicro. rewrite column_instant. unfold TruncateMicrosecond. cbn [instant]. f_equal.
  unfold unixEpochSeconds, Second, Microsecond. lia.
Qed.

Lemma column_whole t : instant (column t) mod Microsecond = 0.
Proof. rewrite column_instant. unfold TruncateMicrosecond, Microsecond. cbn [instant]. lia. Qed.

(** A time in UTC at a whole microsecond. *)
Definition utc_micros (t : Time) : Prop := location t = UTCLoc /\ instant t mod Microsecond = 0.

Lemma utc_micros_fixed t : t = TruncateMicrosecond (UTC t) -> utc_micros t.
Proof. destruct t as [i l]. intros [= H1 H2]. split; cbn; [done|]. unfold Microsecond in *. lia. Qed.

Lemma ValidateAuditRecord_micros r :
  evidencebundle.ValidateAuditRecord r = None -> utc_micros (evidencebundle.RecordGeneratedAt r).
Proof.
  unfold evidencebundle.ValidateAuditRecord. destruct (_ || _) eqn:E; [done|]. intros _.
  rewrite !orb_false_iff in E. destruct E as [[_ E] _]. apply negb_false_iff, bool_decide_eq_true in E.
  by apply utc_micros_fixed.
Qed.

(** ** Growth of the ledger *)

Lemma in_ledger_grows d d' sequence kind root :
  (exists l, audit_ledger d' = l ++ audit_ledger d) -> in_ledger d sequence kind root -> in_ledger d' sequence kind root.
Proof.
  intros [l Hl] (e & [He Hs] & Hk). exists e. split; [|done]. split; [|done]. rewrite Hl, elem_of_app. by right.
Qed.

(** What every call does to what is already recorded. *)
Record extends (d d' : Database) : Prop := {
  ex_ledger : exists l, audit_ledger d' = l ++ audit_ledger d;
  ex_records : evaluation_audit_records d ⊆ evaluation_audit_records d';
  ex_versions : forall oid row, responsibility_snapshots d !! oid = Some row ->
    exists row', responsibility_snapshots d' !! oid = Some row' /\ row_version row <= row_version row'
}.

#[export] Instance extends_preorder : PreOrder extends.
Proof.
  split.
  - intros d. split; [by exists []|done|]. intros oid row H. by exists row.
  - intros d1 d2 d3 [[l1 A1] B1 C1] [[l2 A2] B2 C2]. split.
    + exists (l2 ++ l1). by rewrite A2, A1, app_assoc.
    + by etrans.
    + intros oid row H. destruct (C1 _ _ H) as (row1 & H1 & E1). destruct (C2 _ _ H1) as (row2 & H2 & E2).
      exists row2. split; [done|lia].
Qed.

(** The rows of a handover that hold the same fact. *)
Definition same_fact (k : string * Z) (row row' : HandoverRow) : Prop :=
  event_of k row = event_of k row' /\ handover_audit_sequence row = handover_audit_sequence row'.

Lemma handed_over_extends d d' k row row' :
  extends d d' -> same_fact k row row' -> handed_over d k row -> handed_over d' k row'.
Proof.
  intros [A B C] [E1 E2] (H1 & H2 & current & H3 & H4). unfold handed_over. rewrite <- E1, <- E2.
  split_and!; [done|by eapply in_ledger_grows|]. destruct (C _ _ H3) as (row2 & H5 & H6). exists row2. split; [done|lia].
Qed.

Lemma evaluated_extends d d' id row : extends d d' -> evaluated d id row -> evaluated d' id row.
Proof.
  intros [A B C] (sequence & H1 & H2). exists sequence. split; [by eapply lookup_weaken|by eapply in_ledger_grows].
Qed.

Lemma bundled_extends d d' id row : extends d d' -> bundled d id row -> bundled d' id row.
Proof. intros [A B C] (H0 & H1 & H2 & H3). split_and!; [done..|by eapply in_ledger_grows]. Qed.

Lemma estimated_extends d d' k row : extends d d' -> estimated d k row -> estimated d' k row.
Proof. intros [A B C] (H0 & H1 & H2 & H3). split_and!; [done..|by eapply in_ledger_grows]. Qed.

(** A database that extends a sound one is sound where its new rows are. *)
Lemma sound_extends d d' :
  sound d -> extends d d' -> audit.chained (audit_ledger d') -> map_Forall assigned (responsibility_snapshots d') ->
  (forall k row, responsibility_handover_events d' !! k = Some row ->
     handed_over d' k row \/ exists old, responsibility_handover_events d !! k = Some old /\ same_fact k old row) ->
  (forall id row, evaluations d' !! id = Some row -> evaluated d' id row \/ evaluations d !! id = Some row) ->
  (forall id row, evidence_bundle_audit_records d' !! id = Some row ->
     bundled d' id row \/ evidence_bundle_audit_records d !! id = Some row) ->
  (forall k row, estimator_results d' !! k = Some row -> estimated d' k row \/ estimator_results d !! k = Some row) ->
  sound d'.
Proof.
  intros [Hl Ha Hh He Hb Hr] Hx Hl' Ha' Hh' He' Hb' Hr'. split; [done|done|..].
  - intros k row H. destruct (Hh' k row H) as [?|(old & Ho & Hs)]; [done|]. eapply handed_over_extends; [done|done|by apply Hh].
  - intros id row H. destruct (He' id row H) as [?|Ho]; [done|]. eapply evaluated_extends; [done|by apply He].
  - intros id row H. destruct (Hb' id row H) as [?|Ho]; [done|]. eapply bundled_extends; [done|by apply Hb].
  - intros k row H. destruct (Hr' k row H) as [?|Ho]; [done|]. eapply estimated_extends; [done|by apply Hr].
Qed.

(** Tables that the invariant does not read. *)
Lemma sound_outbox d m : sound d -> sound (d <| evaluation_outbox := m |>).
Proof. by intros []. Qed.

Lemma sound_keys d m : sound d -> sound (d <| trusted_verification_keys := m |>).
Proof. by intros []. Qed.

Lemma sound_revocations d m : sound d -> sound (d <| trust_key_revocations := m |>).
Proof. by intros []. Qed.

Lemma sound_policies d m : sound d -> sound (d <| policy_versions := m |>).
Proof. by intros []. Qed.

Lemma sound_lifecycle d l : sound d -> sound (d <| policy_lifecycle_events := l |>).
Proof. by intros []. Qed.

Lemma sound_evidence d m : sound d -> sound (d <| evidence_objects := m |>).
Proof. by intros []. Qed.

Lemma extends_same d d' :
  audit_ledger d' = audit_ledger d -> evaluation_audit_records d' = evaluation_audit_records d ->
  responsibility_snapshots d' = responsibility_snapshots d -> extends d d'.
Proof.
  intros A B C. split; [exists []; by rewrite A|by rewrite B|]. intros oid row H. exists row. by rewrite C.
Qed.

(** ** Assignments *)

(** A snapshot that a column can hold. *)
Definition storable (s : Snapshot) : Prop := instant (TruncateMicrosecond (AssignedAt s)) <> 0.

Lemma put_assignment d n :
  valid_snapshot n -> Version n <= i64_max -> storable n ->
  (forall row, responsibility_snapshots d !! ObjectID n = Some row -> row_version row <= Version n) ->
  let d' := d <| responsibility_snapshots := <[ObjectID n := handover.snapshotRow n]> (responsibility_snapshots d) |> in
  extends d d' /\ (map_Forall assigned (responsibility_snapshots d) -> map_Forall assigned (responsibility_snapshots d')).
Proof.
  intros [V1 V2 V3 V4] Hm Hs Hv d'. split.
  - split; [by exists []|done|]. intros oid row H. destruct (decide (oid = ObjectID n)) as [->|Hne].
    + exists (handover.snapshotRow n). split; [apply lookup_insert_eq|by apply Hv].
    + exists row. split; [|done]. etrans; [by apply lookup_insert_ne|done].
  - intros Ha. apply map_Forall_insert_2; [|done]. split_and!; [|done|apply column_whole].
    split; try done. cbn. by rewrite column_instant.
Qed.

Lemma sound_put d n :
  sound d -> valid_snapshot n -> Version n <= i64_max -> storable n ->
  (forall row, responsibility_snapshots d !! ObjectID n = Some row -> row_version row <= Version n) ->
  sound (d <| responsibility_snapshots := <[ObjectID n := handover.snapshotRow n]> (responsibility_snapshots d) |>).
Proof.
  intros Hd V Hm Hs Hv. destruct (put_assignment d n V Hm Hs Hv) as [Hx Ha].
  eapply sound_extends; [exact Hd|exact Hx|apply (sd_ledger _ Hd)|apply Ha, (sd_assigned _ Hd)|..]; cbn.
  - intros k row H. right. by exists row.
  - intros id row H. by right.
  - intros id row H. by right.
  - intros k row H. by right.
Qed.

(** What an update does: nothing, or it replaces the expected row. *)
Lemma updateSnapshot_cases n v fits d d' k :
  handover.updateSnapshot n v fits d = Some (d', k) ->
  (d' = d /\ k = 0) \/
  exists row, responsibility_snapshots d !! ObjectID n = Some row /\ row_version row = v /\
    fits (row_participant_id row) = true /\ instant (row_assigned_at row) < instant (column (AssignedAt n)) /\
    Version n <= i64_max /\ k = 1 /\
    d' = d <| responsibility_snapshots := <[ObjectID n := handover.snapshotRow n]> (responsibility_snapshots d) |>.
Proof.
  unfold handover.updateSnapshot, bigint. destruct (Version n <=? i64_max) eqn:Ev; [|done]. cbn [negb].
  destruct (responsibility_snapshots d !! ObjectID n) as [row|]; [|intros [= <- <-]; by left].
  destruct (_ && _ && _) eqn:E; intros [= <- <-]; [right|by left].
  rewrite !andb_true_iff in E. destruct E as [[E1 E2] E3]. unfold Before in E3. exists row. split_and!; try done; lia.
Qed.

Lemma normalized_valid s v n :
  is_u64 v -> normalizedSnapshot s v = Ok n -> storable s ->
  valid_snapshot n /\ Version n = v + 1 /\ storable n /\ ObjectID n = ObjectID s.
Proof.
  intros Hv (V & HV & _ & ->)%normalizedSnapshot_ok Hs; [|done]. split_and!; [by destruct V; split|done..].
Qed.

Lemma SaveResponsibility_sound s v : is_u64 v -> storable s -> preserves sound (handover.SaveResponsibility s v).
Proof.
  intros Hv Hs. apply preserves_lift_bind. intros n Hn.
  destruct (normalizedSnapshot s v) as [n'|] eqn:En; [|done]. injection Hn as ->.
  destruct (normalized_valid _ _ _ Hv En Hs) as (V & HV & Hs' & _). apply preserves_bind; [|intros k; apply preserves_one].
  apply preserves_exec. intros d d' k Hd H. destruct (v =? 0).
  - unfold handover.insertSnapshot, bigint in H. destruct (Version n <=? i64_max) eqn:Em; [|done]. cbn [negb] in H.
    destruct (responsibility_snapshots d !! ObjectID n) as [row|] eqn:E; injection H as <- <-; [done|].
    apply sound_put; [done..|lia|done|]. intros row. by rewrite E.
  - apply updateSnapshot_cases in H as [[-> _]|(row & E & Ev & _ & _ & Hm & _ & ->)]; [done|].
    apply sound_put; [done..|]. intros row'. rewrite E. intros [= <-]. lia.
Qed.


(** ** Transfers *)

(** The row of a new handover. *)
Definition handover_row (e : TransferredEvent) (sequence : Z) : HandoverRow :=
  MkHandoverRow (FromParticipantID e) (ToParticipantID e) (column (UTC (TransferredAt e))) "PENDING" None 0 "" None sequence.

(** The database after a transfer. *)
Definition transferred (n : Snapshot) (e : TransferredEvent) (entry : audit.Entry) (d : Database) : Database :=
  d <| responsibility_snapshots := <[ObjectID n := handover.snapshotRow n]> (responsibility_snapshots d) |>
    <| audit_ledger := entry :: audit_ledger d |>
    <| responsibility_handover_events :=
         <[(EventObjectID e, EventVersion e) := handover_row e (audit.Sequence entry)]> (responsibility_handover_events d) |>.

Lemma insertHandover_ok e sequence d d' :
  handover.insertHandover e sequence d = Some (d', tt) ->
  responsibility_handover_events d !! (EventObjectID e, EventVersion e) = None /\
  d' = d <| responsibility_handover_events :=
              <[(EventObjectID e, EventVersion e) := handover_row e sequence]> (responsibility_handover_events d) |>.
Proof.
  unfold handover.insertHandover. destruct (_ || _); [done|].
  destruct (responsibility_handover_events d !! _); [done|]. by intros [= <-].
Qed.

(** The body of a transfer that succeeds. *)
Lemma commit_body_ok n v e root w d w' d' :
  (do! affected <- exec (handover.updateSnapshot n v (fun p => p == FromParticipantID e));
   do! _ <- handover.responsibilityWriteResult affected;
   do! entry <- appendNext audit.RecordResponsibilityHandover root (TransferredAt e);
   exec (handover.insertHandover e (audit.Sequence entry))) (w, d) = ((w', d'), Ok tt) ->
  exists row entry, responsibility_snapshots d !! ObjectID n = Some row /\ row_version row = v /\
    row_participant_id row = FromParticipantID e /\ instant (row_assigned_at row) < instant (column (AssignedAt n)) /\
    Version n <= i64_max /\
    audit.nextAuditEntryLocked audit.RecordResponsibilityHandover root (TransferredAt e) (audit_ledger d) = Ok entry /\
    responsibility_handover_events d !! (EventObjectID e, EventVersion e) = None /\ d' = transferred n e entry d.
Proof.
  intros (k & [w1 d1] & H1 & H)%bind_ok. apply statement_ok in H1. apply bind_ok in H as ([] & [w2 d2] & H2 & H).
  unfold handover.responsibilityWriteResult, require_one in H2. destruct (k =? 1) eqn:Ek; [|done]. injection H2 as <- <-.
  apply updateSnapshot_cases in H1 as [[_ ->]|(row & E & Ev & Ef & Et & Em & _ & ->)]; [done|].
  apply bind_ok in H as (entry & [w3 d3] & H3 & H). apply appendNext_ok in H3 as [H3 ->].
  apply statement_ok, insertHandover_ok in H as [Hn ->]. exists row, entry. apply bool_decide_eq_true in Ef. by split_and!.
Qed.

Lemma transferPreimage_micro e e' :
  EventObjectID e = EventObjectID e' -> FromParticipantID e = FromParticipantID e' ->
  ToParticipantID e = ToParticipantID e' -> EventVersion e = EventVersion e' ->
  UnixMicro (TransferredAt e) = UnixMicro (TransferredAt e') -> transferPreimage e = transferPreimage e'.
Proof. unfold transferPreimage. by intros -> -> -> -> ->. Qed.

(** The row of a handover reads as the event, to the microsecond. *)
Lemma event_of_row e sequence :
  transferPreimage (event_of (EventObjectID e, EventVersion e) (handover_row e sequence)) = transferPreimage e.
Proof. apply transferPreimage_micro; try done. exact (column_micro (UTC (TransferredAt e))). Qed.

Lemma CommitTransfer_sound s v e :
  is_u64 v -> datable (TransferredAt e) -> preserves sound (handover.CommitTransfer s v e).
Proof.
  intros Hv Hr. apply preserves_lift_bind. intros n Hn. apply preserves_lift_bind. intros root Hroot.
  destruct (ValidateTransferCommit s v e) as [n'|] eqn:En; [|done]. injection Hn as ->.
  apply ValidateTransferCommit_ok in En as (V & HV & _ & -> & _ & Ve & Eo & Et & Ev & Ei); [|done].
  unfold TransferredEventRoot in Hroot. rewrite (proj2 (validateTransferredEvent_none e) Ve) in Hroot. injection Hroot as <-.
  apply preserves_transaction. intros w d w' d' [] Hd (row & entry & E & Hrow & Hp & Ht & Hm & Hnext & Hnone & ->)%commit_body_ok.
  destruct (next_links _ _ _ _ _ (sd_ledger _ Hd) (sha256_length _) Hr Hnext) as (Hc & Hk & Hrr & _).
  set (n := s <| AssignedAt := UTC (AssignedAt s) |>) in *.
  assert (storable n) as Hs by (unfold storable; cbn; rewrite <- Ei; apply (proj1 Hr)).
  destruct (put_assignment d n) as [Hx Ha]; [by destruct V; split|done|done| |].
  { intros row'. rewrite E. intros [= <-]. cbn in *. lia. }
  eapply (sound_extends d); [exact Hd| |exact Hc|apply Ha, (sd_assigned _ Hd)|..].
  - etrans; [exact Hx|]. split; [by exists [entry]|done|]. intros oid row' H. by exists row'.
  - intros k row' H. destruct (decide (k = (EventObjectID e, EventVersion e))) as [->|Hne].
    + left. cbn in H. rewrite lookup_insert_eq in H. injection H as <-. split_and!.
      * destruct Ve as [W1 W2 W3 W4 W5 W6]. split; try done. cbn. rewrite column_instant. apply (proj1 Hr).
      * exists entry. rewrite event_of_row. split_and!; [|done..]. split; [by left|done].
      * exists (handover.snapshotRow n). cbn. rewrite Eo, Ev. split; [apply lookup_insert_eq|done].
    + right. exists row'. split; [|done]. cbn in H. by rewrite lookup_insert_ne in H.
  - intros id row' H. by right.
  - intros id row' H. by right.
  - intros k row' H. by right.
Qed.

(** ** Delivery *)

(** A change of delivery columns alone. *)
Lemma sound_delivery d m :
  sound d ->
  (forall k row, m !! k = Some row -> exists old, responsibility_handover_events d !! k = Some old /\ same_fact k old row) ->
  sound (d <| responsibility_handover_events := m |>).
Proof.
  intros Hd Hm. eapply (sound_extends d); [exact Hd|by apply extends_same|apply (sd_ledger _ Hd)|apply (sd_assigned _ Hd)|..].
  - intros k row H. right. by apply Hm.
  - intros id row H. by right.
  - intros id row H. by right.
  - intros k row H. by right.
Qed.

Lemma claimable_in locked limit at_ d kv :
  kv ∈ handover.claimable locked limit at_ d ->
  responsibility_handover_events d !! kv.1 = Some kv.2 /\ locked kv.1 = false /\ handover.readyAt at_ kv.2 = true.
Proof.
  intros H%list_elem_of_In. unfold handover.claimable in H. apply list_elem_of_In in H.
  apply subseteq_take in H. rewrite merge_sort_Permutation in H. apply list_elem_of_In, filter_In in H as [H1 H2].
  apply list_elem_of_In in H1. destruct kv as [k row]. apply elem_of_map_to_list in H1.
  apply andb_true_iff in H2 as [H2 H3]. by apply negb_true_iff in H2.
Qed.

Lemma claimRows_lookup rows worker until d k row :
  responsibility_handover_events (handover.claimRows rows worker until d) !! k = Some row ->
  responsibility_handover_events d !! k = Some row \/
  exists old, (k, old) ∈ rows /\ row = handover.claimRow worker until old.
Proof.
  unfold handover.claimRows. cbn. induction rows as [|[k' old] rows IH]; cbn; [by left|].
  destruct (decide (k = k')) as [->|Hne].
  - rewrite lookup_insert_eq. intros [= <-]. right. exists old. split; [by left|done].
  - rewrite lookup_insert_ne by done. intros [H|(o & H & ->)]%IH; [by left|right]. exists o. split; [by right|done].
Qed.

Lemma ClaimResponsibilityTransfers_sound locked claim :
  preserves sound (handover.ClaimResponsibilityTransfers locked claim).
Proof.
  unfold handover.ClaimResponsibilityTransfers. destruct (DeliveryClaim_Validate claim); [apply preserves_fail|].
  apply preserves_transaction. intros w d w' d' l Hd H%statement_ok. cbv zeta in H. destruct (existsb _ _); [done|].
  injection H as <- _. apply (sound_delivery d); [done|]. intros k row [H|(old & H & ->)]%claimRows_lookup; [by exists row|].
  apply claimable_in in H as (H & _). by exists old.
Qed.

Lemma MarkResponsibilityTransferPublished_sound oid v worker at_ :
  preserves sound (handover.MarkResponsibilityTransferPublished oid v worker at_).
Proof.
  unfold handover.MarkResponsibilityTransferPublished. destruct (_ == ""); [apply preserves_fail|].
  destruct (IsZero at_); [apply preserves_fail|]. apply preserves_bind; [|intros k; apply preserves_one].
  apply preserves_exec. intros d d' k Hd H. destruct (negb _); [done|].
  destruct (responsibility_handover_events d !! (oid, v)) as [row|] eqn:E; [|by injection H as <- <-].
  destruct (_ && _ && _); injection H as <- <-; [|done]. apply sound_delivery; [done|]. intros key row' H.
  destruct (decide (key = (oid, v))) as [->|Hne].
  - rewrite lookup_insert_eq in H. injection H as <-. by exists row.
  - rewrite lookup_insert_ne in H by done. by exists row'.
Qed.

Lemma ReleaseExpiredResponsibilityLocks_sound at_ :
  preserves sound (handover.ReleaseExpiredResponsibilityLocks at_).
Proof.
  unfold handover.ReleaseExpiredResponsibilityLocks. destruct (IsZero at_); [apply preserves_fail|].
  apply preserves_exec. intros d d' k Hd [= <- <-]. apply sound_delivery; [done|]. intros key row H.
  rewrite lookup_fmap in H. destruct (responsibility_handover_events d !! key) as [old|]; [|done]. injection H as <-.
  exists old. split; [done|]. unfold handover.releaseRow. by destruct (handover.lockExpired _ old).
Qed.

(** ** Evaluations *)

(** ** Outbox records, inserted *)

Lemma insertOutboxRecords_ok records w d w' d' :
  outbox_repository.insertOutboxRecords records (w, d) = ((w', d'), Ok tt) ->
  exists m, d' = d <| evaluation_outbox := m |>.
Proof.
  revert w d. induction records as [|r records IH]; cbn [outbox_repository.insertOutboxRecords]; intros w d.
  - intros [= <- <-]. exists (evaluation_outbox d). by destruct d.
  - destruct (outbox_repository.validateOutboxRecord r); [done|]. intros ([] & [w1 d1] & H1 & H)%bind_ok.
    apply statement_ok in H1. unfold outbox_repository.insertRow in H1. destruct (_ || _ || _ || _); [done|].
    destruct (evaluation_outbox d !! _); [done|]. injection H1 as <-. apply IH in H as [m ->]. by exists m.
Qed.

(** What is written of an evaluation. *)
Lemma persistSnapshot_ok s v payload w d w' d' :
  evaluations.persistSnapshot s v payload (w, d) = ((w', d'), Ok tt) ->
  exists created,
    match postgres.evaluations d !! evaluation.SnapEvaluationID s with
    | None => v = 0
    | Some row => evaluation_version row = v /\ v <> 0
    end /\
    d' = d <| postgres.evaluations :=
                <[evaluation.SnapEvaluationID s := evaluations.evaluationRow s payload created]> (postgres.evaluations d) |>.
Proof.
  unfold evaluations.persistSnapshot. destruct (v =? 0) eqn:Ev.
  - intros H%statement_ok. unfold evaluations.insertEvaluation in H. destruct (negb _); [done|].
    destruct (postgres.evaluations d !! _); [done|]. injection H as <-. eexists. split; [lia|done].
  - intros (k & [w1 d1] & H1 & H)%bind_ok. apply statement_ok in H1. unfold require_one in H.
    destruct (k =? 1) eqn:Ek; [|done]. injection H as <- <-. unfold evaluations.updateEvaluation in H1.
    destruct (negb _); [done|]. destruct (postgres.evaluations d !! _) as [row|]; [|by injection H1 as <- <-].
    destruct (evaluation_version row =? v) eqn:E; [|by injection H1 as <- <-]. injection H1 as <- <-.
    eexists. split; [lia|done].
Qed.

(** The database after a save of an evaluation. *)
Lemma save_body_ok s v payload records w d w' d' :
  (do! _ <- evaluations.persistSnapshot s v payload;
   do! entry <- appendNext audit.RecordEvaluation (sha256 payload) (evaluations.evaluationOccurredAt s);
   do! _ <- exec (evaluations.bindAuditEntry (evaluation.SnapEvaluationID s) (evaluation.SnapVersion s) (audit.Sequence entry));
   outbox_repository.insertOutboxRecords records) (w, d) = ((w', d'), Ok tt) ->
  exists entry created m,
    audit.nextAuditEntryLocked audit.RecordEvaluation (sha256 payload) (evaluations.evaluationOccurredAt s) (audit_ledger d) =
      Ok entry /\
    evaluation_audit_records d !! (evaluation.SnapEvaluationID s, evaluation.SnapVersion s) = None /\
    match postgres.evaluations d !! evaluation.SnapEvaluationID s with
    | None => v = 0
    | Some row => evaluation_version row = v /\ v <> 0
    end /\
    d' = d <| postgres.evaluations := <[evaluation.SnapEvaluationID s := evaluations.evaluationRow s payload created]> (postgres.evaluations d) |>
           <| audit_ledger := entry :: audit_ledger d |>
           <| evaluation_audit_records :=
                <[(evaluation.SnapEvaluationID s, evaluation.SnapVersion s) := audit.Sequence entry]> (evaluation_audit_records d) |>
           <| evaluation_outbox := m |>.
Proof.
  intros ([] & [w1 d1] & H1 & H)%bind_ok. apply bind_ok in H as (entry & [w2 d2] & H2 & H).
  apply appendNext_ok in H2 as [H2 ->]. apply bind_ok in H as ([] & [w3 d3] & H3 & H). apply statement_ok in H3.
  apply insertOutboxRecords_ok in H as [m ->]. unfold evaluations.bindAuditEntry in H3. cbn in H3.
  destruct (existsb _ _); [done|]. destruct (evaluation_audit_records d1 !! _) eqn:Er; [done|]. injection H3 as <-.
  apply persistSnapshot_ok in H1 as (created & Hv & ->). exists entry, created, m. by split_and!.
Qed.

Lemma SaveEvaluation_sound s v records :
  datable (evaluations.evaluationOccurredAt s) -> preserves sound (evaluations.SaveEvaluation s v records).
Proof.
  intros Ht. apply preserves_lift_bind. intros payload Hp. destruct (_ && _); [apply preserves_fail|].
  apply preserves_transaction. intros w d w' d' [] Hd (entry & created & m & Hn & Hr & _ & ->)%save_body_ok. apply sound_outbox.
  destruct (next_links _ _ _ _ _ (sd_ledger _ Hd) (sha256_length payload) Ht Hn) as (Hc & Hk & Hrr & _).
  eapply (sound_extends d); [exact Hd| |exact Hc|apply (sd_assigned _ Hd)|..].
  - split; [by exists [entry]|by apply insert_subseteq|]. intros oid row H. by exists row.
  - intros k row H. right. by exists row.
  - intros id row H. cbn in H. destruct (decide (id = evaluation.SnapEvaluationID s)) as [->|Hne].
    + left. rewrite lookup_insert_eq in H. injection H as <-. exists (audit.Sequence entry).
      split; [apply lookup_insert_eq|]. exists entry. split_and!; [|done..]. split; [by left|done].
    + right. by rewrite lookup_insert_ne in H.
  - intros id row H. by right.
  - intros k row H. by right.
Qed.

(** ** Bundle records, keys and the outbox *)

Lemma column_utc t : utc_micros t -> UTC (column t) = t.
Proof.
  intros [H1 H2]. destruct t as [i l]. unfold UTC. rewrite column_instant. cbn in *. subst l. f_equal.
  unfold Microsecond in *. lia.
Qed.

(** The widths of Go's arrays, and a time the ledger can hold. *)
Definition sized_record (r : evidencebundle.AuditRecord) : Prop :=
  Forall is_uuid [evidencebundle.RecordBundleID r; evidencebundle.RecordEvaluationID r; evidencebundle.RecordSessionID r] /\
  length (evidencebundle.RecordBundleRoot r) = 32%nat /\ datable (evidencebundle.RecordGeneratedAt r).

Lemma SaveEvidenceBundleAudit_sound r :
  sized_record r -> preserves sound (records.SaveEvidenceBundleAudit r).
Proof.
  intros (Hids & Hlen & Ht). unfold records.SaveEvidenceBundleAudit.
  destruct (evidencebundle.ValidateAuditRecord r) eqn:Ev; [apply preserves_fail|].
  apply preserves_transaction. intros w d w' d' [] Hd H. apply bind_ok in H as (entry & [w1 d1] & H1 & H).
  destruct (appendNext_spec _ _ _ _ _ _ _ _ (sd_ledger _ Hd) Hlen Ht H1) as (-> & Hc & Hk & Hr & Hat).
  apply bind_ok in H as (k & [w2 d2] & H2 & H). apply statement_ok in H2. unfold require_one in H.
  destruct (k =? 1) eqn:Ek; [|done]. injection H as <- <-. unfold records.insertBundleRecord in H2. cbn in H2.
  destruct (evidence_bundle_audit_records d !! _) eqn:E; [by injection H2 as <- <-|].
  destruct (existsb _ _); [done|]. injection H2 as <- <-.
  eapply (sound_extends d); [exact Hd| |exact Hc|apply (sd_assigned _ Hd)|..].
  - split; [by exists [entry]|done|]. intros oid row H. by exists row.
  - intros key row H. right. by exists row.
  - intros id row H. by right.
  - intros id row H. cbn in H. destruct (decide (id = evidencebundle.RecordBundleID r)) as [->|Hne].
    + left. rewrite lookup_insert_eq in H. injection H as <-. split_and!; [done| |done|].
      * cbn [bundle_evaluation_id bundle_session_id generated_at bundle_root]. rewrite column_utc; [by destruct r|].
        by apply ValidateAuditRecord_micros.
      * exists entry. by split_and!.
    + right. by rewrite lookup_insert_ne in H.
  - intros k' row H. by right.
Qed.

(** ** Estimates *)

Lemma ValidateResult_object r :
  estimator.ValidateResult r = None ->
  let q := estimator.request (estimator.Replay r) in
  NewPhysicalObjectID (estimator.ObjectID q) = Ok (estimator.ObjectID q) /\ estimator.Sequence q <> 0.
Proof.
  unfold estimator.ValidateResult, estimator.ValidateRequest. set (q := estimator.request _). intros H.
  destruct (NewPhysicalObjectID _) as [oid|]; [|done].
  destruct (oid != _) eqn:Eo; [done|]. apply negb_false_iff, bool_decide_eq_true in Eo. subst oid. split; [done|].
  destruct (_ || _); [done|]. destruct (_ || _ || _); [done|]. destruct (spatial.NewFrameID _); [|done].
  destruct (_ != _); [done|]. destruct (_ || _ || _); [done|].
  destruct (estimator.Sequence q =? 0) eqn:E; [done|]. lia.
Qed.

Lemma SaveEstimatorResult_sound r :
  datable (estimator.CompletedAt (estimator.Replay r)) -> preserves sound (estimates.SaveEstimatorResult r).
Proof.
  intros Ht. unfold estimates.SaveEstimatorResult. cbv zeta.
  destruct (estimator.ValidateResult r) eqn:Ev; [apply preserves_fail|].
  destruct (i64_max <? _) eqn:Em; [apply preserves_fail|].
  destruct (estimates.MarshalResult r) as [payload|]; [|apply preserves_fail].
  apply preserves_transaction. intros w d w' d' [] Hd H. apply bind_ok in H as (entry & [w1 d1] & H1 & H).
  destruct (appendNext_spec _ _ _ _ _ _ _ _ (sd_ledger _ Hd) (sha256_length payload) Ht H1) as (-> & Hc & Hk & Hr & Hat).
  apply bind_ok in H as (k & [w2 d2] & H2 & H). apply statement_ok in H2. unfold require_one in H.
  destruct (k =? 1) eqn:Ek; [|done]. injection H as <- <-. unfold estimates.insertResult in H2. cbn in H2.
  destruct (estimator_results d !! _) eqn:E; [by injection H2 as <- <-|].
  destruct (_ || _); [done|]. injection H2 as <- <-. apply ValidateResult_object in Ev as [Ho Hs].
  eapply (sound_extends d); [exact Hd| |exact Hc|apply (sd_assigned _ Hd)|..].
  - split; [by exists [entry]|done|]. intros oid row H. by exists row.
  - intros key row H. right. by exists row.
  - intros id row H. by right.
  - intros id row H. by right.
  - intros key row H. cbn in H. destruct (decide (key = (estimator.ObjectID (estimator.request (estimator.Replay r)),
      estimator.Sequence (estimator.request (estimator.Replay r))))) as [->|Hne].
    + left. rewrite lookup_insert_eq in H. injection H as <-. split_and!; [done|done|cbn; lia|]. exists entry. by split_and!.
    + right. by rewrite lookup_insert_ne in H.
Qed.

(** The outbox alone. *)
Section outbox.
Variable I : Database -> Prop.
Hypothesis I_outbox : forall d m, I d -> I (d <| evaluation_outbox := m |>).

Lemma ClaimReady_frame locked request : preserves I (outbox_repository.ClaimReady locked request).
Proof.
  unfold outbox_repository.ClaimReady. destruct (outbox.ValidateClaimRequest request); [apply preserves_fail|].
  apply preserves_transaction. intros w d w' d' l Hd H. apply bind_ok in H as (rows & [w1 d1] & H1 & H).
  apply lift_ok in H as [_ [= -> ->]]. apply statement_ok in H1. cbv zeta in H1. destruct (existsb _ _); [done|].
  injection H1 as <- _. by apply I_outbox.
Qed.

Lemma updateOwned_frame id worker f d d' k :
  I d -> outbox_repository.updateOwned id worker f d = Some (d', k) -> I d'.
Proof.
  unfold outbox_repository.updateOwned. intros Hd. destruct (evaluation_outbox d !! id); [|by intros [= <- <-]].
  destruct (_ && _); intros [= <- <-]; [by apply I_outbox|done].
Qed.

Lemma MarkPublished_frame id worker at_ : preserves I (outbox_repository.MarkPublished id worker at_).
Proof.
  unfold outbox_repository.MarkPublished. destruct (id == NilUUID); [apply preserves_fail|].
  destruct (_ == ""); [apply preserves_fail|]. destruct (IsZero at_); [apply preserves_fail|].
  apply preserves_bind; [|intros k; apply preserves_one]. apply preserves_exec. intros d d' k. apply updateOwned_frame.
Qed.

Lemma persistFailedRecord_frame r worker : preserves I (outbox_repository.persistFailedRecord r worker).
Proof.
  unfold outbox_repository.persistFailedRecord. destruct (_ == ""); [apply preserves_fail|].
  apply preserves_bind; [|intros k; apply preserves_one]. apply preserves_exec. intros d d' k Hd H.
  destruct (i32_max <? _); [done|]. by eapply updateOwned_frame.
Qed.

Lemma ScheduleRetry_frame r worker : preserves I (outbox_repository.ScheduleRetry r worker).
Proof. unfold outbox_repository.ScheduleRetry. destruct (_ || _); [apply preserves_fail|apply persistFailedRecord_frame]. Qed.

Lemma MarkDeadLettered_frame r worker : preserves I (outbox_repository.MarkDeadLettered r worker).
Proof. unfold outbox_repository.MarkDeadLettered. destruct (_ || _); [apply preserves_fail|apply persistFailedRecord_frame]. Qed.

Lemma Insert_frame l : preserves I (transaction (outbox_repository.Insert l)).
Proof.
  apply preserves_transaction. unfold outbox_repository.Insert. induction l as [|r l IH]; cbn [outbox_repository.insertOutboxRecords].
  - by intros w d w' d' a Hd [= _ <- _].
  - intros w d w' d' [] Hd H. destruct (outbox_repository.validateOutboxRecord r); [done|].
    apply bind_ok in H as ([] & [w1 d1] & H1 & H). apply statement_ok in H1. eapply IH; [|exact H].
    unfold outbox_repository.insertRow in H1. repeat case_match; simplify_eq; by apply I_outbox.
Qed.

Lemma ReleaseExpiredLocks_frame at_ : preserves I (outbox_repository.ReleaseExpiredLocks at_).
Proof.
  unfold outbox_repository.ReleaseExpiredLocks. destruct (IsZero at_); [apply preserves_fail|].
  apply preserves_exec. intros d d' k Hd [= <- <-]. by apply I_outbox.
Qed.
End outbox.

(** The trust store alone. *)
Section keys.
Variable I : Database -> Prop.
Hypothesis I_insert : forall key d d' k, I d -> records.insertKey key d = Some (d', k) -> I d'.
Hypothesis I_revoke : forall id at_ d d' k, I d -> records.insertRevocation id at_ d = Some (d', k) -> I d'.

Lemma meanwhile_frame others : (forall d, I d -> I (others d)) -> preserves I (records.meanwhile others).
Proof. intros Ho w d w' d' r Hd [= <- <- <-]. by apply Ho. Qed.

Lemma ResolveVerificationKey_frame signer key : preserves I (records.ResolveVerificationKey signer key).
Proof. apply preserves_bind; [apply preserves_query|]. intros [k|]; [apply preserves_ret|apply preserves_fail]. Qed.

Lemma AddVerificationKey_frame others key :
  (forall d, I d -> I (others d)) -> preserves I (records.AddVerificationKey others key).
Proof.
  intros Ho. unfold records.AddVerificationKey. cbv zeta. destruct (_ || _); [apply preserves_fail|].
  destruct (match _ with None => false | Some _ => _ end); [apply preserves_fail|].
  apply preserves_bind; [apply preserves_exec; eauto|]. intros k. destruct (k =? 1); [apply preserves_ret|].
  apply preserves_bind; [by apply meanwhile_frame|]. intros _. apply preserves_bind; [apply ResolveVerificationKey_frame|].
  intros existing. destruct (records.sameStoredKey _ _); [apply preserves_ret|apply preserves_fail].
Qed.

Lemma RevokeVerificationKey_frame others others' signer key at_ :
  (forall d, I d -> I (others d)) -> (forall d, I d -> I (others' d)) ->
  preserves I (records.RevokeVerificationKey others others' signer key at_).
Proof.
  intros Ho Ho'. unfold records.RevokeVerificationKey. destruct (IsZero at_); [apply preserves_fail|].
  apply preserves_bind; [apply ResolveVerificationKey_frame|]. intros k. destruct (Before _ _); [apply preserves_fail|].
  apply preserves_bind; [by apply meanwhile_frame|]. intros _.
  apply preserves_bind; [apply preserves_exec; eauto|]. intros n. destruct (n =? 1); [apply preserves_ret|].
  apply preserves_bind; [by apply meanwhile_frame|]. intros _ w d w' d' r Hd H.
  destruct (records.ResolveVerificationKey _ _ (w, d)) as [[w1 d1] [existing|err]] eqn:E;
    apply ResolveVerificationKey_frame in E; try done; [|by injection H as <- <- <-].
  destruct (policy.RevokedAt existing) as [t|]; [destruct (TimeEqual _ _)|]; by injection H as <- <- <-.
Qed.
End keys.

(** ** Every call *)

(** [RAddKey], [RRevokeKey] and [RSaveEvidence] go to the database in several
    statements without a transaction: [others] are the calls of other clients that
    come in between. [RInsertOutbox] is a transaction of a client that inserts
    records with [Insert]. *)
Inductive Request :=
  | RSaveResponsibility (s : Snapshot) (expectedVersion : Z)
  | RCommitTransfer (s : Snapshot) (expectedVersion : Z) (e : TransferredEvent)
  | RClaimTransfers (locked : string * Z -> bool) (claim : DeliveryClaim)
  | RMarkTransferPublished (oid : PhysicalObjectID) (version : Z) (workerID : string) (publishedAt : Time)
  | RReleaseTransfers (at_ : Time)
  | RSaveEvaluation (s : evaluation.EvaluationSnapshot) (expectedVersion : Z) (records : list outbox.OutboxRecord)
  | RClaimReady (locked : UUID -> bool) (request : outbox.OutboxClaimRequest)
  | RMarkPublished (id : UUID) (workerID : string) (publishedAt : Time)
  | RScheduleRetry (r : outbox.OutboxRecord) (workerID : string)
  | RMarkDeadLettered (r : outbox.OutboxRecord) (workerID : string)
  | RReleaseLocks (at_ : Time)
  | RSaveBundle (r : evidencebundle.AuditRecord)
  | RSaveEstimate (r : estimator.Result)
  | RAddPolicy (activated : option policy.ActivatedVersion)
  | RTransition (policyID version : string) (target : policy.LifecycleStatus) (at_ : Time)
  | RAddKey (others : list (list Answer * Request)) (key : policy.VerificationKey)
  | RRevokeKey (others others' : list (list Answer * Request)) (signerID keyID : string) (at_ : Time)
  | RSaveEvidence (others : list (list Answer * Request)) (s : evidence.Snapshot)
  | RAppendAudit (e : audit.Entry)
  | RInsertOutbox (l : list outbox.OutboxRecord).

(** The result of a call, without its value. *)
Definition ignore {A} (m : call A) : call unit := do! _ <- m; aret tt.

(** The database after calls, one after the other, each with the answers it gets. *)
Definition serve (f : Request -> call unit) (d : Database) (s : list Answer * Request) : Database :=
  (f s.2 (s.1, d)).1.2.

Fixpoint perform (q : Request) : call unit :=
  match q with
  | RSaveResponsibility s v => handover.SaveResponsibility s v
  | RCommitTransfer s v e => handover.CommitTransfer s v e
  | RClaimTransfers locked claim => ignore (handover.ClaimResponsibilityTransfers locked claim)
  | RMarkTransferPublished oid v worker at_ => handover.MarkResponsibilityTransferPublished oid v worker at_
  | RReleaseTransfers at_ => ignore (handover.ReleaseExpiredResponsibilityLocks at_)
  | RSaveEvaluation s v l => evaluations.SaveEvaluation s v l
  | RClaimReady locked request => ignore (outbox_repository.ClaimReady locked request)
  | RMarkPublished id worker at_ => outbox_repository.MarkPublished id worker at_
  | RScheduleRetry r worker => outbox_repository.ScheduleRetry r worker
  | RMarkDeadLettered r worker => outbox_repository.MarkDeadLettered r worker
  | RReleaseLocks at_ => ignore (outbox_repository.ReleaseExpiredLocks at_)
  | RSaveBundle r => records.SaveEvidenceBundleAudit r
  | RSaveEstimate r => estimates.SaveEstimatorResult r
  | RAddPolicy a => policies.Add a
  | RTransition pid version target at_ => policies.transitionPolicy pid version target at_
  | RAddKey others key => records.AddVerificationKey (fold_left (serve perform) others) key
  | RRevokeKey others others' signer key at_ =>
      records.RevokeVerificationKey (fold_left (serve perform) others) (fold_left (serve perform) others') signer key at_
  | RSaveEvidence others s => evidences.SaveEvidence (fold_left (serve perform) others) s
  | RAppendAudit e => AppendAuditEntry e
  | RInsertOutbox l => transaction (outbox_repository.Insert l)
  end.

(** A property of a request and of those of other clients in between. *)
Fixpoint every (Q : Request -> Prop) (q : Request) : Prop :=
  Q q /\
  match q with
  | RAddKey others _ | RSaveEvidence others _ => foldr (fun s => and (every Q s.2)) True others
  | RRevokeKey others others' _ _ _ =>
      foldr (fun s => and (every Q s.2)) True others /\ foldr (fun s => and (every Q s.2)) True others'
  | _ => True
  end.

(** What Go's types grant of a request, and that its times fit the ledger. *)
Definition admissible : Request -> Prop := every (fun q =>
  match q with
  | RSaveResponsibility s v => is_u64 v /\ storable s
  | RCommitTransfer s v e => is_u64 v /\ datable (TransferredAt e)
  | RSaveEvaluation s v l => datable (evaluations.evaluationOccurredAt s)
  | RSaveBundle r => sized_record r
  | RSaveEstimate r => datable (estimator.CompletedAt (estimator.Replay r))
  | RAppendAudit e => audit.go_entry e
  | _ => True
  end).

Lemma preserves_ignore {A} (I : Database -> Prop) (m : call A) : preserves I m -> preserves I (ignore m).
Proof. intros H. apply preserves_bind; [done|]. intros a. apply preserves_ret. Qed.

Lemma insertKey_frame (I : Database -> Prop) key d d' k :
  (forall d m, I d -> I (d <| trusted_verification_keys := m |>)) -> I d -> records.insertKey key d = Some (d', k) -> I d'.
Proof.
  intros Hi Hd. unfold records.insertKey. destruct (match _ with None => false | Some _ => _ end); [done|].
  destruct (trusted_verification_keys d !! _); intros [= <- <-]; [done|by apply Hi].
Qed.

Lemma insertRevocation_frame (I : Database -> Prop) id at_ d d' k :
  (forall d m, I d -> I (d <| trust_key_revocations := m |>)) -> I d ->
  records.insertRevocation id at_ d = Some (d', k) -> I d'.
Proof.
  intros Hi Hd. unfold records.insertRevocation. destruct (trusted_verification_keys d !! id); [|done].
  destruct (Before _ _); [done|]. destruct (trust_key_revocations d !! id); intros [= <- <-]; [done|by apply Hi].
Qed.

(** Requests that others may come into. *)
Definition interleaved (q : Request) : bool :=
  match q with
  | RAddKey _ _ | RRevokeKey _ _ _ _ _ | RSaveEvidence _ _ => true
  | _ => false
  end.

(** What every request keeps by itself, and the statements of the interleaved ones
    keep, is kept by every request, whatever comes in between. *)
Lemma perform_preserves (I : Database -> Prop) (Q : Request -> Prop) :
  (forall key d d' k, I d -> records.insertKey key d = Some (d', k) -> I d') ->
  (forall id at_ d d' k, I d -> records.insertRevocation id at_ d = Some (d', k) -> I d') ->
  (forall s payload d d' k, I d -> evidences.insertEvidence s payload d = Some (d', k) -> I d') ->
  (forall q, Q q -> interleaved q = false -> preserves I (perform q)) ->
  forall q, every Q q -> preserves I (perform q).
Proof.
  intros Hkey Hrev Hev HQ. fix IH 1.
  assert (forall l, foldr (fun s => and (every Q s.2)) True l -> forall d, I d -> I (fold_left (serve perform) l d)) as Hl.
  { intros l. induction l as [|[w q] l IHl]; intros Hq d Hd; [done|]. destruct Hq as [Hq Hr]. apply (IHl Hr).
    unfold serve. cbn [fst snd]. destruct (perform q (w, d)) as [[w' d'] r] eqn:E. by eapply IH. }
  intros q. destruct q as [| | | | | | | | | | | | | | |others key|others others' signer key at_|others s| |]; intros [Hq Ho].
  1-15, 19-20: by apply HQ.
  - apply AddVerificationKey_frame; [done..|]. by apply Hl.
  - destruct Ho. apply RevokeVerificationKey_frame; [done..| |]; by apply Hl.
  - apply SaveEvidence_keeps; [done|]. by apply Hl.
Qed.

Lemma insertEvidence_frame (I : Database -> Prop) s payload d d' k :
  (forall d m, I d -> I (d <| evidence_objects := m |>)) -> I d ->
  evidences.insertEvidence s payload d = Some (d', k) -> I d'.
Proof.
  intros Hi Hd. unfold evidences.insertEvidence. cbv zeta. destruct (Before _ _); [done|].
  destruct (evidence_objects d !! _); intros [= <- _]; [done|by apply Hi].
Qed.

Lemma insertVersion_frame (I : Database -> Prop) s payload sg d d' b :
  (forall d m, I d -> I (d <| policy_versions := m |>)) -> I d -> policies.insertVersion s payload sg d = Some (d', b) -> I d'.
Proof.
  intros Hi Hd. unfold policies.insertVersion. cbv zeta. destruct (_ || _); [done|].
  destruct (policy_versions d !! _); [done|]. destruct (existsb _ _); intros [= <- _]; [done|by apply Hi].
Qed.

Lemma insertEvent_frame (I : Database -> Prop) e d d' :
  (forall d l, I d -> I (d <| policy_lifecycle_events := l |>)) -> I d -> policies.insertEvent e d = Some (d', tt) -> I d'.
Proof.
  intros Hi Hd. unfold policies.insertEvent. cbv zeta. destruct (_ || _); [done|].
  destruct (policy_versions d !! _); [|done]. intros [= <-]. by apply Hi.
Qed.

(** Policies alone. *)
Lemma Add_frame (I : Database -> Prop) a :
  (forall d m, I d -> I (d <| policy_versions := m |>)) -> (forall d l, I d -> I (d <| policy_lifecycle_events := l |>)) ->
  preserves I (policies.Add a).
Proof.
  intros Hv He. refine (Add_keeps I _ _ a).
  - intros s payload sg d d' b _ Hd. by apply insertVersion_frame.
  - intros e d d' _ _ _ Hd. by apply insertEvent_frame.
Qed.

Lemma transitionPolicy_frame (I : Database -> Prop) pid version target at_ :
  (forall d l, I d -> I (d <| policy_lifecycle_events := l |>)) -> preserves I (policies.transitionPolicy pid version target at_).
Proof. intros He. refine (transitionPolicy_keeps I _ pid version target at_). intros old e d d' _ _ _ _ Hd. by apply insertEvent_frame. Qed.

Lemma AppendAuditEntry_sound e : audit.go_entry e -> preserves sound (AppendAuditEntry e).
Proof.
  intros G w d w' d' r Hd [->|[H ->]]%AppendAuditEntry_step; [done|].
  pose proof (audit.append_chained true e _ (sd_ledger _ Hd) G) as Hc. rewrite H in Hc.
  eapply sound_extends; [exact Hd| |exact Hc|apply (sd_assigned _ Hd)|..]; cbn.
  - split; [by exists [e]|done|]. intros oid row Hr. by exists row.
  - intros k row Hr. right. by exists row.
  - intros id row Hr. by right.
  - intros id row Hr. by right.
  - intros k row Hr. by right.
Qed.

Lemma perform_sound : forall q, admissible q -> preserves sound (perform q).
Proof.
  apply perform_preserves.
  - intros key d d' k. apply insertKey_frame, sound_keys.
  - intros id at_ d d' k. apply insertRevocation_frame, sound_revocations.
  - intros s payload d d' k. apply insertEvidence_frame, sound_evidence.
  - intros q. destruct q; intros Hq Hs; try discriminate Hs; cbn [perform].
    + apply SaveResponsibility_sound; apply Hq.
    + apply CommitTransfer_sound; apply Hq.
    + apply preserves_ignore, ClaimResponsibilityTransfers_sound.
    + apply MarkResponsibilityTransferPublished_sound.
    + apply preserves_ignore, ReleaseExpiredResponsibilityLocks_sound.
    + by apply SaveEvaluation_sound.
    + apply preserves_ignore, ClaimReady_frame, sound_outbox.
    + apply MarkPublished_frame, sound_outbox.
    + apply ScheduleRetry_frame, sound_outbox.
    + apply MarkDeadLettered_frame, sound_outbox.
    + apply preserves_ignore, ReleaseExpiredLocks_frame, sound_outbox.
    + by apply SaveEvidenceBundleAudit_sound.
    + by apply SaveEstimatorResult_sound.
    + apply Add_frame; [apply sound_policies|apply sound_lifecycle].
    + apply transitionPolicy_frame, sound_lifecycle.
    + by apply AppendAuditEntry_sound.
    + apply Insert_frame, sound_outbox.
Qed.

(** The databases that calls can produce, whatever is answered to them. *)
Inductive reachable : Database -> Prop :=
  | reachable_empty : reachable EmptyDatabase
  | reachable_call q wire d wire' d' r :
      reachable d -> admissible q -> perform q (wire, d) = ((wire', d'), r) -> reachable d'.

Lemma reachable_sound d : reachable d -> sound d.
Proof.
  induction 1 as [|q wire d wire' d' r _ IH Hq H].
  - split; try apply map_Forall_empty. done.
  - by eapply perform_sound.
Qed.

End sound.
