(* ===== verification/PgProperties.v ===== *)
(** * Properties of the PostgreSQL store

    What is stored is audited and found again; transfers refine the in-memory
    repository, to the microsecond; an outbox record in the hands of a worker is
    touched by nobody else; keys and revocations are permanent. *)

From Stdlib Require Import Ascii String.
From S2P Require Import Prelude GoTime GoString Uuid GoCrypto Responsibility AuditLedger Evaluation Outbox Policy Bundle.
From S2P Require Import Postgres PgResponsibility PgRecords PgOutbox PgEvaluations PgLedger PgSound PgRoundTrip.
From S2P Require Import Spatial Estimator PgEvidence.
Import responsibility postgres.

Section properties.
Context {P : evidencebundle.Platform} {D : Driver} {L : DriverLaws D}.

(** ** What is stored is audited *)

Lemma audited_in_ledger d sequence kind root :
  sound d -> in_ledger d sequence kind root -> length root = 32%nat ->
  audited (ledgerRow sequence d) kind root = true.
Proof.
  intros Hd (e & He & Hk & Hr) Hl. rewrite (ledgerRow_entry _ _ _ (sd_ledger _ Hd) He). unfold audited.
  rewrite Hk, Hr, Z.eqb_refl, Hl. by rewrite !bool_decide_eq_true_2.
Qed.

Lemma handover_found d k row :
  sound d -> responsibility_handover_events d !! k = Some row ->
  handover.FindTransfer k.1 k.2 ([], d) = (([], d), Ok (event_of k row)).
Proof.
  intros Hd H. destruct (sd_handover _ Hd _ _ H) as (Ve & Hin & current & Hc & Hle).
  destruct (sd_assigned _ Hd _ _ Hc) as (_ & Hm & _). unfold handover.FindTransfer, abind, exec, sent, bigint.
  rewrite (proj2 (Z.leb_le _ _)) by lia. cbn [negb tail]. destruct k as [oid v]. cbn [fst snd] in *. rewrite H. cbn [fmap option_fmap option_map].
  change ((handover.handoverEvent oid v row) <| TransferredAt := _ |>) with (event_of (oid, v) row).
  unfold TransferredEventRoot. rewrite (proj2 (validateTransferredEvent_none _) Ve).
  by rewrite (audited_in_ledger _ _ _ _ Hd Hin) by apply sha256_length.
Qed.

Lemma evaluation_found d id row :
  sound d -> evaluations d !! id = Some row -> id <> NilUUID ->
  evaluations.FindEvaluation id ([], d) = (([], d), evaluations.decodeSnapshot (evaluation_snapshot row)).
Proof.
  intros Hd H Hid. destruct (sd_evaluation _ Hd _ _ H) as (sequence & Hs & Hin).
  unfold evaluations.FindEvaluation. rewrite bool_decide_eq_false_2 by done. unfold abind. rewrite query_carried.
  unfold evaluations.joinedEvaluation. rewrite H, Hs. by rewrite (audited_in_ledger _ _ _ _ Hd Hin) by apply sha256_length.
Qed.

Lemma bundle_found d id row :
  sound d -> evidence_bundle_audit_records d !! id = Some row ->
  records.FindEvidenceBundleAudit id ([], d) =
  (([], d), Ok (evidencebundle.MkAuditRecord id (bundle_evaluation_id row) (bundle_session_id row) (UTC (generated_at row))
                  (bundle_root row))).
Proof.
  intros Hd H. destruct (sd_bundle _ Hd _ _ H) as (Hids & Hv & Hl & e & He & Hk & Hr).
  unfold records.FindEvidenceBundleAudit. rewrite bool_decide_eq_false_2.
  2: { intros ->. unfold evidencebundle.ValidateAuditRecord in Hv. cbn in Hv. done. }
  unfold abind. rewrite query_carried, H. cbn [fmap option_fmap option_map].
  rewrite (ledgerRow_entry _ _ _ (sd_ledger _ Hd) He), Hk, Hr, Hl. cbn [orb negb].
  rewrite bool_decide_eq_true_2 by done. cbn [orb negb]. rewrite !Forall_cons in Hids. destruct Hids as (I1 & I2 & I3 & _).
  rewrite !Parse_UuidString by done. rewrite !bool_decide_eq_true_2 by done. cbn [negb]. by rewrite Hv.
Qed.

Lemma estimate_found d k row :
  sound d -> estimator_results d !! k = Some row ->
  estimates.FindEstimatorResult k.1 k.2 ([], d) = (([], d), estimates.readResult k.1 k.2 (estimator_result row)).
Proof.
  intros Hd H. destruct (sd_estimate _ Hd _ _ H) as (Ho & Hs & Hm & Hin). destruct k as [oid sequence]. cbn [fst snd] in *.
  unfold estimates.FindEstimatorResult. rewrite Ho, bool_decide_eq_true_2 by done. cbn [negb orb].
  rewrite (proj2 (Z.eqb_neq _ _) Hs), (proj2 (Z.ltb_ge _ _) Hm). cbn [orb].
  unfold abind. rewrite query_carried, H. cbn [fmap option_fmap option_map].
  by rewrite (audited_in_ledger _ _ _ _ Hd Hin) by apply sha256_length.
Qed.

(** *** Whatever the database, only what is audited is found *)

Lemma ledgerRow_in d sequence kind root :
  audited (ledgerRow sequence d) kind root = true -> in_ledger d sequence kind root.
Proof.
  unfold audited, ledgerRow. destruct (List.find _ _) as [e|] eqn:E; [|done]. rewrite !andb_true_iff, !bool_decide_eq_true.
  intros [[Hk%Z.eqb_eq _] Hr]. apply find_some in E as [Hin Hs%Z.eqb_eq]. exists e. split_and!; [|done|done].
  split; [by apply list_elem_of_In|done].
Qed.

Lemma transfer_audited d oid v w c e :
  handover.FindTransfer oid v (w, d) = (c, Ok e) ->
  exists row, responsibility_handover_events d !! (oid, v) = Some row /\
    in_ledger d (handover_audit_sequence row) audit.RecordResponsibilityHandover (sha256 (transferPreimage e)).
Proof.
  intros (found & [w1 d1] & H1 & H)%bind_ok. apply statement_ok in H1. destruct (negb _); [done|]. injection H1 as <- <-.
  destruct (responsibility_handover_events d !! (oid, v)) as [row|]; [|done]. exists row. split; [done|]. cbn in H.
  set (event := MkTransferredEvent _ _ _ _ _) in H. unfold TransferredEventRoot in H. destruct (validateTransferredEvent event); [done|].
  destruct (audited _ _ _) eqn:E; [|done]. injection H as _ <-. by apply ledgerRow_in.
Qed.

Lemma evaluation_audited d id w c e :
  evaluations.FindEvaluation id (w, d) = (c, Ok e) ->
  exists row sequence, evaluations d !! id = Some row /\
    evaluation_audit_records d !! (id, evaluation_version row) = Some sequence /\
    in_ledger d sequence audit.RecordEvaluation (sha256 (evaluation_snapshot row)).
Proof.
  unfold evaluations.FindEvaluation. destruct (id == NilUUID); [done|]. intros (found & [w1 d1] & H1 & H)%bind_ok.
  apply query_cases in H1 as [-> [[= ->]|[=]]]. unfold evaluations.joinedEvaluation in H.
  destruct (evaluations d !! id) as [row|]; [|done]. exists row.
  destruct (evaluation_audit_records d !! _) as [sequence|]; [|done]. exists sequence. split_and!; [done..|].
  destruct (audited _ _ _) eqn:E; [|done]. by apply ledgerRow_in.
Qed.

Lemma bundle_audited d id w c r :
  records.FindEvidenceBundleAudit id (w, d) = (c, Ok r) ->
  exists row, evidence_bundle_audit_records d !! id = Some row /\
    in_ledger d (bundle_audit_sequence row) audit.RecordEvidenceBundle (evidencebundle.RecordBundleRoot r).
Proof.
  unfold records.FindEvidenceBundleAudit. destruct (id == NilUUID); [done|]. intros (found & [w1 d1] & H1 & H)%bind_ok.
  apply query_cases in H1 as [-> [[= ->]|[=]]]. destruct (evidence_bundle_audit_records d !! id) as [row|]; [|done].
  exists row. split; [done|]. cbn in H. unfold ledgerRow in H. destruct (List.find _ _) as [e|] eqn:E; [|done].
  destruct (negb (length _ == _)%go || _ || _) eqn:Ek; [done|]. rewrite !orb_false_iff, !negb_false_iff in Ek.
  destruct Ek as [_ Hk%Z.eqb_eq].
  do 3 (destruct (Parse _); [|done]). destruct (bundle_root row != _) eqn:Er; [done|].
  apply negb_false_iff, bool_decide_eq_true in Er.
  destruct (evidencebundle.ValidateAuditRecord _); [done|]. destruct (_ != _); [done|]. injection H as _ <-. cbn.
  apply find_some in E as [Hin Hs%Z.eqb_eq]. exists e. split_and!; [|done|done]. split; [by apply list_elem_of_In|done].
Qed.

Lemma estimate_audited d oid sequence w c r :
  estimates.FindEstimatorResult oid sequence (w, d) = (c, Ok r) ->
  exists row, estimator_results d !! (oid, sequence) = Some row /\
    in_ledger d (estimator_audit_sequence row) audit.RecordEstimator (sha256 (estimator_result row)).
Proof.
  unfold estimates.FindEstimatorResult. destruct (NewPhysicalObjectID oid); [|done]. destruct (_ || _); [done|].
  intros (found & [w1 d1] & H1 & H)%bind_ok. apply query_cases in H1 as [-> [[= ->]|[=]]].
  destruct (estimator_results d !! (oid, sequence)) as [row|]; [|done]. exists row. split; [done|]. cbn in H.
  destruct (audited _ _ _) eqn:E; [|done]. by apply ledgerRow_in.
Qed.

(** A record that a finder returns has its own entry in the ledger. *)
Record only_audited (d : Database) : Prop := {
  oa_transfer oid v w c e : handover.FindTransfer oid v (w, d) = (c, Ok e) ->
    exists row, responsibility_handover_events d !! (oid, v) = Some row /\
      in_ledger d (handover_audit_sequence row) audit.RecordResponsibilityHandover (sha256 (transferPreimage e));
  oa_evaluation id w c e : evaluations.FindEvaluation id (w, d) = (c, Ok e) ->
    exists row sequence, evaluations d !! id = Some row /\
      evaluation_audit_records d !! (id, evaluation_version row) = Some sequence /\
      in_ledger d sequence audit.RecordEvaluation (sha256 (evaluation_snapshot row));
  oa_bundle id w c r : records.FindEvidenceBundleAudit id (w, d) = (c, Ok r) ->
    exists row, evidence_bundle_audit_records d !! id = Some row /\
      in_ledger d (bundle_audit_sequence row) audit.RecordEvidenceBundle (evidencebundle.RecordBundleRoot r);
  oa_estimate oid sequence w c r : estimates.FindEstimatorResult oid sequence (w, d) = (c, Ok r) ->
    exists row, estimator_results d !! (oid, sequence) = Some row /\
      in_ledger d (estimator_audit_sequence row) audit.RecordEstimator (sha256 (estimator_result row))
}.

Lemma finders_audit d : only_audited d.
Proof.
  split; intros; [by eapply transfer_audited|by eapply evaluation_audited|by eapply bundle_audited|by eapply estimate_audited].
Qed.

(** C9: the database is audited: in every database that the calls of the store can
    produce, whatever is answered to their statements (refused, or carried out with
    the answer lost), the ledger is a hash chain, and every transfer, evaluation,
    bundle record and estimate that is stored has its own entry in it, at the place
    its row names, of its kind and with its root: the SHA-256 of the transfer, of
    the stored snapshot or result, or the root of the bundle. The finders return the
    record and never report an audit error; and whatever the database, a finder only
    returns a record whose entry is in the ledger. *)
Theorem store_is_audited d :
  only_audited d /\
  (reachable d ->
  audit.chained (audit_ledger d) /\
  (forall k row, responsibility_handover_events d !! k = Some row ->
     in_ledger d (handover_audit_sequence row) audit.RecordResponsibilityHandover
       (sha256 (transferPreimage (event_of k row))) /\
     handover.FindTransfer k.1 k.2 ([], d) = (([], d), Ok (event_of k row))) /\
  (forall id row, evaluations d !! id = Some row ->
     (exists sequence, evaluation_audit_records d !! (id, evaluation_version row) = Some sequence /\
        in_ledger d sequence audit.RecordEvaluation (sha256 (evaluation_snapshot row))) /\
     (id <> NilUUID ->
      evaluations.FindEvaluation id ([], d) = (([], d), evaluations.decodeSnapshot (evaluation_snapshot row)))) /\
  (forall id row, evidence_bundle_audit_records d !! id = Some row ->
     in_ledger d (bundle_audit_sequence row) audit.RecordEvidenceBundle (bundle_root row) /\
     records.FindEvidenceBundleAudit id ([], d) =
     (([], d), Ok (evidencebundle.MkAuditRecord id (bundle_evaluation_id row) (bundle_session_id row)
                     (UTC (generated_at row)) (bundle_root row)))) /\
  (forall k row, estimator_results d !! k = Some row ->
     in_ledger d (estimator_audit_sequence row) audit.RecordEstimator (sha256 (estimator_result row)) /\
     estimates.FindEstimatorResult k.1 k.2 ([], d) =
     (([], d), estimates.readResult k.1 k.2 (estimator_result row)))).
Proof.
  split; [apply finders_audit|]. intros Hd%reachable_sound. split_and!; [apply (sd_ledger _ Hd)|..]; intros k row H.
  - split; [apply (sd_handover _ Hd _ _ H)|by apply handover_found].
  - split; [apply (sd_evaluation _ Hd _ _ H)|]. intros Hid. by apply evaluation_found.
  - split; [apply (sd_bundle _ Hd _ _ H)|by apply bundle_found].
  - split; [apply (sd_estimate _ Hd _ _ H)|by apply estimate_found].
Qed.

(** ** Evaluations are found again *)

Lemma rehydrated_id s e :
  evaluation.RehydrateEvaluation s = Ok e -> evaluation.SnapEvaluationID s <> NilUUID.
Proof.
  unfold evaluation.RehydrateEvaluation, evaluation.validateEvaluationSnapshot.
  intros H Hid. by rewrite (bool_decide_eq_true_2 _ Hid) in H.
Qed.

(** C13: persistence round trip through the database: an evaluation whose snapshot
    is plain data (UTF-8 text, UTC times, the widths of Go) and whose save succeeds
    is found as the aggregate that rehydrates from the snapshot, by a find whose
    statements are carried. *)
Theorem saved_evaluation_is_found s v records w d w' d' :
  reachable d -> datable (evaluations.evaluationOccurredAt s) -> plain_snapshot s ->
  evaluations.SaveEvaluation s v records (w, d) = ((w', d'), Ok tt) ->
  exists e, evaluation.RehydrateEvaluation s = Ok e /\
    evaluations.FindEvaluation (evaluation.SnapEvaluationID s) ([], d') = (([], d'), Ok e).
Proof.
  intros Hd Ht Hp H. assert (sound d') as Hd'.
  { eapply SaveEvaluation_sound; [exact Ht|by apply reachable_sound|exact H]. }
  unfold evaluations.SaveEvaluation in H. apply bind_ok in H as (payload & c & Hpay & H).
  apply lift_ok in Hpay as [Hpay ->]. destruct (_ && _); [done|]. apply transaction_ok in H as (w1 & w2 & H).
  apply save_body_ok in H as (entry & created & m & _ & _ & _ & ->).
  pose proof (decode_encoded s payload Hp Hpay) as Hdec. unfold evaluations.encodeSnapshot in Hpay.
  destruct (evaluation.RehydrateEvaluation s) as [e|] eqn:Er; [|done]. exists e. split; [done|].
  erewrite evaluation_found; [|exact Hd'|apply lookup_insert_eq|by eapply rehydrated_id].
  cbn [evaluation_snapshot evaluations.evaluationRow]. by rewrite Hdec.
Qed.

(** ** Transfers refine the in-memory repository *)

(** The assignments and transfers of a database, as the in-memory repository has
    them. *)
Definition as_memory (d : Database) : MemoryRepository :=
  MkMemoryRepository (map_imap (fun oid row => Some (assignment_of oid row)) (responsibility_snapshots d))
    (map_imap (fun k row => Some (event_of k row)) (responsibility_handover_events d)).

(** To the microsecond. *)
Definition micro_snapshot (s : Snapshot) : Snapshot := s <| AssignedAt := TruncateMicrosecond (AssignedAt s) |>.
Definition micro_event (e : TransferredEvent) : TransferredEvent := e <| TransferredAt := TruncateMicrosecond (TransferredAt e) |>.

Lemma as_memory_snapshot d oid : snapshots (as_memory d) !! oid = assignment_of oid <$> responsibility_snapshots d !! oid.
Proof. unfold as_memory. cbn [snapshots]. rewrite map_lookup_imap. by destruct (responsibility_snapshots d !! oid). Qed.

Lemma as_memory_event d k : transfers (as_memory d) !! k = event_of k <$> responsibility_handover_events d !! k.
Proof. unfold as_memory. cbn [transfers]. rewrite map_lookup_imap. by destruct (responsibility_handover_events d !! k). Qed.

Lemma utc_column t : UTC (column t) = UTC (TruncateMicrosecond t).
Proof. unfold UTC. by rewrite column_instant. Qed.

Lemma micro_commit s v e n :
  is_u64 v -> datable (TransferredAt e) -> ValidateTransferCommit s v e = Ok n ->
  ValidateTransferCommit (micro_snapshot s) v (micro_event e) = Ok (s <| AssignedAt := UTC (TruncateMicrosecond (AssignedAt s)) |>).
Proof.
  intros Hv Ht (V & HV & HR & -> & H0 & W & A & B & C & E)%ValidateTransferCommit_ok; [|done].
  assert (instant (TruncateMicrosecond (AssignedAt s)) <> 0) as Hz.
  { destruct Ht as [Ht _]. unfold TruncateMicrosecond in *. cbn [instant] in *. by rewrite <- E. }
  apply ValidateTransferCommit_ok; [done|]. split_and!; try done.
  - by destruct V; split.
  - destruct W; split; try done. apply (proj1 Ht).
  - cbn. by rewrite E.
Qed.

(** The transfer, in memory. *)
Lemma as_memory_transferred s e entry d :
  EventObjectID e = ObjectID s -> EventVersion e = Version s -> instant (TransferredAt e) = instant (AssignedAt s) ->
  let at_ := UTC (TruncateMicrosecond (AssignedAt s)) in
  as_memory (transferred (s <| AssignedAt := UTC (AssignedAt s) |>) e entry d) =
  (as_memory d) <| snapshots := <[ObjectID s := s <| AssignedAt := at_ |>]> (snapshots (as_memory d)) |>
                <| transfers := <[(ObjectID s, Version s) := e <| TransferredAt := at_ |>]> (transfers (as_memory d)) |>.
Proof.
  intros A B C at_. unfold as_memory, transferred. cbn. rewrite !map_imap_insert. cbn.
  unfold assignment_of, event_of, handover_row. cbn. rewrite !utc_column, A, B. unfold at_, UTC. cbn. rewrite C.
  destruct s, e. cbn in *. by subst.
Qed.

(** The in-memory commit at the microsecond, by cases on the row. *)
Lemma memory_commit_micro s v e n d :
  is_u64 v -> datable (TransferredAt e) -> ValidateTransferCommit s v e = Ok n ->
  memory_CommitTransfer (micro_snapshot s) v (micro_event e) (as_memory d) =
  match responsibility_snapshots d !! ObjectID s with
  | Some row =>
      if (row_version row =? v) && (row_participant_id row == FromParticipantID e) &&
         Before (row_assigned_at row) (column (AssignedAt n))
      then match responsibility_handover_events d !! (ObjectID s, Version s) with
           | Some _ => (as_memory d, Err ErrConcurrentModification)
           | None => (as_memory (transferred n e (audit.MkEntry 0 0 [] [] (AssignedAt s) []) d), Ok tt)
           end
      else (as_memory d, Err ErrConcurrentModification)
  | None => (as_memory d, Err ErrConcurrentModification)
  end.
Proof.
  intros Hv Ht Hn. pose proof (micro_commit s v e n Hv Ht Hn) as Hm.
  apply ValidateTransferCommit_ok in Hn as (_ & _ & _ & -> & _ & _ & A & _ & C & E); [|done].
  unfold memory_CommitTransfer. rewrite Hm. cbn [ObjectID Version]. rewrite as_memory_snapshot, as_memory_event. cbn.
  destruct (responsibility_snapshots d !! ObjectID s) as [row|]; cbn; [|done].
  unfold After, Before, UTC. rewrite column_instant. cbn.
  destruct (row_version row =? v), (row_participant_id row == FromParticipantID e) eqn:Ep; cbn; try done;
    try (apply bool_decide_eq_true in Ep); try (apply bool_decide_eq_false in Ep).
  all: rewrite ?(bool_decide_eq_true_2 _ Ep), ?(bool_decide_eq_false_2 _ Ep); cbn.
  all: try done; destruct (_ <? _); cbn; try done.
  all: destruct (responsibility_handover_events d !! _); cbn; [done|]; rewrite (as_memory_transferred s e _ d A C E); done.
Qed.

(** The refusal of a transfer. *)
Lemma commit_body_err n v e root w d c err :
  (do! affected <- exec (handover.updateSnapshot n v (fun p => p == FromParticipantID e));
   do! _ <- handover.responsibilityWriteResult affected;
   do! entry <- appendNext audit.RecordResponsibilityHandover root (TransferredAt e);
   exec (handover.insertHandover e (audit.Sequence entry))) (w, d) = (c, Err (ResponsibilityError err)) ->
  err = ErrConcurrentModification /\
  exists d' k, k <> 1 /\ handover.updateSnapshot n v (fun p => p == FromParticipantID e) d = Some (d', k).
Proof.
  intros [H|(k & [w1 d1] & H1 & H)]%bind_err; [by apply statement_err in H|]. apply statement_ok in H1.
  apply bind_err in H as [H|([] & c2 & H2 & H)].
  - unfold handover.responsibilityWriteResult, require_one in H. destruct (k =? 1) eqn:Ek; [done|].
    injection H as _ <-. split; [done|]. exists d1, k. split; [lia|done].
  - apply bind_err in H as [[[=]|[? [=]]]%appendNext_err|(entry & c3 & _ & H)]. by apply statement_err in H.
Qed.

(** The ledger takes a record: its next entry is formed, and its root is new. *)
Definition ledger_accepts (kind : Z) (root : bytes) (at_ : Time) (d : Database) : Prop :=
  exists entry l, audit.nextAuditEntryLocked kind root at_ (audit_ledger d) = Ok entry /\
    audit.insertAuditEntry true entry (audit_ledger d) = Ok l.

(** No handover has the sequence number of the next entry. *)
Lemma fresh_sequence d kind root at_ entry :
  sound d -> audit.nextAuditEntryLocked kind root at_ (audit_ledger d) = Ok entry ->
  audit.Sequence entry <= i64_max /\
  existsb (fun kv => handover_audit_sequence kv.2 =? audit.Sequence entry)
    (map_to_list (responsibility_handover_events d)) = false.
Proof.
  intros Hd H. apply next_is_new in H as [Hm H]; [|apply (sd_ledger _ Hd)].
  apply audit.NewEntry_ok in H as (_ & _ & _ & _ & _ & ->). cbn [audit.Sequence]. split; [lia|].
  apply not_true_is_false. intros ([k row] & Hin & Heq)%existsb_exists. cbn in Heq. apply list_elem_of_In, elem_of_map_to_list in Hin.
  destruct (sd_handover _ Hd _ _ Hin) as (_ & (x & [Hx Hs] & _) & _). apply list_elem_of_lookup_1 in Hx as [i Hi].
  pose proof (audit.chained_sequence _ _ _ (sd_ledger _ Hd) Hi). lia.
Qed.

(** Where every statement is carried, a transfer of the expected row is done. *)
Lemma commit_carried s v e n d row :
  sound d -> is_u64 v -> ValidateTransferCommit s v e = Ok n ->
  responsibility_snapshots d !! ObjectID s = Some row ->
  (row_version row =? v) && (row_participant_id row == FromParticipantID e) &&
    Before (row_assigned_at row) (column (AssignedAt n)) = true ->
  responsibility_handover_events d !! (ObjectID s, Version s) = None -> Version s <= i64_max ->
  ledger_accepts audit.RecordResponsibilityHandover (sha256 (transferPreimage e)) (TransferredAt e) d ->
  exists d', handover.CommitTransfer s v e ([], d) = (([], d'), Ok tt).
Proof.
  intros Hd Hv Hn Hrow Hc Hnew Hm (entry & l & Hnext & Hins). destruct (fresh_sequence _ _ _ _ _ Hd Hnext) as [Hs Hf].
  unfold handover.CommitTransfer, abind at 1. rewrite Hn. cbn [lift omap_err].
  apply ValidateTransferCommit_ok in Hn as (_ & _ & _ & -> & _ & W & A & _ & C & _); [|done].
  unfold TransferredEventRoot. rewrite (proj2 (validateTransferredEvent_none e) W). unfold abind at 1. cbn [lift omap_err].
  rewrite transaction_carried. unfold abind at 1, exec, sent, handover.updateSnapshot, bigint. cbn [ObjectID Version].
  change (Version (s <| AssignedAt := UTC (AssignedAt s) |>)) with (Version s).
  change (ObjectID (s <| AssignedAt := UTC (AssignedAt s) |>)) with (ObjectID s).
  rewrite (proj2 (Z.leb_le _ _) Hm). cbn [negb]. rewrite Hrow, Hc. cbn [tail].
  set (d1 := d <| responsibility_snapshots := _ |>). unfold handover.responsibilityWriteResult, require_one, aret, abind.
  cbn [Z.eqb Pos.eqb]. rewrite (appendNext_carried _ _ _ d1 entry l Hnext Hins Hs).
  unfold handover.insertHandover, bigint. cbn [responsibility_handover_events]. unfold d1. cbn.
  rewrite C, (proj2 (Z.leb_le _ _) Hm), A, Hf, Hnew. cbn. by eexists.
Qed.

(** A transfer that is carried out is that of the in-memory repository. *)
Lemma committed_memory s v e n root w d w' d' :
  is_u64 v -> datable (TransferredAt e) -> ValidateTransferCommit s v e = Ok n ->
  (do! affected <- exec (handover.updateSnapshot n v (fun p => p == FromParticipantID e));
   do! _ <- handover.responsibilityWriteResult affected;
   do! entry <- appendNext audit.RecordResponsibilityHandover root (TransferredAt e);
   exec (handover.insertHandover e (audit.Sequence entry))) (w, d) = ((w', d'), Ok tt) ->
  memory_CommitTransfer (micro_snapshot s) v (micro_event e) (as_memory d) = (as_memory d', Ok tt).
Proof.
  intros Hv Ht Hn (row & entry & Hrow & Ev & Ep & Eb & _ & _ & Hnew & ->)%commit_body_ok.
  rewrite (memory_commit_micro s v e n d Hv Ht Hn).
  apply ValidateTransferCommit_ok in Hn as (_ & _ & _ & -> & _ & W & A & _ & C & E); [|done]. cbn [ObjectID] in Hrow.
  rewrite A, C in Hnew. change (ObjectID (s <| AssignedAt := _ |>)) with (ObjectID s) in Hrow.
  rewrite Hrow, Hnew. unfold Before. rewrite Ev, Z.eqb_refl, (bool_decide_eq_true_2 _ Ep), (proj2 (Z.ltb_lt _ _) Eb). cbn [andb].
  by rewrite !(as_memory_transferred s e _ d A C E).
Qed.

(** A transfer that is refused is refused by the in-memory repository. *)
Lemma refused_memory s v e n root w d c err :
  is_u64 v -> datable (TransferredAt e) -> ValidateTransferCommit s v e = Ok n ->
  (do! affected <- exec (handover.updateSnapshot n v (fun p => p == FromParticipantID e));
   do! _ <- handover.responsibilityWriteResult affected;
   do! entry <- appendNext audit.RecordResponsibilityHandover root (TransferredAt e);
   exec (handover.insertHandover e (audit.Sequence entry))) (w, d) = (c, Err (ResponsibilityError err)) ->
  memory_CommitTransfer (micro_snapshot s) v (micro_event e) (as_memory d) = (as_memory d, Err err).
Proof.
  intros Hv Ht Hn (-> & d1 & k & Hk & H)%commit_body_err. rewrite (memory_commit_micro s v e n d Hv Ht Hn).
  apply ValidateTransferCommit_ok in Hn as (_ & _ & _ & -> & _); [|done]. unfold handover.updateSnapshot in H.
  change (ObjectID (s <| AssignedAt := _ |>)) with (ObjectID s) in H.
  destruct (negb _); [done|]. destruct (responsibility_snapshots d !! ObjectID s) as [row|]; [|done].
  destruct (_ && _ && _); [|done]. injection H as _ <-. done.
Qed.

Lemma commit_cases s v e w d w' d' r :
  is_u64 v -> datable (TransferredAt e) ->
  handover.CommitTransfer s v e (w, d) = ((w', d'), r) ->
  let m := memory_CommitTransfer (micro_snapshot s) v (micro_event e) (as_memory d) in
  match r with
  | Ok _ => m = (as_memory d', Ok tt)
  | Err (ResponsibilityError err) => d' = d /\ (ValidateTransferCommit s v e = Err err \/ m = (as_memory d, Err err))
  | Err ErrDatabase => d' = d \/ m = (as_memory d', Ok tt)
  | Err _ => d' = d
  end.
Proof.
  intros Hv Ht H m. unfold m. unfold handover.CommitTransfer in H. destruct (ValidateTransferCommit s v e) as [n|err] eqn:Hn.
  2: { injection H as <- <- <-. cbn. eauto. }
  pose proof Hn as (_ & _ & _ & _ & _ & W & _)%ValidateTransferCommit_ok; [|done]. unfold abind at 1 in H. cbn [lift omap_err] in H.
  unfold TransferredEventRoot in H. rewrite (proj2 (validateTransferredEvent_none e) W) in H.
  unfold abind at 1 in H. cbn [lift omap_err] in H. destruct r as [[]|err].
  - apply transaction_ok in H as (w1 & w2 & H). by eapply committed_memory.
  - pose proof H as [(err' & [= <-] & ->)|(w1 & w2 & [] & Hb & [[=]|[= ->]])]%transaction_cases.
    + destruct err; try done; [by left|]. split; [done|right].
      apply transaction_err in H as [[=]|(w1 & c1 & H)]. by eapply refused_memory.
    + right. by eapply committed_memory.
Qed.

(** C10: a transfer in the database does what a transfer in the in-memory repository
    does, to the microsecond: where it succeeds, the assignments and events become
    those of the in-memory commit, and a refusal changes nothing and is that of the
    in-memory commit; a database error leaves everything as it was, or is the lost
    answer to a transfer that was committed. Conversely, where every statement is
    carried, the version fits its column and the ledger takes the record, a transfer
    that succeeds in memory succeeds. *)
Theorem commit_refines_memory s v e w d w' d' r :
  reachable d -> is_u64 v -> datable (TransferredAt e) ->
  handover.CommitTransfer s v e (w, d) = ((w', d'), r) ->
  let m := memory_CommitTransfer (micro_snapshot s) v (micro_event e) (as_memory d) in
  match r with
  | Ok _ => m = (as_memory d', Ok tt)
  | Err (ResponsibilityError err) => d' = d /\ (ValidateTransferCommit s v e = Err err \/ m = (as_memory d, Err err))
  | Err ErrDatabase => d' = d \/ m = (as_memory d', Ok tt)
  | Err _ => d' = d
  end /\
  (w = [] -> m.2 = Ok tt -> is_ok (ValidateTransferCommit s v e) = true -> Version s <= i64_max ->
   ledger_accepts audit.RecordResponsibilityHandover (sha256 (transferPreimage e)) (TransferredAt e) d -> r = Ok tt).
Proof.
  intros Hd%reachable_sound Hv Ht H m. unfold m. split.
  - by eapply commit_cases.
  - intros -> Hm Hok Hver Hl. destruct (ValidateTransferCommit s v e) as [n|] eqn:Hn; [|done].
    rewrite (memory_commit_micro s v e n d Hv Ht Hn) in Hm.
    destruct (responsibility_snapshots d !! ObjectID s) as [row|] eqn:Hrow; [|done].
    destruct (_ && _ && _) eqn:Hc; [|done]. destruct (responsibility_handover_events d !! _) eqn:Hnew; [done|].
    destruct (commit_carried s v e n d row) as [d2 H2]; [done..|]. rewrite H2 in H. congruence.
Qed.

End properties.
