(* ===== verification/PgOwnership.v ===== *)
(** * What the calls of the store leave alone

    A predicate that the tables a request writes do not matter to is kept by the
    request. Which requests can change an outbox record, and what no request
    changes: the ledger and what it covers, keys and revocations, policies,
    evidence, estimates, and records that are done. *)

From Stdlib Require Import Ascii String.
From S2P Require Import Prelude GoTime GoString Uuid GoCrypto Responsibility AuditLedger Spatial Estimator Evidence.
From S2P Require Import Evaluation Outbox Policy Bundle Postgres PgResponsibility PgRecords PgOutbox PgEvaluations.
From S2P Require Import PgPolicies PgEvidence PgLedger PgSound.
Import postgres.

Section tables.
Context {P : evidencebundle.Platform} {D : Driver} {L : DriverLaws D}.
Variable I : Database -> Prop.

Definition ignores_snapshots : Prop := forall d m, I d -> I (d <| responsibility_snapshots := m |>).
Definition ignores_handovers : Prop := forall d m, I d -> I (d <| responsibility_handover_events := m |>).
Definition ignores_ledger : Prop := forall d l, I d -> I (d <| audit_ledger := l |>).
Definition ignores_evaluations : Prop := forall d m, I d -> I (d <| postgres.evaluations := m |>).
Definition ignores_audit_records : Prop := forall d m, I d -> I (d <| evaluation_audit_records := m |>).
Definition ignores_outbox : Prop := forall d m, I d -> I (d <| evaluation_outbox := m |>).
Definition ignores_bundles : Prop := forall d m, I d -> I (d <| evidence_bundle_audit_records := m |>).
Definition ignores_estimates : Prop := forall d m, I d -> I (d <| estimator_results := m |>).

Lemma SaveResponsibility_frame s v : ignores_snapshots -> preserves I (handover.SaveResponsibility s v).
Proof.
  intros Hs. apply preserves_lift_bind. intros n _. apply preserves_bind; [|intros k; apply preserves_one].
  apply preserves_exec. intros d d' k Hd H. destruct (v =? 0).
  - unfold handover.insertSnapshot in H. destruct (negb _); [done|].
    destruct (responsibility_snapshots d !! _); injection H as <- _; [done|by apply Hs].
  - apply updateSnapshot_cases in H as [[-> _]|(row & _ & _ & _ & _ & _ & _ & ->)]; [done|by apply Hs].
Qed.

Lemma CommitTransfer_frame s v e :
  ignores_snapshots -> ignores_ledger -> ignores_handovers -> preserves I (handover.CommitTransfer s v e).
Proof.
  intros Hs Hl Hh. apply preserves_lift_bind. intros n _. apply preserves_lift_bind. intros root _.
  apply preserves_transaction. intros w d w' d' [] Hd (row & entry & _ & _ & _ & _ & _ & _ & _ & ->)%commit_body_ok.
  unfold transferred. by apply Hh, Hl, Hs.
Qed.

Lemma ClaimResponsibilityTransfers_frame locked claim :
  ignores_handovers -> preserves I (handover.ClaimResponsibilityTransfers locked claim).
Proof.
  intros Hh. unfold handover.ClaimResponsibilityTransfers.
  destruct (responsibility.DeliveryClaim_Validate claim); [apply preserves_fail|]. apply preserves_transaction.
  intros w d w' d' l Hd H%statement_ok. cbv zeta in H. destruct (existsb _ _); [done|]. injection H as <- _. by apply Hh.
Qed.

Lemma MarkResponsibilityTransferPublished_frame oid v worker at_ :
  ignores_handovers -> preserves I (handover.MarkResponsibilityTransferPublished oid v worker at_).
Proof.
  intros Hh. unfold handover.MarkResponsibilityTransferPublished. destruct (_ == ""); [apply preserves_fail|].
  destruct (IsZero at_); [apply preserves_fail|]. apply preserves_bind; [|intros k; apply preserves_one].
  apply preserves_exec. intros d d' k Hd H. destruct (negb _); [done|].
  destruct (responsibility_handover_events d !! _); [|by injection H as <- _].
  destruct (_ && _ && _); injection H as <- _; [by apply Hh|done].
Qed.

Lemma ReleaseExpiredResponsibilityLocks_frame at_ :
  ignores_handovers -> preserves I (handover.ReleaseExpiredResponsibilityLocks at_).
Proof.
  intros Hh. unfold handover.ReleaseExpiredResponsibilityLocks. destruct (IsZero at_); [apply preserves_fail|].
  apply preserves_exec. intros d d' k Hd [= <- _]. by apply Hh.
Qed.

Lemma SaveEvaluation_frame s v records :
  ignores_evaluations -> ignores_ledger -> ignores_audit_records -> ignores_outbox ->
  preserves I (evaluations.SaveEvaluation s v records).
Proof.
  intros He Hl Hr Ho. apply preserves_lift_bind. intros payload _. destruct (_ && _); [apply preserves_fail|].
  apply preserves_transaction. intros w d w' d' [] Hd (entry & created & m & _ & _ & _ & ->)%save_body_ok.
  by apply Ho, Hr, Hl, He.
Qed.

Lemma SaveEvidenceBundleAudit_frame r :
  ignores_ledger -> ignores_bundles -> preserves I (records.SaveEvidenceBundleAudit r).
Proof.
  intros Hl Hb. unfold records.SaveEvidenceBundleAudit. destruct (evidencebundle.ValidateAuditRecord r); [apply preserves_fail|].
  apply preserves_transaction. intros w d w' d' [] Hd (entry & [w1 d1] & H1 & H)%bind_ok.
  apply appendNext_ok in H1 as [_ ->]. apply bind_ok in H as (k & [w2 d2] & H2 & H). apply statement_ok in H2.
  unfold require_one in H. destruct (k =? 1); [|done]. injection H as _ <-. unfold records.insertBundleRecord in H2.
  destruct (evidence_bundle_audit_records _ !! _); [injection H2 as <- _; exact (Hl d _ Hd)|]. destruct (existsb _ _); [done|].
  injection H2 as <- _. exact (Hb _ _ (Hl d (entry :: audit_ledger d) Hd)).
Qed.

Lemma SaveEstimatorResult_frame r : ignores_ledger -> ignores_estimates -> preserves I (estimates.SaveEstimatorResult r).
Proof.
  intros Hl He. unfold estimates.SaveEstimatorResult. cbv zeta. destruct (estimator.ValidateResult r); [apply preserves_fail|].
  destruct (i64_max <? _); [apply preserves_fail|]. destruct (estimates.MarshalResult r); [|apply preserves_fail].
  apply preserves_transaction. intros w d w' d' [] Hd (entry & [w1 d1] & H1 & H)%bind_ok.
  apply appendNext_ok in H1 as [_ ->]. apply bind_ok in H as (k & [w2 d2] & H2 & H). apply statement_ok in H2.
  unfold require_one in H. destruct (k =? 1); [|done]. injection H as _ <-. unfold estimates.insertResult in H2. cbv zeta in H2.
  destruct (estimator_results _ !! _); [injection H2 as <- _; exact (Hl d _ Hd)|]. destruct (_ || _); [done|].
  injection H2 as <- _. exact (He _ _ (Hl d (entry :: audit_ledger d) Hd)).
Qed.

End tables.

(** A predicate of other tables ignores this one. *)
Ltac elsewhere := let d := fresh "d" in let x := fresh "x" in let H := fresh "H" in intros d x H; first [exact H|destruct H; constructor; assumption].

Section ownership.
Context {P : evidencebundle.Platform} {D : Driver} {L : DriverLaws D}.

(** ** From the database before a call to the one after it *)

Definition leads {A} (R : Database -> Database -> Prop) (m : call A) : Prop :=
  forall w d w' d' r, m (w, d) = ((w', d'), r) -> R d d'.

Section leads.
Context (R : Database -> Database -> Prop) {HR : Reflexive R}.

Lemma leads_exec {A} (f : Database -> option (Database * A)) :
  (forall d d' a, f d = Some (d', a) -> R d d') -> leads R (exec f).
Proof. intros Hf w d w' d' r [(a & -> & H)|(-> & [->|(a & H)])]%statement_cases; eauto. Qed.

Lemma leads_transaction {A} (body : call A) :
  (forall w d w' d' a, body (w, d) = ((w', d'), Ok a) -> R d d') -> leads R (transaction body).
Proof. intros Hb w d w' d' r [(err & -> & ->)|(w1 & w2 & a & H & _)]%transaction_cases; eauto. Qed.

Lemma leads_const {A} (r : outcome Error A) : leads R (fun c => (c, r)).
Proof. by intros w d w' d' r' [= <- <- <-]. Qed.

Lemma leads_fail {A} err : leads R (fail (A := A) err).
Proof. apply leads_const. Qed.

Lemma leads_lift_bind {A B} (r : outcome Error A) (k : A -> call B) :
  (forall a, r = Ok a -> leads R (k a)) -> leads R (abind (lift r) k).
Proof. intros Hk. unfold abind, lift. destruct r as [a|err]; [by apply Hk|apply leads_const]. Qed.

Lemma leads_one err (m : call Z) : leads R m -> leads R (abind m (require_one err)).
Proof.
  intros Hm w d w' d' r. unfold abind. destruct (m (w, d)) as [[w1 d1] [n|e]] eqn:E; [|intros [= <- <- <-]; eauto].
  unfold require_one. destruct (n =? 1); intros [= <- <- <-]; eauto.
Qed.

Lemma leads_ignore {A} (m : call A) : leads R m -> leads R (ignore m).
Proof.
  intros Hm w d w' d' r. unfold ignore, abind. destruct (m (w, d)) as [[w1 d1] [a|e]] eqn:E; intros [= <- <- <-]; eauto.
Qed.
End leads.

(** ** Outbox records *)

(** Every record is under its identifier. *)
Definition keyed (d : Database) : Prop := map_Forall (fun id r => outbox.ID r = id) (evaluation_outbox d).

(** The owner of a record, while it publishes. *)
Definition owned_by (row : outbox.OutboxRecord) (workerID : string) : Prop :=
  outbox.Status row = outbox.OutboxStatusPublishing /\ outbox.LockOwner row = TrimSpace workerID.

(** Nobody waits for the record any more at [t], to the microsecond: it is new, or its
    next attempt is due, and no lock of it lasts. *)
Definition due (row : outbox.OutboxRecord) (t : Time) : Prop :=
  (outbox.Status row = outbox.OutboxStatusPending \/
   outbox.Status row = outbox.OutboxStatusRetryScheduled /\
   exists next, outbox.NextAttemptAt row = Some next /\ instant next <= instant (TruncateMicrosecond t)) /\
  forall until, outbox.LockUntil row = Some until -> instant until <= instant (TruncateMicrosecond t).

(** A worker publishes the record, and its time is over. *)
Definition abandoned (row : outbox.OutboxRecord) (t : Time) : Prop :=
  outbox.Status row = outbox.OutboxStatusPublishing /\
  exists until, outbox.LockUntil row = Some until /\ instant until <= instant (TruncateMicrosecond t).

(** A request that can change the record [row] of this identifier: the results of
    its owner, a release when its lock has expired, and a claim when it is due
    and no other transaction locks it. *)
Definition may_touch (id : UUID) (row : outbox.OutboxRecord) (q : Request) : Prop :=
  match q with
  | RMarkPublished id' worker _ => id' = id /\ owned_by row worker
  | RScheduleRetry r worker | RMarkDeadLettered r worker => outbox.ID r = id /\ owned_by row worker
  | RReleaseLocks at_ => abandoned row at_
  | RClaimReady locked request => locked id = false /\ due row (outbox.ClaimedAt request)
  | _ => False
  end.

Lemma column_UTC t : instant (column (UTC t)) = instant (TruncateMicrosecond t).
Proof. by rewrite column_instant. Qed.

Lemma claimReady_due row t : outbox_repository.claimReady (column (UTC t)) row = true -> due row t.
Proof.
  unfold outbox_repository.claimReady, outbox.Ready, outbox_repository.unlockedAt, After, due. rewrite column_UTC.
  intros [H1 H2]%andb_true_iff. split.
  - case_bool_decide as Hp; [by left|right]. apply andb_true_iff in H1 as [H1%bool_decide_eq_true H3].
    split; [done|]. destruct (outbox.NextAttemptAt row) as [next|]; [|done]. exists next. split; [done|lia].
  - intros u Hu. rewrite Hu in H2. lia.
Qed.

Lemma lockExpired_abandoned row t : outbox_repository.lockExpired (column (UTC t)) row = true -> abandoned row t.
Proof.
  unfold outbox_repository.lockExpired, After, abandoned. rewrite column_UTC.
  intros [H1%bool_decide_eq_true H2]%andb_true_iff. split; [done|].
  destruct (outbox.LockUntil row) as [until|]; [|done]. exists until. split; [done|lia].
Qed.

(** Between two databases, only such records have changed. *)
Definition moved (touch : UUID -> outbox.OutboxRecord -> Prop) (d d' : Database) : Prop :=
  keyed d -> keyed d' /\ forall id row, evaluation_outbox d !! id = Some row -> evaluation_outbox d' !! id = Some row \/ touch id row.

Lemma moved_same touch d d' : evaluation_outbox d' = evaluation_outbox d -> moved touch d d'.
Proof. intros E Hd. unfold keyed in *. rewrite E. auto. Qed.

Lemma updateOwned_moved id worker f d d' k :
  (forall r, outbox.ID (f r) = outbox.ID r) -> outbox_repository.updateOwned id (TrimSpace worker) f d = Some (d', k) ->
  moved (fun id' row => id = id' /\ owned_by row worker) d d'.
Proof.
  intros Hf. unfold outbox_repository.updateOwned. destruct (evaluation_outbox d !! id) as [r|] eqn:E; [|intros [= <- _]; by apply moved_same].
  destruct (_ && _) eqn:Eb; intros [= <- _]; [|by apply moved_same]. apply andb_true_iff in Eb as [E1 E2].
  apply bool_decide_eq_true in E1, E2. intros Hd. split.
  - apply map_Forall_insert_2; [|done]. rewrite Hf. by apply Hd.
  - intros id' row H. cbn. destruct (decide (id = id')) as [<-|Hne]; [|left; by rewrite lookup_insert_ne].
    right. split; [done|]. rewrite E in H. by injection H as <-.
Qed.

Lemma releaseRow_moved at_ d :
  moved (fun _ row => abandoned row at_) d
    (d <| evaluation_outbox := outbox_repository.releaseRow (column (UTC at_)) <$> evaluation_outbox d |>).
Proof.
  intros Hd. split.
  - intros id r H. cbn in H. rewrite lookup_fmap in H. destruct (evaluation_outbox d !! id) as [row|] eqn:E; [|done].
    injection H as <-. apply Hd in E. unfold outbox_repository.releaseRow. by destruct (outbox_repository.lockExpired _ _).
  - intros id row H. cbn. rewrite lookup_fmap, H. cbn. unfold outbox_repository.releaseRow.
    destruct (outbox_repository.lockExpired _ _) eqn:E; [right; by apply lockExpired_abandoned|by left].
Qed.

Lemma claimable_row locked limit at_ d r :
  keyed d -> r ∈ outbox_repository.claimable locked limit at_ d ->
  evaluation_outbox d !! outbox.ID r = Some r /\ locked (outbox.ID r) = false /\ outbox_repository.claimReady at_ r = true.
Proof.
  intros Hd H. unfold outbox_repository.claimable in H. apply subseteq_take in H. rewrite merge_sort_Permutation in H.
  apply list_elem_of_In, filter_In in H as [H1 H2]. apply list_elem_of_In, list_elem_of_fmap in H1 as ([id r'] & -> & H1).
  apply elem_of_map_to_list in H1. apply andb_true_iff in H2 as [H2 H3]. apply negb_true_iff in H2. cbn in *.
  pose proof (Hd _ _ H1) as Hid. cbn in Hid. subst id. auto.
Qed.

Lemma putRows_lookup rows d id :
  (exists r, r ∈ rows /\ outbox.ID r = id /\ evaluation_outbox (outbox_repository.putRows rows d) !! id = Some r) \/
  evaluation_outbox (outbox_repository.putRows rows d) !! id = evaluation_outbox d !! id.
Proof.
  unfold outbox_repository.putRows. cbn. induction rows as [|r rows IH]; cbn; [by right|].
  destruct (decide (outbox.ID r = id)) as [<-|Hne].
  - left. exists r. rewrite lookup_insert_eq. split_and!; [by left|done..].
  - rewrite lookup_insert_ne by done. destruct IH as [(r' & H1 & H2 & H3)|IH]; [left|by right].
    exists r'. split_and!; [by right|done..].
Qed.

Lemma claimed_moved locked limit at_ worker claimedAt until d :
  moved (fun id row => locked id = false /\ outbox_repository.claimReady at_ row = true) d
    (outbox_repository.putRows
       (outbox_repository.claimRow worker claimedAt until <$> outbox_repository.claimable locked limit at_ d) d).
Proof.
  intros Hd. split.
  - intros id r H. destruct (putRows_lookup (outbox_repository.claimRow worker claimedAt until <$>
      outbox_repository.claimable locked limit at_ d) d id) as [(r' & _ & H1 & H2)|H1]; [congruence|].
    rewrite H1 in H. by apply Hd.
  - intros id row H. destruct (putRows_lookup (outbox_repository.claimRow worker claimedAt until <$>
      outbox_repository.claimable locked limit at_ d) d id) as [(r' & H1 & H2 & H3)|H1]; [|left; congruence].
    right. apply list_elem_of_fmap in H1 as (r & -> & Hr). cbn in H2. apply claimable_row in Hr as (Hr & Hl & Hc); [|done].
    rewrite H2 in Hr, Hl. rewrite H in Hr. by injection Hr as ->.
Qed.

Lemma insertOutboxRecords_moved records w d w' d' :
  outbox_repository.insertOutboxRecords records (w, d) = ((w', d'), Ok tt) -> moved (fun _ _ => False) d d'.
Proof.
  revert w d. induction records as [|r records IH]; cbn [outbox_repository.insertOutboxRecords]; intros w d.
  - intros [= _ <-]. by apply moved_same.
  - destruct (outbox_repository.validateOutboxRecord r); [done|]. intros ([] & [w1 d1] & H1 & H)%bind_ok.
    apply statement_ok in H1. unfold outbox_repository.insertRow in H1. destruct (_ || _ || _ || _); [done|].
    destruct (evaluation_outbox d !! _) eqn:E; [done|]. injection H1 as <-. apply IH in H. intros Hd. destruct H as [H1 H2].
    { by apply map_Forall_insert_2. }
    split; [done|]. intros id row Hrow. apply H2. cbn. rewrite lookup_insert_ne; [done|]. intros <-. congruence.
Qed.

#[local] Instance moved_refl touch : Reflexive (moved touch).
Proof. intros d. by apply moved_same. Qed.

Lemma ClaimReady_moved locked request :
  leads (moved (fun id row => may_touch id row (RClaimReady locked request))) (outbox_repository.ClaimReady locked request).
Proof.
  unfold outbox_repository.ClaimReady. destruct (outbox.ValidateClaimRequest request); [exact (leads_fail _ _)|].
  refine (leads_transaction _ _ _). intros w d w' d' l H. apply bind_ok in H as (rows & [w1 d1] & H1 & H).
  apply lift_ok in H as [_ [= -> ->]]. apply statement_ok in H1. cbv zeta in H1. destruct (existsb _ _); [done|].
  injection H1 as <- _. intros Hd. destruct (claimed_moved locked (outbox.Limit request) (column (UTC (outbox.ClaimedAt request)))
    (TrimSpace (outbox.WorkerID request)) (column (UTC (outbox.ClaimedAt request)))
    (column (Add (UTC (outbox.ClaimedAt request)) (outbox.ClaimLockDuration request))) d Hd) as [H1 H2].
  split; [done|]. intros id row Hr. destruct (H2 id row Hr) as [?|[Hl Hc]]; [by left|right].
  split; [done|by apply claimReady_due].
Qed.

Lemma MarkPublished_moved id worker at_ :
  leads (moved (fun id' row => id = id' /\ owned_by row worker)) (outbox_repository.MarkPublished id worker at_).
Proof.
  unfold outbox_repository.MarkPublished. destruct (id == NilUUID); [exact (leads_fail _ _)|].
  destruct (_ == ""); [exact (leads_fail _ _)|]. destruct (IsZero at_); [exact (leads_fail _ _)|].
  refine (leads_one _ _ _ _). refine (leads_exec _ _ _). intros d d' k. by apply updateOwned_moved.
Qed.

Lemma persistFailedRecord_moved r worker :
  leads (moved (fun id row => outbox.ID r = id /\ owned_by row worker)) (outbox_repository.persistFailedRecord r worker).
Proof.
  unfold outbox_repository.persistFailedRecord. destruct (_ == ""); [exact (leads_fail _ _)|].
  refine (leads_one _ _ _ _). refine (leads_exec _ _ _). intros d d' k H. destruct (i32_max <? _); [done|].
  eapply updateOwned_moved; [|exact H]. done.
Qed.

Lemma SaveEvaluation_moved s v records : leads (moved (fun _ _ => False)) (evaluations.SaveEvaluation s v records).
Proof.
  refine (leads_lift_bind _ _ _ _). intros payload _. destruct (_ && _); [exact (leads_fail _ _)|].
  refine (leads_transaction _ _ _). intros w d w' d' [] ([] & [w1 d1] & H1 & H)%bind_ok.
  apply persistSnapshot_ok in H1 as (created & _ & ->). apply bind_ok in H as (entry & [w2 d2] & H2 & H).
  apply appendNext_ok in H2 as [_ ->]. apply bind_ok in H as ([] & [w3 d3] & H3 & H). apply statement_ok in H3.
  unfold evaluations.bindAuditEntry in H3. destruct (existsb _ _); [done|].
  destruct (evaluation_audit_records _ !! _); [done|]. injection H3 as <-. by apply insertOutboxRecords_moved in H.
Qed.

(** ** The other requests leave the outbox alone *)

Definition same_outbox (d d' : Database) : Prop := evaluation_outbox d' = evaluation_outbox d.

#[local] Instance same_outbox_refl : Reflexive same_outbox.
Proof. by intros d. Qed.

(** What a call keeps, from any database. *)
Lemma leads_preserves {A} (R : Database -> Database -> Prop) `{!Reflexive R} (m : call A) :
  (forall d, preserves (R d) m) -> leads R m.
Proof. intros Hm w d w' d' r H. by eapply Hm. Qed.

Lemma leads_weaken {A} (R R' : Database -> Database -> Prop) (m : call A) :
  (forall d d', R d d' -> R' d d') -> leads R m -> leads R' m.
Proof. intros H Hm w d w' d' r E. eapply H, Hm, E. Qed.

Lemma request_moved q : interleaved q = false -> leads (moved (fun id row => may_touch id row q)) (perform q).
Proof.
  assert (forall A (m : call A) touch, (forall d, preserves (same_outbox d) m) -> leads (moved touch) m) as Hsame.
  { intros A m touch Hm. eapply leads_weaken; [apply moved_same|]. by apply leads_preserves; [apply _|]. }
  destruct q; intros Hq; try discriminate Hq; cbn [perform].
  - apply Hsame. intros d. apply SaveResponsibility_frame; elsewhere.
  - apply Hsame. intros d. apply CommitTransfer_frame; elsewhere.
  - apply Hsame. intros d. apply preserves_ignore. apply ClaimResponsibilityTransfers_frame; elsewhere.
  - apply Hsame. intros d. apply MarkResponsibilityTransferPublished_frame; elsewhere.
  - apply Hsame. intros d. apply preserves_ignore. apply ReleaseExpiredResponsibilityLocks_frame; elsewhere.
  - apply SaveEvaluation_moved.
  - refine (leads_ignore _ _ _). apply ClaimReady_moved.
  - apply MarkPublished_moved.
  - unfold outbox_repository.ScheduleRetry. destruct (_ || _); [exact (leads_fail _ _)|apply persistFailedRecord_moved].
  - unfold outbox_repository.MarkDeadLettered. destruct (_ || _); [exact (leads_fail _ _)|apply persistFailedRecord_moved].
  - refine (leads_ignore _ _ _). unfold outbox_repository.ReleaseExpiredLocks. destruct (IsZero _); [exact (leads_fail _ _)|].
    refine (leads_exec _ _ _). intros d d' k [= <- _]. apply releaseRow_moved.
  - apply Hsame. intros d. apply SaveEvidenceBundleAudit_frame; elsewhere.
  - apply Hsame. intros d. apply SaveEstimatorResult_frame; elsewhere.
  - apply Hsame. intros d. apply Add_frame; elsewhere.
  - apply Hsame. intros d. apply transitionPolicy_frame; elsewhere.
  - intros w d w' d' r [-> |[_ ->]]%AppendAuditEntry_step; by apply moved_same.
  - refine (leads_transaction _ _ _). intros w d w' d' []. apply insertOutboxRecords_moved.
Qed.

(** ** What is recorded stays *)

(** A handover keeps its fact, and a published one everything. *)
Definition handover_kept (d d' : Database) : Prop :=
  forall k row, responsibility_handover_events d !! k = Some row ->
    exists row', responsibility_handover_events d' !! k = Some row' /\ same_fact k row row' /\
      (delivery_status row = "PUBLISHED" -> row' = row).

Record permanent (d d' : Database) : Prop := {
  pm_ledger : exists l, audit_ledger d' = l ++ audit_ledger d;
  pm_evaluations : evaluation_audit_records d ⊆ evaluation_audit_records d';
  pm_handovers : handover_kept d d';
  pm_bundles : evidence_bundle_audit_records d ⊆ evidence_bundle_audit_records d';
  pm_keys : trusted_verification_keys d ⊆ trusted_verification_keys d';
  pm_revocations : trust_key_revocations d ⊆ trust_key_revocations d';
  pm_versions : policy_versions d ⊆ policy_versions d';
  pm_lifecycle : exists l, policy_lifecycle_events d' = l ++ policy_lifecycle_events d;
  pm_evidence : evidence_objects d ⊆ evidence_objects d';
  pm_estimates : estimator_results d ⊆ estimator_results d'
}.

Lemma handover_same d d' : responsibility_handover_events d' = responsibility_handover_events d -> handover_kept d d'.
Proof. intros E k row H. exists row. by rewrite E. Qed.

(** The tables that are not touched. *)
Ltac stays := split; try done; try (by exists []); try (by apply handover_same).

#[export] Instance permanent_preorder : PreOrder permanent.
Proof.
  split.
  - intros d. stays.
  - intros d1 d2 d3 [[l1 A1] B1 C1 D1 E1 F1 G1 [k1 H1] J1 K1] [[l2 A2] B2 C2 D2 E2 F2 G2 [k2 H2] J2 K2]. split; try by etrans.
    1: exists (l2 ++ l1); by rewrite A2, A1, app_assoc.
    2: exists (k2 ++ k1); by rewrite H2, H1, app_assoc.
    clear k1 k2 H1 H2.
    intros k row H. destruct (C1 _ _ H) as (row1 & H1 & [S1 S1'] & P1). destruct (C2 _ _ H1) as (row2 & H2 & [S2 S2'] & P2).
    exists row2. split_and!; [done|split; congruence|]. intros Hp. rewrite <- (P1 Hp) in Hp |- *. by apply P2.
Qed.

(** A change of handovers alone, and of assignments and the outbox. *)
Lemma permanent_delivery d m :
  handover_kept d (d <| responsibility_handover_events := m |>) -> permanent d (d <| responsibility_handover_events := m |>).
Proof. intros H. by stays. Qed.

Lemma permanent_update d m : permanent d (d <| responsibility_snapshots := m |>).
Proof. stays. Qed.

Lemma permanent_outbox d m : permanent d (d <| evaluation_outbox := m |>).
Proof. stays. Qed.

Lemma permanent_entry d e : permanent d (d <| audit_ledger := e :: audit_ledger d |>).
Proof. stays. by exists [e]. Qed.

Lemma insertKey_permanent key d d' k : records.insertKey key d = Some (d', k) -> permanent d d'.
Proof.
  unfold records.insertKey. destruct (match _ with None => false | Some _ => _ end); [done|].
  destruct (trusted_verification_keys d !! _) eqn:E; intros [= <- _]; [done|].
  stays; by apply insert_subseteq.
Qed.

Lemma insertRevocation_permanent id at_ d d' k : records.insertRevocation id at_ d = Some (d', k) -> permanent d d'.
Proof.
  unfold records.insertRevocation. destruct (trusted_verification_keys d !! id); [|done]. destruct (Before _ _); [done|].
  destruct (trust_key_revocations d !! id) eqn:E; intros [= <- _]; [done|].
  stays; by apply insert_subseteq.
Qed.

Lemma SaveResponsibility_permanent s v : leads permanent (handover.SaveResponsibility s v).
Proof.
  refine (leads_lift_bind _ _ _ _). intros n _. refine (leads_one _ _ _ _). refine (leads_exec _ _ _).
  intros d d' k H. destruct (v =? 0).
  - unfold handover.insertSnapshot in H. destruct (negb _); [done|].
    destruct (responsibility_snapshots d !! _); injection H as <- _; [done|apply permanent_update].
  - apply updateSnapshot_cases in H as [[-> _]|(row & _ & _ & _ & _ & _ & _ & ->)]; [done|apply permanent_update].
Qed.

Lemma CommitTransfer_permanent s v e : leads permanent (handover.CommitTransfer s v e).
Proof.
  refine (leads_lift_bind _ _ _ _). intros n _. refine (leads_lift_bind _ _ _ _). intros root _.
  refine (leads_transaction _ _ _). intros w d w' d' [] (row & entry & _ & _ & _ & _ & _ & _ & Hnew & ->)%commit_body_ok.
  stays; [by exists [entry]|]. intros k row' H. exists row'. split; [|done]. cbn. rewrite lookup_insert_ne; [done|].
  intros <-. congruence.
Qed.

Lemma claimRows_cases rows worker until d k :
  responsibility_handover_events (handover.claimRows rows worker until d) !! k = responsibility_handover_events d !! k \/
  exists old, (k, old) ∈ rows /\
    responsibility_handover_events (handover.claimRows rows worker until d) !! k = Some (handover.claimRow worker until old).
Proof.
  unfold handover.claimRows. cbn. induction rows as [|[k' old] rows IH]; cbn; [by left|].
  destruct (decide (k' = k)) as [->|Hne].
  - right. exists old. rewrite lookup_insert_eq. split; [by left|done].
  - rewrite lookup_insert_ne by done. destruct IH as [IH|(o & H & IH)]; [by left|right]. exists o. split; [by right|done].
Qed.

Lemma ClaimResponsibilityTransfers_permanent locked claim :
  leads permanent (handover.ClaimResponsibilityTransfers locked claim).
Proof.
  unfold handover.ClaimResponsibilityTransfers. destruct (responsibility.DeliveryClaim_Validate claim); [exact (leads_fail _ _)|].
  refine (leads_transaction _ _ _). intros w d w' d' l H%statement_ok. cbv zeta in H. destruct (existsb _ _); [done|].
  injection H as <- _. apply permanent_delivery. intros k row Hrow.
  destruct (claimRows_cases (handover.claimable locked (responsibility.Limit claim) (column (UTC (responsibility.ClaimedAt claim))) d)
    (TrimSpace (responsibility.WorkerID claim)) (column (Add (UTC (responsibility.ClaimedAt claim)) (responsibility.LockDuration claim))) d k)
    as [H|(old & Hin & H)].
  - exists row. split; [by etrans|done].
  - apply claimable_in in Hin as (Ho & _ & Hr). cbn in Ho, Hr. rewrite Hrow in Ho. injection Ho as <-.
    eexists. split_and!; [exact H|done|]. intros Hp. unfold handover.readyAt in Hr. by rewrite Hp in Hr.
Qed.

Lemma MarkResponsibilityTransferPublished_permanent oid v worker at_ :
  leads permanent (handover.MarkResponsibilityTransferPublished oid v worker at_).
Proof.
  unfold handover.MarkResponsibilityTransferPublished. destruct (_ == ""); [exact (leads_fail _ _)|].
  destruct (IsZero at_); [exact (leads_fail _ _)|]. refine (leads_one _ _ _ _). refine (leads_exec _ _ _).
  intros d d' k H. destruct (negb _); [done|]. destruct (responsibility_handover_events d !! (oid, v)) as [old|] eqn:E; [|by injection H as <- _].
  destruct (delivery_status old == "PENDING") eqn:Es; [|by injection H as <- _]. apply bool_decide_eq_true in Es.
  destruct (_ && _); injection H as <- _; [|done]. apply permanent_delivery. intros key row H. cbn.
  destruct (decide ((oid, v) = key)) as [<-|Hne].
  - rewrite lookup_insert_eq. rewrite E in H. injection H as <-. eexists. split_and!; [done|done|]. intros Hp. by rewrite Es in Hp.
  - exists row. by rewrite lookup_insert_ne.
Qed.

Lemma ReleaseExpiredResponsibilityLocks_permanent at_ :
  leads permanent (handover.ReleaseExpiredResponsibilityLocks at_).
Proof.
  unfold handover.ReleaseExpiredResponsibilityLocks. destruct (IsZero at_); [exact (leads_fail _ _)|].
  refine (leads_exec _ _ _). intros d d' k [= <- _]. apply permanent_delivery. intros key row H. cbn. rewrite lookup_fmap, H. cbn.
  eexists. split; [done|]. unfold handover.releaseRow. destruct (handover.lockExpired _ row) eqn:E; [|done]. split; [done|].
  intros Hp. unfold handover.lockExpired in E. by rewrite Hp in E.
Qed.

Lemma SaveEvaluation_permanent s v records : leads permanent (evaluations.SaveEvaluation s v records).
Proof.
  refine (leads_lift_bind _ _ _ _). intros payload _. destruct (_ && _); [exact (leads_fail _ _)|].
  refine (leads_transaction _ _ _). intros w d w' d' [] (entry & created & m & _ & Hr & _ & ->)%save_body_ok.
  stays; [by exists [entry]|by apply insert_subseteq].
Qed.

Lemma SaveEvidenceBundleAudit_permanent r : leads permanent (records.SaveEvidenceBundleAudit r).
Proof.
  unfold records.SaveEvidenceBundleAudit. destruct (evidencebundle.ValidateAuditRecord r); [exact (leads_fail _ _)|].
  refine (leads_transaction _ _ _). intros w d w' d' [] (entry & [w1 d1] & H1 & H)%bind_ok.
  apply appendNext_ok in H1 as [_ ->]. apply bind_ok in H as (k & [w2 d2] & H2 & H). apply statement_ok in H2.
  unfold require_one in H. destruct (k =? 1); [|done]. injection H as _ <-. etrans; [apply (permanent_entry d entry)|].
  unfold records.insertBundleRecord in H2.
  destruct (evidence_bundle_audit_records _ !! _) eqn:E; [by injection H2 as <- _|]. destruct (existsb _ _); [done|].
  injection H2 as <- _. stays; by apply insert_subseteq.
Qed.

Lemma SaveEstimatorResult_permanent r : leads permanent (estimates.SaveEstimatorResult r).
Proof.
  unfold estimates.SaveEstimatorResult. cbv zeta. destruct (estimator.ValidateResult r); [exact (leads_fail _ _)|].
  destruct (i64_max <? _); [exact (leads_fail _ _)|]. destruct (estimates.MarshalResult r); [|exact (leads_fail _ _)].
  refine (leads_transaction _ _ _). intros w d w' d' [] (entry & [w1 d1] & H1 & H)%bind_ok.
  apply appendNext_ok in H1 as [_ ->]. apply bind_ok in H as (k & [w2 d2] & H2 & H). apply statement_ok in H2.
  unfold require_one in H. destruct (k =? 1); [|done]. injection H as _ <-. etrans; [apply (permanent_entry d entry)|].
  unfold estimates.insertResult in H2. cbv zeta in H2.
  destruct (estimator_results _ !! _) eqn:E; [by injection H2 as <- _|]. destruct (_ || _); [done|].
  injection H2 as <- _. stays; by apply insert_subseteq.
Qed.

Lemma insertEvidence_permanent s payload d d' k : evidences.insertEvidence s payload d = Some (d', k) -> permanent d d'.
Proof.
  unfold evidences.insertEvidence. cbv zeta. destruct (Before _ _); [done|].
  destruct (evidence_objects d !! _) eqn:E; intros [= <- _]; [done|]. stays; by apply insert_subseteq.
Qed.

Lemma insertVersion_permanent s payload sg d d' b : policies.insertVersion s payload sg d = Some (d', b) -> permanent d d'.
Proof.
  unfold policies.insertVersion. cbv zeta. destruct (_ || _); [done|]. destruct (policy_versions d !! _) eqn:E; [done|].
  destruct (existsb _ _); intros [= <- _]; [done|]. stays; by apply insert_subseteq.
Qed.

Lemma insertEvent_permanent e d d' : policies.insertEvent e d = Some (d', tt) -> permanent d d'.
Proof.
  unfold policies.insertEvent. cbv zeta. destruct (_ || _); [done|]. destruct (policy_versions d !! _); [|done].
  intros [= <-]. stays. by exists [e].
Qed.

Lemma request_permanent q : interleaved q = false -> leads permanent (perform q).
Proof.
  assert (forall d0 d m, permanent d0 d -> permanent d0 (d <| evaluation_outbox := m |>)) as Ho.
  { intros d0 d m H. etrans; [exact H|apply permanent_outbox]. }
  destruct q; intros Hq; try discriminate Hq; cbn [perform].
  - apply SaveResponsibility_permanent.
  - apply CommitTransfer_permanent.
  - refine (leads_ignore _ _ _). apply ClaimResponsibilityTransfers_permanent.
  - apply MarkResponsibilityTransferPublished_permanent.
  - refine (leads_ignore _ _ _). apply ReleaseExpiredResponsibilityLocks_permanent.
  - apply SaveEvaluation_permanent.
  - refine (leads_ignore _ _ _). apply (leads_preserves permanent). intros d. exact (ClaimReady_frame (permanent d) (Ho d) _ _).
  - apply (leads_preserves permanent). intros d. exact (MarkPublished_frame (permanent d) (Ho d) _ _ _).
  - apply (leads_preserves permanent). intros d. exact (ScheduleRetry_frame (permanent d) (Ho d) _ _).
  - apply (leads_preserves permanent). intros d. exact (MarkDeadLettered_frame (permanent d) (Ho d) _ _).
  - refine (leads_ignore _ _ _). apply (leads_preserves permanent). intros d. exact (ReleaseExpiredLocks_frame (permanent d) (Ho d) _).
  - apply SaveEvidenceBundleAudit_permanent.
  - apply SaveEstimatorResult_permanent.
  - apply (leads_preserves permanent). intros d. refine (Add_keeps (permanent d) _ _ _).
    + intros s payload sg d1 d2 b _ H1 H2%insertVersion_permanent. by etrans.
    + intros e d1 d2 _ _ _ H1 H2%insertEvent_permanent. by etrans.
  - apply (leads_preserves permanent). intros d. refine (transitionPolicy_keeps (permanent d) _ _ _ _ _).
    intros old e d1 d2 _ _ _ _ H1 H2%insertEvent_permanent. by etrans.
  - intros w d w' d' r [-> |[_ ->]]%AppendAuditEntry_step; [done|apply permanent_entry].
  - apply (leads_preserves permanent). intros d. exact (Insert_frame (permanent d) (Ho d) _).
Qed.

(** ** Every request *)

Lemma every_true (Q : Request -> Prop) : (forall q, Q q) -> forall q, every Q q.
Proof.
  intros HQ. fix IH 1.
  assert (forall l : list (list Answer * Request), foldr (fun s => and (every Q s.2)) True l) as Hl.
  { intros l. induction l as [|[w q] l IHl]; [done|]. split; [apply IH|exact IHl]. }
  intros q. destruct q; cbn [every]; (split; [apply HQ|]); try exact I; [apply Hl|split; apply Hl|apply Hl].
Qed.

(** The records are under their identifiers, and an untouched one stays. *)
Definition watched (o : option (UUID * outbox.OutboxRecord)) (d : Database) : Prop :=
  keyed d /\ forall id row, o = Some (id, row) -> evaluation_outbox d !! id = Some row.

Lemma watched_kept o (Q : Request -> Prop) :
  (forall q, Q q -> forall id row, o = Some (id, row) -> ~ may_touch id row q) ->
  forall q, every Q q -> preserves (watched o) (perform q).
Proof.
  intros HQ. apply perform_preserves.
  - intros key d d' k. by apply (insertKey_frame (watched o)).
  - intros id at_ d d' k. by apply (insertRevocation_frame (watched o)).
  - intros s payload d d' k. by apply (insertEvidence_frame (watched o)).
  - intros q Hq Ht w d w' d' r [Hd Ho] H. destruct (request_moved q Ht _ _ _ _ _ H Hd) as [Hk Hm]. split; [done|].
    intros id row Hrow. destruct (Hm _ _ (Ho _ _ Hrow)) as [?|?]; [done|]. by destruct (HQ _ Hq _ _ Hrow).
Qed.

Lemma reachable_keyed d : reachable d -> keyed d.
Proof.
  induction 1 as [|q wire d wire' d' r _ IH _ H]; [apply map_Forall_empty|].
  eapply (watched_kept None (fun _ => True)) in H; [by apply H|done|by apply every_true|by split].
Qed.

(** A record that is done is touched by nothing. *)
Lemma done_untouched id row q :
  outbox.Status row = outbox.OutboxStatusPublished \/ outbox.Status row = outbox.OutboxStatusDeadLettered -> ~ may_touch id row q.
Proof.
  intros Hs Ht. destruct q; cbn [may_touch] in Ht; try done; unfold owned_by, abandoned, due in Ht;
    destruct Hs as [Hs|Hs]; rewrite Hs in Ht; naive_solver.
Qed.

Lemma perform_permanent q w d w' d' r : perform q (w, d) = ((w', d'), r) -> permanent d d'.
Proof.
  intros H. assert (preserves (permanent d) (perform q)) as Hp; [|by eapply Hp].
  apply (perform_preserves (permanent d) (fun _ => True)); [| | | |by apply every_true].
  - intros key d1 d2 k H1 H2%insertKey_permanent. by etrans.
  - intros id at_ d1 d2 k H1 H2%insertRevocation_permanent. by etrans.
  - intros s payload d1 d2 k H1 H2%insertEvidence_permanent. by etrans.
  - intros q1 _ Hq1 w1 d1 w2 d2 r1 H1 H2. etrans; [exact H1|]. by eapply request_permanent.
Qed.

(** C11: an outbox record belongs to the worker that claimed it: in every database
    the store can produce, a request, with those of other clients in between, leaves
    a record as it is unless one of them is a result of its owner while it
    publishes, a release at or after the end of the lock under which it publishes,
    or a claim of a record that no other transaction locks, whose own lock is over,
    and which is pending or whose retry is due; whatever is answered. *)
Theorem outbox_ownership id row q w d w' d' r :
  reachable d -> evaluation_outbox d !! id = Some row -> every (fun q => ~ may_touch id row q) q ->
  perform q (w, d) = ((w', d'), r) -> evaluation_outbox d' !! id = Some row.
Proof.
  intros Hd Hrow Hq H. eapply (watched_kept (Some (id, row))) in H; [by apply H| |exact Hq|].
  - by intros q' Hq' ? ? [= <- <-].
  - split; [by apply reachable_keyed|]. by intros ? ? [= <- <-].
Qed.

(** C12: what is recorded stays: no request of the store, the append of a ledger
    entry and the insertion of outbox records among them, whatever is answered and
    whatever other clients do in between, removes or changes a ledger entry, the
    ledger place of an evaluation, the fact of a transfer, a published transfer, a
    bundle record, a trusted key, a revocation, a policy version or an event of its
    life, an evidence object, an estimate, or an outbox record that is published or
    dead-lettered. *)
Theorem records_are_permanent q w d w' d' r :
  reachable d -> perform q (w, d) = ((w', d'), r) ->
  permanent d d' /\
  forall id row, evaluation_outbox d !! id = Some row ->
    outbox.Status row = outbox.OutboxStatusPublished \/ outbox.Status row = outbox.OutboxStatusDeadLettered ->
    evaluation_outbox d' !! id = Some row.
Proof.
  intros Hd H. split; [by eapply perform_permanent|].
  intros id row Hrow Hs. eapply (watched_kept (Some (id, row)) (fun _ => True)) in H;
    [by apply H| |by apply every_true|].
  - intros q1 _ id' row' [= <- <-]. by apply done_untouched.
  - split; [by apply reachable_keyed|]. by intros ? ? [= <- <-].
Qed.

End ownership.
