(* ===== verification/PgPolicyProperties.v ===== *)
(** * Policies in the database

    The effective periods of the versions of a policy are apart, and the events of
    a version are a life: activated, then suspended, then retired. So resolution is
    never ambiguous, and what is closed stays closed. *)

From Stdlib Require Import Ascii String.
From S2P Require Import Prelude GoTime GoString Uuid GoCrypto GoJson GoUnmarshal Policy Bundle Postgres PgPolicies PgLedger PgSound PgOwnership.
Import postgres.

Section policy_properties.
Context {P : evidencebundle.Platform} {D : Driver} {L : DriverLaws D}.

(** ** The invariant *)

(** The events of a version, the last one first. *)
Inductive life : list LifecycleRow -> Prop :=
  | life_none : life []
  | life_active e : lifecycle_status e = policy.LifecycleActive -> instant (event_at e) mod Microsecond = 0 -> life [e]
  | life_next e old l :
      life (old :: l) -> policies.validTransition (lifecycle_status old) (lifecycle_status e) = true ->
      instant (event_at e) mod Microsecond = 0 -> instant (event_at old) <= instant (event_at e) -> life (e :: old :: l).

Definition events_of (pid version : string) (d : Database) : list LifecycleRow :=
  List.filter (policies.event_of_version pid version) (policy_lifecycle_events d).

Definition apart (m : gmap (string * string) PolicyRow) : Prop :=
  forall pid v v' row row', m !! (pid, v) = Some row -> m !! (pid, v') = Some row' -> v <> v' -> policies.overlaps row row' = false.

(** A row holds the encoding of its version. *)
Definition version_row (k : string * string) (row : PolicyRow) : Prop :=
  exists s payload sg, policies.encodePolicySnapshot s = Ok payload /\ row = policies.versionRow s payload sg /\
    k = (policy.PolicyID s, policy.VersionName s).

Record lawful (d : Database) : Prop := {
  lw_apart : apart (policy_versions d);
  lw_row : map_Forall version_row (policy_versions d);
  lw_life : forall pid version, life (events_of pid version d)
}.

(** ** Lives *)

Lemma life_whole e l : life (e :: l) -> instant (event_at e) mod Microsecond = 0.
Proof. inversion 1; subst; done. Qed.

Lemma life_latest l : life l -> policies.latest l = head l.
Proof.
  induction 1 as [|e Hs Hw|e old l Hl IH Ht Hw Hle]; [done..|]. cbn [policies.latest head] in *. rewrite IH.
  unfold After. by rewrite (proj2 (Z.ltb_ge _ _) Hle).
Qed.

(** Only the first event of a life is an activation. *)
Lemma life_closed k e l :
  life (k ++ e :: l) -> lifecycle_status e <> policy.LifecycleActive ->
  exists e' l', k ++ e :: l = e' :: l' /\ lifecycle_status e' <> policy.LifecycleActive.
Proof.
  intros H He. destruct k as [|x k]; [by exists e, l|]. exists x, (k ++ e :: l). split; [done|].
  inversion H as [|? ? ? E|? ? ? _ Ht _ _ E]; subst; [by destruct k|].
  intros Ha. rewrite Ha in Ht. unfold policies.validTransition in Ht. cbn in Ht. by rewrite !andb_false_r in Ht.
Qed.

Lemma life_activated l :
  life l -> List.find (fun e => lifecycle_status e == policy.LifecycleActive) l = None -> l = [].
Proof.
  induction 1 as [|e Hs Hw|e old l Hl IH Ht Hw Hle]; [done| |]; cbn [List.find]; intros H.
  - by rewrite Hs in H.
  - destruct (_ == _); [done|]. by apply IH in H.
Qed.

Lemma find_filter {A} (f g : A -> bool) l : List.find (fun x => f x && g x) l = List.find g (List.filter f l).
Proof.
  induction l as [|x l IH]; [done|]. cbn [List.find List.filter]. destruct (f x); cbn [andb List.find]; [|done].
  by destruct (g x).
Qed.

(** ** Preservation *)

Lemma insertEvent_ok e d d' :
  policies.insertEvent e d = Some (d', tt) -> d' = d <| policy_lifecycle_events := e :: policy_lifecycle_events d |>.
Proof.
  unfold policies.insertEvent. cbv zeta. destruct (_ || _); [done|]. destruct (policy_versions d !! _); [|done].
  by intros [= <-].
Qed.

Lemma lawful_event e d d' :
  lawful d -> life (e :: events_of (lifecycle_policy_id e) (lifecycle_version e) d) ->
  policies.insertEvent e d = Some (d', tt) -> lawful d'.
Proof.
  intros [Ha Hr Hl] He ->%insertEvent_ok. split; [done|done|]. intros pid version. unfold events_of. cbn.
  destruct (policies.event_of_version pid version e) eqn:E; [|apply Hl].
  apply andb_true_iff in E as [<-%bool_decide_eq_true <-%bool_decide_eq_true]. exact He.
Qed.

Lemma overlaps_sym a b : policies.overlaps a b = policies.overlaps b a.
Proof. unfold policies.overlaps. apply andb_comm. Qed.

Lemma lawful_version s payload sg d d' b :
  policies.encodePolicySnapshot s = Ok payload -> lawful d -> policies.insertVersion s payload sg d = Some (d', b) -> lawful d'.
Proof.
  intros He [Ha Hr Hl]. unfold policies.insertVersion. cbv zeta. destruct (_ || _); [done|].
  destruct (policy_versions d !! _) eqn:Ek; [done|]. destruct (existsb _ _) eqn:Ex; intros [= <- _]; [done|]. split; [| |done].
  - assert (forall v row, policy_versions d !! (policy.PolicyID s, v) = Some row ->
      policies.overlaps row (policies.versionRow s payload sg) = false) as Hnew.
    { intros v row Hv. apply not_true_is_false. intros Ho. apply not_true_iff_false in Ex. apply Ex, existsb_exists.
      exists ((policy.PolicyID s, v), row). split; [by apply list_elem_of_In, elem_of_map_to_list|].
      cbn. by rewrite Ho, bool_decide_eq_true_2. }
    intros pid v v' row row' H H' Hne. cbn in H, H'. rewrite lookup_insert in H, H'. repeat case_decide; simplify_eq;
      first [by eapply Ha|by eapply Hnew|rewrite overlaps_sym; by eapply Hnew].
  - apply map_Forall_insert_2; [|done]. by exists s, payload, sg.
Qed.

Lemma lawful_activation e d d' :
  lifecycle_status e = policy.LifecycleActive -> instant (event_at e) mod Microsecond = 0 ->
  policies.activation (lifecycle_policy_id e) (lifecycle_version e) d = None ->
  lawful d -> policies.insertEvent e d = Some (d', tt) -> lawful d'.
Proof.
  intros Hs Hw Hn Hd. apply lawful_event; [done|]. unfold policies.activation in Hn. rewrite find_filter in Hn.
  apply life_activated in Hn; [|apply (lw_life _ Hd)]. unfold events_of. rewrite Hn. by apply life_active.
Qed.

Lemma lawful_transition old e d d' :
  policies.latestEvent (lifecycle_policy_id e) (lifecycle_version e) d = Some old ->
  policies.validTransition (lifecycle_status old) (lifecycle_status e) = true ->
  instant (event_at e) mod Microsecond = 0 ->
  (instant (event_at old) mod Microsecond = 0 -> instant (event_at old) <= instant (event_at e)) ->
  lawful d -> policies.insertEvent e d = Some (d', tt) -> lawful d'.
Proof.
  intros Ho Ht Hw Hle Hd. apply lawful_event; [done|]. unfold policies.latestEvent in Ho.
  pose proof (lw_life _ Hd (lifecycle_policy_id e) (lifecycle_version e)) as Hl. unfold events_of in *.
  rewrite (life_latest _ Hl) in Ho. destruct (List.filter _ _) as [|x l]; [done|]. injection Ho as ->.
  apply life_next; [done..|]. by apply Hle, (life_whole _ _ Hl).
Qed.

Lemma perform_lawful q : preserves lawful (perform q).
Proof.
  apply (perform_preserves lawful (fun _ => True)); [| | | |by apply every_true].
  - intros key d d' k Hd. apply insertKey_frame; [elsewhere|done].
  - intros id at_ d d' k Hd. apply insertRevocation_frame; [elsewhere|done].
  - intros s payload d d' k Hd. apply insertEvidence_frame; [elsewhere|done].
  - clear q. intros q _ Hq. destruct q; try discriminate Hq; cbn [perform].
    + apply SaveResponsibility_frame; elsewhere.
    + apply CommitTransfer_frame; elsewhere.
    + apply preserves_ignore, ClaimResponsibilityTransfers_frame; elsewhere.
    + apply MarkResponsibilityTransferPublished_frame; elsewhere.
    + apply preserves_ignore, ReleaseExpiredResponsibilityLocks_frame; elsewhere.
    + apply SaveEvaluation_frame; elsewhere.
    + apply preserves_ignore, ClaimReady_frame; elsewhere.
    + apply MarkPublished_frame; elsewhere.
    + apply ScheduleRetry_frame; elsewhere.
    + apply MarkDeadLettered_frame; elsewhere.
    + apply preserves_ignore, ReleaseExpiredLocks_frame; elsewhere.
    + apply SaveEvidenceBundleAudit_frame; elsewhere.
    + apply SaveEstimatorResult_frame; elsewhere.
    + exact (Add_keeps lawful lawful_version lawful_activation _).
    + exact (transitionPolicy_keeps lawful lawful_transition _ _ _ _).
    + intros w d w' d' r Hd [-> |[_ ->]]%AppendAuditEntry_step; [done|]. by destruct Hd.
    + apply Insert_frame; elsewhere.
Qed.

Lemma reachable_lawful d : reachable d -> lawful d.
Proof.
  induction 1 as [|q wire d wire' d' r _ IH _ H]; [|by eapply perform_lawful].
  split; [done|apply map_Forall_empty|]. intros pid version. constructor.
Qed.

(** ** Resolution *)

Lemma inForce_overlaps at_ d k k' row row' :
  policies.inForce at_ d (k, row) = true -> policies.inForce at_ d (k', row') = true -> policies.overlaps row row' = true.
Proof.
  unfold policies.inForce, policies.overlaps, Before, After. cbn [fst snd]. rewrite !andb_true_iff, !negb_true_iff, !Z.ltb_ge.
  intros [[_ H1] H2] [[_ H3] H4]. destruct (effective_until row), (effective_until row'); rewrite ?Z.ltb_lt in *; split; (done || lia).
Qed.

Definition in_force_rows (pid : string) (at_ : Time) (d : Database) : list ((string * string) * PolicyRow) :=
  List.filter (fun kv => (kv.1.1 == pid) && policies.inForce at_ d kv) (map_to_list (policy_versions d)).

Lemma in_force_rows_elem pid at_ d kv :
  kv ∈ in_force_rows pid at_ d <->
  kv.1.1 = pid /\ policy_versions d !! kv.1 = Some kv.2 /\ policies.inForce at_ d kv = true.
Proof.
  unfold in_force_rows. rewrite list_elem_of_In, filter_In, <- list_elem_of_In. destruct kv as [k row].
  rewrite elem_of_map_to_list, andb_true_iff, bool_decide_eq_true. naive_solver.
Qed.

Lemma NoDup_list_filter {A} (f : A -> bool) (l : list A) : base.NoDup l -> base.NoDup (List.filter f l).
Proof. rewrite !NoDup_ListNoDup. apply List.NoDup_filter. Qed.

Lemma resolvable_one pid at_ d :
  lawful d -> policies.resolvable pid at_ d = in_force_rows pid at_ d /\ (length (in_force_rows pid at_ d) <= 1)%nat.
Proof.
  intros Hd. assert (length (in_force_rows pid at_ d) <= 1)%nat as Hone.
  { assert (base.NoDup (in_force_rows pid at_ d)) as Hn by apply NoDup_list_filter, NoDup_map_to_list.
    pose proof (in_force_rows_elem pid at_ d) as He. destruct (in_force_rows pid at_ d) as [|a [|b l]]; cbn; try lia.
    destruct (proj1 (He a)) as (Ha1 & Ha2 & Ha3); [left|]. destruct (proj1 (He b)) as (Hb1 & Hb2 & Hb3); [right; left|].
    destruct a as [[pa va] ra], b as [[pb vb] rb]. cbn in *. subst pa pb.
    pose proof (inForce_overlaps _ _ _ _ _ _ Ha3 Hb3) as Ho. destruct (decide (va = vb)) as [->|Hne].
    - apply NoDup_cons in Hn as [Hn _]. destruct Hn. rewrite Ha2 in Hb2. injection Hb2 as ->. left.
    - by rewrite (lw_apart _ Hd _ _ _ _ _ Ha2 Hb2 Hne) in Ho. }
  split; [|done]. unfold policies.resolvable. fold (in_force_rows pid at_ d).
  destruct (in_force_rows pid at_ d) as [|a [|b l]]; [done|done|cbn in Hone; lia].
Qed.

Lemma canonicalJSON_err b err : policy.canonicalJSON b = Err err -> err = policy.ErrInvalidDocument.
Proof. unfold policy.canonicalJSON. destruct (json.Decode b) as [[v rest]|]; [destruct (negb _)|]; by intros [= <-]. Qed.

Lemma normalizeRules_err seen ids err :
  policy.normalizeRules seen ids = Err err -> err = policy.ErrRequiredRulesMissing \/ err = policy.ErrDuplicateRequiredRule.
Proof.
  revert seen. induction ids as [|id ids IH]; intros seen; cbn; [done|]. destruct (_ == ""); [intros [= <-]; by left|].
  destruct (bool_decide _); [intros [= <-]; by right|]. specialize (IH ({[TrimSpace id]} ∪ seen)).
  destruct (policy.normalizeRules _ ids); [done|]. intros [= <-]. by apply IH.
Qed.

(** No snapshot is refused as ambiguous. *)
Lemma Rehydrate_not_ambiguous s : policy.Rehydrate s <> Err policy.ErrAmbiguousPolicy.
Proof.
  unfold policy.Rehydrate, policy.normalizeAndValidate. intros H.
  repeat match type of H with
  | context [if ?b then _ else _] => destruct b; cbn in H; [discriminate H|]
  end.
  destruct (policy.normalizeRules _ _) as [ids|err] eqn:En; cbn in H.
  - destruct (policy.canonicalJSON _) as [c|err] eqn:Ec; cbn in H.
    + destruct (c != _); [done|]. by destruct (_ != _).
    + apply canonicalJSON_err in Ec as ->. done.
  - by apply normalizeRules_err in En as [-> | ->].
Qed.

(** The version of this name governs at [t], to the microsecond: it is stored with its
    signature, its period covers the time, and the last thing recorded of its life is
    an activation that is in effect. *)
Definition governs (pid name : string) (row : PolicyRow) (t : Time) (d : Database) : Prop :=
  let now := instant (TruncateMicrosecond t) in
  policy_versions d !! (pid, name) = Some row /\ is_Some (signature row) /\
  instant (effective_from row) <= now /\ (forall until, effective_until row = Some until -> now < instant until) /\
  exists newer e older, policy_lifecycle_events d = newer ++ e :: older /\
    Forall (fun x => ~ (lifecycle_policy_id x = pid /\ lifecycle_version x = name)) newer /\
    lifecycle_policy_id e = pid /\ lifecycle_version e = name /\
    lifecycle_status e = policy.LifecycleActive /\ instant (event_at e) <= now.

Lemma head_filter {A} (f : A -> bool) l x :
  head (List.filter f l) = Some x <-> exists a b, l = a ++ x :: b /\ Forall (fun y => ~ f y) a /\ f x.
Proof.
  induction l as [|y l IH]; cbn; [split; [done|]; by intros ([|] & ? & [=] & _)|]. destruct (f y) eqn:E; cbn.
  - split.
    + intros [= ->]. exists [], l. split_and!; [done|done|by rewrite E].
    + intros ([|z a] & b & [= -> H] & Hf & Hx); [done|]. apply Forall_cons in Hf as [Hf _]. destruct Hf. by rewrite E.
  - rewrite IH. split.
    + intros (a & b & -> & Hf & Hx). exists (y :: a), b. split_and!; [done| |done]. apply Forall_cons. rewrite E. split; [by intros []|done].
    + intros ([|z a] & b & [= -> ->] & Hf & Hx); [by rewrite E in Hx|]. apply Forall_cons in Hf as [_ Hf]. by exists a, b.
Qed.

Lemma event_of_version_iff pid name e :
  policies.event_of_version pid name e <-> lifecycle_policy_id e = pid /\ lifecycle_version e = name.
Proof. unfold policies.event_of_version. by rewrite andb_True, !bool_decide_spec. Qed.

(** The version that a stored snapshot is of: its JSON decodes, and it verifies. *)
Definition stored_version (payload : bytes) (v : policy.Version) : Prop :=
  exists s, unmarshal.Unmarshal evidencebundle.decode_snapshot payload evidencebundle.zeroSnapshotJSON = Some s /\
    policy.Rehydrate (evidencebundle.fromJSON s) = Ok v.

Lemma decodePolicySnapshot_stored payload v :
  policies.decodePolicySnapshot payload = Ok v <-> stored_version payload v.
Proof.
  unfold policies.decodePolicySnapshot, stored_version. destruct (unmarshal.Unmarshal _ _ _) as [s|]; [|naive_solver].
  destruct (policy.Rehydrate _) as [v'|err] eqn:E; cbn; split; [intros [= <-]; eauto| |done|].
  - intros (s' & [= <-] & H). congruence.
  - intros (s' & [= <-] & H). congruence.
Qed.

Lemma inForce_governs pid name row at_ d :
  lawful d ->
  policy_versions d !! (pid, name) = Some row /\ policies.inForce (column (UTC at_)) d ((pid, name), row) = true <->
  governs pid name row at_ d.
Proof.
  intros Hd. unfold governs, policies.inForce, policies.latestEvent, After, Before. cbn [fst snd]. rewrite column_UTC.
  change (List.filter (policies.event_of_version pid name) (policy_lifecycle_events d)) with (events_of pid name d).
  rewrite (life_latest _ (lw_life _ Hd pid name)). unfold events_of.
  rewrite !andb_true_iff, bool_decide_eq_true, negb_true_iff, Z.ltb_ge.
  assert (forall now, match effective_until row with None => true | Some until => now <? instant until end = true <->
    forall until, effective_until row = Some until -> now < instant until) as Hu.
  { intros now. destruct (effective_until row) as [u|]; [|naive_solver]. rewrite Z.ltb_lt. naive_solver. }
  rewrite Hu. clear Hu. split.
  - intros (Hr & ((Hs & He) & Hf) & Hu). split_and!; try done.
    destruct (head _) as [e|] eqn:Eh; [|done]. apply head_filter in Eh as (newer & older & Hl & Hn & Hx).
    apply event_of_version_iff in Hx as [Hx1 Hx2]. apply andb_true_iff in He as [Ha%bool_decide_eq_true Hle].
    exists newer, e, older. split_and!; try done; [|lia]. eapply Forall_impl; [exact Hn|]. intros x Hx Hx'.
    by apply Hx, event_of_version_iff.
  - intros (Hr & Hs & Hf & Hu & newer & e & older & Hl & Hn & Hx1 & Hx2 & Ha & Hle). split_and!; try done.
    assert (head (List.filter (policies.event_of_version pid name) (policy_lifecycle_events d)) = Some e) as ->.
    { apply head_filter. exists newer, older. split_and!; [done| |by apply event_of_version_iff].
      eapply Forall_impl; [exact Hn|]. intros x Hx Hx'. by apply Hx, event_of_version_iff. }
    rewrite bool_decide_eq_true_2 by done. by apply negb_true_iff, Z.ltb_ge.
Qed.

(** C14: resolution in the database is a partial function: in every database the
    store can produce, Resolve is never ambiguous, whatever is answered, and where
    its query is carried it yields a version exactly when it is stored with its
    signature under the policy asked for, its period covers the time, the last event
    recorded of it is an activation that was already in effect, and its stored
    snapshot verifies. *)
Theorem stored_policy_resolution d pid at_ :
  reachable d -> pid <> "" -> IsZero at_ = false ->
  (forall w, (policies.Resolve pid at_ (w, d)).2 <> Err (PolicyError policy.ErrAmbiguousPolicy)) /\
  (forall v, policies.Resolve pid at_ ([], d) = (([], d), Ok v) <->
     exists name row, governs pid name row at_ d /\ stored_version (policy_snapshot row) v).
Proof.
  intros Hd%reachable_lawful Hp Ht. set (now := column (UTC at_)).
  destruct (resolvable_one pid now d Hd) as [Er Hone]. pose proof (in_force_rows_elem pid now d) as He.
  unfold policies.Resolve. rewrite (bool_decide_eq_false_2 _ Hp), Ht. cbn [orb]. fold now. split.
  - intros w. unfold abind at 1. destruct (query _ (w, d)) as [[w1 d1] r] eqn:E.
    apply query_cases in E as [-> [->| ->]]; [|done]. rewrite Er. clear Er He.
    destruct (in_force_rows pid now d) as [|kv [|? ?]]; [done| |cbn in Hone; lia].
    cbn [fmap list_fmap policies.decodeAll]. unfold abind, lift. cbn [compose].
    unfold policies.decodePolicySnapshot. destruct (unmarshal.Unmarshal _ _ _) as [j|]; [|done].
    pose proof (Rehydrate_not_ambiguous (evidencebundle.fromJSON j)).
    destruct (policy.Rehydrate _) as [v|err]; cbn; [done|]. intros [= ->]. done.
  - intros v. trans (exists name row, (policy_versions d !! (pid, name) = Some row /\
      policies.inForce now d ((pid, name), row) = true) /\ policies.decodePolicySnapshot (policy_snapshot row) = Ok v);
      [|split; intros (name & row & H1 & H2); exists name, row;
        split; [by apply inForce_governs|by apply decodePolicySnapshot_stored|by apply inForce_governs|by apply decodePolicySnapshot_stored]].
    unfold abind at 1. rewrite query_carried, Er.
    destruct (in_force_rows pid now d) as [|kv [|? ?]]; [| |cbn in Hone; lia].
    + split; [done|]. intros (name & row & [H1 H2] & _). exfalso. eapply elem_of_nil, (proj2 (He ((pid, name), row))). done.
    + destruct (proj1 (He kv)) as (H1 & H2 & H3); [left|]. cbn [fmap list_fmap policies.decodeAll]. unfold abind, lift. cbn [compose].
      destruct (policies.decodePolicySnapshot _) as [v'|err] eqn:Ev; cbn.
      * split.
        -- intros [= <-]. destruct kv as [[p name] row]. cbn in H1. subst p. by exists name, row.
        -- intros (name & row & [H4 H5] & H6). assert (((pid, name), row) ∈ [kv]) as Hin by (by apply He).
           apply list_elem_of_singleton in Hin as <-. cbn in Ev. rewrite Ev in H6. by injection H6 as ->.
      * split; [done|]. intros (name & row & [H4 H5] & H6). assert (((pid, name), row) ∈ [kv]) as Hin by (by apply He).
        apply list_elem_of_singleton in Hin as <-. cbn in Ev. congruence.
Qed.

(** C15: a version that is suspended or retired never governs again: in every
    database the store can produce, when the last event of a version is not an
    activation, no request, with those of other clients in between and whatever is
    answered, makes it resolvable at any time, since no activation can be recorded
    again. *)
Theorem stored_version_stays_closed q w d w' d' r pid version e :
  reachable d -> policies.latestEvent pid version d = Some e -> lifecycle_status e <> policy.LifecycleActive ->
  perform q (w, d) = ((w', d'), r) ->
  forall at_ row, policies.inForce at_ d' ((pid, version), row) = false.
Proof.
  intros Hd%reachable_lawful He Hs H at_ row. pose proof (perform_permanent _ _ _ _ _ _ H) as [? ? ? ? ? ? ? [l Hl] _ _].
  pose proof (perform_lawful q _ _ _ _ _ Hd H) as Hd'. pose proof (lw_life _ Hd' pid version) as Hf.
  change (policies.latest (events_of pid version d) = Some e) in He. rewrite (life_latest _ (lw_life _ Hd pid version)) in He.
  destruct (events_of pid version d) as [|e0 l0] eqn:E0; [done|]. injection He as ->.
  unfold events_of in Hf, E0. rewrite Hl, List.filter_app, E0 in Hf. destruct (life_closed _ _ _ Hf Hs) as (e' & l' & Ee & Ha).
  rewrite Ee in Hf. unfold policies.inForce. cbn [fst snd]. unfold policies.latestEvent.
  rewrite Hl, List.filter_app, E0, Ee, (life_latest _ Hf). cbn [head]. by rewrite (bool_decide_eq_false_2 _ Ha), andb_false_r.
Qed.

End policy_properties.
