(* ===== verification/PgExamples.v ===== *)
(** * The PostgreSQL store on concrete inputs

    An object is assigned and handed over, an evaluation is saved with an outbox
    record, and the record is claimed. *)

From Stdlib Require Import Ascii String.
From S2P Require Import Prelude GoTime GoString Uuid GoCrypto Responsibility AuditLedger Evaluation Outbox EvidenceStore.
From S2P Require Import Policy PolicyAdmission PolicyExamples Bundle BundleProperties.
From S2P Require Import Postgres PgResponsibility PgRecords PgOutbox PgEvaluations PgLedger PgSound PgPolicies PgRoundTrip PgProperties PgOwnership PgPolicyProperties.
Import postgres.

#[local] Instance ex_store_platform : evidencebundle.Platform := {|
  evidencebundle.zone_offset := ex_zone;
  evidencebundle.fixed_zone := fun _ _ => 1%positive;
  evidencebundle.map_range := ex_range;
  evidencebundle.sort_objects := fun l => l;
  evidencebundle.ed25519_Verify := fun _ _ _ => true
|}.

(** Columns keep the zone of the client, which is not UTC. *)
#[local] Instance ex_driver : Driver := {|
  column := fun t => MkTime (instant (TruncateMicrosecond t)) (ZoneLoc 1);
  jsonb := fun b => b;
  collate := fun s t => bool_decide (String.le s t);
  returning := fun _ l => rev l
|}.

#[local] Instance ex_driver_laws : DriverLaws ex_driver.
Proof.
  split; cbn [column collate returning ex_driver]; intros.
  - done.
  - apply orb_true_iff. rewrite !bool_decide_eq_true. apply (total String.le).
  - apply bool_decide_eq_true in H, H0. by apply (anti_symm String.le).
  - apply bool_decide_eq_true in H, H0. apply bool_decide_eq_true. by etrans.
  - symmetry. apply Permutation_rev.
Qed.

(** A call, from a database the store can produce. *)
Lemma reachable_serve d s : reachable d -> admissible s.2 -> reachable (serve perform d s).
Proof.
  intros Hd Hq. destruct s as [w q]. unfold serve. cbn [fst snd]. destruct (perform q (w, d)) as [[w' d'] r] eqn:E.
  by eapply reachable_call.
Qed.

Lemma call_ok {A} (m : call A) c a : (m c).2 = Ok a -> m c = (((m c).1.1, (m c).1.2), Ok a).
Proof. intros H. rewrite <- H. by destruct (m c) as [[w d] r]. Qed.

Lemma call_all {A} (m : call A) c : m c = (((m c).1.1, (m c).1.2), (m c).2).
Proof. by destruct (m c) as [[w d] r]. Qed.

(** ** A handover *)

Definition ex_assigned : responsibility.Snapshot := responsibility.MkSnapshot "crate-7" "alice" 1 (utc_seconds 100).
Definition ex_next : responsibility.Snapshot := responsibility.MkSnapshot "crate-7" "bob" 2 (utc_seconds 200).
Definition ex_handed : responsibility.TransferredEvent :=
  responsibility.MkTransferredEvent "crate-7" "alice" "bob" (utc_seconds 200) 2.

Definition ex_first : Request := RSaveResponsibility ex_assigned 0.
Definition ex_second : Request := RCommitTransfer ex_next 1 ex_handed.

Definition ex_assigned_db : Database := serve perform EmptyDatabase ([], ex_first).

Lemma ex_datable : datable (utc_seconds 200).
Proof. split; [by vm_compute|]. by split; vm_compute. Qed.

Lemma ex_assigned_reachable : reachable ex_assigned_db.
Proof. apply reachable_serve; [apply reachable_empty|]. by split; [split; [split; vm_compute|vm_compute]|]. Qed.

Lemma ex_second_admissible : admissible ex_second.
Proof. split; [|done]. split; [by split; vm_compute|exact ex_datable]. Qed.

Lemma ex_commits : (handover.CommitTransfer ex_next 1 ex_handed ([], ex_assigned_db)).2 = Ok tt.
Proof. vm_compute. reflexivity. Qed.

Definition ex_handed_db : Database := serve perform ex_assigned_db ([], ex_second).

Lemma ex_handed_reachable : reachable ex_handed_db.
Proof. apply reachable_serve; [exact ex_assigned_reachable|exact ex_second_admissible]. Qed.

(** The audited store, after a handover: the transfer is in the ledger, and found. *)
Lemma store_is_audited_witness :
  reachable ex_handed_db /\ audit.chained (audit_ledger ex_handed_db) /\
  forall row, responsibility_handover_events ex_handed_db !! ("crate-7", 2) = Some row ->
    in_ledger ex_handed_db (handover_audit_sequence row) audit.RecordResponsibilityHandover
      (sha256 (responsibility.transferPreimage (event_of ("crate-7", 2) row))) /\
    handover.FindTransfer "crate-7" 2 ([], ex_handed_db) = (([], ex_handed_db), Ok (event_of ("crate-7", 2) row)).
Proof.
  destruct (proj2 (store_is_audited (L := ex_driver_laws) ex_handed_db) ex_handed_reachable) as (Hc & Ht & _).
  split; [exact ex_handed_reachable|]. split; [exact Hc|]. exact (Ht ("crate-7", 2)).
Defined.

(** A transfer that succeeds, in the database and in memory. *)
Lemma commit_refines_memory_witness :
  (handover.CommitTransfer ex_next 1 ex_handed ([], ex_assigned_db)).2 = Ok tt /\
  responsibility.memory_CommitTransfer (micro_snapshot ex_next) 1 (micro_event ex_handed) (as_memory ex_assigned_db) =
  (as_memory ex_handed_db, Ok tt).
Proof.
  split; [exact ex_commits|].
  refine (proj1 (commit_refines_memory (L := ex_driver_laws) ex_next 1 ex_handed [] ex_assigned_db _ ex_handed_db (Ok tt)
    ex_assigned_reachable (conj _ _) ex_datable (call_ok _ _ _ ex_commits))); vm_compute; [intros [=]|reflexivity].
Defined.

(** ** An evaluation *)

Definition ex_evaluation : evaluation.EvaluationSnapshot :=
  evaluation.MkEvaluationSnapshot (uuid_of 50) (uuid_of 200) evaluation.StateCreated evaluation.ResultUnknown [] (utc_seconds 200)
    None None None None "" 1 ["Z"] [] [] [] None None.

Definition ex_record : outbox.OutboxRecord :=
  outbox.MkOutboxRecord (uuid_of 80) "evaluation" (uuid_of 50) (uuid_of 200) 1 "EvaluationCreated" (bytes_of "{}")
    outbox.OutboxStatusPending (utc_seconds 200) (utc_seconds 200) None None None None None 0 5 "" "" None.

Lemma ex_saves : (evaluations.SaveEvaluation ex_evaluation 0 [ex_record] ([], EmptyDatabase)).2 = Ok tt.
Proof. vm_compute. reflexivity. Qed.

Lemma ex_evaluation_plain : plain_snapshot ex_evaluation.
Proof.
  split; cbn; try (by repeat constructor); try (by intros ?).
  - split_and!; apply GoJsonStruct.ascii_utf8; reflexivity.
  - split; repeat constructor; apply GoJsonStruct.ascii_utf8; reflexivity.
Qed.

Definition ex_saved_db : Database := serve perform EmptyDatabase ([], RSaveEvaluation ex_evaluation 0 [ex_record]).

Lemma ex_saved_reachable : reachable ex_saved_db.
Proof. apply reachable_serve; [apply reachable_empty|]. split; [exact ex_datable|done]. Qed.

(** The evaluation is found after its save. *)
Lemma saved_evaluation_is_found_witness :
  exists e, evaluation.RehydrateEvaluation ex_evaluation = Ok e /\
    evaluations.FindEvaluation (uuid_of 50) ([], ex_saved_db) = (([], ex_saved_db), Ok e).
Proof.
  exact (saved_evaluation_is_found (L := ex_driver_laws) ex_evaluation 0 [ex_record] [] EmptyDatabase _ ex_saved_db
    reachable_empty ex_datable ex_evaluation_plain (call_ok _ _ _ ex_saves)).
Defined.

(** ** An outbox record *)

Definition ex_claim : Request := RClaimReady (fun _ => false) (outbox.MkOutboxClaimRequest "worker-1" 10 (utc_seconds 400) (30 * Second)).

Definition ex_claimed_db : Database := serve perform ex_saved_db ([], ex_claim).

Definition ex_claimed : outbox.OutboxRecord :=
  outbox_repository.claimRow "worker-1" (column (utc_seconds 400)) (column (utc_seconds 430)) (outbox_repository.insertedRow ex_record).

Lemma ex_claims : evaluation_outbox ex_claimed_db !! uuid_of 80 = Some ex_claimed.
Proof. vm_compute. reflexivity. Qed.

Lemma ex_claimed_db_reachable : reachable ex_claimed_db.
Proof. apply reachable_serve; [exact ex_saved_reachable|]. by split. Qed.

(** The result of another worker, whose statement is carried but not answered, is
    without effect. *)
Definition ex_intruder : Request := RMarkPublished (uuid_of 80) "worker-2" (utc_seconds 410).

Lemma ex_not_owner : every (fun q => ~ may_touch (uuid_of 80) ex_claimed q) ex_intruder.
Proof. split; [|done]. intros [_ [_ H]]. vm_compute in H. discriminate H. Qed.

Lemma outbox_ownership_witness :
  evaluation_outbox (serve perform ex_claimed_db ([Unanswered], ex_intruder)) !! uuid_of 80 = Some ex_claimed.
Proof.
  exact (outbox_ownership (uuid_of 80) ex_claimed ex_intruder [Unanswered] ex_claimed_db _ _ _ ex_claimed_db_reachable ex_claims
    ex_not_owner (call_all _ _)).
Defined.

(** The handover of the first database stays under any release of locks. *)
Lemma records_are_permanent_witness :
  permanent ex_handed_db (serve perform ex_handed_db ([], RReleaseTransfers (utc_seconds 500))).
Proof.
  exact (proj1 (records_are_permanent (RReleaseTransfers (utc_seconds 500)) [] ex_handed_db _ _ _ ex_handed_reachable (call_all _ _))).
Defined.

(** ** A policy *)

Definition ex_activated : policy.ActivatedVersion :=
  policy.MkActivatedVersion
    (policy.MkVerifiedVersion (Some ex_v3)
       (policy.MkSignature "authority" "key-1" policy.AlgorithmEd25519 (utc_seconds 110) "AA=="))
    (policy.MkApprovalRecord "RELEASE" "3.0" (policy.Hash (policy.VersionSnapshot ex_v3)) "carol" (utc_seconds 120)) (utc_seconds 130).

Definition ex_policy_db : Database := serve perform EmptyDatabase ([], RAddPolicy (Some ex_activated)).

Lemma ex_policy_reachable : reachable ex_policy_db.
Proof. apply reachable_serve; [apply reachable_empty|]. by split. Qed.

Definition ex_policy_row : PolicyRow :=
  match policy_versions ex_policy_db !! ("RELEASE", "3.0") with
  | Some row => row
  | None => MkPolicyRow "" ZeroTime None "" [] None
  end.

Lemma ex_policy_stored : policy_versions ex_policy_db !! ("RELEASE", "3.0") = Some ex_policy_row.
Proof. vm_compute. reflexivity. Qed.

Lemma ex_policy_governs : governs "RELEASE" "3.0" ex_policy_row (utc_seconds 200) ex_policy_db.
Proof.
  apply inForce_governs; [exact (reachable_lawful _ ex_policy_reachable)|]. split; [exact ex_policy_stored|vm_compute; reflexivity].
Qed.

Lemma ex_policy_decodes : exists v, policies.decodePolicySnapshot (policy_snapshot ex_policy_row) = Ok v.
Proof.
  assert (match policies.decodePolicySnapshot (policy_snapshot ex_policy_row) with Ok _ => true | Err _ => false end = true) as H
    by (vm_compute; reflexivity).
  destruct (policies.decodePolicySnapshot _) as [v|err]; [by exists v|discriminate H].
Qed.

(** The version that was added is the one resolved. *)
Lemma stored_policy_resolution_witness :
  exists v, policies.Resolve "RELEASE" (utc_seconds 200) ([], ex_policy_db) = (([], ex_policy_db), Ok v).
Proof.
  destruct ex_policy_decodes as [v Hv]. exists v.
  refine (proj2 (proj2 (stored_policy_resolution (L := ex_driver_laws) ex_policy_db "RELEASE" (utc_seconds 200)
    ex_policy_reachable ltac:(intros [=]) eq_refl) v) _).
  exact (ex_intro _ "3.0" (ex_intro _ ex_policy_row (conj ex_policy_governs (proj1 (decodePolicySnapshot_stored _ _) Hv)))).
Defined.

Definition ex_retire : Request := RTransition "RELEASE" "3.0" policy.LifecycleRetired (utc_seconds 300).

Definition ex_retired_db : Database := serve perform ex_policy_db ([], ex_retire).

Lemma ex_retired_reachable : reachable ex_retired_db.
Proof. apply reachable_serve; [exact ex_policy_reachable|]. by split. Qed.

(** Once retired it is not activated by adding it again. *)
Lemma stored_version_stays_closed_witness :
  policies.inForce (column (utc_seconds 400)) (serve perform ex_retired_db ([], RAddPolicy (Some ex_activated)))
    (("RELEASE", "3.0"), ex_policy_row) = false.
Proof.
  refine (stored_version_stays_closed (L := ex_driver_laws) (RAddPolicy (Some ex_activated)) [] ex_retired_db _ _ _ "RELEASE" "3.0"
    (MkLifecycleRow "RELEASE" "3.0" policy.LifecycleRetired (column (utc_seconds 300)) None None)
    ex_retired_reachable _ _ (call_all _ _) (column (utc_seconds 400)) ex_policy_row); [vm_compute; reflexivity|intros [=]].
Defined.

(** ** Times below a microsecond *)

(** An activation that is, or is not, at a whole microsecond. *)
Definition ex_activated_at (at_ : Time) : policy.ActivatedVersion :=
  policy.MkActivatedVersion
    (policy.MkVerifiedVersion (Some ex_v1)
       (policy.MkSignature "authority" "key-1" policy.AlgorithmEd25519 (utc_seconds 110) "AA=="))
    (policy.MkApprovalRecord "RELEASE" "1.0" (policy.Hash (policy.VersionSnapshot ex_v1)) "carol" (utc_seconds 120)) at_.

(** Adding the same version again is meant to succeed, and does at a whole
    microsecond. *)
Lemma repeated_activation_conflicts :
  let c := policies.Add (Some (ex_activated_at (Add (utc_seconds 130) 1))) ([], EmptyDatabase) in
  let c' := policies.Add (Some (ex_activated_at (utc_seconds 130))) ([], EmptyDatabase) in
  c.2 = Ok tt /\
  (policies.Add (Some (ex_activated_at (Add (utc_seconds 130) 1))) c.1).2 = Err (PolicyError policy.ErrInvalidLifecycleChange) /\
  (policies.Add (Some (ex_activated_at (utc_seconds 130))) c'.1).2 = Ok tt.
Proof. vm_compute. done. Qed.

(** Its time is not a whole microsecond. *)
Definition ex_key : policy.VerificationKey :=
  policy.MkVerificationKey "authority" "key-1" policy.AlgorithmEd25519 (bytes_of "0123") (Add (utc_seconds 100) 1) None None.

(** Adding the same key again is meant to succeed; the stored time has lost its
    nanosecond, so it is a conflict. *)
Lemma repeated_key_conflicts :
  let c := records.AddVerificationKey id ex_key ([], EmptyDatabase) in
  c.2 = Ok tt /\ (records.AddVerificationKey id ex_key c.1).2 = Err (PolicyError policy.ErrVerificationKeyConflict).
Proof. vm_compute. done. Qed.
