(* ===== verification/Migrations.v ===== *)
(** * The installation of the schema ([migrations/migrate.go])

    Every embedded file is applied once, in the order of the names, each in one
    transaction with the record of its checksum. The files, and what the server makes
    of their text, are parameters. An advisory lock keeps concurrent runs apart, so
    that one run at a time is a sequence of steps of the database. *)

From Stdlib Require Import Ascii String.
From S2P Require Import Prelude GoString Uuid GoParse GoCrypto Postgres.
Import postgres.

Module migrations.

Inductive Error :=
  | ErrDatabaseRequired
  | ErrChecksumMismatch
  | ErrDatabase
  | ErrFile.

(** ** The text of a migration *)

Fixpoint join_lines (l : list bytes) : bytes :=
  match l with
  | [] => []
  | [line] => line
  | line :: l => line ++ ascii_of_N 10 :: join_lines l
  end.

(** [strings.EqualFold] with a text of ASCII letters that have no other fold. *)
Definition EqualFold (s t : string) : bool := map upper_byte (bytes_of s) == bytes_of t.

Definition withoutTransactionWrapper (contents : string) : string :=
  let lines := split_byte 10 (bytes_of (TrimSpace contents)) in
  let trimmed line := TrimSpace (string_of line) in
  let lines :=
    match lines, last lines with
    | first :: ((_ :: _) as rest), Some final =>
        if EqualFold (trimmed first) "BEGIN;" && EqualFold (trimmed final) "COMMIT;" then removelast rest else lines
    | _, _ => lines
    end in
  TrimSpace (string_of (join_lines lines)).

(** ** The files *)

Definition has_suffix (suffix s : string) : bool :=
  let b := bytes_of s in
  (length (bytes_of suffix) <=? length b)%nat && (drop (length b - length (bytes_of suffix)) b == bytes_of suffix).

(** The entries of the directory: names, and which of them are directories. *)
Definition embeddedMigrationNames (entries : list (string * bool)) : list string :=
  sort_strings (fst <$> List.filter (fun entry => negb entry.2 && has_suffix ".sql" entry.1) entries).

Section apply.

(** The files; the schema without the table of the migrations, and what the text of a
    migration makes of it, inside a transaction: [None] is an error of the server. *)
Context (entries : list (string * bool)) (ReadFile : string -> option bytes).
Context {Schema : Type} (run_sql : string -> Schema -> option Schema).

(** [cargoos_schema_migrations]: the checksum of every version. *)
Record Database := MkDatabase {
  schema : Schema;
  schema_migrations : option (gmap string string)
}.

Abbreviation call := (action (list Answer * Database) Error).

Definition exec {A} (f : Database -> option (Database * A)) : call A := sent ErrDatabase f.

Definition checksum (contents : bytes) : string := string_of (hex_encode (sha256 contents)).

(** The row of a version; there is an error where there is no table. *)
Definition installedChecksum (name : string) : call (option string) :=
  exec (fun d => (fun m => (d, m !! name)) <$> schema_migrations d).

Definition runMigration (contents : bytes) : call unit :=
  exec (fun d =>
    match run_sql (withoutTransactionWrapper (string_of contents)) (schema d) with
    | None => None
    | Some s => Some (MkDatabase s (schema_migrations d), tt)
    end).

Definition recordMigration (name : string) (contents : bytes) : call unit :=
  exec (fun d =>
    match schema_migrations d with
    | None => None
    | Some m =>
        match m !! name with
        | Some _ => None
        | None => Some (MkDatabase (schema d) (Some (<[name := checksum contents]> m)), tt)
        end
    end).

Definition applyOne (name : string) : call unit :=
  match ReadFile name with
  | None => fun c => (c, Err ErrFile)
  | Some contents =>
      do! installed <- installedChecksum name;
      match installed with
      | Some sum => if sum == checksum contents then aret tt else fun c => (c, Err ErrChecksumMismatch)
      | None => committed ErrDatabase (do! _ <- runMigration contents; recordMigration name contents)
      end
  end.

Definition createTable : call unit :=
  exec (fun d => Some (MkDatabase (schema d) (Some (default ∅ (schema_migrations d))), tt)).

(** A statement without an effect on the tables: a lock, or a connection. *)
Definition ping : call unit := exec (fun d => Some (d, tt)).

(** The connection, the lock, the table, the files; the deferred unlock. *)
Definition Apply : action (option (list Answer * Database)) Error unit :=
  on_pointer ErrDatabaseRequired
    (do! _ <- ping;
     do! _ <- ping;
     fun c =>
       let '(c, r) := (do! _ <- createTable; afor applyOne (embeddedMigrationNames entries)) c in
       (fst (ping c), r)).

End apply.

(** ** The wrapper *)

Lemma split_byte_nonempty n b : split_byte n b <> [].
Proof. destruct b as [|c b]; [done|]. cbn. destruct (byte_is n c); [done|]. by destruct (split_byte n b). Qed.

Lemma split_byte_at n a c b : byte_is n c = true -> split_byte n (a ++ c :: b) = split_byte n a ++ split_byte n b.
Proof.
  intros Hc. induction a as [|x a IH]; cbn [app split_byte]; [by rewrite Hc|]. destruct (byte_is n x); [by rewrite IH|].
  rewrite IH. pose proof (split_byte_nonempty n a). by destruct (split_byte n a).
Qed.

Lemma join_split b : join_lines (split_byte 10 b) = b.
Proof.
  induction b as [|c b IH]; [done|]. cbn [split_byte]. pose proof (split_byte_nonempty 10 b) as Hne. destruct (byte_is 10 c) eqn:E.
  - destruct (split_byte 10 b) as [|x l]; [done|]. cbn [join_lines app] in *. rewrite IH. f_equal.
    rewrite <- (ascii_N_embedding c). by apply N.eqb_eq in E as ->.
  - destruct (split_byte 10 b) as [|x [|y l]]; [done|..]; cbn [join_lines app] in *; by rewrite <- IH.
Qed.

Definition wrapped (body : string) : string :=
  string_of (bytes_of "BEGIN;" ++ ascii_of_N 10 :: bytes_of body ++ ascii_of_N 10 :: bytes_of "COMMIT;").

(** The text between [BEGIN;] and [COMMIT;] is what is run. *)
Lemma wrapper_removed body : withoutTransactionWrapper (wrapped body) = TrimSpace body.
Proof.
  unfold withoutTransactionWrapper. assert (TrimSpace (wrapped body) = wrapped body) as ->.
  { unfold TrimSpace, wrapped. rewrite bytes_of_string_of. f_equal. unfold trim_left.
    rewrite trim_front_unstarted by reflexivity. unfold trim_right. rewrite trim_front_unstarted; [by rewrite reverse_involutive|].
    rewrite app_comm_cons, !app_assoc, !reverse_app. reflexivity. }
  unfold wrapped. rewrite bytes_of_string_of, split_byte_at by done. rewrite split_byte_at by done.
  change (split_byte 10 (bytes_of "BEGIN;")) with [bytes_of "BEGIN;"].
  change (split_byte 10 (bytes_of "COMMIT;")) with [bytes_of "COMMIT;"]. cbn [app].
  pose proof (split_byte_nonempty 10 (bytes_of body)) as Hne.
  destruct (split_byte 10 (bytes_of body)) as [|x l] eqn:E; [done|]. cbn [app]. cbv zeta.
  assert (last (bytes_of "BEGIN;" :: x :: l ++ [bytes_of "COMMIT;"]) = Some (bytes_of "COMMIT;")) as ->
    by exact (last_snoc _ (bytes_of "BEGIN;" :: x :: l)).
  rewrite !string_of_bytes_of. change (_ && _) with true. cbv iota.
  change (x :: l ++ [bytes_of "COMMIT;"]) with ((x :: l) ++ [bytes_of "COMMIT;"]). rewrite removelast_last, <- E, join_split.
  by rewrite string_of_bytes_of.
Qed.

(** ** Once, and in order *)

Section once.
Context (entries : list (string * bool)) (ReadFile : string -> option bytes).
Context {Schema : Type} (run_sql : string -> Schema -> option Schema).

(** The directory lists every name once, and its files can be read. *)
Context (entries_distinct : NoDup entries.*1) (files_readable : forall n, n ∈ entries.*1 -> is_Some (ReadFile n)).

Notation names := (embeddedMigrationNames entries).

Lemma names_distinct : NoDup names.
Proof.
  unfold embeddedMigrationNames, sort_strings. rewrite merge_sort_Permutation.
  induction entries as [|[n b] l IH]; cbn; [constructor|]. cbn in entries_distinct. apply NoDup_cons in entries_distinct as [Hn Hl].
  assert (NoDup (fst <$> List.filter (fun entry => negb entry.2 && has_suffix ".sql" entry.1) l)) as Hr.
  { apply IH; [done|]. intros m Hm. apply files_readable. cbn. by right. }
  destruct (negb b && has_suffix ".sql" n); [|done]. cbn. apply NoDup_cons. split; [|done].
  intros ([m c] & Hm & Hin)%list_elem_of_fmap. apply list_elem_of_In, filter_In in Hin as [Hin _]. apply Hn.
  cbn in Hm. subst m. apply list_elem_of_fmap. exists (n, c). split; [done|]. by apply list_elem_of_In.
Qed.

Lemma names_readable n : n ∈ names -> is_Some (ReadFile n).
Proof.
  unfold embeddedMigrationNames, sort_strings. rewrite merge_sort_Permutation. intros ([m c] & -> & Hin)%list_elem_of_fmap.
  apply list_elem_of_In, filter_In in Hin as [Hin _]. apply files_readable, list_elem_of_fmap. exists (m, c).
  split; [done|]. by apply list_elem_of_In.
Qed.

Definition contents (n : string) : bytes := default [] (ReadFile n).

Definition run_file (n : string) : Schema -> option Schema := run_sql (withoutTransactionWrapper (string_of (contents n))).

(** The schema after the first [k] of the files [l], and their rows. *)
Definition migrated_in (l : list string) (s0 : Schema) (k : nat) : option Schema :=
  fold_left (fun o n => o ≫= run_file n) (take k l) (Some s0).

Definition rows_in (l : list string) (k : nat) : gmap string string :=
  list_to_map ((fun n => (n, checksum (contents n))) <$> take k l).

(** The first [k] files of [l] are installed, once, in their order. *)
Record installed_in (l : list string) (s0 : Schema) (k : nat) (d : Database) : Prop := {
  in_schema : migrated_in l s0 k = Some (schema d);
  in_rows : schema_migrations d = Some (rows_in l k) \/ (k = 0%nat /\ schema_migrations d = None);
  in_bound : (k <= length l)%nat
}.

(** The files of the directory that are migrations: those whose name ends in [.sql],
    each once, in the order of the bytes of the names. *)
Record migration_files (l : list string) : Prop := {
  files_named : forall n, n ∈ l <-> (n, false) ∈ entries /\ exists stem, n = (stem ++ ".sql")%string;
  files_once : NoDup l;
  files_ordered : StronglySorted String.le l
}.

Notation migrated := (migrated_in names).
Notation rows := (rows_in names).
Notation installed := (installed_in names).

Lemma take_distinct k : NoDup (take k names).
Proof. pose proof names_distinct as H. rewrite <- (take_drop k names) in H. by apply NoDup_app in H as [? _]. Qed.

Lemma take_next i n : names !! i = Some n -> take (S i) names = take i names ++ [n].
Proof. apply take_S_r. Qed.

Lemma migrated_next s0 i n : names !! i = Some n -> migrated s0 (S i) = migrated s0 i ≫= run_file n.
Proof. intros H. unfold migrated_in. by rewrite (take_next _ _ H), fold_left_app. Qed.

Lemma rows_lookup k i n : names !! i = Some n -> rows k !! n = if (i <? k)%nat then Some (checksum (contents n)) else None.
Proof.
  intros Hi. pose proof names_distinct as Hd. unfold rows_in. set (l := (fun n => (n, checksum (contents n))) <$> take k names).
  assert (l.*1 = take k names) as Hl by (unfold l; rewrite <- list_fmap_compose; apply list_fmap_id).
  pose proof (take_distinct k) as Hk.
  destruct (i <? k)%nat eqn:E.
  - apply Nat.ltb_lt in E. apply elem_of_list_to_map_1; [by rewrite Hl|]. apply list_elem_of_fmap. exists n. split; [done|].
    apply (list_elem_of_lookup_2 _ i). by rewrite lookup_take_lt.
  - apply Nat.ltb_ge in E. apply not_elem_of_list_to_map. rewrite Hl. intros (j & Hj)%list_elem_of_lookup_1.
    apply lookup_take_Some in Hj as [Hj Hlt]. pose proof (NoDup_lookup _ _ _ _ Hd Hi Hj). lia.
Qed.

Lemma rows_next i n : names !! i = Some n -> rows (S i) = <[n := checksum (contents n)]> (rows i).
Proof.
  intros Hi. unfold rows_in. rewrite (take_next _ _ Hi), fmap_app. cbn [fmap list_fmap].
  set (l := (fun n => (n, checksum (contents n))) <$> take i names).
  rewrite (list_to_map_proper (l ++ [(n, checksum (contents n))]) ((n, checksum (contents n)) :: l)); [done| |symmetry; apply Permutation_cons_append].
  assert ((l ++ [(n, checksum (contents n))]).*1 = take (S i) names) as ->; [|apply take_distinct].
  unfold l. rewrite (take_next _ _ Hi), fmap_app, <- list_fmap_compose. cbn. f_equal. apply list_fmap_id.
Qed.

(** ** One file *)

Lemma installed_row s0 k d i n :
  installed s0 k d -> names !! i = Some n -> schema_migrations d = Some (rows k) ->
  schema_migrations d ≫= (fun m => m !! n) = if (i <? k)%nat then Some (checksum (contents n)) else None.
Proof. intros Hd Hi ->. by apply rows_lookup. Qed.

(** [applyOne] at a file that is installed changes nothing; at the next one it installs
    it, with its row, or changes nothing. *)
Lemma applyOne_installs s0 k i n w d w' d' r :
  installed s0 k d -> schema_migrations d = Some (rows k) -> names !! i = Some n -> (i <= k)%nat ->
  applyOne ReadFile run_sql n (w, d) = ((w', d'), r) ->
  exists k', (k <= k')%nat /\ installed s0 k' d' /\ schema_migrations d' = Some (rows k') /\ (r = Ok tt -> (i < k')%nat).
Proof.
  intros Hd Hr Hi Hle. assert (n ∈ names) as Hn by (by eapply list_elem_of_lookup_2).
  destruct (names_readable n Hn) as [c Hc]. assert (contents n = c) as Hcc by (unfold contents; by rewrite Hc).
  unfold applyOne. rewrite Hc. unfold abind at 1. destruct (installedChecksum n (w, d)) as [[w1 d1] o] eqn:Eq.
  assert (d1 = d /\ (o = Err ErrDatabase \/ o = Ok (rows k !! n))) as [-> Ho].
  { unfold installedChecksum, exec in Eq. apply sent_cases in Eq. rewrite Hr in Eq. cbn in Eq.
    destruct Eq as [(a & -> & [= -> ->])|(-> & [->|(a & [= <- _])])]; auto. }
  assert (exists k', (k <= k')%nat /\ installed s0 k' d /\ schema_migrations d = Some (rows k') /\ (i < k \/ k' = k)%nat) as Hsame.
  { exists k. auto. }
  rewrite (rows_lookup k i n Hi) in Ho. destruct Ho as [-> | ->].
  { intros [= _ <- <-]. exists k. split_and!; try done. }
  destruct (i <? k)%nat eqn:E.
  { rewrite <- Hcc, bool_decide_eq_true_2 by done. intros [= _ <- <-]. apply Nat.ltb_lt in E. exists k. split_and!; try done. }
  apply Nat.ltb_ge in E. assert (i = k) as -> by lia. clear Hsame.
  intros [(err & -> & ->)|(w2 & w3 & [] & Hb & _)]%committed_cases.
  { exists k. split_and!; try done. }
  unfold abind, runMigration, recordMigration, exec in Hb.
  destruct (sent _ _ (w2, d)) as [[w4 d4] [[]|]] eqn:E1; [|done].
  apply sent_cases in E1 as [(a & [= <-] & E1)|([=] & _)]. apply sent_cases in Hb as [([] & _ & Hb)|([=] & _)].
  destruct (run_sql _ (schema d)) as [s|] eqn:Es; [|done]. injection E1 as <-. cbn [schema_migrations schema] in Hb.
  rewrite Hr, (rows_lookup k k n Hi), Nat.ltb_irrefl in Hb. injection Hb as <-.
  destruct Hd as [Hm _ Hb]. exists (S k). pose proof (lookup_lt_Some _ _ _ Hi).
  assert (schema_migrations (MkDatabase s (Some (<[n := checksum c]> (rows k)))) = Some (rows (S k))) as Hrows.
  { cbn. by rewrite (rows_next _ _ Hi), Hcc. }
  split_and!; [lia| |exact Hrows|lia]. split; [|by left|lia].
  rewrite (migrated_next _ _ _ Hi), Hm. cbn. unfold run_file. by rewrite Hcc.
Qed.

Lemma drop_names i n l : drop i names = n :: l -> names !! i = Some n /\ drop (S i) names = l.
Proof.
  intros Hl. pose proof (lookup_drop names i 0) as H. rewrite Hl, Nat.add_0_r in H. cbn in H. split; [done|].
  replace (S i) with (i + 1)%nat by lia. by rewrite <- drop_drop, Hl.
Qed.

Lemma applyAll_installs s0 l i k w d w' d' r :
  drop i names = l -> (i <= k)%nat -> installed s0 k d -> schema_migrations d = Some (rows k) ->
  afor (applyOne ReadFile run_sql) l (w, d) = ((w', d'), r) ->
  exists k', (k <= k')%nat /\ installed s0 k' d' /\ schema_migrations d' = Some (rows k') /\ (r = Ok tt -> k' = length names).
Proof.
  revert i k w d. induction l as [|n l IH]; intros i k w d Hl Hle Hd Hr; cbn [afor].
  - intros [= _ <- <-]. exists k. split_and!; try done. intros _. apply (f_equal length) in Hl. rewrite length_drop in Hl.
    cbn in Hl. pose proof (in_bound _ _ _ _ Hd). lia.
  - destruct (drop_names i n l Hl) as [Hi Hl'].
    unfold abind. destruct (applyOne _ _ n (w, d)) as [[w1 d1] [[]|err]] eqn:E.
    + apply (applyOne_installs s0 k i) in E as (k1 & Hk & Hd1 & Hr1 & Hok); try done. specialize (Hok eq_refl).
      intros H. destruct (IH (S i) k1 w1 d1 Hl' ltac:(lia) Hd1 Hr1 H) as (k' & Hk' & ?). exists k'. split; [lia|done].
    + apply (applyOne_installs s0 k i) in E as (k1 & Hk & Hd1 & Hr1 & _); try done. intros [= _ <- <-]. exists k1. by split_and!.
Qed.

Lemma ping_same (w : list Answer) (d : Database (Schema := Schema)) w' d' r : ping (w, d) = ((w', d'), r) -> d' = d.
Proof. unfold ping, exec. by intros [(a & _ & [= ->])|(_ & [->|(a & [= ->])])]%sent_cases. Qed.

Lemma createTable_installed s0 k w d w' d' r :
  installed s0 k d -> createTable (w, d) = ((w', d'), r) ->
  installed s0 k d' /\ (r = Ok tt -> schema_migrations d' = Some (rows k)).
Proof.
  intros Hd H. assert (installed s0 k (MkDatabase (schema d) (Some (default ∅ (schema_migrations d)))) /\
    default ∅ (schema_migrations d) = rows k) as [Hd' Hr].
  { destruct Hd as [Hs Hr Hb]. assert (default ∅ (schema_migrations d) = rows k) as E by (by destruct Hr as [-> |[-> ->]]).
    split; [|exact E]. split; [exact Hs| |exact Hb]. left. cbn. by rewrite E. }
  unfold createTable, exec in H.
  apply sent_cases in H as [(a & -> & [= <- _])|(-> & [->|(a & [= <- _])])]; split; try done. cbn. by rewrite Hr.
Qed.

(** Where every statement is carried and every file is accepted, a run succeeds. *)
Lemma fold_none (l : list string) : fold_left (fun (o : option Schema) n => o ≫= run_file n) l None = None.
Proof. by induction l. Qed.

Lemma next_accepted s0 k d n :
  installed s0 k d -> names !! k = Some n -> is_Some (migrated s0 (length names)) -> is_Some (run_file n (schema d)).
Proof.
  intros [Hm _ _] Hn [s Hs]. unfold migrated_in in Hs. rewrite firstn_all in Hs. rewrite <- (take_drop (S k) names), fold_left_app in Hs.
  fold (migrated s0 (S k)) in Hs. rewrite (migrated_next _ _ _ Hn), Hm in Hs. cbn in Hs.
  destruct (run_file n (schema d)); [by eexists|]. by rewrite fold_none in Hs.
Qed.

Lemma applyOne_carried s0 k i n d :
  installed s0 k d -> schema_migrations d = Some (rows k) -> names !! i = Some n -> (i <= k)%nat ->
  is_Some (migrated s0 (length names)) -> exists d', applyOne ReadFile run_sql n ([], d) = (([], d'), Ok tt).
Proof.
  intros Hd Hr Hi Hle Hs. assert (n ∈ names) as Hn by (by eapply list_elem_of_lookup_2).
  destruct (names_readable n Hn) as [c Hc]. assert (contents n = c) as Hcc by (unfold contents; by rewrite Hc).
  unfold applyOne, abind, installedChecksum, exec. rewrite Hc. cbn [sent tail]. rewrite Hr. cbn [fmap option_fmap option_map].
  rewrite (rows_lookup k i n Hi). destruct (i <? k)%nat eqn:E; [rewrite Hcc, bool_decide_eq_true_2 by done; by eexists|].
  apply Nat.ltb_ge in E. assert (i = k) as -> by lia. destruct (next_accepted s0 k d n Hd Hi Hs) as [s Hrun].
  unfold run_file in Hrun. rewrite Hcc in Hrun. unfold committed, runMigration, recordMigration, exec. cbn [sent tail].
  rewrite Hrun. cbn [sent tail schema_migrations schema]. rewrite Hr. rewrite (rows_lookup k k n Hi), Nat.ltb_irrefl. by eexists.
Qed.

Lemma applyAll_carried s0 l i k d :
  drop i names = l -> (i <= k)%nat -> installed s0 k d -> schema_migrations d = Some (rows k) ->
  is_Some (migrated s0 (length names)) -> exists d', afor (applyOne ReadFile run_sql) l ([], d) = (([], d'), Ok tt).
Proof.
  revert i k d. induction l as [|n l IH]; intros i k d Hl Hle Hd Hr Hs; cbn [afor]; [by eexists|].
  destruct (drop_names i n l Hl) as [Hi Hl']. destruct (applyOne_carried s0 k i n d Hd Hr Hi Hle Hs) as [d1 E].
  unfold abind. rewrite E. apply (applyOne_installs s0 k i) in E as (k1 & Hk & Hd1 & Hr1 & Hok); try done. specialize (Hok eq_refl).
  apply (IH (S i) k1); try done.
Qed.

Lemma Apply_installs s0 k w d c r :
  installed s0 k d -> Apply entries ReadFile run_sql (Some (w, d)) = (c, r) ->
  exists k' w' d', c = Some (w', d') /\ (k <= k')%nat /\ installed s0 k' d' /\ (r = Ok tt -> k' = length names).
Proof.
  intros Hd. unfold Apply. cbn [on_pointer]. unfold abind at 1 2.
  destruct (ping (w, d)) as [[w1 d1] [[]|e1]] eqn:E1; apply ping_same in E1 as ->.
  2: { intros [= <- <-]. exists k, w1, d. by split_and!. }
  destruct (ping (w1, d)) as [[w2 d2] [[]|e2]] eqn:E2; apply ping_same in E2 as ->.
  2: { intros [= <- <-]. exists k, w2, d. by split_and!. }
  unfold abind. destruct (createTable (w2, d)) as [[w3 d3] [[]|e3]] eqn:E3; apply (createTable_installed s0 k) in E3 as [H3 R3]; try done.
  - destruct (afor _ _ (w3, d3)) as [[w4 d4] r4] eqn:E4. destruct (ping (w4, d4)) as [[w5 d5] o5] eqn:E5. apply ping_same in E5 as ->.
    cbn. intros [= <- <-]. apply (applyAll_installs s0 names 0 k) in E4 as (k' & Hk & H4 & _ & Hok); try done; [|lia|by apply R3].
    exists k', w5, d4. by split_and!.
  - destruct (ping (w3, d3)) as [[w5 d5] o5] eqn:E5. apply ping_same in E5 as ->. cbn. intros [= <- <-].
    exists k, w5, d3. by split_and!.
Qed.

Lemma has_suffix_iff suffix s : has_suffix suffix s = true <-> exists stem, s = (stem ++ suffix)%string.
Proof.
  unfold has_suffix. rewrite andb_true_iff, bool_decide_eq_true. split.
  - intros [_ H]. exists (string_of (take (length (bytes_of s) - length (bytes_of suffix)) (bytes_of s))).
    apply bytes_of_inj. rewrite bytes_of_app, bytes_of_string_of.
    rewrite <- (take_drop (length (bytes_of s) - length (bytes_of suffix)) (bytes_of s)) at 1. by f_equal.
  - intros [stem ->]. rewrite bytes_of_app, length_app, Nat.leb_le. split; [lia|].
    rewrite Nat.add_sub. apply drop_app_length.
Qed.

Lemma names_files : migration_files names.
Proof.
  split.
  - intros n. unfold embeddedMigrationNames, sort_strings. rewrite merge_sort_Permutation, list_elem_of_fmap. split.
    + intros ([m c] & -> & Hin). apply list_elem_of_In, filter_In in Hin as [Hin [Hc Hs]%andb_true_iff].
      cbn in *. apply negb_true_iff in Hc as ->. split; [by apply list_elem_of_In|by apply has_suffix_iff].
    + intros [Hin Hs]. exists (n, false). split; [done|]. apply list_elem_of_In, filter_In.
      split; [by apply list_elem_of_In|by apply has_suffix_iff].
  - apply names_distinct.
  - apply (StronglySorted_merge_sort String.le).
Qed.

Lemma files_unique l : migration_files l -> l = names.
Proof.
  intros [H1 H2 H3]. pose proof names_files as [N1 N2 N3]. apply (StronglySorted_unique String.le); try done.
  apply NoDup_Permutation; [done..|]. intros n. by rewrite H1, N1.
Qed.

(** C32: a run of the migrations, whatever is answered to its statements, installs
    the next files: those of the directory whose name ends in .sql, each once, in
    ascending order of their names. Where the first of them were applied to the
    schema, each once and in that order, and the table holds exactly their
    checksums, so it is after the run, with as many files or more; with all of them
    where the run succeeds; and it succeeds where every statement is carried and the
    server accepts every file. *)
Theorem migrations_install_once l s0 k w d c r :
  migration_files l -> installed_in l s0 k d -> Apply entries ReadFile run_sql (Some (w, d)) = (c, r) ->
  (exists k' w' d', c = Some (w', d') /\ (k <= k')%nat /\ installed_in l s0 k' d' /\ (r = Ok tt -> k' = length l)) /\
  (w = [] -> is_Some (migrated_in l s0 (length l)) -> r = Ok tt).
Proof.
  intros ->%files_unique Hd H. split; [by eapply Apply_installs|]. intros -> Hs. unfold Apply, ping, exec, abind in H. cbn [on_pointer sent tail] in H.
  destruct (createTable ([], d)) as [[w1 d1] o] eqn:E. assert (w1 = [] /\ o = Ok tt) as [-> ->] by (by injection E as <- _ <-).
  apply (createTable_installed s0 k) in E as [Hd1 Hr1]; [|done]. specialize (Hr1 eq_refl).
  destruct (applyAll_carried s0 names 0 k d1 eq_refl ltac:(lia) Hd1 Hr1 Hs) as [d2 E2]. unfold exec in E2. rewrite E2 in H.
  by injection H as _ <-.
Qed.

(** An installed file that has changed since is refused, and nothing is applied. *)
Lemma changed_file_is_refused m (d : Database (Schema := Schema)) n sum rest :
  schema_migrations d = Some m -> names = n :: rest -> m !! n = Some sum -> sum <> checksum (contents n) ->
  Apply entries ReadFile run_sql (Some ([], d)) = (Some ([], d), Err ErrChecksumMismatch).
Proof.
  intros Hm Hn Hs Hne. destruct (names_readable n) as [c Hc]; [rewrite Hn; by left|]. assert (contents n = c) as Hcc by (unfold contents; by rewrite Hc).
  unfold Apply. cbn [on_pointer]. rewrite Hn. unfold abind, ping, createTable, exec. cbn [sent tail afor].
  unfold applyOne, abind, installedChecksum, exec. rewrite Hc. cbn [sent tail schema_migrations]. rewrite Hm. cbn [default from_option id].
  cbn. rewrite Hs. rewrite bool_decide_eq_false_2 by (by rewrite <- Hcc). destruct d. cbn in *. by subst.
Qed.

End once.

(** ** Runs *)

Definition ex_entries : list (string * bool) := [("0002_keys.sql", false); ("0001_tables.sql", false); ("archive", true)].

Definition ex_files (name : string) : option bytes :=
  if name == "0001_tables.sql" then Some (bytes_of (wrapped "CREATE TABLE a ();")) else
  if name == "0002_keys.sql" then Some (bytes_of "CREATE TABLE b ();") else
  if name == "archive" then Some [] else None.

(** A schema is the texts that made it. *)
Definition ex_sql (text : string) (s : list string) : option (list string) := Some (s ++ [text]).

(** The table as the first run leaves it where the answer to its last [Commit] is lost. *)
Definition ex_database := Eval vm_compute in
  match Apply ex_entries ex_files ex_sql
    (Some (replicate 7 Carried ++ [Unanswered], MkDatabase [] None)) with
  | (Some (_, d), _) => d
  | (None, _) => MkDatabase [] None
  end.

Definition ex_run := Eval vm_compute in Apply ex_entries ex_files ex_sql (Some ([], ex_database)).

Example lost_commit : schema ex_database = ["CREATE TABLE a ();"] /\ match ex_run with (Some (_, d), Ok _) => schema d | _ => [] end =
  ["CREATE TABLE a ();"; "CREATE TABLE b ();"].
Proof. split; vm_compute; reflexivity. Qed.

Lemma ex_distinct : NoDup ex_entries.*1.
Proof. apply (bool_decide_eq_true_1 _). vm_compute. reflexivity. Qed.

Lemma ex_readable n : n ∈ ex_entries.*1 -> is_Some (ex_files n).
Proof.
  intros H. cbn in H. repeat (apply elem_of_cons in H as [-> |H]; [eexists; vm_compute; reflexivity|]). by apply elem_of_nil in H.
Qed.

Definition ex_names : list string := ["0001_tables.sql"; "0002_keys.sql"].

Lemma ex_migration_files : migration_files ex_entries ex_names.
Proof. exact (names_files ex_entries ex_files ex_sql ex_distinct ex_readable). Qed.

Lemma ex_installed : installed_in ex_files ex_sql ex_names [] 1 ex_database.
Proof. split; [vm_compute; reflexivity|left; vm_compute; reflexivity|vm_compute; lia]. Qed.

Lemma ex_run_made : Apply ex_entries ex_files ex_sql (Some ([], ex_database)) = (fst ex_run, snd ex_run).
Proof. vm_compute. reflexivity. Qed.

Lemma ex_all : is_Some (migrated_in ex_files ex_sql ex_names [] (length ex_names)).
Proof. eexists. vm_compute. reflexivity. Qed.

Lemma migrations_install_once_witness :
  (exists k' w' d', fst ex_run = Some (w', d') /\ (1 <= k')%nat /\ installed_in ex_files ex_sql ex_names [] k' d') /\
  snd ex_run = Ok tt.
Proof.
  destruct (migrations_install_once ex_entries ex_files ex_sql ex_distinct ex_readable ex_names [] 1 [] ex_database
              (fst ex_run) (snd ex_run) ex_migration_files ex_installed ex_run_made) as [(k' & w' & d' & H1 & H2 & H3 & _) H].
  split; [by exists k', w', d'|exact (H eq_refl ex_all)].
Defined.

End migrations.
