(* ===== verification/GoDecoder.v ===== *)
(** * [json.Decoder] on a stream

    Unlike [json.Unmarshal], a decoder reads a value from the front of a stream
    and stops at its end; it fails at the first byte that no value can have, and
    with the error of the stream when that ends first. So an input that is cut off
    and one that is wrong are told apart, which [scan_value] does byte by byte as
    the scanner of the package. *)

From Stdlib Require Import Ascii String.
From S2P Require Import Prelude GoString GoJson GoFloat GoParse GoTimeFormat GoJsonText GoJsonDecode GoUnmarshal.
Import json.

(** ** The scanner *)

(** The rest after a value, or why there is none: more bytes are needed, or a byte
    is wrong. *)
Inductive Scanned :=
  | Whole (rest : bytes)
  | Truncated
  | Invalid.

Definition scan_then (r : Scanned) (k : bytes -> Scanned) : Scanned :=
  match r with
  | Whole rest => k rest
  | _ => r
  end.

Definition is_hex (c : ascii) : bool := match hex_value c with Some _ => true | None => false end.

(** A string, after its opening quote. *)
Fixpoint scan_string (b : bytes) : Scanned :=
  match b with
  | [] => Truncated
  | c :: b =>
      if byte_is 34 c then Whole b else
      if byte_is 92 c then
        match b with
        | [] => Truncated
        | e :: b =>
            if byte_is 117 e then
              match b with
              | h1 :: h2 :: h3 :: h4 :: b' =>
                  if is_hex h1 && is_hex h2 && is_hex h3 && is_hex h4 then scan_string b' else Invalid
              | _ => if forallb is_hex b then Truncated else Invalid
              end
            else
              match unescape e with
              | Some _ => scan_string b
              | None => Invalid
              end
        end
      else if (code c <? 32)%N then Invalid
      else scan_string b
  end.

(** The rest of a literal. *)
Fixpoint scan_literal (p b : bytes) : Scanned :=
  match p with
  | [] => Whole b
  | x :: p =>
      match b with
      | [] => Truncated
      | c :: b => if c == x then scan_literal p b else Invalid
      end
  end.

(** At least one digit. *)
Definition scan_digits (b : bytes) (k : bytes -> Scanned) : Scanned :=
  match b with
  | [] => Truncated
  | _ =>
      match span_digits b with
      | ([], _) => Invalid
      | (_, rest) => k rest
      end
  end.

Definition scan_exponent (b : bytes) : Scanned :=
  match b with
  | c :: b' =>
      if byte_is 101 c || byte_is 69 c then
        let b'' := match b' with s :: b'' => if byte_is 43 s || byte_is 45 s then b'' else b' | [] => [] end in
        scan_digits b'' Whole
      else Whole b
  | [] => Whole []
  end.

Definition scan_fraction (b : bytes) : Scanned :=
  match b with
  | c :: b' => if byte_is 46 c then scan_digits b' scan_exponent else scan_exponent b
  | [] => Whole []
  end.

Definition scan_number (b : bytes) : Scanned :=
  match snd (parse_sign b) with
  | [] => Truncated
  | c :: b' =>
      if byte_is 48 c then scan_fraction b' else
      if byte_in 49 57 c then scan_fraction (snd (span_digits b')) else Invalid
  end.

(** One punctuation byte, white space before it skipped. *)
Definition scan_byte (n : N) (b : bytes) : Scanned :=
  match skip_space b with
  | [] => Truncated
  | c :: b => if byte_is n c then Whole b else Invalid
  end.

(** One of two: [k] continues after the second. *)
Definition scan_either (n m : N) (b : bytes) (k : bytes -> Scanned) : Scanned :=
  match skip_space b with
  | [] => Truncated
  | c :: b => if byte_is n c then Whole b else if byte_is m c then k b else Invalid
  end.

(** One value. [depth] counts the objects and arrays that may still be opened. *)
Fixpoint scan_value (fuel : nat) (depth : N) (b : bytes) : Scanned :=
  match fuel with
  | O => Truncated
  | S fuel =>
      match skip_space b with
      | [] => Truncated
      | c :: r =>
          if byte_is 34 c then scan_string r
          else if byte_is 123 c then
            if (depth =? 0)%N then Invalid else
            match expect 125 r with
            | Some r => Whole r
            | None => scan_members fuel (depth - 1) r
            end
          else if byte_is 91 c then
            if (depth =? 0)%N then Invalid else
            match expect 93 r with
            | Some r => Whole r
            | None => scan_elements fuel (depth - 1) r
            end
          else if byte_is 110 c then scan_literal (bytes_of "ull") r
          else if byte_is 116 c then scan_literal (bytes_of "rue") r
          else if byte_is 102 c then scan_literal (bytes_of "alse") r
          else scan_number (c :: r)
      end
  end

with scan_members (fuel : nat) (depth : N) (b : bytes) : Scanned :=
  match fuel with
  | O => Truncated
  | S fuel =>
      scan_then (scan_byte 34 b) (fun b =>
      scan_then (scan_string b) (fun b =>
      scan_then (scan_byte 58 b) (fun b =>
      scan_then (scan_value fuel depth b) (fun b =>
      scan_either 125 44 b (scan_members fuel depth)))))
  end

with scan_elements (fuel : nat) (depth : N) (b : bytes) : Scanned :=
  match fuel with
  | O => Truncated
  | S fuel =>
      scan_then (scan_value fuel depth b) (fun b => scan_either 93 44 b (scan_elements fuel depth))
  end.

Definition scan (b : bytes) : Scanned := scan_value (2 * length b + 2) maxNestingDepth b.

Example scan_samples :
  scan (bytes_of " {'a':[1,2.5e-3,true]} x") = Invalid /\
  scan (json.text " {'a':[1,2.5e-3,true],'b':'\u00e9'} x") = Whole (bytes_of " x") /\
  scan (json.text "{'a':[1,2.5e-") = Truncated /\ scan (json.text "{'a':[1,2.5e-]") = Invalid /\
  scan (json.text "{'a':'\u12") = Truncated /\ scan (json.text "{'a':'\u1g") = Invalid /\
  scan (bytes_of "tru") = Truncated /\ scan (bytes_of "trx") = Invalid /\ scan (bytes_of "  ") = Truncated /\
  scan (bytes_of "12") = Whole [] /\ scan (bytes_of "12x") = Whole (bytes_of "x") /\ scan (bytes_of "[1 2") = Invalid.
Proof. vm_compute. split_and!; reflexivity. Qed.

(** ** The scanner and the parser *)

Definition whole (r : Scanned) : option bytes := match r with Whole rest => Some rest | _ => None end.

Lemma whole_then r k : whole (scan_then r k) = match whole r with Some rest => whole (k rest) | None => None end.
Proof. by destruct r. Qed.

Lemma scan_string_byte c b :
  byte_is 34 c = false -> byte_is 92 c = false -> (32 <= code c)%N -> scan_string (c :: b) = scan_string b.
Proof. intros H1 H2 H3. cbn [scan_string]. rewrite H1, H2. by rewrite (proj2 (N.ltb_ge _ _) H3). Qed.

(** A byte that is not ASCII is part of a string. *)
Lemma scan_string_high c b : (128 <= code c)%N -> scan_string (c :: b) = scan_string b.
Proof.
  intros H. apply scan_string_byte; [| |lia]; unfold byte_is; apply N.eqb_neq; unfold code in H; lia.
Qed.

Lemma byte_in_ge lo hi c : byte_in lo hi c = true -> (lo <= code c)%N.
Proof. unfold byte_in, code. rewrite andb_true_iff. intros [H _]. by apply N.leb_le. Qed.

Lemma scan_utf8_2 a b u s : utf8_2 a b = Some u -> (128 <= code a)%N -> scan_string (a :: b :: s) = scan_string s.
Proof.
  unfold utf8_2. destruct (byte_in 194 223 a && continuation b) eqn:E; [|done]. apply andb_true_iff in E as [_ E].
  intros _ Ha. rewrite !scan_string_high; [done|by apply byte_in_ge in E|done].
Qed.

Lemma scan_utf8_3 a b c u s : utf8_3 a b c = Some u -> (128 <= code a)%N -> scan_string (a :: b :: c :: s) = scan_string s.
Proof.
  unfold utf8_3. cbv zeta. destruct (_ && _ && continuation c) eqn:E; [|done]. rewrite !andb_true_iff in E.
  destruct E as [[_ Eb] Ec]. intros _ Ha. rewrite !scan_string_high; [done|by apply byte_in_ge in Ec| |done].
  apply byte_in_ge in Eb. destruct (byte_is 224 a); lia.
Qed.

Lemma scan_utf8_4 a b c d u s :
  utf8_4 a b c d = Some u -> (128 <= code a)%N -> scan_string (a :: b :: c :: d :: s) = scan_string s.
Proof.
  unfold utf8_4. cbv zeta. destruct (_ && _ && continuation c && continuation d) eqn:E; [|done]. rewrite !andb_true_iff in E.
  destruct E as [[[_ Eb] Ec] Ed]. intros _ Ha.
  rewrite !scan_string_high; [done|by apply byte_in_ge in Ed|by apply byte_in_ge in Ec| |done].
  apply byte_in_ge in Eb. destruct (byte_is 240 a); lia.
Qed.

Lemma scan_hex4 a b c d u s :
  hex4 a b c d = Some u -> scan_string (ascii_of_N 92 :: ascii_of_N 117 :: a :: b :: c :: d :: s) = scan_string s.
Proof.
  unfold hex4. cbn [scan_string]. unfold is_hex. intros H.
  destruct (hex_value a), (hex_value b), (hex_value c), (hex_value d); try done.
Qed.

Lemma hex4_none a b c d : hex4 a b c d = None -> is_hex a && is_hex b && is_hex c && is_hex d = false.
Proof. unfold hex4, is_hex. by destruct (hex_value a), (hex_value b), (hex_value c), (hex_value d). Qed.

Lemma snd_cons_rune u r : snd <$> cons_rune u r = snd <$> r.
Proof. by destruct r as [[us rest]|]. Qed.

Lemma scan_string_unquote n : forall s, (length s <= n)%nat -> whole (scan_string s) = snd <$> unquote s.
Proof.
  induction n as [|n IH]; intros s Hn; [by destruct s; [|cbn in Hn; lia]|].
  destruct s as [|a s1]; [done|]. cbn in Hn. cbn [unquote].
  destruct (byte_is 34 a) eqn:E34; [cbn [scan_string]; by rewrite E34|].
  destruct (byte_is 92 a) eqn:E92.
  { cbn [scan_string]. rewrite E34, E92. destruct s1 as [|e s2]; [done|]. cbn in Hn. destruct (byte_is 117 e).
    - destruct s2 as [|h1 [|h2 [|h3 [|h4 s3]]]]; try (by destruct (forallb _ _)). cbn in Hn.
      destruct (hex4 h1 h2 h3 h4) as [u|] eqn:Eh; [|by rewrite (hex4_none _ _ _ _ Eh)].
      replace (is_hex h1 && is_hex h2 && is_hex h3 && is_hex h4) with true
        by (revert Eh; unfold hex4, is_hex; by destruct (hex_value h1), (hex_value h2), (hex_value h3), (hex_value h4)).
      destruct (surrogate u); [|rewrite snd_cons_rune; apply IH; lia].
      destruct s3 as [|b [|v [|g1 [|g2 [|g3 [|g4 s4]]]]]]; try (rewrite snd_cons_rune; apply IH; cbn in *; lia).
      cbn in Hn. destruct (byte_is 92 b && byte_is 117 v) eqn:Eb; [|rewrite snd_cons_rune; apply IH; cbn; lia].
      apply andb_true_iff in Eb as [->%byte_is_eq ->%byte_is_eq]; [|done..].
      destruct (hex4 g1 g2 g3 g4) as [lo|] eqn:Eg; [|rewrite snd_cons_rune; apply IH; cbn; lia].
      destruct (surrogate_pair u lo); rewrite snd_cons_rune; [|apply IH; cbn; lia].
      rewrite (scan_hex4 _ _ _ _ _ _ Eg). apply IH. lia.
    - destruct (unescape e); [|done]. rewrite snd_cons_rune. apply IH. lia. }
  destruct (code a <? 32)%N eqn:E32; [cbn [scan_string]; by rewrite E34, E92, E32|].
  rewrite scan_string_byte by (done || by apply N.ltb_ge).
  destruct (code a <? 128)%N eqn:E128; [rewrite snd_cons_rune; apply IH; lia|]. apply N.ltb_ge in E128.
  destruct s1 as [|b s2]; [done|]. cbn in Hn.
  destruct (utf8_2 a b) eqn:E2.
  { rewrite snd_cons_rune, <- (scan_string_high a) by done. rewrite (scan_utf8_2 _ _ _ _ E2) by done. apply IH. lia. }
  destruct s2 as [|c s3]; [rewrite snd_cons_rune; apply IH; cbn; lia|]. cbn in Hn.
  destruct (utf8_3 a b c) eqn:E3.
  { rewrite snd_cons_rune, <- (scan_string_high a) by done. rewrite (scan_utf8_3 _ _ _ _ _ E3) by done. apply IH. lia. }
  destruct s3 as [|d s4]; [rewrite snd_cons_rune; apply IH; cbn; lia|]. cbn in Hn.
  destruct (utf8_4 a b c d) eqn:E4; [|rewrite snd_cons_rune; apply IH; cbn; lia].
  rewrite snd_cons_rune, <- (scan_string_high a) by done. rewrite (scan_utf8_4 _ _ _ _ _ _ E4) by done. apply IH. lia.
Qed.

Lemma scan_literal_strip p b : whole (scan_literal (bytes_of p) b) = strip p b.
Proof.
  unfold strip. revert b. induction (bytes_of p) as [|x l IH]; intros b; [done|]. destruct b as [|c b]; [done|].
  cbn [scan_literal length take drop]. destruct (decide (c = x)) as [->|Hne].
  - rewrite bool_decide_eq_true_2, IH by done. destruct (decide (take (length l) b = l)) as [E|E].
    + by rewrite !bool_decide_eq_true_2 by (done || by f_equal).
    + rewrite !bool_decide_eq_false_2; [done| |done]. by intros [= ?].
  - rewrite bool_decide_eq_false_2 by done. rewrite bool_decide_eq_false_2; [done|]. by intros [= ? _].
Qed.

Lemma scan_exponent_parse b : whole (scan_exponent b) = snd <$> parse_exponent b.
Proof.
  unfold scan_exponent, parse_exponent, scan_digits. destruct b as [|c b]; [done|]. destruct (_ || _); [|done].
  destruct b as [|s b]; [done|]. destruct (byte_is 43 s || byte_is 45 s).
  - destruct b as [|x b]; [done|]. by destruct (span_digits (x :: b)) as [[|? ?] ?].
  - by destruct (span_digits (s :: b)) as [[|? ?] ?].
Qed.

Lemma scan_fraction_parse b :
  whole (scan_fraction b) = match parse_fraction b with Some (_, r) => snd <$> parse_exponent r | None => None end.
Proof.
  unfold scan_fraction, parse_fraction, scan_digits. destruct b as [|c b]; [done|].
  destruct (byte_is 46 c); [|apply scan_exponent_parse]. destruct b as [|x b]; [done|].
  destruct (span_digits (x :: b)) as [[|? ?] r]; [done|]. apply scan_exponent_parse.
Qed.

Lemma scan_number_parse b : whole (scan_number b) = snd <$> parse_number b.
Proof.
  unfold scan_number, parse_number, parse_integer. destruct (parse_sign b) as [sign [|c b0]]; cbn [snd]; [done|].
  destruct (byte_is 48 c); [|destruct (byte_in 49 57 c); [destruct (span_digits b0) as [ds r]; cbn [snd]|done]];
    rewrite scan_fraction_parse; (destruct (parse_fraction _) as [[f b2]|]; [|done]); by destruct (parse_exponent b2) as [[e b3]|].
Qed.

Lemma scan_byte_expect n b : whole (scan_byte n b) = expect n b.
Proof. unfold scan_byte, expect. destruct (skip_space b) as [|c r]; [done|]. by destruct (byte_is n c). Qed.

Lemma scan_either_expect n m b k : n <> m ->
  whole (scan_either n m b k) =
  match expect n b with Some r => Some r | None => match expect m b with Some r => whole (k r) | None => None end end.
Proof.
  intros Hne. unfold scan_either, expect. destruct (skip_space b) as [|c r]; [done|]. destruct (byte_is n c) eqn:E; [done|].
  by destruct (byte_is m c).
Qed.

(** A value is scanned exactly where one is read, with the same rest. *)
Lemma scan_raw fuel :
  (forall d b, whole (scan_value fuel d b) = snd <$> raw_value fuel d b) /\
  (forall d b, whole (scan_members fuel d b) = snd <$> raw_members fuel d b) /\
  (forall d b, whole (scan_elements fuel d b) = snd <$> raw_elements fuel d b).
Proof.
  induction fuel as [|fuel (IHv & IHm & IHe)]; [done|]. split_and!; intros d b.
  - cbn [scan_value raw_value]. destruct (skip_space b) as [|c r]; [done|].
    destruct (byte_is 34 c); [rewrite (scan_string_unquote _ _ (le_n _)); by destruct (unquote r) as [[us r']|]|].
    destruct (byte_is 123 c).
    { destruct (d =? 0)%N; [done|]. destruct (expect 125 r); [done|]. rewrite IHm.
      by destruct (raw_members fuel (d - 1) r) as [[m r']|]. }
    destruct (byte_is 91 c).
    { destruct (d =? 0)%N; [done|]. destruct (expect 93 r); [done|]. rewrite IHe.
      by destruct (raw_elements fuel (d - 1) r) as [[l r']|]. }
    destruct (byte_is 110 c); [rewrite scan_literal_strip; by destruct (strip "ull" r)|].
    destruct (byte_is 116 c); [rewrite scan_literal_strip; by destruct (strip "rue" r)|].
    destruct (byte_is 102 c); [rewrite scan_literal_strip; by destruct (strip "alse" r)|].
    rewrite scan_number_parse. by destruct (parse_number (c :: r)) as [[literal r']|].
  - cbn [scan_members raw_members]. rewrite whole_then, scan_byte_expect. destruct (expect 34 b) as [r|]; [|done].
    rewrite whole_then, (scan_string_unquote _ _ (le_n _)). destruct (unquote r) as [[us r1]|]; [|done]. cbn [fmap option_fmap option_map snd].
    rewrite whole_then, scan_byte_expect. destruct (expect 58 r1) as [r2|]; [|done]. rewrite whole_then, IHv.
    destruct (raw_value fuel d r2) as [[v r3]|]; [|done]. cbn [fmap option_fmap option_map snd]. rewrite scan_either_expect by done.
    destruct (expect 125 r3); [done|]. destruct (expect 44 r3) as [r4|]; [|done]. rewrite IHm.
    by destruct (raw_members fuel d r4) as [[m r5]|].
  - cbn [scan_elements raw_elements]. rewrite whole_then, IHv. destruct (raw_value fuel d b) as [[v r]|]; [|done].
    cbn [fmap option_fmap option_map snd]. rewrite scan_either_expect by done. destruct (expect 93 r); [done|].
    destruct (expect 44 r) as [r1|]; [|done]. rewrite IHe. by destruct (raw_elements fuel d r1) as [[l r2]|].
Qed.

(** ** The fuel is enough *)

(** What is left is shorter. *)
Definition shrinks (b : bytes) (r : Scanned) : Prop := forall rest, r = Whole rest -> (length rest < length b)%nat.

Lemma shrinks_then b r k :
  shrinks b r -> (forall rest, (length rest < length b)%nat -> shrinks rest (k rest)) -> shrinks b (scan_then r k).
Proof.
  intros Hr Hk rest H. destruct r as [r| |]; [|done..]. cbn in H. specialize (Hr r eq_refl).
  specialize (Hk r Hr rest H). lia.
Qed.

Lemma span_digits_length b : (length (snd (span_digits b)) <= length b)%nat.
Proof.
  induction b as [|c b IH]; [done|]. cbn [span_digits]. destruct (is_digit c); [|done].
  destruct (span_digits b) as [ds r]. cbn in *. lia.
Qed.

Lemma scan_string_shrinks n : forall b, (length b <= n)%nat -> shrinks b (scan_string b).
Proof.
  induction n as [|n IH]; intros b Hn rest H; [by destruct b; [|cbn in Hn; lia]|]. destruct b as [|c b]; [done|].
  cbn in Hn. cbn [scan_string] in H. destruct (byte_is 34 c); [injection H as ->; cbn; lia|]. destruct (byte_is 92 c).
  - destruct b as [|e b]; [done|]. cbn in Hn. destruct (byte_is 117 e).
    + destruct b as [|h1 [|h2 [|h3 [|h4 b]]]]; try (by destruct (forallb _ _)). cbn in Hn. destruct (_ && _); [|done].
      apply IH in H; cbn in *; lia.
    + destruct (unescape e); [|done]. apply IH in H; cbn in *; lia.
  - destruct (code c <? 32)%N; [done|]. apply IH in H; cbn in *; lia.
Qed.

Lemma scan_literal_length p b rest : scan_literal p b = Whole rest -> (length rest <= length b)%nat.
Proof.
  revert b. induction p as [|x p IH]; intros b H; [by injection H as ->|]. destruct b as [|c b]; [done|]. cbn in H.
  destruct (c == x); [|done]. apply IH in H. cbn. lia.
Qed.

Lemma scan_digits_length b k rest :
  (forall r, k r = Whole rest -> (length rest <= length r)%nat) -> scan_digits b k = Whole rest -> (length rest <= length b)%nat.
Proof.
  intros Hk. unfold scan_digits. destruct b as [|c b]; [done|]. pose proof (span_digits_length (c :: b)) as Hl.
  destruct (span_digits (c :: b)) as [[|? ?] r]; [done|]. intros H%Hk. cbn [snd] in Hl. lia.
Qed.

Lemma scan_exponent_length b rest : scan_exponent b = Whole rest -> (length rest <= length b)%nat.
Proof.
  unfold scan_exponent. destruct b as [|c b]; [by intros [= <-]|]. destruct (_ || _); [|by intros [= <-]].
  intros H%scan_digits_length; [|by intros r [= ->]]. destruct b as [|s b]; [cbn in *; lia|].
  destruct (_ || _); cbn in *; lia.
Qed.

Lemma scan_fraction_length b rest : scan_fraction b = Whole rest -> (length rest <= length b)%nat.
Proof.
  unfold scan_fraction. destruct b as [|c b]; [by intros [= <-]|]. destruct (byte_is 46 c); [|apply scan_exponent_length].
  intros H%scan_digits_length; [|intros r; apply scan_exponent_length]. cbn. lia.
Qed.

Lemma scan_number_shrinks b : shrinks b (scan_number b).
Proof.
  intros rest H. unfold scan_number in H. assert (length (snd (parse_sign b)) <= length b)%nat as Hs.
  { destruct b as [|c b]; [done|]. cbn [parse_sign]. destruct (byte_is 45 c); cbn; lia. }
  destruct (snd (parse_sign b)) as [|c r]; [done|]. cbn in Hs. destruct (byte_is 48 c).
  - apply scan_fraction_length in H. lia.
  - destruct (byte_in 49 57 c); [|done]. apply scan_fraction_length in H. pose proof (span_digits_length r). lia.
Qed.

Lemma scan_byte_shrinks n b : shrinks b (scan_byte n b).
Proof.
  intros rest H. unfold scan_byte in H. pose proof (skip_space_length b) as Hl. destruct (skip_space b) as [|c r]; [done|].
  destruct (byte_is n c); [injection H as ->|done]. cbn in Hl. lia.
Qed.

Lemma scan_either_shrinks n m b k :
  (forall r, (length r < length b)%nat -> shrinks r (k r)) -> shrinks b (scan_either n m b k).
Proof.
  intros Hk rest H. unfold scan_either in H. pose proof (skip_space_length b) as Hl. destruct (skip_space b) as [|c r]; [done|].
  cbn in Hl. destruct (byte_is n c); [injection H as ->; lia|]. destruct (byte_is m c); [|done].
  specialize (Hk r ltac:(lia) rest H). lia.
Qed.

Lemma scan_shrinks fuel :
  (forall d b, shrinks b (scan_value fuel d b)) /\ (forall d b, shrinks b (scan_members fuel d b)) /\
  (forall d b, shrinks b (scan_elements fuel d b)).
Proof.
  induction fuel as [|fuel (IHv & IHm & IHe)]; [done|]. split_and!; intros d b.
  - intros rest H. cbn [scan_value] in H. pose proof (skip_space_length b) as Hl. destruct (skip_space b) as [|c r]; [done|].
    cbn in Hl. destruct (byte_is 34 c); [apply (scan_string_shrinks _ _ (le_n _)) in H; lia|].
    destruct (byte_is 123 c).
    { destruct (d =? 0)%N; [done|]. destruct (expect 125 r) eqn:E; [apply expect_length in E; injection H as ->; lia|].
      apply IHm in H. lia. }
    destruct (byte_is 91 c).
    { destruct (d =? 0)%N; [done|]. destruct (expect 93 r) eqn:E; [apply expect_length in E; injection H as ->; lia|].
      apply IHe in H. lia. }
    destruct (byte_is 110 c); [apply scan_literal_length in H; lia|].
    destruct (byte_is 116 c); [apply scan_literal_length in H; lia|].
    destruct (byte_is 102 c); [apply scan_literal_length in H; lia|]. apply scan_number_shrinks in H. cbn in H. lia.
  - cbn [scan_members]. apply shrinks_then; [apply scan_byte_shrinks|]. intros b1 _.
    apply shrinks_then; [apply (scan_string_shrinks _ _ (le_n _))|]. intros b2 _.
    apply shrinks_then; [apply scan_byte_shrinks|]. intros b3 _. apply shrinks_then; [apply IHv|]. intros b4 _.
    by apply scan_either_shrinks.
  - cbn [scan_elements]. apply shrinks_then; [apply IHv|]. intros b1 _. by apply scan_either_shrinks.
Qed.

Lemma scan_then_ext b r k k' :
  shrinks b r -> (forall rest, (length rest < length b)%nat -> k rest = k' rest) -> scan_then r k = scan_then r k'.
Proof. intros Hr H. destruct r as [rest| |]; [|done..]. by apply H, Hr. Qed.

Lemma scan_either_ext n m b k k' :
  (forall rest, (length rest < length b)%nat -> k rest = k' rest) -> scan_either n m b k = scan_either n m b k'.
Proof.
  intros H. unfold scan_either. pose proof (skip_space_length b) as Hl. destruct (skip_space b) as [|c r]; [done|].
  destruct (byte_is n c); [done|]. destruct (byte_is m c); [|done]. apply H. cbn in Hl. lia.
Qed.

Lemma scan_steady fuel :
  (forall d b, (2 * length b + 2 <= fuel)%nat -> scan_value (S fuel) d b = scan_value fuel d b) /\
  (forall d b, (2 * length b + 3 <= fuel)%nat -> scan_members (S fuel) d b = scan_members fuel d b) /\
  (forall d b, (2 * length b + 3 <= fuel)%nat -> scan_elements (S fuel) d b = scan_elements fuel d b).
Proof.
  induction fuel as [|fuel (IHv & IHm & IHe)]; [split_and!; intros; lia|]. split_and!; intros d b Hf.
  - cbn [scan_value]. fold scan_value scan_members scan_elements. pose proof (skip_space_length b) as Hl.
    destruct (skip_space b) as [|c r]; [done|]. cbn in Hl. rewrite IHm, IHe by lia. done.
  - cbn [scan_members]. fold scan_value scan_members. apply (scan_then_ext b); [apply scan_byte_shrinks|]. intros b1 H1.
    apply (scan_then_ext b1); [apply (scan_string_shrinks _ _ (le_n _))|]. intros b2 H2.
    apply (scan_then_ext b2); [apply scan_byte_shrinks|]. intros b3 H3. rewrite IHv by lia.
    apply (scan_then_ext b3); [apply scan_shrinks|]. intros b4 H4. apply scan_either_ext. intros b5 H5. apply IHm. lia.
  - cbn [scan_elements]. fold scan_value scan_elements. rewrite IHv by lia.
    apply (scan_then_ext b); [apply scan_shrinks|]. intros b1 H1. apply scan_either_ext. intros b2 H2. apply IHe. lia.
Qed.

(** More fuel than [scan] takes changes nothing: [Truncated] is about the input. *)
Lemma scan_enough n b : scan_value (n + (2 * length b + 2)) maxNestingDepth b = scan b.
Proof.
  induction n as [|n IH]; [done|]. rewrite <- IH. apply scan_steady. lia.
Qed.

(** ** Streams *)

(** How reading ends: [MaxBytesError] of [http.MaxBytesReader], or an error of the
    connection. *)
Inductive ReadError :=
  | MaxBytesError
  | ConnectionError.

#[export] Instance ReadError_eq_dec : EqDecision ReadError.
Proof. solve_decision. Defined.

(** The bytes that can still be read, and the error after them; [None] is
    [io.EOF]. *)
Record Stream := MkStream {
  data : bytes;
  ends : option ReadError
}.

Inductive DecodeError :=
  | EOF
  | ErrUnexpectedEOF
  | SyntaxError
  | ReadFailed (err : ReadError)
  | ErrMismatch
  | ErrTrailingValue.

#[export] Instance DecodeError_eq_dec : EqDecision DecodeError.
Proof. solve_decision. Defined.

(** [http.MaxBytesReader]: at most [n] bytes, then an error if there are more. *)
Definition MaxBytesReader (n : Z) (s : Stream) : Stream :=
  if n <? Z.of_nat (length (data s)) then MkStream (take (Z.to_nat n) (data s)) (Some MaxBytesError) else s.

(** The end of an object or an array is seen at its last byte, that of another
    value only after it. *)
Definition composite (b : bytes) : bool :=
  match skip_space b with
  | c :: _ => byte_is 123 c || byte_is 91 c
  | [] => false
  end.

(** What the bytes that were scanned hold ([scan_raw]). *)
Definition delimited_value (b : bytes) : outcome DecodeError (Raw * bytes) :=
  match raw_value (2 * length b + 2) maxNestingDepth b with
  | Some value => Ok value
  | None => Err SyntaxError
  end.

(** [readValue] of the decoder: the value at the front and the rest after it. *)
Definition readValue (s : Stream) : outcome DecodeError (Raw * bytes) :=
  match scan (data s) with
  | Invalid => Err SyntaxError
  | Truncated =>
      Err match ends s with
          | Some err => ReadFailed err
          | None => if skip_space (data s) == [] then EOF else ErrUnexpectedEOF
          end
  | Whole rest =>
      match ends s with
      | Some err => if (rest == []) && negb (composite (data s)) then Err (ReadFailed err) else delimited_value (data s)
      | None => delimited_value (data s)
      end
  end.

(** [Decoder.Decode] *)
Definition DecodeStream {T} (dec : unmarshal.decoder T) (s : Stream) (t : T) : outcome DecodeError (T * Stream) :=
  let! value := readValue s in
  match dec value.1 t with
  | None => Err ErrMismatch
  | Some t => Ok (t, MkStream value.2 (ends s))
  end.

(** Into an [any]: only a number may not fit. *)
Fixpoint numbers_fit (v : Raw) : bool :=
  match v with
  | RNumber literal => match ParseFloat literal with Some _ => true | None => false end
  | RArray _ l => forallb numbers_fit l
  | RObject _ m => forallb (fun kv => numbers_fit kv.2) m
  | _ => true
  end.

Definition decode_any : unmarshal.decoder unit := fun v _ => if numbers_fit v then Some tt else None.

(** [DisallowUnknownFields] *)
Definition decode_strict {T} (fields : list (string * unmarshal.decoder T)) : unmarshal.decoder T := fun v t =>
  match v with
  | RObject _ members =>
      if forallb (fun kv => match unmarshal.field_of fields kv.1 with Some _ => true | None => false end) members
      then unmarshal.decode_members fields members t else None
  | _ => unmarshal.decode_struct fields v t
  end.

(** ** Decoding and [json.Unmarshal] *)

Lemma scan_delimited b rest : scan b = Whole rest -> exists v, delimited_value b = Ok (v, rest).
Proof.
  intros H. unfold delimited_value. pose proof (proj1 (scan_raw (2 * length b + 2)) maxNestingDepth b) as E.
  change (whole (scan b) = snd <$> raw_value (2 * length b + 2) maxNestingDepth b) in E. rewrite H in E.
  destruct (raw_value _ _ b) as [[v r]|]; [|done]. injection E as <-. by exists v.
Qed.

Lemma scan_not_delimited b : (forall rest, scan b <> Whole rest) -> raw_value (2 * length b + 2) maxNestingDepth b = None.
Proof.
  intros H. pose proof (proj1 (scan_raw (2 * length b + 2)) maxNestingDepth b) as E.
  change (whole (scan b) = snd <$> raw_value (2 * length b + 2) maxNestingDepth b) in E.
  destruct (scan b) as [rest| |]; [by destruct (H rest)|..]; by destruct (raw_value _ _ b).
Qed.

(** From a stream that ends well, a value is read where one stands. *)
Lemma readValue_whole s v rest :
  ends s = None -> (readValue s = Ok (v, rest) <-> raw_value (2 * length (data s) + 2) maxNestingDepth (data s) = Some (v, rest)).
Proof.
  intros He. unfold readValue. rewrite He. destruct (scan (data s)) as [r| |] eqn:E.
  - unfold delimited_value. destruct (raw_value _ _ _) as [w|]; split; congruence.
  - rewrite scan_not_delimited by (intros ?; congruence). done.
  - rewrite scan_not_delimited by (intros ?; congruence). done.
Qed.

Lemma scan_blank b : skip_space b = [] -> scan b = Truncated.
Proof. intros H. unfold scan. rewrite Nat.add_comm. cbn [scan_value Nat.add]. by rewrite H. Qed.

(** [io.EOF] is for what is blank to its end. *)
Lemma readValue_EOF s : readValue s = Err EOF <-> ends s = None /\ skip_space (data s) = [].
Proof.
  split.
  - unfold readValue. destruct (scan (data s)) as [rest| |] eqn:E.
    + destruct (scan_delimited _ _ E) as [v Hv]. rewrite Hv. destruct (ends s); [|done]. by destruct (_ && _).
    + destruct (ends s); [done|]. case_bool_decide; done.
    + done.
  - intros [He Hb]. unfold readValue. rewrite scan_blank, He, bool_decide_eq_true_2; done.
Qed.
