(* ===== verification/HttpApi.v ===== *)
(** * The HTTP interface ([api/httpapi/handler.go])

    Routing, the strict decoding of request bodies, the calls of the evaluation
    and evidence services, and the mapping of their errors to status codes. A
    request is handled in one step of the handler's state, the stores of the two
    services; what the clock and the random reader yield and what other clients do
    in between is in the [Exchange]. *)

From Stdlib Require Import Ascii String.
From S2P Require Import Prelude GoTime GoString Uuid GoCrypto GoJson GoParse GoFloat GoJsonStruct GoJsonReads GoUnmarshal GoTimeParse.
From S2P Require Import GoDecoder Evidence Evaluation Policy Pds PdsRules Bundle BundleDecision PgEvaluations.

Module httpapi.

(** ** Requests and responses *)

(** The body is what the connection yields. *)
Record Request := MkRequest {
  Method : string;
  Path : string;
  RequestBody : Stream
}.

Record Response := MkResponse {
  StatusCode : Z;
  ContentType : string;
  ResponseBody : bytes
}.

Definition StatusOK : Z := 200.
Definition StatusCreated : Z := 201.
Definition StatusBadRequest : Z := 400.
Definition StatusNotFound : Z := 404.
Definition StatusConflict : Z := 409.
Definition StatusRequestEntityTooLarge : Z := 413.
Definition StatusUnprocessableEntity : Z := 422.
Definition StatusInternalServerError : Z := 500.
Definition StatusServiceUnavailable : Z := 503.

(** [json.NewEncoder(w).Encode(value)]: a value that has no encoding leaves the
    body empty, after the status. *)
Definition writeJSONStatus (status : Z) (value : option bytes) : Response :=
  MkResponse status "application/json" (match value with Some text => text ++ [ascii_of_N 10] | None => [] end).

Definition writeJSON (status : Z) (value : option bytes) : Response := writeJSONStatus status value.

(** [map[string]string] of one entry. *)
Definition message (key text : string) : option bytes := Some (struct [(key, quoteString text)]).

Definition writeError (status : Z) (code : string) : Response := writeJSONStatus status (message "error" code).

Definition writeDecodeError (err : DecodeError) : Response :=
  if err == ReadFailed MaxBytesError then writeError StatusRequestEntityTooLarge "request_body_too_large"
  else writeError StatusBadRequest "invalid_json".

(** ** Decoding a body *)

(** [1 << 20] *)
Definition maxRequestBodyBytes : Z := Z.shiftl 1 20.

Definition requireJSONEnd (s : Stream) : option DecodeError :=
  match DecodeStream decode_any s tt with
  | Err err => if err == EOF then None else Some err
  | Ok _ => Some ErrTrailingValue
  end.

Definition decodeJSON {T} (dec : unmarshal.decoder T) (s : Stream) (target : T) : outcome DecodeError T :=
  let! decoded := DecodeStream dec s target in
  match requireJSONEnd decoded.2 with
  | Some err => Err err
  | None => Ok decoded.1
  end.

Definition decodeOptionalJSON {T} (dec : unmarshal.decoder T) (s : Stream) (target : T) : outcome DecodeError T :=
  match DecodeStream dec s target with
  | Err err => if err == EOF then Ok target else Err err
  | Ok (target, rest) =>
      match requireJSONEnd rest with
      | Some err => Err err
      | None => Ok target
      end
  end.

Record createEvaluationRequest := MkCreateRequest {
  CreateSessionID : string;
  CreatePolicyID : string
}.

#[global] Instance createEvaluationRequest_eta : Eta createEvaluationRequest :=
  fun r => MkCreateRequest (CreateSessionID r) (CreatePolicyID r).

Record ingestEvidenceRequest := MkIngestRequest {
  IngestEvidenceID : string;
  IngestSessionID : string;
  IngestSourceID : string;
  IngestSourceType : string;
  IngestEvidenceType : string;
  IngestObservedAt : Time;
  IngestPayload : bytes;
  IngestConfidence : option float64;
  IngestProvenance : gmap string string
}.

#[global] Instance ingestEvidenceRequest_eta : Eta ingestEvidenceRequest :=
  fun r => MkIngestRequest (IngestEvidenceID r) (IngestSessionID r) (IngestSourceID r) (IngestSourceType r)
             (IngestEvidenceType r) (IngestObservedAt r) (IngestPayload r) (IngestConfidence r) (IngestProvenance r).

Definition zeroCreateRequest : createEvaluationRequest := MkCreateRequest "" "".
Definition zeroIngestRequest : ingestEvidenceRequest := MkIngestRequest "" "" "" "" "" ZeroTime [] None ∅.

(** ** Errors *)

Definition isEvidenceInputError (err : evidence.Error) : bool :=
  (err == evidence.ErrSessionIDRequired) || (err == evidence.ErrSourceIDRequired) ||
  (err == evidence.ErrSourceTypeRequired) || (err == evidence.ErrInvalidEvidenceType) ||
  (err == evidence.ErrObservedAtRequired) || (err == evidence.ErrInvalidTimestampOrder) ||
  (err == evidence.ErrInvalidPayload) || (err == evidence.ErrInvalidConfidence).

Definition writeEvidenceError (err : evidence.Error) : Response :=
  if err == evidence.ErrNotFound then writeError StatusNotFound "evidence_not_found" else
  if err == evidence.ErrConflict then writeError StatusConflict "evidence_conflict" else
  if isEvidenceInputError err then writeError StatusBadRequest "invalid_evidence" else
  writeError StatusInternalServerError "internal_error".

Definition writeServiceError (err : pds.Error) : Response :=
  match err with
  | pds.ErrEvaluationNotFound => writeError StatusNotFound "evaluation_not_found"
  | pds.ErrConcurrentModification => writeError StatusConflict "concurrent_modification"
  | pds.ErrPolicyResolverRequired => writeError StatusServiceUnavailable "policy_resolver_unavailable"
  | pds.PolicyError policy.ErrPolicyNotFound => writeError StatusNotFound "active_policy_not_found"
  | pds.EvaluationError evaluation.ErrRequiredRulesIncomplete => writeError StatusConflict "required_rules_incomplete"
  | pds.EvaluationError evaluation.ErrInvalidStateTransition => writeError StatusConflict "invalid_state_transition"
  | pds.EvaluationError evaluation.ErrRuleOutcomeConflict => writeError StatusConflict "rule_outcome_conflict"
  | pds.ErrEvidenceBindingMissing => writeError StatusConflict "evidence_binding_missing"
  | pds.ErrPolicyBindingMissing => writeError StatusConflict "policy_binding_missing"
  | pds.ErrEvidenceNotQualified => writeError StatusConflict "evidence_not_qualified"
  | pds.ErrPartialRuleOutcomes => writeError StatusConflict "partial_rule_outcomes"
  | pds.ErrRuleOperatorMissing => writeError StatusUnprocessableEntity "policy_rule_unavailable"
  | _ => writeError StatusInternalServerError "internal_error"
  end.

(** [defaultEvidenceService]; its error would be a panic. *)
Definition defaultEvidenceService : outcome evidence.Error (evidence.Service * evidence.MemoryRepository) :=
  evidence.NewService (Some evidence.NewMemoryRepository) (evidence.MkServiceConfig "evidence.v1" "cargoos-pds.dev").

(** ** The handler *)

Section handler.
Context {P : evidencebundle.Platform}.
Context {S R : Type} `{!pds.AggregateStore S, !evidence.Repository R}.
Variable json_Marshal : evaluation.DomainEvent -> option bytes.

Abbreviation field_ name get dec := (name, unmarshal.into get (fset get) dec).

Definition createFields : list (string * unmarshal.decoder createEvaluationRequest) :=
  [field_ "session_id" CreateSessionID unmarshal.decode_string;
   field_ "policy_id" CreatePolicyID unmarshal.decode_string].

Definition ingestFields : list (string * unmarshal.decoder ingestEvidenceRequest) :=
  [field_ "evidence_id" IngestEvidenceID unmarshal.decode_string;
   field_ "session_id" IngestSessionID unmarshal.decode_string;
   field_ "source_id" IngestSourceID unmarshal.decode_string;
   field_ "source_type" IngestSourceType unmarshal.decode_string;
   field_ "evidence_type" IngestEvidenceType unmarshal.decode_string;
   field_ "observed_at" IngestObservedAt (decode_time evidencebundle.fixed_zone);
   field_ "payload" IngestPayload unmarshal.decode_raw;
   field_ "confidence" IngestConfidence (unmarshal.decode_pointer f_zero unmarshal.decode_float);
   field_ "provenance" IngestProvenance unmarshal.decode_string_map].

(** [struct{}] *)
Definition emptyFields : list (string * unmarshal.decoder unit) := [].

(** The stores behind the services. *)
Record State := MkState {
  evaluations : S;
  repository : R
}.

(** [RuleExecutor] and [EvidenceQualifier]: they read the evidence and change the
    evaluations. *)
Definition RuleExecutor : Type := R -> pds.World S -> UUID -> action S pds.Error evaluation.EvaluationSnapshot.
Definition EvidenceQualifier : Type := R -> pds.World S -> UUID -> action S pds.Error evaluation.EvaluationSnapshot.

(** [ReadinessChecker]: whether the check has no error. *)
Definition ReadinessChecker : Type := State -> bool.

Record Handler := MkHandler {
  evidenceService : evidence.Service;
  policyResolver : option pds.PolicyResolver;
  evidenceQualifier : option EvidenceQualifier;
  ruleExecutor : option RuleExecutor;
  readiness : ReadinessChecker
}.

(** What the handling of one request reads and meets. *)
Record Exchange := MkExchange {
  world : pds.World S;
  sessionRandom : bytes;
  receivedAt : Time;
  evidenceRandom : bytes
}.

Definition on_evaluations {E A} (a : action S E A) (st : State) : State * outcome E A :=
  let '(s, r) := a (evaluations st) in (MkState s (repository st), r).

Definition on_repository {E A} (a : action R E A) (st : State) : State * outcome E A :=
  let '(m, r) := a (repository st) in (MkState (evaluations st) m, r).

Definition writeServiceResult {A} (marshal : A -> option bytes) (r : outcome pds.Error A) : Response :=
  match r with
  | Err err => writeServiceError err
  | Ok value => writeJSON StatusOK (marshal value)
  end.

Abbreviation MarshalEvaluation := evaluations.MarshalEvaluation.
Abbreviation MarshalTrace := evidencebundle.MarshalTrace.
Abbreviation MarshalEvidence := evidencebundle.MarshalEvidence.

Definition createEvaluation (h : Handler) (x : Exchange) (body : Stream) (st : State) : State * Response :=
  match decodeJSON (decode_strict createFields) body zeroCreateRequest with
  | Err err => (st, writeDecodeError err)
  | Ok request =>
      let create sessionID :=
        let '(st, r) := on_evaluations
          (pds.CreateForPolicy json_Marshal (world x) sessionID (CreatePolicyID request) (policyResolver h)) st in
        match r with
        | Err err => (st, writeServiceError err)
        | Ok snapshot => (st, writeJSON StatusCreated (MarshalEvaluation snapshot))
        end in
      if CreateSessionID request != "" then
        match Parse (CreateSessionID request) with
        | Err _ => (st, writeError StatusBadRequest "invalid_session_id")
        | Ok parsed => create parsed
        end
      else create (NewUUID (sessionRandom x))
  end.

Definition ingestInput (request : ingestEvidenceRequest) (evidenceID sessionID : UUID) : evidence.Input :=
  evidence.MkInput evidenceID sessionID (IngestSourceID request) (IngestSourceType request) (IngestEvidenceType request)
    (IngestObservedAt request) ZeroTime (IngestPayload request) (IngestConfidence request) (IngestProvenance request)
    "" "" "HTTP".

Definition ingestEvidence (h : Handler) (x : Exchange) (body : Stream) (st : State) : State * Response :=
  match decodeJSON (decode_strict ingestFields) body zeroIngestRequest with
  | Err err => (st, writeDecodeError err)
  | Ok request =>
      match Parse (IngestSessionID request) with
      | Err _ => (st, writeError StatusBadRequest "invalid_session_id")
      | Ok sessionID =>
          match (if IngestEvidenceID request != "" then Parse (IngestEvidenceID request) else Ok NilUUID) with
          | Err _ => (st, writeError StatusBadRequest "invalid_evidence_id")
          | Ok evidenceID =>
              let '(st, r) := on_repository
                (evidence.Ingest (evidenceService h) (receivedAt x) (evidenceRandom x)
                   (ingestInput request evidenceID sessionID)) st in
              match r with
              | Err err => (st, writeEvidenceError err)
              | Ok snapshot => (st, writeJSON StatusCreated (MarshalEvidence snapshot))
              end
          end
      end
  end.

Definition findEvidence (value : bytes) (st : State) : Response :=
  if (value == []) || existsb (byte_is 47) value then writeError StatusNotFound "not_found" else
  match Parse (string_of value) with
  | Err _ => writeError StatusBadRequest "invalid_evidence_id"
  | Ok id =>
      match evidence.Find id (repository st) with
      | Err err => writeEvidenceError err
      | Ok snapshot => writeJSON StatusOK (MarshalEvidence snapshot)
      end
  end.

Definition listSessionEvidence (value : bytes) (st : State) : Response :=
  match Parse (string_of value) with
  | Err _ => writeError StatusBadRequest "invalid_session_id"
  | Ok id =>
      match evidence.ListBySession id (repository st) with
      | Err err => writeEvidenceError err
      | Ok snapshots => writeJSON StatusOK (array <$> mapM MarshalEvidence snapshots)
      end
  end.

Definition qualifyEvidence (h : Handler) (x : Exchange) (body : Stream) (id : UUID) (st : State) : State * Response :=
  match decodeOptionalJSON (decode_strict emptyFields) body tt with
  | Err err => (st, writeDecodeError err)
  | Ok _ =>
      match evidenceQualifier h with
      | None => (st, writeError StatusServiceUnavailable "evidence_qualifier_unavailable")
      | Some QualifyAndBind =>
          let '(st, r) := on_evaluations (QualifyAndBind (repository st) (world x) id) st in
          (st, writeServiceResult MarshalEvaluation r)
      end
  end.

Definition executeRules (h : Handler) (x : Exchange) (body : Stream) (id : UUID) (st : State) : State * Response :=
  match decodeOptionalJSON (decode_strict emptyFields) body tt with
  | Err err => (st, writeDecodeError err)
  | Ok _ =>
      match ruleExecutor h with
      | None => (st, writeError StatusServiceUnavailable "rule_executor_unavailable")
      | Some Execute =>
          let '(st, r) := on_evaluations (Execute (repository st) (world x) id) st in
          (st, writeServiceResult MarshalEvaluation r)
      end
  end.

(** The part of [ServeHTTP] below [/v1/evaluations/]. *)
Definition serveEvaluation (h : Handler) (x : Exchange) (method : string) (body : Stream) (path : bytes) (st : State)
    : State * Response :=
  match split_byte 47 path with
  | [value; operation] =>
      if value == [] then (st, writeError StatusNotFound "not_found") else
      match Parse (string_of value) with
      | Err _ => (st, writeError StatusBadRequest "invalid_evaluation_id")
      | Ok id =>
          let on name verb := (string_of operation == name) && (method == verb) in
          if on "start" "POST" then
            let '(st, r) := on_evaluations (pds.Start json_Marshal (world x) id) st in
            (st, writeServiceResult MarshalEvaluation r)
          else if on "qualify-evidence" "POST" then qualifyEvidence h x body id st
          else if on "execute-rules" "POST" then executeRules h x body id st
          else if on "complete" "POST" then
            let '(st, r) := on_evaluations (pds.Complete json_Marshal (world x) id) st in
            (st, writeServiceResult MarshalTrace r)
          else if on "decision-trace" "GET" then
            let '(st, r) := on_evaluations (pds.Trace (world x) id) st in
            (st, writeServiceResult MarshalTrace r)
          else (st, writeError StatusNotFound "not_found")
      end
  | _ => (st, writeError StatusNotFound "not_found")
  end.

(** The session of [/v1/sessions/<value>/evidence]. *)
Definition sessionEvidence (path : bytes) : option bytes :=
  match split_byte 47 <$> json.strip "/v1/sessions/" path with
  | Some [value; operation] => if string_of operation == "evidence" then Some value else None
  | _ => None
  end.

Definition ServeHTTP (h : Handler) (x : Exchange) (r : Request) (st : State) : State * Response :=
  let body := if Method r == "POST" then MaxBytesReader maxRequestBodyBytes (RequestBody r) else RequestBody r in
  let path := bytes_of (Path r) in
  if (Path r == "/healthz") && (Method r == "GET") then (st, writeJSON StatusOK (message "status" "ok")) else
  if (Path r == "/readyz") && (Method r == "GET") then
    if readiness h st then (st, writeJSON StatusOK (message "status" "ready"))
    else (st, writeJSON StatusServiceUnavailable (message "status" "not_ready"))
  else
  if (Path r == "/v1/evaluations") && (Method r == "POST") then createEvaluation h x body st else
  if (Path r == "/v1/evidence") && (Method r == "POST") then ingestEvidence h x body st else
  match (if Method r == "GET" then json.strip "/v1/evidence/" path else None) with
  | Some value => (st, findEvidence value st)
  | None =>
  match (if Method r == "GET" then sessionEvidence path else None) with
  | Some value => (st, listSessionEvidence value st)
  | None =>
  match json.strip "/v1/evaluations/" path with
  | None => (st, writeError StatusNotFound "not_found")
  | Some path => serveEvaluation h x (Method r) body path st
  end
  end
  end.

(** ** Construction

    [None] is a nil argument. The repository of the evidence service is that of the
    [State], which for the service made here is empty at first. *)

Definition alwaysReady : ReadinessChecker := fun _ => true.

Definition NewHandlerWithQualificationRuntime (evidenceService : option evidence.Service)
    (policyResolver : option pds.PolicyResolver) (evidenceQualifier : option EvidenceQualifier)
    (ruleExecutor : option RuleExecutor) (readiness : option ReadinessChecker) : outcome evidence.Error Handler :=
  let readiness := default alwaysReady readiness in
  let! evidenceService :=
    match evidenceService with
    | Some service => Ok service
    | None => let! made := defaultEvidenceService in Ok made.1
    end in
  Ok (MkHandler evidenceService policyResolver evidenceQualifier ruleExecutor readiness).

Definition NewHandlerWithRuntime (evidenceService : option evidence.Service) (policyResolver : option pds.PolicyResolver)
    (ruleExecutor : option RuleExecutor) (readiness : option ReadinessChecker) : outcome evidence.Error Handler :=
  NewHandlerWithQualificationRuntime evidenceService policyResolver None ruleExecutor readiness.

Definition NewHandlerWithPolicyResolver (evidenceService : option evidence.Service)
    (policyResolver : option pds.PolicyResolver) (readiness : option ReadinessChecker) : outcome evidence.Error Handler :=
  NewHandlerWithRuntime evidenceService policyResolver None readiness.

Definition NewHandlerWithEvidence (evidenceService : option evidence.Service) (readiness : option ReadinessChecker)
    : outcome evidence.Error Handler :=
  NewHandlerWithPolicyResolver evidenceService None readiness.

Definition NewHandlerWithReadiness (readiness : option ReadinessChecker) : outcome evidence.Error Handler :=
  let! made := defaultEvidenceService in
  NewHandlerWithEvidence (Some made.1) readiness.

Definition NewHandler : outcome evidence.Error Handler := NewHandlerWithReadiness (Some alwaysReady).

End handler.

End httpapi.
