(* ===== verification/HttpProperties.v ===== *)
(** * What the HTTP interface promises

    Its theorems are proved against what the stores promise ([StoreLaws],
    [RepositoryLaws]), which the memory stores keep. Concrete requests at the
    end. *)

From Stdlib Require Import Ascii String.
From S2P Require Import Prelude GoTime GoString Uuid GoCrypto GoJson GoParse GoUnmarshal Evidence EvidenceObjects.
From S2P Require Import EvidenceSets EvidenceStore Evaluation Outbox Policy Pds PdsRules.
From S2P Require Import PolicyExamples Bundle GoDecoder HttpApi.
Import httpapi.

(** ** What the stores promise *)

(** A save that fails has no effect. *)
Class StoreLaws (S : Type) `{!pds.AggregateStore S} : Prop := {
  save_refused (s : S) s' snap v l err : pds.SaveEvaluation snap v l s = (s', Err err) -> s' = s
}.

(** The repository keeps what it has, and finds what it has saved. *)
Class RepositoryLaws (R : Type) `{!evidence.Repository R} := {
  repository_ok : R -> Prop;
  evidence_refused (r : R) r' s err : evidence.SaveEvidence s r = (r', Err err) -> r' = r;
  evidence_kept (r : R) s : repository_ok r ->
    repository_ok (evidence.SaveEvidence s r).1 /\
    forall id o, evidence.FindEvidence id r = Ok (Some o) -> evidence.FindEvidence id (evidence.SaveEvidence s r).1 = Ok (Some o);
  evidence_found (r : R) r' s : repository_ok r -> evidence.SaveEvidence s r = (r', Ok tt) ->
    exists o, evidence.FindEvidence (evidence.EvidenceID s) r' = Ok (Some o) /\
      evidence.EvidenceID (evidence.snapshot o) = evidence.EvidenceID s
}.

#[export] Instance MemoryStore_laws : StoreLaws pds.MemoryStore.
Proof.
  split. intros m m' snap v l err. cbn [pds.SaveEvaluation pds.MemoryStore_store]. unfold pds.MemorySave. cbv zeta.
  repeat (destruct (_ && _); [by intros [= <- _]|]). destruct (evaluation.RehydrateEvaluation snap); by intros [= <- _].
Qed.

#[export] Instance MemoryRepository_laws zone_offset :
  @RepositoryLaws evidence.MemoryRepository (evidence.MemoryRepository_repository zone_offset).
Proof.
  refine (@Build_RepositoryLaws _ (evidence.MemoryRepository_repository zone_offset) store_ok _ _ _);
    cbn [evidence.SaveEvidence evidence.FindEvidence evidence.MemoryRepository_repository].
  - intros m m' s err H. apply SaveEvidence_cases in H as [(? & _ & -> & _)|[_ [(_ & _ & [=])|(? & _ & -> & _)]]]; done.
  - intros m s Hm. destruct (SaveEvidence_grows zone_offset s m Hm) as [Hm' Hsub]. split; [done|].
    intros id o H. unfold evidence.memory_FindEvidence in H |- *. destruct (id == NilUUID); [done|].
    destruct (m !! id) as [t|] eqn:E; [|done]. by rewrite (lookup_weaken _ _ _ _ E Hsub).
  - intros m m' s Hm H. pose proof (SaveEvidence_grows zone_offset s m Hm) as [Hm' _]. rewrite H in Hm'. cbn [fst] in Hm'.
    assert (exists t, m' !! evidence.EvidenceID s = Some t) as [t Ht].
    { apply SaveEvidence_cases in H as [(? & _ & _ & [=])|[_ [(_ & -> & _)|(t & Ht & -> & _)]]]; [|by exists t].
      exists s. by rewrite lookup_insert_eq. }
    exists (evidence.MkObject t). split; [by apply FindEvidence_stored|]. by apply Hm'.
Defined.

(** ** Bodies *)

Lemma DecodeStream_ok {T} (dec : unmarshal.decoder T) s t r :
  DecodeStream dec s t = Ok r -> ends r.2 = ends s.
Proof. unfold DecodeStream. destruct (readValue s) as [v|]; [|done]. cbn. destruct (dec v.1 t); [|done]. by intros [= <-]. Qed.

Lemma DecodeStream_EOF {T} (dec : unmarshal.decoder T) s t :
  DecodeStream dec s t = Err EOF <-> ends s = None /\ json.skip_space (data s) = [].
Proof.
  rewrite <- readValue_EOF. unfold DecodeStream. destruct (readValue s) as [v|err]; cbn; [|naive_solver].
  by destruct (dec v.1 t).
Qed.

Lemma requireJSONEnd_none s : requireJSONEnd s = None <-> ends s = None /\ json.skip_space (data s) = [].
Proof.
  rewrite <- (DecodeStream_EOF decode_any s tt). unfold requireJSONEnd. destruct (DecodeStream decode_any s tt) as [r|err]; [by split|].
  case_bool_decide; naive_solver.
Qed.

Lemma decodeJSON_ends {T} (dec : unmarshal.decoder T) s t t' : decodeJSON dec s t = Ok t' -> ends s = None.
Proof.
  unfold decodeJSON. destruct (DecodeStream dec s t) as [r|] eqn:E; [|done]. cbn [obind]. apply DecodeStream_ok in E.
  destruct (requireJSONEnd r.2) eqn:Er; [done|]. apply requireJSONEnd_none in Er as [Er _]. congruence.
Qed.

Lemma decodeJSON_one {T} (dec : unmarshal.decoder T) s t t' :
  ends s = None -> (decodeJSON dec s t = Ok t' <-> unmarshal.Unmarshal dec (data s) t = Some t').
Proof.
  intros He. unfold decodeJSON, DecodeStream, unmarshal.Unmarshal, raw_tree. pose proof (readValue_whole s) as Hr.
  destruct (readValue s) as [[v rest]|err] eqn:E; cbn [obind fst snd].
  - rewrite (proj1 (Hr v rest He) eq_refl). destruct (dec v t) as [t1|] eqn:Ed; cbn [obind fst snd].
    + pose proof (requireJSONEnd_none (MkStream rest (ends s))) as Hq. cbn [data ends] in Hq. unfold json.AtEOF.
      destruct (requireJSONEnd _) as [err|].
      * rewrite bool_decide_eq_false_2; [by split|]. intros Hs. discriminate (proj2 Hq (conj He Hs)).
      * destruct (proj1 Hq eq_refl) as [_ Hs]. rewrite bool_decide_eq_true_2 by done. rewrite Ed. naive_solver.
    + destruct (json.AtEOF rest); [rewrite Ed|]; by split.
  - destruct (raw_value _ _ (data s)) as [[v rest]|] eqn:Ev; [|by split]. discriminate (proj2 (Hr v rest He) eq_refl).
Qed.

Lemma decodeJSON_whole {T} (dec : unmarshal.decoder T) s t t' :
  decodeJSON dec s t = Ok t' <-> ends s = None /\ unmarshal.Unmarshal dec (data s) t = Some t'.
Proof.
  split.
  - intros H. pose proof (decodeJSON_ends _ _ _ _ H) as He. split; [done|]. by apply decodeJSON_one in H.
  - intros [He H]. by apply decodeJSON_one.
Qed.

(** A blank body is no document. *)
Lemma decodeOptionalJSON_whole {T} (dec : unmarshal.decoder T) s t t' :
  decodeOptionalJSON dec s t = Ok t' <->
  ends s = None /\
  (if json.skip_space (data s) == [] then Some t else unmarshal.Unmarshal dec (data s) t) = Some t'.
Proof.
  pose proof (DecodeStream_EOF dec s t) as He. pose proof (decodeJSON_whole dec s t t') as Hw.
  unfold decodeOptionalJSON. unfold decodeJSON in Hw. destruct (DecodeStream dec s t) as [[t1 rest]|err]; cbn [obind] in Hw.
  - rewrite Hw. case_bool_decide as Hb; [|done]. split; [|naive_solver]. intros [Hn _]. by discriminate (proj2 He (conj Hn Hb)).
  - case_bool_decide as Hx.
    + subst err. destruct (proj1 He eq_refl) as [Hn Hb]. rewrite bool_decide_eq_true_2 by done. naive_solver.
    + case_bool_decide as Hb; [|rewrite <- Hw; naive_solver]. split; [done|]. intros [Hn _].
      destruct Hx. injection (proj2 He (conj Hn Hb)). done.
Qed.

(** ** Refusals *)

(** An error leaves the state as it was. *)
Definition clean {S E A} (a : action S E A) : Prop := forall s s' err, a s = (s', Err err) -> s' = s.

(** Nothing is changed at all. *)
Definition reads_only {S E A} (a : action S E A) : Prop := forall s, (a s).1 = s.

Lemma clean_reads {S E A} (a : action S E A) : reads_only a -> clean a.
Proof. intros H s s' err Ha. specialize (H s). by rewrite Ha in H. Qed.

Lemma reads_bind {S E A B} (a : action S E A) (k : A -> action S E B) :
  reads_only a -> (forall x, reads_only (k x)) -> reads_only (abind a k).
Proof.
  intros Ha Hk s. unfold abind. specialize (Ha s). destruct (a s) as [s1 [x|err]]; cbn in *; [|done]. subst s1. apply Hk.
Qed.

Lemma clean_bind {S E A B} (a : action S E A) (k : A -> action S E B) :
  reads_only a -> (forall x, clean (k x)) -> clean (abind a k).
Proof.
  intros Ha Hk s s' err. unfold abind. specialize (Ha s). destruct (a s) as [s1 [x|e]]; cbn in Ha; subst s1; [apply Hk|].
  by intros [= <- _].
Qed.

Lemma clean_ret {S E A} (x : A) : clean (aret x : action S E A).
Proof. by intros s s' err. Qed.

Section clean.
Context {S : Type} `{!pds.AggregateStore S, !StoreLaws S} (marshal : evaluation.DomainEvent -> option bytes).

Definition quiet (w : pds.World S) : Prop := forall i s, pds.interfere w i s = s.

Context (w : pds.World S) (Hw : quiet w).

Lemma clean_failure {A} err : clean (pds.failure err : action S pds.Error A).
Proof. by intros s s' e [= <- _]. Qed.

Lemma reads_find i id : reads_only (pds.find w i id).
Proof.
  intros s. unfold pds.find. rewrite Hw. by destruct (pds.FindEvaluation id s) as [[?|]|].
Qed.

Lemma reads_Snapshot i id : reads_only (pds.Snapshot w i id).
Proof. apply reads_bind; [apply reads_find|]. by intros e s. Qed.

Lemma clean_save i t e v : clean (pds.save marshal w i t e v).
Proof.
  intros s s' err. unfold pds.save. destruct (outbox.BuildOutboxRecords _ _ _ _); [|by intros [= <- _]].
  rewrite Hw. apply save_refused.
Qed.

Lemma clean_saveAndReturn i t e v : clean (pds.saveAndReturn marshal w i t e v).
Proof.
  intros s s' err. unfold pds.saveAndReturn, abind. destruct (pds.save _ _ _ _ _ _ _) as [s1 [[]|e1]] eqn:E; [done|].
  intros [= <- _]. by apply clean_save in E.
Qed.

Lemma clean_mutate {A} m e (k : evaluation.EvaluationAggregate -> action S pds.Error A) :
  (forall e, clean (k e)) -> clean (pds.mutate m e k).
Proof. intros Hk. unfold pds.mutate. destruct (m e) as [e' [[]|err]]; [apply Hk|apply clean_failure]. Qed.

(** A save, and a look at the store when it was lost. *)
Lemma clean_retry {A B} e v (good : A) (look : action S pds.Error B) (k : B -> option A) :
  reads_only look ->
  clean (fun s =>
    match pds.save marshal w 1 1 e v s with
    | (s, Ok _) => (s, Ok good)
    | (s, Err err) =>
        if err == pds.ErrConcurrentModification then
          match look s with
          | (s, Ok latest) => match k latest with Some a => (s, Ok a) | None => (s, Err err) end
          | (s, Err _) => (s, Err err)
          end
        else (s, Err err)
    end).
Proof.
  intros Hl s s' err. destruct (pds.save _ _ _ _ _ _ _) as [s1 [[]|e1]] eqn:E; [done|]. apply clean_save in E as ->.
  destruct (e1 == _); [|by intros [= <- _]]. specialize (Hl s). destruct (look s) as [s2 [latest|e2]]; cbn in Hl; subst s2.
  - destruct (k latest); by intros [= <- _].
  - by intros [= <- _].
Qed.

Lemma clean_Start id : clean (pds.Start marshal w id).
Proof.
  apply clean_bind; [apply reads_find|]. intros e. cbv zeta. destruct (_ == _); [apply clean_ret|]. apply clean_mutate. intros e'.
  pose proof (clean_retry e' (evaluation.version e) (evaluation.Snapshot e') (pds.Snapshot w 2 id)
    (fun latest => if evaluation.SnapState latest == evaluation.StateRunning then Some latest else None) (reads_Snapshot 2 id)) as Hc.
  intros s s' err E. apply (Hc s s' err). rewrite <- E. destruct (pds.save _ _ _ _ _ _ _) as [s1 [[]|e1]]; [done|].
  destruct (e1 == _); [|done]. destruct (pds.Snapshot w 2 id s1) as [s2 [latest|]]; [|done]. by destruct (_ == _).
Qed.

Lemma clean_Complete id : clean (pds.Complete marshal w id).
Proof.
  apply clean_bind; [apply reads_find|]. intros e. cbv zeta. destruct (_ == _); [apply clean_ret|].
  destruct (evaluation.DeriveResult e) as [[result reasons]|]; [|apply clean_failure]. apply clean_mutate. intros e'.
  pose proof (clean_retry e' (evaluation.version e) (evaluation.decisionTrace e') (pds.find w 2 id)
    (fun latest => if evaluation.SnapState (evaluation.Snapshot latest) == evaluation.StateCompleted
                   then Some (evaluation.decisionTrace latest) else None) (reads_find 2 id)) as Hc.
  intros s s' err E. apply (Hc s s' err). rewrite <- E. destruct (pds.save _ _ _ _ _ _ _) as [s1 [[]|e1]]; [done|].
  destruct (e1 == _); [|done]. destruct (pds.find w 2 id s1) as [s2 [latest|]]; [|done]. by destruct (_ == _).
Qed.

Lemma reads_Trace id : reads_only (pds.Trace w id).
Proof. apply reads_bind; [apply reads_find|]. by intros e s. Qed.

Lemma clean_CreateForPolicy session policyID resolver : clean (pds.CreateForPolicy marshal w session policyID resolver).
Proof.
  unfold pds.CreateForPolicy. destruct resolver as [resolve|]; [|apply clean_failure]. cbv zeta.
  destruct (resolve policyID _) as [[v|]|]; [|apply clean_failure..].
  destruct (evaluation.NewEvaluation _ _ _) as [e|]; [|apply clean_failure].
  apply clean_mutate. intros e1. apply clean_mutate. intros e2. apply clean_saveAndReturn.
Qed.

Lemma clean_Execute svc id : clean (rules.Execute marshal svc w id).
Proof.
  apply clean_bind; [apply reads_find|]. intros e. cbv zeta.
  destruct (rules.requiredBindings _) as [[b p]|]; [|apply clean_failure].
  destruct (negb _); [destruct (_ == _); [apply clean_ret|apply clean_failure]|].
  destruct (rules.runRules _ _ _ _ _ _); [|apply clean_failure]. apply clean_mutate. intros e'. apply clean_saveAndReturn.
Qed.

End clean.

Lemma quiet_later {S} n (w : pds.World S) : quiet w -> quiet (rules.later n w).
Proof. intros H i s. apply H. Qed.

Section clean_qualification.
Context {S R : Type} `{!pds.AggregateStore S, !StoreLaws S, !evidence.Repository R}.
Context (marshal : evaluation.DomainEvent -> option bytes) (w : pds.World S) (Hw : quiet w).

Lemma clean_QualifyAndBind range groupRange (svc : rules.PolicyEvidenceQualificationService (R := R)) at_ id :
  clean (rules.QualifyAndBind marshal range groupRange svc at_ w id).
Proof.
  unfold rules.QualifyAndBind. destruct (negb _); [apply clean_failure|].
  destruct (rules.evidenceRepository svc), (rules.versionReader svc), (rules.qualificationCompiler svc);
    try apply clean_failure. unfold rules.qualifyAndBind.
  apply clean_bind; [by apply reads_Snapshot|]. intros snap. destruct (evaluation.SnapEvidenceBinding snap); [apply clean_ret|].
  destruct (rules.qualifySession _ _ _ _ _ _ _) as [result|]; [|apply clean_failure]. intros s s' err.
  destruct (pds.BindEvidenceQualification _ _ _ _ _) as [s1 [bound|e1]] eqn:E; [done|].
  assert (s1 = s) as ->.
  { revert E. apply (clean_bind (S := S)); [by apply reads_find, quiet_later|]. intros e. apply clean_mutate. intros e'.
    by apply clean_saveAndReturn, quiet_later. }
  destruct (rules.lostRace e1); [|by intros [= <- _]]. pose proof (reads_Snapshot w Hw 3 id s) as Hr.
  destruct (pds.Snapshot w 3 id s) as [s2 [latest|]]; cbn in Hr; subst s2; [|by intros [= <- _]].
  destruct (match _ with Some _ => true | None => false end); by intros [= <- _].
Qed.
End clean_qualification.

(** ** The handler *)

Section handler.
Context {P : evidencebundle.Platform}.
Context {S R : Type} {HS : pds.AggregateStore S} {HR : evidence.Repository R} {LS : StoreLaws S} {LR : RepositoryLaws R}.
Context (marshal : evaluation.DomainEvent -> option bytes).

Abbreviation State := (State (S := S) (R := R)).
Abbreviation Handler := (Handler (S := S) (R := R)).
Abbreviation Exchange := (Exchange (S := S)).
Abbreviation serve := (ServeHTTP (S := S) (R := R) marshal).

(** The codes of errors, with their status. *)
Definition error_codes : list (Z * string) :=
  [(404, "not_found"); (400, "invalid_evaluation_id"); (400, "invalid_session_id"); (400, "invalid_evidence_id");
   (400, "invalid_json"); (413, "request_body_too_large"); (503, "evidence_qualifier_unavailable");
   (503, "rule_executor_unavailable"); (404, "evidence_not_found"); (409, "evidence_conflict"); (400, "invalid_evidence");
   (500, "internal_error"); (404, "evaluation_not_found"); (409, "concurrent_modification");
   (503, "policy_resolver_unavailable"); (404, "active_policy_not_found"); (409, "required_rules_incomplete");
   (409, "invalid_state_transition"); (409, "rule_outcome_conflict"); (409, "evidence_binding_missing");
   (409, "policy_binding_missing"); (409, "evidence_not_qualified"); (409, "partial_rule_outcomes");
   (422, "policy_rule_unavailable")].

(** Every answer that is not a success. *)
Definition refused (resp : Response) : Prop :=
  resp = writeJSON 503 (message "status" "not_ready") \/
  exists status code, (status, code) ∈ error_codes /\ resp = writeError status code.

Lemma refused_code status code : bool_decide ((status, code) ∈ error_codes) = true -> refused (writeError status code).
Proof. intros H%bool_decide_eq_true. right. by exists status, code. Qed.

Ltac listed := apply refused_code; vm_compute; reflexivity.

Lemma service_error_refused err : refused (writeServiceError err).
Proof. destruct err as [| | | | | | | | | | | | | | | | | | | | | | | | | |err|err|err|err|err]; try listed; destruct err; listed. Qed.

Lemma evidence_error_refused err : refused (writeEvidenceError err).
Proof. destruct err; listed. Qed.

Lemma decode_error_refused err : refused (writeDecodeError err).
Proof. unfold writeDecodeError. destruct (_ == _); listed. Qed.

Lemma refused_status resp : refused resp -> 400 <= StatusCode resp.
Proof.
  intros [->|(status & code & H & ->)]; [done|]. cbn [writeError writeJSONStatus StatusCode].
  assert (Forall (fun p => 400 <= p.1) error_codes) as Hf by (by repeat constructor).
  by apply (proj1 (Forall_forall _ _) Hf) in H.
Qed.

(** What is answered, and that a refusal leaves the state. *)
Record answered (st : State) (p : State * Response) : Prop := {
  an_listed : StatusCode p.2 = StatusOK \/ StatusCode p.2 = StatusCreated \/ refused p.2;
  an_kept : refused p.2 -> p.1 = st
}.

Lemma answered_refusal st resp : refused resp -> answered st (st, resp).
Proof. intros H. split; [by right; right|done]. Qed.

Lemma answered_success st st' status value :
  status = StatusOK \/ status = StatusCreated -> answered st (st', writeJSON status value).
Proof.
  intros H. split; [cbn; tauto|]. intros Hr%refused_status. cbn in Hr. by destruct H as [-> | ->].
Qed.

Lemma answered_service {A} (m : A -> option bytes) (a : action S pds.Error A) st :
  clean a -> answered st (let '(st1, r) := on_evaluations a st in (st1, writeServiceResult m r)).
Proof.
  intros Ha. unfold on_evaluations. destruct (a (evaluations st)) as [s [value|err]] eqn:E.
  - apply answered_success. by left.
  - apply Ha in E as ->. destruct st. apply answered_refusal, service_error_refused.
Qed.

(** ** Ingestion *)

Lemma Ingest_refused svc now random input r r' err :
  repository_ok r -> evidence.Ingest svc now random input r = (r', Err err) -> r' = r.
Proof.
  intros Hr. unfold evidence.Ingest. cbv zeta. destruct (evidence.NewObject _) as [o|e]; [|by intros [= <- _]].
  destruct (evidence.SaveEvidence _ r) as [r1 [[]|e]] eqn:E.
  - destruct (evidence_found _ _ _ Hr E) as (o' & -> & _). done.
  - intros [= <- _]. by apply evidence_refused in E.
Qed.

Lemma Ingest_keeps svc now random input r :
  repository_ok r ->
  repository_ok (evidence.Ingest svc now random input r).1 /\
  forall id o, evidence.FindEvidence id r = Ok (Some o) ->
    evidence.FindEvidence id (evidence.Ingest svc now random input r).1 = Ok (Some o).
Proof.
  intros Hr. unfold evidence.Ingest. cbv zeta. destruct (evidence.NewObject _) as [o|e]; [|done].
  pose proof (evidence_kept r (evidence.ObjectSnapshot o) Hr) as Hk.
  destruct (evidence.SaveEvidence _ r) as [r1 [[]|e]]; [|exact Hk].
  by destruct (evidence.FindEvidence _ r1) as [[?|]|].
Qed.

(** What is answered was stored, under the ID of the input or a fresh one. *)
Lemma Ingest_found svc now random input r r' s :
  repository_ok r -> evidence.Ingest svc now random input r = (r', Ok s) ->
  exists o, s = evidence.snapshot o /\ evidence.FindEvidence (evidence.EvidenceID s) r' = Ok (Some o) /\
    evidence.EvidenceID s =
      (if evidence.InputEvidenceID input == NilUUID then NewUUID random else evidence.InputEvidenceID input).
Proof.
  intros Hr. unfold evidence.Ingest. cbv zeta. destruct (evidence.NewObject _) as [o|e] eqn:Eo; [|done].
  destruct (evidence.SaveEvidence _ r) as [r1 [[]|e]] eqn:E; [|done].
  destruct (evidence_found _ _ _ Hr E) as (o' & Ho & Hid). rewrite Ho. intros [= <- <-]. exists o'.
  rewrite !ObjectSnapshot_eq in *. split; [done|]. rewrite Hid. split; [done|].
  destruct (NewObject_ok _ _ Eo) as (_ & _ & ->). done.
Qed.

(** ** Every request *)

Lemma answered_create h x body st : quiet (world x) -> answered st (createEvaluation marshal h x body st).
Proof.
  intros Hw. unfold createEvaluation.
  destruct (decodeJSON _ _ _) as [request|err]; [|apply answered_refusal, decode_error_refused]. cbv zeta.
  assert (forall id, answered st (
    let '(st1, r) := on_evaluations (pds.CreateForPolicy marshal (world x) id (CreatePolicyID request) (policyResolver h)) st in
    match r with
    | Err err => (st1, writeServiceError err)
    | Ok snapshot => (st1, writeJSON StatusCreated (PgEvaluations.evaluations.MarshalEvaluation snapshot))
    end)) as Hc.
  { intros id. unfold on_evaluations. destruct (pds.CreateForPolicy _ _ _ _ _ _) as [s [snap|err]] eqn:E.
    - apply answered_success. by right.
    - apply clean_CreateForPolicy in E as ->; [|done]. destruct st. apply answered_refusal, service_error_refused. }
  destruct (negb _); [|apply Hc]. destruct (Parse _); [apply Hc|]. apply answered_refusal. listed.
Qed.

Lemma answered_ingest h x body st : repository_ok (repository st) -> answered st (ingestEvidence h x body st).
Proof.
  intros Hr. unfold ingestEvidence.
  destruct (decodeJSON _ _ _) as [request|err]; [|apply answered_refusal, decode_error_refused].
  destruct (Parse _) as [session|]; [|apply answered_refusal; listed].
  destruct (if IngestEvidenceID request != "" then _ else _) as [id|]; [|apply answered_refusal; listed]. unfold on_repository.
  destruct (evidence.Ingest _ _ _ _ _) as [r [s|err]] eqn:E.
  - apply answered_success. by right.
  - apply Ingest_refused in E as ->; [|done]. destruct st. apply answered_refusal, evidence_error_refused.
Qed.

Lemma answered_find value st : answered st (st, findEvidence value st).
Proof.
  unfold findEvidence. destruct (_ || _); [apply answered_refusal; listed|].
  destruct (Parse _); [|apply answered_refusal; listed].
  destruct (evidence.Find _ _); [apply answered_success; by left|apply answered_refusal, evidence_error_refused].
Qed.

Lemma answered_list value st : answered st (st, listSessionEvidence value st).
Proof.
  unfold listSessionEvidence. destruct (Parse _); [|apply answered_refusal; listed].
  destruct (evidence.ListBySession _ _); [apply answered_success; by left|apply answered_refusal, evidence_error_refused].
Qed.

(** The parts of a handler that are interfaces: in a quiet world their errors
    leave the store. *)
Definition clean_handler (h : Handler) : Prop :=
  (forall qualify r w id, evidenceQualifier h = Some qualify -> quiet w -> clean (qualify r w id)) /\
  (forall execute r w id, ruleExecutor h = Some execute -> quiet w -> clean (execute r w id)).

Lemma answered_evaluation h x method body path st :
  clean_handler h -> quiet (world x) -> answered st (serveEvaluation marshal h x method body path st).
Proof.
  intros [Hq He] Hw. unfold serveEvaluation.
  destruct (split_byte 47 path) as [|value [|operation [|? ?]]]; try (apply answered_refusal; listed).
  destruct (value == []); [apply answered_refusal; listed|]. destruct (Parse _) as [id|]; [|apply answered_refusal; listed]. cbv zeta.
  destruct (_ && _); [by apply answered_service, clean_Start|]. destruct (_ && _).
  { unfold qualifyEvidence. destruct (decodeOptionalJSON _ _ _); [|apply answered_refusal, decode_error_refused].
    destruct (evidenceQualifier h) as [qualify|] eqn:E; [by apply answered_service, Hq|apply answered_refusal; listed]. }
  destruct (_ && _).
  { unfold executeRules. destruct (decodeOptionalJSON _ _ _); [|apply answered_refusal, decode_error_refused].
    destruct (ruleExecutor h) as [execute|] eqn:E; [by apply answered_service, He|apply answered_refusal; listed]. }
  destruct (_ && _); [by apply answered_service, clean_Complete|].
  destruct (_ && _); [by apply answered_service, clean_reads, reads_Trace|]. apply answered_refusal. listed.
Qed.

Lemma ServeHTTP_answered h x r st :
  clean_handler h -> quiet (world x) -> repository_ok (repository st) -> answered st (serve h x r st).
Proof.
  intros Hh Hw Hr. unfold ServeHTTP. cbv zeta.
  destruct (_ && _); [apply answered_success; by left|].
  destruct (_ && _); [destruct (readiness h st); [apply answered_success; by left|apply answered_refusal; by left]|].
  destruct (_ && _); [by apply answered_create|]. destruct (_ && _); [by apply answered_ingest|].
  destruct (if Method r == "GET" then json.strip "/v1/evidence/" _ else _); [apply answered_find|].
  destruct (if Method r == "GET" then sessionEvidence _ else _); [apply answered_list|].
  destruct (json.strip "/v1/evaluations/" _); [by apply answered_evaluation|]. apply answered_refusal. listed.
Qed.

Lemma on_evaluations_reads {A} (a : action S pds.Error A) (m : A -> option bytes) (st : State) :
  reads_only a -> (let '(st1, r) := on_evaluations a st in (st1, writeServiceResult m r)).1 = st.
Proof.
  intros Ha. unfold on_evaluations. specialize (Ha (evaluations st)). destruct (a (evaluations st)) as [s r].
  cbn in Ha. subst s. by destruct st.
Qed.

(** Without a POST nothing is changed. *)
Lemma ServeHTTP_safe h x r st : quiet (world x) -> Method r <> "POST" -> (serve h x r st).1 = st.
Proof.
  intros Hw Hm%(bool_decide_eq_false_2 _). unfold ServeHTTP, serveEvaluation. cbv zeta. rewrite Hm, !andb_false_r.
  destruct (_ && _); [done|]. destruct (_ && _); [by destruct (readiness h st)|].
  destruct (if Method r == "GET" then json.strip "/v1/evidence/" _ else _); [done|].
  destruct (if Method r == "GET" then sessionEvidence _ else _); [done|].
  destruct (json.strip "/v1/evaluations/" _) as [path|]; [|done].
  destruct (split_byte 47 path) as [|value [|operation [|? ?]]]; [done..| |done].
  destruct (value == []); [done|]. destruct (Parse _) as [id|]; [|done]. rewrite !andb_false_r.
  destruct (_ && _); [|done]. by apply on_evaluations_reads, reads_Trace.
Qed.

(** C19: what a refusal is: when no other client runs in between, and the parts
    behind the handler leave the store when they fail, every answer is a success
    (200 or 201) or one of a fixed list of messages, a status with its code, so that
    no text of an internal error reaches the client; a refusal (a status of 400 or
    more) leaves both stores exactly as they were, and so does every request that is
    not a POST. *)
Theorem refusals_change_nothing h x r st st' resp :
  clean_handler h -> quiet (world x) -> repository_ok (repository st) -> serve h x r st = (st', resp) ->
  (StatusCode resp = StatusOK \/ StatusCode resp = StatusCreated \/ refused resp) /\
  (400 <= StatusCode resp \/ Method r <> "POST" -> st' = st).
Proof.
  intros Hh Hw Hr H. destruct (ServeHTTP_answered h x r st Hh Hw Hr) as [Hl Hk]. rewrite H in Hl, Hk. cbn [fst snd] in *.
  split; [done|]. intros [Hs|Hm].
  - apply Hk. destruct Hl as [E|[E|?]]; [| |done]; rewrite E in Hs; exfalso; apply Hs; reflexivity.
  - pose proof (ServeHTTP_safe h x r st Hw Hm) as Hsafe. by rewrite H in Hsafe.
Qed.

(** ** Evidence stays served *)

(** Requests, one after the other. *)
Definition handle (h : Handler) (st : State) (xr : Exchange * Request) : State := (serve h xr.1 xr.2 st).1.

(** What a request does to the evidence: one ingestion, or nothing. *)
Lemma ServeHTTP_repository h x r st :
  repository (serve h x r st).1 = repository st \/
  exists input, repository (serve h x r st).1 =
    (evidence.Ingest (evidenceService h) (receivedAt x) (evidenceRandom x) input (repository st)).1.
Proof.
  assert (forall E A (a : action S E A) (st1 : State), repository (on_evaluations a st1).1 = repository st1) as Ho.
  { intros E A a st1. unfold on_evaluations. by destruct (a (evaluations st1)). }
  assert (forall A (m : A -> option bytes) (a : action S pds.Error A) (st1 : State),
    repository (let '(st2, r) := on_evaluations a st1 in (st2, writeServiceResult m r)).1 = repository st1) as Hs.
  { intros A m a st1. specialize (Ho _ _ a st1). by destruct (on_evaluations a st1). }
  unfold ServeHTTP. cbv zeta. destruct (_ && _); [by left|]. destruct (_ && _); [left; by destruct (readiness h st)|].
  destruct (_ && _).
  { left. unfold createEvaluation. destruct (decodeJSON _ _ _) as [request|]; [|done]. cbv zeta.
    assert (forall id, repository (
      let '(st1, r) := on_evaluations (pds.CreateForPolicy marshal (world x) id (CreatePolicyID request) (policyResolver h)) st in
      match r with
      | Err err => (st1, writeServiceError err)
      | Ok snapshot => (st1, writeJSON StatusCreated (PgEvaluations.evaluations.MarshalEvaluation snapshot))
      end).1 = repository st) as Hc.
    { intros id. specialize (Ho _ _ (pds.CreateForPolicy marshal (world x) id (CreatePolicyID request) (policyResolver h)) st).
      by destruct (on_evaluations _ st) as [st1 [?|?]]. }
    destruct (negb _); [|apply Hc]. destruct (Parse _); [apply Hc|done]. }
  destruct (_ && _).
  { unfold ingestEvidence. destruct (decodeJSON _ _ _) as [request|]; [|by left]. destruct (Parse _) as [session|]; [|by left].
    destruct (if IngestEvidenceID request != "" then _ else _) as [id|]; [|by left]. right.
    exists (ingestInput request id session). unfold on_repository.
    by destruct (evidence.Ingest _ _ _ _ _) as [r1 [?|?]]. }
  left. destruct (if Method r == "GET" then json.strip "/v1/evidence/" _ else _); [done|].
  destruct (if Method r == "GET" then sessionEvidence _ else _); [done|].
  destruct (json.strip "/v1/evaluations/" _) as [path|]; [|done]. unfold serveEvaluation.
  destruct (split_byte 47 path) as [|value [|operation [|? ?]]]; [done..| |done].
  destruct (value == []); [done|]. destruct (Parse _) as [id|]; [|done]. cbv zeta.
  destruct (_ && _); [apply Hs|]. destruct (_ && _).
  { unfold qualifyEvidence. destruct (decodeOptionalJSON _ _ _); [|done]. destruct (evidenceQualifier h); [apply Hs|done]. }
  destruct (_ && _).
  { unfold executeRules. destruct (decodeOptionalJSON _ _ _); [|done]. destruct (ruleExecutor h); [apply Hs|done]. }
  destruct (_ && _); [apply Hs|]. destruct (_ && _); [apply Hs|done].
Qed.

Lemma ServeHTTP_keeps h x r st :
  repository_ok (repository st) ->
  repository_ok (repository (serve h x r st).1) /\
  forall id o, evidence.FindEvidence id (repository st) = Ok (Some o) ->
    evidence.FindEvidence id (repository (serve h x r st).1) = Ok (Some o).
Proof. intros Hr. destruct (ServeHTTP_repository h x r st) as [->|[input ->]]; [done|]. by apply Ingest_keeps. Qed.

Lemma handle_keeps h l : forall st,
  repository_ok (repository st) ->
  repository_ok (repository (fold_left (handle h) l st)) /\
  forall id o, evidence.FindEvidence id (repository st) = Ok (Some o) ->
    evidence.FindEvidence id (repository (fold_left (handle h) l st)) = Ok (Some o).
Proof.
  induction l as [|[x r] l IH]; intros st Hr; [done|]. destruct (ServeHTTP_keeps h x r st Hr) as [H1 H2].
  destruct (IH (handle h st (x, r)) H1) as [H3 H4]. split; [exact H3|]. intros id o Ho. by apply H4, H2.
Qed.

Lemma strip_app p b : json.strip p (bytes_of p ++ b) = Some b.
Proof. unfold json.strip. by rewrite take_app_length, drop_app_length, bool_decide_eq_true_2. Qed.

(** The text of a UUID has no slash. *)
Lemma hex_encode_no_slash l : existsb (byte_is 47) (hex_encode l) = false.
Proof.
  induction l as [|c l IH]; [done|]. cbn [hex_encode existsb]. rewrite IH. destruct (hex_nibbles c) as [H1 H2].
  assert (forall n, (n < 16)%N -> byte_is 47 (hex_digit n) = false) as Hd.
  { intros n Hn. pattern n. apply (small_N_cases _ 16); [done|]. cbn. by repeat constructor. }
  by rewrite !Hd.
Qed.

Lemma UuidString_no_slash u : existsb (byte_is 47) (bytes_of (UuidString u)) = false.
Proof.
  unfold UuidString. rewrite bytes_of_string_of. by repeat (rewrite existsb_app, hex_encode_no_slash; cbn [orb existsb]);
    rewrite hex_encode_no_slash.
Qed.

Lemma UuidString_nonempty u : bytes_of (UuidString u) <> [].
Proof. unfold UuidString. rewrite bytes_of_string_of. by destruct (hex_encode _). Qed.

(** *** The body of a request *)

(** The answers to a body that is not taken. *)
Definition body_refused (resp : Response) : Prop :=
  resp = writeError 400 "invalid_json" \/ resp = writeError 413 "request_body_too_large".

(** The connection delivers all of the body, and it is at most 1 MiB long. *)
Definition delivered (body : Stream) : Prop := ends body = None /\ Z.of_nat (length (data body)) <= 1048576.

(** A request whose body is the text of one value, as [parse] reads it: any other body
    is refused and nothing is changed, and what is done otherwise is decided by the
    value. *)
Record takes_body {T} (parse : bytes -> option T) (serve : Stream -> State * Response) (st : State) : Prop := {
  tb_refused body : ~ (delivered body /\ is_Some (parse (data body))) -> (serve body).1 = st /\ body_refused (serve body).2;
  tb_taken body : delivered body -> is_Some (parse (data body)) -> ~ body_refused (serve body).2;
  tb_value body body' value : delivered body -> delivered body' -> parse (data body) = Some value ->
    parse (data body') = Some value -> serve body = serve body'
}.

Lemma limited_delivered body :
  ends (MaxBytesReader maxRequestBodyBytes body) = None <-> delivered body.
Proof.
  unfold MaxBytesReader, delivered. change maxRequestBodyBytes with 1048576.
  destruct (1048576 <? Z.of_nat (length (data body))) eqn:E; cbn [ends]; [split; [done|lia]|]. split; [split; [done|lia]|tauto].
Qed.

Lemma limited_data body : delivered body -> data (MaxBytesReader maxRequestBodyBytes body) = data body.
Proof.
  intros [_ H]. unfold MaxBytesReader. change maxRequestBodyBytes with 1048576. by rewrite (proj2 (Z.ltb_ge _ _) H).
Qed.

Lemma decode_error_body err : body_refused (writeDecodeError err).
Proof. unfold writeDecodeError. destruct (_ == _); [by right|by left]. Qed.

Lemma success_body status value : status < 400 -> ~ body_refused (writeJSON status value).
Proof. intros Hs [H|H]; apply (f_equal StatusCode) in H; cbn in H; lia. Qed.

Lemma service_error_body err : ~ body_refused (writeServiceError err).
Proof.
  destruct err as [| | | | | | | | | | | | | | | | | | | | | | | | | |err|err|err|err|err]; try (by intros []);
    destruct err; by intros [].
Qed.

Lemma evidence_error_body err : ~ body_refused (writeEvidenceError err).
Proof. destruct err; by intros []. Qed.

Lemma service_result_body {A} (m : A -> option bytes) r : ~ body_refused (writeServiceResult m r).
Proof. destruct r as [a|err]; [by apply success_body|apply service_error_body]. Qed.

(** What is done with a decoded body. *)
Lemma decoded_takes_body {T} (parse : bytes -> option T) decode act (serve : Stream -> State * Response) st :
  (forall s t, decode s = Ok t <-> ends s = None /\ parse (data s) = Some t) ->
  (forall t, ~ body_refused (act t).2) ->
  (forall body, serve body =
     match decode (MaxBytesReader maxRequestBodyBytes body) with
     | Err err => (st, writeDecodeError err)
     | Ok t => act t
     end) ->
  takes_body parse serve st.
Proof.
  intros Hd Ha Hs.
  assert (forall body t, decode (MaxBytesReader maxRequestBodyBytes body) = Ok t <-> delivered body /\ parse (data body) = Some t) as Hd'.
  { intros body t. rewrite Hd, limited_delivered. split; intros [Hb H]; (split; [done|]); by rewrite limited_data in *. }
  split; intros body.
  - intros Hn. rewrite Hs. destruct (decode _) as [t|err] eqn:E; [|split; [done|apply decode_error_body]].
    apply Hd' in E as [Hb E]. destruct Hn. split; [done|by eexists].
  - intros Hb [t Ht]. rewrite Hs, (proj2 (Hd' body t) (conj Hb Ht)). apply Ha.
  - intros body' t Hb Hb' Ht Ht'. by rewrite !Hs, (proj2 (Hd' body t) (conj Hb Ht)), (proj2 (Hd' body' t) (conj Hb' Ht')).
Qed.

(** The body of a request that may have none: blank, or one object without fields. *)
Definition optional_object (text : bytes) : option unit :=
  if json.skip_space text == [] then Some tt else unmarshal.Unmarshal (decode_strict emptyFields) text tt.

Definition evaluation_path (id : UUID) (operation : string) : string :=
  "/v1/evaluations/" ++ UuidString id ++ "/" ++ operation.

Lemma split_byte_clean b : existsb (byte_is 47) b = false -> split_byte 47 b = [b].
Proof.
  induction b as [|c b IH]; [done|]. cbn [existsb split_byte]. intros [Hc Hb]%orb_false_iff. by rewrite Hc, IH.
Qed.

Lemma split_byte_slash a b :
  existsb (byte_is 47) a = false -> split_byte 47 (a ++ bytes_of "/" ++ b) = a :: split_byte 47 b.
Proof.
  induction a as [|c a IH]; [done|]. cbn [existsb]. intros [Hc Ha]%orb_false_iff. cbn [app split_byte]. rewrite Hc.
  cbn [app] in IH. by rewrite IH.
Qed.

(** The route of an operation on an evaluation. *)
Lemma evaluation_served h x body id operation st :
  is_uuid id -> existsb (byte_is 47) (bytes_of operation) = false ->
  serve h x (MkRequest "POST" (evaluation_path id operation) body) st =
  let body := MaxBytesReader maxRequestBodyBytes body in
  if operation == "start" then
    let '(st, r) := on_evaluations (pds.Start marshal (world x) id) st in (st, writeServiceResult PgEvaluations.evaluations.MarshalEvaluation r)
  else if operation == "qualify-evidence" then qualifyEvidence h x body id st
  else if operation == "execute-rules" then executeRules h x body id st
  else if operation == "complete" then
    let '(st, r) := on_evaluations (pds.Complete marshal (world x) id) st in (st, writeServiceResult evidencebundle.MarshalTrace r)
  else (st, writeError StatusNotFound "not_found").
Proof.
  intros Hid Ho. unfold ServeHTTP. cbn [Method Path RequestBody]. cbv zeta.
  rewrite (bool_decide_eq_true_2 ("POST" = "POST") eq_refl), (bool_decide_eq_false_2 ("POST" = "GET")), !andb_false_r, !andb_true_r by done.
  rewrite (bool_decide_eq_false_2 (_ = "/v1/evaluations")), (bool_decide_eq_false_2 (_ = "/v1/evidence")) by (by intros [=]).
  unfold evaluation_path. rewrite !bytes_of_app, strip_app. unfold serveEvaluation.
  rewrite split_byte_slash, split_byte_clean by (done || apply UuidString_no_slash).
  rewrite !string_of_bytes_of, (bool_decide_eq_false_2 _ (UuidString_nonempty id)), Parse_UuidString by done. cbv zeta.
  by rewrite !andb_true_r, andb_false_r.
Qed.

(** C20: the bodies of POST requests, as the handler serves them. The body of a
    creation of an evaluation or of a submission of evidence is taken exactly when
    the connection delivers all of it, it is at most 1 MiB long, and it is one JSON
    document that decodes into the request as json.Unmarshal would, with nothing but
    white space after it; that of a qualification or an execution may also be blank.
    Any other body is answered 400 invalid_json or 413 request_body_too_large and
    changes nothing, and what a taken body does is decided by the value it decodes
    into. A start and a completion do not depend on their bodies. *)
Theorem accepted_bodies h x id st :
  is_uuid id ->
  let on path body := serve h x (MkRequest "POST" path body) st in
  takes_body (fun text => unmarshal.Unmarshal (decode_strict createFields) text zeroCreateRequest) (on "/v1/evaluations") st /\
  takes_body (fun text => unmarshal.Unmarshal (decode_strict ingestFields) text zeroIngestRequest) (on "/v1/evidence") st /\
  takes_body optional_object (on (evaluation_path id "qualify-evidence")) st /\
  takes_body optional_object (on (evaluation_path id "execute-rules")) st /\
  forall body body', on (evaluation_path id "start") body = on (evaluation_path id "start") body' /\
    on (evaluation_path id "complete") body = on (evaluation_path id "complete") body'.
Proof.
  intros Hid on. unfold on. split_and!.
  - refine (decoded_takes_body _ (fun s => decodeJSON (decode_strict createFields) s zeroCreateRequest) _ _ st _ _ (fun _ => eq_refl)).
    + intros s t. apply decodeJSON_whole.
    + intros t. cbv zeta. unfold on_evaluations.
      destruct (_ != _); [destruct (Parse _); [|by intros []]|];
        destruct (pds.CreateForPolicy _ _ _ _ _ _) as [s [snap|err]];
        try apply service_error_body; by apply success_body.
  - refine (decoded_takes_body _ (fun s => decodeJSON (decode_strict ingestFields) s zeroIngestRequest) _ _ st _ _ (fun _ => eq_refl)).
    + intros s t. apply decodeJSON_whole.
    + intros t. cbv beta. destruct (Parse _); [|by intros []].
      destruct (if IngestEvidenceID t != "" then _ else _); [|by intros []]. unfold on_repository.
      destruct (evidence.Ingest _ _ _ _ _) as [r [s|err]]; [by apply success_body|apply evidence_error_body].
  - refine (decoded_takes_body _ (fun s => decodeOptionalJSON (decode_strict emptyFields) s tt)
      (fun _ => match evidenceQualifier h with
                | None => (st, writeError StatusServiceUnavailable "evidence_qualifier_unavailable")
                | Some qualify =>
                    let '(st, r) := on_evaluations (qualify (repository st) (world x) id) st in
                    (st, writeServiceResult PgEvaluations.evaluations.MarshalEvaluation r)
                end) _ st _ _ _).
    + intros s t. apply decodeOptionalJSON_whole.
    + intros t. destruct (evidenceQualifier h) as [qualify|]; [|by intros []]. unfold on_evaluations.
      destruct (qualify _ _ _ _) as [s r]. apply service_result_body.
    + intros body. by rewrite evaluation_served.
  - refine (decoded_takes_body _ (fun s => decodeOptionalJSON (decode_strict emptyFields) s tt)
      (fun _ => match ruleExecutor h with
                | None => (st, writeError StatusServiceUnavailable "rule_executor_unavailable")
                | Some execute =>
                    let '(st, r) := on_evaluations (execute (repository st) (world x) id) st in
                    (st, writeServiceResult PgEvaluations.evaluations.MarshalEvaluation r)
                end) _ st _ _ _).
    + intros s t. apply decodeOptionalJSON_whole.
    + intros t. destruct (ruleExecutor h) as [execute|]; [|by intros []]. unfold on_evaluations.
      destruct (execute _ _ _ _) as [s r]. apply service_result_body.
    + intros body. by rewrite evaluation_served.
  - intros body body'. by rewrite !evaluation_served.
Qed.

(** The object that is found is served. *)
Lemma find_served h x body id o st :
  is_uuid id -> evidence.FindEvidence id (repository st) = Ok (Some o) ->
  serve h x (MkRequest "GET" ("/v1/evidence/" ++ UuidString id) body) st =
  (st, writeJSON StatusOK (evidencebundle.MarshalEvidence (evidence.snapshot o))).
Proof.
  intros Hid Ho. unfold ServeHTTP. cbn [Method Path RequestBody]. cbv zeta.
  rewrite (bool_decide_eq_false_2 (_ = "/healthz")), (bool_decide_eq_false_2 (_ = "/readyz")),
    (bool_decide_eq_false_2 ("GET" = "POST")), !andb_false_r by (by intros [=]). cbn [andb].
  rewrite bytes_of_app, (bool_decide_eq_true_2 ("GET" = "GET") eq_refl), strip_app. unfold findEvidence.
  rewrite string_of_bytes_of, (bool_decide_eq_false_2 _ (UuidString_nonempty id)), UuidString_no_slash, Parse_UuidString by done.
  cbn [orb]. unfold evidence.Find. by rewrite Ho, ObjectSnapshot_eq.
Qed.

(** A parsed UUID has sixteen bytes. *)
Lemma hex_decode_length n : forall l r, (length l <= n)%nat -> hex_decode l = Some r -> length l = (2 * length r)%nat.
Proof.
  induction n as [|n IH]; intros l r Hn H; destruct l as [|a [|b l]]; try done; [by injection H as <-|cbn in Hn; lia|by injection H as <-|].
  cbn in Hn. cbn [hex_decode] in H. destruct (hex_value a), (hex_value b); [|done..].
  destruct (hex_decode l) as [r'|] eqn:E; [|done]. injection H as <-. apply IH in E; cbn; lia.
Qed.

Lemma Parse_is_uuid s u : Parse s = Ok u -> is_uuid u.
Proof.
  unfold Parse. cbv zeta. destruct (negb _) eqn:E; [done|]. apply negb_false_iff, bool_decide_eq_true in E.
  destruct (hex_decode _) as [r|] eqn:Er; [|done]. intros [= <-]. apply (hex_decode_length _ _ _ (le_n _)) in Er. unfold is_uuid. lia.
Qed.

Lemma NewUUID_is_uuid random : is_uuid random -> is_uuid (NewUUID random).
Proof. unfold is_uuid, NewUUID, update_byte. by rewrite !length_alter. Qed.

(** What is answered with 201 to an ingestion was stored. *)
Lemma ingest_created (h : Handler) (x : Exchange) body (st st1 : State) resp :
  repository_ok (repository st) -> is_uuid (evidenceRandom x) -> ingestEvidence h x body st = (st1, resp) ->
  StatusCode resp = StatusCreated ->
  exists o, is_uuid (evidence.EvidenceID (evidence.snapshot o)) /\ repository_ok (repository st1) /\
    evidence.FindEvidence (evidence.EvidenceID (evidence.snapshot o)) (repository st1) = Ok (Some o) /\
    resp = writeJSON StatusCreated (evidencebundle.MarshalEvidence (evidence.snapshot o)).
Proof.
  intros Hr Hx. unfold ingestEvidence.
  assert (forall resp, refused resp -> StatusCode resp <> StatusCreated) as Hno.
  { intros resp0 H%refused_status E. rewrite E in H. by apply H. }
  destruct (decodeJSON _ _ _) as [request|err]; [|intros [= _ <-] E; by apply Hno in E; [|apply decode_error_refused]].
  destruct (Parse (IngestSessionID request)) as [session|]; [|by intros [= _ <-]].
  destruct (if IngestEvidenceID request != "" then _ else _) as [id|] eqn:Ei; [|by intros [= _ <-]]. unfold on_repository.
  pose proof (Ingest_keeps (evidenceService h) (receivedAt x) (evidenceRandom x) (ingestInput request id session) _ Hr) as [Hk _].
  destruct (evidence.Ingest _ _ _ _ _) as [r1 [s|err]] eqn:E; intros [= <- <-] Hs; [|by apply Hno in Hs; [|apply evidence_error_refused]].
  destruct (Ingest_found _ _ _ _ _ _ _ Hr E) as (o & -> & Ho & Hid). exists o. split_and!; [|done..].
  rewrite Hid. cbn [ingestInput evidence.InputEvidenceID]. destruct (id == NilUUID); [by apply NewUUID_is_uuid|].
  destruct (negb _) in Ei; [by apply Parse_is_uuid in Ei|]. by injection Ei as <-.
Qed.

(** C18: acknowledged evidence stays served: when a POST of evidence is answered
    201, its body is the JSON of a snapshot, and whatever requests of whatever
    clients the handler serves afterwards, a GET of that snapshot's ID is answered
    200 with the very same bytes. Proved against what the repository promises. *)
Theorem acknowledged_evidence_is_served h x body st st1 resp :
  repository_ok (repository st) -> is_uuid (evidenceRandom x) ->
  serve h x (MkRequest "POST" "/v1/evidence" body) st = (st1, resp) -> StatusCode resp = StatusCreated ->
  exists s, resp = writeJSON StatusCreated (evidencebundle.MarshalEvidence s) /\
    forall later x' body', let st2 := fold_left (handle h) later st1 in
      serve h x' (MkRequest "GET" ("/v1/evidence/" ++ UuidString (evidence.EvidenceID s)) body') st2 =
      (st2, MkResponse StatusOK (ContentType resp) (ResponseBody resp)).
Proof.
  intros Hr Hx H Hs. destruct (ingest_created h x (MaxBytesReader maxRequestBodyBytes body) st st1 resp Hr Hx H Hs)
    as (o & Hid & Hr1 & Ho & ->).
  exists (evidence.snapshot o). split; [done|]. intros later x' body'. cbv zeta.
  apply find_served; [done|]. by apply handle_keeps.
Qed.

End handler.

#[local] Instance ex_http_platform : evidencebundle.Platform := {|
  evidencebundle.zone_offset := ex_zone;
  evidencebundle.fixed_zone := fun _ _ => 1%positive;
  evidencebundle.map_range := ex_range;
  evidencebundle.sort_objects := fun l => l;
  evidencebundle.ed25519_Verify := fun _ _ _ => true
|}.

#[local] Instance ex_http_repository : evidence.Repository evidence.MemoryRepository :=
  evidence.MemoryRepository_repository ex_zone.

Definition ex_no_events : evaluation.DomainEvent -> option bytes := fun _ => Some [].

(** A handler whose rules are those of an operator that passes. *)
Definition ex_executor : RuleExecutor (S := pds.MemoryStore) (R := evidence.MemoryRepository) := fun r =>
  rules.Execute ex_no_events (rules.MkRuleExecutionService (fun id => evidence.Find id r)
    (rules.staticRuleOperatorResolver ∅)).

Definition ex_handler : Handler := MkHandler (S := pds.MemoryStore) (R := evidence.MemoryRepository)
  (evidence.MkService "evidence.v1" "cargoos-pds.dev")
  (Some (fun _ _ => Ok (Some ex_v3))) None (Some ex_executor) alwaysReady.

Definition ex_world : pds.World pds.MemoryStore :=
  pds.MkWorld _ (fun _ => utc_seconds 500) (fun _ => uuid_of 9) (fun _ m => m).

Definition ex_exchange : Exchange := MkExchange ex_world (uuid_of 11) (utc_seconds 500) (uuid_of 12).

Definition ex_state : State := MkState pds.NewMemoryStore evidence.NewMemoryRepository.

Definition ex_post (path body : string) : Request := MkRequest "POST" path (MkStream (json.text body) None).

Definition ex_answer (r : Request) (st : State) : Z * bytes :=
  let resp := (ServeHTTP ex_no_events ex_handler ex_exchange r st).2 in (StatusCode resp, ResponseBody resp).

Definition ex_error (status : Z) (code : string) : Z * bytes :=
  (status, json.text ("{'error':'" ++ code ++ "'}") ++ [ascii_of_N 10]).

(** ** Routing and decoding *)

Example http_samples :
  ex_answer (MkRequest "GET" "/healthz" (MkStream [] None)) ex_state = (200, json.text "{'status':'ok'}" ++ [ascii_of_N 10]) /\
  ex_answer (ex_post "/healthz" "") ex_state = ex_error 404 "not_found" /\
  ex_answer (ex_post "/v1/evaluations" "{'policy_id':'RELEASE','x':1}") ex_state = ex_error 400 "invalid_json" /\
  ex_answer (ex_post "/v1/evaluations" "{'policy_id':'RELEASE'} {}") ex_state = ex_error 400 "invalid_json" /\
  ex_answer (ex_post "/v1/evaluations" "{'session_id':'7'}") ex_state = ex_error 400 "invalid_session_id" /\
  (ex_answer (ex_post "/v1/evaluations" "{'policy_id':'RELEASE'}") ex_state).1 = 201 /\
  ex_answer (ex_post "/v1/evaluations/7/start" "") ex_state = ex_error 400 "invalid_evaluation_id" /\
  ex_answer (ex_post ("/v1/evaluations/" ++ UuidString (uuid_of 9) ++ "/start") "") ex_state = ex_error 404 "evaluation_not_found" /\
  ex_answer (ex_post ("/v1/evaluations/" ++ UuidString (uuid_of 9) ++ "/qualify-evidence") "") ex_state =
    ex_error 503 "evidence_qualifier_unavailable" /\
  ex_answer (ex_post ("/v1/evaluations/" ++ UuidString (uuid_of 9) ++ "/execute-rules") "[]") ex_state = ex_error 400 "invalid_json".
Proof. vm_compute. split_and!; reflexivity. Qed.

(** A session ID that is the nil UUID passes the parser and is refused by the
    aggregate, with an error the handler takes for its own. *)
Lemma nil_session_is_internal_error :
  ex_answer (ex_post "/v1/evaluations" "{'session_id':'00000000-0000-0000-0000-000000000000','policy_id':'RELEASE'}") ex_state =
    ex_error 500 "internal_error" /\
  ex_answer (MkRequest "GET" "/v1/evidence/00000000-0000-0000-0000-000000000000" (MkStream [] None)) ex_state =
    ex_error 500 "internal_error".
Proof. vm_compute. split; reflexivity. Qed.

(** A body of one object is taken for the rules of an evaluation, and a cut one is not. *)
Definition ex_rules_body (body : Stream) : State * Response :=
  ServeHTTP ex_no_events ex_handler ex_exchange (MkRequest "POST" (evaluation_path (uuid_of 9) "execute-rules") body) ex_state.

Lemma accepted_bodies_witness :
  ~ body_refused (ex_rules_body (MkStream (json.text " {} ") None)).2 /\
  (ex_rules_body (MkStream (json.text "{}") (Some ConnectionError))).1 = ex_state.
Proof.
  assert (Hid : is_uuid (uuid_of 9)) by (vm_compute; reflexivity).
  destruct (accepted_bodies (HR := ex_http_repository) ex_no_events ex_handler ex_exchange (uuid_of 9) ex_state Hid)
    as (_ & _ & _ & [Hr Ht _] & _). split.
  - apply (Ht (MkStream (json.text " {} ") None)); [split; [reflexivity|vm_compute; discriminate]|vm_compute; by eexists].
  - apply (Hr (MkStream (json.text "{}") (Some ConnectionError))). by intros [[H _] _].
Defined.

(** ** Refusals *)

Lemma ex_quiet : quiet ex_world.
Proof. by intros i m. Qed.

Lemma ex_clean : clean_handler ex_handler.
Proof. split; [done|]. intros execute r w id [= <-] Hw. by apply clean_Execute. Qed.

Definition ex_cut : Request := MkRequest "POST" "/v1/evidence" (MkStream (json.text "{'payload':") (Some ConnectionError)).

Lemma refusals_change_nothing_witness :
  StatusCode (ServeHTTP ex_no_events ex_handler ex_exchange ex_cut ex_state).2 = 400 /\
  (ServeHTTP ex_no_events ex_handler ex_exchange ex_cut ex_state).1 = ex_state.
Proof.
  assert (StatusCode (ServeHTTP ex_no_events ex_handler ex_exchange ex_cut ex_state).2 = 400) as E by (vm_compute; reflexivity).
  assert (400 <= StatusCode (ServeHTTP ex_no_events ex_handler ex_exchange ex_cut ex_state).2) as Hle by (rewrite E; discriminate).
  split; [exact E|].
  refine (proj2 (refusals_change_nothing (HR := ex_http_repository) (LR := MemoryRepository_laws ex_zone) ex_no_events ex_handler ex_exchange ex_cut ex_state _ _ ex_clean ex_quiet
    NewMemoryRepository_ok (surjective_pairing _)) (or_introl Hle)).
Defined.

(** ** Evidence *)

Definition ex_evidence_body : string :=
  "{'session_id':'" ++ UuidString (uuid_of 1) ++
  "','source_id':'CAM-1','source_type':'CAMERA','evidence_type':'POSITION','observed_at':'0001-01-01T00:05:00Z','payload':{'x':1}}".

Definition ex_submission : Request := ex_post "/v1/evidence" ex_evidence_body.

Definition ex_submitted : State * Response := ServeHTTP ex_no_events ex_handler ex_exchange ex_submission ex_state.

Lemma ex_submitted_created : StatusCode ex_submitted.2 = StatusCreated.
Proof. vm_compute. reflexivity. Qed.

(** The evidence is submitted twice and read. *)
Lemma acknowledged_evidence_is_served_witness :
  exists s, ex_submitted.2 = writeJSON StatusCreated (evidencebundle.MarshalEvidence s) /\
    let st2 := fold_left (handle ex_no_events ex_handler) [(ex_exchange, ex_submission)] ex_submitted.1 in
    ServeHTTP ex_no_events ex_handler ex_exchange
      (MkRequest "GET" ("/v1/evidence/" ++ UuidString (evidence.EvidenceID s)) (MkStream [] None)) st2 =
    (st2, MkResponse StatusOK (ContentType ex_submitted.2) (ResponseBody ex_submitted.2)).
Proof.
  destruct (acknowledged_evidence_is_served (HR := ex_http_repository) (LR := MemoryRepository_laws ex_zone) ex_no_events
    ex_handler ex_exchange (MkStream (json.text ex_evidence_body) None)
    ex_state ex_submitted.1 ex_submitted.2 NewMemoryRepository_ok eq_refl (surjective_pairing _) ex_submitted_created)
    as [s [Hs Hg]].
  exact (ex_intro _ s (conj Hs (Hg [(ex_exchange, ex_submission)] ex_exchange (MkStream [] None)))).
Defined.
