(* ===== verification/Commands.v ===== *)
(** * The commands of an operator ([cmd/])

    [pds-trust-key] registers and revokes keys, [pds-policy-admit] admits policies,
    [pds-policy-lifecycle] suspends and retires them: each reads one request, checks
    it, and carries it out against the database. What is in a request is only
    recorded when it is justified, and a key that was revoked admits nothing more. *)

From Stdlib Require Import Ascii String.
From S2P Require Import Prelude GoTime GoString GoCrypto GoJson GoJsonDecode GoUnmarshal GoTimeParse GoDecoder Policy PolicyRegistry.
From S2P Require Import PolicyAdmission PolicyCompiler PolicyExamples EvidenceStore Bundle Postgres PgRecords PgPolicies PgLedger PgSound PgOwnership.
Import postgres.

(** ** Lower case

    As [ToUpper]: ASCII letters, and the two runes outside ASCII whose lower case is
    an ASCII letter (U+0130 to i, U+212A to k). The result is only compared with the
    names of actions. *)

Definition lower_byte (c : ascii) : ascii := if byte_in 65 90 c then ascii_of_N (N_of_ascii c + 32) else c.

Fixpoint lower_bytes (l : bytes) : bytes :=
  match l with
  | [] => []
  | a :: l1 =>
      match l1 with
      | b :: (c :: l3) as l2 =>
          if byte_is 196 a && byte_is 176 b then "i"%char :: lower_bytes l2 else
          if byte_is 226 a && byte_is 132 b && byte_is 170 c then "k"%char :: lower_bytes l3 else
          lower_byte a :: lower_bytes l1
      | [b] => if byte_is 196 a && byte_is 176 b then ["i"%char] else lower_byte a :: lower_bytes l1
      | [] => [lower_byte a]
      end
  end.

(** [strings.ToLower] *)
Definition ToLower (s : string) : string := string_of (lower_bytes (bytes_of s)).

Example ToLower_samples :
  ToLower "ReTiRe" = "retire" /\ ToLower (string_of (bytes_of "RET" ++ map ascii_of_N [196; 176]%N ++ bytes_of "RE")) = "retire" /\
  ToLower (string_of (bytes_of "REVO" ++ map ascii_of_N [226; 132; 170]%N ++ bytes_of "E")) = "revoke" /\
  ToLower (string_of (map ascii_of_N [195; 132]%N)) = string_of (map ascii_of_N [195; 132]%N).
Proof. vm_compute. split_and!; reflexivity. Qed.

Module commands.

(** The errors of the commands; [StoreError] is one of the services behind them. *)
Inductive Error :=
  | ErrDatabaseURLRequired
  | ErrLifecycleUsage
  | ErrLifecycleStoreRequired
  | ErrTrustInputUsage
  | ErrTrustInputTooLarge
  | ErrInvalidTrustRequest
  | ErrTrustStoreRequired
  | ErrAdmissionInputUsage
  | ErrAdmissionTooLarge
  | ErrInvalidAdmission
  | ErrOpen
  | ErrRead (err : ReadError)
  | StoreError (err : postgres.Error).

(** ** Input *)

(** Standard input, or the file that is named; [files] are those that can be opened. *)
Definition trustInput (args : list string) (stdin : Stream) (files : string -> option Stream) : outcome Error Stream :=
  match args with
  | [] => Ok stdin
  | [name] =>
      if name == "-" then Ok stdin else
      match files name with
      | None => Err ErrOpen
      | Some file => Ok file
      end
  | _ => Err ErrTrustInputUsage
  end.

Definition admissionInput (args : list string) (stdin : Stream) (files : string -> option Stream) : outcome Error Stream :=
  match args with
  | [] => Ok stdin
  | [name] =>
      if name == "-" then Ok stdin else
      match files name with
      | None => Err ErrOpen
      | Some file => Ok file
      end
  | _ => Err ErrAdmissionInputUsage
  end.

(** [io.ReadAll(io.LimitReader(reader, n))] *)
Definition ReadLimited (n : Z) (reader : Stream) : outcome Error bytes :=
  if n <=? Z.of_nat (length (data reader)) then Ok (take (Z.to_nat n) (data reader)) else
  match ends reader with
  | Some err => Err (ErrRead err)
  | None => Ok (data reader)
  end.

(** One value that [dec] takes, and nothing but white space after it. *)
Definition DecodeOnly {T} (invalid : Error) (dec : unmarshal.decoder T) (payload : bytes) (t : T) : outcome Error T :=
  match DecodeStream dec (MkStream payload None) t with
  | Err _ => Err invalid
  | Ok (t, rest) =>
      match DecodeStream decode_any rest tt with
      | Err EOF => Ok t
      | _ => Err invalid
      end
  end.

(** A [[]byte]: base64, whose buffer is longer than what it holds, or an array. *)
Definition decode_byte : unmarshal.decoder ascii := fun v old =>
  match unmarshal.decode_uint64 v (Z.of_N (N_of_ascii old)) with
  | Some n => if n <=? 255 then Some (ascii_of_N (Z.to_N n)) else None
  | None => None
  end.

Definition decode_bytes : unmarshal.decoder (Slice ascii) := fun v old =>
  match v with
  | RString _ s =>
      match base64_Decode (string_of s) with
      | None => None
      | Some b => Some (MkSlice b (replicate (Nat.div (length s) 4 * 3 - length b) zero))
      end
  | _ => unmarshal.decode_slice zero decode_byte v old
  end.

Section commands.
Context {P : evidencebundle.Platform} {D : Driver}.

Abbreviation field_ name get dec := (name, unmarshal.into get (fset get) dec).
Abbreviation decode_time' := (decode_time evidencebundle.fixed_zone).
Abbreviation command := (action Connection Error).

Definition refuse {A} (err : Error) : command A := fun c => (c, Err err).
Definition accept {A} (r : outcome Error A) : command A := fun c => (c, r).

(** A call of the store. *)
Definition on_store {A} (m : call A) : command A := fun c => ((m c).1, omap_err StoreError (m c).2).

(** [sql.Open], [PingContext] and [NewStore]: the database is opened when it is first
    used, and its store is there. *)
Definition openStore : command unit := on_store (query (fun _ => tt)).

(** ** Keys ([pds-trust-key]) *)

Definition actionRegister : string := "register".
Definition actionRevoke : string := "revoke".

Record trustRequest := MkTrustRequest {
  TrustAction : string;
  TrustSignerID : string;
  TrustKeyID : string;
  TrustAlgorithm : string;
  TrustPublicKey : Slice ascii;
  TrustValidFrom : Time;
  TrustValidUntil : option Time;
  TrustRevokedAt : Time
}.

#[global] Instance trustRequest_eta : Eta trustRequest :=
  fun r => MkTrustRequest (TrustAction r) (TrustSignerID r) (TrustKeyID r) (TrustAlgorithm r) (TrustPublicKey r)
             (TrustValidFrom r) (TrustValidUntil r) (TrustRevokedAt r).

Definition zeroTrustRequest : trustRequest := MkTrustRequest "" "" "" "" nil_slice ZeroTime None ZeroTime.

Definition trustFields : list (string * unmarshal.decoder trustRequest) :=
  [field_ "action" TrustAction unmarshal.decode_string;
   field_ "signer_id" TrustSignerID unmarshal.decode_string;
   field_ "key_id" TrustKeyID unmarshal.decode_string;
   field_ "algorithm" TrustAlgorithm unmarshal.decode_string;
   field_ "public_key" TrustPublicKey decode_bytes;
   field_ "valid_from" TrustValidFrom decode_time';
   field_ "valid_until" TrustValidUntil (unmarshal.decode_pointer ZeroTime decode_time');
   field_ "revoked_at" TrustRevokedAt decode_time'].

Definition maxTrustRequestBytes : Z := Z.shiftl 1 20.

Definition validateTrustRequest (r : trustRequest) : option Error :=
  if (TrustSignerID r == "") || (TrustKeyID r == "") then Some ErrInvalidTrustRequest else
  if TrustAction r == actionRegister then
    if (TrustAlgorithm r != policy.AlgorithmEd25519) || (length (items (TrustPublicKey r)) != 32%nat) ||
       IsZero (TrustValidFrom r) || negb (IsZero (TrustRevokedAt r)) ||
       match TrustValidUntil r with None => false | Some until => negb (After until (TrustValidFrom r)) end
    then Some ErrInvalidTrustRequest else None
  else if TrustAction r == actionRevoke then
    if (TrustAlgorithm r != "") || (length (items (TrustPublicKey r)) != 0%nat) || negb (IsZero (TrustValidFrom r)) ||
       bool_decide (is_Some (TrustValidUntil r)) || IsZero (TrustRevokedAt r)
    then Some ErrInvalidTrustRequest else None
  else Some ErrInvalidTrustRequest.

Definition decodeTrustRequest (reader : option Stream) : outcome Error trustRequest :=
  match reader with
  | None => Err ErrInvalidTrustRequest
  | Some reader =>
      let! payload := ReadLimited (maxTrustRequestBytes + 1) reader in
      if maxTrustRequestBytes <? Z.of_nat (length payload) then Err ErrTrustInputTooLarge else
      let! r := DecodeOnly ErrInvalidTrustRequest (decode_strict trustFields) payload zeroTrustRequest in
      let r := r <| TrustAction := ToLower (TrimSpace (TrustAction r)) |>
                 <| TrustSignerID := TrimSpace (TrustSignerID r) |>
                 <| TrustKeyID := TrimSpace (TrustKeyID r) |>
                 <| TrustAlgorithm := TrimSpace (TrustAlgorithm r) |> in
      match validateTrustRequest r with
      | Some err => Err err
      | None => Ok r
      end
  end.

(** [trustStore] *)
Record trustStore := MkTrustStore {
  AddVerificationKey : policy.VerificationKey -> call unit;
  RevokeVerificationKey : string -> string -> Time -> call unit
}.

Definition utcTime (value : option Time) : option Time :=
  match value with
  | None => None
  | Some t => Some (UTC t)
  end.

Definition executeTrustRequest (store : option trustStore) (r : trustRequest) : command unit :=
  match store with
  | None => refuse ErrTrustStoreRequired
  | Some store =>
      if TrustAction r == actionRegister then
        on_store (AddVerificationKey store
          (policy.MkVerificationKey (TrustSignerID r) (TrustKeyID r) (TrustAlgorithm r) (items (TrustPublicKey r))
             (UTC (TrustValidFrom r)) (utcTime (TrustValidUntil r)) None))
      else if TrustAction r == actionRevoke then
        on_store (RevokeVerificationKey store (TrustSignerID r) (TrustKeyID r) (UTC (TrustRevokedAt r)))
      else refuse ErrInvalidTrustRequest
  end.

(** The store of the database; [others] and [others'] are what other clients do
    between the statements of a call. *)
Definition databaseKeys (others others' : Database -> Database) : trustStore :=
  MkTrustStore (records.AddVerificationKey others) (records.RevokeVerificationKey others others').

(** [run] of [pds-trust-key], with the request it logs. *)
Definition runTrust (others others' : Database -> Database) (databaseURL : string) (args : list string) (stdin : Stream)
    (files : string -> option Stream) : command trustRequest :=
  if databaseURL == "" then refuse ErrDatabaseURLRequired else
  do! reader <- accept (trustInput args stdin files);
  do! request <- accept (decodeTrustRequest (Some reader));
  do! _ <- openStore;
  do! _ <- executeTrustRequest (Some (databaseKeys others others')) request;
  aret request.

(** ** Admission ([pds-policy-admit]) *)

Record admissionRequest := MkAdmissionRequest {
  AdmissionPolicy : evidencebundle.snapshotJSON;
  AdmissionSignature : policy.Signature;
  AdmissionApproval : policy.ApprovalRecord;
  AdmissionVerifiedAt : Time;
  AdmissionActivatedAt : Time
}.

#[global] Instance admissionRequest_eta : Eta admissionRequest :=
  fun r => MkAdmissionRequest (AdmissionPolicy r) (AdmissionSignature r) (AdmissionApproval r) (AdmissionVerifiedAt r)
             (AdmissionActivatedAt r).

Definition zeroAdmissionRequest : admissionRequest :=
  MkAdmissionRequest evidencebundle.zeroSnapshotJSON (policy.MkSignature "" "" "" ZeroTime "")
    (policy.MkApprovalRecord "" "" "" "" ZeroTime) ZeroTime ZeroTime.

Definition signatureFields : list (string * unmarshal.decoder policy.Signature) :=
  [field_ "signer_id" policy.SignerID unmarshal.decode_string;
   field_ "key_id" policy.KeyID unmarshal.decode_string;
   field_ "algorithm" policy.Algorithm unmarshal.decode_string;
   field_ "signed_at" policy.SignedAt decode_time';
   field_ "value" policy.Value unmarshal.decode_string].

Definition approvalFields : list (string * unmarshal.decoder policy.ApprovalRecord) :=
  [field_ "policy_id" policy.ApprovalPolicyID unmarshal.decode_string;
   field_ "version" policy.ApprovalVersion unmarshal.decode_string;
   field_ "policy_hash" policy.ApprovalPolicyHash unmarshal.decode_string;
   field_ "approved_by" policy.ApprovedBy unmarshal.decode_string;
   field_ "approved_at" policy.ApprovedAt decode_time'].

(** No field is unknown at any depth. *)
Definition admissionFields : list (string * unmarshal.decoder admissionRequest) :=
  [field_ "policy" AdmissionPolicy (decode_strict evidencebundle.snapshotFields);
   field_ "signature" AdmissionSignature (decode_strict signatureFields);
   field_ "approval" AdmissionApproval (decode_strict approvalFields);
   field_ "verified_at" AdmissionVerifiedAt decode_time';
   field_ "activated_at" AdmissionActivatedAt decode_time'].

Definition maxAdmissionRequestBytes : Z := Z.shiftl 1 20.

Definition decodeAdmissionRequest (reader : option Stream) : outcome Error admissionRequest :=
  match reader with
  | None => Err ErrInvalidAdmission
  | Some reader =>
      let! payload := ReadLimited (maxAdmissionRequestBytes + 1) reader in
      if maxAdmissionRequestBytes <? Z.of_nat (length payload) then Err ErrAdmissionTooLarge else
      let! r := DecodeOnly ErrInvalidAdmission (decode_strict admissionFields) payload zeroAdmissionRequest in
      match policy.Rehydrate (evidencebundle.fromJSON (AdmissionPolicy r)) with
      | Err _ => Err ErrInvalidAdmission
      | Ok _ => Ok r
      end
  end.

(** The keys and the registry are interfaces; [lift] is how they report an error of
    the package [policy]. *)
Definition admit_ {C E} (lift : policy.Error -> E) (r : admissionRequest)
    (trustStore : option (string -> string -> action C E policy.VerificationKey))
    (registry : option (option policy.ActivatedVersion -> action C E unit)) : action C E policy.ActivatedVersion := fun c =>
  match policy.Rehydrate (evidencebundle.fromJSON (AdmissionPolicy r)) with
  | Err err => (c, Err (lift err))
  | Ok version =>
      match policy.NewVerifier trustStore with
      | Err err => (c, Err (lift err))
      | Ok keys =>
          match policy.NewAdmissionService lift (Some (policy.Verify evidencebundle.ed25519_Verify lift keys))
                  (Some (fun v => lift <$> compiler.documentValidator evidencebundle.map_range v)) registry with
          | Err err => (c, Err (lift err))
          | Ok service =>
              policy.Admit service (Some version) (AdmissionSignature r) (AdmissionApproval r) (AdmissionVerifiedAt r)
                (AdmissionActivatedAt r) c
          end
      end
  end.

(** [run] of [pds-policy-admit], with the version it logs. *)
Definition runAdmission (databaseURL : string) (args : list string) (stdin : Stream) (files : string -> option Stream)
    : command policy.ActivatedVersion :=
  if databaseURL == "" then refuse ErrDatabaseURLRequired else
  do! reader <- accept (admissionInput args stdin files);
  do! request <- accept (decodeAdmissionRequest (Some reader));
  do! _ <- openStore;
  on_store (admit_ PolicyError request (Some records.ResolveVerificationKey) (Some policies.Add)).

(** ** Suspension and retirement ([pds-policy-lifecycle]) *)

Definition actionSuspend : string := "suspend".
Definition actionRetire : string := "retire".

Record lifecycleRequest := MkLifecycleRequest {
  LifecycleAction : string;
  LifecyclePolicyID : string;
  LifecycleVersion : string;
  LifecycleEventAt : Time
}.

(** [time.Parse] with [RFC3339Nano] takes what it takes with [RFC3339]. *)
Definition parseLifecycleRequest (args : list string) : outcome Error lifecycleRequest :=
  match args with
  | [a; p; v; t] =>
      let action := ToLower (TrimSpace a) in
      let policyID := TrimSpace p in
      let version := TrimSpace v in
      if negb ((action == actionSuspend) || (action == actionRetire)) then Err ErrLifecycleUsage else
      if (policyID == "") || (version == "") then Err ErrLifecycleUsage else
      match ParseRFC3339 evidencebundle.fixed_zone (bytes_of (TrimSpace t)) with
      | None => Err ErrLifecycleUsage
      | Some eventAt =>
          if IsZero eventAt then Err ErrLifecycleUsage else
          Ok (MkLifecycleRequest action policyID version (UTC eventAt))
      end
  | _ => Err ErrLifecycleUsage
  end.

(** [lifecycleStore] *)
Record lifecycleStore := MkLifecycleStore {
  Suspend : string -> string -> Time -> call unit;
  Retire : string -> string -> Time -> call unit
}.

Definition executeLifecycleRequest (store : option lifecycleStore) (r : lifecycleRequest) : command unit :=
  match store with
  | None => refuse ErrLifecycleStoreRequired
  | Some store =>
      if LifecycleAction r == actionSuspend then
        on_store (Suspend store (LifecyclePolicyID r) (LifecycleVersion r) (LifecycleEventAt r))
      else if LifecycleAction r == actionRetire then
        on_store (Retire store (LifecyclePolicyID r) (LifecycleVersion r) (LifecycleEventAt r))
      else refuse ErrLifecycleUsage
  end.

(** [run] of [pds-policy-lifecycle], with the request it logs. *)
Definition runLifecycle (databaseURL : string) (args : list string) : command lifecycleRequest :=
  if databaseURL == "" then refuse ErrDatabaseURLRequired else
  do! request <- accept (parseLifecycleRequest args);
  do! _ <- openStore;
  do! _ <- executeLifecycleRequest (Some (MkLifecycleStore policies.Suspend policies.Retire)) request;
  aret request.

End commands.

End commands.

(** ** The steps of a command *)

Section properties.
Context {P : evidencebundle.Platform} {D : Driver}.
Import commands.

(** A key that was revoked once, at or before a time. *)
Definition revoked_by (id : string * string) (at_ : Time) (d : Database) : Prop :=
  is_Some (trusted_verification_keys d !! id) /\
  exists t, trust_key_revocations d !! id = Some t /\ instant t <= instant at_.

(** The version and its activation are put in the database, where they are not there
    yet, and nothing else changes. *)
Definition installed (v : policy.Version) (approvedBy : string) (d d' : Database) : Prop :=
  let s := policy.VersionSnapshot v in
  let id := (policy.PolicyID s, policy.VersionName s) in
  exists row e events,
    d' = d <| policy_versions := <[id := row]> (policy_versions d) |> <| policy_lifecycle_events := events |> /\
    (policy_versions d !! id = None \/ policy_versions d !! id = Some row) /\
    policy_hash row = policy.Hash s /\ is_Some (signature row) /\
    (events = policy_lifecycle_events d \/ events = e :: policy_lifecycle_events d) /\
    policies.activation id.1 id.2 d' = Some e /\ approved_by e = Some approvedBy.

(** What an admission checks, against the keys of the database. *)
Record justified (r : admissionRequest) (v : policy.Version) (key : policy.VerificationKey) (d : Database) : Prop := {
  ju_version : policy.Rehydrate (evidencebundle.fromJSON (AdmissionPolicy r)) = Ok v;
  ju_key : records.storedKey (TrimSpace (policy.SignerID (AdmissionSignature r)), TrimSpace (policy.KeyID (AdmissionSignature r))) d =
    Some key;
  ju_authentic : authentic evidencebundle.ed25519_Verify key v (AdmissionSignature r) (AdmissionVerifiedAt r);
  ju_document : compiler.documentValidator evidencebundle.map_range v = None;
  ju_approval : TrimSpace (policy.ApprovalPolicyHash (AdmissionApproval r)) = policy.Hash (policy.VersionSnapshot v) /\
    TrimSpace (policy.ApprovedBy (AdmissionApproval r)) <> "";
  ju_order : instant (policy.ApprovedAt (AdmissionApproval r)) <= instant (AdmissionActivatedAt r) /\
    instant (AdmissionVerifiedAt r) <= instant (AdmissionActivatedAt r)
}.

(** The request that a command is given. *)
Definition requested (args : list string) (stdin : Stream) (files : string -> option Stream) (r : admissionRequest) : Prop :=
  exists reader, admissionInput args stdin files = Ok reader /\ decodeAdmissionRequest (Some reader) = Ok r.

Lemma command_bind {A B} (m : action Connection Error A) (k : A -> action Connection Error B) c c' r :
  abind m k c = (c', r) ->
  (exists err, m c = (c', Err err) /\ r = Err err) \/ (exists a c1, m c = (c1, Ok a) /\ k a c1 = (c', r)).
Proof. unfold abind. destruct (m c) as [c1 [a|err]]; [intros H|intros [= <- <-]]; eauto. Qed.

Lemma on_store_result {A} (m : call A) c c' r :
  on_store m c = (c', r) -> exists r', m c = (c', r') /\ r = omap_err StoreError r'.
Proof. unfold on_store. destruct (m c) as [c1 r']. intros [= <- <-]. eauto. Qed.

Lemma openStore_frame w d w' d' r : openStore (w, d) = ((w', d'), r) -> d' = d.
Proof. intros (r' & H & _)%on_store_result. by apply query_cases in H as [-> _]. Qed.

Lemma ResolveVerificationKey_result signer key w d w' d' r :
  records.ResolveVerificationKey signer key (w, d) = ((w', d'), r) ->
  d' = d /\ forall k, r = Ok k -> records.storedKey (TrimSpace signer, TrimSpace key) d = Some k.
Proof.
  unfold records.ResolveVerificationKey, abind. destruct (query _ (w, d)) as [[w1 d1] [o|err]] eqn:E;
    apply query_cases in E as [-> [[= ->]|[= ->]]]; [|by intros [= <- <- <-]].
  destruct (records.storedKey _ d) as [k|]; intros [= <- <- <-]; [|done]. split; [done|]. by intros ? [= <-].
Qed.

(** ** Admission *)

Lemma Activate_approval vv v approval at_ a :
  policy.verifiedVersion vv = Some v -> policy.Activate (Some vv) approval at_ = Ok a ->
  policy.ApprovedBy (policy.approval a) = TrimSpace (policy.ApprovedBy approval).
Proof.
  unfold policy.Activate. intros ->. cbv zeta. repeat (case_match; [discriminate|]). by intros [= <-].
Qed.

Lemma insertActivation_installs s approval at_ w d w' d' :
  policies.insertActivation s approval at_ (w, d) = ((w', d'), Ok tt) ->
  exists e events, d' = d <| policy_lifecycle_events := events |> /\
    (events = policy_lifecycle_events d \/ events = e :: policy_lifecycle_events d) /\
    policies.activation (policy.PolicyID s) (policy.VersionName s) d' = Some e /\
    approved_by e = Some (policy.ApprovedBy approval).
Proof.
  intros (existing & [w1 d1] & H1 & H)%bind_ok. apply query_cases in H1 as [-> [[= ->]|[=]]].
  destruct (policies.activation _ _ d) as [e|] eqn:Ea.
  - destruct (approved_by e) as [by_|] eqn:Eb, (approved_at e); try done.
    destruct (TimeEqual _ _ && (by_ == _)) eqn:E1; cbn [andb] in H; [|done]. destruct (TimeEqual t _); [|done].
    apply andb_true_iff in E1 as [_ E1%bool_decide_eq_true]. injection H as _ <-. exists e, (policy_lifecycle_events d).
    split_and!; [by destruct d|by left|done|by rewrite Eb, E1].
  - apply statement_ok in H. unfold policies.insertEvent in H. cbv zeta in H. destruct (_ || _); [done|].
    destruct (policy_versions d !! _); [|done]. injection H as <-.
    unfold policies.activation. cbn. unfold policies.event_of_version. cbn. rewrite !bool_decide_eq_true_2 by done.
    eexists _, _. split_and!; [reflexivity|by right|reflexivity|reflexivity].
Qed.

Lemma Add_installs a v w d w' d' r :
  policy.verifiedVersion (policy.verified a) = Some v -> policies.Add (Some a) (w, d) = ((w', d'), r) ->
  (r <> Ok tt /\ d' = d) \/ installed v (policy.ApprovedBy (policy.approval a)) d d'.
Proof.
  unfold policies.Add, installed. intros ->. cbv zeta. generalize (policy.VersionSnapshot v) as s. intros s. unfold abind, lift.
  destruct (policies.encodePolicySnapshot s) as [payload|err]; [|intros [= _ <- <-]; by left].
  intros [(err & -> & ->)|(w1 & w2 & [] & H & _)]%transaction_cases; [by left|]. right.
  apply bind_ok in H as ([] & [w3 d3] & H1 & H). apply query_cases in H1 as [-> _].
  apply bind_ok in H as (existing & [w4 d4] & H2 & H). apply query_cases in H2 as [-> [[= ->]|[=]]].
  apply bind_ok in H as ([] & [w5 d5] & H3 & H). apply insertActivation_installs in H as (e & events & Ed & Hev & Ha & Hb).
  destruct (policy_versions d !! (policy.PolicyID s, policy.VersionName s)) as [row|] eqn:Er.
  - destruct (_ && bool_decide _) eqn:Eh; [|done]. apply andb_true_iff in Eh as [Eh%bool_decide_eq_true Es%bool_decide_eq_true].
    injection H3 as _ <-. exists row, e, events. split_and!; [|by right|done..]. rewrite insert_id by done. by destruct d.
  - apply bind_ok in H3 as (inserted & [w6 d6] & H4 & H3). apply statement_ok in H4. destruct inserted; [|done].
    injection H3 as _ <-. unfold policies.insertVersion in H4. cbv zeta in H4. destruct (_ || _); [done|].
    rewrite Er in H4. destruct (existsb _ _); [done|]. injection H4 as <-. eexists _, e, events.
    split_and!; [exact Ed|by left|done|by eexists|exact Hev|exact Ha|exact Hb].
Qed.

(** An admission only reads, or puts a version in the database that every check was
    made for. *)
Lemma admit_result r w d w' d' res :
  admit_ PolicyError r (Some records.ResolveVerificationKey) (Some policies.Add) (w, d) = ((w', d'), res) ->
  ((forall a, res <> Ok a) /\ d' = d) \/
  exists v key, justified r v key d /\ installed v (TrimSpace (policy.ApprovedBy (AdmissionApproval r))) d d' /\
    forall a, res = Ok a -> policy.verifiedVersion (policy.verified a) = Some v.
Proof.
  unfold admit_. destruct (policy.Rehydrate _) as [v|err] eqn:Hr; [|intros [= _ <- <-]; left; by split].
  cbn [policy.NewVerifier policy.NewAdmissionService].
  intros [[[err ->] Hc]|([w1 d1] & vv & a & r2 & Hv & Hval & Ha & Ho & Hadd & ->)]%Admit_cases.
  - left. split; [done|]. destruct Hc as [[= _ ->]|Hc]; [done|]. cbn [policy.verifier] in Hc.
    destruct (policy.Verify _ _ _ _ _ _ (w, d)) as [[w1 d1] res] eqn:Hv. injection Hc as _ ->.
    destruct (Verify_cases _ _ _ _ _ _ _ _ _ Hv) as [[= _ ->]|E]; [done|].
    destruct (records.ResolveVerificationKey _ _ (w, d)) as [[w2 d2] k] eqn:Hk. injection E as _ ->.
    by apply ResolveVerificationKey_result in Hk as [-> _].
  - cbn [policy.verifier policy.validator policy.registry] in *.
    apply Verify_ok in Hv as (v' & key & [= <-] & Hvv & _ & Hk & Hauth & Hz).
    apply ResolveVerificationKey_result in Hk as [-> Hk]. rewrite !TrimSpace_idemp in Hk. specialize (Hk _ eq_refl).
    rewrite Hvv in Hval. cbn [option_bind] in Hval. pose proof (Activate_approval _ _ _ _ _ Hvv Ha) as Hby.
    apply (Activate_ok _ v) in Ha as (Hav & Hh & Hn & Hat & Hz2); [|done].
    apply (Add_installs _ v) in Hadd as [[Hr2 ->]|Hi]; [| |by rewrite Hav].
    + left. split; [|done]. destruct r2 as [[]|err]; [done|]. by intros b.
    + right. rewrite Hby in Hi. exists v, key. split_and!; [|done|].
      * split; [done|exact Hk|exact Hauth| |by split|split; [done|by apply Ho]]. by destruct (compiler.documentValidator _ v).
      * intros b. destruct r2 as [[]|err]; [|done]. intros [= <-]. by rewrite Hav.
Qed.

(** What [pds-policy-admit] does, from its arguments. *)
Lemma runAdmission_result url args stdin files w d w' d' res :
  runAdmission url args stdin files (w, d) = ((w', d'), res) ->
  ((forall a, res <> Ok a) /\ d' = d) \/
  exists r v key, requested args stdin files r /\ justified r v key d /\
    installed v (TrimSpace (policy.ApprovedBy (AdmissionApproval r))) d d' /\
    forall a, res = Ok a -> policy.verifiedVersion (policy.verified a) = Some v.
Proof.
  unfold runAdmission. destruct (url == ""); [intros [= _ <- <-]; left; by split|].
  intros [(err & [= _ -> _] & ->)|(reader & ? & [= <- Hin] & H)]%command_bind; [left; by split|].
  apply command_bind in H as [(err & [= _ -> _] & ->)|(r & ? & [= <- Hr] & H)]; [left; by split|].
  apply command_bind in H as [(err & H%openStore_frame & ->)|([] & [w1 d1] & ->%openStore_frame & H)]; [left; by split|].
  apply on_store_result in H as (r' & [[Hn ->]|(v & key & Hj & Hi & Ha)]%admit_result & ->).
  - left. split; [|done]. intros a. destruct r' as [b|]; [by destruct (Hn b)|done].
  - right. exists r, v, key. split_and!; [by exists reader|done..|]. intros a. destruct r' as [b|]; [|done]. intros [= <-].
    by apply Ha.
Qed.

(** C16: the admission command, from its arguments to the database. A run of pds-
    policy-admit, whatever is answered to its statements, changes nothing, or puts
    one version in the database: the one of its request, with a signature that a key
    of the database verifies and that is live at the time of the verification, a
    document that compiles, and an approval of its hash before the activation.
    Success is only reported of such a version. *)
Theorem admission_command_is_sound url args stdin files w d w' d' res :
  runAdmission url args stdin files (w, d) = ((w', d'), res) ->
  ((forall a, res <> Ok a) /\ d' = d) \/
  exists r v key, requested args stdin files r /\ justified r v key d /\
    installed v (TrimSpace (policy.ApprovedBy (AdmissionApproval r))) d d' /\
    forall a, res = Ok a -> policy.verifiedVersion (policy.verified a) = Some v.
Proof. apply runAdmission_result. Qed.

(** ** Revocation *)

Lemma revoked_storedKey id at_ d key :
  revoked_by id at_ d -> records.storedKey id d = Some key ->
  exists t, policy.RevokedAt key = Some t /\ instant t <= instant at_.
Proof.
  intros [[row Hrow] (t & Ht & Hle)]. unfold records.storedKey. rewrite Hrow, Ht. intros [= <-]. by exists (UTC t).
Qed.

Lemma revoked_stays id at_ d d' : permanent d d' -> revoked_by id at_ d -> revoked_by id at_ d'.
Proof.
  intros [_ _ _ _ Hk Hr _ _ _ _] [[row Hrow] (t & Ht & Hle)]. split; [by exists row; eapply lookup_weaken|].
  exists t. split; [by eapply lookup_weaken|done].
Qed.

Context {L : DriverLaws D}.

Lemma column_before t : instant (column t) <= instant t.
Proof. rewrite column_instant. unfold TruncateMicrosecond, Microsecond. cbn [instant]. lia. Qed.

(** A revocation that succeeds is in the database. *)
Lemma RevokeVerificationKey_revokes others others' signer key at_ w d w' d' :
  records.RevokeVerificationKey others others' signer key at_ (w, d) = ((w', d'), Ok tt) ->
  revoked_by (TrimSpace signer, TrimSpace key) at_ d'.
Proof.
  unfold records.RevokeVerificationKey. destruct (IsZero at_); [done|].
  intros (k & [w1 d1] & H1 & H)%bind_ok. apply ResolveVerificationKey_result in H1 as [-> Hk].
  specialize (Hk k eq_refl). unfold records.storedKey in Hk.
  destruct (trusted_verification_keys d !! _) as [row|] eqn:Er; [|done]. injection Hk as <-.
  cbn [policy.KeySignerID policy.KeyKeyID policy.ValidFrom fst snd] in H. destruct (Before _ _); [done|].
  apply bind_ok in H as ([] & [w2 d2] & [= <- <-] & H). apply bind_ok in H as (n & [w3 d3] & H3 & H).
  apply statement_ok in H3. destruct (n =? 1) eqn:En.
  - injection H as _ <-. apply Z.eqb_eq in En as ->. unfold records.insertRevocation in H3.
    destruct (trusted_verification_keys (others d) !! _) as [row'|] eqn:Er'; [|done]. destruct (Before _ _); [done|].
    destruct (trust_key_revocations (others d) !! _); [done|]. injection H3 as <-. split; [by exists row'|].
    exists (column (UTC at_)). split; [apply lookup_insert_eq|exact (column_before (UTC at_))].
  - apply bind_ok in H as ([] & [w4 d4] & [= <- <-] & H).
    destruct (records.ResolveVerificationKey _ _ (w3, others' d3)) as [[w5 d5] [k|err]] eqn:E5; [|done].
    apply ResolveVerificationKey_result in E5 as [-> Hk]. specialize (Hk k eq_refl). rewrite !TrimSpace_idemp in Hk.
    destruct (policy.RevokedAt k) as [t|] eqn:Et; [|done]. destruct (TimeEqual t _) eqn:E; [|done]. injection H as _ <-.
    unfold records.storedKey in Hk. destruct (trusted_verification_keys (others' d3) !! _) as [row'|] eqn:Er'; [|done].
    injection Hk as <-. cbn in Et. destruct (trust_key_revocations (others' d3) !! _) as [t'|] eqn:Ev; [|done].
    injection Et as <-. split; [by exists row'|]. exists t'. split; [done|]. apply Z.eqb_eq in E. cbn in E. lia.
Qed.

(** A run of [pds-trust-key] that revokes a key. *)
Lemma runTrust_revokes others others' url args stdin files w d w' d' r :
  runTrust others others' url args stdin files (w, d) = ((w', d'), Ok r) -> TrustAction r = actionRevoke ->
  revoked_by (TrimSpace (TrustSignerID r), TrimSpace (TrustKeyID r)) (TrustRevokedAt r) d'.
Proof.
  unfold runTrust. destruct (url == ""); [done|]. intros H Ha.
  apply command_bind in H as [(err & _ & [=])|(reader & ? & [= <- _] & H)].
  apply command_bind in H as [(err & _ & [=])|(r' & ? & [= <- _] & H)].
  apply command_bind in H as [(err & _ & [=])|([] & [w1 d1] & ->%openStore_frame & H)].
  apply command_bind in H as [(err & _ & [=])|([] & [w2 d2] & H & [= _ -> ->])].
  cbn [executeTrustRequest databaseKeys] in H. rewrite Ha in H. cbn -[records.RevokeVerificationKey] in H.
  apply on_store_result in H as ([[]|err] & H & [=]). by apply RevokeVerificationKey_revokes in H.
Qed.

(** Requests of the store, one after the other. *)
Definition served (calls : list (list Answer * Request)) (d : Database) : Database := fold_left (serve perform) calls d.

Lemma served_permanent calls d : permanent d (served calls d).
Proof.
  revert d. induction calls as [|[w q] calls IH]; intros d; [reflexivity|]. cbn. etrans; [|apply IH].
  unfold serve. cbn [fst snd]. destruct (perform q (w, d)) as [[w' d'] r] eqn:E. by apply perform_permanent in E.
Qed.

(** C17: a key that pds-trust-key revoked admits nothing more. Whatever requests the
    store serves after the revocation, pds-policy-admit refuses a policy whose
    signature is of that key and was made, or is to be verified, at or after the
    time of the revocation, and changes nothing. *)
Theorem revoked_key_admits_nothing others others' url args stdin files w d w' d' r calls url2 args2 stdin2 files2 w2 w2' d2' res request :
  runTrust others others' url args stdin files (w, d) = ((w', d'), Ok r) -> TrustAction r = actionRevoke ->
  runAdmission url2 args2 stdin2 files2 (w2, served calls d') = ((w2', d2'), res) ->
  requested args2 stdin2 files2 request ->
  TrimSpace (policy.SignerID (AdmissionSignature request)) = TrimSpace (TrustSignerID r) ->
  TrimSpace (policy.KeyID (AdmissionSignature request)) = TrimSpace (TrustKeyID r) ->
  instant (TrustRevokedAt r) <= instant (policy.SignedAt (AdmissionSignature request)) \/
    instant (TrustRevokedAt r) <= instant (AdmissionVerifiedAt request) ->
  (exists err, res = Err err) /\ d2' = served calls d'.
Proof.
  intros Ht Ha Hadmit (reader & Hin & Hdec) Hs Hk Hle. apply runTrust_revokes in Ht; [|done].
  apply runAdmission_result in Hadmit as [[Hn ->]|(r' & v & key & (reader' & Hin' & Hdec') & Hj & _)].
  - split; [|done]. destruct res as [a|err]; [by destruct (Hn a)|by exists err].
  - exfalso. assert (r' = request) as -> by congruence. pose proof (ju_key _ _ _ _ Hj) as Hkey. rewrite Hs, Hk in Hkey.
    eapply revoked_storedKey in Hkey as (t & Et & Htt); [|eapply revoked_stays; [apply served_permanent|exact Ht]].
    destruct (ju_authentic _ _ _ _ Hj) as (_ & _ & _ & _ & [_ H1] & [_ H2] & _).
    specialize (H1 _ Et). specialize (H2 _ Et). lia.
Qed.

End properties.

(** ** Commands on concrete inputs

    The key of an authority is registered, a policy that it signed is admitted, and
    the key is revoked. Every signature verifies over a digest. *)

#[local] Instance ex_command_platform : evidencebundle.Platform := {|
  evidencebundle.zone_offset := ex_zone;
  evidencebundle.fixed_zone := fun _ _ => 1%positive;
  evidencebundle.map_range := ex_range;
  evidencebundle.sort_objects := fun l => l;
  evidencebundle.ed25519_Verify := ex_ed25519
|}.

#[local] Instance ex_command_driver : Driver := {|
  column := fun t => MkTime (instant (TruncateMicrosecond t)) (ZoneLoc 1);
  jsonb := fun b => b;
  collate := fun s t => bool_decide (String.le s t);
  returning := fun _ l => l
|}.

#[local] Instance ex_command_laws : DriverLaws ex_command_driver.
Proof.
  split; cbn [column collate returning ex_command_driver]; intros; try done; try by apply bool_decide_unpack.
  - apply orb_true_iff. rewrite !bool_decide_eq_true. apply (total String.le).
  - apply bool_decide_eq_true in H, H0. by apply (anti_symm String.le).
  - apply bool_decide_eq_true in H, H0. apply bool_decide_eq_true. by etrans.
Qed.

Definition ex_stream (s : string) : Stream := MkStream (json.text s) None.

Definition ex_public_key : string := string_of (replicate 43 (ascii_of_N 65) ++ bytes_of "=").

Definition ex_register : Stream := ex_stream
  ("{'action':' Register','signer_id':' authority','key_id':'key-1','algorithm':'ED25519','public_key':'" ++ ex_public_key ++
   "','valid_from':'0001-01-01T00:01:40Z','valid_until':null}").

Definition ex_revoke : Stream := ex_stream
  "{'action':'REVOKE','signer_id':'authority','key_id':'key-1','revoked_at':'0001-01-01T00:05:00.0000001+00:00'} ".

Definition ex_register_run := Eval vm_compute in commands.runTrust id id "url" [] ex_register (fun _ => None) ([], EmptyDatabase).
Definition ex_keys_db : Database := ex_register_run.1.2.

Definition ex_revoke_run := Eval vm_compute in commands.runTrust id id "url" ["-"] ex_revoke (fun _ => None) ([], ex_keys_db).

(** What is wrong with a request. *)
Example refused_trust_requests :
  let decode s := commands.decodeTrustRequest (Some (ex_stream s)) in
  decode "{'action':'register','signer_id':'a','key_id':'k','algorithm':'RSA','public_key':'AA==','valid_from':'2026-07-26T10:00:00Z'}"
    = Err commands.ErrInvalidTrustRequest /\
  decode "{'action':'revoke','signer_id':'a','key_id':'k','revoked_at':'2026-07-26T10:00:00Z','public_key':'AA=='}"
    = Err commands.ErrInvalidTrustRequest /\
  decode "{'action':'delete','signer_id':'a','key_id':'k','revoked_at':'2026-07-26T10:00:00Z'}"
    = Err commands.ErrInvalidTrustRequest /\
  decode "{'action':'revoke','signer_id':'a','key_id':'k','revoked_at':'2026-07-26T10:00:00Z','unknown':true}"
    = Err commands.ErrInvalidTrustRequest /\
  decode "{} {}" = Err commands.ErrInvalidTrustRequest /\
  is_ok (decode "{'action':'revoke','signer_id':'a','key_id':'k','revoked_at':'2026-07-26T10:00:00Z','public_key':[]}") = true /\
  commands.trustInput ["a"; "b"] ex_revoke (fun _ => None) = Err commands.ErrTrustInputUsage.
Proof. vm_compute. split_and!; reflexivity. Qed.

Example lifecycle_requests :
  commands.parseLifecycleRequest ["Retire"; " RELEASE"; "3.0"; "0001-01-01T00:05:00Z "]
    = Ok (commands.MkLifecycleRequest "retire" "RELEASE" "3.0" (utc_seconds 300)) /\
  commands.parseLifecycleRequest ["retire"; "RELEASE"; "3.0"; "0001-01-01T00:00:00Z"] = Err commands.ErrLifecycleUsage /\
  commands.parseLifecycleRequest ["resume"; "RELEASE"; "3.0"; "0001-01-01T00:05:00Z"] = Err commands.ErrLifecycleUsage /\
  commands.parseLifecycleRequest ["retire"; "RELEASE"; "3.0"] = Err commands.ErrLifecycleUsage.
Proof. vm_compute. split_and!; reflexivity. Qed.

(** A policy with one rule. *)
Definition ex_small : policy.Version := Eval vm_compute in
  ex_new_version ["SEEN"] (json.text
    ("{'evidence_qualification':{'version':'q1','trusted_sources':['CAM-1'],'allowed_types':['POSITION']," ++
     "'max_age':'1h','minimum_confidence':0.25},'rules':[{'rule_id':'SEEN','operator':'EXISTENCE'," ++
     "'evidence_type':'POSITION','minimum_count':1}]}")).

Definition ex_admission_text : bytes :=
  json.text "{'policy':" ++
  default [] (evidencebundle.MarshalPolicySnapshot (evidencebundle.toJSON (policy.VersionSnapshot ex_small))) ++
  json.text (",'signature':{'signer_id':'authority','key_id':'key-1','algorithm':'ED25519','signed_at':'0001-01-01T00:03:00Z','value':'"
    ++ ex_value ++ "'},'approval':{'policy_id':'RELEASE','version':'3.0','policy_hash':'" ++ policy.Hash (policy.VersionSnapshot ex_small)
    ++ "','approved_by':' carol','approved_at':'0001-01-01T00:04:00Z'},'verified_at':'0001-01-01T00:06:00Z'," ++
    "'activated_at':'0001-01-01T00:07:00Z'}").

Definition ex_admission : Stream := Eval vm_compute in MkStream ex_admission_text None.

Definition ex_admission_run := Eval vm_compute in commands.runAdmission "url" [] ex_admission (fun _ => None) ([], ex_keys_db).

Lemma ex_admission_runs : commands.runAdmission "url" [] ex_admission (fun _ => None) ([], ex_keys_db) = ex_admission_run.
Proof. vm_compute. reflexivity. Qed.

Definition ex_request : commands.admissionRequest := Eval vm_compute in
  match commands.decodeAdmissionRequest (Some ex_admission) with Ok r => r | Err _ => commands.zeroAdmissionRequest end.

Lemma ex_requested args : args = [] -> requested args ex_admission (fun _ => None) ex_request.
Proof. intros ->. exists ex_admission. split; [reflexivity|]. vm_compute. reflexivity. Qed.

(** The policy is admitted by the key that was registered. *)
Lemma admission_command_is_sound_witness :
  exists r v key, justified r v key ex_keys_db /\
    installed v (TrimSpace (policy.ApprovedBy (commands.AdmissionApproval r))) ex_keys_db ex_admission_run.1.2.
Proof.
  destruct (admission_command_is_sound "url" [] ex_admission (fun _ => None) [] ex_keys_db ex_admission_run.1.1
    ex_admission_run.1.2 ex_admission_run.2 ex_admission_runs) as [[Hn _]|(r & v & key & _ & Hj & Hi & _)].
  - exfalso. eapply Hn. reflexivity.
  - exists r, v, key. split; [exact Hj|exact Hi].
Defined.

Lemma ex_revoke_runs :
  commands.runTrust id id "url" ["-"] ex_revoke (fun _ => None) ([], ex_keys_db) = ex_revoke_run.
Proof. vm_compute. reflexivity. Qed.

(** Once the key is revoked the same request is refused. *)
Lemma revoked_key_admits_nothing_witness :
  exists err, (commands.runAdmission "url" [] ex_admission (fun _ => None) ([], ex_revoke_run.1.2)).2 = Err err.
Proof.
  destruct (commands.runAdmission "url" [] ex_admission (fun _ => None) ([], ex_revoke_run.1.2)) as [[w d] res] eqn:E.
  refine (proj1 (revoked_key_admits_nothing id id "url" ["-"] ex_revoke (fun _ => None) [] ex_keys_db ex_revoke_run.1.1
    ex_revoke_run.1.2 (match ex_revoke_run.2 with Ok r => r | Err _ => commands.zeroTrustRequest end) []
    "url" [] ex_admission (fun _ => None) [] w d res ex_request ex_revoke_runs _ E (ex_requested [] eq_refl) _ _ _));
    [reflexivity..|right; vm_compute; intros [=]].
Defined.
